(* ===== verification/_CoqProject ===== *)
-Q . S2P
Prelude.v
Errors.v
Notify.v
Context.v
Decimal.v
Crontab.v
Schema.v
Json.v
Serialization.v
WorkflowStatus.v
Steps.v
Management.v
Fork.v
Debounce.v
Messaging.v
Queues.v
Schedules.v
Scheduler.v
StepExecution.v
Executor.v
QueueRunner.v
Datasource.v
Query.v
Lifecycle.v
Await.v
Retry.v
ContextOptions.v
Start.v
Observe.v
Connection.v
Conductor.v
Api.v
Debouncer.v
Client.v
Registry.v
Registered.v
Kafka.v
Trigger.v
Admin.v
Migrations.v
Sqs.v
