(* ===== verification/Prelude.v ===== *)
(** * A model of the DBOS Transact durable-execution engine

    DBOS Transact runs TypeScript functions as durable workflows: a workflow records its
    status, and each of its steps its outcome, in a PostgreSQL system database, so that after a
    crash any executor can run the workflow again and it resumes where it stopped.  This library
    translates the engine (src/src), and the packages that give steps transactional access to an
    application database (src/packages/*-datasource), into Rocq functions, and proves what makes
    the engine correct.

    ** The parts and their files

    - Prelude.v: the outcome type, the state-and-error monad [M] (its store survives a throw;
      [transaction] undoes it), the interference of other processes, and the lemmas on lists,
      strings, maps and monadic runs that all files share.
    - Errors.v: the exception classes of error.ts.
    - Schema.v: the system database [sysdb] of system_db_schema.ts, a finite map per table, with
      its keys, foreign keys and unique index; [db_ok] is the well-formedness of a state.
    - WorkflowStatus.v, Steps.v, Management.v, Fork.v, Debounce.v, Messaging.v, Queues.v,
      Schedules.v, Query.v: the methods of [SystemDatabase] (system_database.ts) section by
      section.  A method is a function of its arguments, of the clock it reads and of the
      database; a method that polls takes what happens at each of its pauses.  Debounce.v also
      has the coalescing loop of debouncer.ts, Queues.v the configuration of [WorkflowQueue]
      (wfqueue.ts), Query.v the listings of workflow_management.ts.
    - Context.v: the workflow context and its function IDs (context.ts).
    - StepExecution.v, Executor.v: running steps and workflows (dbos-executor.ts).  The state of
      a process is the system database and its map of running workflows.
    - QueueRunner.v: the dispatcher that polls the queues (wfqueue.ts).
    - Crontab.v, Scheduler.v: cron expressions and the scheduler loops (scheduler/).
    - Decimal.v, Json.v, Serialization.v: numerals, JSON and the value formats
      (serialization.ts).
    - Datasource.v: the transactional steps of the data source packages (datasource.ts and
      packages/*-datasource/index.ts), over a [Provider] record that each package instantiates.
    - Lifecycle.v: the operations of the system database together, as a step relation.
    - Await.v: waiting for workflows, one or several (dbos-executor.ts, system_database.ts and
      [DBOS.getResult], [waitFirst], [waitAll]).
    - Retry.v: [dbRetry] and the errors of PostgreSQL it retries (system_database.ts).
    - Notify.v: the notifier on LISTEN/NOTIFY with its semaphores (system_database.ts, utils.ts).
    - ContextOptions.v, Start.v, Api.v: the class [DBOS] (dbos.ts): the [with...] blocks; starting
      workflows, children and singletons; every other operation that reads or changes the system
      database, as a computation on the context that gives a computation on the database.
    - Debouncer.v: the [Debouncer] of a running process (debouncer.ts).
    - Client.v: every operation of [DBOSClient] (client.ts), for programs without an executor.
    - Registry.v, Registered.v: the registries of functions and classes and the decorators that
      fill them (decorators.ts, dbos.ts), with the authorization check (authdecorators.ts); what
      launching makes of them.
    - Kafka.v: the Kafka receivers (packages/kafkajs-receive, packages/confluent-kafka-receive): the
      registrations of consumers and the handling of batches (with eventreceiver.ts).
    - Trigger.v: the triggers on database tables (packages/pgnotifier-receive): the queue of
      payloads, what launching makes of the registrations, the catch-up queries and the dispatch.
    - Sqs.v: the SQS receiver (packages/sqs-receive).
    - Observe.v: the events, notifications and streams of a workflow as they are shown.
    - Connection.v, Conductor.v: the conductor (conductor/): its connection as a step relation,
      and the answer to each message of its protocol.
    - Admin.v: the admin server (adminserver.ts): its router and its endpoints, on the same
      operations.
    - Migrations.v: the runner that brings the schema up to date (sysdb_migrations/migration_runner.ts).

    The components meet in the system database.  The executor and the queue runner call its
    methods through the same monad; Lifecycle.v takes any interleaving of these calls by any
    number of processes, so what it proves does not depend on who calls.  The data sources are
    the exception: their records live in the application database, and the theorems of
    Datasource.v are about the two databases side by side.  Api.v, Client.v, Conductor.v and Admin.v
    are the ways in: they are composed of the operations of the other files, and their theorems apply
    those of the operations they call.

    ** What the theorems show

    - Durability: a workflow that is run again from the checkpoints of any prefix of a run makes
      the same calls with the same results and continues ([StepExecution]); a transactional
      step takes effect once whatever the crashes and retries ([Datasource]); messages are
      received once, and in order ([Messaging]).
    - The life of a workflow: all reachable states are well formed, finished workflows and
      recorded checkpoints do not change except by the operations that say so ([Lifecycle]),
      crash loops end in the dead letter queue ([WorkflowStatus]), cancelling, deleting and
      forking act on exactly the workflows they name and keep their history ([Management],
      [Fork]).
    - Queues: a poll claims exactly the workflows the specification selects, within the
      concurrency and rate limits of its snapshot, and two polls that overlap never claim the same
      workflow ([Queues]); each queue is polled again and again ([QueueRunner]).
    - Time: an expression fires at the instants the usual reading of cron expressions says
      ([Crontab]), and the schedule loops and backfills enqueue exactly the due times
      ([Scheduler]).
    - Data: every value that the format preserves reads back ([Serialization]), and the queries
      return exactly the rows their filters describe ([Query]); what is shown of a workflow's events,
      notifications and streams is what it stored ([Observe]).
    - Waiting: a wait returns what the workflow left, again on each replay ([Await]); a reader is
      woken unless a notification was dropped on its way, and then it polls ([Notify]); a method
      with a checkpoint that is retried after lost connections takes effect in one call ([Retry]).
    - The program's side: a block restores the options of the context it found ([ContextOptions]);
      a singleton start gives the same workflow on a replay ([Start]), and so does a debounce,
      without bouncing or starting one again ([Debouncer]); calls made at once, but for those that
      await something first, reserve consecutive function IDs and each is checkpointed under its
      own ([Api]).
    - Clients: a singleton enqueue returns the one workflow that holds its deduplication ID, and a
      workflow that a client enqueues is claimed by a poll of its queue, and not before its delay
      is over ([Client]).
    - Registration: whatever a program registers, in whatever order, recovery finds a function under
      the names its workflows are stored with, and a function that requires roles does not run
      without them ([Registered]).
    - Messages: what a Kafka consumer group commits is one workflow in the database for each
      message, however often it is delivered and whatever fails, and a batch gets through once the
      outages end ([Kafka]); a message of SQS is one workflow or still in its queue ([Sqs]).
    - Records of tables: the payloads come out of the queue in order and the first catch-up before
      what is notified, and no record of a watched table is missed, wherever the executors die,
      unless its own start throws ([Trigger]).
    - The conductor: a connection that is lost is noticed and opened again, as long as no event of
      a replaced socket comes late ([Connection]); every request is answered with what its
      operation returns or with the error that it throws, only requests
      that are meant to change the database do, and a workflow can be moved between two
      executors ([Conductor]).
    - The admin server: a request reaches exactly the endpoint of its URL, is answered, and an error
      means that nothing was done ([Admin]).
    - The schema: runs of the migrations that are stopped anywhere and repeated come to the schema of
      one run ([Migrations]).

    ** Fuel and bounds

    Recursion that is not structural carries fuel, and each use has a theorem or lemma that the
    fuel given is enough: [getWorkflowChildren] explores at most one level per row of the table;
    [nextWakeupTime] makes at most one round per second of an hour, as the code's own loop;
    [backfill_fuel] is one round per second of the interval; the retry loop of a step has
    the configured number of attempts; [invoke_loop] needs one round more than the attempts that
    fail with a retriable error ([invocation_terminates]); the JSON parser starts with twice the length
    of its text; the range expansion of cron expressions with the length of the expression;
    [unwrap] follows at most as many links of an error as there are, and two more; [dbRetry] needs
    one round more than the attempts that lose the connection.
    Instants are integer milliseconds; JavaScript numbers are integers (or rationals, for the
    intervals and waits that the code multiplies by fractions), which agrees with doubles below
    2^53.

    ** Not modelled

    Configuration files and the environment, logging and tracing, the names and types of
    parameters that decorators reflect on, the text of the SQL migrations (the schema is their
    result), the command lines, the cloud client, the HTTP packages, the connections
    of the receivers and of the triggers: input, output and reflection around the engine.  PostgreSQL is
    modelled through the statements the code sends: each is a function on the tables, and a
    transaction is atomic.  The Kafka broker is modelled by what it delivers: published messages
    from a position that its group committed.  The pg driver, superjson,
    serialize-error, the time zones of the platform and the application's own functions are
    parameters. *)

From stdpp Require Export sorting strings numbers.
From stdpp Require Export base list gmap fin_maps.

Declare Scope dbos_scope.
Delimit Scope dbos_scope with dbos.
#[global] Open Scope string_scope.
#[global] Open Scope list_scope.
#[global] Open Scope Z_scope.
#[global] Open Scope dbos_scope.

(** * Outcomes and the state-and-error monad *)

(** The result of an asynchronous TypeScript function: it resolves with a value
    or throws.  [E] is the type of the thrown errors. *)
Inductive outcome (E A : Type) : Type :=
| Ok (a : A)
| Throw (e : E).
Arguments Ok {E A} a.
Arguments Throw {E A} e.

Definition is_ok {E A} (o : outcome E A) : bool :=
  match o with Ok _ => true | Throw _ => false end.

(** A computation over a store [S]: the store survives a [Throw], as the effects
    of the statements that ran before an exception survive it.  Undoing them is
    the job of [transaction]. *)
Definition M (S E A : Type) : Type := S -> outcome E A * S.

Definition ret {S E A} (a : A) : M S E A := fun s => (Ok a, s).

Definition throw {S E A} (e : E) : M S E A := fun s => (Throw e, s).

Definition bind {S E A B} (m : M S E A) (k : A -> M S E B) : M S E B :=
  fun s => match m s with
           | (Ok a, s') => k a s'
           | (Throw e, s') => (Throw e, s')
           end.

Definition get {S E} : M S E S := fun s => (Ok s, s).

Definition put {S E} (s : S) : M S E unit := fun _ => (Ok tt, s).

(** [try { m } catch (e) { h(e) }] *)
Definition try_catch {S E A} (m : M S E A) (h : E -> M S E A) : M S E A :=
  fun s => match m s with
           | (Ok a, s') => (Ok a, s')
           | (Throw e, s') => h e s'
           end.

(** [BEGIN; m; COMMIT], with [ROLLBACK] when [m] throws. *)
Definition transaction {S E A} (m : M S E A) : M S E A :=
  fun s => match m s with
           | (Ok a, s') => (Ok a, s')
           | (Throw e, _) => (Throw e, s)
           end.

Definition when {S E} (b : bool) (m : M S E unit) : M S E unit :=
  if b then m else ret tt.

(** [for (const x of xs) { await f(x); }] *)
Fixpoint for_each {S E A} (f : A -> M S E unit) (xs : list A) : M S E unit :=
  match xs with
  | [] => ret tt
  | x :: xs' => bind (f x) (fun _ => for_each f xs')
  end.

Notation "'let*' x ':=' m 'in' k" := (bind m (fun x => k))
  (at level 10, x pattern, m at level 100, k at level 200)
  : dbos_scope.
Notation "m ;* k" := (bind m (fun _ => k))
  (at level 95, right associativity) : dbos_scope.

(** * Record updates *)

(** [Eta R] rebuilds a record from its projections; [Setter proj] updates the
    field [proj] and leaves the others alone.  Instances of [Setter] are found
    by abstracting the projection in the rebuilt record. *)
Class Eta (R : Type) := eta_record : R -> R.

Class Setter {R T : Type} (proj : R -> T) := set : (T -> T) -> R -> R.
Arguments set {R T} proj {_} _ _ /.

Ltac solve_setter :=
  lazymatch goal with
  | |- @Setter ?R ?T ?proj =>
      let inst := constr:(_ : Eta R) in
      let body := eval hnf in inst in
      let abs := eval pattern proj in body in
      lazymatch abs with
      | ?g _ =>
          let res := constr:(fun (f : T -> T) => g (fun r => f (proj r))) in
          let res := eval cbv beta in res in
          exact res
      end
  end.

#[export] Hint Extern 1 (Setter _) => solve_setter : typeclass_instances.

Notation "r <| f := v |>" := (set f (fun _ => v) r)
  (at level 12, left associativity, f at level 11, v at level 200) : dbos_scope.
Notation "r <| f ::= g |>" := (set f g r)
  (at level 12, left associativity, f at level 11, g at level 200) : dbos_scope.

(** * JavaScript and SQL value helpers *)

(** [x ?? y] *)
Definition coalesce {A} (o : option A) (d : A) : A := default d o.

(** [x || y] and the truthiness test on strings: the empty string is falsy. *)
Definition truthy_str (o : option string) : option string :=
  match o with
  | Some EmptyString => None
  | _ => o
  end.

(** Truthiness of an optional number: [undefined], [null] and [0] are falsy. *)
Definition truthy_num (o : option Z) : option Z :=
  match o with
  | Some 0 => None
  | _ => o
  end.

(** [a IS NOT DISTINCT FROM b], and JavaScript's [===] on optional values. *)
Definition opt_eqb {A} `{EqDecision A} (a b : option A) : bool := bool_decide (a = b).

(** SQL's [a = b]: NULL on either side is not true. *)
Definition sql_eqb {A} `{EqDecision A} (a : option A) (b : A) : bool :=
  match a with
  | Some x => bool_decide (x = b)
  | None => false
  end.

(** SQL's [a <= b] and [a > b] for a nullable left operand. *)
Definition sql_leb (a : option Z) (b : Z) : bool :=
  match a with Some x => x <=? b | None => false end.
Definition sql_ltb (a : option Z) (b : Z) : bool :=
  match a with Some x => x <? b | None => false end.
Definition sql_gtb (a : option Z) (b : Z) : bool :=
  match a with Some x => b <? x | None => false end.
Definition sql_geb (a : option Z) (b : Z) : bool :=
  match a with Some x => b <=? x | None => false end.

(** [GREATEST(a, b)] ignores NULL operands. *)
Definition sql_greatest (a b : option Z) : option Z :=
  match a, b with
  | Some x, Some y => Some (Z.max x y)
  | Some x, None => Some x
  | None, o => o
  end.

(** [x = ANY(xs)] and [x IN (...)] *)
Definition mem {A} `{EqDecision A} (x : A) (xs : list A) : bool := bool_decide (x ∈ xs).

Definition string_prefixb : string -> string -> bool := String.prefix.

(** * Tables *)

(** A table is a finite map from its primary key to the other columns.
    [UPDATE t SET f WHERE p] *)
Definition update_where {K A} `{Countable K}
    (p : K -> A -> bool) (f : A -> A) (t : gmap K A) : gmap K A :=
  map_imap (fun k r => Some (if p k r then f r else r)) t.

(** [SELECT * FROM t WHERE p], in an order the query leaves open: the scan order
    is whatever [map_to_list] yields. *)
Definition select_where {K A} `{Countable K}
    (p : K -> A -> bool) (t : gmap K A) : list (K * A) :=
  List.filter (fun kr => p kr.1 kr.2) (map_to_list t).

(** [DELETE FROM t WHERE p] *)
Definition delete_where {K A} `{Countable K}
    (p : K -> A -> bool) (t : gmap K A) : gmap K A :=
  filter (fun kr => negb (p kr.1 kr.2) = true) t.

(** [COUNT(star)] *)
Definition count_where {K A} `{Countable K}
    (p : K -> A -> bool) (t : gmap K A) : Z :=
  Z.of_nat (length (select_where p t)).

(** [MAX(f)]: [None] is the NULL of an empty selection. *)
Definition max_of {A} (f : A -> Z) (l : list A) : option Z :=
  foldr (fun x acc => Some (match acc with Some m => Z.max (f x) m | None => f x end)) None l.

(** [ORDER BY]: a stable merge sort for the order [le]. *)
Definition order_by {A} (le : A -> A -> bool) (l : list A) : list A :=
  merge_sort (fun x y => Is_true (le x y)) l.

(** [LIMIT n], with [None] for no limit. *)
Definition limit {A} (n : option Z) (l : list A) : list A :=
  match n with
  | None => l
  | Some k => take (Z.to_nat k) l
  end.

(** * Lemmas: the monad *)

Section monad_laws.
Context {S E : Type}.

Lemma bind_ret_l {A B} (a : A) (k : A -> M S E B) s : bind (ret a) k s = k a s.
Proof. reflexivity. Qed.

Lemma bind_ok {A B} (m : M S E A) (k : A -> M S E B) s a s' :
  m s = (Ok a, s') -> bind m k s = k a s'.
Proof. unfold bind. by intros ->. Qed.

Lemma bind_throw {A B} (m : M S E A) (k : A -> M S E B) s e s' :
  m s = (Throw e, s') -> bind m k s = (Throw e, s').
Proof. unfold bind. by intros ->. Qed.

Lemma bind_inv_ok {A B} (m : M S E A) (k : A -> M S E B) s b s' :
  bind m k s = (Ok b, s') -> exists a s1, m s = (Ok a, s1) /\ k a s1 = (Ok b, s').
Proof. unfold bind. destruct (m s) as [[a|e] s1]; naive_solver. Qed.

Lemma bind_inv_throw {A B} (m : M S E A) (k : A -> M S E B) s e s' :
  bind m k s = (Throw e, s') -> m s = (Throw e, s') \/ exists a s1, m s = (Ok a, s1) /\ k a s1 = (Throw e, s').
Proof. unfold bind. destruct (m s) as [[a|e'] s1]; naive_solver. Qed.

Lemma transaction_throw {A} (m : M S E A) s e s' :
  transaction m s = (Throw e, s') -> s' = s.
Proof. unfold transaction. destruct (m s) as [[a|e'] s1]; naive_solver. Qed.

Lemma transaction_ok {A} (m : M S E A) s a s' :
  transaction m s = (Ok a, s') -> m s = (Ok a, s').
Proof. unfold transaction. destruct (m s) as [[a'|e'] s1]; naive_solver. Qed.

(** A predicate on stores that a computation keeps, whether it returns or
    throws. *)
Definition preserves {A} (P : S -> Prop) (m : M S E A) : Prop :=
  forall s, P s -> P (m s).2.

Lemma preserves_ret {A} P (a : A) : preserves P (ret a).
Proof. by intros s. Qed.

Lemma preserves_throw {A} P (e : E) : preserves P (throw (A := A) e).
Proof. by intros s. Qed.

Lemma preserves_get P : preserves P get.
Proof. by intros s. Qed.

Lemma preserves_bind {A B} P (m : M S E A) (k : A -> M S E B) :
  preserves P m -> (forall a, preserves P (k a)) -> preserves P (bind m k).
Proof.
  intros Hm Hk s Hs. unfold bind. specialize (Hm s Hs).
  destruct (m s) as [[a|e] s1]; [by apply Hk | done].
Qed.

Lemma preserves_transaction {A} P (m : M S E A) :
  preserves P m -> preserves P (transaction m).
Proof.
  intros Hm s Hs. unfold transaction. specialize (Hm s Hs).
  by destruct (m s) as [[a|e] s1].
Qed.

Lemma preserves_try_catch {A} P (m : M S E A) h :
  preserves P m -> (forall e, preserves P (h e)) -> preserves P (try_catch m h).
Proof.
  intros Hm Hh s Hs. unfold try_catch. specialize (Hm s Hs).
  destruct (m s) as [[a|e] s1]; [done | by apply Hh].
Qed.

Lemma preserves_when P b (m : M S E unit) : preserves P m -> preserves P (when b m).
Proof. destruct b; [done | intros _; apply preserves_ret]. Qed.

Lemma preserves_for_each {A} P (f : A -> M S E unit) xs :
  (forall x, x ∈ xs -> preserves P (f x)) -> preserves P (for_each f xs).
Proof.
  induction xs as [|x xs IH]; intros Hf; simpl; [apply preserves_ret |].
  apply preserves_bind; [apply Hf; set_solver | intros _; apply IH; set_solver].
Qed.

End monad_laws.

Create HintDb preserves discriminated.
#[export] Hint Resolve preserves_ret preserves_throw preserves_get preserves_bind
  preserves_transaction preserves_try_catch preserves_when : preserves.

(** * Lemmas: tables *)

Section tables.
Context {K A : Type} `{Countable K}.
Implicit Types (t : gmap K A) (p : K -> A -> bool).

Lemma lookup_update_where p f t k :
  update_where p f t !! k = (fun r => if p k r then f r else r) <$> t !! k.
Proof. unfold update_where. rewrite map_lookup_imap. by destruct (t !! k). Qed.

Lemma dom_update_where p f t : dom (update_where p f t) = dom t.
Proof.
  apply set_eq. intros k. rewrite !elem_of_dom, lookup_update_where.
  by rewrite fmap_is_Some.
Qed.

Lemma elem_of_select_where p t k r :
  (k, r) ∈ select_where p t <-> t !! k = Some r /\ p k r = true.
Proof.
  unfold select_where. rewrite list_elem_of_In, filter_In, <- list_elem_of_In.
  by rewrite elem_of_map_to_list.
Qed.

Lemma NoDup_fst_filter (q : K * A -> bool) (l : list (K * A)) :
  NoDup l.*1 -> NoDup (List.filter q l).*1.
Proof.
  induction l as [|x l IH]; simpl; [done|]. rewrite NoDup_cons. intros [Hx Hl].
  destruct (q x); [|by apply IH]. cbn. apply NoDup_cons. split; [|by apply IH].
  contradict Hx. apply list_elem_of_fmap in Hx as (y & -> & Hy).
  apply list_elem_of_fmap. exists y. split; [done|].
  apply list_elem_of_In, filter_In in Hy as [Hy _]. by apply list_elem_of_In.
Qed.

Lemma NoDup_select_where p t : NoDup (select_where p t).*1.
Proof. apply NoDup_fst_filter, NoDup_fst_map_to_list. Qed.

Lemma lookup_delete_where p t k :
  delete_where p t !! k = match t !! k with
                          | Some r => if p k r then None else Some r
                          | None => None
                          end.
Proof.
  unfold delete_where. destruct (t !! k) as [r|] eqn:E.
  - destruct (p k r) eqn:Hp.
    + apply map_lookup_filter_None. right. intros r' Hr'. simpl.
      simplify_eq. by rewrite Hp.
    + apply map_lookup_filter_Some. simpl. by rewrite Hp.
  - apply map_lookup_filter_None. by left.
Qed.

Lemma select_where_nil p t :
  select_where p t = [] <-> forall k r, t !! k = Some r -> p k r = false.
Proof.
  split.
  - intros E k r Hk. destruct (p k r) eqn:Hp; [|done].
    assert ((k, r) ∈ select_where p t) as Hin by by apply elem_of_select_where.
    rewrite E in Hin. by apply elem_of_nil in Hin.
  - intros Hf. destruct (select_where p t) as [|[k r] l] eqn:E; [done|].
    assert ((k, r) ∈ select_where p t) as Hin by (rewrite E; set_solver).
    apply elem_of_select_where in Hin as [Hk Hp]. by rewrite (Hf _ _ Hk) in Hp.
Qed.

(** A condition only one row meets. *)
Lemma select_where_unique p t k r :
  t !! k = Some r -> p k r = true ->
  (forall k' r', t !! k' = Some r' -> p k' r' = true -> k' = k) ->
  select_where p t = [(k, r)].
Proof.
  intros Hk Hp Hu.
  assert (forall x, x ∈ select_where p t <-> x = (k, r)) as Hin.
  { intros [k' r']. rewrite elem_of_select_where. split; [|naive_solver].
    intros [Hk' Hp']. pose proof (Hu _ _ Hk' Hp'). naive_solver. }
  pose proof (NoDup_select_where p t) as Hn.
  destruct (select_where p t) as [|x [|y l]].
  - exfalso. apply (elem_of_nil (k, r)). by apply Hin.
  - f_equal. apply Hin. set_solver.
  - assert (x = (k, r)) as -> by (apply Hin; set_solver).
    assert (y = (k, r)) as -> by (apply Hin; set_solver).
    simpl in Hn. apply NoDup_cons in Hn as [Hn _]. set_solver.
Qed.

Lemma update_where_unique p f t k r :
  t !! k = Some r -> p k r = true ->
  (forall k' r', t !! k' = Some r' -> p k' r' = true -> k' = k) ->
  update_where p f t = <[k := f r]> t.
Proof.
  intros Hk Hp Hu. apply map_eq. intros k'. rewrite lookup_update_where.
  destruct (decide (k' = k)) as [->|Hne].
  - rewrite Hk, lookup_insert_eq. simpl. by rewrite Hp.
  - rewrite lookup_insert_ne by done. destruct (t !! k') as [r'|] eqn:E; [|done]. simpl.
    destruct (p k' r') eqn:Ep; [|done]. destruct Hne. eauto.
Qed.

End tables.

(** * Lemmas: ordering and limits *)

Section order.
Context {A : Type} (le : A -> A -> bool).

Lemma order_by_Permutation l : order_by le l ≡ₚ l.
Proof. apply merge_sort_Permutation. Qed.

Lemma elem_of_order_by x l : x ∈ order_by le l <-> x ∈ l.
Proof.
  rewrite !list_elem_of_In.
  split; apply Permutation_in; [|symmetry]; apply order_by_Permutation.
Qed.

Lemma order_by_sorted l :
  (forall x y, le x y = true \/ le y x = true) ->
  (forall x y z, le x y = true -> le y z = true -> le x z = true) ->
  StronglySorted (fun x y => le x y = true) (order_by le l).
Proof.
  intros Htot Htr. unfold order_by.
  assert (StronglySorted (fun x y => Is_true (le x y))
            (merge_sort (fun x y => Is_true (le x y)) l)) as Hs.
  { apply StronglySorted_merge_sort.
    - intros x y z Hxy Hyz. apply Is_true_true in Hxy, Hyz. apply Is_true_true. eauto.
    - intros x y. destruct (Htot x y); [left|right]; by apply Is_true_true. }
  induction Hs as [|x l' Hs IH Hx]; constructor; [done|].
  eapply Forall_impl; [exact Hx|]. intros y Hy. by apply Is_true_true.
Qed.

Lemma limit_prefix n (l : list A) : limit n l `prefix_of` l.
Proof.
  destruct n as [k|]; simpl; [|done].
  exists (drop (Z.to_nat k) l). by rewrite take_drop.
Qed.

Lemma limit_length k (l : list A) : Z.of_nat (length (limit (Some k) l)) <= Z.max 0 k.
Proof. simpl. rewrite length_take. lia. Qed.

End order.

Lemma elem_of_limit {A} n (l : list A) x : x ∈ limit n l -> x ∈ l.
Proof.
  destruct (limit_prefix n l) as [l' E]. intros Hx. rewrite E.
  apply elem_of_app. by left.
Qed.

Lemma max_of_spec {A} (f : A -> Z) l :
  match max_of f l with
  | None => l = []
  | Some m => (exists x, x ∈ l /\ f x = m) /\ forall x, x ∈ l -> f x <= m
  end.
Proof.
  induction l as [|y l IH]; simpl; [done|]. destruct (max_of f l) as [m|].
  - destruct IH as [(x & Hx & Em) Hle]. split.
    + destruct (Z.max_spec (f y) m) as [[_ ->]|[_ ->]]; [exists x | exists y]; set_solver.
    + intros z [->|Hz]%elem_of_cons; [lia|]. specialize (Hle z Hz). lia.
  - subst. split; [exists y; set_solver|]. intros z [->|Hz]%elem_of_cons; [lia|].
    by apply elem_of_nil in Hz.
Qed.

Lemma max_of_ge {A} (f : A -> Z) l x : x ∈ l -> exists m, max_of f l = Some m /\ f x <= m.
Proof.
  intros Hx. pose proof (max_of_spec f l) as H. destruct (max_of f l) as [m|].
  - exists m. split; [done|]. by apply H.
  - subst. by apply elem_of_nil in Hx.
Qed.

Lemma filter_Permutation_bool {A} (q : A -> bool) (l l' : list A) :
  l ≡ₚ l' -> List.filter q l ≡ₚ List.filter q l'.
Proof.
  induction 1; simpl; repeat case_match; eauto using Permutation.
Qed.

Lemma length_filter_all {A} (q : A -> bool) (l : list A) :
  (forall x, x ∈ l -> q x = true) -> length (List.filter q l) = length l.
Proof.
  induction l as [|x l IH]; intros Hq; [done|]. simpl. rewrite Hq by set_solver. simpl.
  f_equal. apply IH. set_solver.
Qed.

Lemma length_filter_map {A B} (q : B -> bool) (f : A -> B) (l : list A) :
  length (List.filter q (map f l)) = length (List.filter (fun x => q (f x)) l).
Proof. by rewrite List.filter_map_swap, length_map. Qed.

(** In a list sorted by [le], the elements up to an index are below the element there. *)
Lemma sorted_prefix_le {A} (le : A -> A -> bool) (l : list A) i x y :
  StronglySorted (fun a b => le a b = true) l -> (forall a, le a a = true) ->
  l !! i = Some y -> x ∈ take (S i) l -> le x y = true.
Proof.
  intros Hs Hrefl Hi Hx. rewrite (take_S_r _ _ _ Hi) in Hx.
  apply elem_of_app in Hx as [Hx|Hx]; [|apply list_elem_of_singleton in Hx; by subst].
  rewrite <- (take_drop i l) in Hs. apply (StronglySorted_app_1_elem_of _ _ _ _ _ Hs); [done|].
  rewrite (drop_S _ _ _ Hi). set_solver.
Qed.

(** * Automation *)

Lemma mem_spec {A} `{EqDecision A} (x : A) xs : mem x xs = true <-> x ∈ xs.
Proof. unfold mem. apply bool_decide_eq_true. Qed.

Lemma mem_false {A} `{EqDecision A} (x : A) xs : mem x xs = false <-> x ∉ xs.
Proof. unfold mem. apply bool_decide_eq_false. Qed.

Lemma mem_cons {A} `{EqDecision A} (x y : A) l : mem x (y :: l) = bool_decide (x = y) || mem x l.
Proof.
  apply eq_true_iff_eq. by rewrite orb_true_iff, bool_decide_eq_true, !mem_spec, elem_of_cons.
Qed.

Lemma opt_eqb_spec {A} `{EqDecision A} (a b : option A) : opt_eqb a b = true <-> a = b.
Proof. apply bool_decide_eq_true. Qed.

Lemma sql_eqb_spec {A} `{EqDecision A} (a : option A) (b : A) :
  sql_eqb a b = true <-> a = Some b.
Proof.
  destruct a as [x|]; simpl; [|naive_solver]. rewrite bool_decide_eq_true. naive_solver.
Qed.

(** * Lemmas: strings *)

Lemma append_cons x (a b : string) : String x a +:+ b = String x (a +:+ b).
Proof. done. Qed.

Lemma append_assoc_str (a b c : string) : (a +:+ b) +:+ c = a +:+ b +:+ c.
Proof. induction a as [|x a IH]; [done|]. exact (f_equal (String x) IH). Qed.

Lemma append_nil_str (a : string) : a +:+ "" = a.
Proof. induction a as [|x a IH]; [done|]. by rewrite append_cons, IH. Qed.

Lemma length_append_str (a b : string) :
  String.length (a +:+ b) = (String.length a + String.length b)%nat.
Proof. induction a as [|c a IH]; [done|]. rewrite append_cons. simpl. by rewrite IH. Qed.

(** Split every boolean conjunction and turn boolean tests of the model into
    propositions. *)
Ltac break_bool :=
  repeat match goal with
  | H : _ && _ = true |- _ => apply andb_true_iff in H as [? ?]
  | H : _ || _ = false |- _ => apply orb_false_iff in H as [? ?]
  | H : negb _ = true |- _ => apply negb_true_iff in H
  | H : negb _ = false |- _ => apply negb_false_iff in H
  | H : bool_decide _ = true |- _ => apply bool_decide_eq_true in H
  | H : bool_decide _ = false |- _ => apply bool_decide_eq_false in H
  | H : mem _ _ = true |- _ => apply mem_spec in H
  | H : mem _ _ = false |- _ => apply mem_false in H
  | H : sql_eqb _ _ = true |- _ => apply sql_eqb_spec in H
  | H : opt_eqb _ _ = true |- _ => apply opt_eqb_spec in H
  | H : (_ <? _) = true |- _ => apply Z.ltb_lt in H
  | H : (_ <? _) = false |- _ => apply Z.ltb_ge in H
  | H : (_ <=? _) = true |- _ => apply Z.leb_le in H
  | H : (_ <=? _) = false |- _ => apply Z.leb_gt in H
  | H : (_ =? _) = true |- _ => apply Z.eqb_eq in H
  | H : (_ =? _) = false |- _ => apply Z.eqb_neq in H
  end.

(** Case on the scrutinee of the innermost [match] of the goal or a hypothesis. *)
Ltac break_match :=
  match goal with
  | |- context [match ?x with _ => _ end] =>
      lazymatch x with context [match _ with _ => _ end] => fail | _ => destruct x eqn:? end
  end.
Ltac break_match_in H :=
  match type of H with
  | context [match ?x with _ => _ end] =>
      lazymatch x with context [match _ with _ => _ end] => fail | _ => destruct x eqn:? end
  end.
