(* ===== verification/Errors.v ===== *)
(** The errors of src/src/error.ts: one constructor per exception class the
    modelled code throws, with the constructor arguments the class keeps, its
    numeric [dbosErrorCode] and its message; plus the exceptions that are not
    DBOS errors ([Error], [TypeError], and the [DatabaseError] of the pg driver
    with its SQLSTATE code). *)

From stdpp Require Import pretty.
From S2P Require Export Prelude.


(** Every class of error.ts, and the foreign exceptions. *)
Inductive dbos_error : Type :=
| DBOSError (msg : string)
| DBOSInitializationError (msg : string)
| DBOSWorkflowConflictError (workflowID : string)
| DBOSNotRegisteredError (name : string) (fullmsg : option string)
| DBOSDataValidationError (msg : string)
| DBOSNotAuthorizedError (msg : string) (status : Z)
| DBOSConfigKeyTypeError (configKey expectedType actualType : string)
| DBOSNonExistentWorkflowError (msg : string)
| DBOSFailLoadOperationsError (msg : string)
| DBOSMaxRecoveryAttemptsExceededError (workflowID : string) (maxRetries : Z)
| DBOSExecutorNotInitializedError
| DBOSInvalidWorkflowTransitionError (msg : option string)
| DBOSConflictingWorkflowError (workflowID msg : string)
| DBOSMaxStepRetriesError (stepName : string) (maxRetries : Z) (errors : list dbos_error)
| DBOSWorkflowCancelledError (workflowID : string)
| DBOSConflictingRegistrationError (msg : string)
| DBOSUnexpectedStepError (workflowID : string) (stepID : Z) (expectedName recordedName : string)
| DBOSAwaitedWorkflowCancelledError (workflowID : string)
| DBOSQueueDuplicatedError (workflowID queue deduplicationID : string)
| DBOSInvalidQueuePriorityError (priority min max : Z)
| DBOSAwaitedWorkflowExceededMaxRecoveryAttempts (workflowID : string)
| DBOSStepTimeoutError (stepName : string) (timeoutMS : Z)
| DBOSInvalidWorkflowInputError (workflowName cause : string)
| JsError (msg : string)
| JsTypeError (msg : string)
| PortableWorkflowError (name message : string)
| DatabaseError (code : string).

(** [getDBOSErrorCode]: the numeric code of a DBOS error, [undefined] for any
    other exception. *)
Definition getDBOSErrorCode (e : dbos_error) : option Z :=
  match e with
  | DBOSError _ => Some 1
  | DBOSInitializationError _ => Some 3
  | DBOSWorkflowConflictError _ => Some 5
  | DBOSNotRegisteredError _ _ => Some 6
  | DBOSDataValidationError _ => Some 9
  | DBOSNotAuthorizedError _ _ => Some 12
  | DBOSConfigKeyTypeError _ _ _ => Some 14
  | DBOSNonExistentWorkflowError _ => Some 16
  | DBOSFailLoadOperationsError _ => Some 17
  | DBOSMaxRecoveryAttemptsExceededError _ _ => Some 18
  | DBOSExecutorNotInitializedError => Some 20
  | DBOSInvalidWorkflowTransitionError _ => Some 21
  | DBOSConflictingWorkflowError _ _ => Some 22
  | DBOSMaxStepRetriesError _ _ _ => Some 23
  | DBOSWorkflowCancelledError _ => Some 24
  | DBOSConflictingRegistrationError _ => Some 25
  | DBOSUnexpectedStepError _ _ _ _ => Some 26
  | DBOSAwaitedWorkflowCancelledError _ => Some 27
  | DBOSQueueDuplicatedError _ _ _ => Some 28
  | DBOSInvalidQueuePriorityError _ _ _ => Some 29
  | DBOSAwaitedWorkflowExceededMaxRecoveryAttempts _ => Some 30
  | DBOSStepTimeoutError _ _ => Some 31
  | DBOSInvalidWorkflowInputError _ _ => Some 32
  | JsError _ | JsTypeError _ | PortableWorkflowError _ _ | DatabaseError _ => None
  end.

(** [isDataValidationError] *)
Definition isDataValidationError (e : dbos_error) : bool :=
  match getDBOSErrorCode e with
  | None => false
  | Some c => (c =? 9)%Z
  end.

(** The [message] each constructor passes to [super]; [formattedErrors] numbers
    the previous errors of an exhausted step from 1. *)
Fixpoint error_message (e : dbos_error) : string :=
  let fix formattedErrors (i : nat) (es : list dbos_error) : string :=
    match es with
    | [] => ""
    | [x] => "Error " +:+ pretty (Z.of_nat i) +:+ ": " +:+ error_message x
    | x :: es' => "Error " +:+ pretty (Z.of_nat i) +:+ ": " +:+ error_message x +:+ ". "
                  +:+ formattedErrors (S i) es'
    end in
  match e with
  | DBOSError m | DBOSInitializationError m | DBOSDataValidationError m
  | DBOSNotAuthorizedError m _ | DBOSNonExistentWorkflowError m
  | DBOSFailLoadOperationsError m | DBOSConflictingRegistrationError m
  | JsError m | JsTypeError m => m
  | DBOSWorkflowConflictError w => "Conflicting WF ID " +:+ w
  | DBOSNotRegisteredError n full =>
      default ("Operation (Name: " +:+ n +:+ ") not registered") full
  | DBOSConfigKeyTypeError k t a =>
      k +:+ " should be of type " +:+ t +:+ ", but got " +:+ a
  | DBOSMaxRecoveryAttemptsExceededError w n =>
      "Workflow " +:+ w +:+ " has exceeded its maximum of " +:+ pretty n
      +:+ " execution or recovery attempts. Further attempts to execute or recover it will fail."
  | DBOSExecutorNotInitializedError => "DBOS not initialized"
  | DBOSInvalidWorkflowTransitionError m => default "Invalid workflow state" m
  | DBOSConflictingWorkflowError w m =>
      "Conflicting workflow invocation with the same ID (" +:+ w +:+ "): " +:+ m
  | DBOSMaxStepRetriesError s n es =>
      "Step " +:+ s +:+ " has exceeded its maximum of " +:+ pretty n
      +:+ " retries. Previous errors: " +:+ formattedErrors 1%nat es
  | DBOSWorkflowCancelledError w => "Workflow " +:+ w +:+ " has been cancelled"
  | DBOSUnexpectedStepError w n x r =>
      "During execution of workflow " +:+ w +:+ " step " +:+ pretty n +:+ ", function "
      +:+ r +:+ " was recorded when " +:+ x +:+ " was expected."
      +:+ (if string_prefixb "DBOS.patch" r then "
          Check that your patches are backward compatible, that you do not have older code trying to recover workflows with newer patches, and that your workflow is deterministic."
           else " Check that your workflow is deterministic.")
  | DBOSAwaitedWorkflowCancelledError w => "Awaited " +:+ w +:+ " was cancelled"
  | DBOSQueueDuplicatedError w q d =>
      "Workflow " +:+ w +:+ " was deduplicated due to an existing workflow in queue " +:+ q
      +:+ " with deduplication ID " +:+ d +:+ "."
  | DBOSInvalidQueuePriorityError p lo hi =>
      "Invalid priority " +:+ pretty p +:+ ". Priority must be between " +:+ pretty lo
      +:+ " and " +:+ pretty hi +:+ "."
  | DBOSAwaitedWorkflowExceededMaxRecoveryAttempts w =>
      "Awaited " +:+ w +:+ " exceeded its maximum recovery attempts"
  | DBOSStepTimeoutError s t => "Step " +:+ s +:+ " timed out after " +:+ pretty t +:+ "ms"
  | DBOSInvalidWorkflowInputError n c =>
      "Could not serialize the arguments to workflow " +:+ n +:+ ": " +:+ c
  | PortableWorkflowError _ m => m
  | DatabaseError c => c
  end.
