(* ===== verification/Notify.v ===== *)
(** Notifications and permits: the [NotificationMap] of the waiting readers, the coalescing
    notifier and the LISTEN handler (src/src/system_database.ts), and the [Semaphore] that
    limits the polling reads (src/src/utils.ts).

    The processes interleave at their [await]s; between two of them the code is atomic.  The
    readers, the writers, the notifiers and the delivery of notifications are given by their
    steps, those that lose notifications included: a flush that fails, a writer that dies, a
    listener that loses its connection.  A callback resolves the promise of the reader that registered it: the reader stands
    for it. *)

From S2P Require Export Prelude.
From stdpp Require Import relations.

Open Scope Z_scope.

(** * NotificationMap *)

Module NotificationMap.

Section map.
Context {CB : Type}.

(** The callbacks of a key by their number, in insertion order *)
Record t : Type := MapOf {
  map : gmap string (list (nat * CB));
  curCK : nat
}.

Definition empty : t := MapOf ∅ 0.

(** [registerCallback] *)
Definition registerCallback (key : string) (cb : CB) (m : t) : (string * nat) * t :=
  let ck := curCK m in
  ((key, ck), MapOf (<[key := default [] (map m !! key) ++ [(ck, cb)]]> (map m)) (S ck)).

(** [deregisterCallback] *)
Definition deregisterCallback (k : string * nat) (m : t) : t :=
  match map m !! k.1 with
  | None => m
  | Some sm =>
      if negb (bool_decide (k.2 ∈ sm.*1)) then m
      else
        let sm' := List.filter (fun c => negb (bool_decide (c.1 = k.2))) sm in
        match sm' with
        | [] => MapOf (delete k.1 (map m)) (curCK m)
        | _ => MapOf (<[k.1 := sm']> (map m)) (curCK m)
        end
  end.

(** [callCallbacks]: the callbacks it calls, in order *)
Definition callCallbacks (key : string) (m : t) : list CB := (default [] (map m !! key)).*2.

(** The registrations of a key *)
Definition registered (m : t) (key : string) : list (nat * CB) := default [] (map m !! key).

(** No key has an empty map, and the numbers in use were given out once. *)
Record ok (m : t) : Prop := {
  ok_nonempty : forall key, map m !! key <> Some [];
  ok_fresh : forall key c, c ∈ registered m key -> (c.1 < curCK m)%nat;
  ok_nodup : forall key, NoDup (registered m key).*1
}.

Lemma ok_empty : ok empty.
Proof.
  split; unfold registered; intros key; rewrite ?lookup_empty; try done; [|constructor].
  intros c Hc. by apply not_elem_of_nil in Hc.
Qed.

(** ** What the operations do to the registrations *)

Lemma registered_register key cb m key' :
  registered (registerCallback key cb m).2 key'
  = registered m key' ++ (if decide (key' = key) then [(curCK m, cb)] else []).
Proof.
  unfold registered. simpl. case_decide as E; [subst; by rewrite lookup_insert_eq|].
  by rewrite lookup_insert_ne, app_nil_r.
Qed.

Lemma filter_absent ck (l : list (nat * CB)) :
  ck ∉ l.*1 -> List.filter (fun c => negb (bool_decide (c.1 = ck))) l = l.
Proof.
  induction l as [|c l IH]; intros Hn; [done|].
  rewrite fmap_cons, not_elem_of_cons in Hn. destruct Hn as [Hne Hn]. cbn [List.filter].
  rewrite bool_decide_false by done. cbn [negb]. f_equal. by apply IH.
Qed.

Lemma registered_deregister k m key' :
  registered (deregisterCallback k m) key'
  = if decide (key' = k.1)
    then List.filter (fun c => negb (bool_decide (c.1 = k.2))) (registered m key')
    else registered m key'.
Proof.
  unfold registered, deregisterCallback. destruct (map m !! k.1) as [sm|] eqn:E; simpl.
  2: { case_decide as Hk; [|done]. by rewrite Hk, E. }
  case_bool_decide as Hin; simpl.
  - destruct (List.filter _ sm) as [|x l] eqn:Ef; simpl; case_decide as Hk; subst;
      rewrite ?lookup_delete_eq, ?lookup_insert_eq, ?lookup_delete_ne, ?lookup_insert_ne by done; try done;
      by rewrite E; simpl; rewrite Ef.
  - case_decide as Hk; [|done]. rewrite Hk, E. simpl. by rewrite filter_absent.
Qed.

Lemma map_ok_register key cb m : ok m -> ok (registerCallback key cb m).2.
Proof.
  intros [He Hf Hn]. split.
  - intros key'. simpl. destruct (decide (key' = key)) as [->|].
    + rewrite lookup_insert_eq. intros E. injection E as E. by destruct (default [] (map m !! key)).
    + rewrite lookup_insert_ne by done. apply He.
  - intros key' c. rewrite registered_register, elem_of_app. simpl.
    intros [Hc|Hc]; [apply Hf in Hc; lia|]. case_decide; [|by apply not_elem_of_nil in Hc].
    apply list_elem_of_singleton in Hc as ->. simpl. lia.
  - intros key'. rewrite registered_register, fmap_app. apply NoDup_app. split; [apply Hn|].
    split; [|case_decide; simpl; [apply NoDup_singleton|constructor]].
    intros ck Hck Hin. case_decide; [|by apply not_elem_of_nil in Hin]. simpl in Hin.
    apply list_elem_of_singleton in Hin as ->.
    apply list_elem_of_fmap in Hck as (c & Hc & Hck). apply Hf in Hck. lia.
Qed.

Lemma ok_deregister k m : ok m -> ok (deregisterCallback k m).
Proof.
  intros [He Hf Hn]. split.
  - intros key'. unfold deregisterCallback. destruct (map m !! k.1) as [sm|]; [|apply He].
    destruct (negb _); [apply He|]. destruct (List.filter _ sm) as [|x l]; simpl;
      destruct (decide (key' = k.1)) as [->|];
      rewrite ?lookup_delete_eq, ?lookup_insert_eq, ?lookup_delete_ne, ?lookup_insert_ne by done;
      first [done|apply He].
  - intros key' c. assert (curCK (deregisterCallback k m) = curCK m) as ->.
    { unfold deregisterCallback. repeat case_match; done. }
    rewrite registered_deregister. case_decide; [|apply Hf].
    rewrite list_elem_of_In, filter_In, <- list_elem_of_In. intros [? _]. by eapply Hf.
  - intros key'. rewrite registered_deregister. case_decide; [|apply Hn].
    eapply sublist_NoDup; [apply (Hn key')|]. apply fmap_sublist.
    generalize (registered m key'). intros l. clear. induction l as [|c l IH]; [done|]. simpl.
    destruct (negb _); by constructor.
Qed.

Lemma registered_unique m key ck a b :
  ok m -> (ck, a) ∈ registered m key -> (ck, b) ∈ registered m key -> a = b.
Proof.
  intros [_ _ Hn] Ha Hb. specialize (Hn key).
  apply list_elem_of_lookup in Ha as [i Hi]. apply list_elem_of_lookup in Hb as [j Hj].
  assert (i = j) as ->; [|congruence].
  apply (NoDup_lookup _ i j ck Hn); by rewrite list_lookup_fmap, ?Hi, ?Hj.
Qed.
End map.
Arguments t CB : clear implicits.
End NotificationMap.

(** * Semaphore *)

Module Semaphore.

Section semaphore.
Context {W : Type}.

Record t : Type := SemaphoreOf {
  enabled : bool;
  available : Z;
  waiters : list W
}.

(** The constructor; [None] is a limit that is not finite. *)
Definition make (limit : option Z) : t :=
  match limit with
  | Some l => if 0 <? l then SemaphoreOf true l [] else SemaphoreOf false 0 []
  | None => SemaphoreOf false 0 []
  end.

(** [acquire] by [w]: whether the promise resolves at once. *)
Definition acquire (w : W) (s : t) : bool * t :=
  if negb (enabled s) then (true, s)
  else if 0 <? available s then (true, SemaphoreOf (enabled s) (available s - 1) (waiters s))
  else (false, SemaphoreOf (enabled s) (available s) (waiters s ++ [w])).

(** [release]: the waiter that is handed the permit. *)
Definition release (s : t) : option W * t :=
  if negb (enabled s) then (None, s)
  else match waiters s with
       | w :: ws => (Some w, SemaphoreOf (enabled s) (available s) ws)
       | [] => (None, SemaphoreOf (enabled s) (available s + 1) [])
       end.

(** [runExclusive], of many: the semaphore and those that run under a permit.  One calls it, or
    one that runs returns or throws. *)
Definition config : Type := t * list W.

Definition arrive (w : W) (c : config) : config :=
  let (now, s) := acquire w c.1 in (s, if now then c.2 ++ [w] else c.2).

Definition finish (i : nat) (c : config) : config :=
  let (next, s) := release c.1 in (s, base.delete i c.2 ++ option_list next).

Inductive step : nat -> config -> config -> Prop :=
| step_arrive w c : step 0 c (arrive w c)
| step_finish i c : is_Some (c.2 !! i) -> step 1 c (finish i c).

(** [n] have finished between the two states. *)
Inductive run : nat -> config -> config -> Prop :=
| run_refl c : run 0 c c
| run_step k n c c1 c' : step k c c1 -> run n c1 c' -> run (k + n) c c'.

Record ok (limit : Z) (c : config) : Prop := {
  ok_enabled : enabled c.1 = true;
  ok_permits : Z.of_nat (length c.2) + available c.1 = limit;
  ok_available : 0 <= available c.1;
  ok_waiting : waiters c.1 <> [] -> available c.1 = 0
}.

Lemma permits_ok_step limit k c c' : ok limit c -> step k c c' -> ok limit c'.
Proof.
  intros [He Hp Ha Hw] Hs. destruct Hs as [w [s rs]|i [s rs] Hi]; simpl in *.
  - unfold arrive, acquire. simpl. rewrite He. simpl. destruct (0 <? available s) eqn:E.
    + apply Z.ltb_lt in E. split; simpl; try done; [rewrite length_app; simpl; lia|lia|].
      intros Hne. specialize (Hw Hne). lia.
    + apply Z.ltb_ge in E. split; simpl; try done. intros _. lia.
  - unfold finish, release. simpl. rewrite He. simpl. pose proof (lookup_lt_is_Some_1 _ _ Hi).
    destruct (waiters s) as [|w ws] eqn:E; split; simpl; try done;
      rewrite ?length_app, ?length_delete by done; simpl; try lia.
    intros _. by apply Hw.
Qed.

Lemma step_waiters limit k c c' i w :
  ok limit c -> step k c c' -> waiters c.1 !! i = Some w ->
  if decide (k <= i)%nat then waiters c'.1 !! (i - k)%nat = Some w else w ∈ c'.2.
Proof.
  intros [He _ _ _] Hs Hi. destruct Hs as [w' [s rs]|j [s rs] Hj]; cbn [fst snd] in *.
  - rewrite decide_True by lia. unfold arrive, acquire. simpl. rewrite He, Nat.sub_0_r. simpl.
    destruct (0 <? available s); simpl; [done|]. by apply lookup_app_l_Some.
  - unfold finish, release. simpl. rewrite He. simpl.
    destruct (waiters s) as [|w0 ws]; [done|]. destruct i as [|i].
    + rewrite decide_False by lia. simplify_eq/=. set_solver.
    + rewrite decide_True by lia. simpl. by rewrite Nat.sub_0_r.
Qed.

(** At most [limit] polls run at once, a permit is never lost, and nobody waits while one is
    free; a waiting poll is woken in turn, after exactly as many polls have finished as waited
    before it and one more, however many arrive later. *)
Theorem semaphore_fair (limit : Z) (n : nat) (c c' : config) :
  0 < limit -> rtc (fun c c' => exists k, step k c c') (make (Some limit), []) c -> run n c c' ->
  Z.of_nat (length c.2) <= limit
  /\ (waiters c.1 <> [] -> Z.of_nat (length c.2) = limit)
  /\ (forall i w, waiters c.1 !! i = Some w -> (n <= i)%nat -> waiters c'.1 !! (i - n)%nat = Some w)
  /\ (forall i w c1, waiters c.1 !! i = Some w -> n = i -> step 1 c' c1 -> w ∈ c1.2).
Proof.
  intros Hl Hr Hrun. assert (ok limit c) as Hok.
  { remember (make (Some limit), []) as c0 eqn:E. assert (ok limit c0) as H0.
    { subst. unfold make. rewrite (proj2 (Z.ltb_lt _ _) Hl). by split; simpl; try lia. }
    clear E. induction Hr as [c|c1 c2 c3 [k Hs] _ IH]; [done|]. by eapply IH, permits_ok_step. }
  assert (forall i w, waiters c.1 !! i = Some w -> (n <= i)%nat ->
            waiters c'.1 !! (i - n)%nat = Some w /\ ok limit c') as Hkeep.
  { clear Hr. induction Hrun as [c|k n c c1 c' Hs Hrun IH]; intros i w Hi Hn.
    - by rewrite Nat.sub_0_r.
    - pose proof (step_waiters limit k c c1 i w Hok Hs Hi) as H. rewrite decide_True in H by lia.
      destruct (IH (permits_ok_step _ _ _ _ Hok Hs) (i - k)%nat w H ltac:(lia)) as [H1 H2]. split; [|done].
      by replace (i - (k + n))%nat with (i - k - n)%nat by lia. }
  destruct Hok as [He Hp Ha Hw]. split; [lia|]. split; [intros Hne; specialize (Hw Hne); lia|]. split.
  - intros i w Hi Hn. by apply Hkeep.
  - intros i w c1 Hi -> Hs. destruct (Hkeep i w Hi ltac:(lia)) as [H1 H2]. rewrite Nat.sub_diag in H1.
    pose proof (step_waiters limit 1 c' c1 0 w H2 Hs H1) as H. by rewrite decide_False in H by lia.
Qed.
End semaphore.
Arguments t W : clear implicits.
Arguments config W : clear implicits.
End Semaphore.

(** * The notifier and the listener *)

Module Notifier.

Definition DBOS_NOTIFICATIONS_CHANNEL : string := "dbos_notifications_channel".
Definition DBOS_WORKFLOW_EVENTS_CHANNEL : string := "dbos_workflow_events_channel".
Definition DBOS_STREAMS_CHANNEL : string := "dbos_streams_channel".

(** A notification: its channel and its payload *)
Definition message : Type := string * string.

(** [pendingNotifications]: the payloads of each channel *)
Notation batches := (gmap string (gset string)).

(** [#signalNotification] *)
Definition signalNotification (shouldUseDBNotifications : bool) (channel payload : string)
    (pending : batches) : batches :=
  if negb shouldUseDBNotifications then pending
  else <[channel := default ∅ (pending !! channel) ∪ {[payload]}]> pending.

(** The payloads that are waiting to be flushed *)
Definition queued_payloads (pending : batches) : gset message :=
  ⋃ ((fun cb => set_map (fun p => (cb.1, p)) cb.2) <$> map_to_list pending).

(** [flushNotifications]: what is emitted, one transaction per channel, of which those that
    [sent] refuses fail and drop their batch; and the batches that are pending then. *)
Definition flushNotifications (sent : string -> bool) (pending : batches) : gset message * batches :=
  (filter (fun m => sent m.1 = true) (queued_payloads pending), ∅).

(** The maps of the listener, by channel *)
Record listener (CB : Type) : Type := ListenerOf {
  notificationsMap : NotificationMap.t CB;
  workflowEventsMap : NotificationMap.t CB;
  streamsMap : NotificationMap.t CB
}.
Arguments ListenerOf {CB}. Arguments notificationsMap {CB}.
Arguments workflowEventsMap {CB}. Arguments streamsMap {CB}.

(** The handler of a notification: the callbacks it calls *)
Definition handler {CB} (shouldUseDBNotifications : bool) (msg : message) (l : listener CB) : list CB :=
  if negb shouldUseDBNotifications then []
  else if bool_decide (msg.2 = "") then []
  else if bool_decide (msg.1 = DBOS_NOTIFICATIONS_CHANNEL)
  then NotificationMap.callCallbacks msg.2 (notificationsMap l)
  else if bool_decide (msg.1 = DBOS_WORKFLOW_EVENTS_CHANNEL)
  then NotificationMap.callCallbacks msg.2 (workflowEventsMap l)
  else if bool_decide (msg.1 = DBOS_STREAMS_CHANNEL)
  then NotificationMap.callCallbacks msg.2 (streamsMap l)
  else [].

(** ** Readers and writers *)

Inductive channel : Type := Notifications | WorkflowEvents | Streams.

#[export] Instance channel_eq_dec : EqDecision channel.
Proof. solve_decision. Defined.

Definition channel_name (c : channel) : string :=
  match c with
  | Notifications => DBOS_NOTIFICATIONS_CHANNEL
  | WorkflowEvents => DBOS_WORKFLOW_EVENTS_CHANNEL
  | Streams => DBOS_STREAMS_CHANNEL
  end.

Definition map_of {CB} (c : channel) (l : listener CB) : NotificationMap.t CB :=
  match c with
  | Notifications => notificationsMap l
  | WorkflowEvents => workflowEventsMap l
  | Streams => streamsMap l
  end.

Definition set_map_of {CB} (c : channel) (m : NotificationMap.t CB) (l : listener CB) : listener CB :=
  match c with
  | Notifications => ListenerOf m (workflowEventsMap l) (streamsMap l)
  | WorkflowEvents => ListenerOf (notificationsMap l) m (streamsMap l)
  | Streams => ListenerOf (notificationsMap l) (workflowEventsMap l) m
  end.

(** A round of [recv], [getEvent] or [readStream]: the callback is registered, then the
    database is read, and if there is nothing new since [seen] the reader waits for its promise,
    which the callback resolves, or for the end of its sleep. *)
Inductive phase : Type := Registered | Waiting (seen due : nat).

Record reader : Type := ReaderOf {
  rd_channel : channel;
  rd_payload : string;
  rd_cbr : string * nat;
  rd_phase : phase;
  rd_resolved : bool
}.

(** The database gives a key a new version with each commit that a reader of the key waits for.
    A commit on the notifications channel notifies by its trigger; after a commit on the other
    channels the writer signals, in its process, whose notifier flushes.  [wire] is on its way
    to the listener of the process of the readers, while it listens.  [lost] is a ghost: the
    version of each key when one of its notifications was dropped last. *)
Record system : Type := SystemOf {
  clock : nat;
  version : message -> nat;
  lost : message -> nat;
  unsignalled : gset (nat * message);
  pending : nat -> batches;
  listening : bool;
  wire : gset message;
  maps : listener nat;
  readers : gmap nat reader
}.

Definition key_of (r : reader) : message := (channel_name (rd_channel r), rd_payload r).

Definition bump (k : message) (v : message -> nat) : message -> nat :=
  fun k' => if decide (k' = k) then S (v k') else v k'.

Definition resolve (ids : list nat) (rs : gmap nat reader) : gmap nat reader :=
  map_imap (fun i r => Some (if bool_decide (i ∈ ids)
                             then ReaderOf (rd_channel r) (rd_payload r) (rd_cbr r) (rd_phase r) true
                             else r)) rs.

#[export] Instance eta_system : Eta system :=
  fun s => SystemOf (clock s) (version s) (lost s) (unsignalled s) (pending s) (listening s) (wire s)
             (maps s) (readers s).

(** Notifications that nobody will get *)
Definition lose (dropped : gset message) (s : system) : system :=
  s <| lost := fun k => if decide (k ∈ dropped) then version s k else lost s k |>.

(** PostgreSQL passes a notification to those that listen when it is committed. *)
Definition emit (sent : gset message) (s : system) : system :=
  if listening s then s <| wire ::= fun w => w ∪ sent |> else lose sent s.

(** The batches of one process *)
Definition set_pending (pr : nat) (b : batches) (s : system) : system :=
  s <| pending := fun pr' => if decide (pr' = pr) then b else pending s pr' |>.

Definition unsignalled_by (pr : nat) (s : system) : gset message :=
  set_map snd (filter (fun e => e.1 = pr) (unsignalled s)).

(** [deregisterCallback] in the [finally] of a round *)
Definition deregister (i : nat) (r : reader) (s : system) : system :=
  s <| maps := set_map_of (rd_channel r)
                 (NotificationMap.deregisterCallback (rd_cbr r) (map_of (rd_channel r) (maps s))) (maps s) |>
    <| readers := base.delete i (readers s) |>.

Section steps.
Variable pollIntervalMs : nat.

(** A flush may fail for some channels, a writer may die before it has signalled or its notifier
    has flushed, and the listener may lose its connection and connect again.  A round sleeps for
    the polling interval at most, and less when its deadline is nearer. *)
Inductive step : system -> system -> Prop :=
| tick s : step s (s <| clock ::= S |>)
| commit_trigger p s :
    let k := (DBOS_NOTIFICATIONS_CHANNEL, p) in
    step s (emit {[k]} (s <| version ::= bump k |>))
| commit_write pr k s :
    step s (s <| version ::= bump k |> <| unsignalled ::= fun u => u ∪ {[(pr, k)]} |>)
| signal pr k s :
    (pr, k) ∈ unsignalled s ->
    step s (set_pending pr (signalNotification true k.1 k.2 (pending s pr))
              (s <| unsignalled ::= fun u => u ∖ {[(pr, k)]} |>))
| flush pr sent s :
    let f := flushNotifications sent (pending s pr) in
    step s (emit f.1 (lose (queued_payloads (pending s pr) ∖ f.1) (set_pending pr f.2 s)))
| writer_dies pr s :
    step s (lose (queued_payloads (pending s pr) ∪ unsignalled_by pr s)
              (set_pending pr ∅ (s <| unsignalled ::= filter (fun e => e.1 <> pr) |>)))
| disconnect s : step s (lose (wire s) (s <| wire := ∅ |> <| listening := false |>))
| connect s : step s (s <| listening := true |>)
| deliver k s :
    k ∈ wire s ->
    step s (s <| wire ::= fun w => w ∖ {[k]} |> <| readers ::= resolve (handler true k (maps s)) |>)
| register i c p s :
    readers s !! i = None -> p <> "" ->
    let m := NotificationMap.registerCallback p i (map_of c (maps s)) in
    step s (s <| maps := set_map_of c m.2 (maps s) |>
              <| readers ::= <[i := ReaderOf c p m.1 Registered false]> |>)
| look i r poll s :
    readers s !! i = Some r -> rd_phase r = Registered -> (poll <= pollIntervalMs)%nat ->
    step s (s <| readers ::= <[i := ReaderOf (rd_channel r) (rd_payload r) (rd_cbr r)
                        (Waiting (version s (key_of r)) (clock s + poll)) (rd_resolved r)]> |>)
| wake i r seen due s :
    readers s !! i = Some r -> rd_phase r = Waiting seen due ->
    rd_resolved r = true \/ (due <= clock s)%nat ->
    step s (deregister i r s)
| end_round i r s :
    readers s !! i = Some r -> rd_phase r = Registered -> step s (deregister i r s).

Definition init : system :=
  SystemOf 0 (fun _ => O) (fun _ => O) ∅ (fun _ => ∅) true ∅
    (ListenerOf NotificationMap.empty NotificationMap.empty NotificationMap.empty) ∅.

(** What is on its way to the listener *)
Definition announced (s : system) (k : message) : Prop :=
  (exists pr, (pr, k) ∈ unsignalled s) \/ (exists pr, k ∈ queued_payloads (pending s pr)) \/ k ∈ wire s.

(** The registered callbacks are those of the readers; one that waits for a key that has changed
    is resolved or its notification is on its way, unless one was dropped since it looked. *)
Record ok (s : system) : Prop := {
  ok_map : forall c, NotificationMap.ok (map_of c (maps s));
  ok_reader : forall i r, readers s !! i = Some r ->
    rd_payload r <> "" /\ (rd_cbr r).1 = rd_payload r
    /\ ((rd_cbr r).2, i) ∈ NotificationMap.registered (map_of (rd_channel r) (maps s)) (rd_payload r);
  ok_callback : forall c p ck i, (ck, i) ∈ NotificationMap.registered (map_of c (maps s)) p ->
    exists r, readers s !! i = Some r /\ rd_channel r = c /\ rd_payload r = p /\ rd_cbr r = (p, ck);
  ok_seen : forall i r seen due, readers s !! i = Some r -> rd_phase r = Waiting seen due ->
    (seen <= version s (key_of r) /\ due <= clock s + pollIntervalMs)%nat;
  ok_awake : forall i r seen due, readers s !! i = Some r -> rd_phase r = Waiting seen due ->
    version s (key_of r) = seen \/ rd_resolved r = true \/ announced s (key_of r)
    \/ (seen < lost s (key_of r))%nat
}.

(** ** Lemmas *)

Lemma elem_of_queued_payloads b k :
  k ∈ queued_payloads b <-> exists batch, b !! k.1 = Some batch /\ k.2 ∈ batch.
Proof.
  unfold queued_payloads. rewrite elem_of_union_list. split.
  - intros (X & ([c batch] & -> & Hc)%list_elem_of_fmap & Hk). apply elem_of_map_to_list in Hc.
    apply elem_of_map in Hk as (p & -> & Hp). by exists batch.
  - intros (batch & Hb & Hp). eexists. split.
    + apply list_elem_of_fmap. exists (k.1, batch). split; [done|]. by apply elem_of_map_to_list.
    + apply elem_of_map. exists k.2. by destruct k.
Qed.

Lemma elem_of_signalled c p b k :
  k ∈ queued_payloads (signalNotification true c p b) <-> k = (c, p) \/ k ∈ queued_payloads b.
Proof.
  rewrite !elem_of_queued_payloads. unfold signalNotification. simpl. destruct k as [c' p']. simpl.
  destruct (decide (c' = c)) as [->|Hne].
  - rewrite lookup_insert_eq. split.
    + intros (batch & [= <-] & Hp). destruct (b !! c); set_solver.
    + intros [[= ->]|(batch & -> & Hp)]; eexists; split; [done|set_solver|done|set_solver].
  - rewrite lookup_insert_ne by done. naive_solver.
Qed.

Lemma map_of_set c c' m (l : listener nat) :
  map_of c (set_map_of c' m l) = if decide (c = c') then m else map_of c l.
Proof. by destruct c, c'. Qed.

Lemma handler_calls c p (l : listener nat) :
  p <> "" -> handler true (channel_name c, p) l = (NotificationMap.registered (map_of c l) p).*2.
Proof.
  intros Hp. unfold handler. simpl. rewrite bool_decide_false by done. by destruct c.
Qed.

Lemma lookup_resolve ids rs i :
  resolve ids rs !! i
  = (fun r => if bool_decide (i ∈ ids)
              then ReaderOf (rd_channel r) (rd_payload r) (rd_cbr r) (rd_phase r) true else r) <$> rs !! i.
Proof. unfold resolve. rewrite map_lookup_imap. by destruct (rs !! i). Qed.

Lemma key_of_inj r r' :
  key_of r = key_of r' -> rd_channel r = rd_channel r' /\ rd_payload r = rd_payload r'.
Proof. unfold key_of. intros [= Hc Hp]. split; [|done]. by destruct (rd_channel r), (rd_channel r'). Qed.

Lemma ok_init : ok init.
Proof.
  split; try by intros.
  - intros []; apply NotificationMap.ok_empty.
  - intros c p ck i Hin. exfalso. destruct c; by apply not_elem_of_nil in Hin.
Qed.

(** What a step of the writers and the notifiers may do to the keys *)
Definition keeps_keys (s s' : system) : Prop :=
  (clock s <= clock s')%nat
  /\ forall k, (version s k <= version s' k)%nat
       /\ (version s' k = version s k \/ announced s' k \/ lost s' k = version s' k)
       /\ (announced s k -> announced s' k \/ lost s' k = version s' k)
       /\ (lost s' k = lost s k \/ lost s' k = version s' k).

Lemma ok_announced s s' :
  ok s -> maps s' = maps s -> readers s' = readers s -> keeps_keys s s' -> ok s'.
Proof.
  intros [Hm Hr Hc Hs Ha] Em Er [Hclk Hk]. split; rewrite ?Em, ?Er; [done|done|done|..].
  - intros i r seen due Hi Hp. specialize (Hs i r seen due Hi Hp). destruct (Hk (key_of r)) as (Hv & _). lia.
  - intros i r seen due Hi Hp. specialize (Hs i r seen due Hi Hp).
    destruct (Hk (key_of r)) as (Hle & Hv & Han & Hl).
    destruct (Ha i r seen due Hi Hp) as [H|[H|[H|H]]].
    + destruct Hv as [E|[E|E]]; [left; congruence|by right; right; left|].
      destruct (decide (version s' (key_of r) = seen)); [by left|]. right; right; right. lia.
    + by right; left.
    + destruct (Han H) as [E|E]; [by right; right; left|].
      destruct (decide (version s' (key_of r) = seen)); [by left|]. right; right; right. lia.
    + destruct (decide (version s' (key_of r) = seen)); [by left|]. right; right; right. lia.
Qed.

Lemma announced_emit M s k : announced s k -> announced (emit M s) k.
Proof.
  unfold emit, announced. destruct (listening s); simpl; [|done]. set_solver.
Qed.

Lemma lost_lose M s k :
  lost (lose M s) k = if decide (k ∈ M) then version s k else lost s k.
Proof. done. Qed.

Lemma emit_cases M s k :
  k ∈ M -> k ∈ wire (emit M s) \/ lost (emit M s) k = version s k.
Proof.
  intros Hk. unfold emit. destruct (listening s); simpl; [set_solver|]. right. by rewrite decide_True.
Qed.

Lemma emit_fields M s :
  clock (emit M s) = clock s /\ version (emit M s) = version s /\ unsignalled (emit M s) = unsignalled s
  /\ pending (emit M s) = pending s /\ maps (emit M s) = maps s /\ readers (emit M s) = readers s
  /\ (forall k, lost (emit M s) k = lost s k \/ lost (emit M s) k = version s k).
Proof.
  unfold emit. destruct (listening s); simpl; [by repeat split; auto|].
  repeat split. intros k. case_decide; auto.
Qed.

Lemma bump_cases k v k' : bump k v k' = v k' \/ k' = k.
Proof. unfold bump. case_decide; auto. Qed.

Lemma ok_deliver k s :
  ok s ->
  ok (s <| wire ::= fun w => w ∖ {[k]} |> <| readers ::= resolve (handler true k (maps s)) |>).
Proof.
  intros [Hm Hr Hc Hs Ha]. split; simpl; [done|..].
  - intros i r Hi. rewrite lookup_resolve in Hi. destruct (readers s !! i) as [r0|] eqn:E; [|done].
    simpl in Hi. injection Hi as <-. specialize (Hr i r0 E). by case_bool_decide.
  - intros c p ck i Hin. destruct (Hc c p ck i Hin) as (r & Hi & H). eexists. split.
    + rewrite lookup_resolve, Hi. simpl. reflexivity.
    + by case_bool_decide.
  - intros i r seen due Hi Hp. rewrite lookup_resolve in Hi. destruct (readers s !! i) as [r0|] eqn:E; [|done].
    simpl in Hi. injection Hi as <-. case_bool_decide; by apply (Hs i r0 seen due E).
  - intros i r seen due Hi Hp. rewrite lookup_resolve in Hi. destruct (readers s !! i) as [r0|] eqn:E; [|done].
    simpl in Hi. injection Hi as <-. case_bool_decide as Hin; [by right; left|].
    destruct (Ha i r0 seen due E Hp) as [H|[H|[H|H]]]; [by left|by right; left| |by right; right; right].
    right; right; left. destruct H as [H|[H|H]]; [by left|by right; left|]. right; right. simpl.
    apply elem_of_difference. split; [done|]. intros Ek%elem_of_singleton. apply Hin.
    destruct (Hr i r0 E) as (Hne & _ & Hreg). rewrite <- Ek. unfold key_of. rewrite handler_calls by done.
    apply list_elem_of_fmap. by exists ((rd_cbr r0).2, i).
Qed.

Lemma ok_register i c p s :
  ok s -> readers s !! i = None -> p <> "" ->
  let m := NotificationMap.registerCallback p i (map_of c (maps s)) in
  ok (s <| maps := set_map_of c m.2 (maps s) |>
        <| readers ::= <[i := ReaderOf c p m.1 Registered false]> |>).
Proof.
  intros [Hm Hr Hc Hs Ha] Hi Hp m.
  assert (forall key, NotificationMap.registered m.2 key
    = NotificationMap.registered (map_of c (maps s)) key ++ (if decide (key = p) then [(m.1.2, i)] else []))
    as Hreg by (intros key; apply NotificationMap.registered_register).
  assert (NotificationMap.ok m.2) as Hok by (by apply NotificationMap.map_ok_register).
  assert (m.1.1 = p) as Hkey by done. assert (m.1 = (p, m.1.2)) as Hcbr by done. clearbody m.
  split; simpl.
  - intros c'. rewrite map_of_set. case_decide; [done|apply Hm].
  - intros j r Hj. rewrite map_of_set. destruct (decide (j = i)) as [->|Hne].
    + rewrite lookup_insert_eq in Hj. injection Hj as <-. simpl. rewrite decide_True by done.
      split; [done|]. split; [done|]. rewrite Hreg, decide_True by done. set_solver.
    + rewrite lookup_insert_ne in Hj by done. destruct (Hr j r Hj) as (H1 & H2 & H3).
      split; [done|]. split; [done|]. case_decide as E; [|done].
      rewrite Hreg, <- E. apply elem_of_app. by left.
  - intros c' p' ck j Hin. rewrite map_of_set in Hin.
    assert ((ck, j) ∈ NotificationMap.registered (map_of c' (maps s)) p'
            \/ c' = c /\ p' = p /\ ck = m.1.2 /\ j = i) as [H|(-> & -> & -> & ->)].
    { case_decide as E; [|by left]. subst c'. rewrite Hreg in Hin. apply elem_of_app in Hin as [H|H]; [by left|]. right. case_decide as E2; [|by apply not_elem_of_nil in H].
      apply list_elem_of_singleton in H. injection H as -> ->. done. }
    + destruct (Hc _ _ _ _ H) as (r & Hj & Hrest). exists r. split; [|done].
      rewrite lookup_insert_ne; [done|]. intros ->. congruence.
    + eexists. rewrite lookup_insert_eq. split; [done|]. by split.
  - intros j r seen due Hj Hph. destruct (decide (j = i)) as [->|Hne].
    + rewrite lookup_insert_eq in Hj. by injection Hj as <-.
    + rewrite lookup_insert_ne in Hj by done. by eapply Hs.
  - intros j r seen due Hj Hph. destruct (decide (j = i)) as [->|Hne].
    + rewrite lookup_insert_eq in Hj. by injection Hj as <-.
    + rewrite lookup_insert_ne in Hj by done. by eapply Ha.
Qed.

Lemma ok_look i r poll s :
  ok s -> readers s !! i = Some r -> (poll <= pollIntervalMs)%nat ->
  ok (s <| readers ::= <[i := ReaderOf (rd_channel r) (rd_payload r) (rd_cbr r)
                  (Waiting (version s (key_of r)) (clock s + poll)) (rd_resolved r)]> |>).
Proof.
  intros [Hm Hr Hc Hs Ha] Hi Hpoll. split; simpl; [done|..].
  - intros j r' Hj. destruct (decide (j = i)) as [->|Hne].
    + rewrite lookup_insert_eq in Hj. injection Hj as <-. exact (Hr i r Hi).
    + rewrite lookup_insert_ne in Hj by done. exact (Hr j r' Hj).
  - intros c p ck j Hin. destruct (Hc _ _ _ _ Hin) as (r' & Hj & Hrest).
    destruct (decide (j = i)) as [->|Hne].
    + eexists. rewrite lookup_insert_eq. split; [done|]. by simplify_eq.
    + exists r'. by rewrite lookup_insert_ne.
  - intros j r' seen due Hj Hp. destruct (decide (j = i)) as [->|Hne].
    + rewrite lookup_insert_eq in Hj. injection Hj as <-. simpl in Hp. injection Hp as <- <-.
      unfold key_of. simpl. lia.
    + rewrite lookup_insert_ne in Hj by done. by eapply Hs.
  - intros j r' seen due Hj Hp. destruct (decide (j = i)) as [->|Hne].
    + rewrite lookup_insert_eq in Hj. injection Hj as <-. simpl in Hp. injection Hp as <- <-. by left.
    + rewrite lookup_insert_ne in Hj by done. by eapply Ha.
Qed.

Lemma ok_leave i r s : ok s -> readers s !! i = Some r -> ok (deregister i r s).
Proof.
  intros [Hm Hr Hc Hs Ha] Hi. destruct (Hr i r Hi) as (Hne & Hk & Hreg). split; simpl.
  - intros c'. rewrite map_of_set. case_decide; [|apply Hm]. by apply NotificationMap.ok_deregister.
  - intros j r' Hj. apply lookup_delete_Some in Hj as [Hij Hj].
    destruct (Hr j r' Hj) as (H1 & H2 & H3). split; [done|]. split; [done|].
    rewrite map_of_set. case_decide as E; [|done].
    rewrite NotificationMap.registered_deregister. case_decide as E2; [|by rewrite <- E].
    rewrite <- E, list_elem_of_In, filter_In, <- list_elem_of_In. split; [done|]. simpl.
    apply negb_true_iff, bool_decide_eq_false. intros E3.
    rewrite E, E2, Hk, E3 in H3.
    by apply Hij, (NotificationMap.registered_unique _ _ _ _ _ (Hm (rd_channel r)) Hreg).
  - intros c p ck j Hin. rewrite map_of_set in Hin.
    assert ((ck, j) ∈ NotificationMap.registered (map_of c (maps s)) p
            /\ ~ (c = rd_channel r /\ p = (rd_cbr r).1 /\ ck = (rd_cbr r).2)) as [H Hno].
    { case_decide as E; [|naive_solver]. rewrite NotificationMap.registered_deregister in Hin.
      case_decide as E2; subst; [|naive_solver].
      rewrite list_elem_of_In, filter_In, <- list_elem_of_In in Hin. simpl in Hin. destruct Hin as [H1 H2].
      apply negb_true_iff, bool_decide_eq_false in H2. naive_solver. }
    destruct (Hc c p ck j H) as (r' & Hj & H1 & H2 & H3). exists r'.
    rewrite lookup_delete_ne; [done|]. intros <-. assert (r' = r) as -> by congruence.
    apply Hno. by rewrite H3.
  - intros j r' seen due Hj Hp. apply lookup_delete_Some in Hj as [_ Hj]. by eapply Hs.
  - intros j r' seen due Hj Hp. apply lookup_delete_Some in Hj as [_ Hj]. by eapply Ha.
Qed.

(** ** The steps of the writers and the notifiers *)

Lemma elem_of_unsignalled_by pr s k : k ∈ unsignalled_by pr s <-> (pr, k) ∈ unsignalled s.
Proof.
  unfold unsignalled_by. rewrite elem_of_map. split.
  - intros ([pr' k'] & -> & [E H]%elem_of_filter). simpl in *. by subst.
  - intros H. exists (pr, k). by rewrite elem_of_filter.
Qed.

Lemma elem_of_set_pending pr b s pr' k :
  k ∈ queued_payloads (pending (set_pending pr b s) pr')
  <-> (if decide (pr' = pr) then k ∈ queued_payloads b else k ∈ queued_payloads (pending s pr')).
Proof. simpl. by case_decide. Qed.

Lemma keeps_signal pr k s :
  keeps_keys s (set_pending pr (signalNotification true k.1 k.2 (pending s pr))
                  (s <| unsignalled ::= fun u => u ∖ {[(pr, k)]} |>)).
Proof.
  split; [done|]. intros k'. simpl. split; [done|]. split; [by left|]. split; [|by left].
  assert (forall pr', (pr' = pr /\ k' = k) \/ k' ∈ queued_payloads (pending s pr') ->
            k' ∈ queued_payloads (if decide (pr' = pr) then signalNotification true k.1 k.2 (pending s pr)
                                   else pending s pr')) as Hq.
  { intros pr' H. case_decide as E; [subst pr'|naive_solver]. apply elem_of_signalled.
    destruct H as [[_ ->]|H]; [left; by destruct k|by right]. }
  intros [[pr' H]|[[pr' H]|H]]; left; [|right; left; exists pr'; apply Hq; by right|by right; right].
  destruct (decide ((pr', k') = (pr, k))) as [[= -> ->]|Hne].
  - right; left. exists pr. apply Hq. by left.
  - left. exists pr'. simpl. set_solver.
Qed.

Lemma keeps_flush pr sent s :
  let f := flushNotifications sent (pending s pr) in
  keeps_keys s (emit f.1 (lose (queued_payloads (pending s pr) ∖ f.1) (set_pending pr f.2 s))).
Proof.
  intros f. set (s1 := lose _ _). destruct (emit_fields f.1 s1) as (Ec & Ev & Eu & Ep & _ & _ & El).
  assert (forall k, lost s1 k = lost s k \/ lost s1 k = version s k) as El1.
  { intros k. unfold s1. rewrite lost_lose. case_decide; auto. }
  split; [by rewrite Ec|]. intros k. rewrite Ev.
  split; [done|]. split; [by left|]. split.
  - intros [[pr' H]|[[pr' H]|H]].
    + left. left. exists pr'. by rewrite Eu.
    + destruct (decide (pr' = pr)) as [->|Hne].
      2: { left; right; left. exists pr'. rewrite Ep. simpl. by rewrite decide_False. }
      destruct (decide (k ∈ f.1)) as [Hf|Hf].
      { destruct (emit_cases f.1 s1 k Hf) as [E|E]; [by left; right; right|by right]. }
      right. destruct (El k) as [->| ->]; [|done]. unfold s1. rewrite lost_lose, decide_True; [done|set_solver].
    + left. apply announced_emit. by right; right.
  - destruct (El k) as [->| ->]; [|by right]. destruct (El1 k); auto.
Qed.

Lemma keeps_dies pr s :
  keeps_keys s (lose (queued_payloads (pending s pr) ∪ unsignalled_by pr s)
                  (set_pending pr ∅ (s <| unsignalled ::= filter (fun e => e.1 <> pr) |>))).
Proof.
  split; [done|]. intros k. rewrite lost_lose. simpl.
  split; [done|]. split; [by left|]. split; [|case_decide; auto].
  intros [[pr' H]|[[pr' H]|H]]; [..|by left; right; right]; destruct (decide (pr' = pr)) as [->|Hne].
  - right. rewrite decide_True; [done|]. apply elem_of_union. right. by apply elem_of_unsignalled_by.
  - left; left. exists pr'. simpl. by apply elem_of_filter.
  - right. rewrite decide_True; [done|]. apply elem_of_union. by left.
  - left; right; left. exists pr'. simpl. by rewrite decide_False.
Qed.

Lemma keeps_commit_trigger k s : keeps_keys s (emit {[k]} (s <| version ::= bump k |>)).
Proof.
  set (s1 := s <| version ::= bump k |>). destruct (emit_fields {[k]} s1) as (Ec & Ev & _ & _ & _ & _ & El).
  split; [by rewrite Ec|]. intros k'. rewrite Ev. split; [|split; [|split]].
  - unfold s1. simpl. unfold bump. case_decide; lia.
  - destruct (decide (k' = k)) as [->|Hne].
    + right. destruct (emit_cases {[k]} s1 k) as [E|E]; [set_solver|by left; right; right|by right].
    + left. unfold s1. simpl. unfold bump. by rewrite decide_False.
  - intros H. left. by apply announced_emit.
  - destruct (El k'); auto.
Qed.

Lemma ok_step s s' : ok s -> step s s' -> ok s'.
Proof.
  intros Hok Hs.
  destruct Hs as [s|p s k|pr k s|pr k s Hk|pr sent s f|pr s|s|s|k s Hk|i c p s Hi Hp m|i r poll s Hi Hp Hl
                 |i r seen due s Hi Hp Hw|i r s Hi Hp].
  - apply (ok_announced s); [done..|]. split; simpl; [lia|]. intros k'. repeat split; auto.
  - destruct (emit_fields {[k]} (s <| version ::= bump k |>)) as (_ & _ & _ & _ & Em & Er & _).
    by apply (ok_announced s); [..|apply keeps_commit_trigger].
  - apply (ok_announced s); [done..|]. split; [done|]. intros k'. unfold announced. simpl.
    unfold bump. case_decide as E; [subst k'|].
    + split; [lia|]. split; [right; left; left; exists pr; set_solver|]. split; [|by left]. set_solver.
    + split; [done|]. split; [by left|]. split; [|by left]. set_solver.
  - by apply (ok_announced s); [..|apply keeps_signal].
  - destruct (emit_fields f.1 (lose (queued_payloads (pending s pr) ∖ f.1) (set_pending pr f.2 s)))
      as (_ & _ & _ & _ & Em & Er & _).
    by apply (ok_announced s); [..|apply keeps_flush].
  - by apply (ok_announced s); [..|apply keeps_dies].
  - apply (ok_announced s); [done..|]. split; [done|]. intros k'. rewrite lost_lose. simpl.
    split; [done|]. split; [by left|]. split; [|case_decide; auto].
    intros [H|[H|H]]; [by left; left|by left; right; left|]. right. by rewrite decide_True.
  - apply (ok_announced s); [done..|]. split; [done|]. intros k'. repeat split; auto.
  - by apply ok_deliver.
  - by apply ok_register.
  - by apply ok_look.
  - by apply ok_leave.
  - by apply ok_leave.
Qed.

Lemma ok_reachable s : rtc step init s -> ok s.
Proof.
  intros Hr. assert (forall a b, rtc step a b -> ok a -> ok b) as H; [|by apply (H _ _ Hr), ok_init].
  intros a b Hab. induction Hab; [done|]. intros. eapply IHHab, ok_step; eauto.
Qed.

(** Only the listener and the notifiers make steps between the two. *)
Definition same_readers (s s' : system) : Prop :=
  clock s' = clock s /\ version s' = version s /\ readers s' = readers s /\ maps s' = maps s.

(** A notification on its way gets to the listener, when it is connected and no flush fails. *)
Lemma announced_delivered s k :
  announced s k -> exists s', rtc step s s' /\ same_readers s s' /\ k ∈ wire s'.
Proof.
  assert (forall s pr, k ∈ queued_payloads (pending s pr) ->
    exists s', rtc step s s' /\ same_readers s s' /\ k ∈ wire s') as Hflush.
  { intros s0 pr H. set (s1 := s0 <| listening := true |>).
    eexists. split; [eapply rtc_l; [apply connect|]; apply rtc_once, (flush pr (fun _ => true) s1)|].
    unfold emit. simpl. split; [done|]. apply elem_of_union. right. by apply elem_of_filter. }
  intros [[pr H]|[[pr H]|H]]; [|by eapply Hflush|by exists s].
  destruct (Hflush (set_pending pr (signalNotification true k.1 k.2 (pending s pr))
              (s <| unsignalled ::= fun u => u ∖ {[(pr, k)]} |>)) pr) as (s' & Hs & Hsame & Hw).
  - simpl. rewrite decide_True by done. apply elem_of_signalled. left. by destruct k.
  - exists s'. split; [by eapply rtc_l; [apply signal|]|]. done.
Qed.

(** The clock alone *)
Lemma clock_runs n s : rtc step s (s <| clock := (clock s + n)%nat |>).
Proof.
  revert s. induction n as [|n IH]; intros s.
  - rewrite Nat.add_0_r. by destruct s.
  - eapply rtc_l; [apply tick|]. specialize (IH (s <| clock ::= S |>)). simpl in IH.
    by rewrite Nat.add_succ_r.
Qed.

(** The next round of a reader that wakes up *)
Lemma looks_again s i r seen due :
  ok s -> readers s !! i = Some r -> rd_phase r = Waiting seen due ->
  rd_resolved r = true \/ (due <= clock s)%nat ->
  exists s' r', rtc step s s' /\ clock s' = clock s /\ version s' = version s
    /\ readers s' !! i = Some r' /\ key_of r' = key_of r
    /\ rd_phase r' = Waiting (version s (key_of r)) (clock s + pollIntervalMs).
Proof.
  intros Hok Hi Hp Hw. destruct (ok_reader s Hok i r Hi) as (Hne & _).
  set (s1 := deregister i r s).
  set (m := NotificationMap.registerCallback (rd_payload r) i (map_of (rd_channel r) (maps s1))).
  set (r2 := ReaderOf (rd_channel r) (rd_payload r) m.1 Registered false).
  set (s2 := s1 <| maps := set_map_of (rd_channel r) m.2 (maps s1) |> <| readers ::= <[i := r2]> |>).
  eexists _, (ReaderOf _ _ _ (Waiting (version s2 (key_of r2)) (clock s2 + pollIntervalMs)) _). split.
  - eapply rtc_l; [eapply (wake i r seen due s); [done|done|done]|].
    eapply rtc_l; [apply (register i (rd_channel r) (rd_payload r) s1); [|done]|].
    + simpl. by rewrite lookup_delete_eq.
    + apply rtc_once. apply (look i r2 pollIntervalMs s2); [simpl; by rewrite lookup_insert_eq|done|done].
  - simpl. split; [done|]. split; [done|]. split; [by rewrite lookup_insert_eq|]. split; done.
Qed.

(** C25: No wake-up is lost but with its notification, and then the reader polls.  In every
    reachable state, through failed flushes, writers that die and lost connections of the
    listener: a reader that waits although its key has changed since it looked, while no
    notification of the key was dropped since then, has its promise resolved, or the notifier
    and the listener resolve it when they go on, with no further commit and no time passing.
    Whatever was dropped, every waiting reader looks at the database again after at most the
    polling interval, and sees what the key is then.  When no reader is left the maps of
    callbacks are empty. *)
Theorem no_lost_wakeup (s : system) :
  rtc step init s ->
  (forall i r seen due, readers s !! i = Some r -> rd_phase r = Waiting seen due ->
     version s (key_of r) <> seen -> (lost s (key_of r) <= seen)%nat ->
     exists s' r', rtc step s s' /\ clock s' = clock s /\ version s' = version s
       /\ readers s' !! i = Some r' /\ rd_phase r' = Waiting seen due /\ rd_resolved r' = true)
  /\ (forall i r seen due, readers s !! i = Some r -> rd_phase r = Waiting seen due ->
     exists s' r', rtc step s s' /\ (clock s' <= clock s + pollIntervalMs)%nat /\ version s' = version s
       /\ readers s' !! i = Some r' /\ key_of r' = key_of r
       /\ rd_phase r' = Waiting (version s (key_of r)) (clock s' + pollIntervalMs))
  /\ (readers s = ∅ -> forall c, NotificationMap.map (map_of c (maps s)) = ∅).
Proof.
  intros Hr. pose proof (ok_reachable s Hr) as Hok. pose proof Hok as [Hm Hrd Hc Hs Ha]. split; [|split].
  - intros i r seen due Hi Hp Hne Hl.
    destruct (Ha i r seen due Hi Hp) as [?|[H|[H|H]]]; [done|by exists s, r| |lia].
    destruct (announced_delivered s (key_of r) H) as (s' & Hs' & (Ek & Ev & Er & Em) & Hw).
    eexists _, _. split; [eapply rtc_r; [exact Hs'|by apply deliver]|]. split; [done|]. split; [done|].
    cbn -[handler resolve]. rewrite lookup_resolve, Er, Hi. cbn -[handler]. split; [reflexivity|].
    destruct (Hrd i r Hi) as (Hpl & _ & Hreg). rewrite bool_decide_true; [done|].
    unfold key_of. rewrite Em, handler_calls by done. apply list_elem_of_fmap. by exists ((rd_cbr r).2, i).
  - intros i r seen due Hi Hp. destruct (Hs i r seen due Hi Hp) as [_ Hdue].
    set (s1 := s <| clock := (clock s + (due - clock s))%nat |>).
    assert (rtc step s s1) as H1 by apply clock_runs.
    destruct (looks_again s1 i r seen due) as (s' & r' & H2 & Ek & Ev & Er & Hk & Hp'); [|done|done|..].
    + apply ok_reachable. by etrans.
    + right. simpl. lia.
    + exists s', r'. split; [by etrans|]. rewrite Ek, Ev. simpl in *. split; [lia|]. done.
  - intros He c. apply map_empty. intros p.
    destruct (NotificationMap.map (map_of c (maps s)) !! p) as [[|[ck i] l]|] eqn:E; [|exfalso|done].
    + by apply (NotificationMap.ok_nonempty _ (Hm c)) in E.
    + destruct (Hc c p ck i) as (r & Hi & _).
      { unfold NotificationMap.registered. rewrite E. by left. }
      by rewrite He in Hi.
Qed.
End steps.
End Notifier.

(** * Witnesses *)

Lemma semaphore_fair_witness :
  "c" ∈ (Semaphore.finish 0 (Semaphore.arrive "c" (Semaphore.arrive "b" (Semaphore.arrive "a"
           (Semaphore.make (Some 2), []))))).2.
Proof.
  destruct (Semaphore.semaphore_fair 2 0
    (Semaphore.arrive "c" (Semaphore.arrive "b" (Semaphore.arrive "a" (Semaphore.make (Some 2), []))))
    (Semaphore.arrive "c" (Semaphore.arrive "b" (Semaphore.arrive "a" (Semaphore.make (Some 2), [])))))
    as (_ & _ & _ & H).
  - lia.
  - do 3 (eapply rtc_r; [|eexists; apply Semaphore.step_arrive]). apply rtc_refl.
  - constructor.
  - apply (H 0%nat "c"); [reflexivity|reflexivity|]. apply Semaphore.step_finish. by eexists.
Defined.

Section example.
Import Notifier.

(** A receiver registers and looks in vain; then a message arrives.  The commit of another message
    meets a listener that has lost its connection: that receiver polls. *)
Definition ex_key : message := (DBOS_NOTIFICATIONS_CHANNEL, "wf-1::orders").
Definition ex_registered : system :=
  init <| maps := set_map_of Notifications
                    (NotificationMap.registerCallback "wf-1::orders" 7%nat NotificationMap.empty).2 (maps init) |>
       <| readers := {[7%nat := ReaderOf Notifications "wf-1::orders" ("wf-1::orders", O) Registered false]} |>.
Definition ex_reader : reader :=
  ReaderOf Notifications "wf-1::orders" ("wf-1::orders", O) (Waiting 0 1000) false.
Definition ex_waiting : system := ex_registered <| readers := {[7%nat := ex_reader]} |>.
Definition ex_sent : system := emit {[ex_key]} (ex_waiting <| version ::= bump ex_key |>).
Definition ex_deaf : system := lose ∅ (ex_waiting <| wire := ∅ |> <| listening := false |>).
Definition ex_unheard : system := emit {[ex_key]} (ex_deaf <| version ::= bump ex_key |>).

Lemma ex_waiting_reachable : rtc (step 1000) init ex_waiting.
Proof.
  eapply rtc_l; [|apply rtc_once].
  - apply (register 1000 7 Notifications "wf-1::orders" init); [reflexivity|discriminate].
  - apply (look 1000 7 (ReaderOf Notifications "wf-1::orders" ("wf-1::orders", O) Registered false) 1000
             ex_registered); [reflexivity|reflexivity|lia].
Qed.

Lemma no_lost_wakeup_witness :
  (exists s' r', rtc (step 1000) ex_sent s' /\ clock s' = 0%nat
     /\ readers s' !! 7%nat = Some r' /\ rd_resolved r' = true)
  /\ lost ex_unheard ex_key = 1%nat
  /\ (exists s' r', rtc (step 1000) ex_unheard s' /\ (clock s' <= 1000)%nat
     /\ readers s' !! 7%nat = Some r' /\ exists due, rd_phase r' = Waiting 1 due).
Proof.
  split; [|split; [reflexivity|]].
  - destruct (no_lost_wakeup 1000 ex_sent) as [H _].
    + eapply rtc_r; [apply ex_waiting_reachable|]. apply (commit_trigger 1000 "wf-1::orders" ex_waiting).
    + destruct (H 7%nat ex_reader O 1000%nat) as (s' & r' & Hs & Hk & _ & Hr & _ & Hres);
        [reflexivity|reflexivity|discriminate|simpl; lia|].
      exists s', r'. split; [exact Hs|]. split; [exact Hk|]. split; [exact Hr|exact Hres].
  - destruct (no_lost_wakeup 1000 ex_unheard) as (_ & H & _).
    + eapply rtc_r; [eapply rtc_r; [apply ex_waiting_reachable|]|].
      * apply (disconnect 1000 ex_waiting).
      * apply (commit_trigger 1000 "wf-1::orders" ex_deaf).
    + destruct (H 7%nat ex_reader O 1000%nat) as (s' & r' & Hs & Hk & _ & Hr & _ & Hp);
        [reflexivity|reflexivity|].
      exists s', r'. split; [exact Hs|]. split; [exact Hk|]. split; [exact Hr|]. eexists. exact Hp.
Defined.
End example.
