(* ===== verification/Context.v ===== *)
(** The execution context of a workflow (src/src/context.ts): which of its fields say whether
    the code runs in a workflow, a step or a transaction, how contexts nest, and how function
    IDs are given out.  The dispatch of an internal step on the context
    ([runInternalStep] of src/src/dbos.ts) is here too. *)

From S2P Require Export Errors.

(** [DBOSLocalCtx]: the fields the dispatch reads.  The context object is shared by the code
    that runs in it, so handing out an ID changes it in place; [runWithParentContext] copies
    it. *)
Record DBOSLocalCtx : Type := LocalCtx {
  cx_workflowId : option string;
  cx_curWFFunctionId : option Z;
  cx_curStepFunctionId : option Z;
  cx_curTxFunctionId : option Z;
  cx_idAssignedForNextWorkflow : option string
}.

#[export] Instance DBOSLocalCtx_eta : Eta DBOSLocalCtx := fun c =>
  LocalCtx (cx_workflowId c) (cx_curWFFunctionId c) (cx_curStepFunctionId c)
    (cx_curTxFunctionId c) (cx_idAssignedForNextWorkflow c).

(** A computation in a context *)
Definition CM (A : Type) : Type := M DBOSLocalCtx dbos_error A.

Definition isWithinWorkflowCtx (c : DBOSLocalCtx) : bool :=
  bool_decide (is_Some (cx_workflowId c)).

(** The tests of context.ts are on the truth of the function ID. *)
Definition isInStepCtx (c : DBOSLocalCtx) : bool :=
  isWithinWorkflowCtx c && bool_decide (is_Some (truthy_num (cx_curStepFunctionId c))).

Definition isInTxnCtx (c : DBOSLocalCtx) : bool :=
  isWithinWorkflowCtx c && bool_decide (is_Some (truthy_num (cx_curTxFunctionId c))).

Definition isInWorkflowCtx (c : DBOSLocalCtx) : bool :=
  isWithinWorkflowCtx c && negb (isInStepCtx c) && negb (isInTxnCtx c).

(** [functionIDGetIncrement] *)
Definition functionIDGetIncrement : CM Z := fun c =>
  if negb (isInWorkflowCtx c)
  then (Throw (DBOSInvalidWorkflowTransitionError
          (Some "Attempt to get a call ID number in a workflow that is already in a call")), c)
  else
    let id := default 0 (cx_curWFFunctionId c) in
    (Ok id, c <| cx_curWFFunctionId := Some (id + 1) |>).

(** [functionIDGet] *)
Definition functionIDGet : CM Z := fun c =>
  if negb (isInWorkflowCtx c)
  then (Throw (DBOSInvalidWorkflowTransitionError
          (Some "Attempt to get a call ID number in a workflow that is already in a call")), c)
  else
    let id := default 0 (cx_curWFFunctionId c) in
    (Ok id, c <| cx_curWFFunctionId := Some id |>).

(** [getNextWFID] *)
Definition getNextWFID (assignedID : option string) : CM (option string) := fun c =>
  match truthy_str assignedID with
  | Some id => (Ok (Some id), c)
  | None =>
      match truthy_str (cx_idAssignedForNextWorkflow c) with
      | Some id => (Ok (Some id), c <| cx_idAssignedForNextWorkflow := None |>)
      | None => (Ok assignedID, c)
      end
  end.

(** [runInStepContext]: the callback runs in a copy of the context. *)
Definition runInStepContext {A} (stepID : Z) (callback : CM A) : CM A := fun c =>
  if negb (isInWorkflowCtx c) then (Throw (DBOSInvalidWorkflowTransitionError None), c)
  else ((callback (c <| cx_curStepFunctionId := Some stepID |>)).1, c).

(** [DBOS.isInStep], [DBOS.isInTransaction], [DBOS.isInWorkflow]: tests on [undefined] *)
Definition isInStep (c : DBOSLocalCtx) : bool := bool_decide (is_Some (cx_curStepFunctionId c)).

Definition isInTransaction (c : DBOSLocalCtx) : bool :=
  bool_decide (is_Some (cx_curTxFunctionId c)).

Definition isInWorkflow (c : DBOSLocalCtx) : bool :=
  isWithinWorkflowCtx c && negb (isInTransaction c) && negb (isInStep c).

(** How [runInternalStep] of dbos.ts runs a callback: as it is, or as the step with the given
    ID. *)
Inductive step_mode : Type := Direct | AsStep (functionID : Z).

Definition runInternalStep_mode (funcName : string) (assignedFuncID : option Z) : CM step_mode :=
  fun c =>
  if isWithinWorkflowCtx c then
    if isInStep c then (Ok Direct, c)
    else if isInWorkflow c then
      match assignedFuncID with
      | Some id => (Ok (AsStep id), c)
      | None => bind functionIDGetIncrement (fun id => ret (AsStep id)) c
      end
    else (Throw (DBOSInvalidWorkflowTransitionError
            (Some ("Invalid call to `" +:+ funcName +:+ "` inside a `transaction`"))), c)
  else (Ok Direct, c).

(** * Lemmas *)

(** In the body of a workflow *)
Definition workflow_ctx (id : string) (next : option Z) : DBOSLocalCtx :=
  LocalCtx (Some id) next None None None.

Lemma increment_workflow id next :
  functionIDGetIncrement (workflow_ctx id next)
  = (Ok (default 0 next), workflow_ctx id (Some (default 0 next + 1))).
Proof. done. Qed.

(** [n] IDs in a row *)
Fixpoint take_ids (n : nat) : CM (list Z) :=
  match n with
  | O => ret []
  | S n' =>
      let* id := functionIDGetIncrement in
      let* ids := take_ids n' in
      ret (id :: ids)
  end.

Lemma take_ids_from n id next :
  take_ids n (workflow_ctx id next)
  = (Ok (seqZ (default 0 next) (Z.of_nat n)),
     workflow_ctx id (if decide (n = O) then next else Some (default 0 next + Z.of_nat n))).
Proof.
  revert next. induction n as [|n IH]; intros next; [done|].
  cbn [take_ids]. unfold bind at 1. rewrite increment_workflow. unfold bind. rewrite IH.
  unfold ret. rewrite (seqZ_cons _ (Z.of_nat (S n))) by lia. f_equal.
  - cbn [default]. replace (Z.pred (Z.of_nat (S n))) with (Z.of_nat n) by lia.
    by replace (Z.succ (default 0 next)) with (default 0 next + 1) by lia.
  - rewrite (decide_False (P := S n = O)) by done. cbn [default].
    unfold Datatypes.id. destruct (decide (n = O)) as [->|]; do 2 f_equal; lia.
Qed.

(** * Properties *)

(** The IDs a workflow hands out are consecutive from where the last call stopped,
    starting at 0, so that a re-execution that makes the same calls gets the same IDs;
    [isInWorkflow] and the guard of [functionIDGetIncrement] agree everywhere except
    inside the step or transaction with ID 0, where the guard does not fire. *)
Theorem function_ids_sequential id next n :
  (take_ids n (workflow_ctx id next)).1 = Ok (seqZ (default 0 next) (Z.of_nat n))
  /\ (forall c, is_Some (cx_workflowId c) ->
        cx_curStepFunctionId c <> Some 0 -> cx_curTxFunctionId c <> Some 0 ->
        isInWorkflowCtx c = isInWorkflow c)
  /\ (forall c k, isInWorkflowCtx c = true ->
        (is_ok (runInStepContext k functionIDGetIncrement c).1 = true <-> k = 0)).
Proof.
  split; [by rewrite take_ids_from|]. split.
  - intros [w f s t a] [w' Hw] Hs Ht. simpl in *. subst.
    unfold isInWorkflowCtx, isInWorkflow, isInStepCtx, isInTxnCtx, isInStep, isInTransaction. simpl.
    destruct s as [[]|], t as [[]|]; simpl; try congruence; done.
  - intros [w f s t a] k Hc. unfold runInStepContext. rewrite Hc. cbn [negb fst].
    unfold functionIDGetIncrement. unfold isInWorkflowCtx, isInStepCtx, isInTxnCtx in *. simpl in *.
    destruct w as [w|]; [|done]. unfold isWithinWorkflowCtx in *. simpl in *.
    destruct (truthy_num t); [by rewrite andb_false_r in Hc|].
    destruct k; simpl; intuition congruence.
Qed.

Lemma function_ids_sequential_witness :
  is_ok (runInStepContext 0 functionIDGetIncrement (workflow_ctx "wf-1" (Some 1))).1 = true.
Proof.
  apply (function_ids_sequential "wf-1" None 0); reflexivity.
Defined.
