(* ===== verification/Decimal.v ===== *)
(** Decimal numerals: the text [JSON.stringify] prints for an integer and the value
    [JSON.parse] reads back, with the round trip the checkpointed deadlines rely on. *)

From Stdlib Require Import Ascii.
From stdpp Require Import pretty.
From S2P Require Export Prelude.

(** The value of a decimal digit. *)
Definition digit_value (c : Ascii.ascii) : option N :=
  let n := Ascii.N_of_ascii c in
  if ((48 <=? n) && (n <=? 57))%N then Some (n - 48)%N else None.

(** Reads digits to the end of the string, on top of the value [acc]. *)
Fixpoint parse_digits (acc : N) (s : string) : option N :=
  match s with
  | EmptyString => Some acc
  | String c s' =>
      match digit_value c with
      | Some v => parse_digits (10 * acc + v) s'
      | None => None
      end
  end.

(** A JSON integer: an optional minus sign and at least one digit. *)
Definition parse_Z (s : string) : option Z :=
  match s with
  | EmptyString => None
  | String "-"%char EmptyString => None
  | String "-"%char s' => (fun n => - Z.of_N n) <$> parse_digits 0 s'
  | _ => Z.of_N <$> parse_digits 0 s
  end.

(** [JSON.stringify(n)] of an integer *)
Definition stringify_Z (n : Z) : string := pretty n.

Lemma digit_value_char x : (x < 10)%N -> digit_value (pretty_N_char x) = Some x.
Proof.
  intros Hx.
  assert (x = 0 \/ x = 1 \/ x = 2 \/ x = 3 \/ x = 4 \/ x = 5 \/ x = 6 \/ x = 7 \/ x = 8
          \/ x = 9)%N as H by lia.
  repeat destruct H as [->|H]; subst; reflexivity.
Qed.

Lemma parse_digits_go x s : parse_digits 0 (pretty_N_go x s) = parse_digits x s.
Proof.
  revert s. induction (N.lt_wf_0 x) as [x _ IH]; intros s.
  destruct (decide (x = 0)%N) as [->|Hx]; [by rewrite pretty_N_go_0|].
  rewrite pretty_N_go_step by lia. rewrite IH by (apply N.div_lt; lia). simpl.
  rewrite digit_value_char by (apply N.mod_lt; done). f_equal.
  pose proof (N.div_mod x 10 ltac:(done)). lia.
Qed.

Lemma parse_digits_pretty (n : N) : parse_digits 0 (pretty n) = Some n.
Proof.
  unfold pretty, pretty_N. case_decide as E; [by subst|]. apply parse_digits_go.
Qed.

Lemma pretty_N_first (n : N) :
  exists c s, pretty n = String c s /\ digit_value c <> None.
Proof.
  pose proof (parse_digits_pretty n) as H.
  destruct (pretty n) as [|c s] eqn:E.
  - exfalso. revert E. unfold pretty, pretty_N. case_decide as E0; [done|].
    assert (forall x t, t <> "" -> pretty_N_go x t <> "") as Hne.
    { intros x. induction (N.lt_wf_0 x) as [x _ IH]; intros t Ht.
      destruct (decide (x = 0)%N) as [->|]; [by rewrite pretty_N_go_0|].
      rewrite pretty_N_go_step by lia. apply IH; [apply N.div_lt; lia | done]. }
    rewrite pretty_N_go_step by lia. by apply Hne.
  - exists c, s. split; [done|]. simpl in H. by destruct (digit_value c).
Qed.

(** [JSON.parse(JSON.stringify(n)) = n] on the integers. *)
Lemma parse_stringify_Z n : parse_Z (stringify_Z n) = Some n.
Proof.
  unfold stringify_Z. destruct n as [|p|p]; [done|..].
  - change (pretty (Z.pos p)) with (pretty (N.pos p)).
    pose proof (parse_digits_pretty (N.pos p)) as H.
    destruct (pretty_N_first (N.pos p)) as (c & s & E & Hc). rewrite E in *.
    unfold parse_Z. destruct (decide (c = "-"%char)) as [->|Hne]; [by destruct Hc|].
    rewrite H. by destruct c as [[] [] [] [] [] [] [] []].
  - change (pretty (Z.neg p)) with ("-" +:+ pretty (N.pos p)).
    pose proof (parse_digits_pretty (N.pos p)) as H.
    destruct (pretty_N_first (N.pos p)) as (c & s & E & _). rewrite E in *.
    change (((fun n => - Z.of_N n) <$> parse_digits 0 (String c s)) = Some (Z.neg p)).
    by rewrite H.
Qed.

Lemma stringify_Z_nonempty n : truthy_str (Some (stringify_Z n)) = Some (stringify_Z n).
Proof.
  pose proof (parse_stringify_Z n) as H. by destruct (stringify_Z n).
Qed.
