(* ===== verification/Crontab.v ===== *)
(** Cron expressions (src/src/scheduler/crontab.ts): the normalization of an expression into
    lists of numbers, its validation, and the matching of a date.

    The regular expressions of the code are written out as functions on strings.  The split of
    an instant into the fields of a date, in the local or in the named time zone, is the
    [Date] and [Intl] of the JavaScript runtime: a date is given here by its fields.
    [parseInt] yields unbounded integers, which is what it does below 2^53. *)

From Stdlib Require Import Ascii.
From S2P Require Export Errors Decimal.

Local Open Scope char_scope.

(** * Strings *)

(** [s.split(sep)] for a separator of one character *)
Fixpoint split_on (sep : ascii) (s : string) : list string :=
  match s with
  | EmptyString => [""%string]
  | String c s' =>
      if bool_decide (c = sep) then ""%string :: split_on sep s'
      else match split_on sep s' with
           | [] => [String c ""]
           | x :: xs => String c x :: xs
           end
  end.

(** [xs.join(sep)] *)
Fixpoint join (sep : string) (xs : list string) : string :=
  match xs with
  | [] => ""
  | [x] => x
  | x :: xs' => x +:+ sep +:+ join sep xs'
  end.

(** [\s] on ASCII *)
Definition is_space (c : ascii) : bool :=
  let n := N_of_ascii c in ((n =? 32) || ((9 <=? n) && (n <=? 13)))%N.

Definition is_digit (c : ascii) : bool := bool_decide (is_Some (digit_value c)).

Definition to_lower (c : ascii) : ascii :=
  let n := N_of_ascii c in if ((65 <=? n) && (n <=? 90))%N then ascii_of_N (n + 32) else c.

(** [\w] *)
Definition is_word (c : ascii) : bool :=
  let n := N_of_ascii (to_lower c) in
  is_digit c || ((97 <=? n) && (n <=? 122))%N || (n =? 95)%N.

(** The prefix of [s] whose characters satisfy [p], and the rest *)
Fixpoint span (p : ascii -> bool) (s : string) : string * string :=
  match s with
  | EmptyString => (""%string, ""%string)
  | String c s' =>
      if p c then let (a, b) := span p s' in (String c a, b) else (""%string, s)
  end.

(** [s.replace(/\s{2,}/g, ' ')]; [run] is the white space seen so far. *)
Fixpoint collapse (run s : string) : string :=
  let flush (t : string) := match run with
                            | EmptyString => t
                            | String c EmptyString => String c t
                            | _ => String " " t
                            end in
  match s with
  | EmptyString => flush ""%string
  | String c s' => if is_space c then collapse (run +:+ String c "") s'
                   else flush (String c (collapse "" s'))
  end.

Fixpoint rev_string (acc s : string) : string :=
  match s with EmptyString => acc | String c s' => rev_string (String c acc) s' end.

(** [s.trim()] *)
Definition trim (s : string) : string :=
  rev_string "" (span is_space (rev_string "" (span is_space s).2)).2.

Definition removeExtraSpaces (s : string) : string := trim (collapse "" s).

(** Whether [s] begins with [needle], up to case *)
Fixpoint prefix_ci (needle s : string) : bool :=
  match needle, s with
  | EmptyString, _ => true
  | String a n', String b s' => bool_decide (to_lower a = to_lower b) && prefix_ci n' s'
  | _, _ => false
  end.

(** [s.replace(new RegExp(needle, 'gi'), rep)]; [skip] characters belong to the last match. *)
Fixpoint replace_all_ci (needle rep : string) (skip : nat) (s : string) : string :=
  match s with
  | EmptyString => ""
  | String c s' =>
      match skip with
      | S k => replace_all_ci needle rep k s'
      | O => if prefix_ci needle s
             then rep +:+ replace_all_ci needle rep (pred (String.length needle)) s'
             else String c (replace_all_ci needle rep 0 s')
      end
  end.

(** [s.replace('*', rep)]: the first one *)
Fixpoint convertAsterisk (s rep : string) : string :=
  match s with
  | EmptyString => ""
  | String c s' => if bool_decide (c = "*") then rep +:+ s' else String c (convertAsterisk s' rep)
  end.

(** Reads digits up to the first other character, on top of the value [acc]. *)
Fixpoint digits_prefix (value : ascii -> option N) (base acc : N) (s : string) : N :=
  match s with
  | EmptyString => acc
  | String c s' => match value c with
                   | Some v => digits_prefix value base (base * acc + v) s'
                   | None => acc
                   end
  end.

(** The digits at the front of a string as a number, [NaN] for none *)
Definition leading_number (value : ascii -> option N) (base : N) (s : string) : option Z :=
  match s with
  | EmptyString => None
  | String c _ => match value c with
                  | Some _ => Some (Z.of_N (digits_prefix value base 0 s))
                  | None => None
                  end
  end.

Definition hex_value (c : ascii) : option N :=
  match digit_value c with
  | Some v => Some v
  | None => let n := N_of_ascii (to_lower c) in
            if ((97 <=? n) && (n <=? 102))%N then Some (n - 87)%N else None
  end.

(** [parseInt(s)], and [parseInt(s, 10)] when [hex] is false *)
Definition parseInt (hex : bool) (s : string) : option Z :=
  let s := (span is_space s).2 in
  let (sign, s) := match s with
                   | String "-" s' => (-1, s')
                   | String "+" s' => (1, s')
                   | _ => (1, s)
                   end%Z in
  Z.mul sign <$>
  match s with
  | String "0" (String c s') =>
      if hex && bool_decide (to_lower c = "x") then leading_number hex_value 16 s'
      else leading_number digit_value 10 s
  | _ => leading_number digit_value 10 s
  end.

(** [`${n}`] of a number *)
Definition show_number (n : option Z) : string :=
  match n with Some n => stringify_Z n | None => "NaN" end.

(** * Normalization *)

Definition prependSecondExpression (expressions : list string) : list string :=
  if bool_decide (length expressions = 5%nat) then "0"%string :: expressions else expressions.

Definition months : list string :=
  ["january"; "february"; "march"; "april"; "may"; "june"; "july"; "august"; "september";
   "october"; "november"; "december"]%string.
Definition shortMonths : list string :=
  ["jan"; "feb"; "mar"; "apr"; "may"; "jun"; "jul"; "aug"; "sep"; "oct"; "nov"; "dec"]%string.
Definition weekDays : list string :=
  ["sunday"; "monday"; "tuesday"; "wednesday"; "thursday"; "friday"; "saturday"]%string.
Definition shortWeekDays : list string :=
  ["sun"; "mon"; "tue"; "wed"; "thu"; "fri"; "sat"]%string.

(** The names of [items], replaced by their numbers from [i] on *)
Fixpoint convert_names (i : Z) (items : list string) (expression : string) : string :=
  match items with
  | [] => expression
  | x :: items' =>
      convert_names (i + 1) items' (replace_all_ci x (stringify_Z i) 0 expression)
  end.

Definition monthNamesConversion (expression : string) : string :=
  convert_names 1 shortMonths (convert_names 1 months expression).

Definition weekDayNamesConversion (expression : string) : string :=
  convert_names 0 shortWeekDays (convert_names 0 weekDays expression).

(** The ranges of the six fields *)
Definition field_ranges : list string :=
  ["0-59"; "0-59"; "0-23"; "1-31"; "1-12"; "0-6"]%string.

Fixpoint convertAsterisksToRanges (ranges expressions : list string) : list string :=
  match ranges, expressions with
  | r :: rs, e :: es => convertAsterisk e r :: convertAsterisksToRanges rs es
  | _, es => es
  end.

(** The first match of [/(\d+)-(\d+)/]: what precedes it, the two numbers, what follows *)
Fixpoint find_range (fuel : nat) (before s : string) : option (string * string * string * string) :=
  match fuel with
  | O => None
  | S fuel' =>
      let (skipped, s1) := span (fun c => negb (is_digit c)) s in
      let (a, s2) := span is_digit s1 in
      match a, s2 with
      | EmptyString, _ => None
      | _, String "-" s3 =>
          let (b, rest) := span is_digit s3 in
          match b with
          | EmptyString => find_range fuel' (before +:+ skipped +:+ a) s2
          | _ => Some (before +:+ skipped, a, b, rest)
          end
      | _, _ => find_range fuel' (before +:+ skipped +:+ a) s2
      end
  end.

(** [numbers.join()] of [replaceWithRange] *)
Definition range_numbers (init last : string) : string :=
  let a := default 0%Z (parseInt true init) in
  let b := default 0%Z (parseInt true last) in
  let lo := Z.min a b in
  let hi := Z.max a b in
  join "," (stringify_Z <$> seqZ lo (hi - lo + 1)).

(** [convertRange]: every round removes one dash. *)
Fixpoint convert_range_loop (fuel : nat) (expression : string) : string :=
  match fuel with
  | O => expression
  | S fuel' =>
      match find_range (S (String.length expression)) "" expression with
      | Some (before, a, b, rest) =>
          convert_range_loop fuel' (before +:+ range_numbers a b +:+ rest)
      | None => expression
      end
  end.

Definition convertRange (expression : string) : string :=
  convert_range_loop (S (String.length expression)) expression.

(** The match of [/^(.+)\/(\w+)$/] *)
Definition split_step (expression : string) : option (string * string) :=
  let (divider, rest) := span is_word (rev_string "" expression) in
  match divider, rest with
  | EmptyString, _ => None
  | _, String "/" (String c before) => Some (rev_string "" (String c before), rev_string "" divider)
  | _, _ => None
  end.

(** One field of [convertSteps] *)
Definition convert_step (expression : string) : dbos_error + string :=
  match split_step expression with
  | None => inr expression
  | Some (list_part, baseDivider) =>
      match parseInt true baseDivider with
      | None => inl (JsError (baseDivider +:+ " is not a valid step value"))
      | Some _ =>
          let divider := default 0%Z (parseInt false baseDivider) in
          inr (join "," (omap (fun v =>
                 match parseInt false v with
                 | Some n => if negb (bool_decide (divider = 0%Z)) && bool_decide (Z.rem n divider = 0%Z)
                             then Some (stringify_Z n) else None
                 | None => None
                 end) (split_on "," list_part)))
      end
  end.

Fixpoint convertSteps (expressions : list string) : dbos_error + list string :=
  match expressions with
  | [] => inr []
  | e :: es =>
      match convert_step e, convertSteps es with
      | inl err, _ => inl err
      | inr _, inl err => inl err
      | inr x, inr xs => inr (x :: xs)
      end
  end.

(** One field of [normalizeIntegers] *)
Definition normalize_integers (expression : string) : string :=
  join "," ((fun n => show_number (parseInt true n)) <$> split_on "," expression).

(** [convertSundaySeven], on the field of the week day *)
Definition convertSundaySeven (expression : string) : string :=
  join "," (foldl (fun folded value =>
     let day := if bool_decide (value = "7"%string) then "0"%string else value in
     if mem day folded then folded else folded ++ [day]) [] (split_on "," expression)).

(** [convertExpression]; an expression of fewer than five fields, or of more than five whose
    sixth is missing, fails on the missing field. *)
Definition convertExpression (crontab : string) : dbos_error + string :=
  let expressions := prependSecondExpression (split_on " " (removeExtraSpaces crontab)) in
  match expressions with
  | e0 :: e1 :: e2 :: e3 :: e4 :: e5 :: more =>
      let fields := e0 :: e1 :: e2 :: e3 :: monthNamesConversion e4
                    :: weekDayNamesConversion e5 :: more in
      match convertSteps (convertRange <$> convertAsterisksToRanges field_ranges fields) with
      | inl err => inl err
      | inr fields =>
          match normalize_integers <$> fields with
          | f0 :: f1 :: f2 :: f3 :: f4 :: f5 :: more =>
              inr (join " " (f0 :: f1 :: f2 :: f3 :: f4 :: convertSundaySeven f5 :: more))
          | _ => inl (JsTypeError "Cannot read properties of undefined (reading 'split')")
          end
      end
  | _ => inl (JsTypeError "Cannot read properties of undefined (reading 'replace')")
  end.

(** * Validation *)

(** [validationRegex]: digits, an asterisk, or an asterisk with a step *)
Definition validation_regex (s : string) : bool :=
  let digits (s : string) := negb (bool_decide (s = ""%string))
                             && bool_decide ((span is_digit s).2 = ""%string) in
  match s with
  | String "*" EmptyString => true
  | String "*" (String "/" s') => digits s'
  | _ => digits s
  end.

Definition isValidExpression (expression : string) (lo hi : Z) : bool :=
  forallb (fun option =>
    negb (match parseInt false option with
          | Some n => ((n <? lo) || (hi <? n))%Z
          | None => false
          end)
    && validation_regex option) (split_on "," expression).

(** The bounds and the name of each field, for [validateFields] *)
Definition field_bounds : list (Z * Z * string) :=
  [(0, 59, "second"); (0, 59, "minute"); (0, 23, "hour"); (1, 31, "day of month");
   (1, 12, "month"); (0, 7, "week day")]%Z%string.

Fixpoint validateFields (bounds : list (Z * Z * string)) (patterns executable : list string)
    : option dbos_error :=
  match bounds with
  | [] => None
  | (lo, hi, what) :: bounds' =>
      match executable with
      | [] => Some (JsTypeError "Cannot read properties of undefined (reading 'split')")
      | e :: executable' =>
          if isValidExpression e lo hi then validateFields bounds' (tail patterns) executable'
          else Some (JsError (default "undefined"%string (head patterns)
                              +:+ " is a invalid expression for " +:+ what))
      end
  end.

(** [validateCrontab] *)
Definition validateCrontab (pattern : string) : dbos_error + string :=
  match convertExpression pattern with
  | inl e => inl e
  | inr converted =>
      let executablePatterns := split_on " " converted in
      match validateFields field_bounds (prependSecondExpression (split_on " " pattern))
              executablePatterns with
      | Some e => inl e
      | None => inr (join " " executablePatterns)
      end
  end.

(** * Matching *)

(** The fields of a date that [match] reads; [df_month] is [getMonth() + 1]. *)
Record DateFields : Type := DateFieldsOf {
  df_seconds : Z;
  df_minutes : Z;
  df_hours : Z;
  df_date : Z;
  df_month : Z;
  df_day : Z
}.

Definition matchPattern (pattern : string) (nvalue : Z) : bool :=
  let value := stringify_Z nvalue in
  let patterns := split_on "," pattern in
  if bool_decide (length patterns = 1%nat) then bool_decide (pattern = value)
  else mem value patterns.

(** The constructor of [TimeMatcher] *)
Definition newTimeMatcher (pattern : string) : dbos_error + list string :=
  match validateCrontab pattern with
  | inl e => inl e
  | inr _ => match convertExpression pattern with
             | inl e => inl e
             | inr p => inr (split_on " " p)
             end
  end.

(** [TimeMatcher.match], on the fields of the date *)
Definition time_matches (expressions : list string) (d : DateFields) : bool :=
  match expressions with
  | s :: mi :: h :: da :: mo :: wd :: _ =>
      matchPattern s (df_seconds d) && matchPattern mi (df_minutes d)
      && matchPattern h (df_hours d)
      && (matchPattern da (df_date d) && matchPattern mo (df_month d)
          && matchPattern wd (df_day d))
  | _ => false
  end.

(** [nextWakeupTime]: the loop makes 3599 rounds. *)
Fixpoint wakeup_loop (matches : Z -> bool) (iters : nat) (msec : Z) : Z :=
  match iters with
  | O => msec
  | S iters' =>
      let msec := (msec + 1000)%Z in
      if matches msec then msec else wakeup_loop matches iters' msec
  end.

Definition nextWakeupTime (matches : Z -> bool) (time : Z) : Z :=
  wakeup_loop matches 3599 time.

(** * Lemmas: strings *)

Fixpoint has_char (c : ascii) (s : string) : bool :=
  match s with
  | EmptyString => false
  | String x s' => bool_decide (x = c) || has_char c s'
  end.

Fixpoint all_char (p : ascii -> bool) (s : string) : bool :=
  match s with
  | EmptyString => true
  | String x s' => p x && all_char p s'
  end.

(** The text does not go on with a character of [p]. *)
Definition stops (p : ascii -> bool) (s : string) : bool :=
  match s with EmptyString => true | String c _ => negb (p c) end.

(** stdpp keeps [simpl] from unfolding [append]. *)
Lemma has_char_app c s t : has_char c (s +:+ t) = has_char c s || has_char c t.
Proof. induction s as [|x s IH]; [done|]. rewrite append_cons. simpl. by rewrite IH, orb_assoc. Qed.

Lemma all_char_has p c s : all_char p s = true -> p c = false -> has_char c s = false.
Proof.
  intros Hs Hc. induction s as [|x s IH]; [done|]. simpl in *.
  apply andb_true_iff in Hs as [Hx Hs]. rewrite IH by done.
  rewrite bool_decide_false; [done|]. congruence.
Qed.

Lemma all_char_impl (p q : ascii -> bool) s :
  (forall c, p c = true -> q c = true) -> all_char p s = true -> all_char q s = true.
Proof.
  intros H. induction s as [|x s IH]; simpl; [done|]. rewrite !andb_true_iff. naive_solver.
Qed.

(** [span] stops where its characters end. *)
Lemma span_app p s t : all_char p s = true -> stops p t = true -> span p (s +:+ t) = (s, t).
Proof.
  intros Hs Ht. induction s as [|c s IH]; [|rewrite append_cons]; simpl in *.
  - change ("" +:+ t) with t. destruct t as [|c t]; simpl in *; [done|]. by destruct (p c).
  - apply andb_true_iff in Hs as [-> Hs]. by rewrite (IH Hs).
Qed.

Lemma span_has p c s : has_char c s = false -> has_char c (span p s).2 = false.
Proof.
  induction s as [|x s IH]; [done|]. intros H. simpl in *. apply orb_false_iff in H as [Hx Hs].
  destruct (p x); [|by simpl; rewrite Hx, Hs].
  specialize (IH Hs). by destruct (span p s).
Qed.

Lemma rev_string_rev a b s : rev_string a (rev_string b s) = rev_string (s +:+ a) b.
Proof. revert b. induction s as [|c s IH]; intros b; [done|]. apply IH. Qed.

Lemma rev_string_app a s t : rev_string a (s +:+ t) = rev_string (rev_string a s) t.
Proof. revert a. induction s as [|c s IH]; intros a; [done|]. apply IH. Qed.

Lemma rev_string_acc a s : rev_string a s = rev_string "" s +:+ a.
Proof.
  revert a. induction s as [|c s IH]; intros a; simpl; [done|].
  rewrite IH, (IH (String c "")), append_assoc_str. done.
Qed.

Lemma rev_string_invol s : rev_string "" (rev_string "" s) = s.
Proof. rewrite rev_string_rev. apply append_nil_str. Qed.

Lemma has_char_rev c s : has_char c (rev_string "" s) = has_char c s.
Proof.
  induction s as [|x s IH]; [done|]. simpl. rewrite rev_string_acc, has_char_app, IH. simpl.
  by rewrite orb_false_r, orb_comm.
Qed.

Lemma all_char_rev p s : all_char p (rev_string "" s) = all_char p s.
Proof.
  assert (forall a b, all_char p (a +:+ b) = all_char p a && all_char p b) as Happ.
  { intros a b. induction a as [|x a IH]; [done|]. rewrite append_cons. simpl. by rewrite IH, andb_assoc. }
  induction s as [|x s IH]; [done|]. simpl. rewrite rev_string_acc, Happ, IH. simpl.
  by rewrite andb_true_r, andb_comm.
Qed.

Lemma rev_string_nil s : rev_string "" s = ""%string -> s = ""%string.
Proof. intros H. apply (f_equal (rev_string "")) in H. by rewrite rev_string_invol in H. Qed.

Lemma split_on_no_sep sep s : has_char sep s = false -> split_on sep s = [s].
Proof.
  induction s as [|c s IH]; simpl; [done|]. rewrite orb_false_iff. intros [Hc Hs].
  by rewrite Hc, IH.
Qed.

Lemma split_on_app sep s t : has_char sep s = false ->
  split_on sep (s +:+ String sep t) = s :: split_on sep t.
Proof.
  induction s as [|c s IH]; [|rewrite append_cons]; simpl.
  - by rewrite bool_decide_true.
  - rewrite orb_false_iff. intros [Hc Hs]. by rewrite Hc, IH.
Qed.

(** [split] undoes [join]. *)
Lemma split_on_join sep x xs :
  Forall (fun s => has_char sep s = false) (x :: xs) ->
  split_on sep (join (String sep "") (x :: xs)) = x :: xs.
Proof.
  revert x. induction xs as [|y xs IH]; intros x H; inversion_clear H as [|? ? Hx Hxs].
  - by apply split_on_no_sep.
  - change (join (String sep "") (x :: y :: xs))
      with (x +:+ String sep (join (String sep "") (y :: xs))).
    rewrite split_on_app by done. by rewrite IH.
Qed.

Lemma join_app sep x xs y ys :
  join sep ((x :: xs) ++ y :: ys) = join sep (x :: xs) +:+ sep +:+ join sep (y :: ys).
Proof.
  revert x. induction xs as [|z xs IH]; intros x; [done|].
  change (join sep ((x :: z :: xs) ++ y :: ys))
    with (x +:+ sep +:+ join sep ((z :: xs) ++ y :: ys)).
  rewrite IH. change (join sep (x :: z :: xs)) with (x +:+ sep +:+ join sep (z :: xs)).
  by rewrite !append_assoc_str.
Qed.

Lemma has_char_join c sep xs :
  has_char c sep = false -> Forall (fun s => has_char c s = false) xs ->
  has_char c (join sep xs) = false.
Proof.
  intros Hsep H. induction H as [|x xs Hx Hxs IH]; [done|]. destruct xs as [|y xs]; [done|].
  change (join sep (x :: y :: xs)) with (x +:+ sep +:+ join sep (y :: xs)).
  by rewrite !has_char_app, Hx, Hsep, IH.
Qed.

Lemma length_join sep xs :
  Forall (fun s => s <> ""%string) xs -> (length xs <= String.length (join sep xs))%nat.
Proof.
  induction 1 as [|x xs Hx Hxs IH]; [done|].
  assert (1 <= String.length x)%nat by (destruct x; simpl; [done | lia]).
  destruct xs as [|y xs]; [simpl; lia|].
  change (join sep (x :: y :: xs)) with (x +:+ sep +:+ join sep (y :: xs)).
  rewrite !length_append_str. simpl in *. lia.
Qed.

(** * Lemmas: numerals *)

Lemma digit_cases c : is_digit c = true ->
  c ∈ ["0"; "1"; "2"; "3"; "4"; "5"; "6"; "7"; "8"; "9"].
Proof.
  rewrite <- mem_spec. by destruct c as [[] [] [] [] [] [] [] []].
Qed.

Lemma is_digit_value c : is_digit c = true <-> is_Some (digit_value c).
Proof. apply bool_decide_eq_true. Qed.

(** Splits on the ten digits. *)
Ltac digits c :=
  match goal with
  | H : is_digit c = true |- _ =>
      apply digit_cases in H;
      repeat (apply elem_of_cons in H as [H|H]; [subst c|]); [..|by apply elem_of_nil in H]
  end.

Lemma parse_digits_all acc s n : parse_digits acc s = Some n -> all_char is_digit s = true.
Proof.
  revert acc. induction s as [|c s IH]; intros acc; simpl; [done|].
  destruct (digit_value c) eqn:E; [|done]. intros H. rewrite (IH _ H), andb_true_r.
  apply is_digit_value. by rewrite E.
Qed.

(** A natural number is printed as digits. *)
Lemma stringify_digits n : (0 <= n)%Z ->
  exists c s, stringify_Z n = String c s /\ all_char is_digit (String c s) = true
              /\ parse_digits 0 (String c s) = Some (Z.to_N n).
Proof.
  intros Hn. destruct n as [|p|p]; [by exists "0", ""%string| |lia].
  pose proof (parse_digits_pretty (N.pos p)) as H.
  destruct (pretty_N_first (N.pos p)) as (c & s & E & _). rewrite E in H.
  exists c, s. split; [exact E|]. split; [by eapply parse_digits_all | exact H].
Qed.

Lemma stringify_has c n :
  (0 <= n)%Z -> is_digit c = false -> has_char c (stringify_Z n) = false.
Proof.
  intros Hn Hc. destruct (stringify_digits n Hn) as (x & s & -> & H & _).
  by eapply all_char_has.
Qed.

Lemma stringify_nonempty n : (0 <= n)%Z -> stringify_Z n <> ""%string.
Proof. intros Hn. by destruct (stringify_digits n Hn) as (x & s & -> & _). Qed.

#[export] Instance stringify_Z_inj : Inj (=) (=) stringify_Z.
Proof. intros a b H. apply (f_equal parse_Z) in H. rewrite !parse_stringify_Z in H. by simplify_eq. Qed.

Lemma digits_prefix_parse acc s n :
  parse_digits acc s = Some n -> digits_prefix digit_value 10 acc s = n.
Proof.
  revert acc. induction s as [|c s IH]; intros acc; simpl; [congruence|].
  destruct (digit_value c); [apply IH | done].
Qed.

(** [parseInt] reads a printed natural number back. *)
Lemma parseInt_stringify hex n : (0 <= n)%Z -> parseInt hex (stringify_Z n) = Some n.
Proof.
  intros Hn. destruct (stringify_digits n Hn) as (c & s & -> & Hd & Hp).
  assert (leading_number digit_value 10 (String c s) = Some n) as Hl.
  { unfold leading_number. pose proof Hd as Hc. simpl in Hc. apply andb_true_iff in Hc as [Hc _].
    apply is_digit_value in Hc as [v Hv]. rewrite Hv.
    rewrite (digits_prefix_parse _ _ _ Hp). by rewrite Z2N.id. }
  simpl in Hd. apply andb_true_iff in Hd as [Hc Hs].
  assert (match s with
          | String x _ => hex && bool_decide (to_lower x = "x") = false
          | EmptyString => True
          end) as Hx.
  { destruct s as [|x s]; [done|]. simpl in Hs. apply andb_true_iff in Hs as [Hx _].
    rewrite andb_false_iff. right. by digits x. }
  unfold parseInt. assert (Z.mul 1 <$> Some n = Some n) as Hone by (simpl; f_equal; lia).
  rewrite <- Hone, <- Hl. clear Hl Hp Hone.
  destruct s as [|x s]; [by digits c|]. digits c; try reflexivity.
  change (Z.mul 1 <$> (if hex && bool_decide (to_lower x = "x") then leading_number hex_value 16 s
                       else leading_number digit_value 10 (String "0" (String x s)))
          = Z.mul 1 <$> leading_number digit_value 10 (String "0" (String x s))).
  by rewrite Hx.
Qed.

(** The text of a list of numbers *)
Definition numbers_text (l : list Z) : string := join "," (stringify_Z <$> l).

Notation naturals l := (Forall (fun n => (0 <= n)%Z) l).

Lemma numerals_have c l :
  is_digit c = false -> naturals l ->
  Forall (fun s => has_char c s = false) (stringify_Z <$> l).
Proof. intros Hc H. apply Forall_fmap. eapply Forall_impl; [exact H|]. intros n Hn. by apply stringify_has. Qed.

Lemma numbers_text_has c l :
  is_digit c = false -> c <> "," -> naturals l -> has_char c (numbers_text l) = false.
Proof.
  intros Hc Hcomma H. apply has_char_join; [|by apply numerals_have].
  simpl. by rewrite bool_decide_false.
Qed.

Lemma split_numbers x l :
  naturals (x :: l) -> split_on "," (numbers_text (x :: l)) = stringify_Z <$> x :: l.
Proof. intros H. apply split_on_join. by apply (numerals_have "," (x :: l)). Qed.

(** A pattern that is a list of numbers matches exactly these. *)
Lemma matchPattern_list x l v :
  naturals (x :: l) -> matchPattern (numbers_text (x :: l)) v = mem v (x :: l).
Proof.
  intros H. unfold matchPattern. rewrite split_numbers by done. rewrite length_fmap.
  apply eq_true_iff_eq. rewrite mem_spec.
  case_bool_decide as Hl.
  - destruct l; [|done]. unfold numbers_text. simpl. rewrite bool_decide_eq_true. split.
    + intros Heq. apply (inj stringify_Z) in Heq as ->. by apply list_elem_of_singleton.
    + intros Heq. apply list_elem_of_singleton in Heq as ->. done.
  - rewrite mem_spec, list_elem_of_fmap. split.
    + intros (z & Hz & Hin). by apply (inj stringify_Z) in Hz as ->.
    + intros Hin. by exists v.
Qed.

(** * The meaning of an expression *)

(** One part of the comma separated list of a field *)
Inductive part : Type :=
| Star
| One (a : Z)
| Between (a b : Z).

Record cron_field : Type := CronField {
  cf_parts : list part;
  cf_step : option Z
}.

Definition part_text (p : part) : string :=
  match p with
  | Star => "*"
  | One a => stringify_Z a
  | Between a b => stringify_Z a +:+ "-" +:+ stringify_Z b
  end.

Definition parts_text (ps : list part) : string := join "," (part_text <$> ps).

Definition step_text (step : option Z) : string :=
  match step with None => ""%string | Some n => "/" +:+ stringify_Z n end.

Definition field_text (f : cron_field) : string :=
  parts_text (cf_parts f) +:+ step_text (cf_step f).

(** The numbers from [a] to [b], in either order *)
Definition numbers (a b : Z) : list Z := seqZ (Z.min a b) (Z.max a b - Z.min a b + 1).

(** The values of a part; an asterisk stands for [lo] to [hi]. *)
Definition part_values (lo hi : Z) (p : part) : list Z :=
  match p with Star => numbers lo hi | One a => [a] | Between a b => numbers a b end.

(** A step keeps its multiples. *)
Definition stepped (step : option Z) (vs : list Z) : list Z :=
  match step with
  | None => vs
  | Some n => List.filter (fun v => negb (bool_decide (n = 0%Z)) && bool_decide (Z.rem v n = 0%Z)) vs
  end.

Definition field_values (lo hi : Z) (f : cron_field) : list Z :=
  stepped (cf_step f) (cf_parts f ≫= part_values lo hi).

(** Saturday plus one is Sunday. *)
Definition sunday (day : Z) : Z := if bool_decide (day = 7%Z) then 0%Z else day.

Definition part_ok (p : part) : Prop :=
  match p with Star => True | One a => 0 <= a | Between a b => 0 <= a /\ 0 <= b end%Z.

Definition is_star (p : part) : bool := match p with Star => true | _ => false end.

(** A field that can be written: not empty, with natural numbers, and at most one asterisk *)
Definition field_ok (f : cron_field) : Prop :=
  cf_parts f <> [] /\ Forall part_ok (cf_parts f)
  /\ (length (List.filter is_star (cf_parts f)) <= 1)%nat
  /\ match cf_step f with None => True | Some n => (0 <= n)%Z end.

(** The field has a value, and all of them are in its bounds. *)
Definition admissible (lo hi : Z) (vs : list Z) : bool :=
  negb (bool_decide (vs = [])) && forallb (fun v => (lo <=? v) && (v <=? hi))%Z vs.

(** ** The asterisk *)

(** The first asterisk written as a range *)
Fixpoint unstar (lo hi : Z) (ps : list part) : list part :=
  match ps with
  | [] => []
  | Star :: ps' => Between lo hi :: ps'
  | p :: ps' => p :: unstar lo hi ps'
  end.

Lemma convertAsterisk_app s t r :
  has_char "*" s = false -> convertAsterisk (s +:+ t) r = s +:+ convertAsterisk t r.
Proof.
  induction s as [|c s IH]; [done|]. rewrite !append_cons. simpl.
  rewrite orb_false_iff. intros [Hc Hs]. by rewrite Hc, IH.
Qed.

Lemma convertAsterisk_none s r : has_char "*" s = false -> convertAsterisk s r = s.
Proof.
  intros H. rewrite <- (append_nil_str s) at 1. rewrite convertAsterisk_app by done.
  apply append_nil_str.
Qed.

Lemma part_text_has c p :
  is_digit c = false -> c <> "-" -> c <> "*" -> part_ok p -> has_char c (part_text p) = false.
Proof.
  intros Hd Hm Hs Hp. destruct p; cbn [part_text part_ok] in *.
  - simpl. by rewrite bool_decide_false.
  - by apply stringify_has.
  - rewrite !has_char_app, !stringify_has by tauto. simpl. by rewrite bool_decide_false.
Qed.

Lemma part_text_star p : part_ok p -> is_star p = false -> has_char "*" (part_text p) = false.
Proof.
  intros Hp Hs. destruct p; cbn [part_text part_ok] in *; [done | by apply stringify_has |].
  by rewrite !has_char_app, !stringify_has by tauto.
Qed.

Lemma step_text_has c step :
  is_digit c = false -> c <> "/" -> match step with None => True | Some n => (0 <= n)%Z end ->
  has_char c (step_text step) = false.
Proof.
  intros Hd Hc Hs. destruct step as [n|]; [|done]. simpl.
  change (bool_decide ("/" = c) || has_char c (stringify_Z n) = false).
  by rewrite bool_decide_false, stringify_has.
Qed.

Lemma parts_text_cons p ps suf :
  parts_text (p :: ps) +:+ suf
  = part_text p +:+ match ps with [] => suf | _ => "," +:+ parts_text ps +:+ suf end.
Proof.
  destruct ps as [|q ps]; [done|]. unfold parts_text. simpl.
  by rewrite !append_assoc_str.
Qed.

Lemma convertAsterisk_parts lo hi ps suf :
  Forall part_ok ps -> has_char "*" suf = false ->
  convertAsterisk (parts_text ps +:+ suf) (part_text (Between lo hi))
  = parts_text (unstar lo hi ps) +:+ suf.
Proof.
  intros Hps Hsuf. induction Hps as [|p ps Hp Hps IH]; [by apply convertAsterisk_none|].
  rewrite parts_text_cons. destruct (is_star p) eqn:Ep.
  - destruct p; try done. cbn [unstar]. by rewrite parts_text_cons.
  - replace (unstar lo hi (p :: ps)) with (p :: unstar lo hi ps) by (by destruct p).
    rewrite parts_text_cons, convertAsterisk_app by (by apply part_text_star). f_equal.
    destruct ps as [|q ps]; [by apply convertAsterisk_none|].
    rewrite convertAsterisk_app by done. rewrite IH. by destruct q.
Qed.

Lemma unstar_ok lo hi ps :
  (0 <= lo)%Z -> (0 <= hi)%Z -> Forall part_ok ps ->
  (length (List.filter is_star ps) <= 1)%nat ->
  Forall (fun p => part_ok p /\ is_star p = false) (unstar lo hi ps).
Proof.
  intros Hlo Hhi Hps. induction Hps as [|p ps Hp Hps IH]; [constructor|]. intros Hn.
  destruct p; cbn [unstar]; constructor; try (split; [done|reflexivity]); try (by apply IH).
  simpl in Hn. assert (List.filter is_star ps = []) as Hnil
    by (destruct (List.filter is_star ps); [done | simpl in Hn; lia]).
  rewrite Forall_forall in *. intros p Hin. split; [by apply Hps|].
  destruct (is_star p) eqn:E; [|done].
  assert (In p (List.filter is_star ps)) as HIn by (apply filter_In; by rewrite <- list_elem_of_In).
  by rewrite Hnil in HIn.
Qed.

Lemma unstar_values lo hi ps :
  unstar lo hi ps ≫= part_values lo hi = ps ≫= part_values lo hi.
Proof. induction ps as [|[] ps IH]; [done..| |]; cbn; by f_equal. Qed.

Lemma numbers_naturals a b : (0 <= a)%Z -> (0 <= b)%Z -> naturals (numbers a b).
Proof. intros Ha Hb. apply Forall_seqZ. intros. lia. Qed.

Lemma numbers_cons a b : exists l, numbers a b = Z.min a b :: l.
Proof.
  unfold numbers. rewrite seqZ_cons by lia. eauto.
Qed.

Lemma part_values_naturals lo hi ps :
  (0 <= lo)%Z -> (0 <= hi)%Z -> Forall part_ok ps -> naturals (ps ≫= part_values lo hi).
Proof.
  intros Hlo Hhi. induction 1 as [|p ps Hp Hps IH]; [constructor|].
  apply Forall_app. split; [|exact IH]. destruct p; cbn [part_values part_ok] in *.
  - by apply numbers_naturals.
  - by apply Forall_singleton.
  - destruct Hp. by apply numbers_naturals.
Qed.

(** ** The ranges *)

Lemma find_range_none fuel before s :
  has_char "-" s = false -> find_range fuel before s = None.
Proof.
  revert before s. induction fuel as [|fuel IH]; intros before s Hs; [done|]. simpl.
  pose proof (span_has (fun c => negb (is_digit c)) _ _ Hs) as H1.
  destruct (span _ s) as [skipped s1]. cbn [snd] in H1.
  pose proof (span_has is_digit _ _ H1) as H2.
  destruct (span is_digit s1) as [a s2]. cbn [snd] in H2.
  destruct a as [|x a]; [done|]. destruct s2 as [|y s2]; [by apply IH|].
  pose proof H2 as Hy. simpl in Hy. apply orb_false_iff in Hy as [Hy _].
  apply bool_decide_eq_false in Hy.
  destruct y as [[] [] [] [] [] [] [] []]; first [by apply IH | by destruct Hy].
Qed.

Lemma span_digits n t :
  (0 <= n)%Z -> stops is_digit t = true ->
  span is_digit (stringify_Z n +:+ t) = (stringify_Z n, t).
Proof.
  intros Hn Ht. apply span_app; [|done]. by destruct (stringify_digits n Hn) as (c & s & -> & H & _).
Qed.

Lemma span_to_numeral sep n t :
  (0 <= n)%Z -> all_char (fun c => negb (is_digit c)) sep = true ->
  span (fun c => negb (is_digit c)) (sep +:+ stringify_Z n +:+ t) = (sep, stringify_Z n +:+ t).
Proof.
  intros Hn Hsep. apply span_app; [done|].
  destruct (stringify_digits n Hn) as (c & s & -> & H & _). rewrite append_cons. simpl in *.
  apply andb_true_iff in H as [-> _]. done.
Qed.

(** The first range of a list, behind the numbers [ns] *)
Lemma find_range_first fuel before sep ns a b rest :
  (length ns < fuel)%nat -> naturals ns -> (0 <= a)%Z -> (0 <= b)%Z ->
  all_char (fun c => negb (is_digit c)) sep = true -> stops is_digit rest = true ->
  let front := foldr (fun n t => stringify_Z n +:+ "," +:+ t) ""%string ns in
  find_range fuel before (sep +:+ front +:+ stringify_Z a +:+ "-" +:+ stringify_Z b +:+ rest)
  = Some (before +:+ sep +:+ front, stringify_Z a, stringify_Z b, rest).
Proof.
  intros Hfuel Hns Ha Hb Hsep Hrest front. subst front.
  revert fuel before sep Hfuel Hsep.
  induction Hns as [|n ns Hn Hns IH]; intros fuel before sep Hfuel Hsep;
    (destruct fuel as [|fuel]; [simpl in Hfuel; lia|]); cbn [foldr find_range].
  - change ("" +:+ ?x) with x. rewrite span_to_numeral by done.
    rewrite span_digits by done.
    pose proof (stringify_nonempty a Ha) as Hane. pose proof (stringify_nonempty b Hb) as Hbne.
    change ("-" +:+ stringify_Z b +:+ rest) with (String "-" (stringify_Z b +:+ rest)).
    rewrite append_nil_str.
    destruct (stringify_Z a) eqn:Ea; [done|]. cbn iota. rewrite span_digits by done.
    by destruct (stringify_Z b).
  - rewrite !append_assoc_str. rewrite span_to_numeral by done.
    change ("," +:+ ?t) with (String "," t). rewrite span_digits by done.
    pose proof (stringify_nonempty n Hn) as Hne.
    destruct (stringify_Z n) as [|x s] eqn:En; [done|]. cbn iota. rewrite <- En.
    specialize (IH fuel (before +:+ sep +:+ stringify_Z n) ","%string ltac:(simpl in Hfuel; lia) eq_refl).
    change ("," +:+ ?t) with (String "," t) in IH. rewrite IH.
    by rewrite !append_assoc_str.
Qed.

(** A list of numbers, then other parts *)
Definition mixed (ns : list Z) (ps : list part) : string :=
  parts_text ((One <$> ns) ++ ps).

Lemma mixed_range ns a b ps suf :
  mixed ns (Between a b :: ps) +:+ suf
  = foldr (fun n t => stringify_Z n +:+ "," +:+ t) ""%string ns
    +:+ stringify_Z a +:+ "-" +:+ stringify_Z b
    +:+ match ps with [] => suf | _ => "," +:+ parts_text ps +:+ suf end.
Proof.
  unfold mixed. induction ns as [|n ns IH].
  - change ((One <$> []) ++ ?l) with l. rewrite parts_text_cons. cbn [part_text].
    by rewrite !append_assoc_str.
  - change ((One <$> n :: ns) ++ ?l) with (One n :: (One <$> ns) ++ l).
    rewrite parts_text_cons. cbn [part_text foldr]. rewrite !append_assoc_str, <- IH.
    by destruct ns.
Qed.

Lemma parts_text_app ps qs suf :
  ps <> [] -> parts_text (ps ++ qs) +:+ suf
              = parts_text ps +:+ match qs with [] => suf | _ => "," +:+ parts_text qs +:+ suf end.
Proof.
  intros Hps. destruct qs as [|q qs]; [by rewrite app_nil_r|].
  destruct ps as [|p ps]; [done|]. unfold parts_text. rewrite fmap_app.
  rewrite !fmap_cons. rewrite join_app. by rewrite !append_assoc_str.
Qed.

Lemma parts_text_one ns : parts_text (One <$> ns) = numbers_text ns.
Proof. unfold parts_text, numbers_text. by rewrite <- list_fmap_compose. Qed.

(** A range is replaced by its numbers, in their place. *)
Lemma range_replaced ns a b ps suf :
  (0 <= a)%Z -> (0 <= b)%Z ->
  foldr (fun n t => stringify_Z n +:+ "," +:+ t) ""%string ns
  +:+ range_numbers (stringify_Z a) (stringify_Z b)
  +:+ match ps with [] => suf | _ => "," +:+ parts_text ps +:+ suf end
  = mixed (ns ++ numbers a b) ps +:+ suf.
Proof.
  intros Ha Hb. unfold range_numbers. rewrite !parseInt_stringify by done. cbn [default].
  change (join "," (stringify_Z <$> _)) with (numbers_text (numbers a b)).
  unfold mixed. rewrite fmap_app, <- app_assoc, <- parts_text_one.
  assert (numbers a b <> []) as Hne by (by destruct (numbers_cons a b) as [? ->]).
  assert ((One <$> numbers a b) ++ ps <> []) as Hne' by (by destruct (numbers a b)).
  induction ns as [|n ns IH].
  - change ((One <$> []) ++ ?l) with l. rewrite parts_text_app by (by destruct (numbers a b)).
    done.
  - change ((One <$> n :: ns) ++ ?l) with (One n :: (One <$> ns) ++ l).
    rewrite parts_text_cons. cbn [part_text foldr]. rewrite !append_assoc_str, IH.
    destruct ((One <$> ns) ++ (One <$> numbers a b) ++ ps) eqn:E; [|done].
    apply app_nil in E as [_ E]. done.
Qed.

Definition ranges (ps : list part) : nat :=
  length (List.filter (fun p => match p with Between _ _ => true | _ => false end) ps).

Lemma length_mixed ns ps :
  naturals ns -> Forall part_ok ps -> (length ns + length ps <= String.length (mixed ns ps))%nat.
Proof.
  intros Hns Hps. unfold mixed, parts_text.
  rewrite <- (length_fmap One ns), <- length_app, <- (length_fmap part_text). apply length_join.
  apply Forall_fmap, Forall_app. split.
  - apply Forall_fmap. eapply Forall_impl; [exact Hns|]. intros n Hn. by apply stringify_nonempty.
  - eapply Forall_impl; [exact Hps|]. intros [] Hp; cbn [compose part_text part_ok] in *; [done|..].
    + by apply stringify_nonempty.
    + destruct Hp as [Ha _]. apply stringify_nonempty in Ha. by destruct (stringify_Z a).
Qed.

Lemma convert_range_loop_parts lo hi fuel ns ps suf :
  (ranges ps <= fuel)%nat -> naturals ns ->
  Forall (fun p => part_ok p /\ is_star p = false) ps ->
  has_char "-" suf = false -> stops is_digit suf = true ->
  convert_range_loop fuel (mixed ns ps +:+ suf)
  = numbers_text (ns ++ (ps ≫= part_values lo hi)) +:+ suf.
Proof.
  intros Hfuel Hns Hps Hdash Hstop. revert fuel ns Hfuel Hns.
  induction Hps as [|p ps [Hp Hstar] Hps IH]; intros fuel ns Hfuel Hns.
  - change ([] ≫= part_values lo hi) with (@nil Z). unfold mixed.
    rewrite !app_nil_r, parts_text_one. destruct fuel as [|fuel]; [done|].
    cbn [convert_range_loop]. rewrite find_range_none; [done|]. rewrite has_char_app, Hdash, orb_false_r.
    by apply numbers_text_has.
  - destruct p as [|a|a b]; [done|..].
    + cbn [ranges part_values] in *. specialize (IH fuel (ns ++ [a])).
      change ((One a :: ps) ≫= part_values lo hi) with (a :: (ps ≫= part_values lo hi)).
      rewrite (cons_middle a ns), (app_assoc ns).
      rewrite <- IH;
        [|done|by apply Forall_app; split; [|apply Forall_singleton]].
      unfold mixed. by rewrite fmap_app, <- app_assoc.
    + destruct Hp as [Ha Hb]. destruct fuel as [|fuel]; [unfold ranges in Hfuel; simpl in Hfuel; lia|].
      cbn [convert_range_loop].
      assert (length ns < S (String.length (mixed ns (Between a b :: ps) +:+ suf)))%nat as Hlen.
      { assert (Forall part_ok (Between a b :: ps)) as Hok
          by (constructor; [by split | by eapply Forall_impl; [exact Hps | intros ? []]]).
        pose proof (length_mixed ns _ Hns Hok). rewrite length_append_str. lia. }
      pose proof (find_range_first (S (String.length (mixed ns (Between a b :: ps) +:+ suf))) "" ""
        ns a b (match ps with [] => suf | _ => "," +:+ parts_text ps +:+ suf end)) as Hfind.
      cbv zeta in Hfind. rewrite mixed_range in *. change ("" +:+ ?x) with x in Hfind.
      rewrite Hfind; [|done|done|done|done|done|by destruct ps].
      change ("" +:+ ?x) with x. rewrite range_replaced by done.
      change ((Between a b :: ps) ≫= part_values lo hi)
        with (numbers a b ++ (ps ≫= part_values lo hi)).
      rewrite app_assoc. apply IH; [unfold ranges in *; simpl in Hfuel; lia|].
      apply Forall_app. split; [done | by apply numbers_naturals].
Qed.

Lemma ranges_bound ps suf :
  Forall part_ok ps -> (ranges ps <= S (String.length (parts_text ps +:+ suf)))%nat.
Proof.
  intros Hps. pose proof (length_mixed [] ps (List.Forall_nil _) Hps) as H.
  rewrite length_append_str. unfold mixed in H. simpl in H.
  pose proof (List.filter_length_le
    (fun p => match p with Between _ _ => true | _ => false end) ps). unfold ranges. lia.
Qed.

(** ** The steps *)

Lemma is_digit_word c : is_digit c = true -> is_word c = true.
Proof. intros H. unfold is_word. by rewrite H. Qed.

Lemma split_step_some s n :
  (0 <= n)%Z -> s <> ""%string -> split_step (s +:+ "/" +:+ stringify_Z n) = Some (s, stringify_Z n).
Proof.
  intros Hn Hs. unfold split_step. rewrite !rev_string_app.
  rewrite (rev_string_acc _ (stringify_Z n)). simpl (rev_string _ "/").
  destruct (stringify_digits n Hn) as (c & t & Et & Hd & _).
  rewrite span_app; [| |done].
  - destruct (rev_string "" (stringify_Z n)) eqn:En; [by apply rev_string_nil in En; rewrite En in Et|].
    destruct (rev_string "" s) eqn:Es; [by apply rev_string_nil in Es|].
    by rewrite <- En, <- Es, !rev_string_invol.
  - rewrite all_char_rev, Et. eapply all_char_impl; [exact is_digit_word | exact Hd].
Qed.

Lemma split_step_none s : has_char "/" s = false -> split_step s = None.
Proof.
  intros Hs. unfold split_step.
  assert (has_char "/" (rev_string "" s) = false) as H by (by rewrite has_char_rev).
  pose proof (span_has is_word _ _ H) as Hr. destruct (span is_word _) as [d r]. cbn [snd] in Hr.
  destruct d as [|x d]; [done|]. destruct r as [|c r]; [done|].
  pose proof Hr as Hc. simpl in Hc. apply orb_false_iff in Hc as [Hc _].
  apply bool_decide_eq_false in Hc.
  destruct c as [[] [] [] [] [] [] [] []]; first [reflexivity | by destruct Hc].
Qed.

Lemma stepped_naturals step vs : naturals vs -> naturals (stepped step vs).
Proof.
  intros H. destruct step as [n|]; [|done]. simpl. rewrite Forall_forall in *.
  intros v Hv. apply H. rewrite list_elem_of_In in *. by apply filter_In in Hv as [Hv _].
Qed.

Lemma numbers_text_nonempty x vs : (0 <= x)%Z -> numbers_text (x :: vs) <> ""%string.
Proof.
  intros Hx. apply stringify_nonempty in Hx. unfold numbers_text. rewrite fmap_cons.
  destruct (stringify_Z x); [done|]. by destruct vs.
Qed.

(** What a step leaves of a list of numbers *)
Lemma convert_step_numbers step x vs :
  naturals (x :: vs) -> match step with None => True | Some n => (0 <= n)%Z end ->
  convert_step (numbers_text (x :: vs) +:+ step_text step)
  = inr (numbers_text (stepped step (x :: vs))).
Proof.
  intros Hvs Hstep. unfold convert_step. destruct step as [n|]; cbn [step_text stepped].
  - rewrite split_step_some; [|done|by apply numbers_text_nonempty, (Forall_inv Hvs)].
    rewrite !parseInt_stringify by done. cbn [default]. rewrite split_numbers by done.
    f_equal. unfold numbers_text. f_equal.
    generalize dependent (x :: vs). induction 1 as [|v vs' Hv Hvs' IH]; [done|].
    rewrite fmap_cons. cbn [omap list_omap List.filter]. rewrite parseInt_stringify by done.
    cbn [default] in *. destruct (_ && _); [rewrite fmap_cons; by f_equal | exact IH].
  - rewrite append_nil_str, split_step_none; [done|]. by apply numbers_text_has.
Qed.

(** ** Normalization and validation *)

(** The text of the numbers of a field after the conversion; no number reads as [NaN]. *)
Definition final_text (vs : list Z) : string :=
  match vs with [] => "NaN"%string | _ => numbers_text vs end.

Lemma normalize_numbers vs : naturals vs -> normalize_integers (numbers_text vs) = final_text vs.
Proof.
  intros Hvs. destruct vs as [|v vs]; [done|]. unfold normalize_integers.
  rewrite split_numbers by done. unfold final_text, numbers_text. f_equal.
  rewrite <- list_fmap_compose. apply list_fmap_ext. intros i n Hn. unfold compose.
  rewrite parseInt_stringify; [done|].
  exact (Forall_lookup_1 _ _ _ _ Hvs Hn).
Qed.

Lemma validation_digits n : (0 <= n)%Z -> validation_regex (stringify_Z n) = true.
Proof.
  intros Hn. destruct (stringify_digits n Hn) as (c & s & -> & Hd & _).
  assert ((span is_digit (String c s)).2 = ""%string) as Hspan.
  { rewrite <- (append_nil_str (String c s)). by rewrite span_app. }
  pose proof Hd as Hc. simpl in Hc. apply andb_true_iff in Hc as [Hc _].
  unfold validation_regex.
  digits c; by rewrite Hspan.
Qed.

Lemma final_text_valid lo hi vs :
  naturals vs -> isValidExpression (final_text vs) lo hi = admissible lo hi vs.
Proof.
  intros Hvs. unfold admissible. destruct vs as [|v vs]; [done|].
  rewrite bool_decide_false by done. unfold final_text, isValidExpression.
  rewrite split_numbers by done. cbn [negb andb].
  generalize dependent (v :: vs). induction 1 as [|n l Hn Hl IH]; [done|].
  rewrite fmap_cons. cbn [forallb]. rewrite IH, parseInt_stringify, validation_digits by done.
  rewrite andb_true_r. f_equal. rewrite negb_orb. by rewrite <- Z.leb_antisym, <- Z.leb_antisym.
Qed.

(** Sundays written as 7 are folded, once. *)
Definition fold_sundays (vs : list Z) : list Z :=
  foldl (fun folded v => let day := sunday v in if mem day folded then folded else folded ++ [day])
    [] vs.

Lemma sunday_text v :
  (if bool_decide (stringify_Z v = "7"%string) then "0"%string else stringify_Z v)
  = stringify_Z (sunday v).
Proof.
  unfold sunday. change "7"%string with (stringify_Z 7).
  destruct (decide (v = 7%Z)) as [->|Hv]; [done|].
  rewrite !bool_decide_false; [done | done|]. intros H. by apply (inj stringify_Z) in H.
Qed.

Lemma fold_sundays_text acc vs :
  foldl (fun folded value =>
           let day := if bool_decide (value = "7"%string) then "0"%string else value in
           if mem day folded then folded else folded ++ [day])
    (stringify_Z <$> acc) (stringify_Z <$> vs)
  = stringify_Z <$>
    foldl (fun folded v => let day := sunday v in if mem day folded then folded else folded ++ [day])
      acc vs.
Proof.
  revert acc. induction vs as [|v vs IH]; intros acc; [done|]. rewrite fmap_cons. cbn [foldl].
  cbv zeta. rewrite sunday_text.
  replace (mem (stringify_Z (sunday v)) (stringify_Z <$> acc)) with (mem (sunday v) acc).
  - rewrite <- IH. f_equal. destruct (mem _ _); [done | by rewrite fmap_app].
  - apply eq_true_iff_eq. rewrite !mem_spec. symmetry. apply list_elem_of_fmap_inj. apply _.
Qed.

Lemma fold_sundays_elem v vs : v ∈ fold_sundays vs <-> v ∈ sunday <$> vs.
Proof.
  unfold fold_sundays.
  assert (forall acc, v ∈ foldl (fun folded v => let day := sunday v in
             if mem day folded then folded else folded ++ [day]) acc vs
           <-> v ∈ acc \/ v ∈ sunday <$> vs) as H.
  { induction vs as [|x vs IH]; intros acc; simpl; [set_solver|]. rewrite IH.
    destruct (mem (sunday x) acc) eqn:E; [apply mem_spec in E|]; set_solver. }
  rewrite H. set_solver.
Qed.

Lemma fold_sundays_nil vs : fold_sundays vs = [] <-> vs = [].
Proof.
  split; [|by intros ->]. intros H. destruct vs as [|v vs]; [done|].
  assert (sunday v ∈ fold_sundays (v :: vs)) as Hin by (rewrite fold_sundays_elem; set_solver).
  rewrite H in Hin. by apply elem_of_nil in Hin.
Qed.

Lemma fold_sundays_naturals vs : naturals vs -> naturals (fold_sundays vs).
Proof.
  rewrite !Forall_forall. intros H v Hv. apply fold_sundays_elem in Hv.
  apply list_elem_of_fmap in Hv as (x & -> & Hx). unfold sunday.
  case_bool_decide; [lia | by apply H].
Qed.

Lemma convertSundaySeven_numbers vs :
  naturals vs -> convertSundaySeven (final_text vs) = final_text (fold_sundays vs).
Proof.
  intros Hvs. destruct vs as [|v vs]; [done|]. unfold convertSundaySeven, final_text at 1.
  rewrite split_numbers by done. change (@nil string) with (stringify_Z <$> @nil Z).
  rewrite fold_sundays_text. change (foldl _ [] (v :: vs)) with (fold_sundays (v :: vs)).
  destruct (fold_sundays (v :: vs)) eqn:E; [by rewrite fold_sundays_nil in E | done].
Qed.

Lemma admissible_sundays vs : admissible 0 7 (fold_sundays vs) = admissible 0 7 vs.
Proof.
  unfold admissible. f_equal.
  - f_equal. apply bool_decide_ext. apply fold_sundays_nil.
  - apply eq_true_iff_eq. rewrite !forallb_forall.
    split; intros H v Hv; rewrite <- list_elem_of_In in *.
    + assert (sunday v ∈ fold_sundays vs) as Hin by (apply fold_sundays_elem; set_solver).
      rewrite list_elem_of_In in Hin. specialize (H _ Hin). revert H. unfold sunday.
      case_bool_decide; [subst; done | done].
    + apply fold_sundays_elem, list_elem_of_fmap in Hv as (x & -> & Hx).
      rewrite list_elem_of_In in Hx. specialize (H _ Hx). unfold sunday.
      by case_bool_decide.
Qed.

Lemma final_text_has c vs :
  is_digit c = false -> c <> "," -> c <> "N" -> c <> "a" -> naturals vs ->
  has_char c (final_text vs) = false.
Proof.
  intros Hd Hc HN Ha Hvs. destruct vs as [|v vs]; [|by apply numbers_text_has].
  simpl. by rewrite !bool_decide_false.
Qed.

(** ** The pipeline *)

Lemma field_values_naturals lo hi f :
  (0 <= lo)%Z -> (0 <= hi)%Z -> field_ok f -> naturals (field_values lo hi f).
Proof.
  intros Hlo Hhi (_ & Hps & _). by apply stepped_naturals, part_values_naturals.
Qed.

(** One field through the conversions of the asterisk, the ranges and the step *)
Lemma field_converted lo hi f :
  (0 <= lo)%Z -> (0 <= hi)%Z -> field_ok f ->
  convert_step (convertRange (convertAsterisk (field_text f) (part_text (Between lo hi))))
  = inr (numbers_text (field_values lo hi f)).
Proof.
  intros Hlo Hhi (Hne & Hps & Hstars & Hstep). destruct f as [ps step].
  unfold field_text, field_values. cbn [cf_parts cf_step] in *.
  rewrite convertAsterisk_parts by (done || by apply step_text_has).
  pose proof (unstar_ok lo hi ps Hlo Hhi Hps Hstars) as Hok. unfold convertRange.
  change (parts_text (unstar lo hi ps)) with (mixed [] (unstar lo hi ps)).
  rewrite (convert_range_loop_parts lo hi); [|by apply ranges_bound;
    eapply Forall_impl; [exact Hok | intros ? []] | constructor | exact Hok
    | by apply step_text_has | by destruct step].
  rewrite unstar_values. change ([] ++ ?l) with l.
  pose proof (part_values_naturals lo hi ps Hlo Hhi Hps) as Hnat.
  destruct (ps ≫= part_values lo hi) as [|v vs] eqn:E; [|by apply convert_step_numbers].
  exfalso. destruct ps as [|p ps]; [done|].
  change (part_values lo hi p ++ (ps ≫= part_values lo hi) = []) in E.
  apply app_nil in E as [E _]. destruct p; cbn [part_values] in E; [|done|].
  - by destruct (numbers_cons lo hi) as [? Hc]; rewrite Hc in E.
  - by destruct (numbers_cons a b) as [? Hc]; rewrite Hc in E.
Qed.

(** The values of the six fields *)
Definition schedule_values (s mi h da mo wd : cron_field) : list (list Z) :=
  [field_values 0 59 s; field_values 0 59 mi; field_values 0 23 h; field_values 1 31 da;
   field_values 1 12 mo; fold_sundays (field_values 0 6 wd)].

(** An expression is written with these fields: five or six words, where the names of the months
    and of the week days stand for their numbers. *)
Definition written (crontab : string) (s mi h da mo wd : cron_field) : Prop :=
  match prependSecondExpression (split_on " " (removeExtraSpaces crontab)) with
  | [e0; e1; e2; e3; e4; e5] =>
      e0 = field_text s /\ e1 = field_text mi /\ e2 = field_text h /\ e3 = field_text da
      /\ monthNamesConversion e4 = field_text mo /\ weekDayNamesConversion e5 = field_text wd
  | _ => False
  end.

Lemma schedule_values_naturals s mi h da mo wd :
  Forall field_ok [s; mi; h; da; mo; wd] ->
  Forall (fun vs => naturals vs) (schedule_values s mi h da mo wd).
Proof.
  rewrite !Forall_cons. intros (? & ? & ? & ? & ? & ? & _). unfold schedule_values.
  rewrite !Forall_cons. split_and!; try (by apply field_values_naturals); [|by constructor].
  by apply fold_sundays_naturals, field_values_naturals.
Qed.

Lemma convertExpression_written crontab s mi h da mo wd :
  written crontab s mi h da mo wd -> Forall field_ok [s; mi; h; da; mo; wd] ->
  convertExpression crontab = inr (join " " (final_text <$> schedule_values s mi h da mo wd)).
Proof.
  unfold written, convertExpression. intros Hw Hok. revert Hw.
  destruct (prependSecondExpression _) as [|e0 [|e1 [|e2 [|e3 [|e4 [|e5 [|]]]]]]]; try done.
  intros (-> & -> & -> & -> & -> & ->).
  rewrite !Forall_cons in Hok. destruct Hok as (Hs & Hmi & Hh & Hda & Hmo & Hwd & _).
  change field_ranges with (part_text <$> [Between 0 59; Between 0 59; Between 0 23;
    Between 1 31; Between 1 12; Between 0 6]%Z).
  rewrite !fmap_cons. cbn [convertAsterisksToRanges]. rewrite !fmap_cons. cbn [convertSteps].
  rewrite !field_converted by done.
  cbn [convertAsterisksToRanges convertSteps fmap list_fmap].
  rewrite !normalize_numbers by (by apply field_values_naturals).
  by rewrite convertSundaySeven_numbers by (by apply field_values_naturals).
Qed.

Lemma split_fields vss :
  vss <> [] -> Forall (fun vs => naturals vs) vss ->
  split_on " " (join " " (final_text <$> vss)) = final_text <$> vss.
Proof.
  intros Hne H. destruct vss as [|vs vss]; [done|]. rewrite fmap_cons. apply split_on_join.
  rewrite <- fmap_cons. apply Forall_fmap. eapply Forall_impl; [exact H|].
  intros l Hl. by apply final_text_has.
Qed.

Lemma validateFields_spec bounds patterns vss :
  Forall (fun vs => naturals vs) vss -> length vss = length bounds ->
  validateFields bounds patterns (final_text <$> vss) = None
  <-> forallb (fun bv => admissible bv.1.1.1 bv.1.1.2 bv.2) (zip bounds vss) = true.
Proof.
  revert patterns vss. induction bounds as [|[[lo hi] what] bounds IH]; intros patterns vss Hvss Hlen.
  - by destruct vss.
  - destruct vss as [|vs vss]; [done|]. inversion_clear Hvss as [|? ? Hvs Hrest].
    rewrite fmap_cons. cbn [validateFields zip zip_with forallb fst snd].
    rewrite final_text_valid by done. destruct (admissible lo hi vs); [|done].
    cbn [andb]. apply IH; [done | by simplify_eq/=].
Qed.

(** The schedule an expression stands for *)
Definition on_schedule (s mi h da mo wd : cron_field) (d : DateFields) : Prop :=
  df_seconds d ∈ field_values 0 59 s /\ df_minutes d ∈ field_values 0 59 mi
  /\ df_hours d ∈ field_values 0 23 h /\ df_date d ∈ field_values 1 31 da
  /\ df_month d ∈ field_values 1 12 mo /\ df_day d ∈ sunday <$> field_values 0 6 wd.

(** Every field has values, and they are in its bounds. *)
Definition schedulable (s mi h da mo wd : cron_field) : bool :=
  admissible 0 59 (field_values 0 59 s) && admissible 0 59 (field_values 0 59 mi)
  && admissible 0 23 (field_values 0 23 h) && admissible 1 31 (field_values 1 31 da)
  && admissible 1 12 (field_values 1 12 mo) && admissible 0 7 (field_values 0 6 wd).

Lemma matchPattern_final vs v :
  naturals vs -> vs <> [] -> matchPattern (final_text vs) v = true <-> v ∈ vs.
Proof.
  intros Hvs Hne. destruct vs as [|x vs]; [done|]. unfold final_text.
  rewrite matchPattern_list by done. apply mem_spec.
Qed.

Lemma admissible_nonempty lo hi vs : admissible lo hi vs = true -> vs <> [].
Proof. intros H ->. done. Qed.

Lemma matches_written vss d :
  match vss with
  | [s; mi; h; da; mo; wd] =>
      Forall (fun vs => naturals vs /\ vs <> []) vss ->
      time_matches (final_text <$> vss) d = true
      <-> df_seconds d ∈ s /\ df_minutes d ∈ mi /\ df_hours d ∈ h /\ df_date d ∈ da
          /\ df_month d ∈ mo /\ df_day d ∈ wd
  | _ => True
  end.
Proof.
  destruct vss as [|s [|mi [|h [|da [|mo [|wd [|]]]]]]]; try done.
  rewrite !Forall_cons. intros ([] & [] & [] & [] & [] & [] & _).
  cbn [fmap list_fmap time_matches]. rewrite !andb_true_iff, !matchPattern_final by done. tauto.
Qed.

Lemma validateCrontab_written crontab s mi h da mo wd :
  written crontab s mi h da mo wd -> Forall field_ok [s; mi; h; da; mo; wd] ->
  if schedulable s mi h da mo wd
  then validateCrontab crontab = convertExpression crontab
  else exists e, validateCrontab crontab = inl e.
Proof.
  intros Hw Hok. unfold validateCrontab. rewrite (convertExpression_written _ _ _ _ _ _ _ Hw Hok).
  pose proof (schedule_values_naturals _ _ _ _ _ _ Hok) as Hnat.
  rewrite split_fields by done.
  pose proof (validateFields_spec field_bounds
    (prependSecondExpression (split_on " " crontab)) _ Hnat eq_refl) as Hv.
  cbn [zip zip_with field_bounds schedule_values forallb fst snd] in Hv.
  rewrite admissible_sundays, andb_true_r in Hv.
  unfold schedulable. rewrite <- !andb_assoc.
  match goal with |- if ?b then _ else _ => destruct b end.
  - by rewrite (proj2 Hv eq_refl).
  - destruct (validateFields _ _ _) as [e|]; [by eexists|]. by discriminate (proj1 Hv eq_refl).
Qed.

(** C6: The cron parser gives an expression its meaning.  Take any five- or six-word expression
    whose fields are comma separated numbers, ranges and at most one asterisk, with an optional
    step, the names of months and week days standing for their numbers.  If every field has a
    value and all its values are in the bounds of the field, the matcher is built and it
    accepts a date exactly when each component of the date is a value of its field: the numbers
    of a range in either order, of which a step keeps the multiples, and 7 is Sunday.
    Otherwise the expression is rejected. *)
Theorem cron_semantics crontab s mi h da mo wd :
  written crontab s mi h da mo wd -> Forall field_ok [s; mi; h; da; mo; wd] ->
  if schedulable s mi h da mo wd
  then exists m, newTimeMatcher crontab = inr m
       /\ forall d, time_matches m d = true <-> on_schedule s mi h da mo wd d
  else exists e, newTimeMatcher crontab = inl e.
Proof.
  intros Hw Hok. pose proof (validateCrontab_written _ _ _ _ _ _ _ Hw Hok) as Hv.
  unfold newTimeMatcher. destruct (schedulable s mi h da mo wd) eqn:E;
    [|by destruct Hv as [e ->]; eexists].
  rewrite Hv, (convertExpression_written _ _ _ _ _ _ _ Hw Hok).
  pose proof (schedule_values_naturals _ _ _ _ _ _ Hok) as Hnat.
  eexists. split; [done|]. intros d. rewrite split_fields by done.
  unfold schedulable in E. rewrite <- admissible_sundays, !andb_true_iff in E.
  destruct E as [[[[[? ?] ?] ?] ?] ?].
  unfold on_schedule. rewrite <- fold_sundays_elem.
  apply (matches_written (schedule_values s mi h da mo wd) d).
  unfold schedule_values in *. rewrite !Forall_cons in *.
  split_and!; try tauto; try (by eapply admissible_nonempty). by constructor.
Qed.

Lemma cron_semantics_witness :
  exists m, newTimeMatcher "*/15 9-17 * January,6 MON-FRI" = inr m
  /\ time_matches m (DateFieldsOf 0 45 9 1 6 5) = true
  /\ time_matches m (DateFieldsOf 0 45 9 1 6 6) = false.
Proof.
  pose proof (cron_semantics "*/15 9-17 * January,6 MON-FRI"
    (CronField [One 0] None) (CronField [Star] (Some 15)) (CronField [Between 9 17] None)
    (CronField [Star] None) (CronField [One 1; One 6] None) (CronField [Between 1 5] None)) as H.
  destruct H as (m & Hm & Hd).
  - unfold written. vm_compute. repeat split.
  - repeat constructor; simpl; try done; lia.
  - exists m. split; [exact Hm|]. split.
    + apply Hd. unfold on_schedule. repeat split; apply mem_spec; vm_compute; reflexivity.
    + apply not_true_is_false. intros Hc. apply Hd in Hc as (_ & _ & _ & _ & _ & Hc).
      apply mem_spec in Hc. vm_compute in Hc. discriminate Hc.
Defined.

(** ** The next wakeup *)

Lemma wakeup_loop_spec matches iters msec :
  let r := wakeup_loop matches iters msec in
  (exists k, (1 <= k <= Z.of_nat iters /\ r = msec + 1000 * k)%Z /\ matches r = true
             /\ forall j, (1 <= j < k)%Z -> matches (msec + 1000 * j)%Z = false)
  \/ r = (msec + 1000 * Z.of_nat iters)%Z
     /\ forall j, (1 <= j <= Z.of_nat iters)%Z -> matches (msec + 1000 * j)%Z = false.
Proof.
  revert msec. induction iters as [|n IH]; intros msec; cbv zeta.
  - right. split; [cbn [wakeup_loop]; lia | lia].
  - cbn [wakeup_loop]. cbv zeta. destruct (matches (msec + 1000)%Z) eqn:E.
    + left. exists 1%Z. split; [lia|]. split; [done|]. lia.
    + assert (forall j, (2 <= j)%Z -> (msec + 1000 * j = msec + 1000 + 1000 * (j - 1))%Z) as Hj
        by lia.
      assert (matches (msec + 1000 * 1)%Z = false) as H1 by (by rewrite Z.mul_1_r).
      destruct (IH (msec + 1000)%Z) as [(k & Hk & Hm & Hb) | [Hr Hb]]; [left | right].
      * exists (k + 1)%Z. split; [lia|]. split; [done|]. intros j Hlt.
        destruct (decide (j = 1%Z)) as [->|]; [done|]. rewrite Hj by lia. apply Hb. lia.
      * split; [lia|]. intros j Hlt.
        destruct (decide (j = 1%Z)) as [->|]; [done|]. rewrite Hj by lia. apply Hb. lia.
Qed.

(** The next wakeup is the first matching second after the given time, when there is one
    within 3599 seconds; otherwise the loop ends 3599 seconds later, at a time that need not
    match. *)
Theorem nextWakeupTime_first matches time :
  let r := nextWakeupTime matches time in
  (exists k, (1 <= k <= 3599 /\ r = time + 1000 * k)%Z /\ matches r = true
             /\ forall j, (1 <= j < k)%Z -> matches (time + 1000 * j)%Z = false)
  \/ r = (time + 3599000)%Z
     /\ forall j, (1 <= j <= 3599)%Z -> matches (time + 1000 * j)%Z = false.
Proof. exact (wakeup_loop_spec matches 3599 time). Qed.
