(* ===== verification/Schema.v ===== *)
(** The system database: the tables of src/schemas/system_db_schema.ts with the
    keys, defaults, foreign keys and the unique index that
    src/src/sysdb_migrations/internal/migrations.ts declares, and the SQL
    statements on them that can fail.  A table is a finite map from its primary
    key; a nullable column is an [option]. *)

From S2P Require Export Prelude Errors.


(** * Values *)

(** JSON values as the JSONB columns and JSON text hold them (integers only). *)
Inductive json : Type :=
| JNull
| JBool (b : bool)
| JNum (n : Z)
| JStr (s : string)
| JArr (xs : list json)
| JObj (kvs : list (string * json)).

(** [StatusString] of workflow.ts *)
Inductive StatusString : Type :=
| PENDING
| SUCCESS
| ERROR
| MAX_RECOVERY_ATTEMPTS_EXCEEDED
| CANCELLED
| ENQUEUED
| DELAYED.

#[export] Instance StatusString_eq_dec : EqDecision StatusString.
Proof. solve_decision. Defined.

Definition status_string (s : StatusString) : string :=
  match s with
  | PENDING => "PENDING"
  | SUCCESS => "SUCCESS"
  | ERROR => "ERROR"
  | MAX_RECOVERY_ATTEMPTS_EXCEEDED => "MAX_RECOVERY_ATTEMPTS_EXCEEDED"
  | CANCELLED => "CANCELLED"
  | ENQUEUED => "ENQUEUED"
  | DELAYED => "DELAYED"
  end.

(** [isWorkflowActive] *)
Definition isWorkflowActive (s : StatusString) : bool :=
  bool_decide (s = PENDING) || bool_decide (s = ENQUEUED) || bool_decide (s = DELAYED).

(** * Rows *)

(** [workflow_status], less its key [workflow_uuid]: column [c] is [ws_c]. *)
Record wf_row : Type := WfRow {
  ws_status : StatusString;
  ws_name : string;
  ws_class_name : option string;
  ws_config_name : option string;
  ws_authenticated_user : string;
  ws_assumed_role : string;
  ws_authenticated_roles : list string;
  ws_request : json;
  ws_output : option string;
  ws_error : option string;
  ws_executor_id : option string;
  ws_created_at : Z;
  ws_updated_at : Z;
  ws_application_version : option string;
  ws_application_id : string;
  ws_recovery_attempts : Z;
  ws_queue_name : option string;
  ws_workflow_timeout_ms : option Z;
  ws_workflow_deadline_epoch_ms : option Z;
  ws_inputs : option string;
  ws_started_at_epoch_ms : option Z;
  ws_deduplication_id : option string;
  ws_priority : Z;
  ws_queue_partition_key : option string;
  ws_forked_from : option string;
  ws_was_forked_from : bool;
  ws_owner_xid : option string;
  ws_parent_workflow_id : option string;
  ws_serialization : option string;
  ws_delay_until_epoch_ms : option Z;
  ws_rate_limited : bool;
  ws_completed_at : option Z;
  ws_attributes : option json;
  ws_schedule_name : option string;
  ws_debounce_deadline_epoch_ms : option Z;
  ws_is_debounced : bool
}.

#[export] Instance wf_row_eta : Eta wf_row := fun r =>
  WfRow (ws_status r) (ws_name r) (ws_class_name r) (ws_config_name r)
    (ws_authenticated_user r) (ws_assumed_role r) (ws_authenticated_roles r)
    (ws_request r) (ws_output r) (ws_error r) (ws_executor_id r) (ws_created_at r)
    (ws_updated_at r) (ws_application_version r) (ws_application_id r)
    (ws_recovery_attempts r) (ws_queue_name r) (ws_workflow_timeout_ms r)
    (ws_workflow_deadline_epoch_ms r) (ws_inputs r) (ws_started_at_epoch_ms r)
    (ws_deduplication_id r) (ws_priority r) (ws_queue_partition_key r)
    (ws_forked_from r) (ws_was_forked_from r) (ws_owner_xid r)
    (ws_parent_workflow_id r) (ws_serialization r) (ws_delay_until_epoch_ms r)
    (ws_rate_limited r) (ws_completed_at r) (ws_attributes r) (ws_schedule_name r)
    (ws_debounce_deadline_epoch_ms r) (ws_is_debounced r).

(** [operation_outputs], keyed by [(workflow_uuid, function_id)] *)
Record op_row : Type := OpRow {
  oo_output : option string;
  oo_error : option string;
  oo_function_name : string;
  oo_child_workflow_id : option string;
  oo_started_at_epoch_ms : option Z;
  oo_completed_at_epoch_ms : option Z;
  oo_serialization : option string
}.

#[export] Instance op_row_eta : Eta op_row := fun r =>
  OpRow (oo_output r) (oo_error r) (oo_function_name r) (oo_child_workflow_id r)
    (oo_started_at_epoch_ms r) (oo_completed_at_epoch_ms r) (oo_serialization r).

(** [notifications], keyed by [message_uuid] *)
Record notif_row : Type := NotifRow {
  nt_destination_uuid : string;
  nt_topic : string;
  nt_message : option string;
  nt_created_at_epoch_ms : Z;
  nt_consumed : bool;
  nt_serialization : option string
}.

#[export] Instance notif_row_eta : Eta notif_row := fun r =>
  NotifRow (nt_destination_uuid r) (nt_topic r) (nt_message r)
    (nt_created_at_epoch_ms r) (nt_consumed r) (nt_serialization r).

(** The payload of [workflow_events] (keyed by [(workflow_uuid, key)]) and of
    [workflow_events_history] (keyed by [(workflow_uuid, function_id, key)]) *)
Record event_row : Type := EventRow {
  ev_value : option string;
  ev_serialization : option string
}.

(** [streams], keyed by [(workflow_uuid, key, offset)] *)
Record stream_row : Type := StreamRow {
  st_value : string;
  st_function_id : Z;
  st_serialization : option string
}.

(** [event_dispatch_kv], keyed by [(service_name, workflow_fn_name, key)] *)
Record kv_row : Type := KvRow {
  kv_value : option string;
  kv_update_time : option Z;
  kv_update_seq : option Z
}.

(** [workflow_schedules], keyed by its unique [schedule_name] *)
Record sched_row : Type := SchedRow {
  sc_schedule_id : string;
  sc_workflow_name : string;
  sc_workflow_class_name : string;
  sc_schedule : string;
  sc_status : string;
  sc_context : string;
  sc_last_fired_at : option string;
  sc_automatic_backfill : bool;
  sc_cron_timezone : option string;
  sc_queue_name : option string
}.

#[export] Instance sched_row_eta : Eta sched_row := fun r =>
  SchedRow (sc_schedule_id r) (sc_workflow_name r) (sc_workflow_class_name r)
    (sc_schedule r) (sc_status r) (sc_context r) (sc_last_fired_at r)
    (sc_automatic_backfill r) (sc_cron_timezone r) (sc_queue_name r).

(** [application_versions], keyed by its unique [version_name] *)
Record version_row : Type := VersionRow {
  av_version_id : string;
  av_version_timestamp : Z;
  av_created_at : Z
}.

#[export] Instance version_row_eta : Eta version_row := fun r =>
  VersionRow (av_version_id r) (av_version_timestamp r) (av_created_at r).

(** [queues], keyed by its unique [name]; the two DOUBLE PRECISION columns hold
    milliseconds, so that the intervals the code divides by 1000 stay exact. *)
Record queue_row : Type := QueueRow {
  qu_concurrency : option Z;
  qu_worker_concurrency : option Z;
  qu_rate_limit_max : option Z;
  qu_rate_limit_period_ms : option Z;
  qu_priority_enabled : bool;
  qu_partition_queue : bool;
  qu_polling_interval_ms : Z;
  qu_updated_at : Z
}.

#[export] Instance queue_row_eta : Eta queue_row := fun r =>
  QueueRow (qu_concurrency r) (qu_worker_concurrency r) (qu_rate_limit_max r)
    (qu_rate_limit_period_ms r) (qu_priority_enabled r) (qu_partition_queue r)
    (qu_polling_interval_ms r) (qu_updated_at r).

(** The whole system database. *)
Record sysdb : Type := SysDb {
  workflow_status : gmap string wf_row;
  operation_outputs : gmap (string * Z) op_row;
  notifications : gmap string notif_row;
  workflow_events : gmap (string * string) event_row;
  workflow_events_history : gmap (string * Z * string) event_row;
  streams : gmap (string * string * Z) stream_row;
  event_dispatch_kv : gmap (string * string * string) kv_row;
  workflow_schedules : gmap string sched_row;
  application_versions : gmap string version_row;
  queues : gmap string queue_row
}.

#[export] Instance sysdb_eta : Eta sysdb := fun d =>
  SysDb (workflow_status d) (operation_outputs d) (notifications d)
    (workflow_events d) (workflow_events_history d) (streams d)
    (event_dispatch_kv d) (workflow_schedules d) (application_versions d) (queues d).

Definition empty_db : sysdb := SysDb ∅ ∅ ∅ ∅ ∅ ∅ ∅ ∅ ∅ ∅.

Definition DB (A : Type) : Type := M sysdb dbos_error A.

(** * Constraints *)

(** SQLSTATE codes the code distinguishes. *)
Definition unique_violation : dbos_error := DatabaseError "23505".
Definition foreign_key_violation : dbos_error := DatabaseError "23503".

(** The partial unique index [uq_workflow_status_dedup_id] on
    [(queue_name, deduplication_id)]: two rows clash when both columns are
    non-NULL and equal. *)
Definition dedup_clash (a b : wf_row) : bool :=
  match ws_queue_name a, ws_deduplication_id a with
  | Some q, Some d => sql_eqb (ws_queue_name b) q && sql_eqb (ws_deduplication_id b) d
  | _, _ => false
  end.

Definition dedup_uniqueb (t : gmap string wf_row) : bool :=
  let l := map_to_list t in
  forallb (fun x => forallb (fun y =>
    bool_decide (x.1 = y.1) || negb (dedup_clash x.2 y.2)) l) l.

Definition dedup_unique (t : gmap string wf_row) : Prop :=
  forall k1 k2 r1 r2, t !! k1 = Some r1 -> t !! k2 = Some r2 -> k1 <> k2 ->
    dedup_clash r1 r2 = false.

Definition wf_exists (d : sysdb) (id : string) : Prop := is_Some (workflow_status d !! id).

(** The integrity the schema enforces: the unique index, and every foreign key
    to [workflow_status]. *)
Record db_ok (d : sysdb) : Prop := DbOk {
  ok_dedup : dedup_unique (workflow_status d);
  ok_ops : forall id fid r, operation_outputs d !! (id, fid) = Some r -> wf_exists d id;
  ok_notifs : forall m r, notifications d !! m = Some r -> wf_exists d (nt_destination_uuid r);
  ok_events : forall id key r, workflow_events d !! (id, key) = Some r -> wf_exists d id;
  ok_history : forall id fid key r,
    workflow_events_history d !! (id, fid, key) = Some r -> wf_exists d id;
  ok_streams : forall id key off r, streams d !! (id, key, off) = Some r -> wf_exists d id
}.

(** * Statements *)

(** [UPDATE workflow_status SET f WHERE p RETURNING workflow_uuid]; the statement
    fails as a whole when the unique index would be violated. *)
Definition update_workflow_status (p : string -> wf_row -> bool) (f : wf_row -> wf_row)
    : DB (list string) := fun d =>
  let t := workflow_status d in
  let t' := update_where p f t in
  if dedup_uniqueb t'
  then (Ok (select_where p t).*1, d <| workflow_status := t' |>)
  else (Throw unique_violation, d).

(** [INSERT INTO workflow_status] of one row whose key is not there yet. *)
Definition insert_workflow_status (id : string) (r : wf_row) : DB unit := fun d =>
  match workflow_status d !! id with
  | Some _ => (Throw unique_violation, d)
  | None =>
      let t' := <[id := r]> (workflow_status d) in
      if dedup_uniqueb t' then (Ok tt, d <| workflow_status := t' |>)
      else (Throw unique_violation, d)
  end.

(** [DELETE FROM workflow_status WHERE p]: every foreign key is
    [ON DELETE CASCADE]. *)
Definition delete_workflow_status (p : string -> wf_row -> bool) : DB unit := fun d =>
  let dead id := match workflow_status d !! id with
                 | Some r => p id r
                 | None => false
                 end in
  (Ok tt,
   d <| workflow_status ::= delete_where p |>
     <| operation_outputs ::= delete_where (fun k _ => dead k.1) |>
     <| notifications ::= delete_where (fun _ r => dead (nt_destination_uuid r)) |>
     <| workflow_events ::= delete_where (fun k _ => dead k.1) |>
     <| workflow_events_history ::= delete_where (fun k _ => dead k.1.1) |>
     <| streams ::= delete_where (fun k _ => dead k.1.1) |>).

(** The foreign-key check of an insert that references [workflow_status]. *)
Definition require_workflow (id : string) : DB unit := fun d =>
  match workflow_status d !! id with
  | Some _ => (Ok tt, d)
  | None => (Throw foreign_key_violation, d)
  end.

(** * Lemmas *)

Lemma dedup_clash_sym a b : dedup_clash a b = dedup_clash b a.
Proof.
  unfold dedup_clash, sql_eqb.
  destruct (ws_queue_name a), (ws_deduplication_id a), (ws_queue_name b),
    (ws_deduplication_id b); simpl; try done.
  all: repeat case_bool_decide; naive_solver.
Qed.

Lemma dedup_clash_true a b :
  dedup_clash a b = true <->
  exists q k, ws_queue_name a = Some q /\ ws_queue_name b = Some q
    /\ ws_deduplication_id a = Some k /\ ws_deduplication_id b = Some k.
Proof.
  unfold dedup_clash. split.
  - destruct (ws_queue_name a) as [q|], (ws_deduplication_id a) as [k|]; try done.
    intros ?. break_bool. naive_solver.
  - intros (q & k & -> & -> & -> & ->). simpl. by rewrite !bool_decide_true.
Qed.

Lemma dedup_clash_none_l a b : ws_deduplication_id a = None -> dedup_clash a b = false.
Proof. unfold dedup_clash. intros ->. by destruct (ws_queue_name a). Qed.

Lemma dedup_clash_none_r a b : ws_deduplication_id b = None -> dedup_clash a b = false.
Proof. intros ?. rewrite dedup_clash_sym. by apply dedup_clash_none_l. Qed.

Lemma dedup_uniqueb_spec t : dedup_uniqueb t = true <-> dedup_unique t.
Proof.
  unfold dedup_uniqueb, dedup_unique. rewrite forallb_forall. split.
  - intros Hall k1 k2 r1 r2 H1 H2 Hne.
    assert (In (k1, r1) (map_to_list t)) as Hi1
      by by apply list_elem_of_In, elem_of_map_to_list.
    assert (In (k2, r2) (map_to_list t)) as Hi2
      by by apply list_elem_of_In, elem_of_map_to_list.
    specialize (Hall _ Hi1). rewrite forallb_forall in Hall. specialize (Hall _ Hi2).
    apply orb_true_iff in Hall as [Hk | Hc]; break_bool; naive_solver.
  - intros Hu [k1 r1] H1. rewrite forallb_forall. intros [k2 r2] H2.
    apply list_elem_of_In, elem_of_map_to_list in H1, H2. simpl.
    destruct (decide (k1 = k2)) as [->|Hne]; [by rewrite bool_decide_true|].
    rewrite (Hu _ _ _ _ H1 H2 Hne). apply orb_true_r.
Qed.

(** An update that leaves the indexed columns alone or clears the deduplication
    ID cannot violate the index. *)
Definition dedup_safe (f : wf_row -> wf_row) : Prop := forall r,
  ws_deduplication_id (f r) = None
  \/ (ws_queue_name (f r) = ws_queue_name r
      /\ ws_deduplication_id (f r) = ws_deduplication_id r).

Lemma dedup_clash_congr a a' b b' :
  ws_queue_name a' = ws_queue_name a -> ws_deduplication_id a' = ws_deduplication_id a ->
  ws_queue_name b' = ws_queue_name b -> ws_deduplication_id b' = ws_deduplication_id b ->
  dedup_clash a' b' = dedup_clash a b.
Proof. unfold dedup_clash. by intros -> -> -> ->. Qed.

Lemma dedup_unique_update p f t :
  dedup_safe f -> dedup_unique t -> dedup_unique (update_where p f t).
Proof.
  intros Hf Hu k1 k2 r1 r2. rewrite !lookup_update_where.
  intros (a & Ha & Ea)%fmap_Some (b & Hb & Eb)%fmap_Some Hne.
  assert (forall k r, let r' := if p k r then f r else r in
    ws_deduplication_id r' = None
    \/ (ws_queue_name r' = ws_queue_name r
        /\ ws_deduplication_id r' = ws_deduplication_id r)) as Hs.
  { intros k r. simpl. destruct (p k r); [apply Hf | by right]. }
  destruct (Hs k1 a) as [Hn|[Hq1 Hd1]]; [rewrite Ea; by apply dedup_clash_none_l|].
  destruct (Hs k2 b) as [Hn|[Hq2 Hd2]]; [rewrite Eb; by apply dedup_clash_none_r|].
  rewrite (dedup_clash_congr a r1 b r2); subst; eauto.
Qed.

Lemma dedup_unique_insert id r t :
  (forall k r', t !! k = Some r' -> k <> id -> dedup_clash r r' = false) ->
  dedup_unique t -> dedup_unique (<[id := r]> t).
Proof.
  intros Hr Hu k1 k2 r1 r2 H1 H2 Hne.
  destruct (decide (k1 = id)) as [->|]; destruct (decide (k2 = id)) as [->|];
    simplify_map_eq; eauto.
  rewrite dedup_clash_sym. eauto.
Qed.

Lemma dedup_unique_subseteq t t' : t' ⊆ t -> dedup_unique t -> dedup_unique t'.
Proof.
  intros Hsub Hu k1 k2 r1 r2 H1 H2. eapply Hu; by eapply lookup_weaken.
Qed.

Lemma empty_db_ok : db_ok empty_db.
Proof. split; intros; simplify_map_eq. by intros ?. Qed.

(** An update that is safe for the index succeeds. *)
Lemma update_workflow_status_ok p f d :
  dedup_unique (workflow_status d) -> dedup_safe f ->
  update_workflow_status p f d
  = (Ok (select_where p (workflow_status d)).*1,
     d <| workflow_status ::= update_where p f |>).
Proof.
  intros Hu Hf. unfold update_workflow_status.
  rewrite (proj2 (dedup_uniqueb_spec _)); [done|]. by apply dedup_unique_update.
Qed.

(** [db_ok] only asks of the workflow table which keys it has and that the index
    holds. *)
Lemma db_ok_update_wf p f d :
  dedup_unique (update_where p f (workflow_status d)) -> db_ok d ->
  db_ok (d <| workflow_status ::= update_where p f |>).
Proof.
  intros Hu [? Ho Hn He Hh Hs].
  assert (forall id, wf_exists d id ->
            wf_exists (d <| workflow_status ::= update_where p f |>) id) as Hw.
  { intros id. unfold wf_exists. simpl. rewrite lookup_update_where.
    by rewrite fmap_is_Some. }
  split; simpl; eauto.
Qed.

Lemma preserves_update_workflow_status p f :
  preserves db_ok (update_workflow_status p f).
Proof.
  intros d Hd. unfold update_workflow_status.
  destruct (dedup_uniqueb _) eqn:E; [|done]. simpl.
  apply (db_ok_update_wf p f); [by apply dedup_uniqueb_spec | done].
Qed.

Lemma preserves_insert_workflow_status id r :
  preserves db_ok (insert_workflow_status id r).
Proof.
  intros d Hd. unfold insert_workflow_status.
  destruct (workflow_status d !! id) eqn:El; [done|].
  destruct (dedup_uniqueb _) eqn:E; [|done]. simpl.
  destruct Hd as [? Ho Hn He Hh Hs].
  assert (forall x, wf_exists d x ->
            wf_exists (d <| workflow_status := <[id:=r]> (workflow_status d) |>) x) as Hw.
  { intros x [y Hy]. unfold wf_exists. simpl.
    destruct (decide (id = x)) as [->|]; simplify_map_eq; eauto. }
  split; simpl; eauto. by apply dedup_uniqueb_spec.
Qed.

Lemma preserves_require_workflow P id : preserves P (require_workflow id).
Proof. intros d Hd. unfold require_workflow. by destruct (workflow_status d !! id). Qed.

Lemma delete_where_subseteq {K A} `{Countable K} (p : K -> A -> bool) (t : gmap K A) :
  delete_where p t ⊆ t.
Proof. apply map_filter_subseteq. Qed.

(** A row of a child table survives a cascade exactly when its workflow does. *)
Lemma delete_where_child {K A} `{Countable K} (t : gmap K A) (p : K -> A -> bool) k r :
  delete_where p t !! k = Some r -> t !! k = Some r /\ p k r = false.
Proof.
  rewrite lookup_delete_where. destruct (t !! k) as [x|]; [|done].
  destruct (p k x) eqn:E; naive_solver.
Qed.

Lemma preserves_delete_workflow_status p : preserves db_ok (delete_workflow_status p).
Proof.
  intros d [Hu Ho Hn He Hh Hs]. unfold delete_workflow_status. simpl.
  assert (forall id, wf_exists d id ->
    match workflow_status d !! id with Some r => p id r | None => false end = false ->
    is_Some (delete_where p (workflow_status d) !! id)) as Hw.
  { intros id [r Hr]. rewrite lookup_delete_where, Hr. intros ->. eauto. }
  split; simpl.
  - eapply dedup_unique_subseteq; [apply delete_where_subseteq | done].
  - intros id fid r [? ?]%delete_where_child. apply Hw; eauto.
  - intros m r [? ?]%delete_where_child. apply Hw; eauto.
  - intros id key r [? ?]%delete_where_child. apply Hw; eauto.
  - intros id fid key r [? ?]%delete_where_child. apply Hw; eauto.
  - intros id key off r [? ?]%delete_where_child. apply Hw; eauto.
Qed.

#[export] Hint Resolve preserves_update_workflow_status preserves_insert_workflow_status
  preserves_require_workflow preserves_delete_workflow_status : preserves.

(** The tables of [db_ok] are independent: writing a child row that references an
    existing workflow keeps it. *)
Ltac solve_child_insert :=
  let H1 := fresh in let H2 := fresh in
  intros [? ? ? ? ? ?] H1; split; simpl; eauto; intros; simpl in *;
  match goal with
  | H : <[?k := _]> _ !! ?k' = Some _ |- _ =>
      destruct (decide (k = k')); simplify_map_eq; eauto
  end.

Lemma db_ok_insert_op d id fid r :
  db_ok d -> wf_exists d id -> db_ok (d <| operation_outputs ::= <[(id, fid) := r]> |>).
Proof. solve_child_insert. Qed.

Lemma db_ok_insert_notif d m r :
  db_ok d -> wf_exists d (nt_destination_uuid r) ->
  db_ok (d <| notifications ::= <[m := r]> |>).
Proof. solve_child_insert. Qed.

Lemma db_ok_insert_event d id key r :
  db_ok d -> wf_exists d id -> db_ok (d <| workflow_events ::= <[(id, key) := r]> |>).
Proof. solve_child_insert. Qed.

Lemma db_ok_insert_history d id fid key r :
  db_ok d -> wf_exists d id ->
  db_ok (d <| workflow_events_history ::= <[(id, fid, key) := r]> |>).
Proof. solve_child_insert. Qed.

Lemma db_ok_insert_stream d id key off r :
  db_ok d -> wf_exists d id -> db_ok (d <| streams ::= <[(id, key, off) := r]> |>).
Proof. solve_child_insert. Qed.

(** The tables without foreign keys are free. *)
Lemma db_ok_free d kv sc av qu :
  db_ok d -> db_ok (d <| event_dispatch_kv := kv |> <| workflow_schedules := sc |>
                      <| application_versions := av |> <| queues := qu |>).
Proof. intros [? ? ? ? ? ?]; split; eauto. Qed.

(** Inserting a fresh key: the statement fails exactly when a stored row holds
    the same [(queue_name, deduplication_id)]. *)
Lemma insert_workflow_status_fresh id r d :
  dedup_unique (workflow_status d) -> workflow_status d !! id = None ->
  (forall k r', workflow_status d !! k = Some r' -> dedup_clash r r' = false) ->
  insert_workflow_status id r d = (Ok tt, d <| workflow_status ::= <[id := r]> |>).
Proof.
  intros Hu Hn Hc. unfold insert_workflow_status. rewrite Hn.
  rewrite (proj2 (dedup_uniqueb_spec _)); [done|].
  apply dedup_unique_insert; eauto.
Qed.

Lemma insert_workflow_status_clash id r d k r' :
  workflow_status d !! id = None -> workflow_status d !! k = Some r' ->
  dedup_clash r r' = true -> insert_workflow_status id r d = (Throw unique_violation, d).
Proof.
  intros Hn Hk Hc. unfold insert_workflow_status. rewrite Hn.
  destruct (dedup_uniqueb _) eqn:E; [|done]. apply dedup_uniqueb_spec in E.
  assert (id <> k) by naive_solver.
  rewrite (E id k r r') in Hc; [done| | |done]; by simplify_map_eq.
Qed.

Lemma insert_workflow_status_err id r d e d' :
  insert_workflow_status id r d = (Throw e, d') -> e = unique_violation /\ d' = d.
Proof. unfold insert_workflow_status. repeat case_match; naive_solver. Qed.
