(* ===== verification/Json.v ===== *)
(** [JSON.stringify] and [JSON.parse] as the serializers use them: the text of a JSON value,
    the parser that reads it back, and their round trip.  Numbers are integers, and the
    characters of a string are bytes. *)

From Stdlib Require Import Ascii.
From S2P Require Export Decimal Schema.

(** * Printing *)

Definition dquote : ascii := "034"%char.
Definition backslash : ascii := "\"%char.

Definition char_code (c : ascii) : nat := nat_of_ascii c.

Definition hex_digit (n : nat) : ascii :=
  ascii_of_nat (if (n <? 10)%nat then 48 + n else 87 + n).

(** The escape of one character: the two-character escapes, and [\u00xx] for the other
    control characters *)
Definition escape_char (c : ascii) : string :=
  let short (e : ascii) := String backslash (String e "") in
  let n := char_code c in
  if ascii_dec c dquote then short dquote
  else if ascii_dec c backslash then short backslash
  else if (n =? 8)%nat then short "b"%char
  else if (n =? 9)%nat then short "t"%char
  else if (n =? 10)%nat then short "n"%char
  else if (n =? 12)%nat then short "f"%char
  else if (n =? 13)%nat then short "r"%char
  else if (n <? 32)%nat
       then String backslash (String "u" (String "0" (String "0"
              (String (hex_digit (n / 16)) (String (hex_digit (n mod 16)) "")))))
  else String c "".

Fixpoint escape (s : string) : string :=
  match s with
  | "" => ""
  | String c s' => escape_char c +:+ escape s'
  end.

(** Where a string of the text ends *)
Definition quoted (s rest : string) : string :=
  String dquote (escape s +:+ String dquote rest).

Fixpoint join (sep : string) (l : list string) : string :=
  match l with
  | [] => ""
  | [x] => x
  | x :: l' => x +:+ sep +:+ join sep l'
  end.

(** [JSON.stringify] of a JSON value *)
Fixpoint print (j : json) : string :=
  match j with
  | JNull => "null"
  | JBool true => "true"
  | JBool false => "false"
  | JNum n => stringify_Z n
  | JStr s => quoted s ""
  | JArr xs => "[" +:+ join "," (map print xs) +:+ "]"
  | JObj kvs => "{" +:+ join "," (map (fun kv => quoted kv.1 (":" +:+ print kv.2)) kvs) +:+ "}"
  end.

(** * Parsing *)

Definition is_space (c : ascii) : bool :=
  let n := char_code c in (n =? 32)%nat || (n =? 9)%nat || (n =? 10)%nat || (n =? 13)%nat.

Fixpoint skip_space (s : string) : string :=
  match s with
  | String c s' => if is_space c then skip_space s' else s
  | "" => ""
  end.

Fixpoint strip_prefix (p s : string) : option string :=
  match p, s with
  | "", _ => Some s
  | String a p', String b s' => if ascii_dec a b then strip_prefix p' s' else None
  | String _ _, "" => None
  end.

Definition hex_value (c : ascii) : option nat :=
  let n := char_code c in
  if ((48 <=? n) && (n <=? 57))%nat then Some (n - 48)%nat
  else if ((97 <=? n) && (n <=? 102))%nat then Some (n - 87)%nat
  else if ((65 <=? n) && (n <=? 70))%nat then Some (n - 55)%nat
  else None.

(** The character of a four-digit escape, when it is a byte *)
Definition unicode_char (a b c d : ascii) : option ascii :=
  match hex_value a, hex_value b, hex_value c, hex_value d with
  | Some 0%nat, Some 0%nat, Some x, Some y => Some (ascii_of_nat (16 * x + y))
  | _, _, _, _ => None
  end.

Definition unescape (c : ascii) : option ascii :=
  if ascii_dec c dquote then Some dquote
  else if ascii_dec c backslash then Some backslash
  else if ascii_dec c "/"%char then Some "/"%char
  else if ascii_dec c "b"%char then Some (ascii_of_nat 8)
  else if ascii_dec c "t"%char then Some (ascii_of_nat 9)
  else if ascii_dec c "n"%char then Some (ascii_of_nat 10)
  else if ascii_dec c "f"%char then Some (ascii_of_nat 12)
  else if ascii_dec c "r"%char then Some (ascii_of_nat 13)
  else None.

Definition cons_char (c : ascii) (o : option (string * string)) : option (string * string) :=
  (fun sr => (String c sr.1, sr.2)) <$> o.

(** The rest of a string, after its opening quote *)
Fixpoint parse_chars (s : string) : option (string * string) :=
  match s with
  | "" => None
  | String c r =>
      if ascii_dec c dquote then Some ("", r)
      else if ascii_dec c backslash then
        match r with
        | String "u" (String x (String y (String z (String w r')))) =>
            match unicode_char x y z w with
            | Some k => cons_char k (parse_chars r')
            | None => None
            end
        | String e r' =>
            match unescape e with
            | Some k => cons_char k (parse_chars r')
            | None => None
            end
        | "" => None
        end
      else if (char_code c <? 32)%nat then None
      else cons_char c (parse_chars r)
  end.

Definition is_digit (c : ascii) : bool :=
  match digit_value c with Some _ => true | None => false end.

(** The longest prefix of digits *)
Fixpoint span_digits (s : string) : string * string :=
  match s with
  | String c r => if is_digit c then let (d, r') := span_digits r in (String c d, r') else ("", s)
  | "" => ("", "")
  end.

(** Leading zeros are not JSON, and fractions and exponents are out of the model. *)
Definition parse_number (s : string) : option (json * string) :=
  let (sign, s) := match s with String "-" r => ("-", r) | _ => ("", s) end in
  let (d, r) := span_digits s in
  match d with
  | String "0" (String _ _) => None
  | _ => (fun n => (JNum n, r)) <$> parse_Z (sign +:+ d)
  end.

(** Adding a member to an object: the last value of a key wins. *)
Fixpoint put_member (k : string) (v : json) (kvs : list (string * json)) : list (string * json) :=
  match kvs with
  | [] => [(k, v)]
  | (k', v') :: rest => if String.eqb k' k then (k, v) :: rest else (k', v') :: put_member k v rest
  end.

(** The recursive-descent parser; [fuel] bounds its depth. *)
Fixpoint parse_value (fuel : nat) (s : string) : option (json * string) :=
  match fuel with
  | O => None
  | S fuel' =>
      let s := skip_space s in
      match s with
      | String "n" _ => (fun r => (JNull, r)) <$> strip_prefix "null" s
      | String "t" _ => (fun r => (JBool true, r)) <$> strip_prefix "true" s
      | String "f" _ => (fun r => (JBool false, r)) <$> strip_prefix "false" s
      | String "[" r =>
          match skip_space r with
          | String "]" r' => Some (JArr [], r')
          | _ => (fun xr => (JArr xr.1, xr.2)) <$> parse_elements fuel' r
          end
      | String "{" r =>
          match skip_space r with
          | String "}" r' => Some (JObj [], r')
          | _ => (fun xr => (JObj xr.1, xr.2)) <$> parse_members fuel' [] r
          end
      | String c r =>
          if ascii_dec c dquote then (fun sr => (JStr sr.1, sr.2)) <$> parse_chars r
          else parse_number s
      | "" => None
      end
  end
with parse_elements (fuel : nat) (s : string) : option (list json * string) :=
  match fuel with
  | O => None
  | S fuel' =>
      match parse_value fuel' s with
      | None => None
      | Some (x, r) =>
          match skip_space r with
          | String "," r' => (fun xr => (x :: xr.1, xr.2)) <$> parse_elements fuel' r'
          | String "]" r' => Some ([x], r')
          | _ => None
          end
      end
  end
with parse_members (fuel : nat) (acc : list (string * json)) (s : string)
    : option (list (string * json) * string) :=
  match fuel with
  | O => None
  | S fuel' =>
      match skip_space s with
      | String c r =>
          if ascii_dec c dquote then
            match parse_chars r with
            | None => None
            | Some (k, r) =>
                match skip_space r with
                | String ":" r =>
                    match parse_value fuel' r with
                    | None => None
                    | Some (v, r) =>
                        let acc := put_member k v acc in
                        match skip_space r with
                        | String "," r' => parse_members fuel' acc r'
                        | String "}" r' => Some (acc, r')
                        | _ => None
                        end
                    end
                | _ => None
                end
            end
          else None
      | "" => None
      end
  end.

(** [JSON.parse]; [None] is a [SyntaxError]. *)
Definition parse_json (s : string) : option json :=
  match parse_value (2 * String.length s + 2) s with
  | Some (j, r) => match skip_space r with "" => Some j | _ => None end
  | None => None
  end.

(** * Well-formed values *)

(** No object has a key twice. *)
Fixpoint json_ok (j : json) : bool :=
  match j with
  | JArr xs => forallb json_ok xs
  | JObj kvs => bool_decide (NoDup kvs.*1) && forallb (fun kv => json_ok kv.2) kvs
  | _ => true
  end.

(** The induction principle with the elements of arrays and objects *)
Lemma json_induction (P : json -> Prop) :
  P JNull -> (forall b, P (JBool b)) -> (forall n, P (JNum n)) -> (forall s, P (JStr s)) ->
  (forall xs, Forall P xs -> P (JArr xs)) ->
  (forall kvs, Forall (fun kv => P kv.2) kvs -> P (JObj kvs)) ->
  forall j, P j.
Proof.
  intros Hn Hb Hz Hs Ha Ho. fix IH 1.
  intros [|b|n|s|xs|kvs]; [exact Hn|apply Hb|apply Hz|apply Hs|apply Ha|apply Ho].
  - induction xs as [|x xs IHx]; constructor; [apply IH|exact IHx].
  - induction kvs as [|[k v] kvs IHx]; constructor; [apply IH|exact IHx].
Qed.

(** * Lemmas: strings *)

Lemma parse_escape_char c t :
  parse_chars (escape_char c +:+ t) = cons_char c (parse_chars t).
Proof. destruct c as [[] [] [] [] [] [] [] []]; reflexivity. Qed.

Lemma parse_quoted s rest : parse_chars (escape s +:+ String dquote rest) = Some (s, rest).
Proof.
  induction s as [|c s IH]; [done|].
  change (escape (String c s)) with (escape_char c +:+ escape s).
  by rewrite append_assoc_str, parse_escape_char, IH.
Qed.

(** * Lemmas: numbers *)

(** Text that does not continue a number *)
Definition no_digit (rest : string) : Prop :=
  match rest with String c _ => is_digit c = false | "" => True end.

Fixpoint all_digits (s : string) : bool :=
  match s with String c r => is_digit c && all_digits r | "" => true end.

Lemma parsed_digits_all acc s v : parse_digits acc s = Some v -> all_digits s = true.
Proof.
  revert acc. induction s as [|c s IH]; intros acc H; [done|]. simpl in *. unfold is_digit.
  destruct (digit_value c); [|done]. by eapply IH.
Qed.

Lemma span_digits_app d rest :
  all_digits d = true -> no_digit rest -> span_digits (d +:+ rest) = (d, rest).
Proof.
  intros Hd Hr. induction d as [|c d IH].
  - change ("" +:+ rest) with rest. destruct rest as [|c r]; [done|]. simpl in *. by rewrite Hr.
  - simpl in Hd. apply andb_true_iff in Hd as [Hc Hd]. rewrite append_cons. simpl.
    by rewrite Hc, (IH Hd).
Qed.

Lemma pretty_N_go_first x s : (0 < x)%N -> exists c t, pretty.pretty_N_go x s = String c t /\ c <> "0"%char.
Proof.
  revert s. induction (N.lt_wf_0 x) as [x _ IH]; intros s Hx.
  rewrite pretty.pretty_N_go_step by done. destruct (decide (x < 10)%N) as [Hs|Hl].
  - rewrite (N.div_small x 10) by done. rewrite pretty.pretty_N_go_0.
    rewrite N.mod_small by done. eexists _, _. split; [done|].
    assert (x = 1 \/ x = 2 \/ x = 3 \/ x = 4 \/ x = 5 \/ x = 6 \/ x = 7 \/ x = 8 \/ x = 9)%N as H by lia.
    repeat destruct H as [->|H]; subst; done.
  - apply IH; [by apply N.div_lt; lia|]. apply N.div_str_pos. lia.
Qed.

(** Digits that [parse_number] takes for a number *)
Definition canonical (d : string) : Prop := all_digits d = true /\
  exists c t, d = String c t /\ (c <> "0"%char \/ t = "").

Lemma pretty_canonical (n : N) : canonical (pretty.pretty n).
Proof.
  split; [by eapply parsed_digits_all, parse_digits_pretty|].
  unfold pretty.pretty, pretty.pretty_N. case_decide as E; [by exists "0"%char, ""; auto|].
  destruct (pretty_N_go_first n "") as (c & t & -> & Hc); [lia|]. exists c, t. auto.
Qed.

Lemma parse_number_canonical sign d rest :
  sign = "-" \/ sign = "" -> canonical d -> no_digit rest ->
  parse_number (sign +:+ d +:+ rest) = (fun n => (JNum n, rest)) <$> parse_Z (sign +:+ d).
Proof.
  intros Hs (Hd & c & t & E & Hc) Hr.
  assert (is_digit c = true) as Hcd by (subst; simpl in Hd; by apply andb_true_iff in Hd as [-> _]).
  unfold parse_number.
  assert (match sign +:+ d +:+ rest with String "-" r => ("-", r) | _ => ("", sign +:+ d +:+ rest) end
          = (sign, d +:+ rest)) as ->.
  { destruct Hs as [->| ->]; [done|]. change ("" +:+ d +:+ rest) with (d +:+ rest). rewrite E.
    destruct c as [[] [] [] [] [] [] [] []]; try discriminate Hcd; done. }
  rewrite span_digits_app by done. rewrite E at 1. destruct Hc as [Hc| ->].
  - destruct c as [[] [] [] [] [] [] [] []]; try done; by destruct t.
  - by destruct c as [[] [] [] [] [] [] [] []].
Qed.

(** A printed number is a sign and canonical digits. *)
Lemma stringify_Z_shape n : exists sign d, stringify_Z n = sign +:+ d
  /\ (sign = "-" \/ sign = "") /\ canonical d.
Proof.
  destruct n as [|p|p].
  - exists "", "0". split; [done|]. split; [by right|]. by apply (pretty_canonical 0).
  - exists "", (pretty.pretty (N.pos p)). split; [done|]. split; [by right|]. apply pretty_canonical.
  - exists "-", (pretty.pretty (N.pos p)). split; [done|]. split; [by left|]. apply pretty_canonical.
Qed.

Lemma parse_number_print n rest :
  no_digit rest -> parse_number (stringify_Z n +:+ rest) = Some (JNum n, rest).
Proof.
  intros Hr. destruct (stringify_Z_shape n) as (sign & d & E & Hs & Hd). pose proof (parse_stringify_Z n) as Hp.
  rewrite E in *. rewrite append_assoc_str, parse_number_canonical by done. by rewrite Hp.
Qed.

(** * Lemmas: the first character *)

(** What a value begins with *)
Definition starts_value (c : ascii) : bool :=
  negb (is_space c) && negb (bool_decide (c = "]"%char)) && negb (bool_decide (c = "}"%char)).

Lemma print_first j : exists c t, print j = String c t /\ starts_value c = true.
Proof.
  destruct j as [|[]|n|s|xs|kvs]; try by eexists _, _.
  destruct (stringify_Z_shape n) as (sign & d & E & Hs & Hd & c & t & -> & _). simpl print. rewrite E.
  destruct Hs as [->| ->]; [by eexists _, _|]. exists c, t. split; [done|].
  simpl in Hd. apply andb_true_iff in Hd as [Hc _].
  by destruct c as [[] [] [] [] [] [] [] []].
Qed.

Lemma skip_space_start c t : starts_value c = true -> skip_space (String c t) = String c t.
Proof. unfold starts_value. simpl. by destruct (is_space c). Qed.

Lemma skip_space_print j rest : skip_space (print j +:+ rest) = print j +:+ rest.
Proof.
  destruct (print_first j) as (c & t & -> & Hc). rewrite append_cons. by apply skip_space_start.
Qed.

(** ** One step of the parser *)

Lemma parse_value_number fuel n rest :
  no_digit rest -> parse_value (S fuel) (stringify_Z n +:+ rest) = Some (JNum n, rest).
Proof.
  intros Hr. pose proof (skip_space_print (JNum n) rest) as Hs. simpl print in Hs.
  rewrite <- (parse_number_print n rest Hr). cbn [parse_value]. rewrite Hs.
  destruct (stringify_Z_shape n) as (sign & d & E & Hsg & Hd & c & t & -> & _). rewrite E.
  destruct Hsg as [->| ->]; [done|].
  change (("" +:+ String c t) +:+ rest) with (String c (t +:+ rest)).
  simpl in Hd. apply andb_true_iff in Hd as [Hc _].
  destruct c as [[] [] [] [] [] [] [] []]; (discriminate Hc || reflexivity).
Qed.

Lemma parse_value_string fuel s rest :
  parse_value (S fuel) (quoted s rest) = Some (JStr s, rest).
Proof.
  change (parse_value (S fuel) (quoted s rest))
    with ((fun sr => (JStr sr.1, sr.2)) <$> parse_chars (escape s +:+ String dquote rest)).
  by rewrite parse_quoted.
Qed.

Lemma parse_value_array fuel c t :
  starts_value c = true ->
  parse_value (S fuel) (String "[" (String c t))
  = (fun xr => (JArr xr.1, xr.2)) <$> parse_elements fuel (String c t).
Proof.
  intros Hc. cbn [parse_value]. change (skip_space (String "[" (String c t))) with (String "[" (String c t)).
  cbv beta iota. rewrite skip_space_start by done.
  destruct c as [[] [] [] [] [] [] [] []]; (discriminate Hc || reflexivity).
Qed.

Lemma parse_value_object fuel t :
  parse_value (S fuel) (String "{" (String dquote t))
  = (fun xr => (JObj xr.1, xr.2)) <$> parse_members fuel [] (String dquote t).
Proof. reflexivity. Qed.

Lemma parse_members_step fuel acc k t :
  parse_members (S fuel) acc (quoted k (String ":" t))
  = match parse_value fuel t with
    | None => None
    | Some (v, r) =>
        let acc := put_member k v acc in
        match skip_space r with
        | String "," r' => parse_members fuel acc r'
        | String "}" r' => Some (acc, r')
        | _ => None
        end
    end.
Proof.
  change (parse_members (S fuel) acc (quoted k (String ":" t)))
    with (match parse_chars (escape k +:+ String dquote (String ":" t)) with
          | None => None
          | Some (k, r) =>
              match skip_space r with
              | String ":" r =>
                  match parse_value fuel r with
                  | None => None
                  | Some (v, r) =>
                      let acc := put_member k v acc in
                      match skip_space r with
                      | String "," r' => parse_members fuel acc r'
                      | String "}" r' => Some (acc, r')
                      | _ => None
                      end
                  end
              | _ => None
              end
          end).
  by rewrite parse_quoted.
Qed.

Lemma put_member_fresh k v kvs : k ∉ kvs.*1 -> put_member k v kvs = kvs ++ [(k, v)].
Proof.
  induction kvs as [|[k' v'] kvs IH]; intros Hk; [done|]. simpl in *.
  destruct (String.eqb_spec k' k) as [->|Hne]; [set_solver|]. rewrite IH; [done|set_solver].
Qed.

(** * The round trip *)

Definition roundtrips (j : json) : Prop := forall fuel rest,
  json_ok j = true -> (2 * String.length (print j) <= fuel)%nat -> no_digit rest ->
  parse_value fuel (print j +:+ rest) = Some (j, rest).

Lemma print_length j : (1 <= String.length (print j))%nat.
Proof. destruct (print_first j) as (c & t & -> & _). simpl. lia. Qed.

Lemma parse_elements_print xs fuel rest :
  xs <> [] -> Forall roundtrips xs -> forallb json_ok xs = true ->
  (2 * String.length (join "," (map print xs)) + 1 <= fuel)%nat ->
  parse_elements fuel (join "," (map print xs) +:+ String "]" rest) = Some (xs, rest).
Proof.
  intros Hne Hx. revert fuel Hne. induction Hx as [|x xs Hx Hxs IH]; intros fuel Hne Hok Hf; [done|].
  simpl in Hok. apply andb_true_iff in Hok as [Hok1 Hok2].
  destruct fuel as [|fuel]; [lia|]. destruct xs as [|y xs].
  - simpl in Hf |- *. rewrite (Hx fuel) by (done || lia). done.
  - change (join "," (map print (x :: y :: xs)))
      with (print x +:+ "," +:+ join "," (map print (y :: xs))) in *.
    rewrite !length_append_str in Hf. change (String.length ",") with 1%nat in Hf.
    cbn [parse_elements]. rewrite append_assoc_str.
    rewrite (Hx fuel) by (done || lia).
    change (skip_space (("," +:+ join "," (map print (y :: xs))) +:+ String "]" rest))
      with (String "," (join "," (map print (y :: xs)) +:+ String "]" rest)).
    cbv beta iota. rewrite IH; [done|done|done|lia].
Qed.

Definition print_member (kv : string * json) : string := quoted kv.1 (":" +:+ print kv.2).

Lemma quoted_app s rest t : quoted s rest +:+ t = quoted s (rest +:+ t).
Proof.
  unfold quoted. rewrite append_cons. f_equal. by rewrite append_assoc_str.
Qed.

Lemma print_member_app k v t : print_member (k, v) +:+ t = quoted k (String ":" (print v +:+ t)).
Proof. unfold print_member. cbn [fst snd]. by rewrite quoted_app, append_assoc_str. Qed.

Lemma quoted_length s rest :
  String.length (quoted s rest) = (2 + String.length (escape s) + String.length rest)%nat.
Proof. unfold quoted. simpl. rewrite length_append_str. simpl. lia. Qed.

Lemma parse_members_print kvs acc fuel rest :
  kvs <> [] -> Forall (fun kv => roundtrips kv.2) kvs -> forallb (fun kv => json_ok kv.2) kvs = true ->
  NoDup (acc ++ kvs).*1 ->
  (2 * String.length (join "," (map print_member kvs)) + 1 <= fuel)%nat ->
  parse_members fuel acc (join "," (map print_member kvs) +:+ String "}" rest)
  = Some (acc ++ kvs, rest).
Proof.
  intros Hne Hx. revert acc fuel Hne.
  induction Hx as [|[k v] kvs Hx Hxs IH]; intros acc fuel Hne Hok Hn Hf; [done|].
  simpl in Hok, Hx. apply andb_true_iff in Hok as [Hok1 Hok2].
  assert (k ∉ acc.*1) as Hk.
  { rewrite fmap_app in Hn. apply NoDup_app in Hn as (_ & Hd & _). intros Hin.
    apply (Hd _ Hin). simpl. by left. }
  assert (String.length (print_member (k, v))
          = 3 + String.length (escape k) + String.length (print v))%nat as Hl.
  { unfold print_member. rewrite quoted_length, length_append_str. simpl String.length. lia. }
  destruct fuel as [|fuel]; [lia|]. destruct kvs as [|kv2 kvs].
  - cbn [map join] in *. rewrite print_member_app, parse_members_step, (Hx fuel) by (done || lia).
    cbv zeta. by rewrite put_member_fresh.
  - change (join "," (map print_member ((k, v) :: kv2 :: kvs)))
      with (print_member (k, v) +:+ "," +:+ join "," (map print_member (kv2 :: kvs))) in *.
    rewrite !length_append_str in Hf. change (String.length ",") with 1%nat in Hf.
    rewrite append_assoc_str, print_member_app, parse_members_step, (Hx fuel) by (done || lia).
    cbv zeta.
    change (skip_space (("," +:+ join "," (map print_member (kv2 :: kvs))) +:+ String "}" rest))
      with (String "," (join "," (map print_member (kv2 :: kvs)) +:+ String "}" rest)).
    cbv beta iota. rewrite put_member_fresh by done.
    rewrite (IH (acc ++ [(k, v)])); [by rewrite <- app_assoc|done|done|by rewrite <- app_assoc|lia].
Qed.

Lemma join_first xs : xs <> [] -> exists c t, join "," (map print xs) = String c t /\ starts_value c = true.
Proof.
  destruct xs as [|x xs]; [done|]. intros _. destruct (print_first x) as (c & t & E & Hc).
  destruct xs as [|y xs]; [by exists c, t|].
  change (join "," (map print (x :: y :: xs)))
    with (print x +:+ "," +:+ join "," (map print (y :: xs))).
  rewrite E, append_cons. by eexists _, _.
Qed.

Lemma roundtrip j : roundtrips j.
Proof.
  induction j as [|b|n|s|xs Hxs|kvs Hkvs] using json_induction; intros fuel rest Hok Hf Hr;
    (match type of Hf with context [print ?j] => pose proof (print_length j) as Hl end);
    (destruct fuel as [|fuel]; [lia|]); clear Hl.
  - done.
  - by destruct b.
  - by apply parse_value_number.
  - change (print (JStr s) +:+ rest) with (quoted s "" +:+ rest). rewrite quoted_app.
    by rewrite parse_value_string.
  - change (print (JArr xs)) with ("[" +:+ join "," (map print xs) +:+ "]") in *.
    rewrite !length_append_str in Hf. change (String.length "[") with 1%nat in Hf.
    change (String.length "]") with 1%nat in Hf. rewrite !append_assoc_str.
    destruct (decide (xs = [])) as [->|Hne]; [done|].
    destruct (join_first xs Hne) as (c & t & E & Hc).
    pose proof (parse_elements_print xs fuel rest Hne Hxs Hok ltac:(lia)) as H.
    change ("[" +:+ join "," (map print xs) +:+ "]" +:+ rest)
      with (String "[" (join "," (map print xs) +:+ String "]" rest)).
    rewrite E, append_cons in *. by rewrite parse_value_array, H.
  - change (print (JObj kvs)) with ("{" +:+ join "," (map print_member kvs) +:+ "}") in *.
    rewrite !length_append_str in Hf. change (String.length "{") with 1%nat in Hf.
    change (String.length "}") with 1%nat in Hf. rewrite !append_assoc_str.
    simpl in Hok. apply andb_true_iff in Hok as [Hn Hok]. apply bool_decide_eq_true in Hn.
    destruct (decide (kvs = [])) as [->|Hne]; [done|].
    pose proof (parse_members_print kvs [] fuel rest Hne Hkvs Hok Hn ltac:(lia)) as H.
    change ("{" +:+ join "," (map print_member kvs) +:+ "}" +:+ rest)
      with (String "{" (join "," (map print_member kvs) +:+ String "}" rest)).
    assert (exists t, join "," (map print_member kvs) = String dquote t) as [t E].
    { destruct kvs as [|[k v] [|kv2 kvs]]; [done| |]; by eexists. }
    rewrite E, append_cons in *. by rewrite parse_value_object, H.
Qed.

(** [JSON.parse(JSON.stringify(j))] is [j]. *)
Lemma parse_print j : json_ok j = true -> parse_json (print j) = Some j.
Proof.
  intros Hok. unfold parse_json.
  pose proof (roundtrip j (2 * String.length (print j) + 2)%nat "" Hok ltac:(lia) I) as H.
  rewrite append_nil_str in H. by rewrite H.
Qed.

(** * Lemmas: substrings *)

(** [text.includes(p)] *)
Fixpoint includes (p s : string) : bool :=
  match strip_prefix p s with
  | Some _ => true
  | None => match s with String _ s' => includes p s' | "" => false end
  end.

Lemma strip_prefix_app p s : strip_prefix p (p +:+ s) = Some s.
Proof.
  induction p as [|c p IH]; [done|]. rewrite append_cons. simpl. by destruct (ascii_dec c c).
Qed.

Lemma includes_app p s t : includes p (s +:+ p +:+ t) = true.
Proof.
  induction s as [|c s IH].
  - change ("" +:+ p +:+ t) with (p +:+ t). destruct (p +:+ t) as [|c u] eqn:E; simpl;
      by rewrite <- E, strip_prefix_app.
  - rewrite append_cons. simpl. by destruct (strip_prefix p _).
Qed.

Lemma join_split xs x ys sep : exists a b, join sep (xs ++ x :: ys) = a +:+ x +:+ b.
Proof.
  induction xs as [|y xs (a & b & IH)].
  - destruct ys as [|y ys]; [exists "", ""; simpl; by rewrite append_nil_str|].
    by exists "", (sep +:+ join sep (y :: ys)).
  - exists (y +:+ sep +:+ a), b. rewrite !append_assoc_str, <- IH. simpl.
    by destruct (xs ++ x :: ys) eqn:E; [destruct xs|].
Qed.

(** The text of an object contains the text of each member. *)
Lemma includes_member kvs k v :
  (k, v) ∈ kvs -> includes (print_member (k, v)) (print (JObj kvs)) = true.
Proof.
  intros (xs & ys & ->)%list_elem_of_split.
  change (print (JObj (xs ++ (k, v) :: ys)))
    with ("{" +:+ join "," (map print_member (xs ++ (k, v) :: ys)) +:+ "}").
  rewrite map_app. cbn [map]. destruct (join_split (map print_member xs) (print_member (k, v))
    (map print_member ys) ",") as (a & b & ->).
  rewrite append_assoc_str, append_assoc_str, <- append_assoc_str. apply includes_app.
Qed.
