(* ===== verification/Serialization.v ===== *)
(** Serialization of the values that workflows pass around (src/src/serialization.ts): the
    legacy format with its replacer and reviver, the branded SuperJSON format that reads both,
    the portable format, and the choice between them.

    A JavaScript value is a tree [jsval]; functions attached to a deserialized value as stubs
    are not part of it.  The packages superjson and serialize-error, Node's [Buffer] and the
    ISO format of dates are parameters. *)

From Stdlib Require Import Ascii.
From S2P Require Export Json.

(** * Values *)

(** A date is its time in milliseconds, [None] for an invalid one; an error is its name and
    message. *)
Inductive jsval : Type :=
| VUndefined
| VNull
| VBool (b : bool)
| VNum (n : Z)
| VStr (s : string)
| VBigInt (n : Z)
| VDate (t : option Z)
| VBuffer (bytes : list Z)
| VArr (xs : list jsval)
| VObj (kvs : list (string * jsval))
| VMap (entries : list (jsval * jsval))
| VSet (xs : list jsval)
| VError (name message : string)
| VFunction.

(** What [JSON.parse] yields *)
Fixpoint of_json (j : json) : jsval :=
  match j with
  | JNull => VNull
  | JBool b => VBool b
  | JNum n => VNum n
  | JStr s => VStr s
  | JArr xs => VArr (map of_json xs)
  | JObj kvs => VObj (map (fun kv => (kv.1, of_json kv.2)) kvs)
  end.

(** The value of a key *)
Definition member {A} (k : string) (kvs : list (string * A)) : option A :=
  snd <$> List.find (fun kv => String.eqb kv.1 k) kvs.

(** [value.key] *)
Definition property (k : string) (v : jsval) : jsval :=
  match v with VObj kvs => default VUndefined (member k kvs) | _ => VUndefined end.

Section serialization.
Context {Err : Type} (new_error : string -> Err).

Notation result := (outcome Err).

(** A list of results, in order *)
Fixpoint collect {A B} (f : A -> result B) (l : list A) : result (list B) :=
  match l with
  | [] => Ok []
  | x :: l' =>
      match f x with
      | Throw e => Throw e
      | Ok y => match collect f l' with Ok ys => Ok (y :: ys) | Throw e => Throw e end
      end
  end.

Definition then_ {A B} (o : result A) (k : A -> result B) : result B :=
  match o with Ok a => k a | Throw e => Throw e end.

(** The members with a value, as [JSON.stringify] and revivers keep them *)
Definition defined_members {A} (kvs : list (string * option A)) : list (string * A) :=
  omap (fun kv => (fun v => (kv.1, v)) <$> kv.2) kvs.

(** * The legacy format *)

Context (toISOString : Z -> string) (Date_parse : jsval -> option Z)
        (Buffer_from : jsval -> result (list Z)).

(** What the replacer makes of a date and of a bigint; a date that is invalid throws. *)
Definition serialized_date (iso : string) : json :=
  JObj [("dbos_type", JStr "dbos_Date"); ("dbos_data", JStr iso)].

Definition serialized_bigint (n : Z) : json :=
  JObj [("dbos_type", JStr "dbos_BigInt"); ("dbos_data", JStr (stringify_Z n))].

(** [Buffer.prototype.toJSON] *)
Definition serialized_buffer (bytes : list Z) : json :=
  JObj [("type", JStr "Buffer"); ("data", JArr (map JNum bytes))].

(** [JSON.stringify(value, DBOSReplacer)] up to the text; [None] is [undefined].  Maps, sets
    and errors have no members of their own. *)
Fixpoint DBOSReplacer_json (v : jsval) : result (option json) :=
  match v with
  | VUndefined | VFunction => Ok None
  | VNull => Ok (Some JNull)
  | VBool b => Ok (Some (JBool b))
  | VNum n => Ok (Some (JNum n))
  | VStr s => Ok (Some (JStr s))
  | VBigInt n => Ok (Some (serialized_bigint n))
  | VDate (Some t) => Ok (Some (serialized_date (toISOString t)))
  | VDate None => Throw (new_error "Invalid time value")
  | VBuffer bytes => Ok (Some (serialized_buffer bytes))
  | VArr xs =>
      then_ (collect DBOSReplacer_json xs) (fun js => Ok (Some (JArr (map (default JNull) js))))
  | VObj kvs =>
      then_ (collect (fun kv => then_ (DBOSReplacer_json kv.2) (fun o => Ok (kv.1, o))) kvs)
        (fun ms => Ok (Some (JObj (defined_members ms))))
  | VMap _ | VSet _ | VError _ _ => Ok (Some (JObj []))
  end.

Definition isSerializedBuffer (v : jsval) : bool :=
  match property "type" v with VStr s => String.eqb s "Buffer" | _ => false end.
Definition isSerializedDate (v : jsval) : bool :=
  match property "dbos_type" v with VStr s => String.eqb s "dbos_Date" | _ => false end.
Definition isSerializedBigInt (v : jsval) : bool :=
  match property "dbos_type" v with VStr s => String.eqb s "dbos_BigInt" | _ => false end.

(** [BigInt(text)] *)
Definition BigInt (v : jsval) : result Z :=
  match v with
  | VStr s => match parse_Z s with Some n => Ok n | None => Throw (new_error "Cannot convert to a BigInt") end
  | VNum n => Ok n
  | _ => Throw (new_error "Cannot convert to a BigInt")
  end.

Definition DBOSReviver (v : jsval) : result jsval :=
  if isSerializedBuffer v then then_ (Buffer_from (property "data" v)) (fun b => Ok (VBuffer b))
  else if isSerializedDate v then Ok (VDate (Date_parse (property "dbos_data" v)))
  else if isSerializedBigInt v then then_ (BigInt (property "dbos_data" v)) (fun n => Ok (VBigInt n))
  else Ok v.

(** [JSON.parse(text, DBOSReviver)] after the text: children first *)
Fixpoint revive_json (j : json) : result jsval :=
  match j with
  | JArr xs => then_ (collect revive_json xs) (fun vs => DBOSReviver (VArr vs))
  | JObj kvs =>
      then_ (collect (fun kv => then_ (revive_json kv.2) (fun v => Ok (kv.1, v))) kvs)
        (fun ms => DBOSReviver (VObj ms))
  | _ => DBOSReviver (of_json j)
  end.

Definition JSON_parse (text : string) : result json :=
  match parse_json text with
  | Some j => Ok j
  | None => Throw (new_error "SyntaxError")
  end.

(** [DBOSJSONLegacy] *)
Definition DBOSJSONLegacy_stringify (v : jsval) : result (option string) :=
  then_ (DBOSReplacer_json v) (fun o => Ok (print <$> o)).

Definition DBOSJSONLegacy_parse (text : option string) : result jsval :=
  match text with
  | None => Ok VNull
  | Some t => then_ (JSON_parse t) revive_json
  end.

(** * The SuperJSON format *)

(** superjson, with the two fields of its result *)
Context (sj_serialize : jsval -> result (json * option json))
        (sj_deserialize : json -> option json -> result jsval).

Definition SERIALIZER_MARKER_KEY : string := "__dbos_serializer".
Definition SERIALIZER_MARKER_VALUE : string := "superjson".
Definition SERIALIZER_MARKER_STRING : string :=
  quoted SERIALIZER_MARKER_KEY (":" +:+ quoted SERIALIZER_MARKER_VALUE "").

(** [isDBOSBrandedSuperjsonRecord], with the fields that superjson reads *)
Definition isDBOSBrandedSuperjsonRecord (j : json) : option (json * option json) :=
  match j with
  | JObj kvs =>
      match member SERIALIZER_MARKER_KEY kvs, member "json" kvs with
      | Some (JStr m), Some x =>
          if String.eqb m SERIALIZER_MARKER_VALUE then Some (x, member "meta" kvs) else None
      | _, _ => None
      end
  | _ => None
  end.

(** The record that [sjstringify] prints *)
Definition branded (s : json * option json) : json :=
  JObj ([("json", s.1)] ++ match s.2 with Some m => [("meta", m)] | None => [] end
        ++ [(SERIALIZER_MARKER_KEY, JStr SERIALIZER_MARKER_VALUE)]).

Definition sjstringify (v : jsval) : result string :=
  then_ (sj_serialize v) (fun s => Ok (print (branded s))).

Definition DBOSJSON_name : string := "js_superjson".

Definition DBOSJSON_parse (text : option string) : result jsval :=
  match text with
  | None => Ok VNull
  | Some t =>
      if includes SERIALIZER_MARKER_STRING t then
        then_ (JSON_parse t) (fun vanillaParsed =>
          match isDBOSBrandedSuperjsonRecord vanillaParsed with
          | Some s => sj_deserialize s.1 s.2
          | None => DBOSJSONLegacy_parse (Some t)
          end)
      else DBOSJSONLegacy_parse (Some t)
  end.

(** * The portable format *)

Definition DBOSPortableJSON_name : string := "portable_json".

(** [JSON.stringify(value, portableJsonReplacer)] up to the text.  Dates and buffers are
    replaced by their [toJSON] before the replacer sees them. *)
Fixpoint portableJsonReplacer_json (v : jsval) : result (option json) :=
  match v with
  | VUndefined | VFunction => Ok None
  | VNull => Ok (Some JNull)
  | VBool b => Ok (Some (JBool b))
  | VNum n => Ok (Some (JNum n))
  | VStr s => Ok (Some (JStr s))
  | VBigInt n => Ok (Some (JStr (stringify_Z n)))
  | VDate (Some t) => Ok (Some (JStr (toISOString t)))
  | VDate None => Ok (Some JNull)
  | VBuffer bytes => Ok (Some (serialized_buffer bytes))
  | VArr xs | VSet xs =>
      then_ (collect portableJsonReplacer_json xs)
        (fun js => Ok (Some (JArr (map (default JNull) js))))
  | VObj kvs =>
      then_ (collect (fun kv => then_ (portableJsonReplacer_json kv.2) (fun o => Ok (kv.1, o))) kvs)
        (fun ms => Ok (Some (JObj (defined_members ms))))
  | VMap entries =>
      if forallb (fun kv => match kv.1 with VStr _ => true | _ => false end) entries then
        then_ (collect (fun kv => then_ (portableJsonReplacer_json kv.2) (fun o =>
                 Ok (match kv.1 with VStr k => k | _ => "" end, o))) entries)
          (fun ms => Ok (Some (JObj (defined_members ms))))
      else Throw (new_error "Attempt to do portable JSON serialization of a map with non-string keys")
  | VError name message => Ok (Some (JObj [("name", JStr name); ("message", JStr message)]))
  end.

(** [JSON.stringify(value ?? null, ...)]; a function at the top gives [undefined], which the
    signature hides. *)
Definition DBOSPortableJSON_stringify (v : jsval) : result (option string) :=
  then_ (portableJsonReplacer_json (match v with VUndefined => VNull | _ => v end))
    (fun o => Ok (print <$> o)).

Definition DBOSPortableJSON_parse (text : option string) : result jsval :=
  match text with
  | None => Ok VNull
  | Some t => then_ (JSON_parse t) (fun j => Ok (of_json j))
  end.

(** * Choosing a format *)

(** [DBOSSerializer] *)
Record Serializer : Type := SerializerOf {
  name : string;
  stringify : jsval -> result (option string);
  parse : option string -> result jsval
}.

Definition DBOSPortableJSON : Serializer :=
  SerializerOf DBOSPortableJSON_name DBOSPortableJSON_stringify DBOSPortableJSON_parse.

Definition DBOSJSON : Serializer :=
  SerializerOf DBOSJSON_name (fun v => then_ (sjstringify v) (fun s => Ok (Some s))) DBOSJSON_parse.

(** [WorkflowSerializationFormat], with [undefined] *)
Inductive WorkflowSerializationFormat : Type := portable | native | unspecified.

Definition deserialize_unavailable {A} (serialization : option string) : result A :=
  Throw (new_error ("Value deserialization type " +:+ default "" serialization +:+ " is not available")).

(** [deserializeValue] *)
Definition deserializeValue (serializedValue serialization : option string) (serializer : Serializer)
    : result jsval :=
  if opt_eqb serialization (Some DBOSPortableJSON_name) then DBOSPortableJSON_parse serializedValue
  else if opt_eqb serialization (Some DBOSJSON_name) then DBOSJSON_parse serializedValue
  else if bool_decide (truthy_str serialization = None)
          || opt_eqb serialization (Some (name serializer))
       then parse serializer serializedValue
  else deserialize_unavailable serialization.

(** [deserializePositionalArgs]: the portable arguments are an object. *)
Definition deserializePositionalArgs (serializedValue serialization : option string)
    (serializer : Serializer) : result jsval :=
  if opt_eqb serialization (Some DBOSPortableJSON_name) then
    then_ (DBOSPortableJSON_parse serializedValue) (fun v =>
      match v with
      | VNull => Throw (new_error "Cannot read properties of null")
      | _ => Ok (match property "positionalArgs" v with
                 | VUndefined | VNull => VArr []
                 | args => args
                 end)
      end)
  else deserializeValue serializedValue serialization serializer.

(** The package serialize-error, the fields of an error, and the class of portable errors *)
Context (serializeError : Err -> jsval) (deserializeError : jsval -> Err)
        (err_name err_message : Err -> string) (err_code err_data : Err -> jsval)
        (PortableWorkflowError : jsval -> jsval -> jsval -> jsval -> Err).

(** [deserializeResError]: a portable error is thrown, any other one returned. *)
Definition deserializeResError (serializedValue serialization : option string)
    (serializer : Serializer) : result Err :=
  if opt_eqb serialization (Some DBOSPortableJSON_name) then
    then_ (DBOSPortableJSON_parse serializedValue) (fun errdata =>
      match errdata with
      | VNull => Throw (new_error "Cannot read properties of null")
      | _ => Throw (PortableWorkflowError (property "message" errdata) (property "name" errdata)
                      (property "code" errdata) (property "data" errdata))
      end)
  else then_ (deserializeValue serializedValue serialization serializer)
         (fun v => Ok (deserializeError v)).

(** [safeParse], [safeParsePositionalArgs] and [safeParseError] *)
Definition safeParse (serializer : Serializer) (val : string) (serialization : option string) : jsval :=
  match deserializeValue (Some val) serialization serializer with
  | Ok v => v
  | Throw _ => VStr val
  end.

Definition safeParsePositionalArgs (serializer : Serializer) (val : option string)
    (serialization : option string) : jsval :=
  match deserializePositionalArgs val serialization serializer with
  | Ok v => v
  | Throw _ => match val with Some s => VStr s | None => VNull end
  end.

Definition safeParseError (serializer : Serializer) (val : string) (serialization : option string)
    : Err :=
  match deserializeResError (Some val) serialization serializer with
  | Ok e => e
  | Throw _ => new_error val
  end.

(** [serializeValue] *)
Definition format_of (f : WorkflowSerializationFormat) (serializer : Serializer) : Serializer :=
  match f with
  | portable => DBOSPortableJSON
  | native => DBOSJSON
  | unspecified => serializer
  end.

Definition serialize_with (s : Serializer) (v : jsval) : result (option string * option string) :=
  then_ (stringify s v) (fun t => Ok (t, Some (name s))).

Definition serializeValue (v : jsval) (serializer : Serializer) (f : WorkflowSerializationFormat)
    : result (option string * option string) :=
  serialize_with (format_of f serializer) v.

(** [serializeArgs]; the arguments are arrays and objects or [undefined]. *)
Definition serializeArgs (positionalArgs namedArgs : jsval) (serializer : Serializer)
    (f : WorkflowSerializationFormat) : result (option string * option string) :=
  match f with
  | portable =>
      serialize_with DBOSPortableJSON
        (VObj [("positionalArgs", positionalArgs); ("namedArgs", namedArgs)])
  | _ =>
      match namedArgs with
      | VUndefined | VNull => serialize_with (format_of f serializer) positionalArgs
      | _ => Throw (new_error "Serialization format does not currently support named args.")
      end
  end.

(** [serializeResErrorWithSerializer] and [serializeResError] *)
Definition serializeResErrorWithSerializer (err : Err) (serializer : Serializer)
    (serialization : option string) : result (option string * option string) :=
  if opt_eqb serialization (Some DBOSPortableJSON_name) then
    serialize_with DBOSPortableJSON
      (VObj [("name", VStr (err_name err)); ("message", VStr (err_message err));
             ("code", err_code err); ("data", err_data err)])
  else if opt_eqb serialization (Some DBOSJSON_name) then serialize_with DBOSJSON (serializeError err)
  else serialize_with serializer (serializeError err).

Definition serializeResError (err : Err) (serializer : Serializer) (f : WorkflowSerializationFormat)
    : result (option string * option string) :=
  serializeResErrorWithSerializer err serializer (Some (name (format_of f serializer))).

(** [serializeFunctionInputOutputWithSerializer], up to the stubs: what the callee sees, the
    text, and the name of its format *)
Definition serializeFunctionInputOutputWithSerializer (v : jsval) (serializer : Serializer)
    (serialization : option string) : result (jsval * option string * string) :=
  let through (s : Serializer) :=
    then_ (stringify s v) (fun t =>
      match t with
      | None => Throw (new_error "SyntaxError")
      | Some _ => then_ (parse s t) (fun d => Ok (d, t, name s))
      end) in
  if opt_eqb serialization (Some DBOSPortableJSON_name) then through DBOSPortableJSON
  else if opt_eqb serialization (Some DBOSJSON_name) then through DBOSJSON
  else match truthy_str serialization with
       | Some s =>
           if String.eqb s (name serializer) then through serializer
           else Throw (new_error ("Serializer provided (" +:+ name serializer
                  +:+ ") is not compatible with the required serialization (" +:+ s +:+ ")"))
       | None => through serializer
       end.

Definition serializeFunctionInputOutput (v : jsval) (serializer : Serializer)
    (f : WorkflowSerializationFormat) : result (jsval * option string * string) :=
  serializeFunctionInputOutputWithSerializer v serializer (Some (name (format_of f serializer))).

(** * Lemmas *)

Lemma jsval_induction (P : jsval -> Prop) :
  P VUndefined -> P VNull -> (forall b, P (VBool b)) -> (forall n, P (VNum n)) ->
  (forall s, P (VStr s)) -> (forall n, P (VBigInt n)) -> (forall t, P (VDate t)) ->
  (forall bs, P (VBuffer bs)) -> (forall xs, Forall P xs -> P (VArr xs)) ->
  (forall kvs, Forall (fun kv => P kv.2) kvs -> P (VObj kvs)) ->
  (forall es, Forall (fun kv => P kv.2) es -> P (VMap es)) ->
  (forall xs, Forall P xs -> P (VSet xs)) -> (forall n m, P (VError n m)) -> P VFunction ->
  forall v, P v.
Proof.
  intros H1 H2 H3 H4 H5 H6 H7 H8 H9 H10 H11 H12 H13 H14. fix IH 1.
  intros [ | |b|n|s|n|t|bs|xs|kvs|es|xs|n m| ];
    [exact H1|exact H2|apply H3|apply H4|apply H5|apply H6|apply H7|apply H8|apply H9|apply H10
    |apply H11|apply H12|apply H13|exact H14].
  - induction xs as [|x xs IHx]; constructor; [apply IH|exact IHx].
  - induction kvs as [|[k v] kvs IHx]; constructor; [apply IH|exact IHx].
  - induction es as [|[k v] es IHx]; constructor; [apply IH|exact IHx].
  - induction xs as [|x xs IHx]; constructor; [apply IH|exact IHx].
Qed.

Lemma collect_ok {A B} (f : A -> result B) (g : A -> B) l :
  Forall (fun x => f x = Ok (g x)) l -> collect f l = Ok (map g l).
Proof. induction 1 as [|x l Hx _ IH]; simpl; [done|]. by rewrite Hx, IH. Qed.

Lemma collect_inv {A B} (f : A -> result B) l ys :
  collect f l = Ok ys -> Forall2 (fun x y => f x = Ok y) l ys.
Proof.
  revert ys. induction l as [|x l IH]; intros ys H; simpl in H; [by simplify_eq|].
  destruct (f x) eqn:E; [|done]. destruct (collect f l); [|done]. simplify_eq.
  constructor; [done|by apply IH].
Qed.

Lemma member_map {A B} k (f : A -> B) (kvs : list (string * A)) :
  member k (map (fun kv => (kv.1, f kv.2)) kvs) = f <$> member k kvs.
Proof.
  unfold member. induction kvs as [|[k' v] kvs IH]; [done|]. simpl.
  by destruct (String.eqb k' k).
Qed.

(** ** The SuperJSON format *)

Definition byte (n : Z) : bool := (0 <=? n) && (n <? 256).

(** What superjson documents: it reads back what it writes, for the values it supports.  The types
    are JSON's with undefined, bigint, Date, Set, Map and Error, and the Buffer that is registered
    above; functions are not preserved, nor is an invalid date, and the keys that could pollute a
    prototype are refused. *)
Fixpoint superjson_keeps (v : jsval) : bool :=
  match v with
  | VFunction | VDate None => false
  | VBuffer bs => forallb byte bs
  | VArr xs | VSet xs => forallb superjson_keeps xs
  | VMap entries => forallb (fun e => superjson_keeps e.1 && superjson_keeps e.2) entries
  | VObj kvs =>
      bool_decide (NoDup kvs.*1)
      && forallb (fun kv => negb (mem kv.1 ["__proto__"; "constructor"; "prototype"])
                            && superjson_keeps kv.2) kvs
  | _ => true
  end.

Definition superjson_laws : Prop := forall v s, superjson_keeps v = true -> sj_serialize v = Ok s ->
  sj_deserialize s.1 s.2 = Ok v /\ json_ok s.1 = true
  /\ match s.2 with Some m => json_ok m = true | None => True end.

Lemma branded_record s : isDBOSBrandedSuperjsonRecord (branded s) = Some s.
Proof. by destruct s as [j [m|]]. Qed.

Lemma branded_marker s : includes SERIALIZER_MARKER_STRING (print (branded s)) = true.
Proof.
  apply (includes_member _ SERIALIZER_MARKER_KEY (JStr SERIALIZER_MARKER_VALUE)).
  destruct s as [j [m|]]; set_solver.
Qed.

Lemma DBOSJSON_roundtrip v t :
  superjson_laws -> superjson_keeps v = true -> sjstringify v = Ok t -> DBOSJSON_parse (Some t) = Ok v.
Proof.
  intros Hsj Hv H. unfold sjstringify, then_ in H. destruct (sj_serialize v) as [s|] eqn:Es; [|done].
  assert (t = print (branded s)) as -> by congruence. destruct (Hsj _ _ Hv Es) as (Hd & Hj & Hm). unfold DBOSJSON_parse, JSON_parse.
  rewrite branded_marker, parse_print; cbn [then_]; [by rewrite branded_record|].
  destruct s as [j [m|]]; simpl in *; rewrite Hj, ?Hm; done.
Qed.

(** ** The legacy format *)

(** The values the legacy format keeps: no object of the user looks like one of its own. *)
Fixpoint plain (v : jsval) : bool :=
  match v with
  | VNull | VBool _ | VNum _ | VStr _ | VBigInt _ | VDate (Some _) => true
  | VBuffer bs => forallb byte bs
  | VArr xs => forallb plain xs
  | VObj kvs =>
      bool_decide (NoDup kvs.*1) && forallb (fun kv => plain kv.2) kvs
      && negb (isSerializedBuffer v) && negb (isSerializedDate v) && negb (isSerializedBigInt v)
  | _ => false
  end.

Definition date_laws : Prop := forall t, Date_parse (VStr (toISOString t)) = Some t.
Definition buffer_laws : Prop := forall bs, forallb byte bs = true ->
  Buffer_from (VArr (map VNum bs)) = Ok bs.

(** [json] of a plain value *)
Fixpoint legacy_of (v : jsval) : json :=
  match v with
  | VBool b => JBool b
  | VNum n => JNum n
  | VStr s => JStr s
  | VBigInt n => serialized_bigint n
  | VDate (Some t) => serialized_date (toISOString t)
  | VBuffer bs => serialized_buffer bs
  | VArr xs => JArr (map legacy_of xs)
  | VObj kvs => JObj (map (fun kv => (kv.1, legacy_of kv.2)) kvs)
  | _ => JNull
  end.

Lemma Forall_plain {A} (f : A -> jsval) (P : jsval -> Prop) l :
  Forall (fun x => plain (f x) = true -> P (f x)) l -> forallb (fun x => plain (f x)) l = true ->
  Forall (fun x => P (f x)) l.
Proof.
  induction 1 as [|x l Hx _ IH]; intros H; [done|]. simpl in H.
  apply andb_true_iff in H as [H1 H2]. constructor; auto.
Qed.

Lemma defined_members_all {A} (kvs : list (string * A)) :
  defined_members (map (fun kv => (kv.1, Some kv.2)) kvs) = kvs.
Proof. induction kvs as [|[k v] kvs IH]; [done|]. exact (f_equal (cons (k, v)) IH). Qed.

Lemma replacer_plain v : plain v = true -> DBOSReplacer_json v = Ok (Some (legacy_of v)).
Proof.
  induction v as [ | |b|n|s|n|t|bs|xs Hxs|kvs Hkvs|es _|xs _|n m| ] using jsval_induction; intros Hp; try done.
  - by destruct t.
  - apply (Forall_plain (fun x => x) (fun x => DBOSReplacer_json x = Ok (Some (legacy_of x)))) in Hxs; [|done].
    simpl. rewrite (collect_ok _ (fun x => Some (legacy_of x))) by done. simpl. by rewrite map_map.
  - simpl in Hp. do 3 (apply andb_true_iff in Hp as [Hp _]). apply andb_true_iff in Hp as [_ Hp].
    apply (Forall_plain snd (fun x => DBOSReplacer_json x = Ok (Some (legacy_of x)))) in Hkvs; [|done].
    cbn [DBOSReplacer_json]. rewrite (collect_ok _ (fun kv => (kv.1, Some (legacy_of kv.2)))).
    2: { eapply Forall_impl; [exact Hkvs|]. intros kv Hkv. simpl in Hkv |- *. by rewrite Hkv. }
    simpl. do 3 f_equal.
    rewrite <- (defined_members_all (map (fun kv => (kv.1, legacy_of kv.2)) kvs)). by rewrite map_map.
Qed.

Lemma json_ok_plain v : plain v = true -> json_ok (legacy_of v) = true.
Proof.
  induction v as [ | |b|n|s|n|t|bs|xs Hxs|kvs Hkvs|es _|xs _|n m| ] using jsval_induction; intros Hp; try done.
  - by destruct t.
  - simpl. rewrite andb_true_r. induction bs as [|b bs IH]; [done|]. simpl in Hp |- *.
    apply IH. by apply andb_true_iff in Hp as [_ ?].
  - apply (Forall_plain (fun x => x) (fun x => json_ok (legacy_of x) = true)) in Hxs; [|done].
    simpl. induction Hxs as [|x xs Hx _ IH]; [done|]. simpl in *. rewrite Hx.
    apply andb_true_iff in Hp as [_ Hp]. auto.
  - simpl in Hp. do 3 (apply andb_true_iff in Hp as [Hp _]). apply andb_true_iff in Hp as [Hn Hp].
    apply (Forall_plain snd (fun x => json_ok (legacy_of x) = true)) in Hkvs; [|done].
    simpl. apply andb_true_iff. split.
    + apply bool_decide_eq_true in Hn. apply bool_decide_eq_true. by rewrite map_map.
    + clear Hn Hp. induction Hkvs as [|kv kvs Hkv _ IH]; [done|]. simpl in *. by rewrite Hkv.
Qed.

Lemma revive_plain v :
  date_laws -> buffer_laws -> plain v = true -> revive_json (legacy_of v) = Ok v.
Proof.
  intros Hdate Hbuf.
  induction v as [ | |b|n|s|n|t|bs|xs Hxs|kvs Hkvs|es _|xs _|n m| ] using jsval_induction; intros Hp; try done.
  - unfold legacy_of, serialized_bigint. cbn [revive_json collect of_json fst snd then_].
    change (DBOSReviver (VStr ?x)) with (Ok (E := Err) (VStr x)).
    unfold DBOSReviver, isSerializedBuffer, isSerializedDate, isSerializedBigInt. simpl.
    by rewrite parse_stringify_Z.
  - destruct t as [t|]; [|done]. unfold legacy_of, serialized_date. simpl.
    unfold DBOSReviver. simpl. by rewrite Hdate.
  - unfold legacy_of, serialized_buffer. cbn [revive_json collect of_json fst snd then_].
    rewrite (collect_ok revive_json (fun j => of_json j)).
    2: { clear Hp. induction bs; constructor; auto. }
    cbn [then_]. rewrite map_map. change (DBOSReviver (VStr ?x)) with (Ok (E := Err) (VStr x)).
    simpl. unfold DBOSReviver at 1. simpl. by rewrite Hbuf.
  - apply (Forall_plain (fun x => x) (fun x => revive_json (legacy_of x) = Ok x)) in Hxs; [|done].
    cbn [legacy_of revive_json].
    assert (collect revive_json (map legacy_of xs) = Ok xs) as ->; [|done].
    clear Hp. induction Hxs as [|x xs Hx _ IH]; [done|]. simpl. by rewrite Hx, IH.
  - simpl in Hp. apply andb_true_iff in Hp as [Hp H3]. apply andb_true_iff in Hp as [Hp H2].
    apply andb_true_iff in Hp as [Hp H1]. apply andb_true_iff in Hp as [_ Hp].
    apply (Forall_plain snd (fun x => revive_json (legacy_of x) = Ok x)) in Hkvs; [|done].
    cbn [legacy_of revive_json].
    assert (collect (fun kv : string * json => then_ (revive_json kv.2) (fun v => Ok (kv.1, v)))
              (map (fun kv => (kv.1, legacy_of kv.2)) kvs) = Ok kvs) as ->.
    { clear - Hkvs. induction Hkvs as [|[k x] kvs Hx _ IH]; [done|]. simpl in *. by rewrite Hx, IH. }
    cbn [then_]. unfold DBOSReviver. apply negb_true_iff in H1, H2, H3. by rewrite H1, H2, H3.
Qed.

(** The objects of users that the new format takes for its own *)
Definition looks_branded (v : jsval) : bool :=
  match v with
  | VObj kvs =>
      match member SERIALIZER_MARKER_KEY kvs, member "json" kvs with
      | Some (VStr m), Some _ => String.eqb m SERIALIZER_MARKER_VALUE
      | _, _ => false
      end
  | _ => false
  end.

Lemma unbranded v :
  looks_branded v = false -> plain v = true -> isDBOSBrandedSuperjsonRecord (legacy_of v) = None.
Proof.
  destruct v as [ | |b|n|s|n|[t|]|bs|xs|kvs|es|xs|n m| ]; try done. simpl. intros Hb Hp.
  rewrite !member_map. destruct (member SERIALIZER_MARKER_KEY kvs) as [v|] eqn:Em; [|done]. simpl.
  destruct (member "json" kvs); [|by destruct (legacy_of v)]. simpl.
  destruct v as [ | |b|n|s|n|[t|]|bs|xs|kvs'|es|xs|n m| ]; try done. simpl. by rewrite Hb.
Qed.

Lemma legacy_read v t :
  date_laws -> buffer_laws -> plain v = true -> looks_branded v = false ->
  DBOSJSONLegacy_stringify v = Ok (Some t) ->
  DBOSJSONLegacy_parse (Some t) = Ok v /\ DBOSJSON_parse (Some t) = Ok v.
Proof.
  intros Hd Hb Hp Hl H. unfold DBOSJSONLegacy_stringify in H. rewrite replacer_plain in H by done.
  assert (t = print (legacy_of v)) as -> by (simpl in H; congruence). clear H.
  assert (DBOSJSONLegacy_parse (Some (print (legacy_of v))) = Ok v) as HL.
  { unfold DBOSJSONLegacy_parse, JSON_parse. rewrite parse_print by by apply json_ok_plain.
    by apply revive_plain. }
  split; [done|]. unfold DBOSJSON_parse. destruct (includes _ _); [|done].
  unfold JSON_parse. rewrite parse_print by by apply json_ok_plain. cbn [then_].
  by rewrite unbranded.
Qed.

(** ** The portable format *)

(** No object or map has a key twice, as in JavaScript. *)
Fixpoint keys_ok (v : jsval) : bool :=
  match v with
  | VArr xs | VSet xs => forallb keys_ok xs
  | VObj kvs => bool_decide (NoDup kvs.*1) && forallb (fun kv => keys_ok kv.2) kvs
  | VMap es =>
      bool_decide (NoDup (map (fun kv => match kv.1 with VStr k => k | _ => "" end) es))
      && forallb (fun kv => keys_ok kv.2) es
  | _ => true
  end.

Lemma portable_of_json j :
  portableJsonReplacer_json (of_json j) = Ok (Some j).
Proof.
  induction j as [|b|n|s|xs Hxs|kvs Hkvs] using json_induction; try done.
  - cbn [of_json portableJsonReplacer_json].
    assert (collect portableJsonReplacer_json (map of_json xs) = Ok (map Some xs)) as ->.
    { induction Hxs as [|x xs Hx _ IH]; [done|]. simpl. by rewrite Hx, IH. }
    cbn [then_]. by rewrite map_map, map_id.
  - cbn [of_json portableJsonReplacer_json].
    assert (collect (fun kv => then_ (portableJsonReplacer_json kv.2) (fun o => Ok (kv.1, o)))
              (map (fun kv => (kv.1, of_json kv.2)) kvs) = Ok (map (fun kv => (kv.1, Some kv.2)) kvs)) as ->.
    { induction Hkvs as [|[k x] kvs Hx _ IH]; [done|]. simpl in *. by rewrite Hx, IH. }
    cbn [then_]. by rewrite defined_members_all.
Qed.

(** What an object is made of: members with the same keys, in order, and well-formed values *)
Lemma members_ok {A} (key : A -> string) (f : A -> result (option json)) kvs ms :
  NoDup (map key kvs) ->
  Forall (fun kv => forall j, f kv = Ok (Some j) -> json_ok j = true) kvs ->
  collect (fun kv => then_ (f kv) (fun o => Ok (key kv, o))) kvs = Ok ms ->
  json_ok (JObj (defined_members ms)) = true.
Proof.
  intros Hn Hf Hc. apply collect_inv in Hc.
  assert (map fst ms = map key kvs) as Hk.
  { clear Hn Hf. induction Hc as [|x [k o] kvs ms Hx _ IH]; [done|]. simpl in *.
    destruct (f x); [|done]. simpl in Hx. simplify_eq. by rewrite IH. }
  rewrite <- Hk in Hn. simpl. apply andb_true_iff. split.
  - apply bool_decide_eq_true. clear -Hn. induction ms as [|[k [j|]] ms IH]; simpl in *.
    + constructor.
    + apply NoDup_cons in Hn as [Hk Hn]. constructor; [|by apply IH].
      intros Hin. apply Hk. clear - Hin. induction ms as [|[k' [j'|]] ms IH]; simpl in *; [done| |].
      * apply elem_of_cons in Hin as [->|Hin]; [by left|right; auto].
      * right. auto.
    + apply NoDup_cons in Hn as [_ Hn]. by apply IH.
  - clear Hk Hn. induction Hc as [|x [k o] kvs ms Hx _ IH]; [done|].
    apply Forall_cons in Hf as [Hf1 Hf2]. destruct (f x) as [o'|] eqn:E; [|done]. simpl in Hx. simplify_eq.
    specialize (IH Hf2). destruct o as [j|]; simpl; [|done]. by rewrite Hf1.
Qed.

Lemma elements_ok xs js :
  Forall (fun v => forall j, portableJsonReplacer_json v = Ok (Some j) -> json_ok j = true) xs ->
  collect portableJsonReplacer_json xs = Ok js ->
  forallb json_ok (map (default JNull) js) = true.
Proof.
  intros Hf Hc. apply collect_inv in Hc. induction Hc as [|x o xs js Hx _ IH]; [done|].
  apply Forall_cons in Hf as [Hf1 Hf2]. simpl. rewrite IH, andb_true_r by done.
  destruct o as [j|]; [by apply Hf1|done].
Qed.

Lemma Forall_keys {A} (f : A -> jsval) (P : jsval -> Prop) l :
  Forall (fun x => keys_ok (f x) = true -> P (f x)) l -> forallb (fun x => keys_ok (f x)) l = true ->
  Forall (fun x => P (f x)) l.
Proof.
  induction 1 as [|x l Hx _ IH]; intros H; [done|]. simpl in H.
  apply andb_true_iff in H as [H1 H2]. constructor; auto.
Qed.

Lemma portable_json_ok v : keys_ok v = true ->
  forall j, portableJsonReplacer_json v = Ok (Some j) -> json_ok j = true.
Proof.
  set (P v := forall j, portableJsonReplacer_json v = Ok (Some j) -> json_ok j = true).
  change (keys_ok v = true -> P v).
  induction v as [ | |b|n|s|n|t|bs|xs Hxs|kvs Hkvs|es Hes|xs Hxs|n m| ] using jsval_induction;
    intros Hk j Hj; try (simpl in Hj; by simplify_eq).
  - simpl in Hj. by destruct t; simplify_eq.
  - simpl in Hj. simplify_eq. simpl. rewrite andb_true_r. clear. by induction bs.
  - apply (Forall_keys (fun x => x) P) in Hxs; [|done]. cbn [portableJsonReplacer_json] in Hj.
    destruct (collect _ xs) as [js|] eqn:Hc; [|done]. simpl in Hj. simplify_eq.
    by apply (elements_ok xs).
  - simpl in Hk. apply andb_true_iff in Hk as [Hn Hk]. apply bool_decide_eq_true in Hn.
    apply (Forall_keys snd P) in Hkvs; [|done]. cbn [portableJsonReplacer_json] in Hj.
    destruct (collect _ kvs) as [ms|] eqn:Hc; [|done]. cbn [then_] in Hj.
    assert (j = JObj (defined_members ms)) as -> by congruence.
    by apply (members_ok fst (fun kv => portableJsonReplacer_json kv.2) kvs).
  - simpl in Hk. apply andb_true_iff in Hk as [Hn Hk]. apply bool_decide_eq_true in Hn.
    apply (Forall_keys snd P) in Hes; [|done]. cbn [portableJsonReplacer_json] in Hj.
    destruct (forallb (fun kv => match kv.1 with VStr _ => true | _ => false end) es); [|done].
    destruct (collect _ es) as [ms|] eqn:Hc; [|done]. cbn [then_] in Hj.
    assert (j = JObj (defined_members ms)) as -> by congruence.
    by apply (members_ok (fun kv => match kv.1 with VStr k => k | _ => "" end)
      (fun kv => portableJsonReplacer_json kv.2) es).
  - apply (Forall_keys (fun x => x) P) in Hxs; [|done]. cbn [portableJsonReplacer_json] in Hj.
    destruct (collect _ xs) as [js|] eqn:Hc; [|done]. simpl in Hj. simplify_eq.
    by apply (elements_ok xs).
Qed.

(** * Properties *)

(** C21: What the native serializer writes it reads back, for every value that superjson
    preserves - functions are not among them; and it still reads what the legacy serializer wrote: every value the legacy
    format keeps - dates, bigints and buffers at any depth among them - unless the value is
    itself an object with the marker and a [json] field. *)
Theorem DBOSJSON_reads_both (v : jsval) (t : string) :
  superjson_laws -> date_laws -> buffer_laws ->
  (superjson_keeps v = true -> sjstringify v = Ok t -> DBOSJSON_parse (Some t) = Ok v)
  /\ (plain v = true -> looks_branded v = false -> DBOSJSONLegacy_stringify v = Ok (Some t) ->
      DBOSJSONLegacy_parse (Some t) = Ok v /\ DBOSJSON_parse (Some t) = Ok v).
Proof. intros Hs Hd Hb. split; intros; [by apply DBOSJSON_roundtrip | by apply legacy_read]. Qed.

(** The portable format loses types but nothing else: what it writes parses as plain
    JSON, and writing that again gives the same text; a value that is plain JSON is read back
    unchanged. *)
Theorem portable_normal_form (v : jsval) (t : string) :
  keys_ok v = true -> DBOSPortableJSON_stringify v = Ok (Some t) ->
  exists j, DBOSPortableJSON_parse (Some t) = Ok (of_json j)
    /\ DBOSPortableJSON_stringify (of_json j) = Ok (Some t)
    /\ (forall j', v = of_json j' -> j' = j).
Proof.
  intros Hk H. unfold DBOSPortableJSON_stringify in H.
  set (w := match v with VUndefined => VNull | _ => v end) in H.
  destruct (portableJsonReplacer_json w) as [[j|]|e] eqn:Hj; try done. cbn [then_ fmap option_fmap option_map] in H.
  assert (t = print j) as -> by congruence. exists j. split; [|split].
  - unfold DBOSPortableJSON_parse, JSON_parse. rewrite parse_print; [done|].
    apply (portable_json_ok w); [by destruct v|done].
  - unfold DBOSPortableJSON_stringify.
    replace (match of_json j with VUndefined => VNull | _ => of_json j end) with (of_json j) by by destruct j.
    by rewrite portable_of_json.
  - intros j' ->. assert (w = of_json j') as Hw by (unfold w; by destruct j'). rewrite Hw, portable_of_json in Hj.
    congruence.
Qed.

(** A serializer that reads back what it writes of a value *)
Definition lossless (s : Serializer) (v : jsval) : Prop := forall o, stringify s v = Ok o ->
  exists t, o = Some t /\ parse s (Some t) = Ok v.

(** The built-in names are those of the built-in serializers. *)
Definition names_ok (s : Serializer) : Prop :=
  (name s = DBOSPortableJSON_name -> s = DBOSPortableJSON)
  /\ (name s = DBOSJSON_name -> s = DBOSJSON).

Lemma deserialize_dispatch s t s' :
  names_ok s -> name s <> "" -> (name s = DBOSPortableJSON_name \/ name s = DBOSJSON_name \/ s' = s) ->
  deserializeValue t (Some (name s)) s' = parse s t.
Proof.
  intros [Hp Hj] Hne Hs. unfold deserializeValue, opt_eqb.
  destruct (decide (name s = DBOSPortableJSON_name)) as [E|E].
  { rewrite E. rewrite bool_decide_true by done. by rewrite (Hp E). }
  rewrite bool_decide_false by congruence.
  destruct (decide (name s = DBOSJSON_name)) as [E2|E2].
  { rewrite E2. rewrite bool_decide_true by done. by rewrite (Hj E2). }
  rewrite bool_decide_false by congruence.
  destruct Hs as [?|[?| ->]]; [done..|]. rewrite (bool_decide_true (Some (name s) = _)) by done.
  by rewrite orb_true_r.
Qed.

(** A value is read back with the name of the format that was stored beside it: whatever
    format a workflow asks for, what [serializeValue] writes [deserializeValue] reads back -
    for the built-in formats in every process, for a custom serializer where it is
    configured - and a process with another custom serializer refuses it rather than misread
    it. *)
Theorem formats_dispatch (v : jsval) (f : WorkflowSerializationFormat) (ser ser' : Serializer)
    (t n : option string) :
  names_ok ser -> name ser <> "" -> lossless (format_of f ser) v ->
  serializeValue v ser f = Ok (t, n) ->
  (f <> unspecified \/ ser' = ser -> deserializeValue t n ser' = Ok v)
  /\ (f = unspecified -> name ser <> DBOSPortableJSON_name -> name ser <> DBOSJSON_name ->
      name ser' <> name ser -> deserializeValue t n ser' = deserialize_unavailable n).
Proof.
  intros Hok Hne Hl H. unfold serializeValue, serialize_with, then_ in H.
  destruct (stringify (format_of f ser) v) as [o|] eqn:Hs; [|done]. simplify_eq.
  destruct (Hl _ Hs) as (x & -> & Hp). split.
  - intros Hf. rewrite deserialize_dispatch; [done| | |].
    + destruct f; try done; by split.
    + by destruct f.
    + destruct f; [by left|by right; left|right; right]. by destruct Hf as [?| ->].
  - intros -> H1 H2 H3. simpl. unfold deserializeValue, opt_eqb.
    do 2 rewrite bool_decide_false by congruence.
    rewrite (bool_decide_false (truthy_str _ = _)) by (unfold truthy_str; by destruct (name ser)).
    by rewrite bool_decide_false by congruence.
Qed.

(** An error that a portable workflow stored: a replay throws a [PortableWorkflowError], but
    introspection shows an error whose message is the stored text. *)
Lemma portable_error (name' message : string) (ser : Serializer) :
  let val := print (JObj [("name", JStr name'); ("message", JStr message)]) in
  deserializeResError (Some val) (Some DBOSPortableJSON_name) ser
  = Throw (PortableWorkflowError (VStr message) (VStr name') VUndefined VUndefined)
  /\ safeParseError ser val (Some DBOSPortableJSON_name) = new_error val.
Proof.
  cbv zeta. assert (deserializeResError (Some (print (JObj [("name", JStr name'); ("message", JStr message)])))
    (Some DBOSPortableJSON_name) ser = Throw (PortableWorkflowError (VStr message) (VStr name') VUndefined VUndefined)) as E.
  { unfold deserializeResError, opt_eqb. rewrite bool_decide_true by done.
    unfold DBOSPortableJSON_parse, JSON_parse. by rewrite parse_print. }
  split; [done|]. unfold safeParseError. by rewrite E.
Qed.

End serialization.

(** * Witnesses *)

Module Fixtures.

(** A stand-in for superjson that handles strings, and dates that are their seconds *)
Definition sj_write (v : jsval) : outcome string (json * option json) :=
  match v with VStr s => Ok (JStr s, None) | VUndefined => Ok (JNull, Some (JStr "undefined"))
  | _ => Throw "unsupported" end.
Definition sj_read (j : json) (m : option json) : outcome string jsval :=
  match j, m with JStr s, None => Ok (VStr s) | JNull, Some _ => Ok VUndefined
  | _, _ => Throw "malformed" end.
Definition iso (t : Z) : string := stringify_Z t.
Definition date_parse (v : jsval) : option Z :=
  match v with VStr s => parse_Z s | _ => None end.
Definition buffer_from (v : jsval) : outcome string (list Z) :=
  match v with
  | VArr xs => Ok (omap (fun x => match x with VNum n => Some n | _ => None end) xs)
  | _ => Throw "TypeError"
  end.

Lemma sj_laws : superjson_laws sj_write sj_read.
Proof. intros v s _ H. destruct v; simpl in H; simplify_eq; by split. Qed.

Lemma dates : date_laws iso date_parse.
Proof. intros t. apply parse_stringify_Z. Qed.

Lemma buffers : buffer_laws buffer_from.
Proof. intros bs _. simpl. f_equal. induction bs as [|b bs IH]; [done|]. exact (f_equal (cons b) IH). Qed.

(** An order with a date and the user's own text that looks like the marker *)
Definition order : jsval :=
  VObj [("at", VDate (Some 1700)); ("qty", VBigInt 12); ("note", VStr "__dbos_serializer");
        ("raw", VBuffer [1; 2])].

Definition order_text : string := default "" (match DBOSJSONLegacy_stringify id iso order with
  | Ok o => o | Throw _ => None end).

End Fixtures.

Import Fixtures.

Lemma DBOSJSON_reads_both_witness :
  DBOSJSON_parse id date_parse buffer_from sj_read (Some order_text) = Ok order
  /\ exists t, sjstringify sj_write (VStr "a") = Ok t
     /\ DBOSJSON_parse id date_parse buffer_from sj_read (Some t) = Ok (VStr "a").
Proof.
  split.
  - destruct (DBOSJSON_reads_both id iso date_parse buffer_from sj_write sj_read order order_text
      sj_laws dates buffers) as [_ H].
    apply H; vm_compute; reflexivity.
  - eexists. split; [reflexivity|].
    destruct (DBOSJSON_reads_both id iso date_parse buffer_from sj_write sj_read (VStr "a")
      (default "" (match sjstringify sj_write (VStr "a") with Ok t => Some t | Throw _ => None end))
      sj_laws dates buffers) as [H _].
    apply H; reflexivity.
Defined.

Lemma portable_normal_form_witness :
  exists j, DBOSPortableJSON_parse id (Some "[1,null]") = Ok (of_json j)
    /\ DBOSPortableJSON_stringify id iso (of_json j) = Ok (Some "[1,null]").
Proof.
  destruct (portable_normal_form id iso (VSet [VNum 1; VUndefined]) "[1,null]") as (j & H1 & H2 & _);
    [reflexivity|vm_compute; reflexivity|]. exists j. split; [exact H1|exact H2].
Defined.

(** A configured serializer of strings *)
Definition ex_serializer : Serializer :=
  SerializerOf "custom" (fun v => match v with VStr s => Ok (Some s) | _ => Throw "unsupported" end)
    (fun t => match t with Some s => Ok (VStr s) | None => Ok VNull end).

Lemma formats_dispatch_witness :
  deserializeValue id date_parse buffer_from sj_read (Some "x") (Some "custom") ex_serializer
  = Ok (VStr "x").
Proof.
  destruct (formats_dispatch id iso date_parse buffer_from sj_write sj_read (VStr "x") unspecified
    ex_serializer ex_serializer (Some "x") (Some "custom")) as [H _].
  - split; discriminate.
  - discriminate.
  - intros o Ho. simpl in Ho. injection Ho as <-. eexists. split; reflexivity.
  - reflexivity.
  - apply H. right. reflexivity.
Defined.
