(* ===== verification/WorkflowStatus.v ===== *)
(** Workflow status: the [Workflow Status] section of [SystemDatabase]
    (src/src/system_database.ts) and the private [insertWorkflowStatus] and
    [updateWorkflowStatus] it is built on: creating a workflow, deciding whether
    this executor runs it, batch enqueueing, recording its outcome, and returning
    the workflows of a dead executor to a queue. *)

From stdpp Require Import pretty.
From S2P Require Export Schema.


(** * Data *)

(** [WorkflowStatusInternal]: field [f] is [i_f]. *)
Record WorkflowStatusInternal : Type := WorkflowStatusInternalOf {
  i_workflowUUID : string;
  i_status : StatusString;
  i_workflowName : string;
  i_workflowClassName : string;
  i_workflowConfigName : string;
  i_queueName : option string;
  i_authenticatedUser : string;
  i_output : option string;
  i_error : option string;
  i_input : option string;
  i_assumedRole : string;
  i_authenticatedRoles : list string;
  i_request : json;
  i_executorId : option string;
  i_applicationVersion : option string;
  i_applicationID : string;
  i_createdAt : Z;
  i_updatedAt : option Z;
  i_recoveryAttempts : option Z;
  i_timeoutMS : option Z;
  i_deadlineEpochMS : option Z;
  i_deduplicationID : option string;
  i_priority : Z;
  i_queuePartitionKey : option string;
  i_startedAtEpochMs : option Z;
  i_forkedFrom : option string;
  i_wasForkedFrom : bool;
  i_parentWorkflowID : option string;
  i_serialization : option string;
  i_delayUntilEpochMS : option Z;
  i_completedAt : option Z;
  i_attributes : option json;
  i_scheduleName : option string;
  i_debounceDeadlineEpochMS : option Z;
  i_isDebounced : bool
}.

#[export] Instance WorkflowStatusInternal_eta : Eta WorkflowStatusInternal := fun s =>
  WorkflowStatusInternalOf (i_workflowUUID s) (i_status s) (i_workflowName s)
    (i_workflowClassName s) (i_workflowConfigName s) (i_queueName s)
    (i_authenticatedUser s) (i_output s) (i_error s) (i_input s) (i_assumedRole s)
    (i_authenticatedRoles s) (i_request s) (i_executorId s) (i_applicationVersion s)
    (i_applicationID s) (i_createdAt s) (i_updatedAt s) (i_recoveryAttempts s)
    (i_timeoutMS s) (i_deadlineEpochMS s) (i_deduplicationID s) (i_priority s)
    (i_queuePartitionKey s) (i_startedAtEpochMs s) (i_forkedFrom s) (i_wasForkedFrom s)
    (i_parentWorkflowID s) (i_serialization s) (i_delayUntilEpochMS s) (i_completedAt s)
    (i_attributes s) (i_scheduleName s) (i_debounceDeadlineEpochMS s) (i_isDebounced s).

(** [InsertWorkflowResult]: the columns the upsert returns. *)
Record InsertWorkflowResult : Type := InsertWorkflowResultOf {
  r_recovery_attempts : Z;
  r_status : StatusString;
  r_name : string;
  r_class_name : string;
  r_config_name : string;
  r_queue_name : option string;
  r_workflow_deadline_epoch_ms : option Z;
  r_executor_id : option string;
  r_owner_xid : option string;
  r_serialization : option string
}.

(** What [initWorkflowStatus] resolves to. *)
Record InitWorkflowResult : Type := InitWorkflowResultOf {
  init_status : StatusString;
  init_shouldExecuteOnThisExecutor : bool;
  init_deadlineEpochMS : option Z;
  init_serialization : option string
}.

(** [options.update] and [options.where] of [updateWorkflowStatus]; a flag that is
    not given is [false], a value that is not given is [None]. *)
Record UpdateFields : Type := UpdateFieldsOf {
  u_output : option string;
  u_error : option string;
  u_resetRecoveryAttempts : bool;
  u_queueName : option (option string);
  u_resetDeadline : bool;
  u_resetDeduplicationID : bool;
  u_resetStartedAtEpochMs : bool;
  u_executorId : option string;
  u_resetNameTo : option string;
  u_setCompletedAt : bool;
  u_clearCompletedAt : bool
}.

#[export] Instance UpdateFields_eta : Eta UpdateFields := fun u =>
  UpdateFieldsOf (u_output u) (u_error u) (u_resetRecoveryAttempts u) (u_queueName u)
    (u_resetDeadline u) (u_resetDeduplicationID u) (u_resetStartedAtEpochMs u)
    (u_executorId u) (u_resetNameTo u) (u_setCompletedAt u) (u_clearCompletedAt u).

Definition no_update : UpdateFields :=
  UpdateFieldsOf None None false None false false false None None false false.

Record UpdateWhere : Type := UpdateWhereOf {
  w_status : option StatusString;
  w_notStatus : option StatusString
}.

(** * Reading a row: [mapWorkflowStatus] *)

(** The timestamps are [int8] columns, which the driver returns as strings: the
    truthiness tests on them only exclude NULL. *)
Definition mapWorkflowStatus (id : string) (row : wf_row) : WorkflowStatusInternal :=
  {| i_workflowUUID := id;
     i_status := ws_status row;
     i_workflowName := ws_name row;
     i_workflowClassName := default "" (ws_class_name row);
     i_workflowConfigName := default "" (ws_config_name row);
     i_queueName := ws_queue_name row;
     i_authenticatedUser := ws_authenticated_user row;
     i_output := truthy_str (ws_output row);
     i_error := truthy_str (ws_error row);
     i_input := truthy_str (ws_inputs row);
     i_assumedRole := ws_assumed_role row;
     i_authenticatedRoles := ws_authenticated_roles row;
     i_request := ws_request row;
     i_executorId := ws_executor_id row;
     i_applicationVersion := ws_application_version row;
     i_applicationID := ws_application_id row;
     i_createdAt := ws_created_at row;
     i_updatedAt := Some (ws_updated_at row);
     i_recoveryAttempts := Some (ws_recovery_attempts row);
     i_timeoutMS := ws_workflow_timeout_ms row;
     i_deadlineEpochMS := ws_workflow_deadline_epoch_ms row;
     i_deduplicationID := ws_deduplication_id row;
     i_priority := ws_priority row;
     i_queuePartitionKey := ws_queue_partition_key row;
     i_startedAtEpochMs := ws_started_at_epoch_ms row;
     i_forkedFrom := ws_forked_from row;
     i_wasForkedFrom := ws_was_forked_from row;
     i_parentWorkflowID := ws_parent_workflow_id row;
     i_serialization := ws_serialization row;
     i_delayUntilEpochMS := ws_delay_until_epoch_ms row;
     i_completedAt := ws_completed_at row;
     i_attributes := ws_attributes row;
     i_scheduleName := ws_schedule_name row;
     i_debounceDeadlineEpochMS := ws_debounce_deadline_epoch_ms row;
     i_isDebounced := ws_is_debounced row |}.

(** * Inserting: [insertWorkflowStatus] *)

(** [status === ENQUEUED || status === DELAYED] *)
Definition is_queued (s : StatusString) : bool :=
  bool_decide (s = ENQUEUED) || bool_decide (s = DELAYED).

(** [x === '' ? null : x] *)
Definition null_if_empty (s : string) : option string :=
  match s with EmptyString => None | _ => Some s end.

(** The VALUES tuple; [now] is [Date.now()].  Columns the statement does not list
    take the defaults of the schema. *)
Definition status_to_row (now : Z) (s : WorkflowStatusInternal) (ownerXid : option string)
    : wf_row :=
  {| ws_status := i_status s;
     ws_name := i_workflowName s;
     ws_class_name := null_if_empty (i_workflowClassName s);
     ws_config_name := null_if_empty (i_workflowConfigName s);
     ws_authenticated_user := i_authenticatedUser s;
     ws_assumed_role := i_assumedRole s;
     ws_authenticated_roles := i_authenticatedRoles s;
     ws_request := i_request s;
     ws_output := None;
     ws_error := None;
     ws_executor_id := i_executorId s;
     ws_created_at := i_createdAt s;
     ws_updated_at := default now (i_updatedAt s);
     ws_application_version := i_applicationVersion s;
     ws_application_id := i_applicationID s;
     ws_recovery_attempts := if is_queued (i_status s) then 0 else 1;
     ws_queue_name := i_queueName s;
     ws_workflow_timeout_ms := i_timeoutMS s;
     ws_workflow_deadline_epoch_ms := i_deadlineEpochMS s;
     ws_inputs := i_input s;
     ws_started_at_epoch_ms := None;
     ws_deduplication_id := i_deduplicationID s;
     ws_priority := i_priority s;
     ws_queue_partition_key := i_queuePartitionKey s;
     ws_forked_from := i_forkedFrom s;
     ws_was_forked_from := false;
     ws_owner_xid := ownerXid;
     ws_parent_workflow_id := i_parentWorkflowID s;
     ws_serialization := i_serialization s;
     ws_delay_until_epoch_ms := i_delayUntilEpochMS s;
     ws_rate_limited := false;
     ws_completed_at := None;
     ws_attributes := i_attributes s;
     ws_schedule_name := i_scheduleName s;
     ws_debounce_deadline_epoch_ms := i_debounceDeadlineEpochMS s;
     ws_is_debounced := i_isDebounced s |}.

(** [ON CONFLICT (workflow_uuid) DO UPDATE SET ...]: [old] is the stored row and
    [ex] the excluded one. *)
Definition on_conflict_update (increment : Z) (ex old : wf_row) : wf_row :=
  old <| ws_recovery_attempts :=
           if negb (is_queued (ws_status old)) then ws_recovery_attempts old + increment
           else ws_recovery_attempts old |>
      <| ws_updated_at := ws_updated_at ex |>
      <| ws_executor_id :=
           if negb (is_queued (ws_status ex)) then ws_executor_id ex
           else ws_executor_id old |>.

(** [RETURNING ...], with the two defaults the code applies to the result. *)
Definition insert_result (r : wf_row) : InsertWorkflowResult :=
  {| r_recovery_attempts := ws_recovery_attempts r;
     r_status := ws_status r;
     r_name := ws_name r;
     r_class_name := default "" (ws_class_name r);
     r_config_name := default "" (ws_config_name r);
     r_queue_name := ws_queue_name r;
     r_workflow_deadline_epoch_ms := ws_workflow_deadline_epoch_ms r;
     r_executor_id := ws_executor_id r;
     r_owner_xid := ws_owner_xid r;
     r_serialization := ws_serialization r |}.

(** [insertWorkflowStatus].  It also assigns [initStatus.serialization]: the
    second component is the argument as the caller sees it afterwards. *)
Definition insertWorkflowStatus (now : Z) (s : WorkflowStatusInternal)
    (ownerXid : option string) (incrementAttempts : bool)
    : DB (InsertWorkflowResult * WorkflowStatusInternal) := fun d =>
  let ex := status_to_row now s ownerXid in
  let increment := if incrementAttempts then 1 else 0 in
  let finish (r : wf_row) := (insert_result r, s <| i_serialization := ws_serialization r |>) in
  match workflow_status d !! i_workflowUUID s with
  | Some old =>
      let r := on_conflict_update increment ex old in
      (Ok (finish r), d <| workflow_status ::= <[i_workflowUUID s := r]> |>)
  | None =>
      match insert_workflow_status (i_workflowUUID s) ex d with
      | (Ok _, d') => (Ok (finish ex), d')
      | (Throw _, d') =>
          (Throw (DBOSQueueDuplicatedError (i_workflowUUID s)
                    (default "" (i_queueName s)) (default "" (i_deduplicationID s))), d')
      end
  end.

(** * Updating: [updateWorkflowStatus] *)

(** [getWorkflowStatusValue] *)
Definition getWorkflowStatusValue (workflowID : string) : DB (option StatusString) :=
  fun d => (Ok (ws_status <$> workflow_status d !! workflowID), d).

(** [if (x !== undefined) setClause += ...] and [if (b) setClause += ...] *)
Definition set_some {A} (o : option A) (f : A -> wf_row -> wf_row) (r : wf_row) : wf_row :=
  match o with Some a => f a r | None => r end.

Definition set_if (b : bool) (f : wf_row -> wf_row) (r : wf_row) : wf_row :=
  if b then f r else r.

(** The SET clause; [nowMs] is SQL's [now()]. *)
Definition update_set (nowMs : Z) (status : StatusString) (u : UpdateFields) (r : wf_row)
    : wf_row :=
  let r := r <| ws_status := status |> <| ws_updated_at := nowMs |> in
  let r := set_some (truthy_str (u_output u)) (fun o r => r <| ws_output := Some o |>) r in
  let r := set_some (truthy_str (u_error u)) (fun e r => r <| ws_error := Some e |>) r in
  let r := set_if (u_resetRecoveryAttempts u) (fun r => r <| ws_recovery_attempts := 0 |>) r in
  let r := set_if (u_resetDeadline u)
             (fun r => r <| ws_workflow_deadline_epoch_ms := None |>) r in
  let r := set_some (u_queueName u) (fun q r => r <| ws_queue_name := q |>) r in
  let r := set_if (u_resetDeduplicationID u) (fun r => r <| ws_deduplication_id := None |>) r in
  let r := set_if (u_resetStartedAtEpochMs u)
             (fun r => r <| ws_started_at_epoch_ms := None |>) r in
  let r := set_some (u_executorId u) (fun x r => r <| ws_executor_id := Some x |>) r in
  let r := set_some (u_resetNameTo u) (fun n r => r <| ws_name := n |>) r in
  if u_setCompletedAt u then r <| ws_completed_at := Some nowMs |>
  else set_if (u_clearCompletedAt u) (fun r => r <| ws_completed_at := None |>) r.

Definition update_matches (workflowID : string) (w : UpdateWhere) (id : string) (r : wf_row)
    : bool :=
  bool_decide (id = workflowID)
  && match w_status w with Some s => bool_decide (ws_status r = s) | None => true end
  && match w_notStatus w with Some s => negb (bool_decide (ws_status r = s)) | None => true end.

Definition updateWorkflowStatus (nowMs : Z) (workflowID : string) (status : StatusString)
    (u : UpdateFields) (w : UpdateWhere) (throwOnFailure : bool) : DB unit :=
  let* rows := update_workflow_status (update_matches workflowID w) (update_set nowMs status u) in
  if throwOnFailure && negb (bool_decide (length rows = 1%nat))
  then throw (DBOSWorkflowConflictError
                ("Attempt to record transition of nonexistent workflow " +:+ workflowID))
  else ret tt.

(** * Creating: [initWorkflowStatus] *)

(** [maxRetries && attempts > maxRetries + 1] *)
Definition attempts_exceeded (maxRetries : option Z) (attempts : Z) : option Z :=
  match truthy_num maxRetries with
  | Some m => if m + 1 <? attempts then Some m else None
  | None => None
  end.

(** [now] is [Date.now()] and [nowMs] SQL's [now()].  The transaction is written
    out: what [finally] commits depends on [shouldCommit], so an exception thrown
    after it is set leaves its updates in place. *)
Definition initWorkflowStatus (now nowMs : Z) (s : WorkflowStatusInternal)
    (ownerXid : option string) (isRecoveryRequest isDequeuedRequest : bool)
    (maxRetries : option Z) : DB InitWorkflowResult := fun d =>
  match insertWorkflowStatus now s ownerXid (isRecoveryRequest || isDequeuedRequest) d with
  | (Throw e, _) => (Throw e, d)
  | (Ok (resRow, s), d1) =>
      let id := i_workflowUUID s in
      let conflict msg := (Throw (DBOSConflictingWorkflowError id msg), d) in
      let result (run : bool) :=
        {| init_status := r_status resRow;
           init_shouldExecuteOnThisExecutor := run;
           init_deadlineEpochMS := r_workflow_deadline_epoch_ms resRow;
           init_serialization := r_serialization resRow |} in
      if negb (bool_decide (r_name resRow = i_workflowName s)) then
        conflict ("Workflow already exists with a different function name: " +:+ r_name resRow
          +:+ ", but the provided function name is: " +:+ i_workflowName s)
      else if negb (bool_decide (r_class_name resRow = i_workflowClassName s)) then
        conflict ("Workflow already exists with a different class name: " +:+ r_class_name resRow
          +:+ ", but the provided class name is: " +:+ i_workflowClassName s)
      else if negb (bool_decide (r_config_name resRow = i_workflowConfigName s)) then
        conflict ("Workflow already exists with a different class configuration: "
          +:+ r_config_name resRow +:+ ", but the provided class configuration is: "
          +:+ i_workflowConfigName s)
      else if negb (opt_eqb ownerXid (r_owner_xid resRow))
              && negb isRecoveryRequest && negb isDequeuedRequest then
        if bool_decide (r_status resRow = MAX_RECOVERY_ATTEMPTS_EXCEEDED)
        then (Throw (DBOSMaxRecoveryAttemptsExceededError id (default (-1) maxRetries)), d)
        else (Ok (result false), d)
      else
        match attempts_exceeded maxRetries (r_recovery_attempts resRow) with
        | Some m =>
            match updateWorkflowStatus nowMs id MAX_RECOVERY_ATTEMPTS_EXCEEDED
                    (no_update <| u_resetDeduplicationID := true |>)
                    (UpdateWhereOf (Some PENDING) None) false d1 with
            | (Throw e, _) => (Throw e, d)
            | (Ok _, d2) => (Throw (DBOSMaxRecoveryAttemptsExceededError id m), d2)
            end
        | None => (Ok (result true), d1)
        end
  end.

(** * The attributes of a workflow *)

(** What [validateWorkflowAttributes] can be given: nothing, a value that is no key-value
    object (with the name of its type), or an object with its keys and what [JSON.stringify]
    makes of it, or the message of what that throws. *)
Inductive attributes : Type :=
| NoAttributes
| NotAnObject (type : string)
| Attributes (keys : list string) (serialized : string + json).

(** [validateWorkflowAttributes] *)
Definition validateWorkflowAttributes (a : attributes) : option dbos_error :=
  match a with
  | NoAttributes => None
  | NotAnObject t => Some (DBOSError ("Invalid workflow attributes: must be a key-value object, got "
                                      +:+ t +:+ "."))
  | Attributes _ (inl message) =>
      Some (DBOSError ("Invalid workflow attributes: must be JSON-serializable. " +:+ message))
  | Attributes keys (inr j) =>
      match j, keys with
      | JObj [], _ :: _ =>
          Some (DBOSError "Invalid workflow attributes: object has no JSON-serializable properties.")
      | _, _ => None
      end
  end.

Definition attributes_json (a : attributes) : option json :=
  match a with Attributes _ (inr j) => Some j | _ => None end.

(** * Batch enqueueing: [enqueueWorkflows] *)

(** [#maxPartitionKeyCreatedAt]: the highest [created_at] of the ENQUEUED and
    PENDING rows of each of the [keys]. *)
Definition max_created_at (rows : list (string * wf_row)) : option Z :=
  max_of (fun kr => ws_created_at kr.2) rows.

Definition maxPartitionKeyCreatedAt (keys : list string) (d : sysdb) : gmap string Z :=
  list_to_map (omap (fun key =>
    (pair key) <$> max_created_at (select_where (fun _ r =>
      sql_eqb (ws_queue_partition_key r) key
      && (bool_decide (ws_status r = ENQUEUED) || bool_decide (ws_status r = PENDING)))
      (workflow_status d))) keys).

(** The seeding loop: a seeded key starts at least one past the stored maximum. *)
Definition seed_cursors (seeds cursors : gmap string Z) : gmap string Z :=
  merge (fun seed c =>
    match seed with
    | Some m => Some (Z.max (default 0 c) (m + 1))
    | None => c
    end) seeds cursors.

(** The stamping loop over the statuses, threading [nextForKey]. *)
Fixpoint stamp (nowMS : Z) (cursors nextForKey : gmap string Z)
    (statuses : list WorkflowStatusInternal) : list Z * gmap string Z :=
  match statuses with
  | [] => ([], nextForKey)
  | s :: rest =>
      match i_queuePartitionKey s with
      | None =>
          let (ts, next) := stamp nowMS cursors nextForKey rest in (nowMS :: ts, next)
      | Some key =>
          let value := default (Z.max nowMS (default 0 (cursors !! key))) (nextForKey !! key) in
          let (ts, next) := stamp nowMS cursors (<[key := value + 1]> nextForKey) rest in
          (value :: ts, next)
      end
  end.

(** [#assignBatchCreatedAt]: [cursors] is [#batchCreatedAtCursors] and the result
    holds its new value. *)
Definition assignBatchCreatedAt (nowMS : Z) (statuses : list WorkflowStatusInternal)
    (cursors : gmap string Z) (d : sysdb) : list Z * gmap string Z :=
  let batchKeys := remove_dups (omap i_queuePartitionKey statuses) in
  let unseen := filter (fun key => cursors !! key = None) batchKeys in
  let cursors := seed_cursors (maxPartitionKeyCreatedAt unseen d) cursors in
  let (createdAts, nextForKey) := stamp nowMS cursors ∅ statuses in
  (createdAts, nextForKey ∪ cursors).

(** The row of one status of the batch: unlike [insertWorkflowStatus] the batch
    starts with no recovery attempts, [updated_at = created_at], and no owner. *)
Definition batch_row (createdAt : Z) (s : WorkflowStatusInternal) : wf_row :=
  status_to_row createdAt (s <| i_createdAt := createdAt |> <| i_updatedAt := Some createdAt |>
                             <| i_deduplicationID := None |> <| i_forkedFrom := None |>
                             <| i_debounceDeadlineEpochMS := None |> <| i_isDebounced := false |>)
    None
    <| ws_recovery_attempts := 0 |>.

(** [INSERT ... ON CONFLICT (workflow_uuid) DO NOTHING RETURNING workflow_uuid] *)
Definition insert_do_nothing (id : string) (r : wf_row) : DB (list string) := fun d =>
  match workflow_status d !! id with
  | Some _ => (Ok [], d)
  | None => bind (insert_workflow_status id r) (fun _ => ret [id]) d
  end.

Fixpoint insert_chunk (rows : list (string * wf_row)) : DB (list string) :=
  match rows with
  | [] => ret []
  | (id, r) :: rows' =>
      let* a := insert_do_nothing id r in
      let* b := insert_chunk rows' in
      ret (a ++ b)
  end.

(** [for (let start = 0; start < n; start += chunkSize)]; [fuel] bounds the number
    of chunks and the length of the list is enough. *)
Fixpoint insert_chunks (fuel : nat) (chunkSize : nat) (rows : list (string * wf_row))
    : DB (list string) :=
  match fuel, rows with
  | S fuel', _ :: _ =>
      let* a := insert_chunk (take chunkSize rows) in
      let* b := insert_chunks fuel' chunkSize (drop chunkSize rows) in
      ret (a ++ b)
  | _, _ => ret []
  end.

(** The two argument checks, in the order of the loop. *)
Fixpoint check_batch (statuses : list WorkflowStatusInternal) : option dbos_error :=
  match statuses with
  | [] => None
  | s :: rest =>
      if negb (bool_decide (i_status s = ENQUEUED)) then
        Some (DBOSError ("enqueueWorkflows only accepts ENQUEUED workflows, but "
                +:+ i_workflowUUID s +:+ " is " +:+ status_string (i_status s)))
      else match i_deduplicationID s with
           | Some _ => Some (DBOSError ("enqueueWorkflows does not support deduplication IDs, but "
                               +:+ i_workflowUUID s +:+ " has one"))
           | None => check_batch rest
           end
  end.

(** [enqueueWorkflows]: the inserted IDs and the new cursors.  The store is the
    database; the cursors live in the [SystemDatabase] object and are advanced
    even when the insert fails. *)
Definition enqueueWorkflows (nowMS : Z) (statuses : list WorkflowStatusInternal)
    (cursors : gmap string Z) (d : sysdb)
    : outcome dbos_error (list string) * gmap string Z * sysdb :=
  match statuses with
  | [] => (Ok [], cursors, d)
  | _ =>
      match check_batch statuses with
      | Some e => (Throw e, cursors, d)
      | None =>
          let (createdAts, cursors') := assignBatchCreatedAt nowMS statuses cursors d in
          let rows := zip_with (fun s t => (i_workflowUUID s, batch_row t s)) statuses createdAts in
          let (o, d') := transaction (insert_chunks (length rows) 500 rows) d in
          (o, cursors', d')
      end
  end.

(** * Outcomes *)

(** [#recordWorkflowOutcome] *)
Definition recordWorkflowOutcome (nowMs : Z) (workflowID : string) (status : StatusString)
    (output error : option string) : DB unit :=
  let* cancelled := transaction (
    updateWorkflowStatus nowMs workflowID status
      (no_update <| u_output := output |> <| u_error := error |>
                 <| u_resetDeduplicationID := true |> <| u_setCompletedAt := true |>)
      (UpdateWhereOf None (Some CANCELLED)) false ;*
    let* v := getWorkflowStatusValue workflowID in
    ret (opt_eqb v (Some CANCELLED))) in
  if cancelled then throw (DBOSWorkflowCancelledError workflowID) else ret tt.

Definition recordWorkflowOutput (nowMs : Z) (workflowID : string)
    (status : WorkflowStatusInternal) : DB unit :=
  recordWorkflowOutcome nowMs workflowID SUCCESS (i_output status) None.

Definition recordWorkflowError (nowMs : Z) (workflowID : string)
    (status : WorkflowStatusInternal) : DB unit :=
  recordWorkflowOutcome nowMs workflowID ERROR None (i_error status).

(** * Recovery *)

Definition pending_on (executorID appVersion : string) (r : wf_row) : bool :=
  bool_decide (ws_status r = PENDING) && sql_eqb (ws_executor_id r) executorID
  && sql_eqb (ws_application_version r) appVersion.

(** [getPendingWorkflows] *)
Definition getPendingWorkflows (executorID appVersion : string) : DB (list string) := fun d =>
  (Ok (select_where (fun _ => pending_on executorID appVersion) (workflow_status d)).*1, d).

(** The SET clause of the recovery sweep *)
Definition reenqueued (now : Z) (recoveryQueueName : string) (r : wf_row) : wf_row :=
  r <| ws_started_at_epoch_ms := None |> <| ws_status := ENQUEUED |>
    <| ws_updated_at := now |>
    <| ws_queue_name := Some (default recoveryQueueName (ws_queue_name r)) |>.

(** [reenqueueWorkflowsForRecovery] *)
Definition reenqueueWorkflowsForRecovery (now : Z)
    (executorID appVersion recoveryQueueName : string) : DB (list string) :=
  update_workflow_status (fun _ => pending_on executorID appVersion)
    (reenqueued now recoveryQueueName).

(** [setWorkflowStatus], which only tests call. *)
Definition setWorkflowStatus (nowMs : Z) (workflowID : string) (status : StatusString)
    (resetRecoveryAttempts : bool) (updateName : option string) : DB unit :=
  updateWorkflowStatus nowMs workflowID status
    (no_update <| u_resetRecoveryAttempts := resetRecoveryAttempts |>
               <| u_resetNameTo := updateName |>)
    (UpdateWhereOf None None) true.

(** * Lemmas *)

Lemma insertWorkflowStatus_exists now s xid inc d old :
  workflow_status d !! i_workflowUUID s = Some old ->
  insertWorkflowStatus now s xid inc d =
    let r := on_conflict_update (if inc then 1 else 0) (status_to_row now s xid) old in
    (Ok (insert_result r, s <| i_serialization := ws_serialization r |>),
     d <| workflow_status ::= <[i_workflowUUID s := r]> |>).
Proof. unfold insertWorkflowStatus. by intros ->. Qed.

Lemma insertWorkflowStatus_throw now s xid inc d e d' :
  insertWorkflowStatus now s xid inc d = (Throw e, d') ->
  d' = d /\ e = DBOSQueueDuplicatedError (i_workflowUUID s)
                  (default "" (i_queueName s)) (default "" (i_deduplicationID s)).
Proof.
  unfold insertWorkflowStatus. destruct (workflow_status d !! _); [naive_solver|].
  destruct (insert_workflow_status _ _ d) as [[[]|e'] d1] eqn:E; [naive_solver|].
  apply insert_workflow_status_err in E as [_ ->]. naive_solver.
Qed.

Section set_clause.
Context {T : Type} (proj : wf_row -> T).

Lemma proj_set_some {A} (o : option A) f r :
  (forall a r, proj (f a r) = proj r) -> proj (set_some o f r) = proj r.
Proof. intros Hf. by destruct o; simpl. Qed.

Lemma proj_set_if b f r : (forall r, proj (f r) = proj r) -> proj (set_if b f r) = proj r.
Proof. intros Hf. by destruct b; simpl. Qed.

Lemma proj_set_completed (b c : bool) n r :
  (forall v r, proj (r <| ws_completed_at := v |>) = proj r) ->
  proj (if b then r <| ws_completed_at := n |>
        else set_if c (fun r => r <| ws_completed_at := None |>) r) = proj r.
Proof. intros Hf. destruct b, c; simpl; try done; apply (Hf _ r). Qed.

End set_clause.

(** Reduce a projection of the SET clause past the fields it does not read. *)
Ltac proj_set p := repeat first
  [ rewrite (proj_set_completed p) by reflexivity
  | rewrite (proj_set_some p) by reflexivity
  | rewrite (proj_set_if p) by reflexivity ].

Lemma update_set_status nowMs st u r : ws_status (update_set nowMs st u r) = st.
Proof. unfold update_set. by proj_set ws_status. Qed.

Lemma update_set_queue nowMs st u r :
  u_queueName u = None -> ws_queue_name (update_set nowMs st u r) = ws_queue_name r.
Proof. intros Hq. unfold update_set. rewrite Hq. proj_set ws_queue_name. simpl. by proj_set ws_queue_name. Qed.

Lemma update_set_dedup nowMs st u r :
  ws_deduplication_id (update_set nowMs st u r)
  = if u_resetDeduplicationID u then None else ws_deduplication_id r.
Proof.
  unfold update_set. proj_set ws_deduplication_id.
  destruct (u_resetDeduplicationID u); simpl; by proj_set ws_deduplication_id.
Qed.

Lemma update_set_dedup_safe nowMs st u :
  u_queueName u = None -> dedup_safe (update_set nowMs st u).
Proof.
  intros Hq r. rewrite update_set_dedup, update_set_queue by done.
  destruct (u_resetDeduplicationID u); auto.
Qed.

(** An [updateWorkflowStatus] that does not move queues never violates the index,
    and rewrites exactly the row of [workflowID], when its WHERE clause holds. *)
Lemma updateWorkflowStatus_run nowMs id st u w d r :
  dedup_unique (workflow_status d) -> u_queueName u = None ->
  workflow_status d !! id = Some r -> update_matches id w id r = true ->
  updateWorkflowStatus nowMs id st u w false d
  = (Ok tt, d <| workflow_status ::= <[id := update_set nowMs st u r]> |>).
Proof.
  intros Hu Hq Hr Hm. unfold updateWorkflowStatus, bind.
  rewrite update_workflow_status_ok; [|done|by apply update_set_dedup_safe]. simpl.
  unfold ret. do 2 f_equal. apply map_eq. intros k. rewrite lookup_update_where.
  destruct (decide (k = id)) as [->|Hne].
  - rewrite Hr. simpl. rewrite Hm. by simplify_map_eq.
  - simplify_map_eq. unfold update_matches. rewrite bool_decide_false by done.
    simpl. by destruct (workflow_status d !! k).
Qed.

Lemma update_where_none {K A} `{Countable K} (p : K -> A -> bool) f (t : gmap K A) :
  (forall k r, t !! k = Some r -> p k r = false) -> update_where p f t = t.
Proof.
  intros Hp. apply map_eq. intros k. rewrite lookup_update_where.
  destruct (t !! k) as [r|] eqn:E; [|done]. simpl. by rewrite (Hp _ _ E).
Qed.

Lemma sysdb_workflow_status_id (d : sysdb) t :
  t = workflow_status d -> d <| workflow_status := t |> = d.
Proof. intros ->. by destruct d. Qed.

Lemma update_status_none (d : sysdb) p f :
  (forall k r, workflow_status d !! k = Some r -> p k r = false) ->
  d <| workflow_status ::= update_where p f |> = d.
Proof.
  intros Hp. transitivity (d <| workflow_status := workflow_status d |>); [|by destruct d].
  simpl. by rewrite update_where_none.
Qed.

Lemma updateWorkflowStatus_skip nowMs id st u w d :
  dedup_unique (workflow_status d) -> u_queueName u = None ->
  (forall r, workflow_status d !! id = Some r -> update_matches id w id r = false) ->
  updateWorkflowStatus nowMs id st u w false d = (Ok tt, d).
Proof.
  intros Hu Hq Hm. unfold updateWorkflowStatus, bind.
  rewrite update_workflow_status_ok; [|done|by apply update_set_dedup_safe]. simpl.
  unfold ret. f_equal. apply sysdb_workflow_status_id. apply update_where_none.
  intros k r Hr. destruct (decide (k = id)) as [->|]; [by apply Hm|].
  unfold update_matches. by rewrite bool_decide_false.
Qed.

Lemma preserves_updateWorkflowStatus nowMs id st u w b :
  preserves db_ok (updateWorkflowStatus nowMs id st u w b).
Proof.
  unfold updateWorkflowStatus. apply preserves_bind; [auto with preserves|].
  intros. destruct (_ && _); auto with preserves.
Qed.

Lemma preserves_getWorkflowStatusValue id : preserves db_ok (getWorkflowStatusValue id).
Proof. by intros d. Qed.

Lemma db_ok_upsert d id r old :
  db_ok d -> workflow_status d !! id = Some old ->
  ws_queue_name r = ws_queue_name old -> ws_deduplication_id r = ws_deduplication_id old ->
  db_ok (d <| workflow_status ::= <[id := r]> |>).
Proof.
  intros Hd Hold Hq Hdd.
  assert (<[id := r]> (workflow_status d)
          = update_where (fun k _ => bool_decide (k = id)) (fun _ => r) (workflow_status d)) as E.
  { apply map_eq. intros k. rewrite lookup_update_where.
    destruct (decide (k = id)) as [->|].
    - rewrite Hold. simpl. rewrite bool_decide_true by done. by simplify_map_eq.
    - simplify_map_eq. rewrite bool_decide_false by done. by destruct (workflow_status d !! k). }
  pose proof (db_ok_update_wf (fun k _ => bool_decide (k = id)) (fun _ => r) d) as Hk.
  simpl in Hk |- *. rewrite <- E in Hk. apply Hk; [|done].
  intros k1 k2 r1 r2 H1 H2 Hne. pose proof (ok_dedup _ Hd) as Hu.
  destruct (decide (k1 = id)) as [->|]; destruct (decide (k2 = id)) as [->|];
    simplify_map_eq.
  - rewrite (dedup_clash_congr old r1 r2 r2); eauto.
  - rewrite (dedup_clash_congr r1 r1 old r2); eauto.
  - eauto.
Qed.

Lemma preserves_insertWorkflowStatus now s xid inc :
  preserves db_ok (insertWorkflowStatus now s xid inc).
Proof.
  intros d Hd. unfold insertWorkflowStatus.
  destruct (workflow_status d !! _) as [old|] eqn:E.
  - simpl. by apply (db_ok_upsert d _ _ old).
  - pose proof (preserves_insert_workflow_status (i_workflowUUID s)
      (status_to_row now s xid) d Hd) as Hp.
    by destruct (insert_workflow_status _ _ d) as [[]].
Qed.

#[export] Hint Resolve preserves_updateWorkflowStatus preserves_getWorkflowStatusValue
  preserves_insertWorkflowStatus : preserves.

Lemma preserves_initWorkflowStatus now nowMs s xid rec deq mx :
  preserves db_ok (initWorkflowStatus now nowMs s xid rec deq mx).
Proof.
  intros d Hd. unfold initWorkflowStatus.
  pose proof (preserves_insertWorkflowStatus now s xid (rec || deq) d Hd) as Hi.
  destruct (insertWorkflowStatus _ _ _ _ d) as [[[rr s']|e] d1]; [|done]. simpl in Hi.
  repeat (case_match; try done). 
  all: match goal with
       | H : updateWorkflowStatus ?a ?b ?c ?u ?w ?t _ = _ |- _ =>
           pose proof (preserves_updateWorkflowStatus a b c u w t _ Hi) as Hp; rewrite H in Hp
       end; done.
Qed.

(** The stored row agrees with the submitted one on the fields that name the
    workflow function. *)
Definition same_function (s : WorkflowStatusInternal) (r : wf_row) : Prop :=
  ws_name r = i_workflowName s
  /\ default "" (ws_class_name r) = i_workflowClassName s
  /\ default "" (ws_config_name r) = i_workflowConfigName s.

#[export] Instance same_function_dec s r : Decision (same_function s r).
Proof. unfold same_function. apply _. Defined.

Lemma status_to_row_same_function now s xid : same_function s (status_to_row now s xid).
Proof.
  unfold same_function, null_if_empty. simpl.
  by destruct (i_workflowClassName s), (i_workflowConfigName s).
Qed.

(** The branches of [initWorkflowStatus] after the upsert succeeded. *)
Lemma init_after_upsert now nowMs s xid rec deq mx d r d1 :
  insertWorkflowStatus now s xid (rec || deq) d
    = (Ok (insert_result r, s <| i_serialization := ws_serialization r |>), d1) ->
  same_function s r ->
  let id := i_workflowUUID s in
  let result (run : bool) :=
    {| init_status := ws_status r; init_shouldExecuteOnThisExecutor := run;
       init_deadlineEpochMS := ws_workflow_deadline_epoch_ms r;
       init_serialization := ws_serialization r |} in
  initWorkflowStatus now nowMs s xid rec deq mx d =
    if negb (opt_eqb xid (ws_owner_xid r)) && negb rec && negb deq then
      if bool_decide (ws_status r = MAX_RECOVERY_ATTEMPTS_EXCEEDED)
      then (Throw (DBOSMaxRecoveryAttemptsExceededError id (default (-1) mx)), d)
      else (Ok (result false), d)
    else match attempts_exceeded mx (ws_recovery_attempts r) with
         | Some m =>
             match updateWorkflowStatus nowMs id MAX_RECOVERY_ATTEMPTS_EXCEEDED
                     (no_update <| u_resetDeduplicationID := true |>)
                     (UpdateWhereOf (Some PENDING) None) false d1 with
             | (Throw e, _) => (Throw e, d)
             | (Ok _, d2) => (Throw (DBOSMaxRecoveryAttemptsExceededError id m), d2)
             end
         | None => (Ok (result true), d1)
         end.
Proof.
  intros Hi (Hn & Hc & Hg). unfold initWorkflowStatus. rewrite Hi. simpl.
  rewrite (bool_decide_true _ Hn), (bool_decide_true _ Hc), (bool_decide_true _ Hg). done.
Qed.

Lemma on_conflict_same_function s inc ex old :
  same_function s old -> same_function s (on_conflict_update inc ex old).
Proof. done. Qed.

(** Starting a workflow under an ID another invocation owns does not touch the
    database: the caller gets the stored status and is told not to execute, or, when
    the stored workflow is dead-lettered, the max-recovery-attempts error. *)
Theorem init_existing_is_readonly now nowMs s xid mx d old :
  workflow_status d !! i_workflowUUID s = Some old ->
  same_function s old -> ws_owner_xid old <> xid ->
  initWorkflowStatus now nowMs s xid false false mx d =
  (if decide (ws_status old = MAX_RECOVERY_ATTEMPTS_EXCEEDED)
   then Throw (DBOSMaxRecoveryAttemptsExceededError (i_workflowUUID s) (default (-1) mx))
   else Ok {| init_status := ws_status old; init_shouldExecuteOnThisExecutor := false;
              init_deadlineEpochMS := ws_workflow_deadline_epoch_ms old;
              init_serialization := ws_serialization old |}, d).
Proof.
  intros Hold Hsame Hxid.
  erewrite init_after_upsert;
    [|by rewrite (insertWorkflowStatus_exists _ _ _ _ _ _ Hold)|by apply on_conflict_same_function].
  simpl. unfold opt_eqb. rewrite bool_decide_false by congruence. simpl.
  case_decide as E; [by rewrite bool_decide_true | by rewrite bool_decide_false].
Qed.

(** Whatever [initWorkflowStatus] throws other than the max-recovery error, and
    whenever it tells the caller not to execute, the database is exactly what it was:
    the upsert it ran first is rolled back. *)
Theorem init_failure_rolls_back now nowMs s xid rec deq mx d o d' :
  initWorkflowStatus now nowMs s xid rec deq mx d = (o, d') ->
  match o with
  | Throw (DBOSMaxRecoveryAttemptsExceededError _ _) => True
  | Throw _ => d' = d
  | Ok res => init_shouldExecuteOnThisExecutor res = true \/ d' = d
  end.
Proof.
  unfold initWorkflowStatus. intros H.
  destruct (insertWorkflowStatus _ _ _ _ d) as [[[rr s']|e] d1] eqn:E.
  - repeat (case_match; simplify_eq/=; try done; auto).
  - apply insertWorkflowStatus_throw in E as [_ ->]. by simplify_eq.
Qed.

Lemma init_fresh_cases now nowMs s xid mx d :
  dedup_unique (workflow_status d) ->
  workflow_status d !! i_workflowUUID s = None ->
  (forall m, mx = Some m -> 0 <= m) ->
  let row := status_to_row now s xid in
  (exists k r, workflow_status d !! k = Some r /\ dedup_clash row r = true)
  /\ initWorkflowStatus now nowMs s xid false false mx d =
     (Throw (DBOSQueueDuplicatedError (i_workflowUUID s) (default "" (i_queueName s))
               (default "" (i_deduplicationID s))), d)
  \/ (forall k r, workflow_status d !! k = Some r -> dedup_clash row r = false)
  /\ initWorkflowStatus now nowMs s xid false false mx d =
     (Ok {| init_status := i_status s; init_shouldExecuteOnThisExecutor := true;
            init_deadlineEpochMS := i_deadlineEpochMS s;
            init_serialization := i_serialization s |},
      d <| workflow_status ::= <[i_workflowUUID s := row]> |>).
Proof.
  intros Hu Hn Hmx row.
  destruct (select_where (fun _ r => dedup_clash row r) (workflow_status d))
    as [|[k r] l] eqn:Es.
  - right. rewrite select_where_nil in Es. split; [done|].
    erewrite init_after_upsert with (r := row) (d1 := _).
    + simpl. unfold opt_eqb. rewrite bool_decide_true by done. simpl.
      unfold attempts_exceeded, truthy_num. destruct mx as [[|p|p]|]; try done.
      * rewrite (proj2 (Z.ltb_ge _ _)); [done|].
        subst row; simpl; destruct (is_queued _); lia.
      * specialize (Hmx _ eq_refl). lia.
    + unfold insertWorkflowStatus. rewrite Hn.
      by rewrite insert_workflow_status_fresh.
    + apply status_to_row_same_function.
  - left. assert ((k, r) ∈ select_where (fun _ r => dedup_clash row r) (workflow_status d))
      as Hin by (rewrite Es; set_solver).
    apply elem_of_select_where in Hin as [Hk Hc]. split; [eauto|].
    unfold initWorkflowStatus, insertWorkflowStatus. rewrite Hn.
    by erewrite insert_workflow_status_clash.
Qed.

(** Creating a workflow under a fresh ID either inserts exactly the submitted row
    and lets this executor run it, or, when another workflow of the queue holds the
    deduplication ID, throws the deduplication error and changes nothing. *)
Theorem init_fresh now nowMs s xid mx d :
  dedup_unique (workflow_status d) ->
  workflow_status d !! i_workflowUUID s = None ->
  (forall m, mx = Some m -> 0 <= m) ->
  let row := status_to_row now s xid in
  (exists k r, workflow_status d !! k = Some r /\ dedup_clash row r = true)
  /\ initWorkflowStatus now nowMs s xid false false mx d =
     (Throw (DBOSQueueDuplicatedError (i_workflowUUID s) (default "" (i_queueName s))
               (default "" (i_deduplicationID s))), d)
  \/ (forall k r, workflow_status d !! k = Some r -> dedup_clash row r = false)
  /\ initWorkflowStatus now nowMs s xid false false mx d =
     (Ok {| init_status := i_status s; init_shouldExecuteOnThisExecutor := true;
            init_deadlineEpochMS := i_deadlineEpochMS s;
            init_serialization := i_serialization s |},
      d <| workflow_status ::= <[i_workflowUUID s := row]> |>).
Proof. apply init_fresh_cases. Qed.

(** Re-dispatching a PENDING workflow once: the attempt is counted, and the workflow
    is dead-lettered when the count passes [m + 1]. *)
Definition redispatch (now nowMs : Z) (s : WorkflowStatusInternal) (xid : option string)
    (m : Z) (d : sysdb) : outcome dbos_error InitWorkflowResult * sysdb :=
  initWorkflowStatus now nowMs s xid false true (Some m) d.

Lemma redispatch_step now nowMs s xid m d old :
  db_ok d -> 0 < m -> i_status s = PENDING ->
  workflow_status d !! i_workflowUUID s = Some old ->
  same_function s old -> ws_status old = PENDING ->
  exists r, workflow_status (redispatch now nowMs s xid m d).2 !! i_workflowUUID s = Some r
    /\ same_function s r
    /\ ws_recovery_attempts r = ws_recovery_attempts old + 1
    /\ if decide (m + 1 < ws_recovery_attempts old + 1)
       then ws_status r = MAX_RECOVERY_ATTEMPTS_EXCEEDED /\ ws_deduplication_id r = None
            /\ (redispatch now nowMs s xid m d).1
               = Throw (DBOSMaxRecoveryAttemptsExceededError (i_workflowUUID s) m)
       else ws_status r = PENDING
            /\ init_shouldExecuteOnThisExecutor
               <$> (match (redispatch now nowMs s xid m d).1 with Ok x => Some x | _ => None end)
               = Some true.
Proof.
  intros Hd Hm Hs Hold Hsame Hp. unfold redispatch.
  pose proof (preserves_insertWorkflowStatus now s xid true d Hd) as Hd1.
  pose proof (insertWorkflowStatus_exists now s xid true d old Hold) as Hins.
  set (r1 := on_conflict_update 1 (status_to_row now s xid) old) in *.
  simpl in Hins. fold r1 in Hins. rewrite Hins in Hd1. simpl in Hd1.
  assert (ws_recovery_attempts r1 = ws_recovery_attempts old + 1) as Ha
    by (unfold r1, on_conflict_update, is_queued; simpl; by rewrite Hp).
  assert (same_function s r1) as Hsame1 by done.
  rewrite (init_after_upsert now nowMs s xid false true (Some m) d r1 _ Hins Hsame1).
  rewrite !andb_false_r. unfold attempts_exceeded. rewrite Ha.
  destruct m as [|p|p]; try lia. cbn -[Z.ltb Z.add].
  case_decide as E.
  - rewrite (proj2 (Z.ltb_lt _ _) E).
    rewrite (updateWorkflowStatus_run _ _ _ _ _ _ r1); [| by destruct Hd1 | done | |].
    + cbn -[update_set]. exists (update_set nowMs MAX_RECOVERY_ATTEMPTS_EXCEEDED
        (no_update <| u_resetDeduplicationID := true |>) r1).
      rewrite lookup_insert_eq. by rewrite update_set_status.
    + simpl. by simplify_map_eq.
    + unfold update_matches. simpl. rewrite bool_decide_true by done.
      by rewrite Hp.
  - rewrite (proj2 (Z.ltb_ge _ _)) by lia. simpl. exists r1. by simplify_map_eq.
Qed.

(** C11: a workflow that crashes its executor every time it is dispatched is
    re-dispatched at most until [maxRetries + 1] attempts are counted, each counted
    attempt being allowed to run, and the next dispatch moves it to
    MAX_RECOVERY_ATTEMPTS_EXCEEDED and throws. *)
Theorem crash_loop_dead_letters now nowMs s xid m d old :
  db_ok d -> 0 < m -> i_status s = PENDING ->
  workflow_status d !! i_workflowUUID s = Some old -> same_function s old ->
  ws_status old = PENDING -> ws_recovery_attempts old <= m + 1 ->
  let dispatched n := Nat.iter n (fun d => (redispatch now nowMs s xid m d).2) d in
  let last := Z.to_nat (m + 1 - ws_recovery_attempts old) in
  (forall n, (n <= last)%nat -> exists r,
     workflow_status (dispatched n) !! i_workflowUUID s = Some r
     /\ ws_status r = PENDING
     /\ ws_recovery_attempts r = ws_recovery_attempts old + Z.of_nat n)
  /\ (redispatch now nowMs s xid m (dispatched last)).1
     = Throw (DBOSMaxRecoveryAttemptsExceededError (i_workflowUUID s) m)
  /\ exists r, workflow_status (dispatched (S last)) !! i_workflowUUID s = Some r
       /\ ws_status r = MAX_RECOVERY_ATTEMPTS_EXCEEDED /\ ws_deduplication_id r = None.
Proof.
  intros Hd Hm Hs Hold Hsame Hp Hle dispatched last.
  assert (forall n, db_ok (dispatched n)) as Hok.
  { intros n. induction n as [|n IH]; [done|]. by apply preserves_initWorkflowStatus. }
  assert (forall n, (n <= last)%nat -> exists r,
     workflow_status (dispatched n) !! i_workflowUUID s = Some r /\ same_function s r
     /\ ws_status r = PENDING
     /\ ws_recovery_attempts r = ws_recovery_attempts old + Z.of_nat n) as Hn.
  { intros n. induction n as [|n IH]; intros Hlt.
    - exists old. simpl. repeat split; try apply Hsame; auto with lia.
    - destruct IH as (r & Hr & Hsr & Hpr & Har); [lia|].
      destruct (redispatch_step now nowMs s xid m _ r (Hok n) Hm Hs Hr Hsr Hpr)
        as (r' & Hr' & Hsr' & Har' & Hb).
      exists r'. rewrite decide_False in Hb by (subst last; lia).
      destruct Hb as [Hb _]. split; [done|]. split; [done|]. split; [done|]. lia. }
  split; [intros n Hlt; destruct (Hn n Hlt) as (r & ? & ? & ? & ?); eauto|].
  destruct (Hn last (le_n _)) as (r & Hr & Hsr & Hpr & Har).
  destruct (redispatch_step now nowMs s xid m _ r (Hok last) Hm Hs Hr Hsr Hpr)
    as (r' & Hr' & _ & _ & Hb).
  rewrite decide_True in Hb by (subst last; lia).
  destruct Hb as (? & ? & ?). eauto.
Qed.

(** * Outcomes *)

Definition outcome_update (output error : option string) : UpdateFields :=
  no_update <| u_output := output |> <| u_error := error |>
            <| u_resetDeduplicationID := true |> <| u_setCompletedAt := true |>.

(** The cases of an outcome *)
Lemma recordWorkflowOutcome_run nowMs id st output error d :
  db_ok d -> st <> CANCELLED ->
  recordWorkflowOutcome nowMs id st output error d =
  match workflow_status d !! id with
  | None => (Ok tt, d)
  | Some r =>
      if decide (ws_status r = CANCELLED)
      then (Throw (DBOSWorkflowCancelledError id), d)
      else (Ok tt, d <| workflow_status ::=
                     <[id := r <| ws_status := st |> <| ws_updated_at := nowMs |>
                               <| ws_output := match truthy_str output with
                                               | Some o => Some o | None => ws_output r end |>
                               <| ws_error := match truthy_str error with
                                              | Some e => Some e | None => ws_error r end |>
                               <| ws_deduplication_id := None |>
                               <| ws_completed_at := Some nowMs |>]> |>)
  end.
Proof.
  intros Hd Hst. pose proof (ok_dedup _ Hd) as Hu.
  unfold recordWorkflowOutcome. unfold bind at 1. unfold transaction, bind.
  destruct (workflow_status d !! id) as [r|] eqn:Hr; [case_decide as Hc|].
  - rewrite updateWorkflowStatus_skip; [|done|done|].
    + simpl. rewrite Hr. simpl. by rewrite Hc.
    + intros r' Hr'. simplify_eq. unfold update_matches. simpl.
      rewrite (bool_decide_true _ Hc). by rewrite !andb_false_r.
  - erewrite updateWorkflowStatus_run; [|done|done|done|].
    + cbn -[update_set]. rewrite lookup_insert_eq. cbn -[update_set].
      rewrite update_set_status. unfold opt_eqb.
      rewrite bool_decide_false by congruence. unfold ret. do 3 f_equal.
      unfold update_set. simpl. by destruct (truthy_str output), (truthy_str error).
    + unfold update_matches. simpl. rewrite bool_decide_true by done.
      by rewrite bool_decide_false.
  - rewrite updateWorkflowStatus_skip; [|done|done|by intros; simplify_eq].
    simpl. by rewrite Hr.
Qed.

(** Recording an outcome never overwrites CANCELLED.  On a cancelled workflow it
    changes nothing and throws the cancellation; on a missing one it changes nothing;
    on any other it stores the terminal status, clears the deduplication ID and stamps
    [completed_at], in that row only. *)
Theorem recordWorkflowOutcome_spec nowMs id st output error d :
  db_ok d -> st <> CANCELLED ->
  recordWorkflowOutcome nowMs id st output error d =
  match workflow_status d !! id with
  | None => (Ok tt, d)
  | Some r =>
      if decide (ws_status r = CANCELLED)
      then (Throw (DBOSWorkflowCancelledError id), d)
      else (Ok tt, d <| workflow_status ::=
                     <[id := r <| ws_status := st |> <| ws_updated_at := nowMs |>
                               <| ws_output := match truthy_str output with
                                               | Some o => Some o | None => ws_output r end |>
                               <| ws_error := match truthy_str error with
                                              | Some e => Some e | None => ws_error r end |>
                               <| ws_deduplication_id := None |>
                               <| ws_completed_at := Some nowMs |>]> |>)
  end.
Proof. apply recordWorkflowOutcome_run. Qed.

(** * Batch stamping *)

(** The keyed part of a batch: the stamps of the statuses of one partition key, in
    batch order. *)
Definition key_stamps (key : string) (statuses : list WorkflowStatusInternal) (ts : list Z)
    : list Z :=
  omap (fun st => if opt_eqb (i_queuePartitionKey st.1) (Some key) then Some st.2 else None)
    (zip statuses ts).

Lemma stamp_length nowMS cursors next statuses :
  length (stamp nowMS cursors next statuses).1 = length statuses.
Proof.
  revert next. induction statuses as [|s rest IH]; intros next; simpl; [done|].
  destruct (i_queuePartitionKey s) as [key|].
  - specialize (IH (<[key:=default (Z.max nowMS (default 0 (cursors !! key))) (next !! key) + 1]> next)).
    destruct (stamp _ _ _ rest). simpl in *. by rewrite IH.
  - specialize (IH next). destruct (stamp _ _ _ rest). simpl in *. by rewrite IH.
Qed.

(** The value the next status of [key] gets. *)
Definition next_value (nowMS : Z) (cursors next : gmap string Z) (key : string) : Z :=
  default (Z.max nowMS (default 0 (cursors !! key))) (next !! key).

Lemma key_stamps_cons key s rest t ts :
  key_stamps key (s :: rest) (t :: ts)
  = (if opt_eqb (i_queuePartitionKey s) (Some key) then [t] else []) ++ key_stamps key rest ts.
Proof. unfold key_stamps. simpl. by destruct (opt_eqb _ _). Qed.

Lemma next_value_insert_eq nowMS cursors next key v :
  next_value nowMS cursors (<[key := v]> next) key = v.
Proof. unfold next_value. by rewrite lookup_insert_eq. Qed.

Lemma next_value_insert_ne nowMS cursors next k key v :
  k <> key ->
  next_value nowMS cursors (<[k := v]> next) key = next_value nowMS cursors next key.
Proof. intros ?. unfold next_value. by rewrite lookup_insert_ne. Qed.

(** The stamps of a key are consecutive from its next value, and the loop leaves the
    key one past the last of them. *)
Lemma stamp_consecutive nowMS cursors key statuses : forall next,
  let (ts, next') := stamp nowMS cursors next statuses in
  let ks := key_stamps key statuses ts in
  ks = seqZ (next_value nowMS cursors next key) (Z.of_nat (length ks))
  /\ next' !! key = if decide (ks = []) then next !! key
                    else Some (next_value nowMS cursors next key + Z.of_nat (length ks)).
Proof.
  induction statuses as [|s rest IH]; intros next; [done|]. simpl.
  destruct (i_queuePartitionKey s) as [k|] eqn:Ek.
  - fold (next_value nowMS cursors next k).
    specialize (IH (<[k := next_value nowMS cursors next k + 1]> next)).
    destruct (stamp _ _ _ rest) as [ts next'].
    rewrite key_stamps_cons, Ek. unfold opt_eqb.
    destruct (decide (k = key)) as [->|Hne].
    + rewrite bool_decide_true by done.
      rewrite next_value_insert_eq, lookup_insert_eq in IH.
      set (ks := key_stamps key rest ts) in *. destruct IH as [IH1 IH2]. cbn [app length].
      split.
      * rewrite seqZ_cons by lia. f_equal. rewrite IH1 at 1. f_equal; lia.
      * rewrite IH2. simpl. case_decide as E; [rewrite E|]; f_equal; simpl; lia.
    + rewrite bool_decide_false by congruence.
      by rewrite next_value_insert_ne, lookup_insert_ne in IH.
  - specialize (IH next). destruct (stamp _ _ _ rest) as [ts next'].
    rewrite key_stamps_cons, Ek. unfold opt_eqb. by rewrite bool_decide_false.
Qed.

Lemma lookup_list_to_map_omap {V} (f : string -> option V) keys key :
  (list_to_map (omap (fun k => (pair k) <$> f k) keys) : gmap string V) !! key
  = if decide (key ∈ keys) then f key else None.
Proof.
  induction keys as [|k keys IH]; [by rewrite decide_False by set_solver|].
  csimpl. destruct (f k) as [v|] eqn:Ef; csimpl.
  - destruct (decide (k = key)) as [->|Hne].
    + rewrite lookup_insert_eq, decide_True by set_solver. done.
    + rewrite lookup_insert_ne, IH by done.
      destruct (decide (key ∈ keys)); [by rewrite decide_True by set_solver|].
      rewrite decide_False; [done|set_solver].
  - rewrite IH. destruct (decide (k = key)) as [->|Hne].
    + rewrite Ef. by repeat case_decide.
    + destruct (decide (key ∈ keys)); [by rewrite decide_True by set_solver|].
      rewrite decide_False; [done|set_solver].
Qed.

Lemma max_created_at_ge rows id r :
  (id, r) ∈ rows -> exists m, max_created_at rows = Some m /\ ws_created_at r <= m.
Proof. apply (max_of_ge (fun kr => ws_created_at kr.2)). Qed.

(** [created_at] stamps are first-in first-out per partition key.  Within a batch
    the stamps of a key are consecutive integers; they start no earlier than the clock
    and the cursor and, when the key is seen for the first time, strictly after every
    ENQUEUED or PENDING row of the key; and the new cursor of the key is past all of
    them, so the next batch continues above. *)
Theorem assignBatchCreatedAt_fifo nowMS statuses cursors d key :
  let (ts, cursors') := assignBatchCreatedAt nowMS statuses cursors d in
  let ks := key_stamps key statuses ts in
  length ts = length statuses
  /\ exists start, ks = seqZ start (Z.of_nat (length ks))
     /\ nowMS <= start
     /\ (forall c, cursors !! key = Some c -> c <= start)
     /\ (ks <> [] -> cursors !! key = None -> forall id r,
           workflow_status d !! id = Some r -> ws_queue_partition_key r = Some key ->
           ws_status r = ENQUEUED \/ ws_status r = PENDING -> ws_created_at r < start)
     /\ (ks <> [] -> cursors' !! key = Some (start + Z.of_nat (length ks))).
Proof.
  unfold assignBatchCreatedAt.
  set (unseen := filter _ _). set (seeds := maxPartitionKeyCreatedAt unseen d).
  pose proof (stamp_length nowMS (seed_cursors seeds cursors) ∅ statuses) as Hlen.
  pose proof (stamp_consecutive nowMS (seed_cursors seeds cursors) key statuses ∅) as Hs.
  destruct (stamp _ _ _ statuses) as [ts next] eqn:Es. simpl in Hlen.
  destruct Hs as [Hs1 Hs2]. split; [done|].
  assert (seed_cursors seeds cursors !! key
          = match seeds !! key with
            | Some m => Some (Z.max (default 0 (cursors !! key)) (m + 1))
            | None => cursors !! key
            end) as Hcur
    by (unfold seed_cursors; rewrite lookup_merge; by destruct (seeds !! key), (cursors !! key)).
  eexists. split; [exact Hs1|]. unfold next_value. rewrite lookup_empty. simpl.
  split; [lia|]. split; [|split].
  - intros c Hc. rewrite Hcur, Hc. destruct (seeds !! key); simpl; lia.
  - intros Hne Hc id r Hr Hk Hst.
    assert (key ∈ unseen) as Hin.
    { apply list_elem_of_filter. split; [done|]. apply elem_of_remove_dups.
      destruct (key_stamps key statuses ts) as [|k0 ks] eqn:Ek; [done|].
      assert (k0 ∈ key_stamps key statuses ts) as Hk0 by (rewrite Ek; set_solver).
      apply list_elem_of_omap in Hk0 as ([s t] & Hst0 & Hb). simpl in Hb.
      destruct (opt_eqb _ _) eqn:Eo; [|done]. break_bool.
      apply list_elem_of_omap. exists s. split; [|done].
      apply elem_of_zip_l in Hst0. done. }
    assert ((id, r) ∈ select_where (fun _ r => sql_eqb (ws_queue_partition_key r) key
      && (bool_decide (ws_status r = ENQUEUED) || bool_decide (ws_status r = PENDING)))
      (workflow_status d)) as Hsel.
    { apply elem_of_select_where. split; [done|]. rewrite (proj2 (sql_eqb_spec _ _) Hk).
      simpl. destruct Hst as [-> | ->]; done. }
    apply max_created_at_ge in Hsel as (m & Hm & Hle).
    assert (seeds !! key = Some m) as Hseed.
    { unfold seeds, maxPartitionKeyCreatedAt. rewrite lookup_list_to_map_omap.
      by rewrite decide_True. }
    rewrite Hcur, Hseed, Hc. simpl. lia.
  - intros Hne. rewrite lookup_union, Hs2, decide_False by done.
    rewrite union_Some_l. unfold next_value. by rewrite lookup_empty.
Qed.

(** * Batch inserts *)

Definition no_dedup (rows : list (string * wf_row)) : Prop :=
  Forall (fun x => ws_deduplication_id x.2 = None) rows.

(** What a batch insert promises: the rows whose key is new are added, first
    occurrence first, and their keys are reported once each. *)
Definition inserts_new (rows : list (string * wf_row)) (d : sysdb)
    (res : outcome dbos_error (list string) * sysdb) : Prop :=
  exists ids, res = (Ok ids, d <| workflow_status := workflow_status d ∪ list_to_map rows |>)
    /\ NoDup ids
    /\ forall id, id ∈ ids <-> id ∈ rows.*1 /\ workflow_status d !! id = None.

Lemma dedup_unique_union t rows :
  dedup_unique t -> no_dedup rows -> dedup_unique (t ∪ list_to_map rows).
Proof.
  intros Hu Hn k1 k2 r1 r2 H1 H2 Hne.
  apply lookup_union_Some_raw in H1 as [H1|[_ H1]];
    [apply lookup_union_Some_raw in H2 as [H2|[_ H2]]; [by eauto|]|].
  - apply dedup_clash_none_r. apply elem_of_list_to_map_2 in H2.
    by apply (proj1 (Forall_forall _ _) Hn _ H2).
  - apply dedup_clash_none_l. apply elem_of_list_to_map_2 in H1.
    by apply (proj1 (Forall_forall _ _) Hn _ H1).
Qed.

Lemma inserts_new_nil d : inserts_new [] d (Ok [], d).
Proof.
  exists []. split; [|split; [constructor|set_solver]].
  f_equal. symmetry. apply sysdb_workflow_status_id. by rewrite list_to_map_nil, map_union_empty.
Qed.

Lemma sysdb_set_twice (d : sysdb) t1 t2 :
  (d <| workflow_status := t1 |>) <| workflow_status := t2 |> = d <| workflow_status := t2 |>.
Proof. done. Qed.

(** Two inserts in sequence insert the concatenation. *)
Lemma inserts_new_app rows1 rows2 (m1 m2 : DB (list string)) d :
  inserts_new rows1 d (m1 d) ->
  inserts_new rows2 (d <| workflow_status := workflow_status d ∪ list_to_map rows1 |>)
    (m2 (d <| workflow_status := workflow_status d ∪ list_to_map rows1 |>)) ->
  inserts_new (rows1 ++ rows2) d
    ((let* a := m1 in let* b := m2 in ret (a ++ b)) d).
Proof.
  intros (ids1 & E1 & Hn1 & Hi1) (ids2 & E2 & Hn2 & Hi2). unfold bind.
  rewrite E1, E2. exists (ids1 ++ ids2). split; [|split].
  - unfold ret. f_equal. rewrite list_to_map_app, map_union_assoc. done.
  - apply NoDup_app. split; [done|]. split; [|done]. intros x [Hx1 Hx2]%Hi1 [_ Hx3]%Hi2.
    simpl in Hx3. rewrite lookup_union_None in Hx3. destruct Hx3 as [_ Hx3].
    by apply not_elem_of_list_to_map_2 in Hx3.
  - intros id. rewrite elem_of_app, Hi1, Hi2, fmap_app, elem_of_app. simpl.
    rewrite lookup_union_None. split.
    + naive_solver.
    + intros [[H1|H1] H2]; [by left|].
      destruct (decide (id ∈ rows1.*1)) as [H3|H3]; [by left|right].
      split; [done|]. split; [done|]. by apply not_elem_of_list_to_map_1.
Qed.

Lemma insert_do_nothing_spec id r d :
  dedup_unique (workflow_status d) -> ws_deduplication_id r = None ->
  inserts_new [(id, r)] d (insert_do_nothing id r d).
Proof.
  intros Hu Hn. unfold insert_do_nothing.
  assert (list_to_map [(id, r)] = ({[id := r]} : gmap string wf_row)) as Em by done.
  destruct (workflow_status d !! id) as [old|] eqn:E.
  - exists []. rewrite Em. split; [|split; [constructor|]].
    + f_equal. symmetry. apply sysdb_workflow_status_id.
      symmetry. apply map_eq. intros k. rewrite lookup_union.
      destruct (decide (k = id)) as [->|]; [by rewrite E; simplify_map_eq|].
      rewrite lookup_singleton_ne by done. by destruct (workflow_status d !! k).
    + intros k. set_unfold. naive_solver.
  - exists [id]. rewrite Em. split; [|split].
    + unfold bind. rewrite insert_workflow_status_fresh; [|done|done|].
      * unfold ret. rewrite <- insert_union_singleton_r by done. done.
      * intros k r' _. by apply dedup_clash_none_l.
    + apply NoDup_singleton.
    + intros k. simpl. rewrite !list_elem_of_singleton. naive_solver.
Qed.

Lemma insert_chunk_spec rows d :
  dedup_unique (workflow_status d) -> no_dedup rows -> inserts_new rows d (insert_chunk rows d).
Proof.
  revert d. induction rows as [|[id r] rows IH]; intros d Hu Hn; [apply inserts_new_nil|].
  apply Forall_cons in Hn as [Hr Hn]. simpl.
  apply (inserts_new_app [(id, r)] rows (insert_do_nothing id r) (insert_chunk rows)).
  - by apply insert_do_nothing_spec.
  - apply IH; [|done]. apply dedup_unique_union; [done|]. by repeat constructor.
Qed.

Lemma insert_chunks_spec fuel n rows d :
  (0 < n)%nat -> (length rows <= fuel)%nat ->
  dedup_unique (workflow_status d) -> no_dedup rows ->
  inserts_new rows d (insert_chunks fuel n rows d).
Proof.
  intros Hpos. revert rows d. induction fuel as [|fuel IH]; intros rows d Hf Hu Hn.
  { destruct rows; [apply inserts_new_nil | simpl in Hf; lia]. }
  destruct rows as [|x rows]; [apply inserts_new_nil|]. cbn [insert_chunks].
  rewrite <- (take_drop n (x :: rows)) at 1.
  apply (inserts_new_app _ _ (insert_chunk _) (insert_chunks fuel n _)).
  - apply insert_chunk_spec; [done|]. by apply Forall_take.
  - apply IH; [rewrite length_drop; simpl in *; lia| |by apply Forall_drop].
    apply dedup_unique_union; [done|]. by apply Forall_take.
Qed.

Definition batch_rows (statuses : list WorkflowStatusInternal) (ts : list Z)
    : list (string * wf_row) :=
  zip_with (fun s t => (i_workflowUUID s, batch_row t s)) statuses ts.

Lemma batch_rows_no_dedup statuses ts : no_dedup (batch_rows statuses ts).
Proof.
  unfold batch_rows. revert ts. induction statuses as [|s rest IH]; intros [|t ts];
    simpl; constructor; [done | apply IH].
Qed.

Lemma batch_rows_keys statuses ts :
  length ts = length statuses -> (batch_rows statuses ts).*1 = i_workflowUUID <$> statuses.
Proof.
  unfold batch_rows. revert ts. induction statuses as [|s rest IH]; intros [|t ts] Hl;
    simpl in *; try done. f_equal. apply IH. lia.
Qed.

Lemma assignBatchCreatedAt_length nowMS statuses cursors d :
  length (assignBatchCreatedAt nowMS statuses cursors d).1 = length statuses.
Proof.
  unfold assignBatchCreatedAt.
  pose proof (stamp_length nowMS (seed_cursors (maxPartitionKeyCreatedAt
    (filter (fun key => cursors !! key = None)
       (remove_dups (omap i_queuePartitionKey statuses))) d) cursors) ∅ statuses) as Hl.
  by destruct (stamp _ _ _ statuses).
Qed.

Lemma enqueueWorkflows_run nowMS statuses cursors d :
  dedup_unique (workflow_status d) -> check_batch statuses = None ->
  exists ids, let res := enqueueWorkflows nowMS statuses cursors d in
    res.1.1 = Ok ids
    /\ res.2 = d <| workflow_status := workflow_status d ∪ list_to_map
                   (batch_rows statuses (assignBatchCreatedAt nowMS statuses cursors d).1) |>
    /\ NoDup ids
    /\ forall id, id ∈ ids <->
         id ∈ i_workflowUUID <$> statuses /\ workflow_status d !! id = None.
Proof.
  intros Hu Hc. unfold enqueueWorkflows.
  destruct statuses as [|s0 rest] eqn:Estat.
  { exists []. simpl. split; [done|]. split; [|split; [constructor|set_solver]].
    symmetry. apply sysdb_workflow_status_id. exact (map_union_empty (workflow_status d)). }
  rewrite <- Estat in *. clear Estat s0 rest. rewrite Hc.
  pose proof (assignBatchCreatedAt_length nowMS statuses cursors d) as Hl.
  destruct (assignBatchCreatedAt _ _ _ d) as [ts cur]. simpl in Hl |- *.
  fold (batch_rows statuses ts).
  destruct (insert_chunks_spec (length (batch_rows statuses ts)) 500
    (batch_rows statuses ts) d) as (ids & E & Hn & Hi);
    [lia | lia | done | apply batch_rows_no_dedup |].
  unfold transaction. rewrite E. exists ids. simpl.
  split; [done|]. split; [done|]. split; [done|].
  intros id. by rewrite Hi, batch_rows_keys.
Qed.

(** A batch of valid statuses is inserted as a whole: exactly the IDs that were
    free are reported, each once, existing rows keep their value, and redelivering the
    same batch, whatever the clock and the cursors, reports nothing and changes
    nothing. *)
Theorem enqueueWorkflows_idempotent nowMS now2 statuses cursors cursors2 d :
  dedup_unique (workflow_status d) -> check_batch statuses = None ->
  exists ids cur d',
    enqueueWorkflows nowMS statuses cursors d = (Ok ids, cur, d')
    /\ NoDup ids
    /\ (forall id, id ∈ ids <->
          id ∈ i_workflowUUID <$> statuses /\ workflow_status d !! id = None)
    /\ workflow_status d ⊆ workflow_status d'
    /\ (forall id, id ∈ i_workflowUUID <$> statuses -> is_Some (workflow_status d' !! id))
    /\ exists cur2, enqueueWorkflows now2 statuses cursors2 d' = (Ok [], cur2, d').
Proof.
  intros Hu Hc.
  destruct (enqueueWorkflows_run nowMS statuses cursors d Hu Hc) as (ids & E1 & E2 & Hn & Hi).
  destruct (enqueueWorkflows nowMS statuses cursors d) as [[o cur] d'] eqn:E. simpl in E1, E2.
  set (rows := batch_rows statuses (assignBatchCreatedAt nowMS statuses cursors d).1) in *.
  assert (rows.*1 = i_workflowUUID <$> statuses) as Hk
    by (apply batch_rows_keys, assignBatchCreatedAt_length).
  assert (forall id, id ∈ i_workflowUUID <$> statuses ->
            is_Some (workflow_status d' !! id)) as Hin.
  { intros id Hid. rewrite E2. simpl. rewrite lookup_union.
    destruct ((list_to_map rows : gmap string wf_row) !! id) eqn:El;
      [destruct (workflow_status d !! id); eauto|].
    apply not_elem_of_list_to_map_2 in El. by rewrite Hk in El. }
  exists ids, cur, d'. rewrite E1. split; [done|]. split; [done|]. split; [done|].
  split; [rewrite E2; apply map_union_subseteq_l|]. split; [done|].
  destruct (enqueueWorkflows_run now2 statuses cursors2 d') as (ids2 & F1 & F2 & Hn2 & Hi2).
  { rewrite E2. apply dedup_unique_union; [done | apply batch_rows_no_dedup]. }
  { done. }
  destruct (enqueueWorkflows now2 statuses cursors2 d') as [[o2 cur2] d2]. simpl in F1, F2.
  exists cur2. destruct ids2 as [|x ids2].
  - rewrite F1, F2. f_equal. apply sysdb_workflow_status_id.
    apply map_eq. intros k. rewrite lookup_union.
    destruct (list_to_map _ !! k) as [r|] eqn:El; [|by destruct (workflow_status d' !! k)].
    assert (k ∈ i_workflowUUID <$> statuses) as Hid.
    { apply elem_of_list_to_map_2, list_elem_of_fmap_2 with (f := fst) in El.
      by rewrite batch_rows_keys in El by apply assignBatchCreatedAt_length. }
    destruct (Hin _ Hid) as [r' ->]. done.
  - destruct (proj1 (Hi2 x)) as [Hx1 Hx2]; [set_solver|].
    destruct (Hin x Hx1) as [? ?]. congruence.
Qed.

(** * Recovery *)

(** Rows that carry a deduplication ID are on a queue: the validation in
    [DBOS.#invokeWorkflow] refuses a deduplication ID without a queue name. *)
Definition dedup_queued (t : gmap string wf_row) : Prop :=
  forall k r, t !! k = Some r -> is_Some (ws_deduplication_id r) -> is_Some (ws_queue_name r).

Lemma reenqueued_dedup_unique now q p t :
  dedup_queued t -> dedup_unique t -> dedup_unique (update_where p (reenqueued now q) t).
Proof.
  intros Hq Hu k1 k2 r1 r2. rewrite !lookup_update_where.
  intros (a & Ha & Ea)%fmap_Some (b & Hb & Eb)%fmap_Some Hne.
  destruct (dedup_clash r1 r2) eqn:Ec; [|done].
  apply dedup_clash_true in Ec as (qn & k & Hq1 & Hq2 & Hd1 & Hd2).
  assert (forall k r r', t !! k = Some r -> r' = (if p k r then reenqueued now q r else r) ->
            is_Some (ws_deduplication_id r') ->
            ws_queue_name r' = ws_queue_name r
            /\ ws_deduplication_id r' = ws_deduplication_id r) as Hsame.
  { intros k' r r' Hr -> Hd. destruct (p k' r); [|done]. simpl in *.
    destruct (Hq _ _ Hr Hd) as [qn' ->]. done. }
  destruct (Hsame _ _ _ Ha Ea) as [Hqa Hda]; [eauto|].
  destruct (Hsame _ _ _ Hb Eb) as [Hqb Hdb]; [eauto|].
  rewrite <- (Hu k1 k2 a b Ha Hb Hne). symmetry. apply dedup_clash_true.
  exists qn, k. by rewrite <- Hqa, <- Hqb, <- Hda, <- Hdb.
Qed.

(** Recovery returns to a queue exactly the workflows that are PENDING on the
    given executor and application version, in one statement that cannot fail: each
    becomes ENQUEUED with its own queue or, when it had none, the recovery queue, its
    start time is cleared, no other row and no other table changes, and afterwards
    nothing is left to recover. *)
Theorem reenqueueWorkflowsForRecovery_spec now executorID appVersion q d :
  dedup_unique (workflow_status d) -> dedup_queued (workflow_status d) ->
  exists ids d',
    reenqueueWorkflowsForRecovery now executorID appVersion q d = (Ok ids, d')
    /\ getPendingWorkflows executorID appVersion d = (Ok ids, d)
    /\ NoDup ids
    /\ (forall id, workflow_status d' !! id =
          (fun r => if pending_on executorID appVersion r then reenqueued now q r else r)
            <$> workflow_status d !! id)
    /\ d' = d <| workflow_status := workflow_status d' |>
    /\ getPendingWorkflows executorID appVersion d' = (Ok [], d').
Proof.
  intros Hu Hq. unfold reenqueueWorkflowsForRecovery, update_workflow_status.
  rewrite (proj2 (dedup_uniqueb_spec _)) by (apply reenqueued_dedup_unique; done).
  eexists _, _. split; [done|]. split; [done|]. split; [apply NoDup_select_where|].
  split; [intros id; simpl; by rewrite lookup_update_where|]. split; [done|].
  unfold getPendingWorkflows. do 2 f_equal. simpl.
  rewrite (proj2 (select_where_nil _ _)); [done|].
  intros k r. rewrite lookup_update_where. intros (a & Ha & ->)%fmap_Some.
  destruct (pending_on executorID appVersion a) eqn:E; [done|exact E].
Qed.

(** * Witnesses *)

Definition ex_status : WorkflowStatusInternal :=
  {| i_workflowUUID := "wf-1"; i_status := PENDING; i_workflowName := "charge";
     i_workflowClassName := "Payments"; i_workflowConfigName := ""; i_queueName := None;
     i_authenticatedUser := ""; i_output := None; i_error := None; i_input := Some "[1]";
     i_assumedRole := ""; i_authenticatedRoles := []; i_request := JObj [];
     i_executorId := Some "exec-a"; i_applicationVersion := Some "v1"; i_applicationID := "";
     i_createdAt := 1000; i_updatedAt := None; i_recoveryAttempts := None; i_timeoutMS := None;
     i_deadlineEpochMS := None; i_deduplicationID := None; i_priority := 0;
     i_queuePartitionKey := None; i_startedAtEpochMs := None; i_forkedFrom := None;
     i_wasForkedFrom := false; i_parentWorkflowID := None;
     i_serialization := Some "js_superjson"; i_delayUntilEpochMS := None;
     i_completedAt := None; i_attributes := None; i_scheduleName := None;
     i_debounceDeadlineEpochMS := None; i_isDebounced := false |}.

Definition ex_row : wf_row := status_to_row 1000 ex_status (Some "xid-1").

Definition ex_db : sysdb := empty_db <| workflow_status := {[ "wf-1" := ex_row ]} |>.

Definition ex_queued (id key : string) : WorkflowStatusInternal :=
  ex_status <| i_workflowUUID := id |> <| i_status := ENQUEUED |>
            <| i_queueName := Some "jobs" |> <| i_queuePartitionKey := Some key |>.

Lemma ex_db_ok : db_ok ex_db.
Proof.
  split; try by intros; simplify_map_eq.
  apply dedup_uniqueb_spec. vm_compute. done.
Defined.

Lemma ex_lookup : workflow_status ex_db !! "wf-1" = Some ex_row.
Proof. vm_compute. reflexivity. Defined.

Lemma ex_same_function : same_function ex_status ex_row.
Proof. repeat split. Defined.

Lemma init_existing_is_readonly_witness :
  initWorkflowStatus 2000 2000 ex_status (Some "xid-2") false false (Some 3) ex_db
  = (Ok {| init_status := PENDING; init_shouldExecuteOnThisExecutor := false;
           init_deadlineEpochMS := None; init_serialization := Some "js_superjson" |}, ex_db).
Proof.
  rewrite (init_existing_is_readonly 2000 2000 ex_status (Some "xid-2") (Some 3) ex_db ex_row
    ex_lookup ex_same_function ltac:(discriminate)).
  reflexivity.
Defined.

Lemma init_failure_rolls_back_witness :
  (initWorkflowStatus 2000 2000 (ex_status <| i_workflowName := "refund" |>)
     None false false None ex_db).2 = ex_db.
Proof.
  pose proof (init_failure_rolls_back 2000 2000 (ex_status <| i_workflowName := "refund" |>)
    None false false None ex_db _ _ (surjective_pairing _)) as H.
  vm_compute in H. vm_compute. exact H.
Defined.

Lemma init_fresh_witness :
  exists res d', initWorkflowStatus 2000 2000 (ex_status <| i_workflowUUID := "wf-2" |>)
                   (Some "x") false false (Some 3) ex_db = (Ok res, d').
Proof.
  destruct (init_fresh 2000 2000 (ex_status <| i_workflowUUID := "wf-2" |>) (Some "x")
    (Some 3) ex_db) as [[(k & r & Hk & Hc) _] | [_ H]].
  - apply (ok_dedup _ ex_db_ok).
  - vm_compute. reflexivity.
  - intros m Hm. injection Hm as <-. lia.
  - discriminate Hc.
  - rewrite H. eauto.
Defined.

Lemma crash_loop_dead_letters_witness :
  exists r, workflow_status (Nat.iter 4 (fun d => (redispatch 5 5 ex_status None 3 d).2) ex_db)
              !! "wf-1" = Some r /\ ws_status r = MAX_RECOVERY_ATTEMPTS_EXCEEDED.
Proof.
  destruct (crash_loop_dead_letters 5 5 ex_status None 3 ex_db ex_row ex_db_ok ltac:(lia)
    eq_refl ex_lookup ex_same_function eq_refl ltac:(vm_compute; discriminate))
    as (_ & _ & r & ? & ? & _).
  exists r. split; assumption.
Defined.

Lemma recordWorkflowOutcome_spec_witness :
  is_ok (recordWorkflowOutcome 7 "wf-1" SUCCESS (Some "42") None ex_db).1 = true.
Proof.
  rewrite (recordWorkflowOutcome_spec 7 "wf-1" SUCCESS (Some "42") None ex_db ex_db_ok
    ltac:(discriminate)). rewrite ex_lookup. reflexivity.
Defined.

Lemma enqueueWorkflows_idempotent_witness :
  exists ids cur d', enqueueWorkflows 10 [ex_queued "a" "k"; ex_queued "b" "k"; ex_queued "a" "k"]
                       ∅ ex_db = (Ok ids, cur, d') /\ NoDup ids.
Proof.
  destruct (enqueueWorkflows_idempotent 10 11
    [ex_queued "a" "k"; ex_queued "b" "k"; ex_queued "a" "k"] ∅ ∅ ex_db
    (ok_dedup _ ex_db_ok) eq_refl) as (ids & cur & d' & ? & ? & _).
  exists ids, cur, d'. split; assumption.
Defined.

Lemma ex_db_dedup_queued : dedup_queued (workflow_status ex_db).
Proof.
  intros k r Hk [x Hx]. destruct (decide (k = "wf-1")) as [->|Hne].
  - rewrite ex_lookup in Hk. injection Hk as <-. discriminate Hx.
  - simpl in Hk. rewrite lookup_singleton_ne in Hk by congruence. discriminate Hk.
Defined.

Lemma reenqueueWorkflowsForRecovery_spec_witness :
  exists ids d', reenqueueWorkflowsForRecovery 9 "exec-a" "v1" "_dbos_internal_queue" ex_db
                 = (Ok ids, d') /\ getPendingWorkflows "exec-a" "v1" d' = (Ok [], d').
Proof.
  destruct (reenqueueWorkflowsForRecovery_spec 9 "exec-a" "v1" "_dbos_internal_queue" ex_db
    (ok_dedup _ ex_db_ok) ex_db_dedup_queued) as (ids & d' & H1 & _ & _ & _ & _ & H3).
  exists ids, d'. split; assumption.
Defined.
