(* ===== verification/Steps.v ===== *)
(** Step checkpoints: the [Step Results] section of [SystemDatabase]
    (src/src/system_database.ts) with the private helpers it is built on.  A step of a
    workflow is identified by [(workflow_uuid, function_id)]; its first recorded outcome
    is what every later execution of the workflow replays. *)

From S2P Require Export WorkflowStatus Decimal.

(** * Data *)

(** [SystemDatabaseStoredResult]: the fields a recorded step fills, and the two flags
    of an awaited workflow. *)
Record SystemDatabaseStoredResult : Type := StoredResult {
  sr_output : option string;
  sr_error : option string;
  sr_cancelled : bool;
  sr_maxRecoveryAttemptsExceeded : bool;
  sr_childWorkflowID : option string;
  sr_functionName : option string;
  sr_serialization : option string
}.

(** [options] of [recordOperationResult] *)
Record OperationOptions : Type := OperationOptionsOf {
  op_childWorkflowID : option string;
  op_output : option string;
  op_error : option string;
  op_serialization : option string
}.

#[export] Instance OperationOptions_eta : Eta OperationOptions := fun o =>
  OperationOptionsOf (op_childWorkflowID o) (op_output o) (op_error o) (op_serialization o).

Definition no_options : OperationOptions := OperationOptionsOf None None None None.

Definition DBOS_FUNCNAME_SLEEP : string := "DBOS.sleep".

(** * Operations *)

(** [#checkIfCanceled] *)
Definition checkIfCanceled (workflowID : string) : DB unit :=
  let* statusValue := getWorkflowStatusValue workflowID in
  if opt_eqb statusValue (Some CANCELLED)
  then throw (DBOSWorkflowCancelledError workflowID) else ret tt.

Definition stored_result (r : op_row) : SystemDatabaseStoredResult :=
  {| sr_output := oo_output r; sr_error := oo_error r; sr_cancelled := false;
     sr_maxRecoveryAttemptsExceeded := false;
     sr_childWorkflowID := oo_child_workflow_id r;
     sr_functionName := Some (oo_function_name r);
     sr_serialization := oo_serialization r |}.

(** [#getOperationResultAndThrowIfCancelled] *)
Definition getOperationResultAndThrowIfCancelled (workflowID : string) (functionID : Z)
    : DB (option SystemDatabaseStoredResult) :=
  checkIfCanceled workflowID ;*
  (fun d => (Ok (stored_result <$> operation_outputs d !! (workflowID, functionID)), d)).

(** [INSERT ... ON CONFLICT (workflow_uuid, function_id) DO UPDATE
    SET completed_at_epoch_ms = operation_outputs.completed_at_epoch_ms
    RETURNING completed_at_epoch_ms] *)
Definition upsert_operation_output (workflowID : string) (functionID : Z) (r : op_row)
    : DB (option Z) := fun d =>
  match operation_outputs d !! (workflowID, functionID) with
  | Some old => (Ok (oo_completed_at_epoch_ms old), d)
  | None =>
      bind (require_workflow workflowID) (fun _ d =>
        (Ok (oo_completed_at_epoch_ms r),
         d <| operation_outputs ::= <[(workflowID, functionID) := r]> |>)) d
  end.

(** The [UPDATE] that moves [executor_id] to the winner of the checkpoint *)
Definition claim_executor (executorID workflowID : string) : DB unit :=
  update_workflow_status
    (fun id r => bool_decide (id = workflowID)
                 && negb (opt_eqb (ws_executor_id r) (Some executorID)))
    (fun r => r <| ws_executor_id := Some executorID |>) ;*
  ret tt.

(** The row [recordOperationResultInternal] inserts *)
Definition op_row_of (functionName : string) (startTimeEpochMs endTimeEpochMs : Z)
    (options : OperationOptions) : op_row :=
  {| oo_output := op_output options;
     oo_error := op_error options;
     oo_function_name := functionName;
     oo_child_workflow_id := op_childWorkflowID options;
     oo_started_at_epoch_ms := Some startTimeEpochMs;
     oo_completed_at_epoch_ms := Some endTimeEpochMs;
     oo_serialization := op_serialization options |}.

(** [err.code === '40001' || err.code === '23505'] *)
Definition is_conflict_code (e : dbos_error) : bool :=
  match e with
  | DatabaseError code => bool_decide (code = "40001") || bool_decide (code = "23505")
  | _ => false
  end.

(** [recordOperationResultInternal]; [executorID] is [globalParams.executorID], and
    [Number(null)] is [0]. *)
Definition recordOperationResultInternal (executorID workflowID : string) (functionID : Z)
    (functionName : string) (checkConflict : bool) (startTimeEpochMs endTimeEpochMs : Z)
    (options : OperationOptions) : DB unit :=
  try_catch
    (let* out := upsert_operation_output workflowID functionID
                   (op_row_of functionName startTimeEpochMs endTimeEpochMs options) in
     if checkConflict && negb (default 0 out =? endTimeEpochMs)
     then throw (DBOSWorkflowConflictError workflowID)
     else when (default 0 out =? endTimeEpochMs) (claim_executor executorID workflowID))
    (fun e => if is_conflict_code e then throw (DBOSWorkflowConflictError workflowID)
              else throw e).

(** [recordOperationResult] *)
Definition recordOperationResult := recordOperationResultInternal.

(** [#runAndRecordResult]; [func] may use the database, and the two clock readings are
    arguments. *)
Definition runAndRecordResult (executorID functionName workflowID : string) (functionID : Z)
    (func : DB (option string)) (startTime endTime : Z) : DB (option string) :=
  let* result := getOperationResultAndThrowIfCancelled workflowID functionID in
  match result with
  | Some r =>
      if negb (opt_eqb (sr_functionName r) (Some functionName))
      then throw (DBOSUnexpectedStepError workflowID functionID functionName
                    (default "" (sr_functionName r)))
      else ret (sr_output r)
  | None =>
      let* output := func in
      recordOperationResultInternal executorID workflowID functionID functionName true
        startTime endTime (no_options <| op_output := output |>) ;*
      ret output
  end.

(** [runTransactionalStep]: the callback and the checkpoint share one transaction. *)
Definition runTransactionalStep (executorID workflowID : string) (functionID : Z)
    (functionName : string) (callback : DB (option string)) (startTime endTime : Z)
    : DB (option SystemDatabaseStoredResult) :=
  transaction (
    let* existing := getOperationResultAndThrowIfCancelled workflowID functionID in
    match existing with
    | Some r => ret (Some r)
    | None =>
        let* output := callback in
        recordOperationResultInternal executorID workflowID functionID functionName true
          startTime endTime (no_options <| op_output := output |>) ;*
        ret None
    end).

(** The result of [checkPatch] *)
Record PatchResult : Type := PatchResultOf { isPatched : bool; hasEntry : bool }.

(** [checkPatch]; [dn] is [Date.now()]. *)
Definition checkPatch (dn : Z) (workflowID : string) (functionID : Z) (patchName : string)
    (deprecated : bool) : DB PatchResult := fun d =>
  let patchName := "DBOS.patch-" +:+ patchName in
  match operation_outputs d !! (workflowID, functionID) with
  | Some row =>
      let matches := bool_decide (oo_function_name row = patchName) in
      if deprecated then (Ok (PatchResultOf true matches), d)
      else if matches then (Ok (PatchResultOf true true), d)
      else (Ok (PatchResultOf false false), d)
  | None =>
      if deprecated then (Ok (PatchResultOf true false), d)
      else bind (upsert_operation_output workflowID functionID
                   (op_row_of patchName dn dn no_options))
                (fun _ => ret (PatchResultOf true true)) d
  end.

(** [#durableSleep]: the absolute end of the sleep, recorded on the first execution.
    The three clock readings are arguments; the output is a JSON number. *)
Definition durableSleep (executorID workflowID : string) (functionID durationMS : Z)
    (now startTime endTime : Z) : DB Z :=
  let endTimeMs := now + durationMS in
  let* res := getOperationResultAndThrowIfCancelled workflowID functionID in
  match res with
  | Some r =>
      if negb (opt_eqb (sr_functionName r) (Some DBOS_FUNCNAME_SLEEP))
      then throw (DBOSUnexpectedStepError workflowID functionID DBOS_FUNCNAME_SLEEP
                    (default "" (sr_functionName r)))
      else match parse_Z (default "null" (sr_output r)) with
           | Some n => ret n
           | None => throw (JsError "SyntaxError")
           end
  | None =>
      recordOperationResultInternal executorID workflowID functionID DBOS_FUNCNAME_SLEEP
        false startTime endTime
        (no_options <| op_output := Some (stringify_Z endTimeMs) |>
                    <| op_serialization := Some "portable_json" |>) ;*
      ret endTimeMs
  end.

(** The waiting loop of [durableSleepms]: the pauses it makes when each [sleepms(ms)]
    lasts [ms] milliseconds; [fuel] bounds the number of pauses. *)
Fixpoint sleep_pauses (fuel : nat) (maxTimeoutMS now endTime : Z) : list Z :=
  match fuel with
  | O => []
  | S fuel' =>
      if now <? endTime then
        let ms := Z.min (endTime - now) maxTimeoutMS in
        ms :: sleep_pauses fuel' maxTimeoutMS (now + ms) endTime
      else []
  end.

(** [getAllOperationResults]: the rows of a workflow in [function_id] order. *)
Definition getAllOperationResults (workflowID : string) (lim offset : option Z) (d : sysdb)
    : list (Z * op_row) :=
  let rows := order_by (fun a b => a.1 <=? b.1)
                (map (fun kr => (kr.1.2, kr.2))
                   (select_where (fun k _ => bool_decide (k.1 = workflowID))
                      (operation_outputs d))) in
  limit lim (drop (Z.to_nat (default 0 offset)) rows).

(** * Lemmas *)

(** The checkpoint of a step is the same in both databases. *)
Definition same_checkpoint (workflowID : string) (functionID : Z) (d d' : sysdb) : Prop :=
  operation_outputs d !! (workflowID, functionID)
  = operation_outputs d' !! (workflowID, functionID).

Definition is_cancelled (workflowID : string) (d : sysdb) : bool :=
  opt_eqb (ws_status <$> workflow_status d !! workflowID) (Some CANCELLED).

Lemma checkIfCanceled_run id d :
  checkIfCanceled id d
  = (if is_cancelled id d then Throw (DBOSWorkflowCancelledError id) else Ok tt, d).
Proof.
  unfold checkIfCanceled, getWorkflowStatusValue, bind, is_cancelled.
  by destruct (opt_eqb _ _).
Qed.

Lemma getOperationResult_run id fid d :
  getOperationResultAndThrowIfCancelled id fid d
  = (if is_cancelled id d then Throw (DBOSWorkflowCancelledError id)
     else Ok (stored_result <$> operation_outputs d !! (id, fid)), d).
Proof.
  unfold getOperationResultAndThrowIfCancelled, bind. rewrite checkIfCanceled_run.
  by destruct (is_cancelled id d).
Qed.

(** The database after the claim: only [executor_id] of the workflow may differ. *)
Definition claimed (executorID workflowID : string) (d : sysdb) : sysdb :=
  d <| workflow_status ::= alter (fun r => r <| ws_executor_id := Some executorID |>) workflowID |>.

Lemma claim_executor_run x id d :
  dedup_unique (workflow_status d) -> claim_executor x id d = (Ok tt, claimed x id d).
Proof.
  intros Hu. unfold claim_executor, bind.
  rewrite update_workflow_status_ok; [|done|by right]. unfold ret, claimed. simpl.
  do 2 f_equal. apply map_eq. intros k. rewrite lookup_update_where.
  destruct (decide (k = id)) as [->|].
  - rewrite lookup_alter_eq, bool_decide_true by done. simpl.
    destruct (workflow_status d !! id) as [r|]; [|done]. simpl.
    destruct (opt_eqb (ws_executor_id r) (Some x)) eqn:E; simpl; [|done].
    apply opt_eqb_spec in E. destruct r; simpl in *. by subst.
  - rewrite lookup_alter_ne, bool_decide_false by done. by destruct (workflow_status d !! k).
Qed.

Lemma claimed_status x id k d :
  ws_status <$> workflow_status (claimed x id d) !! k = ws_status <$> workflow_status d !! k.
Proof.
  unfold claimed. simpl. destruct (decide (k = id)) as [->|].
  - rewrite lookup_alter_eq. by destruct (workflow_status d !! id).
  - by rewrite lookup_alter_ne.
Qed.

Lemma preserves_claim_executor x id : preserves db_ok (claim_executor x id).
Proof. unfold claim_executor. auto with preserves. Qed.

Lemma preserves_upsert_operation_output id fid r :
  preserves db_ok (upsert_operation_output id fid r).
Proof.
  intros d Hd. unfold upsert_operation_output, bind, require_workflow.
  destruct (operation_outputs d !! _); [done|].
  destruct (workflow_status d !! id) eqn:E; [|done]. simpl.
  apply db_ok_insert_op; [done|]. unfold wf_exists. eauto.
Qed.

#[export] Hint Resolve preserves_claim_executor preserves_upsert_operation_output : preserves.

Lemma preserves_recordOperationResultInternal x id fid fn chk st en o :
  preserves db_ok (recordOperationResultInternal x id fid fn chk st en o).
Proof.
  unfold recordOperationResultInternal. apply preserves_try_catch.
  - apply preserves_bind; [auto with preserves|]. intros out.
    destruct (_ && _); auto with preserves.
  - intros e. destruct (is_conflict_code e); auto with preserves.
Qed.

Lemma preserves_getOperationResult id fid :
  preserves db_ok (getOperationResultAndThrowIfCancelled id fid).
Proof. intros d Hd. by rewrite getOperationResult_run. Qed.

#[export] Hint Resolve preserves_recordOperationResultInternal preserves_getOperationResult
  : preserves.

Lemma preserves_runAndRecordResult x fn id fid func st en :
  preserves db_ok func -> preserves db_ok (runAndRecordResult x fn id fid func st en).
Proof.
  intros Hf. unfold runAndRecordResult. apply preserves_bind; [auto with preserves|].
  intros [r|]; [destruct (negb _)|]; auto with preserves.
Qed.

Lemma preserves_runTransactionalStep x id fid fn cb st en :
  preserves db_ok cb -> preserves db_ok (runTransactionalStep x id fid fn cb st en).
Proof.
  intros Hf. unfold runTransactionalStep. apply preserves_transaction.
  apply preserves_bind; [auto with preserves|]. intros [r|]; auto with preserves.
Qed.

Lemma preserves_checkPatch dn id fid p dep : preserves db_ok (checkPatch dn id fid p dep).
Proof.
  intros d Hd. unfold checkPatch. destruct (operation_outputs d !! _); [by repeat case_match|].
  destruct dep; [done|].
  apply (preserves_bind db_ok (upsert_operation_output id fid _)); auto with preserves.
Qed.

Lemma preserves_durableSleep x id fid dur now st en :
  preserves db_ok (durableSleep x id fid dur now st en).
Proof.
  unfold durableSleep. apply preserves_bind; [auto with preserves|].
  intros [r|]; [destruct (negb _); [|destruct (parse_Z _)]|]; auto with preserves.
Qed.

#[export] Hint Resolve preserves_runAndRecordResult preserves_runTransactionalStep
  preserves_checkPatch preserves_durableSleep : preserves.

(** A step that is not recorded yet is recorded, and its executor claims the workflow. *)
Lemma record_fresh x id fid fn chk st en o d :
  dedup_unique (workflow_status d) ->
  operation_outputs d !! (id, fid) = None -> wf_exists d id ->
  recordOperationResultInternal x id fid fn chk st en o d
  = (Ok tt, claimed x id (d <| operation_outputs ::= <[(id, fid) := op_row_of fn st en o]> |>)).
Proof.
  intros Hu Hn [r Hr]. unfold recordOperationResultInternal, upsert_operation_output.
  unfold try_catch, bind. rewrite Hn. unfold require_workflow. rewrite Hr. simpl.
  rewrite Z.eqb_refl, andb_false_r. unfold when. by rewrite claim_executor_run.
Qed.

(** A step of a workflow that does not exist violates the foreign key. *)
Lemma record_missing x id fid fn chk st en o d :
  operation_outputs d !! (id, fid) = None -> workflow_status d !! id = None ->
  recordOperationResultInternal x id fid fn chk st en o d = (Throw foreign_key_violation, d).
Proof.
  intros Hn Hr. unfold recordOperationResultInternal, upsert_operation_output.
  unfold try_catch, bind. rewrite Hn. unfold require_workflow. by rewrite Hr.
Qed.

(** A step that is recorded keeps its row. *)
Lemma record_existing x id fid fn chk st en o d old :
  dedup_unique (workflow_status d) ->
  operation_outputs d !! (id, fid) = Some old ->
  recordOperationResultInternal x id fid fn chk st en o d
  = if decide (default 0 (oo_completed_at_epoch_ms old) = en)
    then (Ok tt, claimed x id d)
    else if chk then (Throw (DBOSWorkflowConflictError id), d) else (Ok tt, d).
Proof.
  intros Hu Ho. unfold recordOperationResultInternal, upsert_operation_output.
  unfold try_catch, bind. rewrite Ho. case_decide as E.
  - rewrite (proj2 (Z.eqb_eq _ _) E), andb_false_r. unfold when. by rewrite claim_executor_run.
  - rewrite (proj2 (Z.eqb_neq _ _) E). by destruct chk.
Qed.

(** What a successful checkpoint leaves behind, for a step that had no row. *)
Lemma record_ok_row x id fid fn chk st en o d d' :
  db_ok d -> operation_outputs d !! (id, fid) = None ->
  recordOperationResultInternal x id fid fn chk st en o d = (Ok tt, d') ->
  operation_outputs d' !! (id, fid) = Some (op_row_of fn st en o)
  /\ d' = claimed x id (d <| operation_outputs ::= <[(id, fid) := op_row_of fn st en o]> |>).
Proof.
  intros Hd Hn H. destruct (workflow_status d !! id) as [r|] eqn:Hr.
  - rewrite record_fresh in H; [|by destruct Hd|done|by eexists]. simplify_eq.
    simpl. by simplify_map_eq.
  - by rewrite record_missing in H.
Qed.

(** * Theorems *)

(** The first recorded outcome of a step wins.  Recording a step again never
    changes its row, or any other row of the table, whoever records it and with
    whatever outcome: with conflict checking the late recorder gets the workflow
    conflict and the database is untouched, unless it finished in the same millisecond
    as the first one. *)
Theorem record_first_writer_wins x id fid fn chk st en o d old :
  db_ok d -> operation_outputs d !! (id, fid) = Some old ->
  let res := recordOperationResult x id fid fn chk st en o d in
  operation_outputs res.2 = operation_outputs d
  /\ (default 0 (oo_completed_at_epoch_ms old) <> en ->
        res = (if chk then Throw (DBOSWorkflowConflictError id) else Ok tt, d))
  /\ (default 0 (oo_completed_at_epoch_ms old) = en -> res = (Ok tt, claimed x id d)).
Proof.
  intros Hd Ho res. subst res. unfold recordOperationResult.
  rewrite (record_existing x id fid fn chk st en o d old) by (try by destruct Hd; done).
  case_decide; [done|]. by destruct chk.
Qed.

(** A step runs at most once to completion.  When a step run through
    [#runAndRecordResult] returns, its outcome is recorded under its name; from then on,
    in every database that keeps that checkpoint and where the workflow is not cancelled,
    executing the step again returns the recorded output without running its function
    and without touching the database, and executing another step under the same ID is
    the nondeterminism error. *)
Theorem run_once_replays x fn id fid func st en d out d1 :
  db_ok d -> preserves db_ok func ->
  (forall d, same_checkpoint id fid (func d).2 d) ->
  runAndRecordResult x fn id fid func st en d = (Ok out, d1) ->
  forall x' func' st' en' d2, same_checkpoint id fid d2 d1 -> is_cancelled id d2 = false ->
    runAndRecordResult x' fn id fid func' st' en' d2 = (Ok out, d2)
    /\ forall fn', fn' <> fn ->
         runAndRecordResult x' fn' id fid func' st' en' d2
         = (Throw (DBOSUnexpectedStepError id fid fn' fn), d2).
Proof.
  intros Hd Hf Hsame Hrun x' func' st' en' d2 H2 Hc.
  assert (exists r, operation_outputs d1 !! (id, fid) = Some r
            /\ oo_function_name r = fn /\ oo_output r = out) as (r & Hr & Hn & Ho).
  { unfold runAndRecordResult in Hrun.
    apply bind_inv_ok in Hrun as (res & da & Hget & Hrest). rewrite getOperationResult_run in Hget.
    destruct (is_cancelled id d); [done|]. simplify_eq.
    destruct (operation_outputs da !! (id, fid)) as [r|] eqn:Er; simpl in Hrest.
    - destruct (opt_eqb _ _) eqn:En; [|done]. apply opt_eqb_spec in En. simpl in Hrest.
      injection Hrest as <- <-. exists r. by injection En.
    - apply bind_inv_ok in Hrest as (o & db & Hfo & Hrest).
      apply bind_inv_ok in Hrest as ([] & dc & Hrec & Hret).
      injection Hret as <- <-.
      pose proof (Hsame da) as Hs. rewrite Hfo in Hs. unfold same_checkpoint in Hs.
      pose proof (Hf da Hd) as Hdb. rewrite Hfo in Hdb.
      apply record_ok_row in Hrec as [Hrow _]; [|done|simpl in Hs; congruence].
      eexists. split; [exact Hrow|]. done. }
  unfold same_checkpoint in H2. unfold runAndRecordResult. unfold bind.
  rewrite !getOperationResult_run, Hc, H2, Hr. simpl. rewrite Hn, Ho.
  split; [unfold opt_eqb; by rewrite bool_decide_true|].
  intros fn' Hne. unfold opt_eqb. by rewrite bool_decide_false by congruence.
Qed.

(** A transactional step is atomic.  If it throws, the database is what it was; if
    it finds a checkpoint, it returns it and does nothing else; otherwise the callback
    ran and its effects are committed together with the checkpoint of its output, which
    any later execution finds. *)
Theorem runTransactionalStep_atomic x id fid fn cb st en d o d' :
  db_ok d -> preserves db_ok cb -> (forall d, same_checkpoint id fid (cb d).2 d) ->
  runTransactionalStep x id fid fn cb st en d = (o, d') ->
  match o with
  | Throw _ => d' = d
  | Ok (Some r) => d' = d /\ stored_result <$> operation_outputs d !! (id, fid) = Some r
  | Ok None =>
      operation_outputs d !! (id, fid) = None
      /\ exists out d1,
           cb d = (Ok out, d1)
           /\ d' = claimed x id (d1 <| operation_outputs ::=
                     <[(id, fid) := op_row_of fn st en (no_options <| op_output := out |>)]> |>)
           /\ forall x' cb' st' en', is_cancelled id d' = false ->
                runTransactionalStep x' id fid fn cb' st' en' d'
                = (Ok (Some (stored_result (op_row_of fn st en
                               (no_options <| op_output := out |>)))), d')
  end.
Proof.
  intros Hd Hcb Hsame H. destruct o as [o|e]; [|by eapply transaction_throw].
  unfold runTransactionalStep in H. apply transaction_ok in H.
  apply bind_inv_ok in H as (res & da & Hget & Hrest).
  rewrite getOperationResult_run in Hget. destruct (is_cancelled id d); [done|]. simplify_eq.
  destruct (operation_outputs da !! (id, fid)) as [r|] eqn:Er; simpl in Hrest.
  { injection Hrest as <- <-. done. }
  apply bind_inv_ok in Hrest as (out & d1 & Hfo & Hrest).
  apply bind_inv_ok in Hrest as ([] & dc & Hrec & Hret). injection Hret as <- <-.
  split; [done|]. exists out, d1. split; [done|].
  pose proof (Hsame da) as Hs. pose proof (Hcb da Hd) as Hd1. rewrite Hfo in Hs, Hd1.
  unfold same_checkpoint in Hs. simpl in Hs, Hd1.
  apply record_ok_row in Hrec as [Hrow Hdc]; [|done|congruence].
  split; [done|]. intros x' cb' st' en' Hc. unfold runTransactionalStep, transaction, bind.
  by rewrite getOperationResult_run, Hc, Hrow.
Qed.

(** A patch decides the same way every time a workflow reaches it.  Once [checkPatch]
    answered, every later execution over the same checkpoint gets the same answer and
    writes nothing, and when the patch is later deprecated, an execution over the same
    checkpoint still takes the patched branch and skips the marker exactly if there is
    one, so that the step numbers after it do not shift.  A marker of one patch is not a
    marker of another. *)
Theorem checkPatch_deterministic dn id fid p d r d1 :
  checkPatch dn id fid p false d = (Ok r, d1) ->
  forall dn' d2, same_checkpoint id fid d2 d1 ->
    checkPatch dn' id fid p false d2 = (Ok r, d2)
    /\ checkPatch dn' id fid p true d2 = (Ok (PatchResultOf true (hasEntry r)), d2)
    /\ (isPatched r = true -> forall q, q <> p ->
          checkPatch dn' id fid q false d2 = (Ok (PatchResultOf false false), d2)).
Proof.
  intros H dn' d2 Hs.
  assert (exists row, operation_outputs d1 !! (id, fid) = Some row
            /\ r = let m := bool_decide (oo_function_name row = "DBOS.patch-" +:+ p) in
                   PatchResultOf m m) as (row & Hrow & ->).
  { unfold checkPatch in H. destruct (operation_outputs d !! (id, fid)) as [row|] eqn:Er.
    - exists row. destruct (bool_decide _); by simplify_eq.
    - apply bind_inv_ok in H as (c & da & Hup & Hret). injection Hret as <- <-.
      unfold upsert_operation_output in Hup. rewrite Er in Hup.
      apply bind_inv_ok in Hup as ([] & db & _ & Hput). simplify_eq. simpl.
      rewrite lookup_insert_eq. eexists. split; [done|]. simpl. by rewrite bool_decide_true. }
  unfold same_checkpoint in Hs. unfold checkPatch. rewrite Hs, Hrow. cbn [hasEntry isPatched].
  split; [by destruct (bool_decide _)|]. split; [done|].
  intros E1%bool_decide_eq_true q Hq. rewrite bool_decide_false; [done|].
  rewrite E1. intros E. apply Hq. by apply (inj (String.append "DBOS.patch-")) in E.
Qed.

(** A durable sleep ends when its first execution said it would.  The recorded
    deadline is the clock of the first execution plus the duration; a recovered workflow
    that reaches the sleep again, at any later time and with any duration, gets the same
    deadline and changes nothing. *)
Theorem durableSleep_stable x id fid dur now st en d d1 n :
  db_ok d -> operation_outputs d !! (id, fid) = None ->
  durableSleep x id fid dur now st en d = (Ok n, d1) ->
  n = now + dur
  /\ forall x' dur' now' st' en' d2,
       same_checkpoint id fid d2 d1 -> is_cancelled id d2 = false ->
       durableSleep x' id fid dur' now' st' en' d2 = (Ok n, d2).
Proof.
  intros Hd Hn H. unfold durableSleep in H.
  apply bind_inv_ok in H as (res & da & Hget & Hrest).
  rewrite getOperationResult_run in Hget. destruct (is_cancelled id d); [done|]. simplify_eq.
  rewrite Hn in Hrest. simpl in Hrest.
  apply bind_inv_ok in Hrest as ([] & dc & Hrec & Hret). injection Hret as <- <-.
  apply record_ok_row in Hrec as [Hrow _]; [|done|done].
  split; [done|]. intros x' dur' now' st' en' d2 Hs Hc.
  unfold durableSleep, bind. unfold same_checkpoint in Hs.
  rewrite getOperationResult_run, Hc, Hs, Hrow. simpl. by rewrite parse_stringify_Z.
Qed.

(** The waiting loop pauses until the deadline and not longer, in pauses the timer can
    hold. *)
Lemma sleep_pauses_spec fuel mx now endTime :
  0 < mx -> endTime - now <= Z.of_nat fuel * mx ->
  let ps := sleep_pauses fuel mx now endTime in
  foldr Z.add 0 ps = Z.max 0 (endTime - now) /\ Forall (fun p => 0 < p <= mx) ps.
Proof.
  intros Hmx. revert now. induction fuel as [|fuel IH]; intros now Hf; simpl.
  - split; [lia | constructor].
  - destruct (now <? endTime) eqn:E; break_bool; simpl.
    + destruct (IH (now + Z.min (endTime - now) mx)) as [IH1 IH2]; [nia|].
      split; [rewrite IH1; lia|]. constructor; [lia|done].
    + split; [lia | constructor].
Qed.

(** * Witnesses *)

Definition ex_step_db : sysdb :=
  ex_db <| operation_outputs := {[ ("wf-1", 0) :=
    op_row_of "charge" 10 20 (no_options <| op_output := Some "7" |>) ]} |>.

Lemma ex_step_db_ok : db_ok ex_step_db.
Proof.
  apply (db_ok_insert_op ex_db "wf-1" 0); [apply ex_db_ok | eexists; apply ex_lookup].
Defined.

Lemma ex_step_row :
  operation_outputs ex_step_db !! ("wf-1", 0)
  = Some (op_row_of "charge" 10 20 (no_options <| op_output := Some "7" |>)).
Proof. vm_compute. reflexivity. Defined.

Lemma record_first_writer_wins_witness :
  (recordOperationResult "exec-b" "wf-1" 0 "charge" true 30 40
     (no_options <| op_output := Some "8" |>) ex_step_db).1
  = Throw (DBOSWorkflowConflictError "wf-1").
Proof.
  destruct (record_first_writer_wins "exec-b" "wf-1" 0 "charge" true 30 40
    (no_options <| op_output := Some "8" |>) ex_step_db _ ex_step_db_ok ex_step_row)
    as (_ & H & _).
  rewrite H; [reflexivity | discriminate].
Defined.

Lemma run_once_replays_witness :
  exists d1, runAndRecordResult "exec-a" "charge" "wf-1" 0 (ret (Some "7")) 10 20 ex_db
             = (Ok (Some "7"), d1)
    /\ runAndRecordResult "exec-b" "charge" "wf-1" 0 (ret (Some "8")) 30 40 d1
       = (Ok (Some "7"), d1).
Proof.
  eexists. assert (forall d1,
    runAndRecordResult "exec-a" "charge" "wf-1" 0 (ret (Some "7")) 10 20 ex_db
      = (Ok (Some "7"), d1) -> is_cancelled "wf-1" d1 = false ->
    runAndRecordResult "exec-a" "charge" "wf-1" 0 (ret (Some "7")) 10 20 ex_db
      = (Ok (Some "7"), d1)
    /\ runAndRecordResult "exec-b" "charge" "wf-1" 0 (ret (Some "8")) 30 40 d1
       = (Ok (Some "7"), d1)) as H.
  { intros d1 Hrun Hc. split; [exact Hrun|].
    exact (proj1 (run_once_replays "exec-a" "charge" "wf-1" 0 (ret (Some "7")) 10 20 ex_db
      (Some "7") d1 ex_db_ok (preserves_ret _ _) (fun _ => eq_refl) Hrun
      "exec-b" (ret (Some "8")) 30 40 d1 eq_refl Hc)). }
  apply H; vm_compute; reflexivity.
Defined.

Lemma runTransactionalStep_atomic_witness :
  (runTransactionalStep "exec-a" "wf-1" 0 "charge" (throw (JsError "boom")) 10 20 ex_db).2
  = ex_db.
Proof.
  pose proof (runTransactionalStep_atomic "exec-a" "wf-1" 0 "charge" (throw (JsError "boom"))
    10 20 ex_db _ _ ex_db_ok (preserves_throw _ _) (fun _ => eq_refl) (surjective_pairing _)) as H.
  vm_compute in H. vm_compute. exact H.
Defined.

Lemma checkPatch_deterministic_witness :
  exists d1, checkPatch 5 "wf-1" 0 "p" false ex_db = (Ok (PatchResultOf true true), d1)
    /\ checkPatch 9 "wf-1" 0 "p" false d1 = (Ok (PatchResultOf true true), d1).
Proof.
  eexists. assert (forall d1,
    checkPatch 5 "wf-1" 0 "p" false ex_db = (Ok (PatchResultOf true true), d1) ->
    checkPatch 5 "wf-1" 0 "p" false ex_db = (Ok (PatchResultOf true true), d1)
    /\ checkPatch 9 "wf-1" 0 "p" false d1 = (Ok (PatchResultOf true true), d1)) as H.
  { intros d1 Hrun. split; [exact Hrun|].
    exact (proj1 (checkPatch_deterministic 5 "wf-1" 0 "p" ex_db _ d1 Hrun 9 d1 eq_refl)). }
  apply H. vm_compute. reflexivity.
Defined.

Lemma durableSleep_stable_witness :
  exists d1, durableSleep "exec-a" "wf-1" 1 5000 100 100 101 ex_db = (Ok 5100, d1)
    /\ durableSleep "exec-b" "wf-1" 1 5000 3000 3000 3001 d1 = (Ok 5100, d1).
Proof.
  eexists. assert (forall d1,
    durableSleep "exec-a" "wf-1" 1 5000 100 100 101 ex_db = (Ok 5100, d1) ->
    is_cancelled "wf-1" d1 = false ->
    durableSleep "exec-a" "wf-1" 1 5000 100 100 101 ex_db = (Ok 5100, d1)
    /\ durableSleep "exec-b" "wf-1" 1 5000 3000 3000 3001 d1 = (Ok 5100, d1)) as H.
  { intros d1 Hrun Hc. split; [exact Hrun|].
    exact (proj2 (durableSleep_stable "exec-a" "wf-1" 1 5000 100 100 101 ex_db d1 5100 ex_db_ok
      eq_refl Hrun) "exec-b" 5000 3000 3000 3001 d1 eq_refl Hc). }
  apply H; vm_compute; reflexivity.
Defined.
