(* ===== verification/Management.v ===== *)
(** Workflow management: the [Workflow Management] section of [SystemDatabase]
    (src/src/system_database.ts) less forking and export: cancelling with the cascade to
    child workflows, resuming, reprioritising, delaying, the search for descendants,
    deletion, garbage collection, and the map of running workflows deletion updates. *)

From stdpp Require Import relations.
From S2P Require Export Steps.

Definition INTERNAL_QUEUE_NAME : string := "_dbos_internal_queue".

(** * Running workflows *)

(** The entries of [runningWorkflowMap], less the promise. *)
Record running_entry : Type := RunningEntry {
  re_queueName : option string;
  re_queuePartitionKey : option string
}.

#[export] Instance running_entry_eq_dec : EqDecision running_entry.
Proof. solve_decision. Defined.

Notation running_map := (gmap string running_entry).

Definition registerRunningWorkflow (workflowID : string) (queueName queuePartitionKey : option string)
    (m : running_map) : running_map :=
  <[workflowID := RunningEntry queueName queuePartitionKey]> m.

Definition checkForRunningWorkflow (workflowID : string) (m : running_map) : bool :=
  bool_decide (is_Some (m !! workflowID)).

Definition clearRunningWorkflow (workflowID : string) (m : running_map) : running_map :=
  delete workflowID m.

Definition countRunningWorkflowsForQueue (queueName : string)
    (queuePartitionKey : option string) (m : running_map) : Z :=
  count_where (fun _ e => sql_eqb (re_queueName e) queueName
                          && opt_eqb (re_queuePartitionKey e) queuePartitionKey) m.

(** * Cancelling *)

(** [status NOT IN (SUCCESS, ERROR)] *)
Definition not_finished (r : wf_row) : bool :=
  negb (bool_decide (ws_status r = SUCCESS)) && negb (bool_decide (ws_status r = ERROR)).

(** The SET clause of [#cancelWorkflows] *)
Definition cancelled (nowMs : Z) (r : wf_row) : wf_row :=
  r <| ws_status := CANCELLED |> <| ws_queue_name := None |> <| ws_deduplication_id := None |>
    <| ws_started_at_epoch_ms := None |> <| ws_updated_at := nowMs |>
    <| ws_completed_at := Some nowMs |>.

(** [#cancelWorkflows]: one statement. *)
Definition cancelStatement (nowMs : Z) (workflowIDs : list string) : DB unit :=
  update_workflow_status (fun id r => mem id workflowIDs && not_finished r) (cancelled nowMs) ;*
  ret tt.

(** [#getDirectChildren] *)
Definition getDirectChildren (workflowIDs : list string) (d : sysdb) : list string :=
  match workflowIDs with
  | [] => []
  | _ => (select_where (fun _ r => match ws_parent_workflow_id r with
                                   | Some p => mem p workflowIDs
                                   | None => false
                                   end) (workflow_status d)).*1
  end.

(** The level-by-level loop of [cancelWorkflows]; each level reads the clock once, and
    the clock readings bound the number of levels. *)
Fixpoint cancel_levels (clock : list Z) (visited frontier : list string) : DB unit :=
  match clock, frontier with
  | nowMs :: clock', _ :: _ =>
      cancelStatement nowMs frontier ;*
      let* d := get in
      let frontier' := filter (fun id => id ∉ visited) (getDirectChildren frontier d) in
      cancel_levels clock' (visited ++ frontier') frontier'
  | _, _ => ret tt
  end.

(** [cancelWorkflows] *)
Definition cancelWorkflows (clock : list Z) (workflowIDs : list string) (cancelChildren : bool)
    : DB unit :=
  if negb cancelChildren then cancelStatement (default 0 (head clock)) workflowIDs
  else cancel_levels clock (remove_dups workflowIDs) workflowIDs.

(** * Resuming and rescheduling *)

Definition resumed (nowMs : Z) (queueName : option string) (r : wf_row) : wf_row :=
  r <| ws_status := ENQUEUED |>
    <| ws_queue_name := Some (default INTERNAL_QUEUE_NAME queueName) |>
    <| ws_recovery_attempts := 0 |> <| ws_workflow_deadline_epoch_ms := None |>
    <| ws_deduplication_id := None |> <| ws_started_at_epoch_ms := None |>
    <| ws_updated_at := nowMs |> <| ws_completed_at := None |>.

(** [resumeWorkflows] *)
Definition resumeWorkflows (nowMs : Z) (workflowIDs : list string) (queueName : option string)
    : DB unit :=
  update_workflow_status (fun id r => mem id workflowIDs && not_finished r)
    (resumed nowMs queueName) ;*
  ret tt.

(** [setWorkflowPriority] *)
Definition setWorkflowPriority (now : Z) (workflowID : string) (priority : Z) : DB unit :=
  update_workflow_status (fun id r => bool_decide (id = workflowID) && is_queued (ws_status r))
    (fun r => r <| ws_priority := priority |> <| ws_updated_at := now |>) ;*
  ret tt.

(** [setWorkflowDelay] *)
Definition setWorkflowDelay (now : Z) (workflowID : string) (delayUntilEpochMS : Z) : DB unit :=
  update_workflow_status
    (fun id r => bool_decide (id = workflowID) && bool_decide (ws_status r = DELAYED))
    (fun r => r <| ws_delay_until_epoch_ms := Some delayUntilEpochMS |>
                <| ws_updated_at := now |>) ;*
  ret tt.

(** * Descendants, deletion, garbage collection *)

(** The search loop of [getWorkflowChildren]; [fuel] bounds the number of levels. *)
Fixpoint children_levels (fuel : nat) (d : sysdb) (descendants frontier : list string)
    : list string :=
  match fuel, frontier with
  | S fuel', _ :: _ =>
      let frontier' := filter (fun id => id ∉ descendants) (getDirectChildren frontier d) in
      children_levels fuel' d (descendants ++ frontier') frontier'
  | _, _ => descendants
  end.

(** [getWorkflowChildren]: every level but the last finds a new row of the table. *)
Definition getWorkflowChildren (workflowID : string) (d : sysdb) : list string :=
  children_levels (S (size (workflow_status d))) d [] [workflowID].

(** [deleteWorkflows], with the running map it updates. *)
Definition deleteWorkflows (workflowIDs : list string) (deleteChildren : bool) (m : running_map)
    : DB running_map := fun d =>
  let allIds := workflowIDs ++
    (if deleteChildren then concat (map (fun wfid => getWorkflowChildren wfid d) workflowIDs)
     else []) in
  match delete_workflow_status (fun id _ => mem id allIds) d with
  | (Ok _, d') => (Ok (foldr clearRunningWorkflow m allIds), d')
  | (Throw e, d') => (Throw e, d')
  end.

(** [garbageCollect]; a negative OFFSET is an error of the server. *)
Definition garbageCollect (cutoffEpochTimestampMs rowsThreshold : option Z) : DB unit := fun d =>
  let created := order_by (fun a b => b <=? a)
                   (map (fun kr => ws_created_at kr.2) (map_to_list (workflow_status d))) in
  let collect (cutoff : option Z) : outcome dbos_error unit * sysdb :=
    match cutoff with
    | None => (Ok tt, d)
    | Some c => delete_workflow_status
                  (fun _ r => (ws_created_at r <? c) && negb (isWorkflowActive (ws_status r))) d
    end in
  match rowsThreshold with
  | None => collect cutoffEpochTimestampMs
  | Some n =>
      if n - 1 <? 0 then (Throw (DatabaseError "2201X"), d)
      else match created !! Z.to_nat (n - 1), cutoffEpochTimestampMs with
           | Some rowsBased, Some c => collect (Some (if c <? rowsBased then rowsBased else c))
           | Some rowsBased, None => collect (Some rowsBased)
           | None, c => collect c
           end
  end.

(** * Lemmas *)

Lemma tc_last {A} (R : A -> A -> Prop) x z : tc R x z -> exists y, rtc R x y /\ R y z.
Proof.
  revert z. apply tc_ind_r.
  - intros z Hz. exists x. by split.
  - intros y z Hxy Hyz _. exists y. split; [by apply tc_rtc | done].
Qed.

(** [c] was started by [p]. *)
Definition child_of (d : sysdb) (p c : string) : Prop :=
  exists r, workflow_status d !! c = Some r /\ ws_parent_workflow_id r = Some p.

Lemma elem_of_getDirectChildren F d x :
  x ∈ getDirectChildren F d <-> exists p, p ∈ F /\ child_of d p x.
Proof.
  unfold getDirectChildren, child_of.
  destruct F as [|y F]; [split; [intros H; by apply elem_of_nil in H | intros (p & H & _); by apply elem_of_nil in H]|].
  rewrite list_elem_of_fmap. split.
  - intros ([k r] & -> & H). apply elem_of_select_where in H as [Hk Hp]. simpl.
    destruct (ws_parent_workflow_id r) as [p|] eqn:E; [|done]. break_bool. eauto.
  - intros (p & Hp & r & Hr & Hpr). exists (x, r). split; [done|].
    apply elem_of_select_where. split; [done|]. rewrite Hpr. by apply mem_spec.
Qed.

Lemma NoDup_getDirectChildren F d : NoDup (getDirectChildren F d).
Proof. destruct F; [constructor | apply NoDup_select_where]. Qed.

Lemma child_exists d p x : child_of d p x -> x ∈ (map_to_list (workflow_status d)).*1.
Proof.
  intros (r & Hr & _). apply list_elem_of_fmap. exists (x, r).
  split; [done|]. by apply elem_of_map_to_list.
Qed.

(** A duplicate-free list of workflows is no longer than the table. *)
Lemma NoDup_keys_length (d : sysdb) (L : list string) :
  NoDup L -> (forall x, x ∈ L -> exists p, child_of d p x) ->
  (length L <= size (workflow_status d))%nat.
Proof.
  intros HN Hin. rewrite <- length_map_to_list.
  rewrite <- (length_fmap fst). apply submseteq_length, NoDup_submseteq; [done|].
  intros x Hx. destruct (Hin x Hx) as [p Hp]. by eapply child_exists.
Qed.

(** The next frontier of either search: new, existing rows. *)
Lemma NoDup_next (d : sysdb) (V F L : list string) :
  NoDup L -> (forall x, x ∈ L -> x ∈ V) ->
  NoDup (L ++ filter (fun id => id ∉ V) (getDirectChildren F d)).
Proof.
  intros HL Hsub. apply NoDup_app. split; [done|]. split.
  - intros x Hx Hf. apply list_elem_of_filter in Hf as [Hn _]. by apply Hn, Hsub.
  - apply NoDup_filter, NoDup_getDirectChildren.
Qed.

Section search.
Context (d : sysdb) (root : string).

(** The invariant of [getWorkflowChildren]. *)
Record search_inv (V F : list string) : Prop := SearchInv {
  si_nodup : NoDup V;
  si_sound : forall x, x ∈ V -> tc (child_of d) root x;
  si_frontier : forall x, x ∈ F -> x = root \/ x ∈ V;
  si_closed : forall x y, x = root \/ x ∈ V -> x ∉ F -> child_of d x y -> y ∈ V
}.

Lemma search_inv_init : search_inv [] [root].
Proof. split; [constructor | set_solver | set_solver | set_solver]. Qed.

Lemma search_inv_step V F :
  search_inv V F ->
  let F' := filter (fun id => id ∉ V) (getDirectChildren F d) in
  search_inv (V ++ F') F'.
Proof.
  intros [Hn Hs Hf Hc] F'. split.
  - by apply NoDup_next.
  - intros x [Hx|Hx]%elem_of_app; [by apply Hs|].
    apply list_elem_of_filter in Hx as [_ Hx].
    apply elem_of_getDirectChildren in Hx as (p & Hp & Hch).
    destruct (Hf p Hp) as [->|HV]; [by apply tc_once|].
    eapply tc_r; [by apply Hs|done].
  - set_solver.
  - intros x y Hx HF Hch. destruct (decide (y ∈ V)) as [|HyV]; [set_solver|].
    apply elem_of_app. right. apply list_elem_of_filter. split; [done|].
    apply elem_of_getDirectChildren. exists x. split; [|done].
    destruct (decide (x ∈ F)) as [|HxF]; [done|]. destruct HyV. eapply Hc; [|done..].
    set_solver.
Qed.

Lemma children_levels_closed fuel V F :
  search_inv V F -> F = [] \/ (size (workflow_status d) < fuel + length V)%nat ->
  search_inv (children_levels fuel d V F) [].
Proof.
  revert V F. induction fuel as [|fuel IH]; intros V F Hinv Hm.
  - destruct Hm as [->|Hm]; [done|]. exfalso.
    pose proof (NoDup_keys_length d V (si_nodup _ _ Hinv)) as Hl.
    assert (length V <= size (workflow_status d))%nat; [|simpl in Hm; lia]. apply Hl.
    intros x Hx. pose proof (si_sound _ _ Hinv x Hx) as Ht.
    apply tc_last in Ht as (p & _ & Hp). eauto.
  - destruct F as [|f F]; [done|]. cbn [children_levels]. apply IH; [by apply search_inv_step|].
    destruct (filter _ _) as [|y F'] eqn:E; [by left|]. right.
    destruct Hm as [|Hm]; [done|]. rewrite length_app. simpl. lia.
Qed.

End search.

Lemma getWorkflowChildren_inv workflowID d :
  search_inv d workflowID (getWorkflowChildren workflowID d) [].
Proof.
  apply children_levels_closed; [apply search_inv_init | right; simpl; lia].
Qed.

Lemma getWorkflowChildren_exact_tc workflowID d x :
  x ∈ getWorkflowChildren workflowID d <-> tc (child_of d) workflowID x.
Proof.
  destruct (getWorkflowChildren_inv workflowID d) as [_ Hs _ Hc]. split; [apply Hs|].
  intros Ht. apply tc_last in Ht as (p & Hp & Hx).
  assert (p = workflowID \/ p ∈ getWorkflowChildren workflowID d) as Hin.
  { clear Hx. revert p Hp. apply rtc_ind_r; [by left|]. intros a b _ Hab IH.
    right. eapply (Hc a); [done|set_solver|done]. }
  eapply (Hc p); [done|set_solver|done].
Qed.

(** C13: the descendant search terminates and is exact: with fuel one more than the
    number of rows it returns every workflow that was started, directly or through
    other workflows, by the given one, each exactly once, even when the parent links
    form a cycle. *)
Theorem getWorkflowChildren_exact workflowID d :
  NoDup (getWorkflowChildren workflowID d)
  /\ forall x, x ∈ getWorkflowChildren workflowID d <-> tc (child_of d) workflowID x.
Proof.
  split; [apply getWorkflowChildren_inv | apply getWorkflowChildren_exact_tc].
Qed.

(** * The cancellation cascade *)

Lemma cancelled_idem_fields now r :
  ws_parent_workflow_id (cancelled now r) = ws_parent_workflow_id r.
Proof. done. Qed.

Lemma cancelStatement_run nowMs ids d :
  dedup_unique (workflow_status d) ->
  cancelStatement nowMs ids d
  = (Ok tt, d <| workflow_status ::=
                   update_where (fun id r => mem id ids && not_finished r) (cancelled nowMs) |>).
Proof.
  intros Hu. unfold cancelStatement, bind. rewrite update_workflow_status_ok; [done|done|].
  intros r. by left.
Qed.

(** [t'] is [t] with the unfinished workflows of [E] cancelled at some reading of the
    clock. *)
Definition cancel_rel (clock : list Z) (E : string -> bool) (t t' : gmap string wf_row) : Prop :=
  forall k, match t !! k with
            | None => t' !! k = None
            | Some r => exists r', t' !! k = Some r'
                /\ if E k && not_finished r
                   then exists nowMs, nowMs ∈ clock /\ r' = cancelled nowMs r
                   else r' = r
            end.

Lemma cancel_rel_parent clock E t d p k :
  cancel_rel clock E t (workflow_status d) ->
  child_of d p k <-> exists r, t !! k = Some r /\ ws_parent_workflow_id r = Some p.
Proof.
  intros Hrel. specialize (Hrel k). unfold child_of.
  destruct (t !! k) as [r|] eqn:Er; [|rewrite Hrel; naive_solver].
  destruct Hrel as (r' & -> & H).
  assert (ws_parent_workflow_id r' = ws_parent_workflow_id r) as Hp.
  { destruct (E k && not_finished r); [destruct H as (? & _ & ->)|subst]; done. }
  split; intros (? & [= <-] & ?); eexists; (split; [done|congruence]).
Qed.

Lemma cancel_rel_step clock E F nowMs t t1 :
  cancel_rel clock E t t1 -> nowMs ∈ clock -> (forall x, x ∈ F -> E x = false) ->
  cancel_rel clock (fun k => E k || mem k F) t
    (update_where (fun id r => mem id F && not_finished r) (cancelled nowMs) t1).
Proof.
  intros Hrel Hn Hd k. specialize (Hrel k). rewrite lookup_update_where.
  destruct (t !! k) as [r|] eqn:Er; [|by rewrite Hrel].
  destruct Hrel as (r' & -> & H). simpl. eexists. split; [done|].
  destruct (mem k F) eqn:EF; simpl.
  - apply mem_spec in EF. rewrite (Hd _ EF) in H. simpl in H. subst.
    rewrite (Hd _ EF). simpl. destruct (not_finished r); eauto.
  - by rewrite orb_false_r.
Qed.

Lemma cancel_rel_ext clock E E' t t' :
  (forall k, E k = E' k) -> cancel_rel clock E t t' -> cancel_rel clock E' t t'.
Proof.
  intros HE Hrel k. specialize (Hrel k). destruct (t !! k); [|done].
  by rewrite <- HE.
Qed.

Section cascade.
Context (all_clock : list Z) (d0 : sysdb) (roots : list string).

(** The invariant of the loop: [L] is what the search found beyond the roots. *)
Record cascade_inv (V F : list string) (d : sysdb) : Prop := CascadeInv {
  ci_found : exists L, V = remove_dups roots ++ L /\ NoDup L
               /\ forall x, x ∈ L -> exists p, child_of d0 p x;
  ci_frontier : forall x, x ∈ F -> x ∈ V;
  ci_sound : forall x, x ∈ V -> exists root, root ∈ roots /\ rtc (child_of d0) root x;
  ci_closed : forall x y, x ∈ V -> x ∉ F -> child_of d0 x y -> y ∈ V;
  ci_rel : cancel_rel all_clock (fun k => mem k V && negb (mem k F))
             (workflow_status d0) (workflow_status d);
  ci_unique : dedup_unique (workflow_status d);
  ci_rest : d = d0 <| workflow_status := workflow_status d |>
}.

Lemma cascade_child V F d p k : cascade_inv V F d -> child_of d p k <-> child_of d0 p k.
Proof. intros Hinv. by rewrite cancel_rel_parent by apply Hinv. Qed.

Lemma cascade_inv_step V F d nowMs :
  cascade_inv V F d -> nowMs ∈ all_clock ->
  let d' := d <| workflow_status ::=
               update_where (fun id r => mem id F && not_finished r) (cancelled nowMs) |> in
  let F' := filter (fun id => id ∉ V) (getDirectChildren F d') in
  cascade_inv (V ++ F') F' d'.
Proof.
  intros Hinv Hnow d' F'. pose proof Hinv as [(L & HV & HL & HLc) Hf Hs Hc Hr Hu He].
  assert (cancel_rel all_clock (fun k => mem k V) (workflow_status d0) (workflow_status d'))
    as Hrel.
  { eapply cancel_rel_ext; [|apply cancel_rel_step; [exact Hr|exact Hnow|]].
    - intros k. simpl. destruct (mem k F) eqn:EF; [|by rewrite andb_true_r, orb_false_r].
      apply mem_spec, Hf in EF. rewrite orb_true_r. symmetry. by apply mem_spec.
    - intros x Hx. apply mem_spec in Hx. simpl. by rewrite Hx, andb_false_r. }
  assert (forall p k, child_of d' p k <-> child_of d0 p k) as Hch.
  { intros p k. by rewrite cancel_rel_parent by exact Hrel. }
  assert (forall x, x ∈ F' <-> x ∉ V /\ exists p, p ∈ F /\ child_of d0 p x) as HF'.
  { intros x. unfold F'. rewrite list_elem_of_filter, elem_of_getDirectChildren.
    by setoid_rewrite Hch. }
  split.
  - exists (L ++ F'). split; [by rewrite HV, <- app_assoc|]. split.
    + apply NoDup_next; [done|]. intros x Hx. rewrite HV. set_solver.
    + intros x [Hx|Hx]%elem_of_app; [by apply HLc|]. apply HF' in Hx. naive_solver.
  - set_solver.
  - intros x [Hx|Hx]%elem_of_app; [by apply Hs|].
    apply HF' in Hx as (_ & p & Hp & Hpx). destruct (Hs p (Hf p Hp)) as (root & ? & ?).
    exists root. split; [done|]. by eapply rtc_r.
  - intros x y Hx HF Hxy. destruct (decide (y ∈ V)) as [|HyV]; [set_solver|].
    apply elem_of_app. right. apply HF'. split; [done|]. exists x. split; [|done].
    destruct (decide (x ∈ F)) as [|HxF]; [done|]. destruct HyV. apply (Hc x); [|done..].
    set_solver.
  - eapply cancel_rel_ext; [|exact Hrel]. intros k. simpl.
    destruct (mem k F') eqn:E1, (mem k V) eqn:E2; break_bool; symmetry.
    + apply HF' in E1 as [? _]. done.
    + by rewrite andb_false_r.
    + rewrite andb_true_r. apply mem_spec. set_solver.
    + rewrite andb_true_r. apply mem_false. set_solver.
  - apply dedup_unique_update; [|done]. intros r. by left.
  - unfold d'. rewrite He. by destruct d0.
Qed.

Lemma cancel_levels_run clock V F d :
  cascade_inv V F d -> (forall x, x ∈ clock -> x ∈ all_clock) ->
  F = [] \/ (size (workflow_status d0) + length (remove_dups roots) < length clock + length V)%nat ->
  exists V' d', cancel_levels clock V F d = (Ok tt, d') /\ cascade_inv V' [] d'
    /\ forall x, x ∈ V -> x ∈ V'.
Proof.
  revert V F d. induction clock as [|nowMs clock IH]; intros V F d Hinv Hclock Hm.
  - destruct Hm as [->|Hm].
    { exists V, d. split; [done|]. by split. }
    exfalso. destruct (ci_found _ _ _ Hinv) as (L & HV & HL & HLc).
    pose proof (NoDup_keys_length d0 L HL HLc). rewrite HV, length_app in Hm.
    simpl in Hm. lia.
  - destruct F as [|f F]; [by exists V, d|]. cbn [cancel_levels].
    set (F0 := f :: F) in *. unfold bind at 1.
    rewrite cancelStatement_run by apply Hinv. unfold bind, get.
    pose proof (cascade_inv_step V F0 d nowMs Hinv ltac:(apply Hclock; set_solver)) as Hinv'.
    simpl in Hinv'.
    destruct (IH _ _ _ Hinv') as (V' & d' & Hrun & Hfin & Hsub).
    + intros x Hx. apply Hclock. set_solver.
    + destruct (filter _ _) as [|y F'] eqn:E; [by left|]. right.
      destruct Hm as [|Hm]; [done|]. rewrite length_app. simpl in *. lia.
    + exists V', d'. split; [exact Hrun|]. split; [done|]. set_solver.
Qed.

End cascade.

(** C12: cancelling with the cascade cancels exactly the given workflows and all their
    descendants that have not finished, at some reading of the clock: they leave their
    queue, release their deduplication ID and become CANCELLED; a finished workflow, a
    workflow outside the family, and every other table keep their value.  It terminates
    after at most as many levels as the table has rows, plus one. *)
Theorem cancelWorkflows_cascade clock ids d :
  dedup_unique (workflow_status d) -> (size (workflow_status d) < length clock)%nat ->
  exists d', cancelWorkflows clock ids true d = (Ok tt, d')
    /\ d' = d <| workflow_status := workflow_status d' |>
    /\ forall k, match workflow_status d !! k with
         | None => workflow_status d' !! k = None
         | Some r => exists r', workflow_status d' !! k = Some r' /\
             ((exists root, root ∈ ids /\ rtc (child_of d) root k) /\ not_finished r = true
              /\ (exists nowMs, nowMs ∈ clock /\ r' = cancelled nowMs r)
              \/ ~ ((exists root, root ∈ ids /\ rtc (child_of d) root k)
                    /\ not_finished r = true)
              /\ r' = r)
         end.
Proof.
  intros Hu Hc. unfold cancelWorkflows. simpl.
  assert (cascade_inv clock d ids (remove_dups ids) ids d) as Hinv.
  { split; [exists []; rewrite app_nil_r; split; [done|]; split; [constructor|set_solver]
           | intros x; by rewrite elem_of_remove_dups | | | | done | by destruct d].
    - intros x. rewrite elem_of_remove_dups. intros Hx. by exists x.
    - intros x y. rewrite elem_of_remove_dups. done.
    - intros k. destruct (workflow_status d !! k) as [r|]; [|done]. exists r. split; [done|].
      assert (mem k (remove_dups ids) && negb (mem k ids) = false) as ->; [|done].
      destruct (mem k ids) eqn:E; [by rewrite andb_false_r|]. break_bool.
      rewrite andb_true_r. apply mem_false. by rewrite elem_of_remove_dups. }
  destruct (cancel_levels_run clock d ids clock _ _ _ Hinv) as (V & d' & Hrun & Hfin & Hsub);
    [done|right; lia|].
  exists d'. split; [exact Hrun|]. destruct Hfin as [_ _ Hs Hcl Hr _ He]. split; [done|].
  assert (forall k, mem k V = true <-> exists root, root ∈ ids /\ rtc (child_of d) root k) as HV.
  { intros k. rewrite mem_spec. split; [apply Hs|]. intros (root & Hroot & Hrt).
    revert k Hrt. apply rtc_ind_r; [apply Hsub; by rewrite elem_of_remove_dups|].
    intros x y _ Hxy IH. eapply Hcl; [exact IH | set_solver | done]. }
  intros k. specialize (Hr k). destruct (workflow_status d !! k) as [r|]; [|done].
  destruct Hr as (r' & Hr' & H). exists r'. split; [done|].
  assert (mem k [] = false) as Hnil by (apply mem_false; set_solver).
  rewrite Hnil, andb_true_r in H.
  destruct (mem k V && not_finished r) eqn:E.
  - apply andb_true_iff in E as [E1 E2]. left. by rewrite <- HV.
  - right. split; [|done]. rewrite <- HV. intros [E1 E2]. by rewrite E1, E2 in E.
Qed.

(** * Deletion and garbage collection *)

Lemma clearRunning_all ids (m : running_map) k :
  foldr clearRunningWorkflow m ids !! k = if mem k ids then None else m !! k.
Proof.
  induction ids as [|x ids IH]; [by rewrite (proj2 (mem_false k [])) by set_solver|].
  change (foldr clearRunningWorkflow m (x :: ids)) with (delete x (foldr clearRunningWorkflow m ids)).
  destruct (decide (k = x)) as [->|Hne].
  - rewrite lookup_delete_eq, (proj2 (mem_spec x (x :: ids))); [done|set_solver].
  - rewrite lookup_delete_ne, IH by done. destruct (mem k ids) eqn:E; break_bool.
    + by rewrite (proj2 (mem_spec k (x :: ids))) by set_solver.
    + by rewrite (proj2 (mem_false k (x :: ids))) by set_solver.
Qed.

(** Everything the database holds about a workflow: its row and its rows in the child
    tables. *)
Definition same_workflow (id : string) (d d' : sysdb) : Prop :=
  workflow_status d !! id = workflow_status d' !! id
  /\ (forall fid, operation_outputs d !! (id, fid) = operation_outputs d' !! (id, fid))
  /\ (forall key, workflow_events d !! (id, key) = workflow_events d' !! (id, key))
  /\ (forall fid key, workflow_events_history d !! (id, fid, key)
                      = workflow_events_history d' !! (id, fid, key))
  /\ (forall key off, streams d !! (id, key, off) = streams d' !! (id, key, off))
  /\ (forall m r, nt_destination_uuid r = id ->
        notifications d !! m = Some r <-> notifications d' !! m = Some r).

(** A cascading delete splits the workflows: those it matches are gone with everything
    that belongs to them, the others keep everything. *)
Lemma delete_workflow_status_spec p d id :
  db_ok d ->
  let d' := (delete_workflow_status p d).2 in
  match workflow_status d !! id with
  | Some r => if p id r then same_workflow id d' empty_db else same_workflow id d d'
  | None => same_workflow id d d' /\ same_workflow id d' empty_db
  end.
Proof.
  intros [_ Ho Hn He Hh Hs] d'.
  assert (forall b, match workflow_status d !! id with Some r => p id r | None => false end = b ->
    if b then same_workflow id d' empty_db else same_workflow id d d') as Hdead.
  { intros b Hb. subst d'. unfold delete_workflow_status, same_workflow.
    cbn [snd workflow_status operation_outputs notifications workflow_events
         workflow_events_history streams set].
    destruct b.
    - repeat split; intros; rewrite ?lookup_delete_where in *; cbn in *; rewrite ?Hb.
      + destruct (workflow_status d !! id); [by rewrite Hb | done].
      + by destruct (operation_outputs d !! _).
      + by destruct (workflow_events d !! _).
      + by destruct (workflow_events_history d !! _).
      + by destruct (streams d !! _).
      + destruct (notifications d !! m) as [r0|]; [|done]. case_match eqn:E; [done|].
        simplify_eq. congruence.
      + done.
    - repeat split; intros; rewrite ?lookup_delete_where in *; cbn in *; rewrite ?Hb.
      + destruct (workflow_status d !! id); [by rewrite Hb | done].
      + by destruct (operation_outputs d !! _).
      + by destruct (workflow_events d !! _).
      + by destruct (workflow_events_history d !! _).
      + by destruct (streams d !! _).
      + subst id. destruct (notifications d !! m) as [r0|]; [|done]. simplify_eq.
        by rewrite Hb.
      + destruct (notifications d !! m) as [r0|]; [|done]. by case_match. }
  destruct (workflow_status d !! id) as [r|] eqn:Er.
  - specialize (Hdead (p id r) eq_refl). by destruct (p id r).
  - specialize (Hdead false eq_refl). split; [done|].
    destruct Hdead as (H1 & H2 & H3 & H4 & H5 & H6).
    assert (~ wf_exists d id) as Hno by (unfold wf_exists; rewrite Er; by intros [? ?]).
    clearbody d'. repeat split; intros.
    + by rewrite <- H1, Er.
    + rewrite <- H2. destruct (operation_outputs d !! _) eqn:E; [|done]. by apply Ho in E.
    + rewrite <- H3. destruct (workflow_events d !! _) eqn:E; [|done]. by apply He in E.
    + rewrite <- H4. destruct (workflow_events_history d !! _) eqn:E; [|done]. by apply Hh in E.
    + rewrite <- H5. destruct (streams d !! _) eqn:E; [|done]. by apply Hs in E.
    + apply H6 in H0; [|done]. apply Hn in H0. congruence.
    + done.
Qed.

(** C8: Deleting workflows with their children removes exactly the given workflows and
    all their descendants, with their steps, events, event history, streams and messages
    and their entries in the running map; everything about every other workflow stays. *)
Theorem deleteWorkflows_cascade ids m d :
  db_ok d ->
  exists m' d', deleteWorkflows ids true m d = (Ok m', d')
    /\ forall k,
      ((exists root, root ∈ ids /\ rtc (child_of d) root k) ->
         same_workflow k d' empty_db /\ m' !! k = None)
      /\ (~ (exists root, root ∈ ids /\ rtc (child_of d) root k) ->
         same_workflow k d d' /\ m' !! k = m !! k).
Proof.
  intros Hd. unfold deleteWorkflows.
  set (allIds := ids ++ concat (map (fun wfid => getWorkflowChildren wfid d) ids)).
  assert (forall k, mem k allIds = true <-> exists root, root ∈ ids /\ rtc (child_of d) root k)
    as Hall.
  { intros k. rewrite mem_spec. unfold allIds.
    rewrite elem_of_app, (list_elem_of_In (concat _) k), in_concat.
    setoid_rewrite rtc_tc. split.
    - intros [Hk|(l & (wf & <- & Hwf)%in_map_iff & Hk)]; [eauto|].
      exists wf. apply list_elem_of_In in Hk, Hwf. split; [done|]. right.
      by apply getWorkflowChildren_exact_tc.
    - intros (root & Hroot & [->|Ht]); [by left|]. right.
      exists (getWorkflowChildren root d). split.
      + apply in_map_iff. exists root. split; [done|]. by apply list_elem_of_In.
      + apply list_elem_of_In. by apply getWorkflowChildren_exact_tc. }
  eexists _, _. split; [reflexivity|]. intros k. rewrite <- Hall, clearRunning_all.
  pose proof (delete_workflow_status_spec (fun id _ => mem id allIds) d k Hd) as Hs.
  simpl in Hs. destruct (mem k allIds) eqn:E; (split; intros; [|try done]); try done;
    (split; [|done]); destruct (workflow_status d !! k); naive_solver.
Qed.

(** The cutoff [garbageCollect] computes from the row threshold has at least that many
    rows at or above it. *)
Lemma count_newer (d : sysdb) (i : nat) c0 c :
  order_by (fun a b => b <=? a)
    (map (fun kr => ws_created_at kr.2) (map_to_list (workflow_status d))) !! i = Some c0 ->
  c < c0 ->
  (S i <= length (select_where (fun _ r => (c <? ws_created_at r)%Z) (workflow_status d)))%nat.
Proof.
  intros Hi Hlt. unfold select_where.
  rewrite <- (length_filter_map (fun x => c <? x) (fun kr => ws_created_at kr.2)).
  set (l := map _ _) in *.
  rewrite <- (Permutation_length (filter_Permutation_bool _ _ _ (order_by_Permutation (fun a b => b <=? a) l))).
  set (sl := order_by _ l) in *.
  assert (StronglySorted (fun a b => (b <=? a) = true) sl) as Hs.
  { apply (order_by_sorted (fun a b => b <=? a)); intros *; rewrite !Z.leb_le; lia. }
  assert (length (take (S i) sl) = S i) as Hl.
  { rewrite length_take. apply lookup_lt_Some in Hi. lia. }
  rewrite <- (take_drop (S i) sl), List.filter_app, length_app.
  rewrite length_filter_all; [lia|]. intros x Hx.
  pose proof (sorted_prefix_le (fun a b => b <=? a) sl i x c0 Hs) as Hle.
  apply Z.ltb_lt. specialize (Hle (fun a => Z.leb_refl a) Hi Hx). apply Z.leb_le in Hle. lia.
Qed.

(** Garbage collection only deletes finished workflows that are too old.  A row is
    kept as it is, or it is deleted, and then it was neither PENDING, ENQUEUED nor
    DELAYED, and it was created before the given cutoff, or at least as many rows as the
    row threshold are strictly newer than it. *)
Theorem garbageCollect_safe cutoff rows d o d' :
  garbageCollect cutoff rows d = (o, d') ->
  forall k r, workflow_status d !! k = Some r ->
    workflow_status d' !! k = Some r
    \/ workflow_status d' !! k = None
       /\ isWorkflowActive (ws_status r) = false
       /\ ((exists c, cutoff = Some c /\ ws_created_at r < c)
           \/ exists n, rows = Some n
                /\ n <= Z.of_nat (length (select_where
                          (fun _ r' => ws_created_at r <? ws_created_at r') (workflow_status d)))).
Proof.
  intros H k r Hr. unfold garbageCollect in H.
  assert (forall c res, delete_workflow_status
            (fun _ r => (ws_created_at r <? c) && negb (isWorkflowActive (ws_status r))) d
          = (res, d') ->
          workflow_status d' !! k = Some r
          \/ workflow_status d' !! k = None /\ isWorkflowActive (ws_status r) = false
             /\ ws_created_at r < c) as Hdel.
  { intros c res Hdel. unfold delete_workflow_status in Hdel. simplify_eq. simpl.
    rewrite lookup_delete_where, Hr. destruct (_ && _) eqn:E; [|by left]. right.
    by break_bool. }
  assert (forall n c, n - 1 <? 0 = false ->
    order_by (fun a b => b <=? a) (map (fun kr => ws_created_at kr.2)
      (map_to_list (workflow_status d))) !! Z.to_nat (n - 1) = Some c ->
    ws_created_at r < c -> n <= Z.of_nat (length (select_where
      (fun _ r' => ws_created_at r <? ws_created_at r') (workflow_status d)))) as Hcount.
  { intros n c Hn Hc Hlt. pose proof (count_newer d _ _ _ Hc Hlt). break_bool. lia. }
  destruct rows as [n|]; [destruct (n - 1 <? 0) eqn:En; [by injection H as _ <-; left|]|].
  - destruct (order_by _ _ !! Z.to_nat (n - 1)) as [rb|] eqn:Eo, cutoff as [c|];
      try (by injection H as _ <-; left);
      try (destruct (c <? rb)); destruct (Hdel _ _ H) as [?|(? & ? & ?)]; eauto 10.
  - destruct cutoff as [c|]; [|by injection H as _ <-; left].
    destruct (Hdel _ _ H) as [?|(? & ? & ?)]; eauto 10.
Qed.

(** * Preservation of the schema's integrity *)

Lemma preserves_wf_update_unit p f :
  preserves db_ok (update_workflow_status p f ;* ret tt).
Proof. auto with preserves. Qed.

Lemma preserves_cancelWorkflows clock ids b : preserves db_ok (cancelWorkflows clock ids b).
Proof.
  unfold cancelWorkflows. destruct (negb b); [apply preserves_wf_update_unit|].
  generalize (remove_dups ids). revert ids.
  induction clock as [|now clock IH]; intros ids V; [apply preserves_ret|].
  destruct ids as [|x ids]; [apply preserves_ret|]. cbn [cancel_levels].
  apply preserves_bind; [apply preserves_wf_update_unit|]. intros _.
  apply preserves_bind; [apply preserves_get|]. intros d. apply IH.
Qed.

Lemma preserves_deleteWorkflows ids b m : preserves db_ok (deleteWorkflows ids b m).
Proof.
  intros d Hd. unfold deleteWorkflows.
  match goal with |- context [delete_workflow_status ?p d] =>
    pose proof (preserves_delete_workflow_status p d Hd) as H;
    by destruct (delete_workflow_status p d) as [[]] end.
Qed.

Lemma preserves_garbageCollect c n : preserves db_ok (garbageCollect c n).
Proof.
  intros d Hd. unfold garbageCollect.
  repeat case_match; try done; by apply preserves_delete_workflow_status.
Qed.

#[export] Hint Resolve preserves_wf_update_unit preserves_cancelWorkflows
  preserves_deleteWorkflows preserves_garbageCollect : preserves.

(** * Witnesses *)

(** A parent, its running child and a finished grandchild. *)
Definition ex_family : sysdb :=
  empty_db <| workflow_status :=
    {[ "wf-1" := ex_row;
       "wf-2" := ex_row <| ws_parent_workflow_id := Some "wf-1" |>;
       "wf-3" := ex_row <| ws_parent_workflow_id := Some "wf-2" |> <| ws_status := SUCCESS |> ]} |>.

Lemma ex_family_ok : db_ok ex_family.
Proof.
  split; try by intros; simplify_map_eq.
  apply dedup_uniqueb_spec. vm_compute. done.
Defined.

Lemma ex_family_row :
  workflow_status ex_family !! "wf-2" = Some (ex_row <| ws_parent_workflow_id := Some "wf-1" |>).
Proof. vm_compute. reflexivity. Defined.

Lemma ex_family_child : child_of ex_family "wf-1" "wf-2".
Proof. eexists. split; [apply ex_family_row | reflexivity]. Defined.

Lemma cancelWorkflows_cascade_witness :
  exists d', cancelWorkflows [1; 2; 3; 4] ["wf-1"] true ex_family = (Ok tt, d')
    /\ ws_status <$> workflow_status d' !! "wf-2" = Some CANCELLED.
Proof.
  destruct (cancelWorkflows_cascade [1; 2; 3; 4] ["wf-1"] ex_family (ok_dedup _ ex_family_ok)
    ltac:(vm_compute; lia)) as (d' & Hrun & _ & Hk).
  exists d'. split; [exact Hrun|]. specialize (Hk "wf-2"). rewrite ex_family_row in Hk.
  destruct Hk as (r' & Hr' & [(_ & _ & n & _ & E)|(Hno & _)]).
  - rewrite Hr', E. reflexivity.
  - exfalso. apply Hno. split; [|reflexivity]. exists "wf-1".
    split; [by apply list_elem_of_singleton | apply rtc_once, ex_family_child].
Defined.

Lemma deleteWorkflows_cascade_witness :
  exists m' d', deleteWorkflows ["wf-1"] true {[ "wf-2" := RunningEntry None None ]} ex_family
                = (Ok m', d') /\ m' !! "wf-2" = None /\ same_workflow "wf-2" d' empty_db.
Proof.
  destruct (deleteWorkflows_cascade ["wf-1"] {[ "wf-2" := RunningEntry None None ]} ex_family
    ex_family_ok) as (m' & d' & Hrun & Hk).
  exists m', d'. split; [exact Hrun|]. destruct (proj1 (Hk "wf-2")) as [H1 H2]; [|by split].
  exists "wf-1". split; [by apply list_elem_of_singleton | apply rtc_once, ex_family_child].
Defined.

Lemma garbageCollect_safe_witness :
  workflow_status (garbageCollect (Some 9999) (Some 1) ex_family).2 !! "wf-2"
  = Some (ex_row <| ws_parent_workflow_id := Some "wf-1" |>).
Proof.
  destruct (garbageCollect_safe (Some 9999) (Some 1) ex_family _ _ (surjective_pairing _)
    "wf-2" _ ex_family_row) as [H|(_ & H & _)]; [exact H | discriminate H].
Defined.
