(* ===== verification/Fork.v ===== *)
(** Copying workflows: [forkWorkflow], [forkFromFailure] and [bulkForkWorkflows], which
    restart a workflow from one of its steps under a new ID, and [exportWorkflow] and
    [importWorkflow], which move workflows between databases
    (src/src/system_database.ts). *)

From S2P Require Export Management.

(** * Child tables *)

(** What the copying statements need of a table whose rows belong to a workflow: which
    workflow a key belongs to, and how to replace the table in the database. *)
Class ChildTable {K A : Type} `{Countable K} (tbl : sysdb -> gmap K A) : Type := {
  owner : K -> string;
  put_table : gmap K A -> sysdb -> sysdb;
  table_put : forall t d, tbl (put_table t d) = t;
  put_status : forall t d, workflow_status (put_table t d) = workflow_status d;
  put_put : forall t t' d, put_table t (put_table t' d) = put_table t d;
  put_same : forall d, put_table (tbl d) d = d
}.

#[export] Instance operation_outputs_child : ChildTable operation_outputs.
Proof.
  refine {| owner := fun k => k.1; put_table := fun t d => d <| operation_outputs := t |> |};
    by intros; try destruct d.
Defined.

#[export] Instance workflow_events_child : ChildTable workflow_events.
Proof.
  refine {| owner := fun k => k.1; put_table := fun t d => d <| workflow_events := t |> |};
    by intros; try destruct d.
Defined.

#[export] Instance workflow_events_history_child : ChildTable workflow_events_history.
Proof.
  refine {| owner := fun k => k.1.1;
            put_table := fun t d => d <| workflow_events_history := t |> |};
    by intros; try destruct d.
Defined.

#[export] Instance streams_child : ChildTable streams.
Proof.
  refine {| owner := fun k => k.1.1; put_table := fun t d => d <| streams := t |> |};
    by intros; try destruct d.
Defined.

(** Inserts rows one after the other; a duplicate key fails. *)
Fixpoint insert_all {K A} `{Countable K} (rows : list (K * A)) (t : gmap K A)
    : option (gmap K A) :=
  match rows with
  | [] => Some t
  | (k, r) :: rest =>
      match t !! k with
      | Some _ => None
      | None => insert_all rest (<[k := r]> t)
      end
  end.

(** One [INSERT] statement of several rows: the unique key is checked as the rows go in,
    the foreign key at the end of the statement. *)
Definition insert_rows {K A} `{Countable K} (tbl : sysdb -> gmap K A) `{!ChildTable tbl}
    (rows : list (K * A)) : DB unit := fun d =>
  match insert_all rows (tbl d) with
  | None => (Throw unique_violation, d)
  | Some t =>
      if forallb (fun kr => bool_decide (is_Some (workflow_status d !! owner kr.1))) rows
      then (Ok tt, put_table t d)
      else (Throw foreign_key_violation, d)
  end.

(** * Forking *)

(** [options] of [forkWorkflow]; [replacementChildren] keeps the order of its entries. *)
Record ForkOptions : Type := ForkOptionsOf {
  fk_applicationVersion : option string;
  fk_timeoutMS : option Z;
  fk_queueName : option string;
  fk_queuePartitionKey : option string;
  fk_replacementChildren : list (string * string)
}.

(** [x ? JSON.stringify(x) : null] on a JSONB value *)
Definition truthy_json (j : option json) : option json :=
  match j with
  | Some JNull | Some (JBool false) | Some (JNum 0) | Some (JStr EmptyString) => None
  | _ => j
  end.

(** The row inserted for a fork; the columns that are not listed take their defaults. *)
Definition fork_row (nowMs : Z) (o : ForkOptions) (origID : string) (ws : wf_row) : wf_row :=
  {| ws_status := ENQUEUED;
     ws_name := ws_name ws;
     ws_class_name := ws_class_name ws;
     ws_config_name := ws_config_name ws;
     ws_authenticated_user := ws_authenticated_user ws;
     ws_assumed_role := ws_assumed_role ws;
     ws_authenticated_roles := ws_authenticated_roles ws;
     ws_request := ws_request ws;
     ws_output := None;
     ws_error := None;
     ws_executor_id := None;
     ws_created_at := nowMs;
     ws_updated_at := nowMs;
     ws_application_version := match fk_applicationVersion o with
                               | Some v => Some v | None => ws_application_version ws end;
     ws_application_id := ws_application_id ws;
     ws_recovery_attempts := 0;
     ws_queue_name := Some (default INTERNAL_QUEUE_NAME (fk_queueName o));
     ws_workflow_timeout_ms := fk_timeoutMS o;
     ws_workflow_deadline_epoch_ms := None;
     ws_inputs := ws_inputs ws;
     ws_started_at_epoch_ms := None;
     ws_deduplication_id := None;
     ws_priority := 0;
     ws_queue_partition_key := fk_queuePartitionKey o;
     ws_forked_from := Some origID;
     ws_was_forked_from := false;
     ws_owner_xid := None;
     ws_parent_workflow_id := None;
     ws_serialization := ws_serialization ws;
     ws_delay_until_epoch_ms := None;
     ws_rate_limited := false;
     ws_completed_at := None;
     ws_attributes := truthy_json (ws_attributes ws);
     ws_schedule_name := None;
     ws_debounce_deadline_epoch_ms := None;
     ws_is_debounced := false |}.

(** One row of the mapping CTE *)
Record fork_mapping : Type := ForkMapping {
  m_orig : string;
  m_fork : string;
  m_start : Z
}.

(** [CASE WHEN child_workflow_id = old THEN new ... ELSE child_workflow_id END] *)
Definition replace_child (reps : list (string * string)) (c : option string) : option string :=
  match c with
  | None => None
  | Some id => match List.find (fun p => String.eqb p.1 id) reps with
               | Some p => Some p.2
               | None => Some id
               end
  end.

(** The four [INSERT ... SELECT ... FROM mapping JOIN table] *)
Definition copy_operations (reps : list (string * string)) (d : sysdb) (m : fork_mapping)
    : list (string * Z * op_row) :=
  (fun kr => ((m_fork m, kr.1.2),
              kr.2 <| oo_child_workflow_id ::= replace_child reps |>)) <$>
  select_where (fun k _ => bool_decide (k.1 = m_orig m) && (k.2 <? m_start m))
    (operation_outputs d).

Definition copy_streams (d : sysdb) (m : fork_mapping) : list (string * string * Z * stream_row) :=
  (fun kr => ((m_fork m, kr.1.1.2, kr.1.2), kr.2)) <$>
  select_where (fun k r => bool_decide (k.1.1 = m_orig m) && (st_function_id r <? m_start m))
    (streams d).

(** The rows of the event history a fork inherits *)
Definition inherited_history (d : sysdb) (m : fork_mapping)
    : list (string * Z * string * event_row) :=
  select_where (fun k _ => bool_decide (k.1.1 = m_orig m) && (k.1.2 <? m_start m))
    (workflow_events_history d).

Definition copy_history (d : sysdb) (m : fork_mapping) : list (string * Z * string * event_row) :=
  (fun kr => ((m_fork m, kr.1.1.2, kr.1.2), kr.2)) <$> inherited_history d m.

(** [ROW_NUMBER() OVER (PARTITION BY part ORDER BY ...) = 1] on rows already in order *)
Fixpoint first_of_partition {A P} `{EqDecision P} (part : A -> P) (seen : list P) (l : list A)
    : list A :=
  match l with
  | [] => []
  | x :: l' => if mem (part x) seen then first_of_partition part seen l'
               else x :: first_of_partition part (part x :: seen) l'
  end.

(** The latest inherited version of each event.  The partition is by
    [weh.workflow_uuid], the original workflow, and not by the fork. *)
Definition copy_events (d : sysdb) (ms : list fork_mapping) : list (string * string * event_row) :=
  let joined := concat (map (fun m => (fun h => (m_fork m, h)) <$> inherited_history d m) ms) in
  let ordered := order_by (fun a b => b.2.1.1.2 <=? a.2.1.1.2) joined in
  (fun x => ((x.1, x.2.1.2), x.2.2)) <$>
  first_of_partition (fun x => (x.2.1.1.1, x.2.1.2)) [] ordered.

(** The copying statements for the forks with a start step; [d] is the database they
    read, and no statement writes what a later one reads. *)
Definition copy_checkpoints (reps : list (string * string)) (d : sysdb) (ms : list fork_mapping)
    : DB unit :=
  insert_rows operation_outputs (concat (map (copy_operations reps d) ms)) ;*
  insert_rows streams (concat (map (copy_streams d) ms)) ;*
  insert_rows workflow_events_history (concat (map (copy_history d) ms)) ;*
  insert_rows workflow_events (copy_events d ms).

(** The VALUES list, in the order of the arguments *)
Fixpoint insert_forks (nowMs : Z) (o : ForkOptions) (pairs : list (string * string))
    (statusByID : gmap string wf_row) : DB unit :=
  match pairs with
  | [] => ret tt
  | (origID, forkID) :: rest =>
      match statusByID !! origID with
      | Some ws => insert_workflow_status forkID (fork_row nowMs o origID ws) ;*
                   insert_forks nowMs o rest statusByID
      | None => throw (DBOSNonExistentWorkflowError
                         ("Workflow " +:+ origID +:+ " does not exist"))
      end
  end.

(** The loop that checks that the originals exist *)
Fixpoint check_originals (ids : list string) (statusByID : gmap string wf_row) : DB unit :=
  match ids with
  | [] => ret tt
  | wid :: rest =>
      match statusByID !! wid with
      | None => throw (DBOSNonExistentWorkflowError ("Workflow " +:+ wid +:+ " does not exist"))
      | Some _ => check_originals rest statusByID
      end
  end.

(** [bulkForkWorkflows] *)
Definition bulkForkWorkflows (nowMs : Z) (originalWorkflowIDs forkedWorkflowIDs : list string)
    (startSteps : list Z) (o : ForkOptions) : DB (list string) :=
  match originalWorkflowIDs with
  | [] => ret []
  | _ =>
    if negb (length originalWorkflowIDs =? length forkedWorkflowIDs)%nat
       || negb (length originalWorkflowIDs =? length startSteps)%nat
    then throw (JsError "originalWorkflowIDs, forkedWorkflowIDs, and startSteps must have the same length")
    else transaction (
      let* d := get in
      let statusByID := workflow_status d in
      check_originals originalWorkflowIDs statusByID ;*
      insert_forks nowMs o (zip originalWorkflowIDs forkedWorkflowIDs) statusByID ;*
      update_workflow_status (fun id _ => mem id originalWorkflowIDs)
        (fun r => r <| ws_was_forked_from := true |>) ;*
      let forkMappings := List.filter (fun m => 0 <? m_start m)
        (zip_with (fun p s => ForkMapping p.1 p.2 s)
           (zip originalWorkflowIDs forkedWorkflowIDs) startSteps) in
      match forkMappings with
      | [] => ret forkedWorkflowIDs
      | _ =>
          let* d := get in
          copy_checkpoints (fk_replacementChildren o) d forkMappings ;*
          ret forkedWorkflowIDs
      end)
  end.

(** [forkWorkflow]; [newWorkflowID] is the given ID or the random one. *)
Definition forkWorkflow (nowMs : Z) (workflowID : string) (startStep : Z)
    (newWorkflowID : string) (o : ForkOptions) : DB (option string) :=
  let* ids := bulkForkWorkflows nowMs [workflowID] [newWorkflowID] [startStep] o in
  ret (head ids).

(** The mode of [forkFromFailure]: [fromLastFailure], [fromLastStep], [fromStep] and
    [fromStepName], of which exactly one must be given. *)
Record ForkFromModes : Type := ForkFromModesOf {
  fm_lastFailure : bool;
  fm_lastStep : bool;
  fm_step : option Z;
  fm_stepName : option string
}.

(** [SELECT MAX(function_id) ... GROUP BY workflow_uuid] *)
Definition max_step (p : op_row -> bool) (wid : string) (d : sysdb) : option Z :=
  max_of (fun kr => kr.1.2) (select_where (fun k r => bool_decide (k.1 = wid) && p r) (operation_outputs d)).

(** [start_step] of one workflow *)
Definition start_step (modes : ForkFromModes) (wid : string) (d : sysdb) : option Z :=
  match fm_step modes with
  | Some n => Some n
  | None =>
      if fm_lastFailure modes then
        match max_step (fun r => bool_decide (is_Some (oo_error r))) wid d with
        | Some n => Some n
        | None => max_step (fun _ => true) wid d
        end
      else if fm_lastStep modes then max_step (fun _ => true) wid d
      else max_step (fun r => sql_eqb (Some (oo_function_name r))
                                (default "" (fm_stepName modes))) wid d
  end.

(** The loop that checks that every workflow has a start step *)
Fixpoint start_steps (modes : ForkFromModes) (wids : list string) (d : sysdb)
    : dbos_error + list Z :=
  match wids with
  | [] => inr []
  | wid :: rest =>
      match start_step modes wid d, start_steps modes rest d with
      | None, _ =>
          inl (JsError (match fm_stepName modes with
               | Some n => "Workflow " +:+ wid +:+ " has no step named '" +:+ n +:+ "'"
               | None => "Workflow " +:+ wid +:+ " has no steps"
               end))
      | Some n, inr ns => inr (n :: ns)
      | Some _, inl e => inl e
      end
  end.

(** [forkFromFailure]; [forkedIDs] are the random UUIDs. *)
Definition forkFromFailure (nowMs : Z) (workflowIDs forkedIDs : list string)
    (modes : ForkFromModes) (o : ForkOptions) : DB (list string) := fun d =>
  let count := length (List.filter id
    [fm_lastFailure modes; fm_lastStep modes; bool_decide (is_Some (fm_step modes));
     bool_decide (is_Some (fm_stepName modes))]) in
  if negb (count =? 1)%nat
  then (Throw (JsError "Exactly one of fromLastFailure, fromLastStep, fromStep, or fromStepName must be specified"), d)
  else match start_steps modes workflowIDs d with
       | inl e => (Throw e, d)
       | inr steps => bulkForkWorkflows nowMs workflowIDs forkedIDs steps
                        (ForkOptionsOf (fk_applicationVersion o) None (fk_queueName o)
                           (fk_queuePartitionKey o) []) d
       end.

(** * Export and import *)

(** [ExportedWorkflow]: the rows keep their keys. *)
Record ExportedWorkflow : Type := ExportedWorkflowOf {
  x_workflow_status : string * wf_row;
  x_operation_outputs : list (string * Z * op_row);
  x_workflow_events : list (string * string * event_row);
  x_workflow_events_history : list (string * Z * string * event_row);
  x_streams : list (string * string * Z * stream_row)
}.

(** The rows of [exportWorkflow] for one workflow; [owner_xid] is left out. *)
Definition export_one (d : sysdb) (wfID : string) (r : wf_row) : ExportedWorkflow :=
  {| x_workflow_status := (wfID, r <| ws_owner_xid := None |>);
     x_operation_outputs :=
       select_where (fun k _ => bool_decide (k.1 = wfID)) (operation_outputs d);
     x_workflow_events := select_where (fun k _ => bool_decide (k.1 = wfID)) (workflow_events d);
     x_workflow_events_history :=
       select_where (fun k _ => bool_decide (k.1.1 = wfID)) (workflow_events_history d);
     x_streams := select_where (fun k _ => bool_decide (k.1.1 = wfID)) (streams d) |}.

Fixpoint export_all (wfIDs : list string) (d : sysdb) : dbos_error + list ExportedWorkflow :=
  match wfIDs with
  | [] => inr []
  | wfID :: rest =>
      match workflow_status d !! wfID with
      | None => inl (DBOSNonExistentWorkflowError ("Workflow " +:+ wfID +:+ " does not exist"))
      | Some r => match export_all rest d with
                  | inr xs => inr (export_one d wfID r :: xs)
                  | inl e => inl e
                  end
      end
  end.

(** The workflows an export covers *)
Definition export_ids (workflowID : string) (exportChildren : bool) (d : sysdb) : list string :=
  workflowID :: (if exportChildren then getWorkflowChildren workflowID d else []).

(** [exportWorkflow] *)
Definition exportWorkflow (workflowID : string) (exportChildren : bool) (d : sysdb)
    : dbos_error + list ExportedWorkflow :=
  export_all (export_ids workflowID exportChildren d) d.

(** The imported workflow row: [owner_xid] is not listed, falsy attributes become NULL. *)
Definition import_row (r : wf_row) : wf_row :=
  r <| ws_owner_xid := None |> <| ws_attributes ::= truthy_json |>.

(** One iteration of [importWorkflow]: every row is an [INSERT] of its own. *)
Definition import_one (x : ExportedWorkflow) : DB unit :=
  insert_workflow_status (x_workflow_status x).1 (import_row (x_workflow_status x).2) ;*
  for_each (fun kr => insert_rows operation_outputs [kr]) (x_operation_outputs x) ;*
  for_each (fun kr => insert_rows workflow_events [kr]) (x_workflow_events x) ;*
  for_each (fun kr => insert_rows workflow_events_history [kr]) (x_workflow_events_history x) ;*
  for_each (fun kr => insert_rows streams [kr]) (x_streams x).

(** [importWorkflow] *)
Definition importWorkflow (workflows : list ExportedWorkflow) : DB unit :=
  transaction (for_each import_one workflows).

(** * Lemmas *)

Section insert_rows.
Context {K A : Type} `{Countable K}.

Lemma insert_all_ok (rows : list (K * A)) (t : gmap K A) :
  NoDup rows.*1 -> (forall k r, (k, r) ∈ rows -> t !! k = None) ->
  exists t', insert_all rows t = Some t'
    /\ forall k r, t' !! k = Some r <-> (k, r) ∈ rows \/ t !! k = Some r.
Proof.
  revert t. induction rows as [|[k0 r0] rows IH]; intros t Hn Hf; simpl.
  - exists t. split; [done|]. intros k r. set_solver.
  - simpl in Hn. apply NoDup_cons in Hn as [Hk0 Hn].
    rewrite (Hf k0 r0) by set_solver.
    destruct (IH (<[k0 := r0]> t)) as (t' & Ht' & Hin); [done| |].
    + intros k r Hk. assert (k <> k0) as Hne.
      { intros ->. apply Hk0. apply list_elem_of_fmap. by exists (k0, r). }
      rewrite lookup_insert_ne by done. apply (Hf k r). set_solver.
    + exists t'. split; [done|]. intros k r. rewrite Hin, elem_of_cons.
      destruct (decide (k = k0)) as [->|Hne].
      * rewrite lookup_insert_eq. rewrite (Hf k0 r0) by set_solver.
        split; [naive_solver|]. intros [[[= ->]|Hc]|Hc]; eauto.
        destruct Hk0. apply list_elem_of_fmap. by exists (k0, r).
      * rewrite lookup_insert_ne by done. naive_solver.
Qed.

Context (tbl : sysdb -> gmap K A) `{!ChildTable tbl}.

(** A multi-row [INSERT] of new keys whose workflows exist succeeds. *)
Lemma insert_rows_ok rows d :
  NoDup rows.*1 ->
  (forall k r, (k, r) ∈ rows -> tbl d !! k = None /\ wf_exists d (owner k)) ->
  exists t', insert_rows tbl rows d = (Ok tt, put_table t' d)
    /\ forall k r, t' !! k = Some r <-> (k, r) ∈ rows \/ tbl d !! k = Some r.
Proof.
  intros Hn Hr. destruct (insert_all_ok rows (tbl d) Hn) as (t' & Ht' & Hin).
  { intros k r Hk. by destruct (Hr k r Hk). }
  exists t'. split; [|done]. unfold insert_rows. rewrite Ht'.
  rewrite (proj2 (forallb_forall _ _)); [done|]. intros [k r] Hk%list_elem_of_In.
  destruct (Hr k r Hk) as [_ Hw]. by apply bool_decide_eq_true.
Qed.

(** Inserting the rows one statement at a time succeeds likewise. *)
Lemma insert_each_ok rows d :
  NoDup rows.*1 ->
  (forall k r, (k, r) ∈ rows -> tbl d !! k = None /\ wf_exists d (owner k)) ->
  exists t', for_each (fun kr => insert_rows tbl [kr]) rows d = (Ok tt, put_table t' d)
    /\ forall k r, t' !! k = Some r <-> (k, r) ∈ rows \/ tbl d !! k = Some r.
Proof.
  revert d. induction rows as [|[k0 r0] rows IH]; intros d Hn Hr.
  - exists (tbl d). simpl. split; [by rewrite put_same|]. set_solver.
  - simpl in Hn. apply NoDup_cons in Hn as [Hk0 Hn].
    destruct (insert_rows_ok [(k0, r0)] d) as (t1 & H1 & Hin1).
    { apply NoDup_singleton. }
    { intros k r Hk. apply (Hr k r). set_solver. }
    destruct (IH (put_table t1 d)) as (t2 & H2 & Hin2); [done| |].
    + intros k r Hk. unfold wf_exists. rewrite put_status, table_put.
      destruct (Hr k r) as [Hnone Hw]; [set_solver|]. split; [|done].
      destruct (t1 !! k) as [r1|] eqn:E; [|done]. apply Hin1 in E as [E|E]; [|congruence].
      apply list_elem_of_singleton in E. simplify_eq. destruct Hk0.
      apply list_elem_of_fmap. by exists (k0, r).
    + exists t2. cbn [for_each]. unfold bind. rewrite H1, H2, put_put. split; [done|].
      intros k r. rewrite Hin2, table_put, Hin1. set_solver.
Qed.

End insert_rows.

(** The keys of a renamed selection are distinct when the renaming is injective on it. *)
Lemma NoDup_renamed {K A B K'} `{Countable K} (p : K -> A -> bool) (t : gmap K A)
    (f : K * A -> K' * B) :
  (forall k1 r1 k2 r2, p k1 r1 = true -> p k2 r2 = true ->
     (f (k1, r1)).1 = (f (k2, r2)).1 -> k1 = k2) ->
  NoDup (f <$> select_where p t).*1.
Proof.
  intros Hf. rewrite <- list_fmap_compose. apply NoDup_fmap_2_strong.
  - intros [k1 r1] [k2 r2] H1 H2 E. apply elem_of_select_where in H1 as [H1 Hp1], H2 as [H2 Hp2].
    assert (k1 = k2) as -> by (eapply Hf; [exact Hp1|exact Hp2|exact E]).
    congruence.
  - eapply NoDup_fmap_1. apply NoDup_select_where.
Qed.

(** ** The latest version of each event *)

Section first_of_partition.
Context {A P : Type} `{EqDecision P} (part : A -> P).

Lemma first_of_partition_sub seen l x :
  x ∈ first_of_partition part seen l -> x ∈ l /\ part x ∉ seen.
Proof.
  revert seen. induction l as [|y l IH]; intros seen; simpl; [set_solver|].
  destruct (mem (part y) seen) eqn:E; break_bool.
  - intros Hx. apply IH in Hx. set_solver.
  - intros [->|Hx]%elem_of_cons; [set_solver|]. apply IH in Hx. set_solver.
Qed.

Lemma first_of_partition_NoDup seen l : NoDup (part <$> first_of_partition part seen l).
Proof.
  revert seen. induction l as [|y l IH]; intros seen; simpl; [constructor|].
  destruct (mem (part y) seen) eqn:E; [apply IH|]. simpl. apply NoDup_cons. split; [|apply IH].
  intros (z & Ez & Hz)%list_elem_of_fmap. apply first_of_partition_sub in Hz as [_ Hz].
  rewrite <- Ez in Hz. set_solver.
Qed.

(** The kept element of a partition precedes all the others. *)
Lemma first_of_partition_first le seen l :
  StronglySorted (fun a b => le a b = true) l -> (forall a, le a a = true) ->
  forall y, y ∈ l -> part y ∉ seen ->
    exists x, x ∈ first_of_partition part seen l /\ part x = part y /\ le x y = true.
Proof.
  intros Hs Hrefl. revert seen. induction Hs as [|z l Hs IH Hz]; intros seen y Hy Hn;
    [by apply elem_of_nil in Hy|]. simpl.
  apply elem_of_cons in Hy as [->|Hy].
  - rewrite (proj2 (mem_false _ _) Hn). exists z. set_solver.
  - destruct (mem (part z) seen) eqn:E; [by apply IH|].
    destruct (decide (part y = part z)) as [Ep|Ep].
    + exists z. split; [set_solver|]. split; [done|].
      apply (proj1 (Forall_forall _ _) Hz y). done.
    + destruct (IH (part z :: seen) y Hy) as (x & Hx & ? & ?); [set_solver|].
      exists x. set_solver.
Qed.

End first_of_partition.

Lemma elem_of_inherited d m id fid key r :
  ((id, fid, key), r) ∈ inherited_history d m <->
  workflow_events_history d !! (id, fid, key) = Some r /\ id = m_orig m /\ fid < m_start m.
Proof.
  unfold inherited_history. rewrite elem_of_select_where. simpl.
  rewrite andb_true_iff, bool_decide_eq_true, Z.ltb_lt. done.
Qed.

(** [r] is the last value of [key] the original wrote before step [start]. *)
Definition latest_event (d : sysdb) (orig : string) (start : Z) (key : string) (r : event_row)
    : Prop :=
  exists fid, fid < start /\ workflow_events_history d !! (orig, fid, key) = Some r
    /\ forall fid', fid < fid' < start -> workflow_events_history d !! (orig, fid', key) = None.

Lemma copy_events_single d m :
  NoDup (copy_events d [m]).*1
  /\ (forall k r, (k, r) ∈ copy_events d [m] ->
        k.1 = m_fork m /\ latest_event d (m_orig m) (m_start m) k.2 r)
  /\ (forall fid key r, workflow_events_history d !! (m_orig m, fid, key) = Some r ->
        fid < m_start m -> exists r', ((m_fork m, key), r') ∈ copy_events d [m]).
Proof.
  unfold copy_events. cbn [map concat]. rewrite app_nil_r.
  set (le := fun a b : string * (string * Z * string * event_row) => b.2.1.1.2 <=? a.2.1.1.2).
  set (joined := (fun h => (m_fork m, h)) <$> inherited_history d m).
  set (part := fun x : string * (string * Z * string * event_row) => (x.2.1.1.1, x.2.1.2)).
  assert (StronglySorted (fun a b => le a b = true) (order_by le joined)) as Hsorted
    by (apply order_by_sorted; intros *; unfold le; rewrite !Z.leb_le; lia).
  assert (forall f id fid key r, (f, ((id, fid, key), r)) ∈ order_by le joined <->
    f = m_fork m /\ ((id, fid, key), r) ∈ inherited_history d m) as Hin.
  { intros. rewrite elem_of_order_by. unfold joined. rewrite list_elem_of_fmap.
    split; [intros (h & [= <- <-] & Hh); done | intros [-> Hh]; eauto]. }
  split; [|split].
  - rewrite <- list_fmap_compose. apply NoDup_fmap_2_strong;
      [|eapply NoDup_fmap_1, (first_of_partition_NoDup part)].
    intros [f1 [[[i1 n1] k1] r1]] [f2 [[[i2 n2] k2] r2]] H1 H2 E. cbn in E.
    pose proof (first_of_partition_NoDup part [] (order_by le joined)) as Hn.
    apply list_elem_of_lookup in H1 as [a H1], H2 as [b H2].
    assert (a = b) as ->; [|congruence].
    apply (NoDup_lookup _ _ _ (m_orig m, k1) Hn); rewrite list_lookup_fmap.
    + rewrite H1. simpl. apply list_elem_of_lookup_2, first_of_partition_sub in H1 as [H1 _].
      apply Hin in H1 as [_ H1]. apply elem_of_inherited in H1 as (_ & -> & _). done.
    + rewrite H2. simpl. apply list_elem_of_lookup_2, first_of_partition_sub in H2 as [H2 _].
      apply Hin in H2 as [_ H2]. apply elem_of_inherited in H2 as (_ & -> & _).
      by injection E as _ <-.
  - intros k r. rewrite list_elem_of_fmap. intros ([f [[[i n] key] r']] & [= -> ->] & Hx).
    pose proof Hx as Hx'. apply first_of_partition_sub in Hx as [Hx _].
    apply Hin in Hx as [-> Hx]. apply elem_of_inherited in Hx as (Hh & -> & Hlt). simpl.
    split; [done|]. exists n. split; [done|]. split; [done|]. intros fid' Hf.
    destruct (workflow_events_history d !! (m_orig m, fid', key)) as [r2|] eqn:E2; [|done].
    exfalso. destruct (first_of_partition_first part le [] _ Hsorted
      (fun a => Z.leb_refl _) (m_fork m, (m_orig m, fid', key, r2)))
      as ([f3 [[[i3 n3] k3] r3]] & H3 & E3 & Hle).
    { apply Hin. split; [done|]. apply elem_of_inherited. split; [done|]. split; [done|lia]. }
    { set_solver. }
    cbn in E3. injection E3 as -> ->. unfold le in Hle. cbn in Hle. apply Z.leb_le in Hle.
    pose proof (first_of_partition_NoDup part [] (order_by le joined)) as Hn.
    apply list_elem_of_lookup in H3 as [a H3], Hx' as [b Hx'].
    assert (a = b) as ->; [|simplify_eq; lia].
    apply (NoDup_lookup _ _ _ (m_orig m, key) Hn); rewrite list_lookup_fmap;
      [by rewrite H3 | by rewrite Hx'].
  - intros fid key r Hr Hlt.
    destruct (first_of_partition_first part le [] _ Hsorted
      (fun a => Z.leb_refl _) (m_fork m, (m_orig m, fid, key, r)))
      as ([f3 [[[i3 n3] k3] r3]] & H3 & E3 & Hle).
    { apply Hin. split; [done|]. by apply elem_of_inherited. }
    { set_solver. }
    cbn in E3. injection E3 as -> ->. exists r3. apply list_elem_of_fmap.
    eexists. split; [|exact H3]. simpl.
    apply first_of_partition_sub in H3 as [H3 _]. apply Hin in H3 as [-> _]. done.
Qed.

(** ** Forking one workflow *)

(** What the four copies leave in the child tables. *)
Record inherited (d d' : sysdb) (orig fork : string) (start : Z) (reps : list (string * string))
    : Prop := Inherited {
  inh_ops : forall fid r, operation_outputs d' !! (fork, fid) = Some r <->
    0 < start /\ fid < start /\ exists r0, operation_outputs d !! (orig, fid) = Some r0
      /\ r = r0 <| oo_child_workflow_id ::= replace_child reps |>;
  inh_streams : forall key off r, streams d' !! (fork, key, off) = Some r <->
    0 < start /\ st_function_id r < start /\ streams d !! (orig, key, off) = Some r;
  inh_history : forall fid key r, workflow_events_history d' !! (fork, fid, key) = Some r <->
    0 < start /\ fid < start /\ workflow_events_history d !! (orig, fid, key) = Some r;
  inh_events : forall key r, workflow_events d' !! (fork, key) = Some r <->
    0 < start /\ latest_event d orig start key r
}.

(** Nothing changed for the workflows other than [fork] in the child tables. *)
Record same_children_but (fork : string) (d d' : sysdb) : Prop := SameChildrenBut {
  scb_ops : forall id fid, id <> fork ->
    operation_outputs d' !! (id, fid) = operation_outputs d !! (id, fid);
  scb_streams : forall id key off, id <> fork ->
    streams d' !! (id, key, off) = streams d !! (id, key, off);
  scb_history : forall id fid key, id <> fork ->
    workflow_events_history d' !! (id, fid, key) = workflow_events_history d !! (id, fid, key);
  scb_events : forall id key, id <> fork ->
    workflow_events d' !! (id, key) = workflow_events d !! (id, key);
  scb_notifs : notifications d' = notifications d
}.

Lemma lookup_iff_same {K A} `{Countable K} (t t' : gmap K A) (rows : list (K * A)) k :
  (forall k r, t' !! k = Some r <-> (k, r) ∈ rows \/ t !! k = Some r) ->
  (forall r, (k, r) ∉ rows) -> t' !! k = t !! k.
Proof.
  intros Hin Hno. destruct (t' !! k) as [r|] eqn:E.
  - apply Hin in E as [E|E]; [by destruct (Hno r) | done].
  - destruct (t !! k) as [r|] eqn:E'; [|done].
    rewrite (proj2 (Hin k r)) in E; [done | by right].
Qed.

Lemma latest_event_unique d orig start key r1 r2 :
  latest_event d orig start key r1 -> latest_event d orig start key r2 -> r1 = r2.
Proof.
  intros (f1 & L1 & H1 & N1) (f2 & L2 & H2 & N2).
  destruct (Z.lt_trichotomy f1 f2) as [Hlt|[->|Hlt]].
  - rewrite N1 in H2; [done|lia].
  - congruence.
  - rewrite N2 in H1; [done|lia].
Qed.

Lemma copy_checkpoints_ok reps d m :
  0 < m_start m -> m_fork m <> m_orig m -> wf_exists d (m_fork m) ->
  (forall fid, operation_outputs d !! (m_fork m, fid) = None) ->
  (forall key off, streams d !! (m_fork m, key, off) = None) ->
  (forall fid key, workflow_events_history d !! (m_fork m, fid, key) = None) ->
  (forall key, workflow_events d !! (m_fork m, key) = None) ->
  exists d', copy_checkpoints reps d [m] d = (Ok tt, d')
    /\ workflow_status d' = workflow_status d
    /\ inherited d d' (m_orig m) (m_fork m) (m_start m) reps
    /\ same_children_but (m_fork m) d d'.
Proof.
  intros Hpos Hne Hw Hops Hstr Hhist Hev. unfold copy_checkpoints.
  cbn [map concat]. rewrite !app_nil_r.
  destruct (copy_events_single d m) as (En & Es & Ec).
  destruct (insert_rows_ok operation_outputs (copy_operations reps d m) d) as (t1 & R1 & I1).
  { apply NoDup_renamed. intros [i1 f1] ? [i2 f2] ? [H1 _]%andb_true_iff [H2 _]%andb_true_iff E.
    break_bool. simpl in *. congruence. }
  { intros k r (x & [= -> ->] & _)%list_elem_of_fmap. by split. }
  destruct (insert_rows_ok streams (copy_streams d m) (put_table (tbl := operation_outputs) t1 d))
    as (t2 & R2 & I2).
  { apply NoDup_renamed. intros [[i1 k1] o1] ? [[i2 k2] o2] ? [H1 _]%andb_true_iff
      [H2 _]%andb_true_iff E. break_bool. simpl in *. congruence. }
  { intros k r (x & [= -> ->] & _)%list_elem_of_fmap. by split. }
  destruct (insert_rows_ok workflow_events_history (copy_history d m)
    (put_table (tbl := streams) t2 (put_table (tbl := operation_outputs) t1 d))) as (t3 & R3 & I3).
  { apply NoDup_renamed. intros [[i1 f1] k1] ? [[i2 f2] k2] ? [H1 _]%andb_true_iff
      [H2 _]%andb_true_iff E. break_bool. simpl in *. congruence. }
  { intros k r (x & [= -> ->] & _)%list_elem_of_fmap. by split. }
  destruct (insert_rows_ok workflow_events (copy_events d [m])
    (put_table (tbl := workflow_events_history) t3
      (put_table (tbl := streams) t2 (put_table (tbl := operation_outputs) t1 d))))
    as (t4 & R4 & I4); [done| |].
  { intros [f k] r Hk. apply Es in Hk as [Hk _]. simpl in Hk. subst. by split. }
  eexists. split; [unfold bind; rewrite R1, R2, R3; exact R4|]. split; [done|]. simpl in *.
  split; split; simpl; try done.
  - intros fid r. rewrite I1, Hops. unfold copy_operations. rewrite list_elem_of_fmap. split.
    + intros [([[i f] r0] & [= -> ->] & Hx)|?]; [|done].
      apply elem_of_select_where in Hx as [Hx Hp]. simpl in *. break_bool. subst. eauto.
    + intros (_ & Hlt & r0 & H0 & ->). left. exists ((m_orig m, fid), r0). split; [done|].
      apply elem_of_select_where. split; [done|]. simpl.
      by rewrite bool_decide_true, (proj2 (Z.ltb_lt _ _) Hlt).
  - intros key off r. rewrite I2, Hstr. unfold copy_streams. rewrite list_elem_of_fmap. split.
    + intros [([[[i k] f] r0] & [= -> -> ->] & Hx)|?]; [|done].
      apply elem_of_select_where in Hx as [Hx Hp]. simpl in *. break_bool. subst. eauto.
    + intros (_ & Hlt & H0). left. exists ((m_orig m, key, off), r). split; [done|].
      apply elem_of_select_where. split; [done|]. simpl.
      by rewrite bool_decide_true, (proj2 (Z.ltb_lt _ _) Hlt).
  - intros fid key r. rewrite I3, Hhist. unfold copy_history. rewrite list_elem_of_fmap. split.
    + intros [([[[i k] f] r0] & [= -> -> ->] & Hx)|?]; [|done].
      apply elem_of_inherited in Hx as (? & -> & ?). eauto.
    + intros (_ & Hlt & H0). left. exists ((m_orig m, fid, key), r). split; [done|].
      by apply elem_of_inherited.
  - intros key r. rewrite I4, Hev. split.
    + intros [Hx|?]; [|done]. apply Es in Hx as [_ Hx]. done.
    + intros (_ & Hl). left. pose proof Hl as (fid & Hlt & Hh & _).
      destruct (Ec fid key r Hh Hlt) as [r' Hr']. pose proof (Es _ _ Hr') as [_ Hl'].
      simpl in Hl'. by rewrite (latest_event_unique _ _ _ _ _ _ Hl Hl').
  - intros id fid Hid. eapply lookup_iff_same; [exact I1|].
    intros r (x & [= E _] & _)%list_elem_of_fmap. done.
  - intros id key off Hid. eapply lookup_iff_same; [exact I2|].
    intros r (x & [= E _] & _)%list_elem_of_fmap. done.
  - intros id fid key Hid. eapply lookup_iff_same; [exact I3|].
    intros r (x & [= E _] & _)%list_elem_of_fmap. done.
  - intros id key Hid. eapply lookup_iff_same; [exact I4|].
    intros r Hx. apply Es in Hx as [Hx _]. done.
Qed.

Lemma fork_statements nowMs o orig fork start d r :
  dedup_unique (workflow_status d) -> workflow_status d !! orig = Some r ->
  workflow_status d !! fork = None ->
  let d2 := d <| workflow_status ::= fun t =>
               <[orig := r <| ws_was_forked_from := true |>]>
                 (<[fork := fork_row nowMs o orig r]> t) |> in
  bulkForkWorkflows nowMs [orig] [fork] [start] o d
  = transaction (fun _ => (if 0 <? start
       then bind (copy_checkpoints (fk_replacementChildren o) d2 [ForkMapping orig fork start])
              (fun _ => ret [fork])
       else ret [fork]) d2) d.
Proof.
  intros Hu Ho Hf d2. unfold bulkForkWorkflows. simpl. unfold transaction.
  f_equal. unfold bind at 1, get at 1. cbn [check_originals insert_forks zip].
  rewrite Ho. unfold bind at 1, ret at 1. unfold bind at 1. unfold bind at 1.
  rewrite insert_workflow_status_fresh; [|done|done|by intros; apply dedup_clash_none_l].
  unfold ret at 1. unfold bind at 1. rewrite update_workflow_status_ok; [| |by right].
  - match goal with |- context [update_where ?p ?f] =>
      assert (d2 = (d <| workflow_status ::= <[fork:=fork_row nowMs o orig r]> |>)
                     <| workflow_status ::= update_where p f |>) as -> end.
    { unfold d2. simpl. f_equal. apply map_eq. intros k. rewrite lookup_update_where.
      destruct (decide (k = orig)) as [->|Hk].
      - rewrite lookup_insert_eq, lookup_insert_ne, Ho by congruence. simpl.
        by rewrite (proj2 (mem_spec _ _)) by set_solver.
      - rewrite (proj2 (mem_false _ _)) by set_solver. rewrite lookup_insert_ne by done.
        by destruct (_ !! k). }
    by destruct (0 <? start).
  - simpl. apply dedup_unique_insert; [|done]. intros. by apply dedup_clash_none_l.
Qed.

(** C14: a fork restarts its original from the given step.  Forking an existing workflow
    under a fresh ID enqueues a copy with the same function, inputs and identity, whose
    steps, events, event history and stream entries are exactly those of the original
    before the start step (child workflow IDs replaced as asked, each event at its last
    value before the step), marks the original as forked from, and changes nothing else. *)
Theorem forkWorkflow_spec nowMs orig start fork o d r :
  db_ok d -> workflow_status d !! orig = Some r -> workflow_status d !! fork = None ->
  exists d', forkWorkflow nowMs orig start fork o d = (Ok (Some fork), d')
    /\ workflow_status d' = <[orig := r <| ws_was_forked_from := true |>]>
                              (<[fork := fork_row nowMs o orig r]> (workflow_status d))
    /\ inherited d d' orig fork start (fk_replacementChildren o)
    /\ same_children_but fork d d'.
Proof.
  intros Hd Ho Hf. pose proof Hd as [Hu Hops _ Hev Hhist Hstr].
  assert (~ wf_exists d fork) as Hno by (unfold wf_exists; rewrite Hf; by intros [? ?]).
  assert (forall fid, operation_outputs d !! (fork, fid) = None) as N1.
  { intros fid. destruct (operation_outputs d !! _) eqn:E; [|done]. by apply Hops in E. }
  assert (forall key off, streams d !! (fork, key, off) = None) as N2.
  { intros key off. destruct (streams d !! _) eqn:E; [|done]. by apply Hstr in E. }
  assert (forall fid key, workflow_events_history d !! (fork, fid, key) = None) as N3.
  { intros fid key. destruct (workflow_events_history d !! _) eqn:E; [|done]. by apply Hhist in E. }
  assert (forall key, workflow_events d !! (fork, key) = None) as N4.
  { intros key. destruct (workflow_events d !! _) eqn:E; [|done]. by apply Hev in E. }
  assert (fork <> orig) as Hne by congruence.
  unfold forkWorkflow, bind at 1. rewrite (fork_statements nowMs o orig fork start d r) by done.
  unfold transaction. set (d2 := set workflow_status _ d).
  destruct (0 <? start) eqn:Es; break_bool.
  - destruct (copy_checkpoints_ok (fk_replacementChildren o) d2 (ForkMapping orig fork start))
      as (d' & Hrun & Hw & Hi & Hs); simpl; try done.
    { unfold wf_exists. simpl. rewrite lookup_insert_ne, lookup_insert_eq by congruence. eauto. }
    exists d'. unfold bind. rewrite Hrun. split; [done|]. split; [by rewrite Hw|].
    split; [by destruct Hi | by destruct Hs].
  - exists d2. split; [done|]. split; [done|]. split; [split|by split].
    + intros. unfold d2. simpl. rewrite N1. split; [done | lia].
    + intros. unfold d2. simpl. rewrite N2. split; [done | lia].
    + intros. unfold d2. simpl. rewrite N3. split; [done | lia].
    + intros. unfold d2. simpl. rewrite N4. split; [done | lia].
Qed.

(** Forking the same workflow twice in one batch gives only one of the forks the events:
    the window function that picks the latest version partitions the rows by the
    original workflow, not by the fork. *)
Definition ex_event_db : sysdb :=
  ex_db <| workflow_events_history := {[ ("wf-1", 0, "k") := EventRow (Some "v") None ]} |>.

Example bulkFork_duplicate_loses_events :
  match bulkForkWorkflows 5 ["wf-1"; "wf-1"] ["f-1"; "f-2"] [3; 3]
          (ForkOptionsOf None None None None []) ex_event_db with
  | (Ok _, d') => (bool_decide (is_Some (workflow_events d' !! ("f-1", "k"))),
                   bool_decide (is_Some (workflow_events d' !! ("f-2", "k"))),
                   bool_decide (is_Some (workflow_events_history d' !! ("f-2", 0, "k"))))
  | _ => (false, false, false)
  end = (true, false, true).
Proof. vm_compute. reflexivity. Qed.

(** ** Export and import *)

(** [e'] is [e] with everything of the workflows [P] of [d], as far as an export carries
    it. *)
Record merged (P : string -> Prop) (d e e' : sysdb) : Prop := Merged {
  mg_status : forall k x, workflow_status e' !! k = Some x <->
    (P k /\ exists r, workflow_status d !! k = Some r /\ x = import_row r)
    \/ workflow_status e !! k = Some x;
  mg_ops : forall k x, operation_outputs e' !! k = Some x <->
    (P k.1 /\ operation_outputs d !! k = Some x) \/ operation_outputs e !! k = Some x;
  mg_events : forall k x, workflow_events e' !! k = Some x <->
    (P k.1 /\ workflow_events d !! k = Some x) \/ workflow_events e !! k = Some x;
  mg_history : forall k x, workflow_events_history e' !! k = Some x <->
    (P k.1.1 /\ workflow_events_history d !! k = Some x)
    \/ workflow_events_history e !! k = Some x;
  mg_streams : forall k x, streams e' !! k = Some x <->
    (P k.1.1 /\ streams d !! k = Some x) \/ streams e !! k = Some x;
  mg_notifs : notifications e' = notifications e;
  mg_others : event_dispatch_kv e' = event_dispatch_kv e /\ workflow_schedules e' = workflow_schedules e
    /\ application_versions e' = application_versions e /\ queues e' = queues e
}.

(** The database knows nothing of the workflow. *)
Record absent (id : string) (e : sysdb) : Prop := Absent {
  ab_status : workflow_status e !! id = None;
  ab_ops : forall k, k.1 = id -> operation_outputs e !! k = None;
  ab_events : forall k, k.1 = id -> workflow_events e !! k = None;
  ab_history : forall k, k.1.1 = id -> workflow_events_history e !! k = None;
  ab_streams : forall k, k.1.1 = id -> streams e !! k = None
}.

Lemma db_ok_absent id e : db_ok e -> workflow_status e !! id = None -> absent id e.
Proof.
  intros [_ Ho _ He Hh Hs] Hn.
  assert (~ wf_exists e id) as Hno by (unfold wf_exists; rewrite Hn; by intros [? ?]).
  split; [done|..].
  - intros [i f] Hi. simpl in Hi. subst. destruct (operation_outputs e !! _) eqn:E; [|done].
    by apply Ho in E.
  - intros [i f] Hi. simpl in Hi. subst. destruct (workflow_events e !! _) eqn:E; [|done].
    by apply He in E.
  - intros [[i f] k] Hi. simpl in Hi. subst.
    destruct (workflow_events_history e !! _) eqn:E; [|done]. by apply Hh in E.
  - intros [[i f] k] Hi. simpl in Hi. subst. destruct (streams e !! _) eqn:E; [|done].
    by apply Hs in E.
Qed.

Lemma merged_absent P d e e' id : merged P d e e' -> ~ P id -> absent id e -> absent id e'.
Proof.
  intros [Hw Ho He Hh Hs _ _] HP [Aw Ao Ae Ah As]. split.
  - destruct (workflow_status e' !! id) eqn:E; [|done]. apply Hw in E. naive_solver.
  - intros k <-. destruct (operation_outputs e' !! k) eqn:E; [|done]. apply Ho in E. naive_solver.
  - intros k <-. destruct (workflow_events e' !! k) eqn:E; [|done]. apply He in E. naive_solver.
  - intros k <-. destruct (workflow_events_history e' !! k) eqn:E; [|done].
    apply Hh in E. naive_solver.
  - intros k <-. destruct (streams e' !! k) eqn:E; [|done]. apply Hs in E. naive_solver.
Qed.

Lemma merged_trans P Q R d e e1 e2 :
  (forall k, R k <-> P k \/ Q k) -> merged P d e e1 -> merged Q d e1 e2 -> merged R d e e2.
Proof.
  intros HR [Hw Ho He Hh Hs Hn (Hd & Hc & Hv & Hq)] [Kw Ko Ke Kh Ks Kn (Kd & Kc & Kv & Kq)]. split.
  - intros k x. rewrite Kw, Hw, HR. naive_solver.
  - intros k x. rewrite Ko, Ho, HR. naive_solver.
  - intros k x. rewrite Ke, He, HR. naive_solver.
  - intros k x. rewrite Kh, Hh, HR. naive_solver.
  - intros k x. rewrite Ks, Hs, HR. naive_solver.
  - congruence.
  - repeat split; congruence.
Qed.

Lemma dedup_clash_import_l r r' : dedup_clash (import_row r) r' = dedup_clash r r'.
Proof. done. Qed.

(** The rows of one workflow, one [INSERT] each *)
Lemma import_table {K A} `{Countable K} (tbl : sysdb -> gmap K A) `{!ChildTable tbl}
    (p : K -> A -> bool) (t : gmap K A) id e :
  (forall k r, p k r = true <-> owner k = id) -> wf_exists e id ->
  (forall k, owner k = id -> tbl e !! k = None) ->
  exists t', for_each (fun kr => insert_rows tbl [kr]) (select_where p t) e
             = (Ok tt, put_table t' e)
    /\ forall k r, t' !! k = Some r <-> (owner k = id /\ t !! k = Some r) \/ tbl e !! k = Some r.
Proof.
  intros Hp Hw Hn. destruct (insert_each_ok tbl (select_where p t) e) as (t' & Hrun & Hin).
  - apply NoDup_select_where.
  - intros k r Hk. apply elem_of_select_where in Hk as [_ Hk]. apply Hp in Hk.
    split; [by apply Hn | by rewrite Hk].
  - exists t'. split; [done|]. intros k r. rewrite Hin, elem_of_select_where, Hp. naive_solver.
Qed.

Lemma import_one_ok d e id r :
  workflow_status d !! id = Some r -> absent id e -> dedup_unique (workflow_status e) ->
  (forall k r', workflow_status e !! k = Some r' -> dedup_clash r r' = false) ->
  exists e', import_one (export_one d id r) e = (Ok tt, e')
    /\ merged (fun k => k = id) d e e' /\ dedup_unique (workflow_status e').
Proof.
  intros Hr [Aw Ao Ae Ah As] Hu Hc. unfold import_one, export_one.
  cbn [x_workflow_status x_operation_outputs x_workflow_events x_workflow_events_history
       x_streams fst snd].
  set (row := import_row (r <| ws_owner_xid := None |>)).
  set (e1 := e <| workflow_status ::= <[id := row]> |>).
  assert (wf_exists e1 id) as Hw by (unfold wf_exists; simpl; rewrite lookup_insert_eq; eauto).
  destruct (import_table operation_outputs (fun k _ => bool_decide (k.1 = id))
    (operation_outputs d) id e1) as (t1 & R1 & I1); [intros; apply bool_decide_eq_true|done|done|].
  destruct (import_table workflow_events (fun k _ => bool_decide (k.1 = id))
    (workflow_events d) id (put_table (tbl := operation_outputs) t1 e1))
    as (t2 & R2 & I2); [intros; apply bool_decide_eq_true|done|done|].
  destruct (import_table workflow_events_history (fun k _ => bool_decide (k.1.1 = id))
    (workflow_events_history d) id (put_table (tbl := workflow_events) t2
      (put_table (tbl := operation_outputs) t1 e1)))
    as (t3 & R3 & I3); [intros; apply bool_decide_eq_true|done|done|].
  destruct (import_table streams (fun k _ => bool_decide (k.1.1 = id)) (streams d) id
    (put_table (tbl := workflow_events_history) t3 (put_table (tbl := workflow_events) t2
      (put_table (tbl := operation_outputs) t1 e1))))
    as (t4 & R4 & I4); [intros; apply bool_decide_eq_true|done|done|].
  eexists. split.
  { unfold bind. rewrite insert_workflow_status_fresh; [|done|done|exact Hc]. fold row e1.
    rewrite R1, R2, R3. exact R4. }
  split; [split|]; simpl in *; try done.
  - intros k x. destruct (decide (k = id)) as [->|Hk].
    + rewrite lookup_insert_eq, Hr, Aw. unfold row. naive_solver.
    + rewrite lookup_insert_ne by done. naive_solver.
  - apply dedup_unique_insert; [|done]. intros k r' Hr' _. by apply (Hc k).
Qed.

Lemma import_export_all ids d e :
  NoDup ids -> (forall k, k ∈ ids -> wf_exists d k) -> dedup_unique (workflow_status d) ->
  (forall k, k ∈ ids -> absent k e) -> dedup_unique (workflow_status e) ->
  (forall k r k' r', k ∈ ids -> workflow_status d !! k = Some r ->
     workflow_status e !! k' = Some r' -> dedup_clash r r' = false) ->
  exists xs e', export_all ids d = inr xs
    /\ for_each import_one xs e = (Ok tt, e') /\ merged (fun k => k ∈ ids) d e e'.
Proof.
  intros Hn Hw Hd. revert e. induction ids as [|id ids IH]; intros e Ha Hu Hc.
  { exists [], e. split; [done|]. split; [done|]. by split; intros; try set_solver. }
  apply NoDup_cons in Hn as [Hid Hn].
  destruct (Hw id) as [r Hr]; [set_solver|].
  destruct (import_one_ok d e id r Hr) as (e1 & Hrun & Hm & Hu1);
    [apply Ha; set_solver | done | intros; eapply (Hc id); [set_solver|done..] |].
  destruct (IH Hn ltac:(set_solver) e1) as (xs & e2 & Hx & Hrun2 & Hm2); [| done | |].
  - intros k Hk. eapply (merged_absent (fun k => k = id)); [exact Hm| |apply Ha; set_solver].
    intros ->. done.
  - intros k r1 k' r' Hk Hr1 Hr'. apply (mg_status _ _ _ _ Hm) in Hr' as [(-> & r2 & Hr2 & ->)|Hr'].
    + rewrite dedup_clash_sym, dedup_clash_import_l. apply (Hd id k); [done|done|].
      intros ->. done.
    + eapply (Hc k); [set_solver|done..].
  - exists (export_one d id r :: xs), e2. simpl. rewrite Hr, Hx. split; [done|].
    unfold bind. rewrite Hrun. split; [done|].
    eapply (merged_trans (fun k => k = id) (fun k => k ∈ ids)); [|exact Hm|exact Hm2].
    intros k. set_solver.
Qed.

(** What is exported inserts row by row. *)
Lemma export_insert id children d e :
  db_ok d -> db_ok e -> wf_exists d id -> ~ tc (child_of d) id id ->
  (forall k, k ∈ export_ids id children d -> workflow_status e !! k = None) ->
  (forall k r k' r', k ∈ export_ids id children d -> workflow_status d !! k = Some r ->
     workflow_status e !! k' = Some r' -> dedup_clash r r' = false) ->
  exists xs e', export_all (export_ids id children d) d = inr xs
    /\ for_each import_one xs e = (Ok tt, e')
    /\ merged (fun k => k ∈ export_ids id children d) d e e'.
Proof.
  intros Hd He Hw Hcyc Hfresh Hclash. apply import_export_all.
  - unfold export_ids. destruct children; [|apply NoDup_singleton].
    apply NoDup_cons. split; [by rewrite getWorkflowChildren_exact_tc|].
    apply getWorkflowChildren_inv.
  - unfold export_ids. intros k [->|Hk]%elem_of_cons; [done|]. destruct children; [|set_solver].
    apply getWorkflowChildren_exact_tc, tc_last in Hk as (p & _ & r & Hr & _). by exists r.
  - apply Hd.
  - intros k Hk. apply db_ok_absent; [done|by apply Hfresh].
  - apply He.
  - done.
Qed.

(** C9: export and import are inverse.  Exporting an existing workflow, alone or with its
    descendants, and importing the result into a database that knows none of them and
    holds none of their deduplication IDs succeeds; afterwards that database holds, for
    each of them, the same status row (less the owner token), the same steps, events,
    event history and streams as the source, and everything it held before; messages, event
    dispatch states, schedules, versions and queues stay as they were. *)
Theorem export_import_roundtrip id children d e :
  db_ok d -> db_ok e -> wf_exists d id -> ~ tc (child_of d) id id ->
  (forall k, k ∈ export_ids id children d -> workflow_status e !! k = None) ->
  (forall k r k' r', k ∈ export_ids id children d -> workflow_status d !! k = Some r ->
     workflow_status e !! k' = Some r' -> dedup_clash r r' = false) ->
  exists xs e', exportWorkflow id children d = inr xs
    /\ importWorkflow xs e = (Ok tt, e')
    /\ merged (fun k => k ∈ export_ids id children d) d e e'.
Proof.
  intros Hd He Hw Hcyc Hfresh Hclash. unfold exportWorkflow, importWorkflow.
  destruct (export_insert id children d e) as (xs & e' & Hx & Hrun & Hm); [done..|].
  exists xs, e'. split; [done|]. unfold transaction. by rewrite Hrun.
Qed.

(** * Witnesses *)

Definition ex_fork_options : ForkOptions := ForkOptionsOf None None None None [].

Lemma forkWorkflow_spec_witness :
  exists d', forkWorkflow 50 "wf-1" 1 "wf-9" ex_fork_options ex_step_db = (Ok (Some "wf-9"), d')
    /\ inherited ex_step_db d' "wf-1" "wf-9" 1 [].
Proof.
  destruct (forkWorkflow_spec 50 "wf-1" 1 "wf-9" ex_fork_options ex_step_db ex_row
    ex_step_db_ok ltac:(vm_compute; reflexivity) ltac:(vm_compute; reflexivity))
    as (d' & Hrun & _ & Hi & _).
  exists d'. split; [exact Hrun | exact Hi].
Defined.

Lemma export_import_roundtrip_witness :
  exists xs e', exportWorkflow "wf-1" false ex_step_db = inr xs
    /\ importWorkflow xs empty_db = (Ok tt, e').
Proof.
  destruct (export_import_roundtrip "wf-1" false ex_step_db empty_db ex_step_db_ok empty_db_ok)
    as (xs & e' & H1 & H2 & _).
  - eexists. vm_compute. reflexivity.
  - intros (p & _ & r & Hr & Hp)%tc_last. vm_compute in Hr. injection Hr as <-. discriminate Hp.
  - intros k _. apply lookup_empty.
  - intros k r k' r' _ _ Hr'. simpl in Hr'. rewrite lookup_empty in Hr'. discriminate Hr'.
  - exists xs, e'. split; assumption.
Defined.
