(* ===== verification/Debounce.v ===== *)
(** Debouncing and delayed workflows: [debounceDelayedWorkflow],
    [transitionDelayedWorkflows] and [getDeduplicatedWorkflow] of
    src/src/system_database.ts, and the coalescing loop of src/src/debouncer.ts.  A
    debounce owns the deduplication ID of a DELAYED workflow; bouncing it replaces the
    inputs and postpones the start, up to the debounce deadline. *)

From S2P Require Export Steps Management.

(** * The database operations *)

(** [DebounceParams] *)
Record DebounceParams : Type := DebounceParamsOf {
  dp_workflowName : string;
  dp_workflowClassName : string;
  dp_queueName : string;
  dp_deduplicationID : string;
  dp_delayUntilEpochMS : Z;
  dp_input : option string;
  dp_serialization : option string
}.

(** [DebounceResult] *)
Record DebounceResult : Type := DebounceResultOf {
  dr_bouncedWorkflowID : option string;
  dr_holderWorkflowID : option string;
  dr_holderIsDebounced : bool;
  dr_holderWorkflowName : option string;
  dr_holderWorkflowClassName : option string
}.

(** [queue_name = $7 AND deduplication_id = $8] *)
Definition holds_key (queueName deduplicationID : string) (r : wf_row) : bool :=
  sql_eqb (ws_queue_name r) queueName && sql_eqb (ws_deduplication_id r) deduplicationID.

(** The WHERE clause of the bounce *)
Definition bounceable (p : DebounceParams) (r : wf_row) : bool :=
  bool_decide (ws_name r = dp_workflowName p)
  && opt_eqb (ws_class_name r) (null_if_empty (dp_workflowClassName p))
  && holds_key (dp_queueName p) (dp_deduplicationID p) r
  && bool_decide (ws_status r = DELAYED) && ws_is_debounced r.

(** [CASE WHEN debounce_deadline_epoch_ms IS NOT NULL AND debounce_deadline_epoch_ms < $1
    THEN debounce_deadline_epoch_ms ELSE $1 END] *)
Definition capped_delay (deadline : option Z) (delayUntil : Z) : Z :=
  match deadline with
  | Some dl => if dl <? delayUntil then dl else delayUntil
  | None => delayUntil
  end.

(** Its SET clause *)
Definition bounced (now : Z) (p : DebounceParams) (r : wf_row) : wf_row :=
  r <| ws_delay_until_epoch_ms :=
         Some (capped_delay (ws_debounce_deadline_epoch_ms r) (dp_delayUntilEpochMS p)) |>
    <| ws_inputs := dp_input p |> <| ws_serialization := dp_serialization p |>
    <| ws_updated_at := now |>.

(** [#debounceDelayedWorkflowInternal] *)
Definition debounceDelayedWorkflow (now : Z) (p : DebounceParams) : DB DebounceResult :=
  let* updated := update_workflow_status (fun _ => bounceable p) (bounced now p) in
  match updated with
  | id :: _ => ret (DebounceResultOf (Some id) None false None None)
  | [] =>
      let* d := get in
      match select_where (fun _ => holds_key (dp_queueName p) (dp_deduplicationID p))
              (workflow_status d) with
      | [] => ret (DebounceResultOf None None false None None)
      | (id, r) :: _ =>
          ret (DebounceResultOf None (Some id) (ws_is_debounced r) (Some (ws_name r))
                 (ws_class_name r))
      end
  end.

(** [transitionDelayedWorkflows] *)
Definition delay_expired (now : Z) (r : wf_row) : bool :=
  bool_decide (ws_status r = DELAYED) && sql_leb (ws_delay_until_epoch_ms r) now.

Definition released (now : Z) (r : wf_row) : wf_row :=
  r <| ws_status := ENQUEUED |> <| ws_updated_at := now |>
    <| ws_deduplication_id := if ws_is_debounced r then None else ws_deduplication_id r |>.

Definition transitionDelayedWorkflows (now : Z) : DB unit :=
  update_workflow_status (fun _ => delay_expired now) (released now) ;* ret tt.

(** [getDeduplicatedWorkflow] *)
Definition getDeduplicatedWorkflow (queueName deduplicationID : string) (d : sysdb)
    : option string :=
  match select_where (fun _ => holds_key queueName deduplicationID) (workflow_status d) with
  | [] => None
  | (id, _) :: _ => Some id
  end.

(** * The debouncer *)

(** The fields of [StartWorkflowParams] the debouncer reads *)
Record StartWorkflowParams : Type := StartWorkflowParamsOf {
  sp_queueName : option string;
  sp_timeoutMS : option Z;
  sp_attributes : attributes;
  sp_applicationVersion : option string;
  sp_deduplicationID : option string;
  sp_delaySeconds : option Z;
  sp_priority : option Z;
  sp_queuePartitionKey : option string;
  sp_returnExisting : bool
}.

(** [rejectConflictingOptions] *)
Definition rejectConflictingOptions (params : StartWorkflowParams) : option dbos_error :=
  if bool_decide (is_Some (sp_deduplicationID params)) then
    Some (DBOSError "Cannot debounce a workflow with a deduplicationID set: the debounce key is used as the workflow deduplication ID.")
  else if bool_decide (is_Some (sp_delaySeconds params)) then
    Some (DBOSError "Cannot debounce a workflow with a delay set: the debounce period controls the delay.")
  else if bool_decide (is_Some (sp_priority params)) then
    Some (DBOSError "Cannot debounce a workflow with a priority set: priority is not supported for debounced workflows.")
  else if bool_decide (is_Some (sp_queuePartitionKey params)) then
    Some (DBOSError "Cannot debounce a workflow with a queue partition key set: partitioned queues do not support deduplication, which debouncing requires.")
  else if sp_returnExisting params then
    Some (DBOSError "Cannot debounce a workflow with duplicationPolicy 'return-existing': a debounce owns the deduplication behavior.")
  else None.

(** [BounceAction] *)
Inductive BounceAction : Type := Return | Enqueue | Raise | Retry.

#[export] Instance BounceAction_eq_dec : EqDecision BounceAction.
Proof. solve_decision. Defined.

(** [classifyBounce] *)
Definition classifyBounce (result : DebounceResult) (workflowName workflowClassName : string)
    : BounceAction :=
  match dr_bouncedWorkflowID result, dr_holderWorkflowID result with
  | Some _, _ => Return
  | None, None => Enqueue
  | None, Some _ =>
      if negb (dr_holderIsDebounced result) then Raise
      else if negb (opt_eqb (dr_holderWorkflowName result) (Some workflowName))
              || negb (bool_decide (default "" (dr_holderWorkflowClassName result)
                                    = workflowClassName))
      then Raise else Retry
  end.

(** [isQueueDeduplicatedError] *)
Definition isQueueDeduplicatedError (e : dbos_error) : bool :=
  opt_eqb (getDBOSErrorCode e) (Some 28)
  || match e with
     | PortableWorkflowError n _ => bool_decide (n = "DBOSQueueDuplicatedError")
     | _ => false
     end.

(** A [DebouncerClient] and one call of its [debounce]: the workflow, the debounce key, the
    period, and what the fresh workflow is created from.  The [Debouncer] of a running process
    has the same loop, over a checkpointed bounce and a start through the executor
    (Debouncer.v). *)
Record DebounceCall : Type := DebounceCallOf {
  dc_workflowName : string;
  dc_workflowClassName : string;
  dc_params : StartWorkflowParams;
  dc_debounceTimeoutMs : option Z;
  dc_debounceKey : string;
  dc_debouncePeriodMs : Z;
  dc_input : option string;
  dc_serialization : option string;
  dc_workflowID : option string
}.

#[export] Instance DebounceCall_eta : Eta DebounceCall := fun c =>
  DebounceCallOf (dc_workflowName c) (dc_workflowClassName c) (dc_params c)
    (dc_debounceTimeoutMs c) (dc_debounceKey c) (dc_debouncePeriodMs c) (dc_input c)
    (dc_serialization c) (dc_workflowID c).

Definition debounce_queue (c : DebounceCall) : string :=
  default INTERNAL_QUEUE_NAME (sp_queueName (dc_params c)).

Definition debounce_dedup_id (c : DebounceCall) : string :=
  dc_workflowClassName c +:+ "." +:+ dc_workflowName c +:+ "-" +:+ dc_debounceKey c.

Definition bounce_params (now : Z) (c : DebounceCall) : DebounceParams :=
  {| dp_workflowName := dc_workflowName c;
     dp_workflowClassName := dc_workflowClassName c;
     dp_queueName := debounce_queue c;
     dp_deduplicationID := debounce_dedup_id c;
     dp_delayUntilEpochMS := now + dc_debouncePeriodMs c;
     dp_input := dc_input c;
     dp_serialization := dc_serialization c |}.

(** [debounceDeadlineEpochMS] *)
Definition debounce_deadline (now : Z) (c : DebounceCall) : option Z :=
  (fun t => now + t) <$> truthy_num (dc_debounceTimeoutMs c).

(** The ID of the fresh workflow: the configured one, or the random [uuid] *)
Definition debounced_id (c : DebounceCall) (uuid : string) : string := default uuid (dc_workflowID c).

(** The status that [enqueueDebounced] builds *)
Definition debounced_status (now : Z) (c : DebounceCall) (uuid : string) : WorkflowStatusInternal :=
  {| i_workflowUUID := debounced_id c uuid;
     i_status := DELAYED;
     i_workflowName := dc_workflowName c;
     i_workflowClassName := dc_workflowClassName c;
     i_workflowConfigName := "";
     i_queueName := Some (debounce_queue c);
     i_authenticatedUser := "";
     i_output := None;
     i_error := None;
     i_input := dc_input c;
     i_assumedRole := "";
     i_authenticatedRoles := [];
     i_request := JObj [];
     i_executorId := Some "";
     i_applicationVersion := sp_applicationVersion (dc_params c);
     i_applicationID := "";
     i_createdAt := now;
     i_updatedAt := None;
     i_recoveryAttempts := None;
     i_timeoutMS := sp_timeoutMS (dc_params c);
     i_deadlineEpochMS := None;
     i_deduplicationID := Some (debounce_dedup_id c);
     i_priority := 0;
     i_queuePartitionKey := None;
     i_startedAtEpochMs := None;
     i_forkedFrom := None;
     i_wasForkedFrom := false;
     i_parentWorkflowID := None;
     i_serialization := dc_serialization c;
     i_delayUntilEpochMS := Some (capped_delay (debounce_deadline now c) (now + dc_debouncePeriodMs c));
     i_completedAt := None;
     i_attributes := attributes_json (sp_attributes (dc_params c));
     i_scheduleName := None;
     i_debounceDeadlineEpochMS := debounce_deadline now c;
     i_isDebounced := true |}.

(** [enqueueDebounced], and what the loop makes of its errors *)
Definition enqueue_fresh (now : Z) (c : DebounceCall) (uuid : string) : DB (option string) :=
  try_catch
    (match validateWorkflowAttributes (sp_attributes (dc_params c)) with
     | Some e => throw e
     | None =>
         initWorkflowStatus now now (debounced_status now c uuid) None false false None ;*
         ret (Some (debounced_id c uuid))
     end)
    (fun e => if negb (isQueueDeduplicatedError e) then throw e else ret None).

(** The error of a call that a holder of the key keeps out *)
Definition key_taken (c : DebounceCall) : dbos_error :=
  DBOSQueueDuplicatedError (default "" (dc_workflowID c)) (debounce_queue c) (debounce_dedup_id c).

(** One iteration of the loop at time [now]: the workflow ID of the returned handle, or
    [None] to go around again.  [meanwhile] is what other clients do to the database
    between the bounce and the enqueue. *)
Definition debounce_attempt (now : Z) (c : DebounceCall) (uuid : string) (meanwhile : sysdb -> sysdb)
    : DB (option string) :=
  let* result := transaction (debounceDelayedWorkflow now (bounce_params now c)) in
  match classifyBounce result (dc_workflowName c) (dc_workflowClassName c) with
  | Return => ret (dr_bouncedWorkflowID result)
  | Raise => throw (key_taken c)
  | Retry => ret None
  | Enqueue =>
      (fun d => (Ok tt, meanwhile d)) ;*
      enqueue_fresh now c uuid
  end.

(** What happens around one iteration: the time of the iteration and the UUID it draws, what
    others do before it and what they do between its two statements. *)
Record interference : Type := Interference {
  at_time : Z;
  at_uuid : string;
  before : sysdb -> sysdb;
  between : sysdb -> sysdb
}.

(** [while (true)]: the list bounds the number of iterations; [None] means the loop is
    still running after the last of them. *)
Fixpoint debounce_loop (c : DebounceCall) (envs : list interference) : DB (option string) :=
  match envs with
  | [] => ret None
  | env :: envs' =>
      (fun d => (Ok tt, before env d)) ;*
      let* r := debounce_attempt (at_time env) c (at_uuid env) (between env) in
      match r with
      | Some id => ret (Some id)
      | None => debounce_loop c envs'
      end
  end.

(** [DebouncerClient.debounce] *)
Definition debounce (c : DebounceCall) (envs : list interference) : DB (option string) :=
  if dc_debouncePeriodMs c <=? 0 then throw (JsError "debouncePeriodMs must be positive")
  else match rejectConflictingOptions (dc_params c) with
       | Some e => throw e
       | None => debounce_loop c envs
       end.

(** * Lemmas *)

Lemma holds_key_spec q k r :
  holds_key q k r = true <-> ws_queue_name r = Some q /\ ws_deduplication_id r = Some k.
Proof. unfold holds_key. rewrite andb_true_iff, !sql_eqb_spec. done. Qed.

(** The unique index gives a key at most one holder. *)
Lemma holder_unique t q k id1 r1 id2 r2 :
  dedup_unique t -> t !! id1 = Some r1 -> t !! id2 = Some r2 ->
  holds_key q k r1 = true -> holds_key q k r2 = true -> id1 = id2.
Proof.
  intros Hu H1 H2 K1 K2. destruct (decide (id1 = id2)) as [|Hne]; [done|].
  pose proof (Hu _ _ _ _ H1 H2 Hne) as Hc.
  rewrite (proj2 (dedup_clash_true r1 r2)) in Hc; [done|].
  apply holds_key_spec in K1 as [? ?], K2 as [? ?]. eauto 10.
Qed.

Lemma bounceable_holds p r :
  bounceable p r = true -> holds_key (dp_queueName p) (dp_deduplicationID p) r = true.
Proof. unfold bounceable. rewrite !andb_true_iff. naive_solver. Qed.

Lemma bounced_dedup_safe now p : dedup_safe (bounced now p).
Proof. by right. Qed.

Lemma bounce_hit now p d id r :
  dedup_unique (workflow_status d) -> workflow_status d !! id = Some r ->
  bounceable p r = true ->
  debounceDelayedWorkflow now p d
  = (Ok (DebounceResultOf (Some id) None false None None),
     d <| workflow_status ::= <[id := bounced now p r]> |>).
Proof.
  intros Hu Hr Hb. unfold debounceDelayedWorkflow, bind.
  rewrite update_workflow_status_ok by eauto using bounced_dedup_safe.
  assert (forall k' r', workflow_status d !! k' = Some r' -> bounceable p r' = true -> k' = id).
  { intros k' r' Hk' Hb'. eapply holder_unique; eauto using bounceable_holds. }
  erewrite select_where_unique by eauto. simpl.
  erewrite update_where_unique by eauto. done.
Qed.

Lemma bounce_miss now p d :
  dedup_unique (workflow_status d) ->
  (forall k r, workflow_status d !! k = Some r -> bounceable p r = false) ->
  debounceDelayedWorkflow now p d
  = (Ok (match select_where (fun _ => holds_key (dp_queueName p) (dp_deduplicationID p))
                 (workflow_status d) with
         | [] => DebounceResultOf None None false None None
         | (id, r) :: _ => DebounceResultOf None (Some id) (ws_is_debounced r)
                             (Some (ws_name r)) (ws_class_name r)
         end), d).
Proof.
  intros Hu Hb. unfold debounceDelayedWorkflow, bind.
  rewrite update_workflow_status_ok by eauto using bounced_dedup_safe.
  rewrite (update_status_none d) by eauto.
  rewrite (proj2 (select_where_nil _ _)) by eauto. simpl. destruct (select_where _ _) as [|[]]; done.
Qed.

(** The two outcomes of a bounce are decided by the rows. *)
Lemma bounce_cases p d :
  (exists id r, workflow_status d !! id = Some r /\ bounceable p r = true)
  \/ (forall k r, workflow_status d !! k = Some r -> bounceable p r = false).
Proof.
  destruct (select_where (fun _ => bounceable p) (workflow_status d)) as [|[id r] l] eqn:E.
  - right. by apply (select_where_nil (fun _ => bounceable p)).
  - left. exists id, r.
    assert ((id, r) ∈ select_where (fun _ => bounceable p) (workflow_status d)) as Hin
      by (rewrite E; set_solver).
    by apply elem_of_select_where in Hin.
Qed.

Lemma preserves_debounceDelayedWorkflow now p : preserves db_ok (debounceDelayedWorkflow now p).
Proof.
  unfold debounceDelayedWorkflow. apply preserves_bind; [auto with preserves|].
  intros [|id l]; [|auto with preserves]. apply preserves_bind; [auto with preserves|].
  intros d. destruct (select_where _ _) as [|[]]; auto with preserves.
Qed.

Lemma preserves_transitionDelayedWorkflows now : preserves db_ok (transitionDelayedWorkflows now).
Proof. unfold transitionDelayedWorkflows. auto with preserves. Qed.

#[export] Hint Resolve preserves_debounceDelayedWorkflow preserves_transitionDelayedWorkflows
  preserves_initWorkflowStatus : preserves.

Lemma capped_delay_le dl t x : capped_delay dl t = x -> x <= t /\ forall c, dl = Some c -> x <= c.
Proof.
  unfold capped_delay. intros <-. destruct dl as [c|]; [|by split; [lia|]].
  destruct (c <? t) eqn:E; break_bool; split; try lia; intros ? [= ->]; lia.
Qed.

(** A bounce is exact.  When the debounce key is held by a debounced DELAYED workflow
    of the same name and class, that workflow, and nothing else, gets the new inputs and a
    start time that is the requested one or, if that is earlier, its debounce deadline.
    Otherwise nothing changes, and the result says who holds the key: nobody, or the one
    holder the unique index allows. *)
Theorem debounceDelayedWorkflow_spec now p d :
  db_ok d ->
  (exists id r, workflow_status d !! id = Some r /\ bounceable p r = true
     /\ debounceDelayedWorkflow now p d
        = (Ok (DebounceResultOf (Some id) None false None None),
           d <| workflow_status ::= <[id := bounced now p r]> |>)
     /\ exists delay, ws_delay_until_epoch_ms (bounced now p r) = Some delay
          /\ delay <= dp_delayUntilEpochMS p
          /\ forall c, ws_debounce_deadline_epoch_ms r = Some c -> delay <= c)
  \/ (exists res, debounceDelayedWorkflow now p d = (Ok res, d)
      /\ dr_bouncedWorkflowID res = None
      /\ forall id, dr_holderWorkflowID res = Some id <->
           exists r, workflow_status d !! id = Some r
             /\ holds_key (dp_queueName p) (dp_deduplicationID p) r = true).
Proof.
  intros Hd. pose proof (ok_dedup _ Hd) as Hu.
  destruct (bounce_cases p d) as [(id & r & Hr & Hb)|Hno].
  - left. exists id, r. split; [done|]. split; [done|]. split; [by apply bounce_hit|].
    eexists. split; [done|]. by apply capped_delay_le.
  - right. eexists. split; [by apply bounce_miss|].
    destruct (select_where _ (workflow_status d)) as [|[h rh] l] eqn:E; simpl.
    + split; [done|]. intros id. split; [done|]. intros (r & Hr & Hk).
      by rewrite (proj1 (select_where_nil _ _) E _ _ Hr) in Hk.
    + split; [done|]. intros id.
      assert ((h, rh) ∈ select_where (fun _ => holds_key (dp_queueName p) (dp_deduplicationID p))
        (workflow_status d)) as Hin by (rewrite E; set_solver).
      apply elem_of_select_where in Hin as [Hh Hk]. split; [intros [= <-]; eauto|].
      intros (r & Hr & Hkr). f_equal. by eapply holder_unique.
Qed.

(** The delay sweep releases exactly the DELAYED workflows whose time has come, in
    one statement that cannot fail: each becomes ENQUEUED, a debounced one also gives up
    its debounce key, so that the next debounce of the key starts a fresh workflow, and
    no other row and no other table changes. *)
Theorem transitionDelayedWorkflows_spec now d :
  db_ok d ->
  exists d', transitionDelayedWorkflows now d = (Ok tt, d')
    /\ d' = d <| workflow_status := workflow_status d' |>
    /\ (forall id, workflow_status d' !! id =
          (fun r => if delay_expired now r then released now r else r)
            <$> workflow_status d !! id)
    /\ forall id r q k, workflow_status d !! id = Some r -> delay_expired now r = true ->
         ws_is_debounced r = true -> holds_key q k r = true ->
         getDeduplicatedWorkflow q k d' = None.
Proof.
  intros Hd. pose proof (ok_dedup _ Hd) as Hu. unfold transitionDelayedWorkflows, bind.
  rewrite update_workflow_status_ok; [|done|].
  2:{ intros r. unfold released. simpl. destruct (ws_is_debounced r); [by left|by right]. }
  eexists. split; [done|]. split; [done|].
  assert (forall id, workflow_status (d <| workflow_status ::=
            update_where (fun _ => delay_expired now) (released now) |>) !! id
          = (fun r => if delay_expired now r then released now r else r)
              <$> workflow_status d !! id) as Hl.
  { intros id. simpl. by rewrite lookup_update_where. }
  split; [exact Hl|]. intros id r q k Hr He Hdb Hk. unfold getDeduplicatedWorkflow.
  rewrite (proj2 (select_where_nil _ _)); [done|]. intros id' r'. rewrite Hl.
  intros (r0 & Hr0 & ->)%fmap_Some. destruct (decide (id' = id)) as [->|Hne].
  - simplify_eq. rewrite He. unfold holds_key, released. simpl. rewrite Hdb. by rewrite andb_false_r.
  - apply not_true_iff_false. intros E. apply Hne.
    eapply holder_unique; [exact Hu|exact Hr0|exact Hr| |exact Hk].
    destruct (delay_expired now r0); [|done]. unfold holds_key, released in *. simpl in E.
    destruct (ws_is_debounced r0); [|done]. simpl in E. by rewrite andb_false_r in E.
Qed.

(** * The coalescing loop *)

(** [id] is the debounced workflow of the call: it waits under the debounce key with the
    inputs of this call. *)
Definition coalesced (c : DebounceCall) (id : string) (d : sysdb) : Prop :=
  exists r, workflow_status d !! id = Some r
    /\ ws_name r = dc_workflowName c
    /\ ws_class_name r = null_if_empty (dc_workflowClassName c)
    /\ holds_key (debounce_queue c) (debounce_dedup_id c) r = true
    /\ ws_status r = DELAYED /\ ws_is_debounced r = true
    /\ ws_inputs r = dc_input c.

(** No workflow has one of these IDs. *)
Definition unused (ids : list string) (d : sysdb) : Prop :=
  forall id, id ∈ ids -> workflow_status d !! id = None.

(** What other clients may do: keep the schema's integrity, and not use the IDs of this
    call. *)
Definition tame (ids : list string) (f : sysdb -> sysdb) : Prop := forall d,
  db_ok d -> unused ids d -> db_ok (f d) /\ unused ids (f d).

Definition tame_interference (ids : list string) (env : interference) : Prop :=
  tame ids (before env) /\ tame ids (between env).

(** The IDs that the rounds of a call may give the fresh workflow *)
Definition own_ids (c : DebounceCall) (envs : list interference) : list string :=
  (fun env => debounced_id c (at_uuid env)) <$> envs.

Lemma classify_return res n cl :
  classifyBounce res n cl = Return -> is_Some (dr_bouncedWorkflowID res).
Proof.
  unfold classifyBounce. destruct (dr_bouncedWorkflowID res); [eauto|].
  by repeat case_match.
Qed.

Lemma fresh_debounced now c uuid d :
  validateWorkflowAttributes (sp_attributes (dc_params c)) = None ->
  dedup_unique (workflow_status d) -> workflow_status d !! debounced_id c uuid = None ->
  (exists k r, workflow_status d !! k = Some r
     /\ holds_key (debounce_queue c) (debounce_dedup_id c) r = true)
  /\ enqueue_fresh now c uuid d = (Ok None, d)
  \/ enqueue_fresh now c uuid d
     = (Ok (Some (debounced_id c uuid)),
        d <| workflow_status ::=
          <[debounced_id c uuid := status_to_row now (debounced_status now c uuid) None]> |>).
Proof.
  intros Ha Hu Hn. unfold enqueue_fresh, try_catch, bind. rewrite Ha.
  destruct (init_fresh_cases now now (debounced_status now c uuid) None None d Hu Hn)
    as [[(k & r & Hk & Hc) ->]|[_ ->]]; [done| |by right].
  left. split; [|done]. exists k, r. split; [done|]. apply holds_key_spec.
  apply dedup_clash_true in Hc as (q & x & Hq & Hq' & Hx & Hx'). simpl in Hq, Hx.
  by simplify_eq.
Qed.

Lemma preserves_fresh_debounced now c uuid : preserves db_ok (enqueue_fresh now c uuid).
Proof.
  apply preserves_try_catch; [destruct (validateWorkflowAttributes _); auto with preserves|].
  intros e. destruct (isQueueDeduplicatedError e); [apply preserves_ret | apply preserves_throw].
Qed.

(** Attributes that are refused end the loop. *)
Lemma invalid_attributes now c uuid d e :
  validateWorkflowAttributes (sp_attributes (dc_params c)) = Some e ->
  exists e', enqueue_fresh now c uuid d = (Throw e', d).
Proof.
  intros H. unfold enqueue_fresh, try_catch. rewrite H. cbv [throw].
  destruct (sp_attributes (dc_params c)) as [|t|keys [m|j]]; try done.
  - injection H as <-. eauto.
  - injection H as <-. eauto.
  - cbn in H. destruct j as [| | | | |[]], keys; try done. injection H as <-. eauto.
Qed.

Lemma debounce_attempt_spec now c uuid ids meanwhile d :
  tame ids meanwhile -> debounced_id c uuid ∈ ids -> db_ok d -> unused ids d ->
  match debounce_attempt now c uuid meanwhile d with
  | (Ok (Some id), d') => db_ok d' /\ coalesced c id d'
  | (Ok None, d') => db_ok d' /\ unused ids d'
  | (Throw _, _) => True
  end.
Proof.
  intros Hm Hid Hd Hn. pose proof (ok_dedup _ Hd) as Hu. unfold debounce_attempt, transaction.
  unfold bind at 1. destruct (bounce_cases (bounce_params now c) d) as [(id & r & Hr & Hb)|Hno].
  - erewrite bounce_hit by done. simpl.
    pose proof (preserves_debounceDelayedWorkflow now (bounce_params now c) d Hd) as Hp.
    erewrite bounce_hit in Hp by done. split; [exact Hp|].
    eexists. simpl. rewrite lookup_insert_eq. split; [done|]. simpl.
    pose proof (bounceable_holds _ _ Hb) as Hk. unfold bounceable in Hb. break_bool. simpl in *.
    repeat split; try done.
  - rewrite bounce_miss by done. set (res := match select_where _ _ with [] => _ | _ => _ end).
    destruct (classifyBounce _ _ _) eqn:Ec; [| |done|done].
    + apply classify_return in Ec. subst res. destruct (select_where _ _) as [|[]]; by destruct Ec.
    + unfold bind at 1. destruct (Hm d Hd Hn) as [Hd1 Hn1].
      destruct (validateWorkflowAttributes (sp_attributes (dc_params c))) eqn:Ha.
      { by destruct (invalid_attributes now c uuid (meanwhile d) _ Ha) as [e' ->]. }
      destruct (fresh_debounced now c uuid (meanwhile d) Ha (ok_dedup _ Hd1) (Hn1 _ Hid)) as [[_ ->]|E]; [done|].
      rewrite E. split.
      * pose proof (preserves_fresh_debounced now c uuid _ Hd1) as Hp. by rewrite E in Hp.
      * eexists. simpl. rewrite lookup_insert_eq. split; [done|]. simpl.
        rewrite holds_key_spec. done.
Qed.

(** A debounce never loses a call.  Whatever other clients do to the database between
    the statements of the loop, when it returns a workflow ID, that workflow waits in
    DELAYED state under the debounce key and carries the inputs of this call. *)
Theorem debounce_carries_inputs c envs d id d' :
  db_ok d -> unused (own_ids c envs) d ->
  Forall (tame_interference (own_ids c envs)) envs ->
  debounce c envs d = (Ok (Some id), d') ->
  db_ok d' /\ coalesced c id d'.
Proof.
  intros Hd Hn Henvs. unfold debounce.
  destruct (_ <=? 0); [done|]. destruct (rejectConflictingOptions _); [done|].
  assert (Forall (fun env => debounced_id c (at_uuid env) ∈ own_ids c envs) envs) as Hids.
  { apply Forall_forall. intros env Henv. by apply (list_elem_of_fmap_2 (fun env => debounced_id c (at_uuid env))). }
  revert Henvs Hids Hn. generalize (own_ids c envs) as ids. intros ids Henvs. revert d Hd.
  induction Henvs as [|env envs [Hb Hm] _ IH]; intros d Hd Hids Hn H; [done|].
  apply Forall_cons in Hids as [Hid Hids].
  cbn [debounce_loop] in H. unfold bind at 1 in H. destruct (Hb d Hd Hn) as [Hd1 Hn1].
  pose proof (debounce_attempt_spec (at_time env) c (at_uuid env) ids (between env) _ Hm Hid Hd1 Hn1) as Hs.
  unfold bind in H.
  destruct (debounce_attempt _ _ _ _ _) as [[[id1|]|e] d1]; [| |done].
  - unfold ret in H. by simplify_eq.
  - destruct Hs as [Hd2 Hn2]. by apply (IH d1).
Qed.

(** Debounced holders of a key have not started, and no class name is the empty string:
    the code stores NULL for it. *)
Definition debounce_ready (d : sysdb) : Prop := forall id r,
  workflow_status d !! id = Some r ->
  (ws_is_debounced r = true -> is_Some (ws_deduplication_id r) -> ws_status r = DELAYED)
  /\ ws_class_name r <> Some "".

(** The workflow that keeps a call out: it holds the key and is not a debounce of the
    same workflow. *)
Definition foreign_holder (c : DebounceCall) (d : sysdb) : Prop := exists id r,
  workflow_status d !! id = Some r
  /\ holds_key (debounce_queue c) (debounce_dedup_id c) r = true
  /\ ~ (ws_is_debounced r = true /\ ws_name r = dc_workflowName c
        /\ ws_class_name r = null_if_empty (dc_workflowClassName c)).

Lemma not_bounceable_holder p r :
  holds_key (dp_queueName p) (dp_deduplicationID p) r = true ->
  (ws_is_debounced r = true -> is_Some (ws_deduplication_id r) -> ws_status r = DELAYED) ->
  bounceable p r = false ->
  ~ (ws_is_debounced r = true /\ ws_name r = dp_workflowName p
     /\ ws_class_name r = null_if_empty (dp_workflowClassName p)).
Proof.
  intros Hk Hd Hb (H1 & H2 & H3). unfold bounceable in Hb. rewrite Hk, H1 in Hb.
  apply holds_key_spec in Hk as [_ Hk].
  rewrite Hd in Hb by (try done; rewrite Hk; eauto).
  rewrite (bool_decide_true _ H2), (proj2 (opt_eqb_spec _ _) H3) in Hb. by simpl in Hb.
Qed.

Lemma classify_foreign id r n cl :
  ws_class_name r <> Some "" ->
  ~ (ws_is_debounced r = true /\ ws_name r = n /\ ws_class_name r = null_if_empty cl) ->
  classifyBounce (DebounceResultOf None (Some id) (ws_is_debounced r) (Some (ws_name r))
                    (ws_class_name r)) n cl = Raise.
Proof.
  intros Hc Hno. unfold classifyBounce. simpl.
  destruct (ws_is_debounced r) eqn:E1; [|done]. simpl.
  destruct (_ || _) eqn:E2; [done|]. break_bool. exfalso. apply Hno.
  split; [done|]. split; [congruence|]. unfold null_if_empty.
  destruct (ws_class_name r) as [[|]|], cl; simpl in *; congruence.
Qed.

Lemma debounce_attempt_after now c uuid meanwhile d res d1 :
  debounceDelayedWorkflow now (bounce_params now c) d = (Ok res, d1) ->
  debounce_attempt now c uuid meanwhile d
  = match classifyBounce res (dc_workflowName c) (dc_workflowClassName c) with
    | Return => (Ok (dr_bouncedWorkflowID res), d1)
    | Raise => (Throw (key_taken c), d1)
    | Retry => (Ok None, d1)
    | Enqueue => enqueue_fresh now c uuid (meanwhile d1)
    end.
Proof.
  intros E. unfold debounce_attempt, transaction. unfold bind at 1. rewrite E.
  by destruct (classifyBounce _ _ _).
Qed.

Lemma debounce_attempt_quiet now c uuid d :
  validateWorkflowAttributes (sp_attributes (dc_params c)) = None ->
  db_ok d -> workflow_status d !! debounced_id c uuid = None -> debounce_ready d ->
  (exists id d', debounce_attempt now c uuid (fun d => d) d = (Ok (Some id), d'))
  \/ debounce_attempt now c uuid (fun d => d) d = (Throw (key_taken c), d)
     /\ foreign_holder c d.
Proof.
  intros Ha Hd Hn Hready. pose proof (ok_dedup _ Hd) as Hu.
  destruct (bounce_cases (bounce_params now c) d) as [(id & r & Hr & Hb)|Hno].
  { left. erewrite debounce_attempt_after by by apply bounce_hit. simpl. eauto. }
  erewrite !debounce_attempt_after by by apply bounce_miss.
  destruct (select_where _ _) as [|[h rh] l] eqn:Es.
  - left. simpl. destruct (fresh_debounced now c uuid d Ha Hu Hn) as [[(k & r & Hr & Hk) _]|E']; [|rewrite E'; eauto].
    pose proof (proj1 (select_where_nil _ _) Es _ _ Hr) as Hk'. simpl in Hk'. congruence.
  - right. assert ((h, rh) ∈ select_where (fun _ => holds_key (dp_queueName (bounce_params now c))
      (dp_deduplicationID (bounce_params now c))) (workflow_status d)) as Hin
      by (rewrite Es; set_solver).
    apply elem_of_select_where in Hin as [Hh Hk]. destruct (Hready _ _ Hh) as [Hdel Hcls].
    pose proof (not_bounceable_holder (bounce_params now c) rh Hk Hdel (Hno _ _ Hh)) as Hfor.
    rewrite classify_foreign by done. split; [done|]. by exists h, rh.
Qed.

(** The loop ends on its first quiet iteration.  If debounced holders of a key are
    still DELAYED, one iteration that nobody interferes with returns the coalesced
    workflow, or throws the deduplication error with the database unchanged because the
    key is held by a workflow that is not a debounce of this one. *)
Theorem debounce_quiet_progress c now uuid d :
  db_ok d -> workflow_status d !! debounced_id c uuid = None -> debounce_ready d ->
  0 < dc_debouncePeriodMs c -> rejectConflictingOptions (dc_params c) = None ->
  validateWorkflowAttributes (sp_attributes (dc_params c)) = None ->
  let quiet := Interference now uuid (fun d => d) (fun d => d) in
  (exists id d', debounce c [quiet] d = (Ok (Some id), d') /\ coalesced c id d')
  \/ debounce c [quiet] d
     = (Throw (key_taken c), d)
     /\ foreign_holder c d.
Proof.
  intros Hd Hn Hready Hpos Hrej Ha quiet.
  unfold debounce. rewrite (proj2 (Z.leb_gt _ _) Hpos), Hrej. cbn [debounce_loop].
  unfold bind at 1 3. change (before quiet d) with d. unfold bind.
  change (between quiet) with (fun d : sysdb => d). change (at_time quiet) with now.
  change (at_uuid quiet) with uuid.
  assert (unused [debounced_id c uuid] d) as Hun by (by intros ? ->%list_elem_of_singleton).
  pose proof (debounce_attempt_spec now c uuid [debounced_id c uuid] (fun d => d) d ltac:(done) ltac:(set_solver) Hd Hun) as Hs.
  destruct (debounce_attempt_quiet now c uuid d Ha Hd Hn Hready) as [(id & d' & E)|[E Hf]].
  - rewrite E in *. left. exists id, d'. by destruct Hs.
  - rewrite E. by right.
Qed.

(** * Witnesses *)

Definition ex_call : DebounceCall :=
  {| dc_workflowName := "reindex"; dc_workflowClassName := "Search";
     dc_params := StartWorkflowParamsOf (Some "jobs") None NoAttributes None None None None None false;
     dc_debounceTimeoutMs := Some 3000; dc_debounceKey := "k"; dc_debouncePeriodMs := 1000;
     dc_input := Some "[2]"; dc_serialization := Some "js_superjson"; dc_workflowID := Some "db-2" |}.

(** An earlier debounce of the key, whose cap is 2500. *)
Definition ex_debounced_row : wf_row :=
  status_to_row 500 (debounced_status 500 (ex_call <| dc_workflowID := Some "db-1" |>) "u-1") None
  <| ws_debounce_deadline_epoch_ms := Some 2500 |>.

Definition ex_debounce_db : sysdb :=
  empty_db <| workflow_status := {[ "db-1" := ex_debounced_row ]} |>.

Lemma ex_debounce_ok : db_ok ex_debounce_db.
Proof.
  split; try by intros; simplify_map_eq.
  apply dedup_uniqueb_spec. vm_compute. done.
Defined.

Lemma ex_debounce_lookup id r :
  workflow_status ex_debounce_db !! id = Some r -> id = "db-1" /\ r = ex_debounced_row.
Proof.
  simpl. destruct (decide (id = "db-1")) as [->|Hne].
  - rewrite lookup_singleton_eq. intros [= <-]. split; reflexivity.
  - rewrite lookup_singleton_ne by congruence. discriminate.
Defined.

Lemma debounceDelayedWorkflow_spec_witness :
  exists delay, ws_delay_until_epoch_ms <$>
    workflow_status (debounceDelayedWorkflow 1800 (bounce_params 1800 ex_call) ex_debounce_db).2
      !! "db-1" = Some (Some delay) /\ delay <= 2500.
Proof.
  destruct (debounceDelayedWorkflow_spec 1800 (bounce_params 1800 ex_call) ex_debounce_db
    ex_debounce_ok) as [(id & r & Hr & _ & Hrun & delay & Hdel & _ & Hcap)|(res & Hrun & H & _)].
  - apply ex_debounce_lookup in Hr as [-> ->]. exists delay. rewrite Hrun. simpl.
    rewrite lookup_insert_eq. simpl. split; [f_equal; exact Hdel | apply Hcap; reflexivity].
  - exfalso. vm_compute in Hrun. injection Hrun as <-. discriminate H.
Defined.

Lemma transitionDelayedWorkflows_spec_witness :
  exists d', transitionDelayedWorkflows 9000 ex_debounce_db = (Ok tt, d')
    /\ getDeduplicatedWorkflow "jobs" "Search.reindex-k" d' = None.
Proof.
  destruct (transitionDelayedWorkflows_spec 9000 ex_debounce_db ex_debounce_ok)
    as (d' & Hrun & _ & _ & Hfree).
  exists d'. split; [exact Hrun|].
  apply (Hfree "db-1" ex_debounced_row); vm_compute; reflexivity.
Defined.

Lemma debounce_carries_inputs_witness :
  exists d', debounce ex_call [Interference 1800 "u-2" (fun d => d) (fun d => d)] ex_debounce_db
             = (Ok (Some "db-1"), d') /\ coalesced ex_call "db-1" d'.
Proof.
  eexists. assert (forall d',
    debounce ex_call [Interference 1800 "u-2" (fun d => d) (fun d => d)] ex_debounce_db
      = (Ok (Some "db-1"), d') ->
    debounce ex_call [Interference 1800 "u-2" (fun d => d) (fun d => d)] ex_debounce_db
      = (Ok (Some "db-1"), d') /\ coalesced ex_call "db-1" d') as H.
  { intros d' Hrun. split; [exact Hrun|].
    exact (proj2 (debounce_carries_inputs ex_call
      [Interference 1800 "u-2" (fun d => d) (fun d => d)] ex_debounce_db "db-1" d' ex_debounce_ok
      ltac:(intros ? ->%list_elem_of_singleton; vm_compute; reflexivity)
      ltac:(apply Forall_singleton; split; intros d0 ? ?; split; assumption) Hrun)). }
  apply H. vm_compute. reflexivity.
Defined.

Lemma debounce_quiet_progress_witness :
  is_ok (debounce ex_call [Interference 1800 "u-2" (fun d => d) (fun d => d)] ex_debounce_db).1 = true.
Proof.
  destruct (debounce_quiet_progress ex_call 1800 "u-2" ex_debounce_db ex_debounce_ok
    ltac:(vm_compute; reflexivity)) as [(id & d' & Hrun & _)|[_ (id & r & Hr & _ & Hno)]].
  - intros id r Hr. apply ex_debounce_lookup in Hr as [_ ->].
    split; [intros _ _; reflexivity | discriminate].
  - reflexivity.
  - reflexivity.
  - reflexivity.
  - rewrite Hrun. reflexivity.
  - exfalso. apply ex_debounce_lookup in Hr as [_ ->]. apply Hno. repeat split.
Defined.
