(* ===== verification/Messaging.v ===== *)
(** Workflow communication: messages ([send], [sendDirect], [recv]), events ([setEvent],
    [getEvent]), the event-dispatch key-value state and streams
    (src/src/system_database.ts).  The polling loops take as an argument what happens at
    each of their pauses: the clock reading and what the rest of the world does to the
    database. *)

From S2P Require Export Steps Fork.

Definition DBOS_FUNCNAME_SEND : string := "DBOS.send".
Definition DBOS_FUNCNAME_RECV : string := "DBOS.recv".
Definition DBOS_FUNCNAME_SETEVENT : string := "DBOS.setEvent".
Definition DBOS_FUNCNAME_GETEVENT : string := "DBOS.getEvent".
Definition DBOS_FUNCNAME_WRITESTREAM : string := "DBOS.writeStream".
Definition DBOS_FUNCNAME_CLOSESTREAM : string := "DBOS.closeStream".
Definition DBOS_STREAM_CLOSED_SENTINEL : string := "__DBOS_STREAM_CLOSED__".
Definition nullTopic : string := "__null__topic__".

(** * Messages *)

(** [idempotencyKey ? `${idempotencyKey}::${destinationID}` : randomUUID()] *)
Definition message_uuid (idempotencyKey : option string) (destinationID randomUUID : string)
    : string :=
  match truthy_str idempotencyKey with
  | Some k => k +:+ "::" +:+ destinationID
  | None => randomUUID
  end.

(** [INSERT INTO notifications ... ON CONFLICT (message_uuid) DO NOTHING]; [nowMs] is the
    default of [created_at_epoch_ms]. *)
Definition insert_notification (nowMs : Z) (messageUUID destinationID topic : string)
    (message serialization : option string) : DB unit := fun d =>
  match notifications d !! messageUUID with
  | Some _ => (Ok tt, d)
  | None =>
      bind (require_workflow destinationID) (fun _ d =>
        (Ok tt, d <| notifications ::=
                  <[messageUUID := NotifRow destinationID topic message nowMs false
                                     serialization]> |>)) d
  end.

(** [err.code === '23503'] *)
Definition is_foreign_key_error (e : dbos_error) : bool :=
  match e with DatabaseError code => bool_decide (code = "23503") | _ => false end.

(** The [catch] of the two sends *)
Definition translate_missing {A} (destinationID : string) (m : DB A) : DB A :=
  try_catch m (fun e =>
    if is_foreign_key_error e
    then throw (DBOSNonExistentWorkflowError
                  ("Sent to non-existent destination workflow UUID: " +:+ destinationID))
    else throw e).

(** [send], from inside a workflow: a transaction of its own. *)
Definition send (executorID randomUUID : string) (nowMs : Z) (workflowID : string)
    (functionID : Z) (destinationID : string) (message topic serialization : option string)
    (idempotencyKey : option string) (startTime endTime : Z) : DB unit :=
  translate_missing destinationID (transaction (
    runAndRecordResult executorID DBOS_FUNCNAME_SEND workflowID functionID
      (insert_notification nowMs (message_uuid idempotencyKey destinationID randomUUID)
         destinationID (default nullTopic topic) message serialization ;* ret None)
      startTime endTime ;*
    ret tt)).

(** [sendDirect], from outside *)
Definition sendDirect (randomUUID : string) (nowMs : Z) (destinationID : string)
    (message topic serialization : option string) (idempotencyKey : option string) : DB unit :=
  translate_missing destinationID
    (insert_notification nowMs (message_uuid idempotencyKey destinationID randomUUID)
       destinationID (default nullTopic topic) message serialization).

(** [destination_uuid = $1 AND topic = $2 AND consumed = false] *)
Definition unconsumed (workflowID topic : string) (r : notif_row) : bool :=
  bool_decide (nt_destination_uuid r = workflowID) && bool_decide (nt_topic r = topic)
  && negb (nt_consumed r).

(** The waiting messages, oldest first; messages of one millisecond in the order of the
    scan. *)
Definition pending_messages (workflowID topic : string) (d : sysdb) : list (string * notif_row) :=
  order_by (fun a b => nt_created_at_epoch_ms a.2 <=? nt_created_at_epoch_ms b.2)
    (select_where (fun _ => unconsumed workflowID topic) (notifications d)).

(** The [UPDATE ... RETURNING message, serialization] *)
Definition consume_oldest (workflowID topic : string)
    : DB (option (option string * option string)) := fun d =>
  match pending_messages workflowID topic d with
  | [] => (Ok None, d)
  | (uuid, r) :: _ =>
      (Ok (Some (nt_message r, nt_serialization r)),
       d <| notifications ::= <[uuid := r <| nt_consumed := true |>]> |>)
  end.

(** The final transaction of [recv] *)
Definition recv_consume (executorID workflowID : string) (functionID : Z) (topic : string)
    (startTime endTime : Z) : DB (option string * option string) :=
  transaction (
    let* row := consume_oldest workflowID topic in
    let message := row ≫= fst in
    let serialization := row ≫= snd in
    recordOperationResultInternal executorID workflowID functionID DBOS_FUNCNAME_RECV true
      startTime endTime (no_options <| op_output := message |>
                                    <| op_serialization := serialization |>) ;*
    ret (message, serialization)).

(** One pause of a polling loop: the clock when the deadline is tested, and what others do
    to the database before the next look. *)
Record pause : Type := Pause {
  pause_clock : Z;
  pause_world : sysdb -> sysdb
}.

(** [finishTime && ct > finishTime] *)
Definition time_is_up (finishTime : option Z) (ct : Z) : bool :=
  match truthy_num finishTime with Some t => t <? ct | None => false end.

(** The waiting loop of [recv]: [true] when it breaks, [false] when the given pauses are
    over and it still waits. *)
Fixpoint recv_wait (pauses : list pause) (finishTime : option Z) (workflowID topic : string)
    : DB bool :=
  checkIfCanceled workflowID ;*
  let* d := get in
  match pending_messages workflowID topic d with
  | _ :: _ => ret true
  | [] =>
      match pauses with
      | [] => ret false
      | p :: pauses' =>
          if time_is_up finishTime (pause_clock p) then ret true
          else (fun d => (Ok tt, pause_world p d)) ;*
               recv_wait pauses' finishTime workflowID topic
      end
  end.

(** [recv]; [None] when it is still waiting after the given pauses.  [timeoutms] is
    [timeoutSeconds * 1000], and the clock readings are arguments. *)
Definition recv (executorID workflowID : string) (functionID timeoutFunctionID : Z)
    (topic : option string) (timeoutms : option Z) (pauses : list pause)
    (startTime endTime : Z) : DB (option (option string * option string)) :=
  let topic := default nullTopic topic in
  let* res := getOperationResultAndThrowIfCancelled workflowID functionID in
  match res with
  | Some r =>
      if negb (opt_eqb (sr_functionName r) (Some DBOS_FUNCNAME_RECV))
      then throw (DBOSUnexpectedStepError workflowID functionID DBOS_FUNCNAME_RECV
                    (default "" (sr_functionName r)))
      else ret (Some (sr_output r, sr_serialization r))
  | None =>
      let* finishTime :=
        match truthy_num timeoutms with
        | Some ms => let* t := durableSleep executorID workflowID timeoutFunctionID ms
                                 startTime startTime startTime in ret (Some t)
        | None => ret ((fun ms => startTime + ms) <$> timeoutms)
        end in
      let* stop := recv_wait pauses finishTime workflowID topic in
      if stop then
        checkIfCanceled workflowID ;*
        let* m := recv_consume executorID workflowID functionID topic startTime endTime in
        ret (Some m)
      else ret None
  end.

(** * Events *)

(** The two upserts of [setEvent] *)
Definition upsert_event (workflowID : string) (functionID : Z) (key : string) (v : event_row)
    : DB unit :=
  require_workflow workflowID ;*
  (fun d => (Ok tt, d <| workflow_events ::= <[(workflowID, key) := v]> |>
                      <| workflow_events_history ::= <[(workflowID, functionID, key) := v]> |>)).

(** The transaction [setEvent] and [writeStreamFromWorkflow] share: the checkpointed write
    [m], and [didWrite], whether it ran. *)
Definition write_step (x fn id : string) (fid : Z) (m : DB unit) (st en : Z) : DB bool :=
  transaction (
    let* res := getOperationResultAndThrowIfCancelled id fid in
    runAndRecordResult x fn id fid (m ;* ret None) st en ;*
    ret (bool_decide (res = None))).

(** [setEvent]: whether a notification is to be signalled, that is, whether it wrote. *)
Definition setEvent (executorID workflowID : string) (functionID : Z) (key : string)
    (message serialization : option string) (startTime endTime : Z) : DB bool :=
  write_step executorID DBOS_FUNCNAME_SETEVENT workflowID functionID
    (upsert_event workflowID functionID key (EventRow message serialization))
    startTime endTime.

(** The caller of [getEvent], when it is a workflow *)
Record CallerWorkflow : Type := CallerWorkflowOf {
  cw_workflowID : string;
  cw_functionID : Z;
  cw_timeoutFunctionID : Z
}.

(** The waiting loop of [getEvent]: [Some] when it breaks, with the value if there is one;
    [None] when it still waits. *)
Fixpoint event_wait (pauses : list pause) (finishTime : option Z)
    (caller : option CallerWorkflow) (workflowID key : string)
    : DB (option (option event_row)) :=
  match caller with Some c => checkIfCanceled (cw_workflowID c) | None => ret tt end ;*
  let* d := get in
  match workflow_events d !! (workflowID, key) with
  | Some v => ret (Some (Some v))
  | None =>
      match pauses with
      | [] => ret None
      | p :: pauses' =>
          if time_is_up finishTime (pause_clock p) then ret (Some None)
          else (fun d => (Ok tt, pause_world p d)) ;*
               event_wait pauses' finishTime caller workflowID key
      end
  end.

(** [getEvent] *)
Definition getEvent (executorID workflowID key : string) (timeoutms : option Z)
    (caller : option CallerWorkflow) (pauses : list pause) (startTime endTime : Z)
    : DB (option (option string * option string)) :=
  let* prev := match caller with
               | Some c => getOperationResultAndThrowIfCancelled (cw_workflowID c) (cw_functionID c)
               | None => ret None
               end in
  match prev, caller with
  | Some r, Some c =>
      if negb (opt_eqb (sr_functionName r) (Some DBOS_FUNCNAME_GETEVENT))
      then throw (DBOSUnexpectedStepError (cw_workflowID c) (cw_functionID c)
                    DBOS_FUNCNAME_GETEVENT (default "" (sr_functionName r)))
      else ret (Some (sr_output r, sr_serialization r))
  | _, _ =>
      let* finishTime :=
        match caller, truthy_num timeoutms with
        | Some c, Some ms =>
            let* t := durableSleep executorID (cw_workflowID c) (cw_timeoutFunctionID c) ms
                        startTime startTime startTime in ret (Some t)
        | _, _ => ret ((fun ms => startTime + ms) <$> timeoutms)
        end in
      let* found := event_wait pauses finishTime caller workflowID key in
      match found with
      | None => ret None
      | Some v =>
          let value := v ≫= ev_value in
          let valueSer := v ≫= ev_serialization in
          match caller with
          | Some c =>
              recordOperationResult executorID (cw_workflowID c) (cw_functionID c)
                DBOS_FUNCNAME_GETEVENT true startTime endTime
                (no_options <| op_output := value |> <| op_serialization := valueSer |>)
          | None => ret tt
          end ;*
          ret (Some (value, valueSer))
      end
  end.

(** * Event dispatch state *)

(** [DBOSExternalState], less its key *)
Record ExternalState : Type := ExternalStateOf {
  es_value : option string;
  es_updateTime : option Z;
  es_updateSeq : option Z
}.

Definition state_of_row (r : kv_row) : ExternalState :=
  ExternalStateOf (kv_value r) (kv_update_time r) (kv_update_seq r).

(** [getEventDispatchState] *)
Definition getEventDispatchState (service workflowName key : string) (d : sysdb)
    : option ExternalState :=
  state_of_row <$> event_dispatch_kv d !! (service, workflowName, key).

(** [a > b] of two nullable columns: not true when either is NULL *)
Definition sql_newer (a b : option Z) : bool :=
  match a, b with Some x, Some y => y <? x | _, _ => false end.

(** [DO UPDATE SET ...] of the excluded state [ex] on the stored row *)
Definition merge_state (ex : ExternalState) (old : kv_row) : kv_row :=
  {| kv_value :=
       if sql_newer (es_updateTime ex) (kv_update_time old)
          || sql_newer (es_updateSeq ex) (kv_update_seq old)
          || (negb (bool_decide (is_Some (kv_update_time old)))
              && negb (bool_decide (is_Some (kv_update_seq old))))
       then es_value ex else kv_value old;
     kv_update_time := sql_greatest (es_updateTime ex) (kv_update_time old);
     kv_update_seq := sql_greatest (es_updateSeq ex) (kv_update_seq old) |}.

(** [upsertEventDispatchState] *)
Definition upsertEventDispatchState (service workflowFnName key : string) (s : ExternalState)
    : DB ExternalState := fun d =>
  let k := (service, workflowFnName, key) in
  let r := match event_dispatch_kv d !! k with
           | None => KvRow (es_value s) (es_updateTime s) (es_updateSeq s)
           | Some old => merge_state s old
           end in
  (Ok (state_of_row r), d <| event_dispatch_kv ::= <[k := r]> |>).

(** * Streams *)

(** [SELECT MAX("offset")], and the offset of the next entry *)
Definition max_offset (workflowID key : string) (d : sysdb) : option Z :=
  max_of (fun kr => kr.1.2)
    (select_where (fun k _ => bool_decide (k.1 = (workflowID, key))) (streams d)).

Definition next_offset (workflowID key : string) (d : sysdb) : Z :=
  match max_offset workflowID key d with Some m => m + 1 | None => 0 end.

(** The insert of both writers *)
Definition append_stream (workflowID key : string) (functionID : Z) (value : string)
    (serialization : option string) : DB unit := fun d =>
  insert_rows streams
    [((workflowID, key, next_offset workflowID key d), StreamRow value functionID serialization)] d.

(** [writeStreamFromStep] *)
Definition writeStreamFromStep (workflowID : string) (functionID : Z) (key serializedValue : string)
    (serialization : option string) : DB unit :=
  transaction (append_stream workflowID key functionID serializedValue serialization).

(** [writeStreamFromWorkflow]: whether a notification is to be signalled. *)
Definition writeStreamFromWorkflow (executorID workflowID : string) (functionID : Z)
    (key serializedValue : string) (serialization : option string) (functionName : string)
    (startTime endTime : Z) : DB bool :=
  write_step executorID functionName workflowID functionID
    (append_stream workflowID key functionID serializedValue serialization)
    startTime endTime.

(** [closeStream] *)
Definition closeStream (executorID workflowID : string) (functionID : Z) (key : string)
    (startTime endTime : Z) : DB bool :=
  writeStreamFromWorkflow executorID workflowID functionID key DBOS_STREAM_CLOSED_SENTINEL
    (Some "portable_json") DBOS_FUNCNAME_CLOSESTREAM startTime endTime.

(** [readStreamValue]: the status of the workflow, and the entry at [offset]. *)
Definition readStreamValue (workflowID key : string) (offset : Z) (d : sysdb)
    : option StatusString * option (string * option string) :=
  match workflow_status d !! workflowID with
  | None => (None, None)
  | Some ws =>
      (Some (ws_status ws),
       (fun s => (st_value s, st_serialization s)) <$> streams d !! (workflowID, key, offset))
  end.

(** How the generator [DBOS.readStream] ends: at the close marker, at the first empty
    offset after it saw the workflow end, because there is no such workflow, or not within
    the given iterations. *)
Inductive read_end : Type := Closed | Drained | Missing | Waiting.

(** [DBOS.readStream] (src/src/dbos.ts): the values it yields.  [worlds] is what others do
    to the database between two iterations of the loop. *)
Fixpoint readStream (worlds : list (sysdb -> sysdb)) (workflowID key : string) (offset : Z)
    (finalRead : bool) (d : sysdb) : list (string * option string) * read_end * sysdb :=
  match readStreamValue workflowID key offset d with
  | (None, _) => ([], Missing, d)
  | (Some _, Some v) =>
      if bool_decide (v.1 = DBOS_STREAM_CLOSED_SENTINEL) then ([], Closed, d)
      else match worlds with
           | [] => ([v], Waiting, d)
           | w :: worlds' =>
               let '(vs, e, d') := readStream worlds' workflowID key (offset + 1) finalRead (w d) in
               (v :: vs, e, d')
           end
  | (Some status, None) =>
      if finalRead then ([], Drained, d)
      else match worlds with
           | [] => ([], Waiting, d)
           | w :: worlds' =>
               readStream worlds' workflowID key offset
                 (finalRead || negb (isWorkflowActive status)) (w d)
           end
  end.

(** * Lemmas *)

Lemma preserves_insert_notification now uuid dest topic msg ser :
  preserves db_ok (insert_notification now uuid dest topic msg ser).
Proof.
  intros d Hd. unfold insert_notification, bind, require_workflow.
  destruct (notifications d !! uuid); [done|].
  destruct (workflow_status d !! dest) eqn:E; [|done]. simpl.
  apply db_ok_insert_notif; [done|]. unfold wf_exists. simpl. eauto.
Qed.

Lemma preserves_translate_missing {A} dest (m : DB A) :
  preserves db_ok m -> preserves db_ok (translate_missing dest m).
Proof.
  intros Hm. apply preserves_try_catch; [done|]. intros e.
  destruct (is_foreign_key_error e); apply preserves_throw.
Qed.

Lemma preserves_consume_oldest id topic : preserves db_ok (consume_oldest id topic).
Proof.
  intros d Hd. unfold consume_oldest.
  destruct (pending_messages id topic d) as [|[uuid r] l] eqn:E; [done|]. simpl.
  apply db_ok_insert_notif; [done|]. simpl.
  assert ((uuid, r) ∈ pending_messages id topic d) as Hin by (rewrite E; set_solver).
  apply elem_of_order_by, elem_of_select_where in Hin as [Hin _].
  by eapply (ok_notifs _ Hd).
Qed.

Lemma preserves_checkIfCanceled id : preserves db_ok (checkIfCanceled id).
Proof. intros d Hd. by rewrite checkIfCanceled_run. Qed.

Lemma preserves_upsert_event id fid key v : preserves db_ok (upsert_event id fid key v).
Proof.
  intros d Hd. unfold upsert_event, bind, require_workflow.
  destruct (workflow_status d !! id) eqn:E; [|done].
  assert (wf_exists d id) as Hw by (unfold wf_exists; rewrite E; eauto).
  cbn [snd]. apply db_ok_insert_history; [|done]. by apply db_ok_insert_event.
Qed.

Lemma preserves_append_stream id key fid v ser : preserves db_ok (append_stream id key fid v ser).
Proof.
  intros d Hd. unfold append_stream, insert_rows. simpl.
  destruct (streams d !! _); [done|]. destruct (workflow_status d !! id) eqn:E.
  - rewrite bool_decide_true by eauto. simpl. apply db_ok_insert_stream; [done|].
    unfold wf_exists. rewrite E. eauto.
  - rewrite bool_decide_false by (by intros [? ?]). done.
Qed.

#[export] Hint Resolve preserves_insert_notification preserves_translate_missing
  preserves_consume_oldest preserves_checkIfCanceled preserves_upsert_event
  preserves_append_stream : preserves.

Lemma preserves_send x u now id fid dest msg topic ser idem st en :
  preserves db_ok (send x u now id fid dest msg topic ser idem st en).
Proof. unfold send. auto 10 with preserves. Qed.

Lemma preserves_sendDirect u now dest msg topic ser idem :
  preserves db_ok (sendDirect u now dest msg topic ser idem).
Proof. unfold sendDirect. auto with preserves. Qed.

Lemma preserves_recv_consume x id fid topic st en :
  preserves db_ok (recv_consume x id fid topic st en).
Proof.
  unfold recv_consume. apply preserves_transaction, preserves_bind; [auto with preserves|].
  intros row. auto with preserves.
Qed.

Lemma preserves_write_step x fn id fid m st en :
  preserves db_ok m -> preserves db_ok (write_step x fn id fid m st en).
Proof. intros Hm. unfold write_step. auto 10 with preserves. Qed.

Lemma preserves_setEvent x id fid key msg ser st en :
  preserves db_ok (setEvent x id fid key msg ser st en).
Proof. apply preserves_write_step. auto with preserves. Qed.

Lemma preserves_writeStreamFromStep id fid key v ser :
  preserves db_ok (writeStreamFromStep id fid key v ser).
Proof. unfold writeStreamFromStep. auto with preserves. Qed.

Lemma preserves_writeStreamFromWorkflow x id fid key v ser fn st en :
  preserves db_ok (writeStreamFromWorkflow x id fid key v ser fn st en).
Proof. apply preserves_write_step. auto with preserves. Qed.

#[export] Hint Resolve preserves_send preserves_sendDirect preserves_recv_consume
  preserves_setEvent preserves_writeStreamFromStep preserves_writeStreamFromWorkflow : preserves.

(** Running a step that has a checkpoint of its own name replays it. *)
Lemma run_replay x fn id fid func st en d r :
  is_cancelled id d = false -> operation_outputs d !! (id, fid) = Some r ->
  oo_function_name r = fn ->
  runAndRecordResult x fn id fid func st en d = (Ok (oo_output r), d).
Proof.
  intros Hc Hr <-. unfold runAndRecordResult, bind. rewrite getOperationResult_run, Hc, Hr.
  simpl. unfold opt_eqb. by rewrite bool_decide_true.
Qed.

(** Running a step that has none runs its function and records the output. *)
Lemma run_fresh_inv x fn id fid func st en d out d' :
  db_ok d -> preserves db_ok func -> operation_outputs d !! (id, fid) = None ->
  (forall d, same_checkpoint id fid (func d).2 d) ->
  runAndRecordResult x fn id fid func st en d = (Ok out, d') ->
  is_cancelled id d = false
  /\ exists d1, func d = (Ok out, d1)
     /\ d' = claimed x id (d1 <| operation_outputs ::=
               <[(id, fid) := op_row_of fn st en (no_options <| op_output := out |>)]> |>)
     /\ operation_outputs d' !! (id, fid)
        = Some (op_row_of fn st en (no_options <| op_output := out |>)).
Proof.
  intros Hd Hf Hn Hs H. unfold runAndRecordResult in H.
  apply bind_inv_ok in H as (res & da & Hget & Hrest).
  rewrite getOperationResult_run in Hget. destruct (is_cancelled id d); [done|]. simplify_eq.
  rewrite Hn in Hrest. simpl in Hrest.
  apply bind_inv_ok in Hrest as (o & d1 & Hfo & Hrest).
  apply bind_inv_ok in Hrest as ([] & dc & Hrec & Hret). injection Hret as <- <-.
  split; [done|]. exists d1. split; [done|].
  pose proof (Hs da) as Hs1. pose proof (Hf da Hd) as Hd1. rewrite Hfo in Hs1, Hd1.
  unfold same_checkpoint in Hs1. simpl in Hs1, Hd1.
  apply record_ok_row in Hrec as [Hrow Hdc]; [|done|congruence]. done.
Qed.

Lemma translate_missing_ok {A} dest (m : DB A) d a d' :
  translate_missing dest m d = (Ok a, d') -> m d = (Ok a, d').
Proof.
  unfold translate_missing, try_catch. destruct (m d) as [[?|e] ?]; [done|].
  by destruct (is_foreign_key_error e).
Qed.

Lemma insert_notification_ops now uuid dest topic msg ser id fid d :
  same_checkpoint id fid
    ((insert_notification now uuid dest topic msg ser ;* ret (None (A := string))) d).2 d.
Proof.
  unfold same_checkpoint, bind, insert_notification, bind, require_workflow.
  destruct (notifications d !! uuid); [done|]. by destruct (workflow_status d !! dest).
Qed.

(** A missing destination fails the foreign key of the message, and the transaction is undone. *)
Lemma send_missing x u now id fid dest msg topic ser idem st en d :
  operation_outputs d !! (id, fid) = None -> notifications d !! message_uuid idem dest u = None ->
  is_cancelled id d = false -> workflow_status d !! dest = None ->
  send x u now id fid dest msg topic ser idem st en d
  = (Throw (DBOSNonExistentWorkflowError
              ("Sent to non-existent destination workflow UUID: " +:+ dest)), d).
Proof.
  intros Hn Hfresh Hc Hd.
  assert (insert_notification now (message_uuid idem dest u) dest (default nullTopic topic) msg ser d
          = (Throw (DatabaseError "23503"), d)) as Hins.
  { unfold insert_notification, bind, require_workflow. by rewrite Hfresh, Hd. }
  unfold send, translate_missing, try_catch, transaction, runAndRecordResult.
  unfold bind at 1. unfold bind at 1. rewrite getOperationResult_run, Hc, Hn. simpl.
  unfold bind at 1. unfold bind at 1. by rewrite Hins.
Qed.

(** C15: a workflow sends a message exactly once.  When [send] returns from its first
    execution, the message is in the mailbox of its destination, unconsumed, once, and
    nothing else changed there; any later execution of the step, although it draws a new
    random message ID, returns without touching the database.  A send to a workflow that does
    not exist throws the error that names it, and leaves neither a message nor a checkpoint. *)
Theorem send_exactly_once x u now id fid dest msg topic ser idem st en d :
  db_ok d -> operation_outputs d !! (id, fid) = None ->
  notifications d !! message_uuid idem dest u = None ->
  (forall d1, send x u now id fid dest msg topic ser idem st en d = (Ok tt, d1) ->
    is_Some (workflow_status d !! dest)
    /\ notifications d1 = <[message_uuid idem dest u :=
         NotifRow dest (default nullTopic topic) msg now false ser]> (notifications d)
    /\ forall x' u' now' msg' ser' idem' st' en' d2,
         same_checkpoint id fid d2 d1 -> is_cancelled id d2 = false ->
         send x' u' now' id fid dest msg' topic ser' idem' st' en' d2 = (Ok tt, d2))
  /\ (is_cancelled id d = false -> workflow_status d !! dest = None ->
      send x u now id fid dest msg topic ser idem st en d
      = (Throw (DBOSNonExistentWorkflowError
                  ("Sent to non-existent destination workflow UUID: " +:+ dest)), d)).
Proof.
  intros Hd Hn Hfresh. split.
  - intros d1 H. apply translate_missing_ok, transaction_ok in H.
    apply bind_inv_ok in H as (out & da & Hrun & Hret). injection Hret as <-.
    apply run_fresh_inv in Hrun as (_ & d0 & Hins & Hda & Hrow);
      [|done|auto with preserves|done|intros; apply insert_notification_ops].
    apply bind_inv_ok in Hins as ([] & db & Hins & Hret). injection Hret as _ <-.
    unfold insert_notification, bind, require_workflow in Hins. rewrite Hfresh in Hins.
    destruct (workflow_status d !! dest) eqn:Ed; [|done]. injection Hins as <-.
    split; [by eexists|]. split; [by rewrite Hda|].
    intros x' u' now' msg' ser' idem' st' en' d2 Hs Hc. unfold same_checkpoint in Hs.
    unfold send, translate_missing, try_catch, transaction, bind at 1.
    rewrite (run_replay _ _ _ _ _ _ _ _ _ Hc (eq_trans Hs Hrow)) by done. done.
  - intros Hc Hnone. by apply send_missing.
Qed.

(** Recording one step leaves the others alone, whatever happens. *)
Lemma claim_executor_ops x id d : operation_outputs (claim_executor x id d).2 = operation_outputs d.
Proof.
  unfold claim_executor, bind, update_workflow_status. by destruct (dedup_uniqueb _).
Qed.

Lemma record_other x id fid fn chk st en o d k :
  k <> (id, fid) ->
  operation_outputs (recordOperationResultInternal x id fid fn chk st en o d).2 !! k
  = operation_outputs d !! k.
Proof.
  intros Hk. unfold recordOperationResultInternal, try_catch, bind, upsert_operation_output.
  assert (forall b d0, operation_outputs d0 !! k = operation_outputs d !! k ->
    operation_outputs (match when b (claim_executor x id) d0 with
      | (Ok a, s') => (Ok a, s')
      | (Throw e, s') => (if is_conflict_code e then throw (DBOSWorkflowConflictError id)
                          else throw e) s'
      end).2 !! k = operation_outputs d !! k) as Hclaim.
  { intros b d0 H0. destruct b; simpl; [|done].
    pose proof (claim_executor_ops x id d0) as Hc.
    destruct (claim_executor x id d0) as [[?|e] d1]; simpl in *; [by rewrite Hc|].
    destruct (is_conflict_code e); simpl; by rewrite Hc. }
  destruct (operation_outputs d !! (id, fid)) as [old|].
  - destruct (chk && _); [done|]. by apply Hclaim.
  - unfold bind, require_workflow. destruct (workflow_status d !! id); [|done].
    destruct (chk && _); [simpl; by rewrite lookup_insert_ne|].
    apply Hclaim. simpl. by rewrite lookup_insert_ne.
Qed.

Lemma record_notifications x id fid fn chk st en o d :
  notifications (recordOperationResultInternal x id fid fn chk st en o d).2 = notifications d.
Proof.
  assert (forall b d0, notifications (match when b (claim_executor x id) d0 with
      | (Ok a, s') => (Ok a, s')
      | (Throw e, s') => (if is_conflict_code e then throw (DBOSWorkflowConflictError id)
                          else throw e) s'
      end).2 = notifications d0) as Hclaim.
  { intros b d0. destruct b; simpl; [|done]. unfold claim_executor, bind, update_workflow_status.
    by destruct (dedup_uniqueb _). }
  unfold recordOperationResultInternal, try_catch, bind, upsert_operation_output.
  destruct (operation_outputs d !! (id, fid)) as [old|].
  - destruct (chk && _); [done|]. apply Hclaim.
  - unfold bind, require_workflow. destruct (workflow_status d !! id); [|done].
    destruct (chk && _); [done|]. by rewrite Hclaim.
Qed.

Lemma durableSleep_notifications x id tfid dur now st en d :
  notifications (durableSleep x id tfid dur now st en d).2 = notifications d.
Proof.
  unfold durableSleep. unfold bind at 1.
  rewrite getOperationResult_run. destruct (is_cancelled id d); [done|].
  destruct (stored_result <$> _) as [r|].
  - destruct (negb _); [done|]. by destruct (parse_Z _).
  - unfold bind. pose proof (record_notifications x id tfid DBOS_FUNCNAME_SLEEP false st en
      (no_options <| op_output := Some (stringify_Z (now + dur)) |>
                  <| op_serialization := Some "portable_json" |>) d) as Hr.
    by destruct (recordOperationResultInternal _ _ _ _ _ _ _ _ d) as [[]].
Qed.

Lemma durableSleep_key x id tfid dur now st en d k :
  k <> (id, tfid) ->
  operation_outputs (durableSleep x id tfid dur now st en d).2 !! k = operation_outputs d !! k.
Proof.
  intros Hne. unfold durableSleep. unfold bind at 1.
  rewrite getOperationResult_run. destruct (is_cancelled id d); [done|].
  destruct (stored_result <$> _) as [r|].
  - destruct (negb _); [done|]. by destruct (parse_Z _).
  - unfold bind. pose proof (record_other x id tfid DBOS_FUNCNAME_SLEEP false st en
      (no_options <| op_output := Some (stringify_Z (now + dur)) |>
                  <| op_serialization := Some "portable_json" |>) d k Hne) as Hr.
    destruct (recordOperationResultInternal _ _ _ _ _ _ _ _ d) as [[]]; apply Hr.
Qed.

Lemma durableSleep_other x id fid tfid dur now st en d :
  fid <> tfid -> same_checkpoint id fid (durableSleep x id tfid dur now st en d).2 d.
Proof. intros Hne. apply durableSleep_key. congruence. Qed.

(** What others may do while a step waits: they keep the integrity of the schema, and
    only the workflow itself writes its checkpoints. *)
Definition patient (id : string) (fid : Z) (p : pause) : Prop := forall d,
  db_ok d -> db_ok (pause_world p d) /\ same_checkpoint id fid (pause_world p d) d.

Lemma recv_wait_eq pauses ft id topic d :
  recv_wait pauses ft id topic d =
  if is_cancelled id d then (Throw (DBOSWorkflowCancelledError id), d)
  else match pending_messages id topic d, pauses with
       | _ :: _, _ => (Ok true, d)
       | [], [] => (Ok false, d)
       | [], p :: pauses' =>
           if time_is_up ft (pause_clock p) then (Ok true, d)
           else recv_wait pauses' ft id topic (pause_world p d)
       end.
Proof.
  destruct pauses as [|p pauses]; cbn [recv_wait]; unfold bind at 1; rewrite checkIfCanceled_run;
    destruct (is_cancelled id d); try done; unfold bind at 1; cbn [get];
    destruct (pending_messages id topic d); try done.
  by destruct (time_is_up ft (pause_clock p)).
Qed.

Lemma recv_wait_inv pauses ft id topic fid d :
  Forall (patient id fid) pauses -> db_ok d ->
  db_ok (recv_wait pauses ft id topic d).2
  /\ same_checkpoint id fid (recv_wait pauses ft id topic d).2 d.
Proof.
  intros Hp. revert d. induction Hp as [|p pauses Hp _ IH]; intros d Hd; rewrite recv_wait_eq;
    destruct (is_cancelled id d); [done| |done|];
    destruct (pending_messages id topic d); try done.
  destruct (time_is_up ft (pause_clock p)); [done|].
  destruct (Hp d Hd) as [Hd1 Hs1]. destruct (IH _ Hd1) as [Hd2 Hs2]. split; [done|].
  unfold same_checkpoint in *. congruence.
Qed.

Lemma pending_oldest id topic d uuid r l uuid' r' :
  pending_messages id topic d = (uuid, r) :: l ->
  notifications d !! uuid' = Some r' -> unconsumed id topic r' = true ->
  nt_created_at_epoch_ms r <= nt_created_at_epoch_ms r'.
Proof.
  intros E Hr' Hu. unfold pending_messages in E.
  set (le := fun a b : string * notif_row =>
    nt_created_at_epoch_ms a.2 <=? nt_created_at_epoch_ms b.2) in *.
  assert (StronglySorted (fun a b => le a b = true)
    (order_by le (select_where (fun _ => unconsumed id topic) (notifications d)))) as Hs
    by (apply order_by_sorted; intros *; unfold le; rewrite !Z.leb_le; lia).
  assert ((uuid', r') ∈ order_by le (select_where (fun _ => unconsumed id topic)
    (notifications d))) as Hin by (by apply elem_of_order_by, elem_of_select_where).
  rewrite E in Hs, Hin. apply elem_of_cons in Hin as [[= -> ->]|Hin]; [lia|].
  apply StronglySorted_inv in Hs as [_ Hs].
  pose proof (proj1 (Forall_forall _ _) Hs _ Hin) as Hle. by apply Z.leb_le in Hle.
Qed.

(** The outcome of the final transaction of [recv] *)
Definition consumed_from (id topic : string) (d0 d1 : sysdb) (v : option string * option string)
    : Prop :=
  match pending_messages id topic d0 with
  | [] => v = (None, None) /\ notifications d1 = notifications d0
  | (uuid, r) :: _ =>
      v = (nt_message r, nt_serialization r)
      /\ notifications d1 = <[uuid := r <| nt_consumed := true |>]> (notifications d0)
      /\ forall uuid' r', notifications d0 !! uuid' = Some r' -> unconsumed id topic r' = true ->
           nt_created_at_epoch_ms r <= nt_created_at_epoch_ms r'
  end.

Lemma recv_consume_ok x id fid topic st en d0 v d1 :
  db_ok d0 -> operation_outputs d0 !! (id, fid) = None ->
  recv_consume x id fid topic st en d0 = (Ok v, d1) ->
  consumed_from id topic d0 d1 v
  /\ exists row, operation_outputs d1 !! (id, fid) = Some row
       /\ oo_function_name row = DBOS_FUNCNAME_RECV
       /\ v = (oo_output row, oo_serialization row).
Proof.
  intros Hd Hn H. apply transaction_ok in H.
  apply bind_inv_ok in H as (row & da & Hc & H).
  apply bind_inv_ok in H as ([] & db & Hrec & Hret). injection Hret as <- <-.
  pose proof (preserves_consume_oldest id topic d0 Hd) as Hda. rewrite Hc in Hda. simpl in Hda.
  assert (operation_outputs da = operation_outputs d0) as Hops.
  { unfold consume_oldest in Hc. by destruct (pending_messages _ _ _) as [|[]]; simplify_eq. }
  apply record_ok_row in Hrec as [Hrow Hdb]; [|done|by rewrite Hops].
  split; [|eexists; split; [exact Hrow|done]].
  assert (notifications db = notifications da) as Hnot by (by rewrite Hdb).
  unfold consumed_from, consume_oldest in *.
  destruct (pending_messages id topic d0) as [|[uuid r] l] eqn:E; simplify_eq; [done|].
  split; [done|]. split; [by rewrite Hnot|]. intros. by eapply pending_oldest.
Qed.

(** C5: a workflow receives a message exactly once.  When [recv] returns from its first
    execution, it consumed the oldest waiting message of the topic and no other, or it
    timed out with none waiting and consumed nothing; what it returned is its checkpoint,
    and any later execution returns the same message without consuming another one. *)
Theorem recv_exactly_once x id fid tfid topic tm pauses st en d v d1 :
  db_ok d -> operation_outputs d !! (id, fid) = None -> fid <> tfid ->
  Forall (patient id fid) pauses ->
  recv x id fid tfid topic tm pauses st en d = (Ok (Some v), d1) ->
  (exists d0, db_ok d0 /\ consumed_from id (default nullTopic topic) d0 d1 v
     /\ (pauses = [] -> notifications d0 = notifications d))
  /\ forall x' tm' pauses' st' en' d2,
       same_checkpoint id fid d2 d1 -> is_cancelled id d2 = false ->
       recv x' id fid tfid topic tm' pauses' st' en' d2 = (Ok (Some v), d2).
Proof.
  intros Hd Hn Hne Hp H. unfold recv in H.
  apply bind_inv_ok in H as (res & da & Hget & H). rewrite getOperationResult_run in Hget.
  destruct (is_cancelled id d); [done|]. simplify_eq. rewrite Hn in H. simpl in H.
  apply bind_inv_ok in H as (ft & db & Hft & H).
  assert (db_ok db /\ same_checkpoint id fid db da /\ notifications db = notifications da)
    as (Hdb & Hsb & Hnb).
  { destruct (truthy_num tm) as [ms|]; [|by injection Hft as _ <-].
    apply bind_inv_ok in Hft as (t & db' & Hsl & Hret). injection Hret as _ ->.
    pose proof (preserves_durableSleep x id tfid ms st st st da Hd) as Hp1.
    pose proof (durableSleep_other x id fid tfid ms st st st da Hne) as Hp2.
    pose proof (durableSleep_notifications x id tfid ms st st st da) as Hp3.
    by rewrite Hsl in Hp1, Hp2, Hp3. }
  apply bind_inv_ok in H as (stop & dc & Hw & H).
  destruct (recv_wait_inv pauses ft id (default nullTopic topic) fid db Hp Hdb) as [Hdc Hsc].
  rewrite Hw in Hdc, Hsc. destruct stop; [|done].
  apply bind_inv_ok in H as ([] & dd & Hcc & H). rewrite checkIfCanceled_run in Hcc.
  destruct (is_cancelled id dc); [done|]. simplify_eq.
  apply bind_inv_ok in H as (m & de & Hcons & Hret). injection Hret as <- <-.
  simpl in Hdc, Hsc. unfold same_checkpoint in *.
  apply recv_consume_ok in Hcons as (Hfrom & row & Hrow & Hname & Hv); [|done|congruence].
  split.
  { eexists. split; [exact Hdc|]. split; [exact Hfrom|]. intros ->. rewrite recv_wait_eq in Hw.
    destruct (is_cancelled id db); [done|]. destruct (pending_messages _ _ _); simplify_eq.
    done. }
  intros x' tm' pauses' st' en' d2 Hs Hc. unfold recv, bind at 1. rewrite getOperationResult_run, Hc, Hs, Hrow. simpl.
  rewrite Hname. unfold opt_eqb. rewrite bool_decide_true by done. simpl. by rewrite Hv.
Qed.

(** ** Events *)

(** The first execution of a step whose function succeeds. *)
Lemma run_fresh_ok x fn id fid func st en d out d1 :
  is_cancelled id d = false -> operation_outputs d !! (id, fid) = None ->
  func d = (Ok out, d1) -> db_ok d1 -> operation_outputs d1 !! (id, fid) = None ->
  wf_exists d1 id ->
  runAndRecordResult x fn id fid func st en d
  = (Ok out, claimed x id (d1 <| operation_outputs ::=
       <[(id, fid) := op_row_of fn st en (no_options <| op_output := out |>)]> |>)).
Proof.
  intros Hc Hn Hf Hd1 Hn1 Hw. unfold runAndRecordResult, bind.
  rewrite getOperationResult_run, Hc, Hn. simpl. rewrite Hf.
  by rewrite record_fresh by (try apply Hd1; done).
Qed.

Lemma write_step_first x fn id fid m st en d d1 :
  is_cancelled id d = false -> operation_outputs d !! (id, fid) = None ->
  m d = (Ok tt, d1) -> db_ok d1 -> operation_outputs d1 !! (id, fid) = None ->
  wf_exists d1 id ->
  write_step x fn id fid m st en d
  = (Ok true, claimed x id (d1 <| operation_outputs ::=
       <[(id, fid) := op_row_of fn st en no_options]> |>)).
Proof.
  intros Hc Hn Hm Hd1 Hn1 Hw. unfold write_step, transaction. unfold bind at 1.
  rewrite getOperationResult_run, Hc, Hn. unfold bind at 1.
  rewrite (run_fresh_ok x fn id fid (m ;* ret None) st en d None d1); try done.
  unfold bind. by rewrite Hm.
Qed.

Lemma write_step_replay x fn id fid m st en d r :
  is_cancelled id d = false -> operation_outputs d !! (id, fid) = Some r ->
  oo_function_name r = fn -> write_step x fn id fid m st en d = (Ok false, d).
Proof.
  intros Hc Hr Hf. unfold write_step, transaction. unfold bind at 1.
  rewrite getOperationResult_run, Hc, Hr. unfold bind at 1.
  by rewrite (run_replay _ _ _ _ _ _ _ _ r).
Qed.

Lemma event_wait_found pauses ft id key d v :
  workflow_events d !! (id, key) = Some v ->
  event_wait pauses ft None id key d = (Ok (Some (Some v)), d).
Proof. intros Hv. destruct pauses; cbn; unfold bind, get; simpl; by rewrite Hv. Qed.

(** Setting an event is one atomic step.  Its first execution stores the value for
    readers and in the history together with the checkpoint, and asks for a notification;
    a reader then gets exactly that value without waiting.  A later execution writes
    nothing and asks for nothing, so that it cannot bring back a value that has been
    overwritten since. *)
Theorem setEvent_once x id fid key msg ser st en d :
  db_ok d -> wf_exists d id -> is_cancelled id d = false ->
  operation_outputs d !! (id, fid) = None ->
  exists d1, setEvent x id fid key msg ser st en d = (Ok true, d1)
    /\ workflow_events d1 = <[(id, key) := EventRow msg ser]> (workflow_events d)
    /\ workflow_events_history d1
       = <[(id, fid, key) := EventRow msg ser]> (workflow_events_history d)
    /\ (forall x' tm pauses st' en',
          getEvent x' id key tm None pauses st' en' d1 = (Ok (Some (msg, ser)), d1))
    /\ forall x' key' msg' ser' st' en' d2,
         same_checkpoint id fid d2 d1 -> is_cancelled id d2 = false ->
         setEvent x' id fid key' msg' ser' st' en' d2 = (Ok false, d2).
Proof.
  intros Hd Hw Hc Hn.
  set (da := d <| workflow_events ::= <[(id, key) := EventRow msg ser]> |>
               <| workflow_events_history ::= <[(id, fid, key) := EventRow msg ser]> |>).
  assert (upsert_event id fid key (EventRow msg ser) d = (Ok tt, da)) as Hup.
  { unfold upsert_event, bind, require_workflow. by destruct Hw as [r ->]. }
  pose proof (preserves_upsert_event id fid key (EventRow msg ser) d Hd) as Hda.
  rewrite Hup in Hda. simpl in Hda.
  pose proof (write_step_first x DBOS_FUNCNAME_SETEVENT id fid _ st en d da Hc Hn Hup Hda
    Hn Hw) as Hrun.
  eexists. split; [exact Hrun|]. split; [done|]. split; [done|]. split.
  - intros. unfold getEvent, bind, ret. simpl.
    rewrite (event_wait_found _ _ _ _ _ (EventRow msg ser)); [done|].
    simpl. by rewrite lookup_insert_eq.
  - intros x' key' msg' ser' st' en' d2 Hs Hc2. unfold same_checkpoint in Hs.
    simpl in Hs. rewrite lookup_insert_eq in Hs.
    by apply (write_step_replay x' DBOS_FUNCNAME_SETEVENT id fid _ st' en' d2 _ Hc2 Hs).
Qed.

(** ** Event dispatch state *)

Lemma sql_greatest_ge_l a b y : a = Some y -> exists z, sql_greatest a b = Some z /\ y <= z.
Proof. intros ->. destruct b; simpl; eexists; (split; [done|lia]). Qed.

Lemma sql_greatest_ge_r a b y : b = Some y -> exists z, sql_greatest a b = Some z /\ y <= z.
Proof. intros ->. destruct a; simpl; eexists; (split; [done|lia]). Qed.

Lemma sql_greatest_idem a b : sql_greatest a (sql_greatest a b) = sql_greatest a b.
Proof. destruct a, b; simpl; f_equal; lia. Qed.

Lemma sql_newer_greatest a b : sql_newer a (sql_greatest a b) = false.
Proof. destruct a, b; simpl; try done; apply Z.ltb_ge; lia. Qed.

(** The dispatch state of an event receiver only moves forward.  An upsert keeps the
    stored time and sequence number at least as large as both the stored and the new
    ones; a stale one, neither newer in time nor in sequence, leaves the value alone, and
    a newer one replaces it; what is returned is what is stored; and delivering the same
    state again changes nothing. *)
Theorem upsertEventDispatchState_monotone svc wf key s d old :
  event_dispatch_kv d !! (svc, wf, key) = Some old ->
  exists res d1, upsertEventDispatchState svc wf key s d = (Ok res, d1)
    /\ getEventDispatchState svc wf key d1 = Some res
    /\ (forall y, es_updateTime s = Some y \/ kv_update_time old = Some y ->
          exists z, es_updateTime res = Some z /\ y <= z)
    /\ (forall y, es_updateSeq s = Some y \/ kv_update_seq old = Some y ->
          exists z, es_updateSeq res = Some z /\ y <= z)
    /\ (sql_newer (es_updateTime s) (kv_update_time old) = true
        \/ sql_newer (es_updateSeq s) (kv_update_seq old) = true -> es_value res = es_value s)
    /\ (sql_newer (es_updateTime s) (kv_update_time old) = false ->
        sql_newer (es_updateSeq s) (kv_update_seq old) = false ->
        is_Some (kv_update_time old) \/ is_Some (kv_update_seq old) ->
        es_value res = kv_value old)
    /\ upsertEventDispatchState svc wf key s d1 = (Ok res, d1).
Proof.
  intros Hold. unfold upsertEventDispatchState at 1. rewrite Hold.
  set (r := merge_state s old).
  assert (merge_state s r = r) as Hidem.
  { unfold r, merge_state. simpl. rewrite !sql_newer_greatest, !sql_greatest_idem. simpl.
    destruct s as [sv [st|] [ss|]], old as [ov [ot|] [os|]]; simpl;
      rewrite ?orb_false_r; try done; repeat (case_match; try done). }
  eexists _, _. split; [done|]. unfold getEventDispatchState. simpl.
  rewrite lookup_insert_eq. simpl. split; [done|].
  split; [intros y [Hy|Hy]; [by eapply sql_greatest_ge_l|by eapply sql_greatest_ge_r]|].
  split; [intros y [Hy|Hy]; [by eapply sql_greatest_ge_l|by eapply sql_greatest_ge_r]|].
  split; [intros [->| ->]; [done|by rewrite orb_true_r]|].
  split.
  - intros -> -> [[t ->]|[q ->]]; simpl; [done|].
    by rewrite andb_false_r.
  - unfold upsertEventDispatchState. simpl. rewrite lookup_insert_eq, Hidem. f_equal.
    destruct d; simpl. by rewrite insert_insert_eq.
Qed.

(** ** Streams *)

(** The entries of a stream are numbered from 0 without holes. *)
Definition stream_length (id key : string) (d : sysdb) (n : Z) : Prop :=
  0 <= n /\ forall off, is_Some (streams d !! (id, key, off)) <-> 0 <= off < n.

Lemma next_offset_length id key d n : stream_length id key d n -> next_offset id key d = n.
Proof.
  intros [Hn Hd]. unfold next_offset, max_offset.
  set (sel := select_where _ _).
  assert (forall off r, ((id, key, off), r) ∈ sel <-> streams d !! (id, key, off) = Some r) as Hsel.
  { intros off r. unfold sel. rewrite elem_of_select_where. simpl.
    rewrite bool_decide_eq_true. naive_solver. }
  pose proof (max_of_spec (fun kr : string * string * Z * stream_row => kr.1.2) sel) as Hm.
  destruct (max_of _ sel) as [m|].
  - destruct Hm as [([[[i k] off] r] & Hx & <-) Hle]. simpl in *.
    assert ((i, k) = (id, key)) as [= -> ->].
    { unfold sel in Hx. apply elem_of_select_where in Hx as [_ Hx]. simpl in Hx. by break_bool. }
    apply Hsel in Hx. assert (0 <= off < n) as Hoff by (apply Hd; eauto).
    destruct (proj2 (Hd (n - 1)) ltac:(lia)) as [r' Hr'].
    apply Hsel, Hle in Hr'. simpl in Hr'. lia.
  - destruct (decide (n = 0)) as [->|Hne]; [done|].
    destruct (proj2 (Hd 0) ltac:(lia)) as [r Hr]. apply Hsel in Hr. rewrite Hm in Hr.
    by apply elem_of_nil in Hr.
Qed.

Lemma append_stream_run id key fid v ser d n :
  stream_length id key d n -> wf_exists d id ->
  append_stream id key fid v ser d
  = (Ok tt, d <| streams ::= <[(id, key, n) := StreamRow v fid ser]> |>).
Proof.
  intros Hl [r Hr]. unfold append_stream, insert_rows. rewrite (next_offset_length _ _ _ _ Hl).
  simpl. destruct (streams d !! (id, key, n)) as [y|] eqn:E.
  { assert (0 <= n < n) by (apply Hl; rewrite E; eauto). lia. }
  rewrite Hr. by rewrite bool_decide_true by eauto.
Qed.

Lemma stream_length_append id key d d' n row :
  stream_length id key d n -> streams d' = <[(id, key, n) := row]> (streams d) ->
  stream_length id key d' (n + 1).
Proof.
  intros [Hn Hd] E. split; [lia|]. intros off. rewrite E.
  destruct (decide (off = n)) as [->|Hne].
  - rewrite lookup_insert_eq. split; [lia|eauto].
  - rewrite lookup_insert_ne by congruence. rewrite Hd. lia.
Qed.

(** A stream is an append-only list, and a workflow appends each of its entries once.
    The first execution of a write adds the entry at the end, that is, at the offset equal
    to the number of entries, where a reader finds it; the offsets stay without holes; a
    later execution adds nothing.  A write from a step appends at the end too. *)
Theorem writeStream_appends x id fid key v ser fn st en d n :
  db_ok d -> wf_exists d id -> is_cancelled id d = false ->
  operation_outputs d !! (id, fid) = None -> stream_length id key d n ->
  (exists d1, writeStreamFromWorkflow x id fid key v ser fn st en d = (Ok true, d1)
     /\ streams d1 = <[(id, key, n) := StreamRow v fid ser]> (streams d)
     /\ stream_length id key d1 (n + 1)
     /\ (readStreamValue id key n d1).2 = Some (v, ser)
     /\ forall x' v' ser' st' en' d2,
          same_checkpoint id fid d2 d1 -> is_cancelled id d2 = false ->
          writeStreamFromWorkflow x' id fid key v' ser' fn st' en' d2 = (Ok false, d2))
  /\ exists d3, writeStreamFromStep id fid key v ser d = (Ok tt, d3)
     /\ streams d3 = <[(id, key, n) := StreamRow v fid ser]> (streams d)
     /\ stream_length id key d3 (n + 1).
Proof.
  intros Hd Hw Hc Hn Hl.
  pose proof (append_stream_run id key fid v ser d n Hl Hw) as Happ.
  pose proof (preserves_append_stream id key fid v ser d Hd) as Hda.
  rewrite Happ in Hda. simpl in Hda. split.
  - pose proof (write_step_first x fn id fid _ st en d _ Hc Hn Happ Hda Hn Hw) as Hrun.
    eexists. split; [exact Hrun|]. split; [done|].
    split; [by eapply stream_length_append|]. split.
    + unfold readStreamValue. simpl. destruct Hw as [r Hr]. rewrite lookup_alter_eq, Hr. simpl.
      by rewrite lookup_insert_eq.
    + intros x' v' ser' st' en' d2 Hs Hc2. unfold same_checkpoint in Hs.
      simpl in Hs. rewrite lookup_insert_eq in Hs.
      by apply (write_step_replay x' fn id fid _ st' en' d2 _ Hc2 Hs).
  - unfold writeStreamFromStep, transaction. rewrite Happ. eexists. split; [done|].
    split; [done|]. by eapply stream_length_append.
Qed.

(** Entries of a stream are never changed or removed. *)
Definition append_only (id key : string) (w : sysdb -> sysdb) : Prop := forall d off r,
  streams d !! (id, key, off) = Some r -> streams (w d) !! (id, key, off) = Some r.

(** The entries of [vs], from [offset] on, are those of the stream in [d]. *)
Definition entries_at (id key : string) (offset : Z) (vs : list (string * option string))
    (d : sysdb) : Prop :=
  forall i v, vs !! i = Some v -> exists r,
    streams d !! (id, key, offset + Z.of_nat i) = Some r
    /\ v = (st_value r, st_serialization r) /\ st_value r <> DBOS_STREAM_CLOSED_SENTINEL.

Lemma readStream_world worlds id key offset fin d vs e d' :
  Forall (append_only id key) worlds ->
  readStream worlds id key offset fin d = (vs, e, d') ->
  forall off r, streams d !! (id, key, off) = Some r -> streams d' !! (id, key, off) = Some r.
Proof.
  intros Hw. revert offset fin d vs. induction Hw as [|w worlds Hw _ IH];
    intros offset fin d vs Hrun off r Hr; simpl in Hrun;
    destruct (readStreamValue id key offset d) as [[st|] [v|]];
    repeat case_match; simplify_eq; eauto.
Qed.

Lemma readStreamValue_some id key offset d st v :
  readStreamValue id key offset d = (Some st, v) ->
  v = (fun s => (st_value s, st_serialization s)) <$> streams d !! (id, key, offset).
Proof. unfold readStreamValue. destruct (workflow_status d !! id); naive_solver. Qed.

Lemma readStream_spec worlds id key offset fin d vs e d' :
  Forall (append_only id key) worlds ->
  readStream worlds id key offset fin d = (vs, e, d') ->
  entries_at id key offset vs d'
  /\ (e = Drained -> streams d' !! (id, key, offset + Z.of_nat (length vs)) = None)
  /\ (e = Closed -> exists r, streams d' !! (id, key, offset + Z.of_nat (length vs)) = Some r
        /\ st_value r = DBOS_STREAM_CLOSED_SENTINEL).
Proof.
  intros Hw. revert offset fin d vs. induction Hw as [|w worlds Hw Hws IH];
    intros offset fin d vs H; pose proof H as H0; simpl in H;
    destruct (readStreamValue id key offset d) as [[st|] v] eqn:Ev;
    try (simplify_eq; by repeat split);
    pose proof (readStreamValue_some _ _ _ _ _ _ Ev) as Hv; destruct v as [v|];
    symmetry in Hv; try apply fmap_None in Hv;
    try (apply fmap_Some in Hv as (r & Hr & ->); simpl in H; case_bool_decide as Es).
  all: try (simplify_eq; split; [done|]; split; [done|]; intros _; exists r;
            rewrite Z.add_0_r; by split).
  - simplify_eq. split; [|by split]. intros [|i] v [= <-]. exists r. by rewrite Z.add_0_r.
  - destruct fin; simplify_eq; (split; [done|]); split; try done; intros _. by rewrite Z.add_0_r.
  - destruct (readStream worlds id key (offset + 1) fin (w d)) as [[vs' e'] d1] eqn:E.
    simplify_eq. destruct (IH _ _ _ _ E) as (H1 & H2 & H3).
    replace (offset + Z.of_nat (length ((st_value r, st_serialization r) :: vs')))
      with (offset + 1 + Z.of_nat (length vs')) by (simpl; lia).
    split; [|by split]. intros [|i] v Hi; simpl in Hi.
    + simplify_eq. exists r. rewrite Z.add_0_r. split; [|done].
      eapply readStream_world; [exact Hws|exact E|]. by apply Hw.
    + destruct (H1 i v Hi) as (r' & Hr' & ?). exists r'. split; [|done].
      replace (offset + Z.of_nat (S i)) with (offset + 1 + Z.of_nat i) by lia. done.
  - destruct fin.
    + simplify_eq. split; [done|]. split; [|done]. intros _. by rewrite Z.add_0_r.
    + by apply (IH _ _ _ _ H).
Qed.

(** A stream reader delivers the stream.  While others only append to the stream, the
    values it yields are, in order and each once, its first entries; when it stops at the
    close marker the next entry is that marker, and when it stops because the workflow has
    ended there is no next entry, so nothing that was written is left unread. *)
Theorem readStream_delivers worlds id key d vs e d' :
  Forall (append_only id key) worlds ->
  readStream worlds id key 0 false d = (vs, e, d') ->
  entries_at id key 0 vs d'
  /\ (e = Drained -> streams d' !! (id, key, Z.of_nat (length vs)) = None)
  /\ (e = Closed -> exists r, streams d' !! (id, key, Z.of_nat (length vs)) = Some r
        /\ st_value r = DBOS_STREAM_CLOSED_SENTINEL).
Proof. apply (readStream_spec worlds id key 0). Qed.

(** Steps that run concurrently may write a stream out of the order of their IDs; a fork
    then copies the later entry without the earlier one, and a reader of the fork, which
    starts at offset 0, delivers none of it. *)
Example fork_leaves_stream_hole :
  let d1 := (writeStreamFromStep "wf-1" 5 "s" "a" None ex_db).2 in
  let d2 := (writeStreamFromStep "wf-1" 3 "s" "b" None d1).2 in
  let d3 := (forkWorkflow 9 "wf-1" 4 "f-1" ex_fork_options d2).2 in
  ((readStreamValue "f-1" "s" 0 d3).2, (readStreamValue "f-1" "s" 1 d3).2,
   next_offset "f-1" "s" d3) = (None, Some ("b", None), 2).
Proof. vm_compute. reflexivity. Qed.

(** * Witnesses *)

Lemma send_exactly_once_witness :
  (exists d1, send "exec-a" "u-1" 50 "wf-1" 0 "wf-1" (Some "hi") None None None 50 51 ex_db
              = (Ok tt, d1)
     /\ send "exec-b" "u-2" 90 "wf-1" 0 "wf-1" (Some "hi") None None None 90 91 d1 = (Ok tt, d1))
  /\ send "exec-a" "u-1" 50 "wf-1" 0 "wf-9" (Some "hi") None None None 50 51 ex_db
     = (Throw (DBOSNonExistentWorkflowError
                 "Sent to non-existent destination workflow UUID: wf-9"), ex_db).
Proof.
  split.
  - assert (forall d1,
      send "exec-a" "u-1" 50 "wf-1" 0 "wf-1" (Some "hi") None None None 50 51 ex_db = (Ok tt, d1) ->
      is_cancelled "wf-1" d1 = false ->
      send "exec-b" "u-2" 90 "wf-1" 0 "wf-1" (Some "hi") None None None 90 91 d1 = (Ok tt, d1))
      as H.
    { intros d1 Hrun Hc.
      exact (proj2 (proj2 (proj1 (send_exactly_once "exec-a" "u-1" 50 "wf-1" 0 "wf-1" (Some "hi") None None None
        50 51 ex_db ex_db_ok eq_refl eq_refl) d1 Hrun)) "exec-b" "u-2" 90 (Some "hi") None None 90 91
        d1 eq_refl Hc). }
    eexists. split; [vm_compute; reflexivity|]. apply H; vm_compute; reflexivity.
  - by apply (send_exactly_once "exec-a" "u-1" 50 "wf-1" 0 "wf-9" (Some "hi") None None None
      50 51 ex_db ex_db_ok).
Defined.

(** A mailbox with two messages. *)
Definition ex_mail_db : sysdb :=
  ex_db <| notifications ::= <["m-2" := NotifRow "wf-1" nullTopic (Some "new") 20 false None]> |>
        <| notifications ::= <["m-1" := NotifRow "wf-1" nullTopic (Some "old") 10 false None]> |>.

Lemma ex_mail_ok : db_ok ex_mail_db.
Proof.
  apply db_ok_insert_notif; [apply db_ok_insert_notif; [apply ex_db_ok|]|];
    eexists; apply ex_lookup.
Defined.

Lemma recv_exactly_once_witness :
  exists d1, recv "exec-a" "wf-1" 0 1 None None [] 50 51 ex_mail_db
             = (Ok (Some (Some "old", None)), d1)
    /\ recv "exec-b" "wf-1" 0 1 None None [] 90 91 d1 = (Ok (Some (Some "old", None)), d1).
Proof.
  eexists. assert (forall d1,
    recv "exec-a" "wf-1" 0 1 None None [] 50 51 ex_mail_db = (Ok (Some (Some "old", None)), d1) ->
    is_cancelled "wf-1" d1 = false ->
    recv "exec-a" "wf-1" 0 1 None None [] 50 51 ex_mail_db = (Ok (Some (Some "old", None)), d1)
    /\ recv "exec-b" "wf-1" 0 1 None None [] 90 91 d1 = (Ok (Some (Some "old", None)), d1)) as H.
  { intros d1 Hrun Hc. split; [exact Hrun|].
    exact (proj2 (recv_exactly_once "exec-a" "wf-1" 0 1 None None [] 50 51 ex_mail_db _ d1
      ex_mail_ok eq_refl ltac:(discriminate) (Forall_nil_2 _) Hrun)
      "exec-b" None [] 90 91 d1 eq_refl Hc). }
  apply H; vm_compute; reflexivity.
Defined.

Lemma ex_exists : wf_exists ex_db "wf-1".
Proof. eexists. apply ex_lookup. Defined.

Lemma setEvent_once_witness :
  exists d1, setEvent "exec-a" "wf-1" 0 "k" (Some "v") None 50 51 ex_db = (Ok true, d1)
    /\ getEvent "exec-b" "wf-1" "k" (Some 0) None [] 60 61 d1 = (Ok (Some (Some "v", None)), d1).
Proof.
  destruct (setEvent_once "exec-a" "wf-1" 0 "k" (Some "v") None 50 51 ex_db ex_db_ok ex_exists
    ltac:(vm_compute; reflexivity) eq_refl) as (d1 & Hrun & _ & _ & Hget & _).
  exists d1. split; [exact Hrun | apply Hget].
Defined.

Definition ex_kv_db : sysdb :=
  empty_db <| event_dispatch_kv := {[ ("s", "w", "k") := KvRow (Some "kept") None (Some 5) ]} |>.

Lemma upsertEventDispatchState_monotone_witness :
  exists res d1,
    upsertEventDispatchState "s" "w" "k" (ExternalStateOf (Some "stale") None (Some 3))
      ex_kv_db
    = (Ok res, d1) /\ es_value res = Some "kept".
Proof.
  destruct (upsertEventDispatchState_monotone "s" "w" "k"
    (ExternalStateOf (Some "stale") None (Some 3))
    ex_kv_db
    (KvRow (Some "kept") None (Some 5)) ltac:(vm_compute; reflexivity))
    as (res & d1 & Hrun & _ & _ & _ & _ & Hstale & _).
  exists res, d1. split; [exact Hrun|]. apply Hstale; try reflexivity. right. eexists. reflexivity.
Defined.

Lemma ex_empty_stream : stream_length "wf-1" "s" ex_db 0.
Proof.
  split; [lia|]. intros off. split; [|lia]. intros [r Hr]. simpl in Hr.
  rewrite lookup_empty in Hr. discriminate Hr.
Defined.

Lemma writeStream_appends_witness :
  exists d1, writeStreamFromWorkflow "exec-a" "wf-1" 0 "s" "a" None DBOS_FUNCNAME_WRITESTREAM
               50 51 ex_db = (Ok true, d1)
    /\ (readStreamValue "wf-1" "s" 0 d1).2 = Some ("a", None).
Proof.
  destruct (writeStream_appends "exec-a" "wf-1" 0 "s" "a" None DBOS_FUNCNAME_WRITESTREAM 50 51
    ex_db 0 ex_db_ok ex_exists ltac:(vm_compute; reflexivity) eq_refl ex_empty_stream)
    as [(d1 & Hrun & _ & _ & Hread & _) _].
  exists d1. split; [exact Hrun | exact Hread].
Defined.

Lemma readStream_delivers_witness :
  entries_at "wf-1" "s" 0 [("a", None)]
    (readStream [fun d => d] "wf-1" "s" 0 false
       (writeStreamFromStep "wf-1" 0 "s" "a" None ex_db).2).2.
Proof.
  assert ((readStream [fun d => d] "wf-1" "s" 0 false
    (writeStreamFromStep "wf-1" 0 "s" "a" None ex_db).2).1.1 = [("a", None)]) as E
    by (vm_compute; reflexivity).
  destruct (readStream [fun d => d] "wf-1" "s" 0 false
    (writeStreamFromStep "wf-1" 0 "s" "a" None ex_db).2) as [[vs e] d'] eqn:Hrun.
  simpl in E. subst vs.
  apply (readStream_delivers [fun d => d] "wf-1" "s" _ _ _ _
    ltac:(apply Forall_singleton; intros ? ? ? H; exact H) Hrun).
Defined.
