(* ===== verification/Queues.v ===== *)
(** Workflow queues: the claim of startable workflows
    ([findAndMarkStartableWorkflows], [getQueuePartitions]), the persisted queue records,
    and the configuration methods of [WorkflowQueue] (src/src/system_database.ts and
    src/src/wfqueue.ts).  Rate-limit periods and polling intervals are in milliseconds. *)

From S2P Require Export Management.

(** * Data *)

(** [QueueRateLimit], with the period in milliseconds *)
Record QueueRateLimit : Type := QueueRateLimitOf {
  limitPerPeriod : Z;
  periodMs : Z
}.

(** [WorkflowQueue] *)
Record WorkflowQueue : Type := WorkflowQueueOf {
  wq_name : string;
  wq_concurrency : option Z;
  wq_rateLimit : option QueueRateLimit;
  wq_workerConcurrency : option Z;
  wq_priorityEnabled : bool;
  wq_partitionQueue : bool;
  wq_minPollingIntervalMs : option Z;
  wq_databaseBacked : bool
}.

#[export] Instance WorkflowQueue_eta : Eta WorkflowQueue := fun q =>
  WorkflowQueueOf (wq_name q) (wq_concurrency q) (wq_rateLimit q) (wq_workerConcurrency q)
    (wq_priorityEnabled q) (wq_partitionQueue q) (wq_minPollingIntervalMs q)
    (wq_databaseBacked q).

(** [QueueRecord] *)
Record QueueRecord : Type := QueueRecordOf {
  qr_name : string;
  qr_concurrency : option Z;
  qr_workerConcurrency : option Z;
  qr_rateLimitMax : option Z;
  qr_rateLimitPeriodMs : option Z;
  qr_priorityEnabled : bool;
  qr_partitionQueue : bool;
  qr_pollingIntervalMs : Z
}.

(** [QueueParameters] *)
Record QueueParameters : Type := QueueParametersOf {
  p_workerConcurrency : option Z;
  p_concurrency : option Z;
  p_rateLimit : option QueueRateLimit;
  p_priorityEnabled : option bool;
  p_partitionQueue : option bool;
  p_minPollingIntervalMs : option Z
}.

(** * Claiming workflows *)

(** [AND queue_partition_key = $PARTITION], when a partition is given *)
Definition in_partition (queuePartitionKey : option string) (r : wf_row) : bool :=
  match queuePartitionKey with
  | Some k => sql_eqb (ws_queue_partition_key r) k
  | None => true
  end.

Definition on_queue (name : string) (queuePartitionKey : option string) (r : wf_row) : bool :=
  sql_eqb (ws_queue_name r) name && in_partition queuePartitionKey r.

(** The rate-limit count: what started within the period *)
Definition recently_started (name : string) (queuePartitionKey : option string) (since : Z)
    (r : wf_row) : bool :=
  on_queue name queuePartitionKey r && ws_rate_limited r
  && negb (is_queued (ws_status r)) && sql_gtb (ws_started_at_epoch_ms r) since.

(** The concurrency count *)
Definition running_on (name : string) (queuePartitionKey : option string) (r : wf_row) : bool :=
  on_queue name queuePartitionKey r && bool_decide (ws_status r = PENDING).

(** [ORDER BY version_timestamp DESC LIMIT 1] *)
Definition latest_version (d : sysdb) : option string :=
  (fun kr => kr.1) <$> head (order_by (fun a b => av_version_timestamp b.2 <=? av_version_timestamp a.2)
                               (map_to_list (application_versions d))).

(** [versionClause] *)
Definition version_matches (isLatest : bool) (appVersion : string) (r : wf_row) : bool :=
  sql_eqb (ws_application_version r) appVersion
  || (isLatest && negb (bool_decide (is_Some (ws_application_version r)))).

(** The WHERE clause of the selection *)
Definition startable (name appVersion : string) (isLatest : bool)
    (queuePartitionKey : option string) (r : wf_row) : bool :=
  bool_decide (ws_status r = ENQUEUED) && on_queue name queuePartitionKey r
  && version_matches isLatest appVersion r.

(** [ORDER BY priority ASC, created_at ASC] *)
Definition dequeue_le (a b : string * wf_row) : bool :=
  (ws_priority a.2 <? ws_priority b.2)
  || ((ws_priority a.2 =? ws_priority b.2) && (ws_created_at a.2 <=? ws_created_at b.2)).

(** [latestVersion === undefined || latestVersion === appVersion] *)
Definition is_latest (appVersion : string) (d : sysdb) : bool :=
  match latest_version d with
  | None => true
  | Some v => bool_decide (v = appVersion)
  end.

(** The selected rows, before LIMIT and the lock mode; rows of equal rank in the order of the map.
    The database may return those in any order ([is_selection] below). *)
Definition candidates (name appVersion : string) (queuePartitionKey : option string) (d : sysdb)
    : list (string * wf_row) :=
  order_by dequeue_le
    (select_where (fun _ => startable name appVersion (is_latest appVersion d) queuePartitionKey)
       (workflow_status d)).

(** The SET clause of the claim *)
Definition started (executorID appVersion : string) (startTimeMs nowMs : Z) (rateLimited : bool)
    (r : wf_row) : wf_row :=
  r <| ws_status := PENDING |> <| ws_executor_id := Some executorID |>
    <| ws_application_version := Some appVersion |>
    <| ws_started_at_epoch_ms := Some startTimeMs |> <| ws_rate_limited := rateLimited |>
    <| ws_workflow_deadline_epoch_ms :=
         match ws_workflow_timeout_ms r, ws_workflow_deadline_epoch_ms r with
         | Some t, None => Some (nowMs + t)
         | _, dl => dl
         end |>.

(** The loop over the selected workflows; [budget] is what the rate limit leaves, [None]
    without a rate limit. *)
Fixpoint claim_loop (f : wf_row -> wf_row) (budget : option Z) (ids : list string)
    : DB (list string) :=
  match ids with
  | [] => ret []
  | id :: rest =>
      if match budget with Some b => b <=? 0 | None => false end then ret []
      else
        let* rows := update_workflow_status
                       (fun k r => bool_decide (k = id) && bool_decide (ws_status r = ENQUEUED)) f in
        match rows with
        | [] => claim_loop f budget rest
        | _ :: _ =>
            let* claimed := claim_loop f ((fun b => b - 1) <$> budget) rest in
            ret (id :: claimed)
        end
  end.

(** [SELECT ... LIMIT ... FOR UPDATE]: [locked] are the rows other transactions have
    locked.  NOWAIT fails when it meets one, SKIP LOCKED leaves them out. *)
Definition lock_rows (nowait : bool) (locked : gset string) (lim : option Z)
    (rows : list (string * wf_row)) : dbos_error + list string :=
  let free := List.filter (fun kr => negb (bool_decide (kr.1 ∈ locked))) rows in
  if nowait then
    if forallb (fun kr => negb (bool_decide (kr.1 ∈ locked))) (limit lim rows)
    then inr (limit lim rows).*1
    else inl (DatabaseError "55P03")
  else inr (limit lim free).*1.

(** [Math.min(maxTasks, x)] with [None] for [Infinity] *)
Definition min_tasks (maxTasks : option Z) (x : Z) : option Z :=
  Some (match maxTasks with Some m => Z.min m x | None => x end).

(** The body of [findAndMarkStartableWorkflows], on the ordered [rows] that the selection finds.
    [localRunning] is [countRunningWorkflowsForQueue(queue.name, queuePartitionKey)],
    [startTimeMs] is [Date.now()] and [nowMs] SQL's [now()]. *)
Definition claim_selection (q : WorkflowQueue) (executorID appVersion : string)
    (queuePartitionKey : option string) (localRunning startTimeMs nowMs : Z)
    (locked : gset string) (rows : list (string * wf_row)) : DB (list string) := fun d =>
    let numRecentQueries :=
      match wq_rateLimit q with
      | Some rl => count_where (fun _ => recently_started (wq_name q) queuePartitionKey
                                           (startTimeMs - periodMs rl)) (workflow_status d)
      | None => 0
      end in
    if match wq_rateLimit q with Some rl => limitPerPeriod rl <=? numRecentQueries | None => false end
    then (Ok [], d)
    else
    let maxTasks := (fun wc => Z.max 0 (wc - localRunning)) <$> wq_workerConcurrency q in
    let maxTasks :=
      match wq_concurrency q with
      | Some c =>
          let totalRunningTasks :=
            count_where (fun _ => running_on (wq_name q) queuePartitionKey) (workflow_status d) in
          min_tasks maxTasks (Z.max 0 (c - totalRunningTasks))
      | None => maxTasks
      end in
    if match maxTasks with Some m => m <=? 0 | None => false end then (Ok [], d)
    else
    match lock_rows (bool_decide (is_Some (truthy_num (wq_concurrency q)))) locked maxTasks rows with
    | inl e => (Throw e, d)
    | inr workflowIDs =>
        claim_loop (started executorID appVersion startTimeMs nowMs
                      (bool_decide (is_Some (wq_rateLimit q))))
          ((fun rl => limitPerPeriod rl - numRecentQueries) <$> wq_rateLimit q) workflowIDs d
    end.

(** [findAndMarkStartableWorkflows] *)
Definition findAndMarkStartableWorkflows (q : WorkflowQueue) (executorID appVersion : string)
    (queuePartitionKey : option string) (localRunning startTimeMs nowMs : Z)
    (locked : gset string) : DB (list string) :=
  transaction (fun d =>
    claim_selection q executorID appVersion queuePartitionKey localRunning startTimeMs nowMs locked
      (candidates (wq_name q) appVersion queuePartitionKey d) d).

(** [getQueuePartitions]: the distinct keys of the ENQUEUED workflows of the queue. *)
Definition getQueuePartitions (queueName : string) (d : sysdb) : list string :=
  remove_dups (omap (fun kr => ws_queue_partition_key kr.2)
    (select_where (fun _ r => sql_eqb (ws_queue_name r) queueName
                              && bool_decide (ws_status r = ENQUEUED)) (workflow_status d))).

(** * Queue records *)

Definition queueRecordFromRow (name : string) (row : queue_row) : QueueRecord :=
  {| qr_name := name;
     qr_concurrency := qu_concurrency row;
     qr_workerConcurrency := qu_worker_concurrency row;
     qr_rateLimitMax := qu_rate_limit_max row;
     qr_rateLimitPeriodMs := qu_rate_limit_period_ms row;
     qr_priorityEnabled := qu_priority_enabled row;
     qr_partitionQueue := qu_partition_queue row;
     qr_pollingIntervalMs := qu_polling_interval_ms row |}.

Definition getQueue (name : string) (d : sysdb) : option QueueRecord :=
  queueRecordFromRow name <$> queues d !! name.

Definition listQueues (d : sysdb) : list QueueRecord :=
  (fun kr => queueRecordFromRow kr.1 kr.2) <$> map_to_list (queues d).

Definition deleteQueue (name : string) : DB unit := fun d =>
  (Ok tt, d <| queues ::= delete name |>).

(** [QueueRecordUpdate]: the fields that are given *)
Record QueueRecordUpdate : Type := QueueRecordUpdateOf {
  qf_concurrency : option (option Z);
  qf_workerConcurrency : option (option Z);
  qf_rateLimitMax : option (option Z);
  qf_rateLimitPeriodMs : option (option Z);
  qf_priorityEnabled : option bool;
  qf_partitionQueue : option bool;
  qf_pollingIntervalMs : option Z
}.

#[export] Instance QueueRecordUpdate_eta : Eta QueueRecordUpdate := fun f =>
  QueueRecordUpdateOf (qf_concurrency f) (qf_workerConcurrency f) (qf_rateLimitMax f)
    (qf_rateLimitPeriodMs f) (qf_priorityEnabled f) (qf_partitionQueue f)
    (qf_pollingIntervalMs f).

Definition no_fields : QueueRecordUpdate := QueueRecordUpdateOf None None None None None None None.

(** [setClauses.length === 0] *)
Definition fields_empty (f : QueueRecordUpdate) : bool :=
  negb (bool_decide (is_Some (qf_concurrency f)) || bool_decide (is_Some (qf_workerConcurrency f))
        || bool_decide (is_Some (qf_rateLimitMax f))
        || bool_decide (is_Some (qf_rateLimitPeriodMs f))
        || bool_decide (is_Some (qf_priorityEnabled f))
        || bool_decide (is_Some (qf_partitionQueue f))
        || bool_decide (is_Some (qf_pollingIntervalMs f))).

Definition apply_fields (now : Z) (f : QueueRecordUpdate) (r : queue_row) : queue_row :=
  {| qu_concurrency := default (qu_concurrency r) (qf_concurrency f);
     qu_worker_concurrency := default (qu_worker_concurrency r) (qf_workerConcurrency f);
     qu_rate_limit_max := default (qu_rate_limit_max r) (qf_rateLimitMax f);
     qu_rate_limit_period_ms := default (qu_rate_limit_period_ms r) (qf_rateLimitPeriodMs f);
     qu_priority_enabled := default (qu_priority_enabled r) (qf_priorityEnabled f);
     qu_partition_queue := default (qu_partition_queue r) (qf_partitionQueue f);
     qu_polling_interval_ms := default (qu_polling_interval_ms r) (qf_pollingIntervalMs f);
     qu_updated_at := now |}.

(** [updateQueue] *)
Definition updateQueue (now : Z) (name : string) (fields : QueueRecordUpdate) : DB unit := fun d =>
  if fields_empty fields then (Ok tt, d)
  else (Ok tt, d <| queues ::= alter (apply_fields now fields) name |>).

Definition record_to_row (now : Z) (r : QueueRecord) : queue_row :=
  {| qu_concurrency := qr_concurrency r;
     qu_worker_concurrency := qr_workerConcurrency r;
     qu_rate_limit_max := qr_rateLimitMax r;
     qu_rate_limit_period_ms := qr_rateLimitPeriodMs r;
     qu_priority_enabled := qr_priorityEnabled r;
     qu_partition_queue := qr_partitionQueue r;
     qu_polling_interval_ms := qr_pollingIntervalMs r;
     qu_updated_at := now |}.

(** [upsertQueue]: whether it inserted. *)
Definition upsertQueue (now : Z) (record : QueueRecord) (updateExisting : bool) : DB bool :=
  fun d =>
  match queues d !! qr_name record with
  | None => (Ok true, d <| queues ::= <[qr_name record := record_to_row now record]> |>)
  | Some _ =>
      (Ok false, if updateExisting
                 then d <| queues ::= <[qr_name record := record_to_row now record]> |>
                 else d)
  end.

(** * [WorkflowQueue] *)

(** [a > b] where both must be given *)
Definition exceeds (a b : option Z) : bool :=
  match a, b with Some x, Some y => y <? x | _, _ => false end.

(** [validateQueueParams]; a rate limit has both of its fields by its type. *)
Definition validateQueueParams (p : QueueParameters) : option dbos_error :=
  if exceeds (p_workerConcurrency p) (p_concurrency p)
  then Some (JsError "concurrency must be greater than or equal to workerConcurrency")
  else if match p_minPollingIntervalMs p with Some i => i <=? 0 | None => false end
  then Some (JsError "minPollingIntervalMs must be positive")
  else None.

(** [recordFromParams] *)
Definition recordFromParams (name : string) (p : QueueParameters) : QueueRecord :=
  {| qr_name := name;
     qr_concurrency := p_concurrency p;
     qr_workerConcurrency := p_workerConcurrency p;
     qr_rateLimitMax := limitPerPeriod <$> p_rateLimit p;
     qr_rateLimitPeriodMs := periodMs <$> p_rateLimit p;
     qr_priorityEnabled := default false (p_priorityEnabled p);
     qr_partitionQueue := default false (p_partitionQueue p);
     qr_pollingIntervalMs := default 1000 (p_minPollingIntervalMs p) |}.

Definition rate_limit_of (r : QueueRecord) : option QueueRateLimit :=
  match qr_rateLimitMax r, qr_rateLimitPeriodMs r with
  | Some m, Some p => Some (QueueRateLimitOf m p)
  | _, _ => None
  end.

(** [WorkflowQueue._fromRecord] *)
Definition fromRecord (r : QueueRecord) : WorkflowQueue :=
  {| wq_name := qr_name r;
     wq_concurrency := qr_concurrency r;
     wq_rateLimit := rate_limit_of r;
     wq_workerConcurrency := qr_workerConcurrency r;
     wq_priorityEnabled := qr_priorityEnabled r;
     wq_partitionQueue := qr_partitionQueue r;
     wq_minPollingIntervalMs := Some (qr_pollingIntervalMs r);
     wq_databaseBacked := true |}.

(** The in-memory constructor: its fields, and the registry [wfQueuesByName]. *)
Definition newWorkflowQueue (name : string) (p : QueueParameters)
    (registry : gmap string WorkflowQueue) : dbos_error + WorkflowQueue * gmap string WorkflowQueue :=
  match validateQueueParams p with
  | Some e => inl e
  | None =>
      let q := {| wq_name := name; wq_concurrency := p_concurrency p;
                  wq_rateLimit := p_rateLimit p; wq_workerConcurrency := p_workerConcurrency p;
                  wq_priorityEnabled := default false (p_priorityEnabled p);
                  wq_partitionQueue := default false (p_partitionQueue p);
                  wq_minPollingIntervalMs := p_minPollingIntervalMs p;
                  wq_databaseBacked := false |} in
      match registry !! name with
      | Some _ => inl (JsError ("Workflow Queue '" +:+ name +:+ "' defined multiple times"))
      | None => inr (q, <[name := q]> registry)
      end
  end.

(** The store of the configuration methods: the queue object and the database. *)
Definition QM (A : Type) : Type := M (WorkflowQueue * sysdb) dbos_error A.

Definition on_db {A} (m : DB A) : QM A := fun s =>
  let (o, d) := m s.2 in (o, (s.1, d)).

Definition set_queue (f : WorkflowQueue -> WorkflowQueue) : QM unit := fun s =>
  (Ok tt, (f s.1, s.2)).

(** [requireDatabaseBacked] *)
Definition requireDatabaseBacked : QM unit := fun s =>
  if wq_databaseBacked s.1 then (Ok tt, s)
  else (Throw (JsError ("Cannot configure queue " +:+ wq_name s.1
          +:+ ": dynamic configuration is only supported for queues registered via DBOS.registerQueue.")), s).

Definition setConcurrency (now : Z) (value : option Z) : QM unit :=
  requireDatabaseBacked ;*
  let* s := get in
  if exceeds (wq_workerConcurrency s.1) value
  then throw (JsError "workerConcurrency must be less than or equal to concurrency")
  else
    on_db (updateQueue now (wq_name s.1) (no_fields <| qf_concurrency := Some value |>)) ;*
    set_queue (fun q => q <| wq_concurrency := value |>).

Definition setWorkerConcurrency (now : Z) (value : option Z) : QM unit :=
  requireDatabaseBacked ;*
  let* s := get in
  if exceeds value (wq_concurrency s.1)
  then throw (JsError "workerConcurrency must be less than or equal to concurrency")
  else
    on_db (updateQueue now (wq_name s.1) (no_fields <| qf_workerConcurrency := Some value |>)) ;*
    set_queue (fun q => q <| wq_workerConcurrency := value |>).

Definition setRateLimit (now : Z) (value : option QueueRateLimit) : QM unit :=
  requireDatabaseBacked ;*
  let* s := get in
  on_db (updateQueue now (wq_name s.1)
           (no_fields <| qf_rateLimitMax := Some (limitPerPeriod <$> value) |>
                      <| qf_rateLimitPeriodMs := Some (periodMs <$> value) |>)) ;*
  set_queue (fun q => q <| wq_rateLimit := value |>).

Definition setPriorityEnabled (now : Z) (value : bool) : QM unit :=
  requireDatabaseBacked ;*
  let* s := get in
  on_db (updateQueue now (wq_name s.1) (no_fields <| qf_priorityEnabled := Some value |>)) ;*
  set_queue (fun q => q <| wq_priorityEnabled := value |>).

Definition setPartitionQueue (now : Z) (value : bool) : QM unit :=
  requireDatabaseBacked ;*
  let* s := get in
  on_db (updateQueue now (wq_name s.1) (no_fields <| qf_partitionQueue := Some value |>)) ;*
  set_queue (fun q => q <| wq_partitionQueue := value |>).

Definition setMinPollingIntervalMs (now : Z) (value : Z) : QM unit :=
  requireDatabaseBacked ;*
  let* s := get in
  if value <=? 0 then throw (JsError "minPollingIntervalMs must be positive")
  else
    on_db (updateQueue now (wq_name s.1) (no_fields <| qf_pollingIntervalMs := Some value |>)) ;*
    set_queue (fun q => q <| wq_minPollingIntervalMs := Some value |>).

(** [refreshFromDb], which every getter runs first *)
Definition refreshFromDb : QM unit := fun s =>
  let (q, d) := s in
  if negb (wq_databaseBacked q) then (Ok tt, s)
  else match getQueue (wq_name q) d with
       | None => (Throw (JsError ("Queue '" +:+ wq_name q +:+ "' was not found in the database.")), s)
       | Some r =>
           (Ok tt, (q <| wq_concurrency := qr_concurrency r |>
                      <| wq_workerConcurrency := qr_workerConcurrency r |>
                      <| wq_rateLimit := rate_limit_of r |>
                      <| wq_priorityEnabled := qr_priorityEnabled r |>
                      <| wq_partitionQueue := qr_partitionQueue r |>
                      <| wq_minPollingIntervalMs := Some (qr_pollingIntervalMs r) |>, d))
       end.

(** * Lemmas: claiming *)

Lemma started_dedup_safe x v st now rl : dedup_safe (started x v st now rl).
Proof. by right. Qed.

Lemma limit_cons_pos {A} b (x : A) l :
  0 < b -> limit (Some b) (x :: l) = x :: limit (Some (b - 1)) l.
Proof.
  intros Hb. simpl. replace (Z.to_nat b) with (S (Z.to_nat (b - 1))) by lia. done.
Qed.

(** Marking one ENQUEUED workflow *)
Lemma claim_one f id d r :
  dedup_unique (workflow_status d) -> dedup_safe f -> workflow_status d !! id = Some r ->
  ws_status r = ENQUEUED ->
  update_workflow_status (fun k r => bool_decide (k = id) && bool_decide (ws_status r = ENQUEUED)) f d
  = (Ok [id], d <| workflow_status ::= update_where (fun k _ => mem k [id]) f |>).
Proof.
  intros Hu Hf Hr Hs. rewrite update_workflow_status_ok by done.
  assert (update_where (fun k r => bool_decide (k = id) && bool_decide (ws_status r = ENQUEUED)) f
            (workflow_status d)
          = update_where (fun k _ => mem k [id]) f (workflow_status d)) as E.
  { apply map_eq. intros k. rewrite !lookup_update_where.
    destruct (workflow_status d !! k) as [r'|] eqn:E; [|done]. simpl.
    rewrite mem_cons. destruct (decide (k = id)) as [->|Hne].
    - rewrite !bool_decide_true by congruence. done.
    - by rewrite !(bool_decide_false (k = id)) by done. }
  erewrite select_where_unique; [|exact Hr| |].
  - simpl. by rewrite E.
  - simpl. by rewrite !bool_decide_true.
  - simpl. intros k' r' _ Hk. by break_bool.
Qed.

Lemma update_where_compose (f : wf_row -> wf_row) (t : gmap string wf_row) id l :
  id ∉ l ->
  update_where (fun k _ => mem k l) f (update_where (fun k _ => mem k [id]) f t)
  = update_where (fun k _ => mem k (id :: l)) f t.
Proof.
  intros Hid. apply map_eq. intros k. rewrite !lookup_update_where.
  destruct (t !! k); [|done]. simpl. rewrite !mem_cons.
  destruct (bool_decide (k = id)) eqn:E; simpl; [|done].
  break_bool. subst. by rewrite (proj2 (mem_false id l) Hid).
Qed.

Lemma limit_sub {A} n (l : list A) x : x ∈ limit n l -> x ∈ l.
Proof. apply elem_of_limit. Qed.

(** The loop claims the first workflows the budget allows, and only marks those. *)
Lemma claim_loop_run f budget ids d :
  dedup_safe f -> dedup_unique (workflow_status d) -> NoDup ids ->
  (forall id, id ∈ ids -> exists r, workflow_status d !! id = Some r /\ ws_status r = ENQUEUED) ->
  claim_loop f budget ids d
  = (Ok (limit budget ids),
     d <| workflow_status ::= update_where (fun k _ => mem k (limit budget ids)) f |>).
Proof.
  intros Hf. revert budget d. induction ids as [|id ids IH]; intros budget d Hu Hn Hs.
  { replace (limit budget (@nil string)) with (@nil string)
      by (destruct budget; simpl; [by rewrite take_nil|done]).
    simpl. unfold ret. f_equal. symmetry. apply (update_status_none d). intros k r _.
    apply mem_false. set_solver. }
  cbn [claim_loop]. destruct (match budget with Some b => b <=? 0 | None => false end) eqn:Eb.
  { destruct budget as [b|]; [|done]. break_bool.
    replace (limit (Some b) (id :: ids)) with (@nil string)
      by (simpl; by replace (Z.to_nat b) with 0%nat by lia).
    unfold ret. f_equal. symmetry. apply (update_status_none d). intros k r _.
    apply mem_false. set_solver. }
  apply NoDup_cons in Hn as [Hid Hn].
  destruct (Hs id ltac:(set_solver)) as (r & Hr & Hst).
  unfold bind at 1. rewrite (claim_one f id d r) by done. unfold bind.
  set (d1 := d <| workflow_status ::= update_where (fun k _ => mem k [id]) f |>).
  rewrite IH; [| by apply dedup_unique_update | done |].
  - unfold ret.
    assert (limit budget (id :: ids) = id :: limit ((fun b => b - 1) <$> budget) ids) as ->.
    { destruct budget as [b|]; [|done]. break_bool. by apply limit_cons_pos. }
    f_equal. unfold d1. simpl. f_equal. apply update_where_compose.
    intros Hc. by apply limit_sub in Hc.
  - intros id' Hid'. destruct (Hs id' ltac:(set_solver)) as (r' & Hr' & Hst').
    exists r'. split; [|done]. unfold d1. simpl. rewrite lookup_update_where, Hr'. simpl.
    rewrite (proj2 (mem_false id' [id])); [done|]. set_solver.
Qed.

Lemma take_filter_all {A} (q : A -> bool) n (l : list A) :
  forallb q (take n l) = true -> take n (List.filter q l) = take n l.
Proof.
  revert n. induction l as [|x l IH]; intros [|n]; simpl; try done.
  rewrite andb_true_iff. intros [-> Hl]. simpl. f_equal. by apply IH.
Qed.

Lemma limit_fmap {A B} (f : A -> B) n (l : list A) : f <$> limit n l = limit n (f <$> l).
Proof. destruct n; simpl; [|done]. by rewrite firstn_map. Qed.

(** The candidates no other transaction has locked *)
Definition free_candidates (name appVersion : string) (part : option string)
    (locked : gset string) (d : sysdb) : list (string * wf_row) :=
  List.filter (fun kr => negb (bool_decide (kr.1 ∈ locked))) (candidates name appVersion part d).

Lemma lock_rows_inr nowait locked lim rows ids :
  lock_rows nowait locked lim rows = inr ids ->
  ids = limit lim (List.filter (fun kr => negb (bool_decide (kr.1 ∈ locked))) rows).*1
  /\ (nowait = true -> ids `prefix_of` rows.*1).
Proof.
  unfold lock_rows. rewrite <- limit_fmap. destruct nowait; [|by intros [= <-]].
  destruct (forallb _ _) eqn:E; [|done]. intros [= <-].
  split; [|intros _; rewrite limit_fmap; apply limit_prefix]. f_equal.
  destruct lim as [n|]; simpl in *.
  - symmetry. by apply take_filter_all.
  - clear -E. induction rows as [|x rows IH]; [done|]. simpl in *.
    apply andb_true_iff in E as [-> E]. f_equal. by apply IH.
Qed.

Lemma lock_rows_inl nowait locked lim rows e :
  lock_rows nowait locked lim rows = inl e ->
  e = DatabaseError "55P03" /\ nowait = true
  /\ exists id, id ∈ locked /\ id ∈ rows.*1.
Proof.
  unfold lock_rows. destruct nowait; [|done].
  destruct (forallb _ _) eqn:E; [done|]. intros [= <-]. split; [done|]. split; [done|].
  destruct (existsb (fun kr => bool_decide (kr.1 ∈ locked)) rows) eqn:Ex.
  - apply existsb_exists in Ex as ([k r] & Hin & Hk). break_bool. exists k. split; [done|].
    apply list_elem_of_fmap. exists (k, r). split; [done|]. by apply list_elem_of_In.
  - enough (true = false) by done. rewrite <- E. symmetry. apply forallb_forall. intros y Hy.
    apply negb_true_iff. destruct (bool_decide _) eqn:Ey; [|done].
    assert (existsb (fun kr => bool_decide (kr.1 ∈ locked)) rows = true); [|congruence].
    apply existsb_exists. exists y. split; [|done].
    apply list_elem_of_In. apply list_elem_of_In in Hy. by apply elem_of_limit in Hy.
Qed.

Section free.
Context (name appVersion : string) (part : option string) (locked : gset string) (d : sysdb).

Lemma elem_of_free id r :
  (id, r) ∈ free_candidates name appVersion part locked d <->
  workflow_status d !! id = Some r /\ id ∉ locked
  /\ startable name appVersion (is_latest appVersion d) part r = true.
Proof.
  unfold free_candidates, candidates.
  rewrite list_elem_of_In, filter_In, <- list_elem_of_In, elem_of_order_by, elem_of_select_where.
  simpl. rewrite negb_true_iff, bool_decide_eq_false. naive_solver.
Qed.

Lemma NoDup_free : NoDup (free_candidates name appVersion part locked d).*1.
Proof.
  apply NoDup_fst_filter. unfold candidates. rewrite order_by_Permutation.
  apply NoDup_select_where.
Qed.

Lemma free_sorted :
  StronglySorted (fun a b => dequeue_le a b = true) (free_candidates name appVersion part locked d).
Proof.
  unfold free_candidates. set (l := candidates _ _ _ _).
  assert (StronglySorted (fun a b => dequeue_le a b = true) l) as Hs.
  { apply order_by_sorted; unfold dequeue_le; intros *;
      rewrite !orb_true_iff, !andb_true_iff, !Z.ltb_lt, !Z.eqb_eq, !Z.leb_le; lia. }
  clearbody l. induction Hs as [|x l Hs IH Hx]; simpl; [constructor|].
  destruct (negb _); [|done]. constructor; [done|].
  rewrite Forall_forall in *. intros y Hy. apply Hx.
  apply list_elem_of_In, filter_In in Hy as [Hy _]. by apply list_elem_of_In.
Qed.

(** Whatever precedes the end of a prefix of the ordered candidates goes first. *)
Lemma free_prefix_order claimed id r id2 r2 :
  claimed `prefix_of` (free_candidates name appVersion part locked d).*1 ->
  id ∈ claimed -> id2 ∉ claimed ->
  (id, r) ∈ free_candidates name appVersion part locked d ->
  (id2, r2) ∈ free_candidates name appVersion part locked d ->
  dequeue_le (id, r) (id2, r2) = true.
Proof.
  intros [rest Hpre] Hid Hid2 Hr Hr2. pose proof free_sorted as Hs. pose proof NoDup_free as Hn.
  set (l := free_candidates _ _ _ _ _) in *.
  set (n := length claimed).
  assert (claimed = (take n l).*1) as Ec by (rewrite fmap_take, Hpre; unfold n; by rewrite take_app_length).
  rewrite <- (take_drop n l) in Hs. apply (StronglySorted_app_1_elem_of _ _ _ _ _ Hs).
  - rewrite Ec in Hid. apply list_elem_of_fmap in Hid as ([k r'] & -> & Hin). simpl in *.
    assert ((k, r') ∈ l) as Hl by (rewrite <- (take_drop n l); set_solver).
    apply elem_of_free in Hl as [Hl _], Hr as [Hr _]. congruence.
  - rewrite <- (take_drop n l) in Hr2. apply elem_of_app in Hr2 as [Hr2|Hr2]; [|done].
    destruct Hid2. rewrite Ec. apply list_elem_of_fmap. by exists (id2, r2).
Qed.

End free.

(** The smaller of two limits, [None] for no limit *)
Definition min_limit (a b : option Z) : option Z :=
  match a, b with
  | Some x, Some y => Some (Z.min x y)
  | Some x, None => Some x
  | None, _ => b
  end.

Lemma NoDup_limit {A} n (l : list A) : NoDup l -> NoDup (limit n l).
Proof.
  destruct (limit_prefix n l) as [rest E]. rewrite E at 1. intros Hn.
  by apply NoDup_app in Hn as [Hn _].
Qed.

Lemma limit_limit {A} a b (l : list A) : limit a (limit b l) = limit (min_limit a b) l.
Proof.
  destruct a as [a|], b as [b|]; simpl; try done. rewrite take_take. f_equal. lia.
Qed.

Lemma limit_nonpos {A} a b n (l : list A) : a = Some n -> n <= 0 -> limit (min_limit a b) l = [].
Proof.
  intros -> Hn. destruct b as [b|]; simpl;
    (match goal with |- take (Z.to_nat ?m) _ = _ => replace (Z.to_nat m) with 0%nat by lia end);
    done.
Qed.

Lemma min_limit_comm a b : min_limit a b = min_limit b a.
Proof. destruct a, b; simpl; try done. f_equal. lia. Qed.

(** What each of the three limits of a queue leaves room for *)
Definition rate_room (q : WorkflowQueue) (part : option string) (st : Z) (d : sysdb) : option Z :=
  (fun rl => limitPerPeriod rl
             - count_where (fun _ => recently_started (wq_name q) part (st - periodMs rl))
                 (workflow_status d)) <$> wq_rateLimit q.

Definition worker_room (q : WorkflowQueue) (lr : Z) : option Z :=
  (fun wc => Z.max 0 (wc - lr)) <$> wq_workerConcurrency q.

Definition global_room (q : WorkflowQueue) (part : option string) (d : sysdb) : option Z :=
  (fun c => Z.max 0 (c - count_where (fun _ => running_on (wq_name q) part) (workflow_status d)))
  <$> wq_concurrency q.

Definition room (q : WorkflowQueue) (part : option string) (lr st : Z) (d : sysdb) : option Z :=
  min_limit (rate_room q part st d) (min_limit (worker_room q lr) (global_room q part d)).

(** The rows that no other transaction has locked *)
Definition free_rows (locked : gset string) (rows : list (string * wf_row)) : list (string * wf_row) :=
  List.filter (fun kr => negb (bool_decide (kr.1 ∈ locked))) rows.

(** A list of distinct workflows that wait in [d] *)
Definition waiting_rows (d : sysdb) (rows : list (string * wf_row)) : Prop :=
  NoDup rows.*1
  /\ forall id r, (id, r) ∈ rows -> workflow_status d !! id = Some r /\ ws_status r = ENQUEUED.

(** The result of a poll, as the selection and the limits determine it. *)
Lemma claim_selection_cases q x v part lr st now locked rows d :
  dedup_unique (workflow_status d) -> waiting_rows d rows ->
  match claim_selection q x v part lr st now locked rows d with
  | (Throw e, d') =>
      d' = d /\ e = DatabaseError "55P03" /\ is_Some (truthy_num (wq_concurrency q))
      /\ exists id, id ∈ locked /\ id ∈ rows.*1
  | (Ok claimed, d') =>
      d' = d <| workflow_status ::= update_where (fun k _ => mem k claimed)
                  (started x v st now (bool_decide (is_Some (wq_rateLimit q)))) |>
      /\ claimed = limit (room q part lr st d) (free_rows locked rows).*1
      /\ (is_Some (truthy_num (wq_concurrency q)) -> claimed `prefix_of` rows.*1)
  end.
Proof.
  intros Hu [Hn Hw]. unfold claim_selection.
  set (f := started x v st now _). set (l := (free_rows _ _).*1).
  assert (d = d <| workflow_status ::= update_where (fun k _ => mem k []) f |>) as Hnil.
  { symmetry. apply (update_status_none d). intros k r _. apply mem_false. set_solver. }
  set (recent := match wq_rateLimit q with Some _ => _ | None => 0 end).
  assert (rate_room q part st d = (fun rl => limitPerPeriod rl - recent) <$> wq_rateLimit q) as Er
    by (unfold rate_room, recent; by destruct (wq_rateLimit q)).
  destruct (match wq_rateLimit q with Some rl => limitPerPeriod rl <=? recent | None => false end)
    eqn:E1.
  { split; [exact Hnil|]. destruct (wq_rateLimit q) as [rl|]; [|done]. simpl in Er. break_bool.
    unfold room. rewrite Er. erewrite limit_nonpos by (done || lia).
    split; [done|intros _; apply prefix_nil]. }
  set (maxTasks := match wq_concurrency q with Some c => min_tasks _ _ | None => _ end).
  assert (maxTasks = min_limit (worker_room q lr) (global_room q part d)) as Em.
  { unfold maxTasks, worker_room, global_room.
    destruct (wq_concurrency q), (wq_workerConcurrency q); done. }
  destruct (match maxTasks with Some m => m <=? 0 | None => false end) eqn:E2.
  { split; [exact Hnil|]. destruct maxTasks as [m|]; [|done]. break_bool. unfold room.
    rewrite <- Em, min_limit_comm. erewrite limit_nonpos by (done || lia).
    split; [done|intros _; apply prefix_nil]. }
  destruct (lock_rows _ _ _ _) as [e|ids] eqn:El.
  { apply lock_rows_inl in El as (-> & El & Hl). by break_bool. }
  apply lock_rows_inr in El as [El Hnw].
  assert (ids = limit maxTasks l) as Ei by exact El.
  assert (forall id, id ∈ ids -> exists r, workflow_status d !! id = Some r /\ ws_status r = ENQUEUED)
    as Hq.
  { intros id Hid. rewrite Ei in Hid. apply elem_of_limit in Hid.
    apply list_elem_of_fmap in Hid as ([k r] & -> & Hid).
    apply list_elem_of_In, filter_In in Hid as [Hid%list_elem_of_In _]. exists r. by apply Hw. }
  rewrite claim_loop_run; [|apply started_dedup_safe|done| |done].
  - split; [done|]. split; [rewrite Ei, limit_limit; unfold room; by rewrite Er, Em|].
    intros Ht. etrans; [apply limit_prefix|]. apply Hnw. by apply bool_decide_eq_true.
  - rewrite Ei. by apply NoDup_limit, NoDup_fst_filter.
Qed.

Lemma candidates_waiting name v part d : waiting_rows d (candidates name v part d).
Proof.
  split; [unfold candidates; rewrite order_by_Permutation; apply NoDup_select_where|].
  intros id r. unfold candidates. rewrite elem_of_order_by, elem_of_select_where. intros [Hr Hs].
  split; [done|]. unfold startable in Hs. by break_bool.
Qed.

Lemma findAndMark_cases q x v part lr st now locked d :
  dedup_unique (workflow_status d) ->
  match findAndMarkStartableWorkflows q x v part lr st now locked d with
  | (Throw e, d') =>
      d' = d /\ e = DatabaseError "55P03" /\ is_Some (truthy_num (wq_concurrency q))
      /\ exists id, id ∈ locked /\ id ∈ (candidates (wq_name q) v part d).*1
  | (Ok claimed, d') =>
      d' = d <| workflow_status ::= update_where (fun k _ => mem k claimed)
                  (started x v st now (bool_decide (is_Some (wq_rateLimit q)))) |>
      /\ claimed = limit (room q part lr st d)
                     (free_candidates (wq_name q) v part locked d).*1
      /\ (is_Some (truthy_num (wq_concurrency q)) ->
            claimed `prefix_of` (candidates (wq_name q) v part d).*1)
  end.
Proof.
  intros Hu. pose proof (claim_selection_cases q x v part lr st now locked _ d Hu
    (candidates_waiting (wq_name q) v part d)) as H.
  unfold findAndMarkStartableWorkflows, transaction.
  destruct (claim_selection _ _ _ _ _ _ _ _ _ d) as [[claimed|e] d']; [exact H|].
  by destruct H as (_ & H).
Qed.

(** What holds of the row of a claimed workflow *)
Lemma claimed_free q v part lr st locked d id :
  id ∈ limit (room q part lr st d) (free_candidates (wq_name q) v part locked d).*1 ->
  exists r, (id, r) ∈ free_candidates (wq_name q) v part locked d.
Proof.
  intros Hid. apply elem_of_limit, list_elem_of_fmap in Hid as ([k r] & -> & Hid). by exists r.
Qed.

(** An update of the rows [ids] counts at most that many more rows. *)
Lemma count_where_claim (p : wf_row -> bool) f (t : gmap string wf_row) ids :
  count_where (fun _ => p) (update_where (fun k _ => mem k ids) f t)
  <= count_where (fun _ => p) t + Z.of_nat (length ids).
Proof.
  unfold count_where. set (l := select_where _ (update_where _ _ _)). set (l0 := select_where _ t).
  assert (length (l.*1) <= length (l0.*1 ++ ids))%nat as Hlen.
  { apply submseteq_length, NoDup_submseteq; [apply NoDup_select_where|].
    intros k Hk. apply list_elem_of_fmap in Hk as ([k' r] & -> & Hk). simpl.
    apply elem_of_select_where in Hk as [Hk Hp]. rewrite lookup_update_where in Hk.
    destruct (t !! k') as [r0|] eqn:E; [|done]. simpl in Hk.
    apply elem_of_app. destruct (mem k' ids) eqn:Em.
    - right. by apply mem_spec.
    - left. apply list_elem_of_fmap. exists (k', r). split; [done|].
      apply elem_of_select_where. simplify_eq. done. }
  rewrite length_app, !length_fmap in Hlen. lia.
Qed.

(** * Lemmas: queue configuration *)

(** The cached fields are those of the row. *)
Definition coherent (s : WorkflowQueue * sysdb) : Prop :=
  exists row, queues s.2 !! wq_name s.1 = Some row
              /\ s.1 = fromRecord (queueRecordFromRow (wq_name s.1) row).

(** The limits of a queue are in order. *)
Definition limits_valid (q : WorkflowQueue) : bool :=
  negb (exceeds (wq_workerConcurrency q) (wq_concurrency q))
  && match wq_minPollingIntervalMs q with Some i => 0 <? i | None => true end.

(** The rows of the other queues are as they were. *)
Definition other_queues (name : string) (d d' : sysdb) : Prop :=
  forall name', name' <> name -> queues d' !! name' = queues d !! name'.

(** A setter of a configured queue: what it leaves, given what it writes. *)
Definition setter_ok (m : QM unit) : Prop :=
  forall s, coherent s -> limits_valid s.1 = true ->
    let (o, s') := m s in
    coherent s' /\ limits_valid s'.1 = true /\ wq_name s'.1 = wq_name s.1
    /\ other_queues (wq_name s.1) s.2 s'.2
    /\ (forall e, o = Throw e -> s' = s).

(** The common shape of the setters: check the cached value, write the row, write the cache. *)
Lemma setter_write (now : Z) (bad : WorkflowQueue -> bool) (e : dbos_error)
    (fields : QueueRecordUpdate) (f : WorkflowQueue -> WorkflowQueue) :
  fields_empty fields = false ->
  (forall name row, f (fromRecord (queueRecordFromRow name row))
                    = fromRecord (queueRecordFromRow name (apply_fields now fields row))) ->
  (forall q, bad q = false -> limits_valid q = true -> limits_valid (f q) = true) ->
  setter_ok (requireDatabaseBacked ;*
             let* s := get in
             if bad s.1 then throw e
             else on_db (updateQueue now (wq_name s.1) fields) ;* set_queue f).
Proof.
  intros He Hf Hb [q d] (row & Hrow & Hq) Hv. simpl in Hrow, Hq, Hv.
  unfold bind, requireDatabaseBacked, get. cbn [fst snd].
  rewrite (f_equal wq_databaseBacked Hq : wq_databaseBacked q = true).
  simpl. destruct (bad q) eqn:Eb; simpl.
  { split; [by exists row|]. split; [done|]. split; [done|]. split; [by intros n' ?|done]. }
  unfold on_db, updateQueue, set_queue. rewrite He. simpl.
  assert (f q = fromRecord (queueRecordFromRow (wq_name q) (apply_fields now fields row))) as Hfq
    by (etrans; [exact (f_equal f Hq)|apply Hf]).
  assert (wq_name (f q) = wq_name q) as Hn by exact (f_equal wq_name Hfq).
  split; [|split; [by apply Hb|]; split; [done|]; split; [|done]].
  - exists (apply_fields now fields row). simpl. rewrite Hn.
    split; [|done]. by rewrite lookup_alter_eq, Hrow.
  - intros n' Hne. simpl. by rewrite lookup_alter_ne.
Qed.

Lemma setConcurrency_ok now v : setter_ok (setConcurrency now v).
Proof.
  unfold setConcurrency.
  apply (setter_write now (fun q => exceeds (wq_workerConcurrency q) v)); [done|done|].
  unfold limits_valid. simpl. intros q -> ?. by break_bool.
Qed.

Lemma setWorkerConcurrency_ok now v : setter_ok (setWorkerConcurrency now v).
Proof.
  apply (setter_write now (fun q => exceeds v (wq_concurrency q))); [done|done|].
  unfold limits_valid. simpl. intros q -> ?. by break_bool.
Qed.

Lemma setRateLimit_ok now v : setter_ok (setRateLimit now v).
Proof.
  apply (setter_write now (fun _ => false) (JsError "")); [done| |done].
  intros name row. unfold fromRecord. by destruct v as [[]|].
Qed.

Lemma setPriorityEnabled_ok now v : setter_ok (setPriorityEnabled now v).
Proof. by apply (setter_write now (fun _ => false) (JsError "")). Qed.

Lemma setPartitionQueue_ok now v : setter_ok (setPartitionQueue now v).
Proof. by apply (setter_write now (fun _ => false) (JsError "")). Qed.

Lemma setMinPollingIntervalMs_ok now v : setter_ok (setMinPollingIntervalMs now v).
Proof.
  apply (setter_write now (fun _ => v <=? 0)); [done|done|].
  unfold limits_valid. simpl. intros q Hv ?. break_bool.
  apply andb_true_iff. split; [by apply negb_true_iff|lia].
Qed.

(** A startable workflow that a poll passes over gives way to workflows that go first, and they
    fill the room the limits leave. *)
Lemma claimed_or_full q x v part lr st now locked d claimed d' id r :
  db_ok d -> findAndMarkStartableWorkflows q x v part lr st now locked d = (Ok claimed, d') ->
  workflow_status d !! id = Some r -> id ∉ locked ->
  startable (wq_name q) v (is_latest v d) part r = true ->
  id ∈ claimed
  /\ workflow_status d' !! id = Some (started x v st now (bool_decide (is_Some (wq_rateLimit q))) r)
  \/ exists n, room q part lr st d = Some n /\ n <= Z.of_nat (length claimed)
     /\ forall j rj, j ∈ claimed -> workflow_status d !! j = Some rj -> dequeue_le (j, rj) (id, r) = true.
Proof.
  intros Hok Hrun Hr Hl Hs.
  pose proof (findAndMark_cases q x v part lr st now locked d (ok_dedup _ Hok)) as H.
  rewrite Hrun in H. destruct H as (-> & Hc & _).
  assert ((id, r) ∈ free_candidates (wq_name q) v part locked d) as Hfree by (by apply elem_of_free).
  destruct (decide (id ∈ claimed)) as [Hin|Hno]; [left|right].
  - split; [done|]. simpl. rewrite lookup_update_where, Hr. simpl. by rewrite (proj2 (mem_spec id claimed) Hin).
  - assert (id ∈ (free_candidates (wq_name q) v part locked d).*1) as Hf
      by (apply list_elem_of_fmap; by exists (id, r)).
    destruct (room q part lr st d) as [n|] eqn:Er; [|by rewrite Hc in Hno]. exists n.
    split; [done|]. split.
    + destruct (Z.leb_spec n (Z.of_nat (length claimed))) as [|Hlt]; [done|]. exfalso. apply Hno.
      rewrite Hc in Hlt |- *. simpl in Hlt |- *. rewrite length_take in Hlt. rewrite take_ge by lia. done.
    + intros j rj Hj Hrj. apply (free_prefix_order (wq_name q) v part locked d claimed); try done.
      * rewrite Hc. apply limit_prefix.
      * rewrite Hc, <- Er in Hj. apply claimed_free in Hj as [r' Hr'].
        pose proof Hr' as Hr''. apply elem_of_free in Hr'' as (Hr'' & _). congruence.
Qed.

(** * Properties *)

(** C4: [findAndMarkStartableWorkflows] claims exactly the first workflows, by priority and
    then by age, of the ENQUEUED workflows of the queue and partition that this version may
    run and no other transaction has locked, as many as the rate limit, the worker limit and
    the global limit leave room for; it writes the claim into those rows and no others, and
    when it throws (a locked row under NOWAIT) it has changed nothing. *)
Theorem findAndMark_claims q x v part lr st now locked d :
  db_ok d ->
  match findAndMarkStartableWorkflows q x v part lr st now locked d with
  | (Ok claimed, d') =>
      claimed = limit (room q part lr st d) (free_candidates (wq_name q) v part locked d).*1
      /\ NoDup claimed
      /\ (forall id, id ∈ claimed -> exists r,
            workflow_status d !! id = Some r /\ id ∉ locked
            /\ startable (wq_name q) v (is_latest v d) part r = true
            /\ workflow_status d' !! id
               = Some (started x v st now (bool_decide (is_Some (wq_rateLimit q))) r))
      /\ (forall id, id ∉ claimed -> workflow_status d' !! id = workflow_status d !! id)
      /\ (forall id r id2 r2, id ∈ claimed -> id2 ∉ claimed -> id2 ∉ locked ->
            workflow_status d !! id = Some r -> workflow_status d !! id2 = Some r2 ->
            startable (wq_name q) v (is_latest v d) part r2 = true ->
            dequeue_le (id, r) (id2, r2) = true)
  | (Throw e, d') =>
      d' = d /\ e = DatabaseError "55P03" /\ is_Some (truthy_num (wq_concurrency q))
      /\ exists id, id ∈ locked /\ id ∈ (candidates (wq_name q) v part d).*1
  end.
Proof.
  intros Hok. pose proof (findAndMark_cases q x v part lr st now locked d (ok_dedup _ Hok)) as H.
  destruct (findAndMarkStartableWorkflows _ _ _ _ _ _ _ _ d) as [[claimed|e] d']; [|exact H].
  destruct H as (-> & Hc & _). split; [exact Hc|].
  split; [by rewrite Hc; apply NoDup_limit, NoDup_free|].
  assert (claimed `prefix_of` (free_candidates (wq_name q) v part locked d).*1) as Hpre
    by (rewrite Hc; apply limit_prefix).
  repeat split.
  - intros id Hid. pose proof Hid as Hid'. rewrite Hc in Hid'.
    apply claimed_free in Hid' as [r Hr].
    apply elem_of_free in Hr as (Hr & Hl & Hs). exists r. do 3 (split; [done|]).
    simpl. rewrite lookup_update_where, Hr. simpl. by rewrite (proj2 (mem_spec id claimed) Hid).
  - intros id Hid. simpl. rewrite lookup_update_where, (proj2 (mem_false id claimed) Hid).
    by destruct (workflow_status d !! id).
  - intros id r id2 r2 Hid Hid2 Hl2 Hr Hr2 Hs2.
    apply (free_prefix_order (wq_name q) v part locked d claimed); try done.
    + rewrite Hc in Hid. apply claimed_free in Hid as [r' Hr']. pose proof Hr' as Hr''.
      apply elem_of_free in Hr'' as (Hr'' & _). congruence.
    + by apply elem_of_free.
Qed.

(** C16: A poll keeps the limits of the queue: after it no more workflows of the queue and
    partition are PENDING than the larger of the concurrency limit and their number before,
    no more have started within the rate period than the larger of the rate limit and
    their number before, and this process gets no more than its worker limit has left. *)
Theorem findAndMark_limits q x v part lr st now locked d claimed d' :
  db_ok d ->
  findAndMarkStartableWorkflows q x v part lr st now locked d = (Ok claimed, d') ->
  let running := fun d => count_where (fun _ => running_on (wq_name q) part) (workflow_status d) in
  let recent := fun rl d => count_where (fun _ => recently_started (wq_name q) part
                                         (st - periodMs rl)) (workflow_status d) in
  (forall c, wq_concurrency q = Some c -> running d' <= Z.max c (running d))
  /\ (forall wc, wq_workerConcurrency q = Some wc ->
        lr + Z.of_nat (length claimed) <= Z.max wc lr)
  /\ (forall rl, wq_rateLimit q = Some rl ->
        recent rl d' <= Z.max (limitPerPeriod rl) (recent rl d)).
Proof.
  intros Hok Hrun running recent.
  pose proof (findAndMark_cases q x v part lr st now locked d (ok_dedup _ Hok)) as H.
  rewrite Hrun in H. destruct H as (-> & Hc & _).
  set (ids := (free_candidates _ _ _ _ _).*1) in Hc.
  assert (forall m, min_limit (room q part lr st d) (Some m) = room q part lr st d ->
            Z.of_nat (length claimed) <= Z.max 0 m) as Hlen.
  { intros m Hm. rewrite Hc, <- Hm, min_limit_comm, <- limit_limit. apply limit_length. }
  repeat split; intros lm Hlm.
  - specialize (Hlen (Z.max 0 (lm - running d))).
    pose proof (count_where_claim (running_on (wq_name q) part)
      (started x v st now (bool_decide (is_Some (wq_rateLimit q)))) (workflow_status d) claimed).
    assert (Z.of_nat (length claimed) <= Z.max 0 (Z.max 0 (lm - running d)));
      [apply Hlen | unfold running in *; simpl; lia].
    unfold room, global_room, running. rewrite Hlm. simpl.
    destruct (rate_room q part st d), (worker_room q lr); simpl; f_equal; lia.
  - specialize (Hlen (Z.max 0 (lm - lr))).
    assert (Z.of_nat (length claimed) <= Z.max 0 (Z.max 0 (lm - lr))); [apply Hlen | lia].
    unfold room, worker_room. rewrite Hlm. simpl.
    destruct (rate_room q part st d), (global_room q part d); simpl; f_equal; lia.
  - specialize (Hlen (limitPerPeriod lm - recent lm d)).
    pose proof (count_where_claim (recently_started (wq_name q) part (st - periodMs lm))
      (started x v st now (bool_decide (is_Some (wq_rateLimit q)))) (workflow_status d) claimed).
    assert (Z.of_nat (length claimed) <= Z.max 0 (limitPerPeriod lm - recent lm d));
      [apply Hlen | unfold recent in *; simpl; lia].
    unfold room, rate_room, recent. rewrite Hlm. simpl.
    destruct (min_limit (worker_room q lr) (global_room q part d)); simpl; f_equal; lia.
Qed.

(** What a poll may select: the startable workflows of its queue, version and partition, in an order
    of priority and age; those of equal rank come in any order. *)
Definition is_selection (name v : string) (part : option string) (d : sysdb)
    (rows : list (string * wf_row)) : Prop :=
  rows ≡ₚ select_where (fun _ => startable name v (is_latest v d) part) (workflow_status d)
  /\ StronglySorted (fun a b => dequeue_le a b = true) rows.

Lemma candidates_selection name v part d : is_selection name v part d (candidates name v part d).
Proof.
  split; [apply order_by_Permutation|].
  apply order_by_sorted; unfold dequeue_le; intros *;
    rewrite !orb_true_iff, !andb_true_iff, !Z.ltb_lt, !Z.eqb_eq, !Z.leb_le; lia.
Qed.

Lemma selection_waiting name v part d rows : is_selection name v part d rows -> waiting_rows d rows.
Proof.
  intros [Hp _]. destruct (candidates_waiting name v part d) as [Hn Hw].
  assert (rows ≡ₚ candidates name v part d) as E by (unfold candidates; by rewrite order_by_Permutation).
  split; [by rewrite E|]. intros id r. rewrite E. apply Hw.
Qed.

(** A workflow that goes strictly before every other one is the first of any selection. *)
Lemma selection_first name v part d rows id r :
  is_selection name v part d rows -> (id, r) ∈ rows ->
  (forall id2 r2, workflow_status d !! id2 = Some r2 -> id2 <> id ->
     startable name v (is_latest v d) part r2 = true -> dequeue_le (id2, r2) (id, r) = false) ->
  head rows.*1 = Some id.
Proof.
  intros [Hp Hs] Hin Hfirst. destruct rows as [|[k rk] rows]; [by apply elem_of_nil in Hin|].
  apply elem_of_cons in Hin as [[= <- <-]|Hin]; [done|].
  destruct (decide (k = id)) as [->|Hne]; [done|exfalso].
  apply StronglySorted_inv in Hs as [_ Hs]. rewrite Forall_forall in Hs. specialize (Hs _ Hin).
  assert ((k, rk) ∈ select_where (fun _ => startable name v (is_latest v d) part) (workflow_status d))
    as Hk by (rewrite <- Hp; left).
  apply elem_of_select_where in Hk as [Hk Hst]. by rewrite (Hfirst k rk) in Hs.
Qed.

(** C17: Two polls of a queue that overlap in time: the second selects while the first holds its row
    locks.  Whatever snapshots, versions and partitions they have, and however the database orders
    workflows of equal rank, they never claim the same workflow.  On a queue with a global
    concurrency limit at most one of them claims anything if the same workflow is first in line for
    both, as it is for polls of one version and partition on one snapshot when it goes strictly
    before the others.  (Polls with different workflows first in line may both claim up to the limit:
    [versions_exceed_concurrency].) *)
Theorem concurrent_polls q xa xb va vb pa pb lra lrb sta stb nowa nowb lockedA lockedB d dB rowsA rowsB ca da :
  db_ok d -> db_ok dB ->
  is_selection (wq_name q) va pa d rowsA -> is_selection (wq_name q) vb pb dB rowsB ->
  claim_selection q xa va pa lra sta nowa lockedA rowsA d = (Ok ca, da) ->
  (forall id, id ∈ ca -> id ∈ lockedB) ->
  match claim_selection q xb vb pb lrb stb nowb lockedB rowsB dB with
  | (Ok cb, _) =>
      (forall id, id ∈ ca -> id ∉ cb)
      /\ (is_Some (truthy_num (wq_concurrency q)) ->
          head rowsA.*1 = head rowsB.*1
          \/ (va = vb /\ pa = pb /\ d = dB
              /\ exists id r, (id, r) ∈ rowsA
                 /\ forall id2 r2, workflow_status d !! id2 = Some r2 -> id2 <> id ->
                      startable (wq_name q) va (is_latest va d) pa r2 = true ->
                      dequeue_le (id2, r2) (id, r) = false) ->
          ca = [] \/ cb = [])
  | (Throw e, db) => e = DatabaseError "55P03" /\ db = dB
  end.
Proof.
  intros Hok HokB HselA HselB Ha Hl.
  pose proof (claim_selection_cases q xa va pa lra sta nowa lockedA rowsA d (ok_dedup _ Hok)
    (selection_waiting _ _ _ _ _ HselA)) as HA.
  rewrite Ha in HA. destruct HA as (_ & _ & HpA).
  pose proof (claim_selection_cases q xb vb pb lrb stb nowb lockedB rowsB dB (ok_dedup _ HokB)
    (selection_waiting _ _ _ _ _ HselB)) as HB.
  destruct (claim_selection q xb vb _ _ _ _ _ _ dB) as [[cb|e] db]; [|by destruct HB as (-> & -> & _)].
  destruct HB as (_ & Hcb & HpB).
  assert (forall id, id ∈ cb -> id ∉ lockedB) as Hfree.
  { intros id Hid. rewrite Hcb in Hid. apply elem_of_limit, list_elem_of_fmap in Hid as (kr & -> & Hr).
    apply list_elem_of_In, filter_In in Hr as [_ Hr]. by apply negb_true_iff, bool_decide_eq_false in Hr. }
  split; [intros id Hid Hid'; by apply (Hfree id Hid'), Hl|].
  intros Hc Hhead.
  assert (head rowsA.*1 = head rowsB.*1) as Hh.
  { destruct Hhead as [?|(-> & -> & -> & id & r & Hr & Hf)]; [done|].
    rewrite (selection_first _ _ _ _ _ id r HselA Hr Hf).
    symmetry. apply (selection_first _ _ _ _ _ id r HselB); [|done].
    destruct HselA as [EA _], HselB as [EB _]. by rewrite EB, <- EA. }
  destruct (HpA Hc) as [ra EA], (HpB Hc) as [rb EB]. rewrite EA, EB in Hh.
  destruct ca as [|a ca]; [by left|]. destruct cb as [|b cb]; [by right|]. exfalso.
  injection Hh as ->. apply (Hfree b); [left|]. apply Hl. left.
Qed.

(** Registering a queue and reading it back yields the parameters: the record written
    by [upsertQueue] is the one [getQueue] returns, the queue built from it has the given
    limits with the defaults of the optional parameters, its limits are in order if
    [validateQueueParams] accepted them, and the other queues are untouched.  An existing
    row is kept when [updateExisting] is false. *)
Theorem queue_registration_roundtrip now name p upd d :
  validateQueueParams p = None ->
  let (inserted, d') := upsertQueue now (recordFromParams name p) upd d in
  inserted = Ok (negb (bool_decide (is_Some (queues d !! name))))
  /\ other_queues name d d'
  /\ match queues d !! name, upd with
     | Some row, false => d' = d
     | _, _ =>
         getQueue name d' = Some (recordFromParams name p)
         /\ let q := fromRecord (recordFromParams name p) in
            coherent (q, d') /\ limits_valid q = true
            /\ wq_concurrency q = p_concurrency p
            /\ wq_workerConcurrency q = p_workerConcurrency p
            /\ wq_rateLimit q = p_rateLimit p
            /\ wq_priorityEnabled q = default false (p_priorityEnabled p)
            /\ wq_partitionQueue q = default false (p_partitionQueue p)
            /\ wq_minPollingIntervalMs q = Some (default 1000 (p_minPollingIntervalMs p))
     end.
Proof.
  intros Hv.
  assert (forall d0, let d' := d0 <| queues ::= <[name := record_to_row now (recordFromParams name p)]> |> in
    other_queues name d0 d' /\ getQueue name d' = Some (recordFromParams name p)
    /\ let q := fromRecord (recordFromParams name p) in
       coherent (q, d') /\ limits_valid q = true /\ wq_rateLimit q = p_rateLimit p) as Hw.
  { intros d0 d'. split; [intros n' Hne; simpl; by rewrite lookup_insert_ne|].
    split; [unfold getQueue; simpl; by rewrite lookup_insert_eq|].
    split; [eexists; simpl; rewrite lookup_insert_eq; done|].
    split; [|simpl; unfold rate_limit_of; simpl; by destruct (p_rateLimit p) as [[]|]].
    unfold validateQueueParams in Hv. unfold limits_valid. simpl.
    destruct (exceeds _ _); [done|]. simpl.
    destruct (p_minPollingIntervalMs p); simpl; [|done]. break_match_in Hv; [done|].
    break_bool. lia. }
  unfold upsertQueue. simpl. destruct (queues d !! name) as [row|] eqn:E.
  - split; [done|]. destruct upd; [|done]. destruct (Hw d) as (? & ? & ? & ? & ?). done.
  - split; [done|]. destruct (Hw d) as (? & ? & ? & ? & ?). by destruct upd.
Qed.

(** Every configuration method of a database-backed queue keeps the cached fields equal
    to the row and the limits in order, writes no other queue, and when it rejects a value
    it has changed neither the object nor the row; and the getters' refresh restores the
    agreement after another process has written the row. *)
Theorem queue_setters_coherent now :
  (forall v, setter_ok (setConcurrency now v))
  /\ (forall v, setter_ok (setWorkerConcurrency now v))
  /\ (forall v, setter_ok (setRateLimit now v))
  /\ (forall v, setter_ok (setPriorityEnabled now v))
  /\ (forall v, setter_ok (setPartitionQueue now v))
  /\ (forall v, setter_ok (setMinPollingIntervalMs now v))
  /\ (forall q d, wq_databaseBacked q = true ->
        match refreshFromDb (q, d) with
        | (Ok _, s') => coherent s' /\ s'.2 = d /\ wq_name s'.1 = wq_name q
        | (Throw _, s') => s' = (q, d) /\ queues d !! wq_name q = None
        end).
Proof.
  split; [apply setConcurrency_ok|]. split; [apply setWorkerConcurrency_ok|].
  split; [apply setRateLimit_ok|]. split; [apply setPriorityEnabled_ok|].
  split; [apply setPartitionQueue_ok|]. split; [apply setMinPollingIntervalMs_ok|].
  intros q d Hb. unfold refreshFromDb, getQueue. rewrite Hb. simpl.
  destruct (queues d !! wq_name q) as [row|] eqn:E; simpl; [|done].
  split; [|done]. exists row. split; [done|]. unfold fromRecord. simpl. by rewrite <- Hb.
Qed.

(** * Witnesses *)

(** Two waiting workflows, the second of higher priority, and one that runs. *)
Definition ex_queue_db : sysdb :=
  empty_db
    <| workflow_status :=
       {[ "wf-1" := status_to_row 1000 (ex_queued "wf-1" "k") None <| ws_priority := 5 |>;
          "wf-2" := status_to_row 1001 (ex_queued "wf-2" "k") None <| ws_priority := 1 |>;
          "wf-3" := status_to_row 900 (ex_queued "wf-3" "k") None <| ws_status := PENDING |> ]} |>
    <| queues := {[ "jobs" := QueueRow (Some 2) (Some 2) None None true true 500 10 ]} |>.

Lemma ex_queue_db_ok : db_ok ex_queue_db.
Proof.
  split; try by intros; simplify_map_eq.
  apply dedup_uniqueb_spec. vm_compute. done.
Defined.

Definition ex_queue : WorkflowQueue :=
  {| wq_name := "jobs"; wq_concurrency := Some 2; wq_rateLimit := Some (QueueRateLimitOf 5 1000);
     wq_workerConcurrency := Some 2; wq_priorityEnabled := true; wq_partitionQueue := true;
     wq_minPollingIntervalMs := Some 500; wq_databaseBacked := true |}.

Definition ex_version : string := default "" (ws_application_version ex_row).

Lemma findAndMark_claims_witness :
  exists d', findAndMarkStartableWorkflows ex_queue "exec-1" ex_version (Some "k") 0 2000 2000 ∅
               ex_queue_db = (Ok ["wf-2"], d')
    /\ workflow_status d' !! "wf-1" = workflow_status ex_queue_db !! "wf-1".
Proof.
  eexists. assert (forall d',
    findAndMarkStartableWorkflows ex_queue "exec-1" ex_version (Some "k") 0 2000 2000 ∅ ex_queue_db
      = (Ok ["wf-2"], d') ->
    findAndMarkStartableWorkflows ex_queue "exec-1" ex_version (Some "k") 0 2000 2000 ∅ ex_queue_db
      = (Ok ["wf-2"], d')
    /\ workflow_status d' !! "wf-1" = workflow_status ex_queue_db !! "wf-1") as H.
  { intros d' Hrun. split; [exact Hrun|].
    pose proof (findAndMark_claims ex_queue "exec-1" ex_version (Some "k") 0 2000 2000 ∅ ex_queue_db
      ex_queue_db_ok) as H. rewrite Hrun in H. destruct H as (_ & _ & _ & H & _).
    apply H. intros Hc. apply list_elem_of_singleton in Hc. discriminate Hc. }
  apply H. vm_compute. reflexivity.
Defined.

Lemma findAndMark_limits_witness :
  exists d', findAndMarkStartableWorkflows ex_queue "exec-1" ex_version (Some "k") 0 2000 2000 ∅
               ex_queue_db = (Ok ["wf-2"], d')
    /\ count_where (fun _ => running_on "jobs" (Some "k")) (workflow_status d') <= 2.
Proof.
  eexists. assert (forall d',
    findAndMarkStartableWorkflows ex_queue "exec-1" ex_version (Some "k") 0 2000 2000 ∅ ex_queue_db
      = (Ok ["wf-2"], d') ->
    findAndMarkStartableWorkflows ex_queue "exec-1" ex_version (Some "k") 0 2000 2000 ∅ ex_queue_db
      = (Ok ["wf-2"], d')
    /\ count_where (fun _ => running_on "jobs" (Some "k")) (workflow_status d') <= 2) as H.
  { intros d' Hrun. split; [exact Hrun|].
    exact (proj1 (findAndMark_limits ex_queue "exec-1" ex_version (Some "k") 0 2000 2000 ∅
      ex_queue_db ["wf-2"] d' ex_queue_db_ok Hrun) 2 eq_refl). }
  apply H. vm_compute. reflexivity.
Defined.

Definition no_locks : gset string := ∅.

Lemma concurrent_polls_witness :
  (findAndMarkStartableWorkflows ex_queue "exec-2" ex_version (Some "k") 0 2001 2001 {[ "wf-2" ]}
     ex_queue_db).1 = Throw (DatabaseError "55P03").
Proof.
  set (rows := candidates (wq_name ex_queue) ex_version (Some "k") ex_queue_db).
  pose proof (concurrent_polls ex_queue "exec-1" "exec-2" ex_version ex_version (Some "k") (Some "k")
    0 0 2000 2001 2000 2001 no_locks {[ "wf-2" ]} ex_queue_db ex_queue_db rows rows ["wf-2"]
    (claim_selection ex_queue "exec-1" ex_version (Some "k") 0 2000 2000 no_locks rows ex_queue_db).2
    ex_queue_db_ok ex_queue_db_ok (candidates_selection _ _ _ _) (candidates_selection _ _ _ _)
    ltac:(vm_compute; reflexivity)) as H.
  unfold findAndMarkStartableWorkflows, transaction. fold rows.
  destruct (claim_selection ex_queue "exec-2" _ _ _ _ _ _ _ _) as [[cb|e] db] eqn:E;
    [vm_compute in E; discriminate E|].
  destruct H as [He _]; [|by rewrite He].
  intros id Hid. apply list_elem_of_singleton in Hid as ->. by apply elem_of_singleton.
Defined.

(** A workflow of another version waits in the same queue.  Overlapping polls of executors of the
    two versions lock different rows and both claim: with the one that runs there are three, and the
    limit is two. *)
Example versions_exceed_concurrency :
  let q := ex_queue in
  let d := ex_queue_db <| workflow_status ::=
             alter (fun r => r <| ws_application_version := Some "v-next" |>) "wf-1" |> in
  (findAndMarkStartableWorkflows q "exec-1" ex_version (Some "k") 0 2000 2000 ∅ d).1 = Ok ["wf-2"]
  /\ (findAndMarkStartableWorkflows q "exec-2" "v-next" (Some "k") 0 2001 2001 {[ "wf-2" ]} d).1
     = Ok ["wf-1"].
Proof. split; vm_compute; reflexivity. Qed.

(** Without a concurrency limit the snapshot is not protected: two overlapping polls of a
    queue that may start one workflow per period both start one. *)
Example rate_limit_write_skew :
  let q := ex_queue <| wq_concurrency := None |> <| wq_rateLimit := Some (QueueRateLimitOf 1 1000) |> in
  (findAndMarkStartableWorkflows q "exec-1" ex_version (Some "k") 0 2000 2000 ∅ ex_queue_db).1
    = Ok ["wf-2"]
  /\ (findAndMarkStartableWorkflows q "exec-2" ex_version (Some "k") 0 2001 2001 {[ "wf-2" ]}
        ex_queue_db).1 = Ok ["wf-1"].
Proof. split; vm_compute; reflexivity. Qed.

Lemma queue_registration_roundtrip_witness :
  getQueue "mail" (upsertQueue 50 (recordFromParams "mail"
    (QueueParametersOf (Some 1) (Some 3) None (Some true) None None)) true ex_queue_db).2
  = Some (recordFromParams "mail" (QueueParametersOf (Some 1) (Some 3) None (Some true) None None)).
Proof.
  exact (proj1 (proj2 (proj2 (queue_registration_roundtrip 50 "mail"
    (QueueParametersOf (Some 1) (Some 3) None (Some true) None None) true ex_queue_db eq_refl)))).
Defined.

Lemma queue_setters_coherent_witness :
  exists s', refreshFromDb (ex_queue, ex_queue_db) = (Ok tt, s') /\ coherent s'
    /\ coherent (setConcurrency 60 (Some 4) s').2.
Proof.
  eexists. assert (forall s', refreshFromDb (ex_queue, ex_queue_db) = (Ok tt, s') ->
    limits_valid s'.1 = true ->
    refreshFromDb (ex_queue, ex_queue_db) = (Ok tt, s') /\ coherent s'
    /\ coherent (setConcurrency 60 (Some 4) s').2) as H.
  { intros s' Hrun Hv. split; [exact Hrun|].
    destruct (queue_setters_coherent 60) as (Hc & _ & _ & _ & _ & _ & Hr).
    specialize (Hr ex_queue ex_queue_db eq_refl). rewrite Hrun in Hr. destruct Hr as [Hr _].
    split; [exact Hr|]. specialize (Hc (Some 4) s' Hr Hv).
    destruct (setConcurrency 60 (Some 4) s'). apply Hc. }
  apply H; vm_compute; reflexivity.
Defined.
