(* ===== verification/Schedules.v ===== *)
(** Schedules and application versions: the [Scheduling] and [Application Versions] sections of
    [SystemDatabase] (src/src/system_database.ts), and the scheduler that turns due times into
    enqueued workflows (src/src/scheduler/scheduler.ts, with [nextWakeupTime] of
    src/src/scheduler/crontab.ts).

    Times are epoch milliseconds.  Which times a cron expression matches is an argument here
    (Crontab.v translates it), and so are [toISOString], the serializer of the workflow
    arguments, and the collation of the database. *)

From Stdlib Require Import Ascii.
From S2P Require Export Management Crontab.

(** * Data *)

(** [WorkflowScheduleInternal] *)
Record WorkflowScheduleInternal : Type := WorkflowScheduleInternalOf {
  si_scheduleId : string;
  si_scheduleName : string;
  si_workflowName : string;
  si_workflowClassName : string;
  si_schedule : string;
  si_status : string;
  si_context : string;
  si_lastFiredAt : option string;
  si_automaticBackfill : bool;
  si_cronTimezone : option string;
  si_queueName : option string
}.

(** [WorkflowScheduleUpdate]: the fields that are given; a timezone or a queue can be given
    as null. *)
Record WorkflowScheduleUpdate : Type := WorkflowScheduleUpdateOf {
  su_schedule : option string;
  su_context : option string;
  su_automaticBackfill : option bool;
  su_cronTimezone : option (option string);
  su_queueName : option (option string)
}.

(** [VersionInfo] *)
Record VersionInfo : Type := VersionInfoOf {
  versionId : string;
  versionName : string;
  versionTimestamp : Z;
  createdAt : Z
}.

(** The filters of [listSchedules]: an absent filter is [None]. *)
Record ScheduleFilters : Type := ScheduleFiltersOf {
  sf_status : option (list string);
  sf_workflowName : option (list string);
  sf_scheduleNamePrefix : option (list string)
}.

(** * Schedules *)

Definition schedule_row (s : WorkflowScheduleInternal) : sched_row :=
  {| sc_schedule_id := si_scheduleId s;
     sc_workflow_name := si_workflowName s;
     sc_workflow_class_name := si_workflowClassName s;
     sc_schedule := si_schedule s;
     sc_status := si_status s;
     sc_context := si_context s;
     sc_last_fired_at := si_lastFiredAt s;
     sc_automatic_backfill := si_automaticBackfill s;
     sc_cron_timezone := si_cronTimezone s;
     sc_queue_name := si_queueName s |}.

Definition schedule_of_row (name : string) (r : sched_row) : WorkflowScheduleInternal :=
  {| si_scheduleId := sc_schedule_id r;
     si_scheduleName := name;
     si_workflowName := sc_workflow_name r;
     si_workflowClassName := sc_workflow_class_name r;
     si_schedule := sc_schedule r;
     si_status := sc_status r;
     si_context := sc_context r;
     si_lastFiredAt := sc_last_fired_at r;
     si_automaticBackfill := sc_automatic_backfill r;
     si_cronTimezone := sc_cron_timezone r;
     si_queueName := sc_queue_name r |}.

(** The schedule ID is the primary key, the name is unique. *)
Definition schedule_id_taken (id : string) (d : sysdb) : bool :=
  negb (bool_decide (select_where (fun _ r => bool_decide (sc_schedule_id r = id))
                       (workflow_schedules d) = [])).

Definition createSchedule (s : WorkflowScheduleInternal) : DB unit := fun d =>
  if bool_decide (is_Some (workflow_schedules d !! si_scheduleName s))
     || schedule_id_taken (si_scheduleId s) d
  then (Throw (JsError ("Schedule '" +:+ si_scheduleName s +:+ "' already exists")), d)
  else (Ok tt, d <| workflow_schedules ::= <[si_scheduleName s := schedule_row s]> |>).

Definition getSchedule (name : string) (d : sysdb) : option WorkflowScheduleInternal :=
  schedule_of_row name <$> workflow_schedules d !! name.

(** SQL's LIKE: [%] is any text, [_] any character, a backslash escapes. *)
Fixpoint sql_like (pattern s : string) : bool :=
  match pattern with
  | "" => bool_decide (s = "")
  | String "%" rest =>
      (fix any (s : string) : bool :=
         sql_like rest s || match s with "" => false | String _ s' => any s' end) s
  | String "_" rest => match s with String _ s' => sql_like rest s' | "" => false end
  | String "\" (String c rest) | String c rest =>
      match s with String x s' => bool_decide (x = c) && sql_like rest s' | "" => false end
  end.

Definition schedule_matches (f : ScheduleFilters) (name : string) (r : sched_row) : bool :=
  match sf_status f with Some vs => mem (sc_status r) vs | None => true end
  && match sf_workflowName f with Some vs => mem (sc_workflow_name r) vs | None => true end
  && match sf_scheduleNamePrefix f with
     | Some ps => existsb (fun p => sql_like (p +:+ "%") name) ps
     | None => true
     end.

(** [listSchedules]; [name_le] is the collation of [ORDER BY schedule_name]. *)
Definition listSchedules (name_le : string -> string -> bool) (f : ScheduleFilters) (d : sysdb)
    : list WorkflowScheduleInternal :=
  (fun kr => schedule_of_row kr.1 kr.2)
  <$> order_by (fun a b => name_le a.1 b.1)
        (select_where (schedule_matches f) (workflow_schedules d)).

Definition deleteSchedule (name : string) : DB unit := fun d =>
  (Ok tt, d <| workflow_schedules ::= delete name |>).

Definition setScheduleStatus (name status : string) : DB unit := fun d =>
  (Ok tt, d <| workflow_schedules ::= alter (fun r => r <| sc_status := status |>) name |>).

(** The SET clause of [updateSchedule] *)
Definition apply_schedule_update (u : WorkflowScheduleUpdate) (r : sched_row) : sched_row :=
  r <| sc_schedule := default (sc_schedule r) (su_schedule u) |>
    <| sc_context := default (sc_context r) (su_context u) |>
    <| sc_automatic_backfill := default (sc_automatic_backfill r) (su_automaticBackfill u) |>
    <| sc_cron_timezone := default (sc_cron_timezone r) (su_cronTimezone u) |>
    <| sc_queue_name := default (sc_queue_name r) (su_queueName u) |>.

(** [updateSchedule]: with no field given it only looks the schedule up, which is the same as
    an update that changes nothing. *)
Definition updateSchedule (name : string) (u : WorkflowScheduleUpdate) : DB unit := fun d =>
  match workflow_schedules d !! name with
  | None => (Throw (DBOSError ("Schedule '" +:+ name +:+ "' not found")), d)
  | Some _ => (Ok tt, d <| workflow_schedules ::= alter (apply_schedule_update u) name |>)
  end.

Definition updateLastFiredAt (name lastFiredAt : string) : DB unit := fun d =>
  (Ok tt, d <| workflow_schedules ::=
                 alter (fun r => r <| sc_last_fired_at := Some lastFiredAt |>) name |>).

(** [ON CONFLICT (schedule_name) DO UPDATE SET ...] *)
Definition reapply (s : WorkflowScheduleInternal) (old : sched_row) : sched_row :=
  schedule_row s <| sc_schedule_id := sc_schedule_id old |>
                 <| sc_status := sc_status old |>
                 <| sc_last_fired_at := sc_last_fired_at old |>.

Definition apply_schedule (s : WorkflowScheduleInternal) : DB unit := fun d =>
  match workflow_schedules d !! si_scheduleName s with
  | Some old => (Ok tt, d <| workflow_schedules ::= <[si_scheduleName s := reapply s old]> |>)
  | None =>
      if schedule_id_taken (si_scheduleId s) d then (Throw unique_violation, d)
      else (Ok tt, d <| workflow_schedules ::= <[si_scheduleName s := schedule_row s]> |>)
  end.

Fixpoint apply_all (schedules : list WorkflowScheduleInternal) : DB unit :=
  match schedules with
  | [] => ret tt
  | s :: rest => apply_schedule s ;* apply_all rest
  end.

(** [applySchedules] *)
Definition applySchedules (schedules : list WorkflowScheduleInternal) : DB unit :=
  transaction (apply_all schedules).

(** * Application versions *)

(** [createApplicationVersion]; [nowMs] is SQL's [now()]. *)
Definition createApplicationVersion (randomUUID name : string) (nowMs : Z) : DB unit := fun d =>
  match application_versions d !! name with
  | Some _ => (Ok tt, d)
  | None => (Ok tt, d <| application_versions ::= <[name := VersionRow randomUUID nowMs nowMs]> |>)
  end.

Definition updateApplicationVersionTimestamp (name : string) (newTimestamp : Z) : DB unit := fun d =>
  (Ok tt, d <| application_versions ::=
                 alter (fun r => r <| av_version_timestamp := newTimestamp |>) name |>).

Definition version_info (kr : string * version_row) : VersionInfo :=
  {| versionId := av_version_id kr.2; versionName := kr.1;
     versionTimestamp := av_version_timestamp kr.2; createdAt := av_created_at kr.2 |}.

Definition listApplicationVersions (d : sysdb) : list VersionInfo :=
  version_info <$> order_by (fun a b => av_version_timestamp b.2 <=? av_version_timestamp a.2)
                     (map_to_list (application_versions d)).

Definition getLatestApplicationVersion : DB VersionInfo := fun d =>
  match head (listApplicationVersions d) with
  | Some v => (Ok v, d)
  | None => (Throw (DBOSInitializationError "No application versions found"), d)
  end.

(** * Lemmas and properties *)

(** What applying a list of schedules leaves under a name: the last definition of the list,
    with the identity and the run time state of the row that was there. *)
Definition applied (ss : list WorkflowScheduleInternal) (t : gmap string sched_row) (name : string)
    : option sched_row :=
  foldl (fun row s =>
    if bool_decide (si_scheduleName s = name)
    then Some match row with Some old => reapply s old | None => schedule_row s end
    else row) (t !! name) ss.

Lemma apply_schedule_ok s d d' :
  apply_schedule s d = (Ok tt, d') ->
  d' = d <| workflow_schedules ::= <[si_scheduleName s :=
         match workflow_schedules d !! si_scheduleName s with
         | Some old => reapply s old
         | None => schedule_row s
         end]> |>.
Proof. unfold apply_schedule. intros H. repeat case_match; by simplify_eq. Qed.

Lemma applied_cons s ss t name :
  applied (s :: ss) t name
  = applied ss (<[si_scheduleName s := match t !! si_scheduleName s with
                                       | Some old => reapply s old
                                       | None => schedule_row s
                                       end]> t) name.
Proof.
  unfold applied. cbn [foldl]. f_equal.
  case_bool_decide as E; [subst; by rewrite lookup_insert_eq | by rewrite lookup_insert_ne].
Qed.

Lemma apply_all_ok ss d d' :
  apply_all ss d = (Ok tt, d') ->
  d' = d <| workflow_schedules := workflow_schedules d' |>
  /\ forall name, workflow_schedules d' !! name = applied ss (workflow_schedules d) name.
Proof.
  revert d. induction ss as [|s ss IH]; intros d H.
  - injection H as <-. split; [by destruct d | done].
  - cbn [apply_all] in H. apply bind_inv_ok in H as ([] & d1 & H1 & H2).
    apply apply_schedule_ok in H1. apply IH in H2 as [Hd Hl]. split.
    + rewrite Hd, H1. by destruct d.
    + intros name. rewrite Hl, applied_cons, H1. done.
Qed.

Lemma reapply_reapply s old : reapply s (reapply s old) = reapply s old.
Proof. done. Qed.

Lemma reapply_new s : reapply s (schedule_row s) = schedule_row s.
Proof. done. Qed.

(** With the schedules already in place, applying them again changes nothing. *)
Lemma apply_all_again ss d :
  (forall s, s ∈ ss -> exists row, workflow_schedules d !! si_scheduleName s = Some row
                                    /\ reapply s row = row) ->
  apply_all ss d = (Ok tt, d).
Proof.
  induction ss as [|s ss IH]; intros H; [done|]. cbn [apply_all].
  destruct (H s ltac:(set_solver)) as (row & Hrow & Hre).
  rewrite (bind_ok _ _ _ tt d); [apply IH; set_solver|].
  unfold apply_schedule. rewrite Hrow, Hre. f_equal. destruct d; simpl in *. f_equal.
  by apply insert_id.
Qed.

Lemma applied_in ss t s :
  NoDup (si_scheduleName <$> ss) -> s ∈ ss ->
  applied ss t (si_scheduleName s)
  = Some match t !! si_scheduleName s with Some old => reapply s old | None => schedule_row s end.
Proof.
  intros Hnd Hin. revert t. induction ss as [|x ss IH]; intros t; [by apply elem_of_nil in Hin|].
  rewrite fmap_cons in Hnd. apply NoDup_cons in Hnd as [Hx Hnd]. rewrite applied_cons.
  assert (forall l t, si_scheduleName s ∉ (si_scheduleName <$> l) ->
            applied l t (si_scheduleName s) = t !! si_scheduleName s) as Hout.
  { clear. induction l as [|y l IHl]; intros t Hy; [done|]. rewrite applied_cons, IHl by set_solver.
    apply lookup_insert_ne. set_solver. }
  apply elem_of_cons in Hin as [<-|Hin].
  - rewrite Hout by done. by rewrite lookup_insert_eq.
  - rewrite (IH Hnd Hin), lookup_insert_ne; [done|]. intros Heq. apply Hx. rewrite Heq.
    by apply list_elem_of_fmap_2.
Qed.

Lemma applied_out ss t name : name ∉ (si_scheduleName <$> ss) -> applied ss t name = t !! name.
Proof.
  revert t. induction ss as [|s ss IH]; intros t Hn; [done|].
  rewrite applied_cons, IH by set_solver. apply lookup_insert_ne. set_solver.
Qed.

(** [applySchedules] is declarative and atomic.  When it succeeds, each given schedule is
    stored as given, under the schedule ID, the status and the last firing time it had before if
    it was there; the other schedules and the other tables are untouched, and applying the same
    schedules again changes nothing.  When it fails, nothing has changed. *)
Theorem applySchedules_declarative ss d :
  NoDup (si_scheduleName <$> ss) ->
  match applySchedules ss d with
  | (Throw _, d') => d' = d
  | (Ok _, d') =>
      d' = d <| workflow_schedules := workflow_schedules d' |>
      /\ (forall s, s ∈ ss -> workflow_schedules d' !! si_scheduleName s
            = Some match workflow_schedules d !! si_scheduleName s with
                   | Some old => reapply s old
                   | None => schedule_row s
                   end)
      /\ (forall name, name ∉ (si_scheduleName <$> ss) ->
            workflow_schedules d' !! name = workflow_schedules d !! name)
      /\ applySchedules ss d' = (Ok tt, d')
  end.
Proof.
  intros Hnd. destruct (applySchedules ss d) as [[[]|e] d'] eqn:E;
    [|by apply transaction_throw in E].
  apply transaction_ok, apply_all_ok in E as [Hd Hl].
  assert (forall s, s ∈ ss -> workflow_schedules d' !! si_scheduleName s
            = Some match workflow_schedules d !! si_scheduleName s with
                   | Some old => reapply s old
                   | None => schedule_row s
                   end) as Hin by (intros s Hs; by rewrite Hl, applied_in).
  split; [done|]. split; [done|]. split; [intros name Hn; by rewrite Hl, applied_out|].
  unfold applySchedules, transaction. rewrite apply_all_again; [done|].
  intros s Hs. eexists. split; [by apply Hin|]. by destruct (_ !! _).
Qed.

Definition ex_schedule (name cron : string) : WorkflowScheduleInternal :=
  WorkflowScheduleInternalOf ("id-" +:+ name) name "job" "" cron "ACTIVE" "null" None false None None.

Lemma applySchedules_declarative_witness :
  match applySchedules [ex_schedule "a" "* * * * *"; ex_schedule "b" "0 * * * *"] empty_db with
  | (Ok _, d') => is_Some (workflow_schedules d' !! "b")
  | _ => False
  end.
Proof.
  pose proof (applySchedules_declarative
    [ex_schedule "a" "* * * * *"; ex_schedule "b" "0 * * * *"] empty_db) as H.
  destruct H as (_ & Hin & _).
  - vm_compute. repeat constructor; set_solver.
  - pose proof (Hin (ex_schedule "b" "0 * * * *") ltac:(set_solver)) as Hb. vm_compute. eauto.
Defined.
