(* ===== verification/Scheduler.v ===== *)
(** The scheduler (src/src/scheduler/scheduler.ts): enqueueing the workflow of a due time,
    triggering and backfilling a schedule, the loop that fires one schedule, and the polling
    loop that keeps the running loops in step with the stored schedules.

    Times are epoch milliseconds.  The fields of a date in a time zone, [toISOString], the
    parsing of a stored date and the serializer of the application are parameters.  The loops
    are given by their rounds; what a round reads from a clock is an argument. *)

From Stdlib Require Import Ascii.
From S2P Require Export Schedules.

(** A double quote *)
Definition quote : string := String "034"%char "".

Section scheduler.
Context {C : Type}
        (date_fields : option string -> option (Z -> DateFields))
        (toISOString : Z -> string)
        (parse : string -> dbos_error + C)
        (stringifyArgs : Z -> C -> dbos_error + string)
        (serializerName : string).

Definition lift {A} (r : dbos_error + A) : DB A :=
  match r with inl e => throw e | inr a => ret a end.

(** * Due times *)

(** [new TimeMatcher(pattern, timezone)], as the instants it matches; an empty time zone is the
    local one. *)
Definition time_matcher (pattern : string) (timezone : option string) : dbos_error + (Z -> bool) :=
  match newTimeMatcher pattern with
  | inl e => inl e
  | inr expressions =>
      match date_fields (truthy_str timezone) with
      | None => inl (JsError "Invalid time zone specified")
      | Some fields => inr (fun t => time_matches expressions (fields t))
      end
  end.

(** The ID of the workflow of a due time *)
Definition scheduled_id (name : string) (t : Z) : string :=
  "sched-" +:+ name +:+ "-" +:+ toISOString t.

(** * Enqueueing *)

Definition scheduled_status (now : Z) (sched : WorkflowScheduleInternal) (workflowID version : string)
    (input : string) : WorkflowStatusInternal :=
  {| i_workflowUUID := workflowID;
     i_status := ENQUEUED;
     i_workflowName := si_workflowName sched;
     i_workflowClassName := si_workflowClassName sched;
     i_workflowConfigName := "";
     i_queueName := Some (default INTERNAL_QUEUE_NAME (truthy_str (si_queueName sched)));
     i_authenticatedUser := "";
     i_output := None;
     i_error := None;
     i_input := Some input;
     i_assumedRole := "";
     i_authenticatedRoles := [];
     i_request := JObj [];
     i_executorId := Some "";
     i_applicationVersion := Some version;
     i_applicationID := "";
     i_createdAt := now;
     i_updatedAt := None;
     i_recoveryAttempts := None;
     i_timeoutMS := None;
     i_deadlineEpochMS := None;
     i_deduplicationID := None;
     i_priority := 0;
     i_queuePartitionKey := None;
     i_startedAtEpochMs := None;
     i_forkedFrom := None;
     i_wasForkedFrom := false;
     i_parentWorkflowID := None;
     i_serialization := Some serializerName;
     i_delayUntilEpochMS := None;
     i_completedAt := None;
     i_attributes := None;
     i_scheduleName := Some (si_scheduleName sched);
     i_debounceDeadlineEpochMS := None;
     i_isDebounced := false |}.

(** [enqueueScheduledWorkflow] *)
Definition enqueueScheduledWorkflow (now nowMs : Z) (sched : WorkflowScheduleInternal)
    (workflowID : string) (scheduledDate : Z) (context : C) : DB unit :=
  let* input := lift (stringifyArgs scheduledDate context) in
  let* latestVersion := getLatestApplicationVersion in
  let* _ := initWorkflowStatus now nowMs
              (scheduled_status now sched workflowID (versionName latestVersion) input)
              None false false None in
  ret tt.

Definition require_schedule (name : string) : DB WorkflowScheduleInternal := fun d =>
  match getSchedule name d with
  | Some sched => (Ok sched, d)
  | None => (Throw (DBOSError ("Schedule " +:+ quote +:+ name +:+ quote +:+ " not found")), d)
  end.

(** [triggerSchedule]; [date] is the [new Date()] in the ID. *)
Definition triggerSchedule (now nowMs date : Z) (name : string) : DB string :=
  let* sched := require_schedule name in
  let* context := lift (parse (si_context sched)) in
  let workflowID := "sched-" +:+ name +:+ "-trigger-" +:+ toISOString date in
  enqueueScheduledWorkflow now nowMs sched workflowID date context ;*
  ret workflowID.

(** * Backfilling *)

(** The loop of [backfillSchedule]; [clock] gives [Date.now()] and SQL's [now()] when a due time
    is enqueued. *)
Fixpoint backfill_loop (clock : Z -> Z * Z) (matches : Z -> bool) (sched : WorkflowScheduleInternal)
    (context : C) (end_ : Z) (fuel : nat) (current : Z) (workflowIDs : list string)
    : DB (list string) :=
  match fuel with
  | O => ret workflowIDs
  | S fuel' =>
      if current <? end_ then
        let next := nextWakeupTime matches current in
        if negb (matches next) then
          backfill_loop clock matches sched context end_ fuel' next workflowIDs
        else if end_ <=? next then ret workflowIDs
        else
          let workflowID := scheduled_id (si_scheduleName sched) next in
          enqueueScheduledWorkflow (clock next).1 (clock next).2 sched workflowID next context ;*
          backfill_loop clock matches sched context end_ fuel' next (workflowIDs ++ [workflowID])
      else ret workflowIDs
  end.

(** Every round moves on by a second at least. *)
Definition backfill_fuel (start end_ : Z) : nat := S (Z.to_nat ((end_ - start) / 1000 + 1)).

Definition backfillSchedule (clock : Z -> Z * Z) (name : string) (start end_ : Z) : DB (list string) :=
  let* sched := require_schedule name in
  let* context := lift (parse (si_context sched)) in
  let* matches := lift (time_matcher (si_schedule sched) (si_cronTimezone sched)) in
  backfill_loop clock matches sched context end_ (backfill_fuel start end_) start [].

(** * The loop of one schedule *)

(** The schedule the loop enqueues for: what it captured when it was started *)
Definition captured (sched : WorkflowScheduleInternal) : WorkflowScheduleInternal :=
  {| si_scheduleId := ""; si_scheduleName := si_scheduleName sched;
     si_workflowName := si_workflowName sched;
     si_workflowClassName := si_workflowClassName sched;
     si_schedule := si_schedule sched; si_status := "ACTIVE"; si_context := si_context sched;
     si_lastFiredAt := None; si_automaticBackfill := false;
     si_cronTimezone := si_cronTimezone sched; si_queueName := si_queueName sched |}.

(** The [try] of a due time: the idempotency check, the enqueueing, the firing time; an error
    is logged. *)
Definition fire (clock : Z -> Z * Z) (sched : WorkflowScheduleInternal) (t : Z) : DB unit :=
  let workflowID := scheduled_id (si_scheduleName sched) t in
  try_catch
    (let* existing := getWorkflowStatusValue workflowID in
     match existing with
     | Some _ => ret tt
     | None =>
         let* context := lift (parse (si_context sched)) in
         enqueueScheduledWorkflow (clock t).1 (clock t).2 sched workflowID t context ;*
         updateLastFiredAt (si_scheduleName sched) (toISOString t)
     end)
    (fun _ => ret tt).

(** A number of rounds of [#scheduleLoop] that end before the signal: each looks the next
    wakeup up from [lastExec], sleeps until then, fires it if it is a due time, and goes on from
    there. *)
Fixpoint schedule_rounds (clock : Z -> Z * Z) (matches : Z -> bool) (sched : WorkflowScheduleInternal)
    (rounds : nat) (lastExec : Z) : DB Z :=
  match rounds with
  | O => ret lastExec
  | S rounds' =>
      let nextExec := nextWakeupTime matches lastExec in
      when (matches nextExec) (fire clock sched nextExec) ;*
      schedule_rounds clock matches sched rounds' nextExec
  end.

(** [new Date().setMilliseconds(0)] *)
Definition whole_second (t : Z) : Z := t - t mod 1000.

(** [#scheduleLoop], started at [started] and aborted after [rounds] rounds *)
Definition scheduleLoop (clock : Z -> Z * Z) (sched : WorkflowScheduleInternal) (started : Z)
    (rounds : nat) : DB Z :=
  let* matches := lift (time_matcher (si_schedule sched) (si_cronTimezone sched)) in
  schedule_rounds clock matches (captured sched) rounds (whole_second started).

(** * Due times in an interval *)

(** The [n] whole seconds after [start], and those of them that are due times *)
Definition seconds (start n : Z) : list Z := (fun k => start + 1000 * k) <$> seqZ 1 n.
Definition occurrences (matches : Z -> bool) (start n : Z) : list Z :=
  List.filter matches (seconds start n).

Lemma elem_of_seconds start n t :
  t ∈ seconds start n <-> exists k, 1 <= k <= n /\ t = start + 1000 * k.
Proof.
  unfold seconds. rewrite list_elem_of_fmap. split; intros (k & H).
  - destruct H as [-> H]. apply elem_of_seqZ in H. exists k. split; [lia | done].
  - exists k. split; [apply H|]. apply elem_of_seqZ. lia.
Qed.

Lemma elem_of_occurrences matches start n t :
  t ∈ occurrences matches start n
  <-> (exists k, 1 <= k <= n /\ t = start + 1000 * k) /\ matches t = true.
Proof.
  unfold occurrences. by rewrite list_elem_of_In, filter_In, <- list_elem_of_In, elem_of_seconds.
Qed.

Lemma NoDup_occurrences matches start n : NoDup (occurrences matches start n).
Proof.
  apply NoDup_ListNoDup, List.NoDup_filter, NoDup_ListNoDup, NoDup_fmap_2_strong; [|apply NoDup_seqZ].
  lia.
Qed.

Lemma seconds_split start n k :
  0 <= k <= n -> seconds start n = seconds start k ++ seconds (start + 1000 * k) (n - k).
Proof.
  intros H. unfold seconds. replace n with (k + (n - k)) at 1 by lia.
  rewrite seqZ_app, fmap_app by lia. f_equal.
  rewrite <- (Z.add_comm k 1), <- fmap_add_seqZ, <- list_fmap_compose.
  apply list_fmap_ext. intros i x _. unfold compose. lia.
Qed.

Lemma occurrences_none matches start n :
  (forall j, 1 <= j <= n -> matches (start + 1000 * j) = false) -> occurrences matches start n = [].
Proof.
  intros H. destruct (occurrences matches start n) as [|t l] eqn:E; [done|].
  assert (t ∈ occurrences matches start n) as Hin by (rewrite E; set_solver).
  apply elem_of_occurrences in Hin as [(k & Hk & ->) Hm]. by rewrite H in Hm.
Qed.

(** The next wakeup is [k] seconds on, and the only due time up to there, if it is one. *)
Lemma next_wakeup matches start :
  exists k, 1 <= k <= 3599 /\ nextWakeupTime matches start = start + 1000 * k
  /\ forall n, occurrences matches start n
     = if k <=? n
       then (if matches (start + 1000 * k) then [start + 1000 * k] else [])
            ++ occurrences matches (start + 1000 * k) (n - k)
       else [].
Proof.
  assert (forall k n, 1 <= k -> (forall j, 1 <= j < k -> matches (start + 1000 * j) = false) ->
    occurrences matches start n
    = if k <=? n then (if matches (start + 1000 * k) then [start + 1000 * k] else [])
                      ++ occurrences matches (start + 1000 * k) (n - k) else []) as Hocc.
  { intros k n Hk Hb. destruct (Z.leb_spec k n).
    - unfold occurrences. rewrite (seconds_split _ n k), List.filter_app by lia. f_equal.
      rewrite (seconds_split _ k (k - 1)), List.filter_app by lia.
      change (List.filter matches (seconds start (k - 1)))
        with (occurrences matches start (k - 1)).
      rewrite occurrences_none by (intros j Hj; apply Hb; lia).
      replace (k - (k - 1)) with 1 by lia. unfold seconds. simpl.
      by replace (start + 1000 * (k - 1) + 1000 * (Z.of_nat 0 + 1)) with (start + 1000 * k) by lia.
    - apply occurrences_none. intros j Hj. apply Hb. lia. }
  destruct (wakeup_loop_spec matches 3599 start) as [(k & [Hk Hr] & Hm & Hb) | [Hr Hb]].
  - exists k. split; [lia|]. split; [exact Hr|]. intros n. apply Hocc; [lia | done].
  - exists 3599. split; [lia|]. split; [exact Hr|]. intros n. apply Hocc; [lia|].
    intros j Hj. apply Hb. lia.
Qed.

(** * Enqueueing *)

(** The row an enqueued workflow leaves: a workflow that another execution owns is not
    touched, one that was enqueued before only gets a new update time. *)
Definition enqueued_row (now : Z) (s : WorkflowStatusInternal) (old : option wf_row) : wf_row :=
  match old with
  | None => status_to_row now s None
  | Some r => match ws_owner_xid r with
              | Some _ => r
              | None => on_conflict_update 0 (status_to_row now s None) r
              end
  end.

(** A stored row the enqueueing accepts *)
Definition accepted (s : WorkflowStatusInternal) (r : wf_row) : Prop :=
  same_function s r /\ (ws_owner_xid r = None \/ ws_status r <> MAX_RECOVERY_ATTEMPTS_EXCEEDED).

Lemma set_workflow_status_id (d : sysdb) id r :
  workflow_status d !! id = Some r -> d <| workflow_status ::= <[id := r]> |> = d.
Proof. intros H. destruct d; simpl in *. f_equal. by apply insert_id. Qed.

Lemma init_enqueue now nowMs s d :
  dedup_unique (workflow_status d) -> i_deduplicationID s = None ->
  (forall r, workflow_status d !! i_workflowUUID s = Some r -> accepted s r) ->
  exists res, initWorkflowStatus now nowMs s None false false None d
    = (Ok res, d <| workflow_status ::=
                      <[i_workflowUUID s
                        := enqueued_row now s (workflow_status d !! i_workflowUUID s)]> |>).
Proof.
  intros Hu Hd Hold. destruct (workflow_status d !! i_workflowUUID s) as [old|] eqn:E.
  - destruct (Hold _ eq_refl) as [Hsame Hst]. cbn [enqueued_row].
    erewrite init_after_upsert;
      [|by rewrite (insertWorkflowStatus_exists _ _ _ _ _ _ E)|by apply on_conflict_same_function].
    destruct (ws_owner_xid old) eqn:Ex.
    + cbn iota. rewrite (set_workflow_status_id d _ old E). simpl. rewrite Ex. simpl.
      rewrite bool_decide_false by (destruct Hst; [congruence | done]). eauto.
    + simpl. rewrite Ex. simpl. eauto.
  - destruct (init_fresh_cases now nowMs s None None d Hu E ltac:(done)) as [[H _] | [_ ->]]; [|eauto].
    destruct H as (k & r & _ & Hc). by rewrite dedup_clash_none_l in Hc.
Qed.

Lemma enqueued_row_same now s old :
  (forall r, old = Some r -> same_function s r) -> same_function s (enqueued_row now s old).
Proof.
  intros H. destruct old as [r|]; [|apply status_to_row_same_function]. cbn [enqueued_row].
  destruct (ws_owner_xid r); [by apply H | by apply on_conflict_same_function, H].
Qed.

Lemma accepted_enqueued now s old :
  (forall r, old = Some r -> accepted s r) -> accepted s (enqueued_row now s old).
Proof.
  intros H. split; [apply enqueued_row_same; intros r Hr; by apply H|].
  destruct old as [r|]; [|by left]. cbn [enqueued_row]. destruct (H _ eq_refl) as [_ Hst].
  destruct (ws_owner_xid r) eqn:E; [destruct Hst; [congruence | by right] | by left].
Qed.

Lemma dedup_unique_enqueued d now s :
  dedup_unique (workflow_status d) -> i_deduplicationID s = None ->
  dedup_unique (<[i_workflowUUID s := enqueued_row now s (workflow_status d !! i_workflowUUID s)]>
                  (workflow_status d)).
Proof.
  intros Hu Hd. destruct (workflow_status d !! i_workflowUUID s) as [r|] eqn:E.
  - cbn [enqueued_row]. destruct (ws_owner_xid r); [by rewrite insert_id|].
    replace (<[_ := _]> _) with (update_where (fun k _ => bool_decide (k = i_workflowUUID s))
      (on_conflict_update 0 (status_to_row now s None)) (workflow_status d)).
    + apply dedup_unique_update; [|done]. intros x. by right.
    + apply map_eq. intros k. rewrite lookup_update_where.
      destruct (decide (k = i_workflowUUID s)) as [->|Hne].
      * rewrite lookup_insert_eq, E. simpl. by rewrite bool_decide_true.
      * rewrite lookup_insert_ne by done. rewrite bool_decide_false by done.
        by destruct (workflow_status d !! k).
  - apply dedup_unique_insert; [|done]. intros k r Hk Hne. by apply dedup_clash_none_l.
Qed.

Section enqueue.
Context (sched : WorkflowScheduleInternal) (context : C) (version : VersionInfo) (args : Z -> string).
Context (args_ok : forall t, stringifyArgs t context = inr (args t)).

(** The workflow of a due time, and the database once it is enqueued *)
Definition due_status (now : Z) (workflowID : string) (t : Z) : WorkflowStatusInternal :=
  scheduled_status now sched workflowID (versionName version) (args t).

Definition after_enqueue (now : Z) (workflowID : string) (t : Z) (d : sysdb) : sysdb :=
  d <| workflow_status ::=
         <[workflowID := enqueued_row now (due_status now workflowID t)
                           (workflow_status d !! workflowID)]> |>.

(** The rows the enqueueing of this schedule accepts: they are of its workflow. *)
Definition compatible (ids : string -> Prop) (d : sysdb) : Prop :=
  dedup_unique (workflow_status d)
  /\ getLatestApplicationVersion d = (Ok version, d)
  /\ forall id r, ids id -> workflow_status d !! id = Some r ->
     accepted (due_status 0 id 0) r.

Lemma enqueue_run now nowMs workflowID t d ids :
  compatible ids d -> ids workflowID ->
  enqueueScheduledWorkflow now nowMs sched workflowID t context d
  = (Ok tt, after_enqueue now workflowID t d).
Proof.
  intros (Hu & Hv & Hc) Hid. unfold enqueueScheduledWorkflow. rewrite args_ok.
  cbn [lift]. rewrite bind_ret_l. rewrite (bind_ok _ _ _ _ _ Hv).
  destruct (init_enqueue now nowMs (due_status now workflowID t) d Hu eq_refl) as [res Hres].
  - intros r Hr. exact (Hc _ _ Hid Hr).
  - by rewrite (bind_ok _ _ _ _ _ Hres).
Qed.

Lemma compatible_after_enqueue now workflowID t d ids :
  compatible ids d -> ids workflowID -> compatible ids (after_enqueue now workflowID t d).
Proof.
  intros (Hu & Hv & Hc) Hid. split; [|split].
  - by apply (dedup_unique_enqueued d now (due_status now workflowID t)).
  - unfold getLatestApplicationVersion, listApplicationVersions in *. simpl.
    destruct (head _); by simplify_eq.
  - intros id r Hin Hr. simpl in Hr. destruct (decide (id = workflowID)) as [->|Hne].
    + rewrite lookup_insert_eq in Hr. injection Hr as <-.
      apply (accepted_enqueued now (due_status now workflowID t)). intros r Hr. exact (Hc _ _ Hid Hr).
    + rewrite lookup_insert_ne in Hr by done. exact (Hc _ _ Hin Hr).
Qed.

(** Enqueueing a list of due times *)
Definition enqueue_all (clock : Z -> Z * Z) (ts : list Z) (d : sysdb) : sysdb :=
  foldl (fun d t => after_enqueue (clock t).1 (scheduled_id (si_scheduleName sched) t) t d) d ts.

Definition due_id (id : string) : Prop := exists t, id = scheduled_id (si_scheduleName sched) t.

(** The number of whole seconds after [current] and before [end_] *)
Definition seconds_before (current end_ : Z) : Z := (end_ - 1 - current) / 1000.

Lemma seconds_before_le current end_ k :
  k <= seconds_before current end_ <-> current + 1000 * k < end_.
Proof.
  unfold seconds_before. split; intros H.
  - pose proof (Z.mul_div_le (end_ - 1 - current) 1000). lia.
  - apply Z.div_le_lower_bound; lia.
Qed.

Lemma seconds_before_shift current end_ k :
  seconds_before (current + 1000 * k) end_ = seconds_before current end_ - k.
Proof.
  unfold seconds_before. replace (end_ - 1 - (current + 1000 * k))
    with (end_ - 1 - current + (- k) * 1000) by lia. rewrite Z.div_add by lia. lia.
Qed.

Lemma backfill_loop_run clock matches end_ fuel current ids d :
  compatible due_id d -> seconds_before current end_ < Z.of_nat fuel -> 0 < Z.of_nat fuel ->
  let ts := occurrences matches current (seconds_before current end_) in
  backfill_loop clock matches sched context end_ fuel current ids d
  = (Ok (ids ++ (scheduled_id (si_scheduleName sched) <$> ts)), enqueue_all clock ts d).
Proof.
  revert current ids d. induction fuel as [|fuel IH]; intros current ids d Hd Hfuel Hpos; [lia|].
  cbv zeta. cbn [backfill_loop]. destruct (Z.ltb_spec current end_) as [Hlt|Hge].
  2:{ rewrite occurrences_none; [by rewrite app_nil_r|]. intros j Hj.
      pose proof (proj1 (seconds_before_le current end_ j)). lia. }
  destruct (next_wakeup matches current) as (k & Hk & Hnext & Hocc). cbv zeta.
  rewrite Hnext, Hocc, <- seconds_before_shift.
  pose proof (seconds_before_le current end_ k) as Hle.
  destruct (matches (current + 1000 * k)) eqn:Em; cbn [negb].
  - destruct (Z.leb_spec end_ (current + 1000 * k)).
    { rewrite (proj2 (Z.leb_gt _ _)) by lia. by rewrite app_nil_r. }
    rewrite (proj2 (Z.leb_le _ _)) by lia.
    assert (due_id (scheduled_id (si_scheduleName sched) (current + 1000 * k))) as Hid by (by exists (current + 1000 * k)).
    rewrite (bind_ok _ _ _ _ _ (enqueue_run _ _ _ _ _ _ Hd Hid)).
    assert (seconds_before (current + 1000 * k) end_ < Z.of_nat fuel)
      by (rewrite seconds_before_shift; lia).
    assert (0 < Z.of_nat fuel) by lia.
    rewrite IH by (done || by apply compatible_after_enqueue). by rewrite <- app_assoc.
  - destruct fuel as [|fuel].
    { rewrite (proj2 (Z.leb_gt _ _)) by lia. by rewrite app_nil_r. }
    rewrite IH; [|done|rewrite seconds_before_shift; lia|lia].
    destruct (Z.leb_spec k (seconds_before current end_)); [done|].
    rewrite occurrences_none; [done|]. intros j Hj.
    rewrite seconds_before_shift in Hj. lia.
Qed.

Lemma scheduled_id_inj `{!Inj (=) (=) toISOString} name t t' :
  scheduled_id name t = scheduled_id name t' -> t = t'.
Proof. unfold scheduled_id. intros H. by repeat apply (inj _) in H. Qed.

Lemma enqueue_all_tables clock ts d :
  enqueue_all clock ts d = d <| workflow_status := workflow_status (enqueue_all clock ts d) |>.
Proof.
  unfold enqueue_all. revert d. induction ts as [|t ts IH]; intros d; [by destruct d|].
  cbn [foldl]. rewrite IH at 1. done.
Qed.

Lemma enqueue_all_other clock ts d id :
  id ∉ (scheduled_id (si_scheduleName sched) <$> ts) ->
  workflow_status (enqueue_all clock ts d) !! id = workflow_status d !! id.
Proof.
  unfold enqueue_all. revert d. induction ts as [|t ts IH]; intros d Hid; [done|].
  rewrite fmap_cons in Hid. cbn [foldl]. rewrite IH by set_solver. simpl.
  apply lookup_insert_ne. set_solver.
Qed.

Lemma enqueue_all_due `{!Inj (=) (=) toISOString} clock ts d t :
  NoDup ts -> t ∈ ts ->
  let id := scheduled_id (si_scheduleName sched) t in
  workflow_status (enqueue_all clock ts d) !! id
  = Some (enqueued_row (clock t).1 (due_status (clock t).1 id t) (workflow_status d !! id)).
Proof.
  cbv zeta. intros Hnd. revert d. induction Hnd as [|x ts Hx Hnd IH]; intros d Ht;
    [by apply elem_of_nil in Ht|].
  change (enqueue_all clock (x :: ts) d) with (enqueue_all clock ts
    (after_enqueue (clock x).1 (scheduled_id (si_scheduleName sched) x) x d)).
  apply elem_of_cons in Ht as [->|Ht].
  - rewrite enqueue_all_other; [by simpl; rewrite lookup_insert_eq|].
    intros Hin. apply list_elem_of_fmap in Hin as (y & Hy & Hin).
    apply scheduled_id_inj in Hy as ->. done.
  - rewrite (IH _ Ht). do 2 f_equal. simpl. apply lookup_insert_ne.
    intros Heq. apply scheduled_id_inj in Heq as ->. done.
Qed.

(** ** Firing *)

Definition after_fire (clock : Z -> Z * Z) (d : sysdb) (t : Z) : sysdb :=
  let id := scheduled_id (si_scheduleName sched) t in
  match workflow_status d !! id with
  | Some _ => d
  | None => after_enqueue (clock t).1 id t d
              <| workflow_schedules ::=
                   alter (fun r => r <| sc_last_fired_at := Some (toISOString t) |>)
                     (si_scheduleName sched) |>
  end.

Lemma compatible_after_fire clock d t :
  compatible due_id d -> compatible due_id (after_fire clock d t).
Proof.
  intros H. unfold after_fire. destruct (workflow_status d !! _); [done|].
  apply (compatible_after_enqueue (clock t).1
    (scheduled_id (si_scheduleName sched) t) t) in H; [|by exists t].
  destruct H as (Hu & Hv & Hc). split; [done|]. split; [|done].
  unfold getLatestApplicationVersion, listApplicationVersions in *. simpl in *.
  destruct (head _); by simplify_eq.
Qed.

Lemma fire_run clock t d :
  compatible due_id d -> parse (si_context sched) = inr context ->
  fire clock sched t d = (Ok tt, after_fire clock d t).
Proof.
  intros Hd Hp. unfold fire, after_fire, try_catch. rewrite Hp.
  unfold bind at 1, getWorkflowStatusValue at 1. cbn beta iota.
  destruct (workflow_status d !! _); [done|]. cbn [fmap option_fmap option_map lift].
  rewrite bind_ret_l.
  by rewrite (bind_ok _ _ _ _ _ (enqueue_run _ _ _ _ _ _ Hd (ex_intro _ t eq_refl))).
Qed.

Lemma after_fire_lookup `{!Inj (=) (=) toISOString} clock d t id :
  workflow_status (after_fire clock d t) !! id
  = if bool_decide (id = scheduled_id (si_scheduleName sched) t)
    then Some match workflow_status d !! id with
              | Some r => r
              | None => status_to_row (clock t).1 (due_status (clock t).1 id t) None
              end
    else workflow_status d !! id.
Proof.
  unfold after_fire. case_bool_decide as E.
  - subst. destruct (workflow_status d !! _) eqn:Er; [done|].
    simpl. rewrite lookup_insert_eq. by rewrite Er.
  - destruct (workflow_status d !! scheduled_id _ t); [done|]. simpl.
    by rewrite lookup_insert_ne.
Qed.

(** Firing a list of due times creates the workflows that are missing and touches no other. *)
Lemma fire_all_lookup `{!Inj (=) (=) toISOString} clock ts d id :
  NoDup ts ->
  (forall t, t ∈ ts -> id = scheduled_id (si_scheduleName sched) t ->
     workflow_status (foldl (after_fire clock) d ts) !! id
     = Some match workflow_status d !! id with
            | Some r => r
            | None => status_to_row (clock t).1 (due_status (clock t).1 id t) None
            end)
  /\ (id ∉ (scheduled_id (si_scheduleName sched) <$> ts) ->
      workflow_status (foldl (after_fire clock) d ts) !! id = workflow_status d !! id).
Proof.
  intros Hnd. revert d. induction Hnd as [|x ts Hx Hnd IH]; intros d;
    [split; [intros t Ht; by apply elem_of_nil in Ht | done]|].
  cbn [foldl]. destruct (IH (after_fire clock d x)) as [IH1 IH2]. clear IH. split.
  - intros t Ht Hid. apply elem_of_cons in Ht as [->|Ht].
    + rewrite IH2.
      * rewrite after_fire_lookup. by rewrite bool_decide_true.
      * rewrite Hid. intros Hin. apply list_elem_of_fmap in Hin as (y & Hy & Hin).
        apply scheduled_id_inj in Hy as ->. done.
    + rewrite (IH1 _ Ht Hid), after_fire_lookup, bool_decide_false; [done|].
      rewrite Hid. intros Heq. apply scheduled_id_inj in Heq as ->. done.
  - rewrite fmap_cons. intros Hn. rewrite IH2 by set_solver.
    rewrite after_fire_lookup, bool_decide_false; [done | set_solver].
Qed.

Lemma schedule_rounds_run clock matches rounds start d :
  compatible due_id d -> parse (si_context sched) = inr context ->
  exists n, Z.of_nat rounds <= n
  /\ schedule_rounds clock matches sched rounds start d
     = (Ok (start + 1000 * n), foldl (after_fire clock) d (occurrences matches start n)).
Proof.
  intros Hd Hp. revert start d Hd. induction rounds as [|rounds IH]; intros start d Hd.
  - exists 0. split; [lia|]. cbn [schedule_rounds]. rewrite occurrences_none by lia.
    by replace (start + 1000 * 0) with start by lia.
  - destruct (next_wakeup matches start) as (k & Hk & Hnext & Hocc).
    cbn [schedule_rounds]. cbv zeta. rewrite Hnext.
    pose proof (compatible_after_fire clock d (start + 1000 * k) Hd) as Hd'.
    destruct (matches (start + 1000 * k)) eqn:Em; cbn [when].
    + rewrite (bind_ok _ _ _ _ _ (fire_run clock _ _ Hd Hp)).
      destruct (IH (start + 1000 * k) _ Hd') as (n & Hn & ->). exists (k + n). split; [lia|].
      rewrite Hocc, (proj2 (Z.leb_le _ _)) by lia. replace (k + n - k) with n by lia.
      cbn [app foldl]. do 2 f_equal. lia.
    + rewrite bind_ret_l. destruct (IH (start + 1000 * k) _ Hd) as (n & Hn & ->).
      exists (k + n). split; [lia|].
      rewrite Hocc, (proj2 (Z.leb_le _ _)) by lia. replace (k + n - k) with n by lia.
      cbn [app]. do 2 f_equal. lia.
Qed.

(** What the two ways of firing need of the schedule: its context parses, its expression and
    its time zone are valid, and its workflows are of its function. *)
Definition runnable (matches : Z -> bool) (d : sysdb) : Prop :=
  parse (si_context sched) = inr context
  /\ time_matcher (si_schedule sched) (si_cronTimezone sched) = inr matches
  /\ compatible due_id d.

Lemma backfillSchedule_run clock matches start end_ d :
  getSchedule (si_scheduleName sched) d = Some sched -> runnable matches d ->
  let ts := occurrences matches start (seconds_before start end_) in
  backfillSchedule clock (si_scheduleName sched) start end_ d
  = (Ok (scheduled_id (si_scheduleName sched) <$> ts), enqueue_all clock ts d).
Proof.
  intros Hs (Hp & Hm & Hd). unfold backfillSchedule.
  assert (require_schedule (si_scheduleName sched) d = (Ok sched, d)) as Hr
    by (unfold require_schedule; by rewrite Hs).
  rewrite (bind_ok _ _ _ _ _ Hr), Hp. cbn [lift]. rewrite bind_ret_l, Hm. cbn [lift].
  rewrite bind_ret_l. rewrite backfill_loop_run; [done|done|..]; unfold backfill_fuel; [|lia].
  unfold seconds_before. assert ((end_ - 1 - start) / 1000 <= (end_ - start) / 1000)
    by (apply Z.div_le_mono; lia). lia.
Qed.

(** C10: A backfill enqueues exactly the due times strictly between its bounds, in order, and
    says so: each gets the workflow of the schedule under the ID made of the schedule's name and
    the time, a workflow that was already there stays as it was but for its update time, and
    nothing else in the database changes. *)
Theorem backfill_exact `{!Inj (=) (=) toISOString} clock matches start end_ d :
  getSchedule (si_scheduleName sched) d = Some sched -> runnable matches d ->
  exists ts d',
    backfillSchedule clock (si_scheduleName sched) start end_ d
    = (Ok (scheduled_id (si_scheduleName sched) <$> ts), d')
    /\ NoDup ts
    /\ (forall t, t ∈ ts <->
          (exists k, 1 <= k /\ t = start + 1000 * k) /\ t < end_ /\ matches t = true)
    /\ d' = d <| workflow_status := workflow_status d' |>
    /\ (forall t, t ∈ ts ->
          let id := scheduled_id (si_scheduleName sched) t in
          workflow_status d' !! id
          = Some (enqueued_row (clock t).1 (due_status (clock t).1 id t) (workflow_status d !! id)))
    /\ (forall id, id ∉ (scheduled_id (si_scheduleName sched) <$> ts) ->
          workflow_status d' !! id = workflow_status d !! id).
Proof.
  intros Hs Hr. eexists _, _. split; [by apply backfillSchedule_run|].
  split; [apply NoDup_occurrences|]. split.
  { intros t. rewrite elem_of_occurrences. pose proof (seconds_before_le start end_) as Hle. split.
    - intros [(k & Hk & ->) Hm]. split; [exists k; split; [lia|done]|]. split; [apply Hle; lia | done].
    - intros [(k & Hk & ->) [Hlt Hm]]. split; [|done]. exists k. split; [|done].
      split; [lia | by apply Hle]. }
  split; [apply enqueue_all_tables|]. split.
  - intros t Ht. apply enqueue_all_due; [apply NoDup_occurrences | done].
  - intros id Hid. by apply enqueue_all_other.
Qed.

End enqueue.

Section loop.
Context (sched : WorkflowScheduleInternal) (context : C) (version : VersionInfo) (args : Z -> string).
Context (args_ok : forall t, stringifyArgs t context = inr (args t)).

Lemma due_id_captured id : due_id sched id -> due_id (captured sched) id.
Proof. done. Qed.

Lemma compatible_captured d :
  compatible sched version args (due_id sched) d ->
  compatible (captured sched) version args (due_id (captured sched)) d.
Proof. done. Qed.

Lemma scheduleLoop_run clock matches started rounds d :
  runnable sched context version args matches d ->
  exists n, Z.of_nat rounds <= n
  /\ scheduleLoop clock sched started rounds d
     = (Ok (whole_second started + 1000 * n),
        foldl (after_fire (captured sched) version args clock) d
          (occurrences matches (whole_second started) n)).
Proof.
  intros (Hp & Hm & Hd). unfold scheduleLoop. rewrite Hm. cbn [lift]. rewrite bind_ret_l.
  by apply (schedule_rounds_run (captured sched) context version args args_ok).
Qed.

(** C20: The loop of a schedule fires every due time after the second it was started in, up to
    the time it has reached, once: each has its workflow, a workflow that was there is not
    touched, nor is any other.  It makes progress: every round moves it on by a second at
    least. *)
Theorem schedule_loop_exact `{!Inj (=) (=) toISOString} clock matches started rounds d :
  runnable sched context version args matches d ->
  exists last d', scheduleLoop clock sched started rounds d = (Ok last, d')
  /\ whole_second started + 1000 * Z.of_nat rounds <= last
  /\ forall id,
     (forall t, id = scheduled_id (si_scheduleName sched) t ->
        (exists k, 1 <= k /\ t = whole_second started + 1000 * k) -> t <= last ->
        matches t = true ->
        workflow_status d' !! id = Some match workflow_status d !! id with
          | Some r => r
          | None => status_to_row (clock t).1 (due_status (captured sched) version args (clock t).1 id t) None
          end)
     /\ ((forall t, id = scheduled_id (si_scheduleName sched) t ->
            whole_second started < t <= last -> matches t = false) ->
         workflow_status d' !! id = workflow_status d !! id).
Proof.
  intros Hr. destruct (scheduleLoop_run clock matches started rounds d Hr) as (n & Hn & Hrun).
  eexists _, _. split; [exact Hrun|]. split; [lia|]. intros id.
  destruct (fire_all_lookup (captured sched) context version args args_ok clock
    (occurrences matches (whole_second started) n) d id (NoDup_occurrences _ _ _)) as [H1 H2].
  split.
  - intros t Hid (k & Hk & Ht) Hle Hm. apply H1; [|done]. apply elem_of_occurrences.
    split; [|done]. exists k. split; [lia | done].
  - intros Hno. apply H2. intros Hin. apply list_elem_of_fmap in Hin as (t & Hid & Hin).
    apply elem_of_occurrences in Hin as [(k & Hk & ->) Hm].
    rewrite (Hno _ Hid) in Hm; [done | lia].
Qed.

Lemma compatible_enqueue_all clock ts d :
  compatible sched version args (due_id sched) d ->
  compatible sched version args (due_id sched) (enqueue_all sched version args clock ts d).
Proof.
  unfold enqueue_all. revert d. induction ts as [|t ts IH]; intros d Hd; [done|]. cbn [foldl].
  apply IH. apply (compatible_after_enqueue sched version args); [done|]. by exists t.
Qed.

(** After a restart with automatic backfill, a missed due time is enqueued by the backfill
    or by the loop, except in a gap: the backfill ends at its clock reading [now], the loop begins
    after the second of its own later reading [started], and a due time between the two that was
    not enqueued before is enqueued by neither. *)
Theorem restart_gap `{!Inj (=) (=) toISOString} clock clock' matches last now started rounds d :
  getSchedule (si_scheduleName sched) d = Some sched ->
  runnable sched context version args matches d ->
  last mod 1000 = 0 -> last < now -> now <= started ->
  exists ids d1 lastExec d2,
    backfillSchedule clock (si_scheduleName sched) last now d = (Ok ids, d1)
    /\ scheduleLoop clock' sched started rounds d1 = (Ok lastExec, d2)
    /\ forall t, last < t <= lastExec -> t mod 1000 = 0 -> matches t = true ->
       workflow_status d !! scheduled_id (si_scheduleName sched) t = None ->
       is_Some (workflow_status d2 !! scheduled_id (si_scheduleName sched) t)
       <-> ~ (now <= t <= whole_second started).
Proof.
  intros Hs Hr Hlast Hlt Hle.
  pose proof (backfillSchedule_run sched context version args args_ok clock matches last now d Hs Hr)
    as Hb. cbv zeta in Hb.
  set (ts := occurrences matches last (seconds_before last now)) in *.
  set (d1 := enqueue_all sched version args clock ts d) in *.
  assert (runnable sched context version args matches d1) as Hr1
    by (destruct Hr as (? & ? & ?); split_and!; [done..|]; by apply compatible_enqueue_all).
  destruct (scheduleLoop_run clock' matches started rounds d1 Hr1) as (n & Hn & Hrun).
  eexists _, d1, _, _. split; [exact Hb|]. split; [exact Hrun|].
  intros t Ht Hmod Hm Hnone.
  assert (whole_second started mod 1000 = 0) as Hws
    by (unfold whole_second; rewrite Zminus_mod_idemp_r, Z.sub_diag; done).
  assert (forall a, a mod 1000 = 0 -> exists k, t = a + 1000 * k) as Hgrid.
  { intros a Ha. exists (t / 1000 - a / 1000).
    pose proof (Z.div_mod t 1000). pose proof (Z.div_mod a 1000). lia. }
  assert (whole_second started <= started < whole_second started + 1000) as Hsec
    by (unfold whole_second; pose proof (Z.mod_pos_bound started 1000); lia).
  assert (t ∈ ts <-> t < now) as Hts.
  { subst ts. rewrite elem_of_occurrences. destruct (Hgrid last Hlast) as [k Hk].
    pose proof (seconds_before_le last now k). split.
    - intros [(j & Hj & Hj') _]. assert (j = k) as -> by lia. lia.
    - intros Hnow. split; [|done]. exists k. split; lia. }
  assert (t ∈ occurrences matches (whole_second started) n <-> whole_second started < t) as Hloop.
  { rewrite elem_of_occurrences. destruct (Hgrid _ Hws) as [k Hk]. split.
    - intros [(j & Hj & Hj') _]. lia.
    - intros Hgt. split; [|done]. exists k. split; lia. }
  set (id := scheduled_id (si_scheduleName sched) t) in *.
  destruct (fire_all_lookup (captured sched) context version args args_ok clock'
    (occurrences matches (whole_second started) n) d1 id (NoDup_occurrences _ _ _)) as [Hin Hout].
  destruct (decide (whole_second started < t)) as [Hafter|Hbefore].
  - rewrite (Hin t); [|tauto|done]. split; [lia|by eexists].
  - rewrite Hout.
    2:{ intros Hc. apply list_elem_of_fmap in Hc as (u & Hu & Hc). apply scheduled_id_inj in Hu as <-.
        tauto. }
    destruct (decide (t < now)) as [Hnow|Hnow].
    + pose proof (enqueue_all_due sched context version args args_ok clock ts d t (NoDup_occurrences _ _ _)
        (proj2 Hts Hnow)) as Hdue. cbv zeta in Hdue. subst d1 id. rewrite Hdue.
      split; [lia | by eexists].
    + subst d1. rewrite (enqueue_all_other sched context version args args_ok).
      * rewrite Hnone. split; [by intros [] | lia].
      * intros Hc. apply list_elem_of_fmap in Hc as (u & Hu & Hc). apply scheduled_id_inj in Hu as <-.
        tauto.
Qed.

End loop.

(** * The polling loop *)

Section polling.
Context (parseDate : string -> Z).

(** [scheduleSignature]: the JSON text of these fields *)
Definition signature : Type := string * string * string * string * option string * option string.

Definition scheduleSignature (s : WorkflowScheduleInternal) : signature :=
  (si_workflowName s, si_workflowClassName s, si_schedule s, si_context s, si_cronTimezone s,
   si_queueName s).

(** The running loops, by schedule name; an aborted loop is no longer in the map. *)
Notation loops := (gmap string signature).

(** [pollTimeout] *)
Definition pollTimeout (pollingIntervalMs startupDeadline now : Z) : Z :=
  if now <? startupDeadline then Z.min 1000 pollingIntervalMs else pollingIntervalMs.

(** The backfill before a loop is started; an error is logged. *)
Definition auto_backfill (clock : Z -> Z * Z) (now : Z) (sched : WorkflowScheduleInternal)
    : DB unit :=
  match si_automaticBackfill sched, truthy_str (si_lastFiredAt sched) with
  | true, Some last =>
      when (parseDate last <? now)
        (try_catch (backfillSchedule clock (si_scheduleName sched) (parseDate last) now ;* ret tt)
           (fun _ => ret tt))
  | _, _ => ret tt
  end.

(** One schedule in a round of the polling loop; [now] is the [new Date()] of the backfill. *)
Definition poll_schedule (clock : Z -> Z * Z) (now : Z) (sched : WorkflowScheduleInternal)
    (running : loops) : DB loops :=
  let name := si_scheduleName sched in
  if bool_decide (si_status sched = "PAUSED") && bool_decide (is_Some (running !! name)) then
    ret (delete name running)
  else if bool_decide (si_status sched = "ACTIVE") then
    let running :=
      match running !! name with
      | Some sig => if bool_decide (sig = scheduleSignature sched) then running
                    else delete name running
      | None => running
      end in
    if bool_decide (is_Some (running !! name)) then ret running
    else
      auto_backfill clock now sched ;*
      ret (<[name := scheduleSignature sched]> running)
  else ret running.

(** [now] is read anew for each schedule. *)
Fixpoint poll_schedules (clock : Z -> Z * Z) (now : string -> Z) (schedules : list WorkflowScheduleInternal)
    (running : loops) : DB loops :=
  match schedules with
  | [] => ret running
  | s :: rest => let* running := poll_schedule clock (now (si_scheduleName s)) s running in
                 poll_schedules clock now rest running
  end.

(** One round of [#pollingLoop]: loops of deleted schedules stop, then every stored schedule is
    processed. *)
Definition poll_round (name_le : string -> string -> bool) (clock : Z -> Z * Z) (now : string -> Z)
    (running : loops) : DB loops := fun d =>
  let schedules := listSchedules name_le (ScheduleFiltersOf None None None) d in
  let currentNames := si_scheduleName <$> schedules in
  poll_schedules clock now schedules (filter (fun kv => kv.1 ∈ currentNames) running) d.

(** The running loops once one schedule is processed *)
Definition polled (s : WorkflowScheduleInternal) (running : loops) : loops :=
  if bool_decide (si_status s = "ACTIVE")
  then <[si_scheduleName s := scheduleSignature s]> running
  else if bool_decide (si_status s = "PAUSED") then delete (si_scheduleName s) running
  else running.

Lemma auto_backfill_ok clock now s d : exists d', auto_backfill clock now s d = (Ok tt, d').
Proof.
  unfold auto_backfill. destruct (si_automaticBackfill s); [|by eexists].
  destruct (truthy_str _) as [last|]; [|by eexists]. unfold when.
  destruct (parseDate last <? now); [|by eexists].
  unfold try_catch. destruct (bind _ _ d) as [[[]|e] d'] eqn:E; by eexists.
Qed.

Lemma poll_schedule_run clock now s running d :
  exists d', poll_schedule clock now s running d = (Ok (polled s running), d').
Proof.
  unfold poll_schedule, polled.
  destruct (decide (si_status s = "PAUSED")) as [Hp|Hp].
  - rewrite (bool_decide_true _ Hp), (bool_decide_false (si_status s = "ACTIVE")) by congruence.
    cbn [andb]. case_bool_decide as Hr; [by eexists|]. eexists.
    rewrite delete_id; [done|]. by apply eq_None_not_Some.
  - rewrite (bool_decide_false _ Hp). cbn [andb].
    case_bool_decide as Ha; [|by eexists].
    assert (forall r : loops, r !! si_scheduleName s = None ->
      (forall x, <[si_scheduleName s := x]> r = <[si_scheduleName s := x]> running) ->
      exists d', (if bool_decide (is_Some (r !! si_scheduleName s)) then ret r
        else auto_backfill clock now s ;* ret (<[si_scheduleName s := scheduleSignature s]> r)) d
        = (Ok (<[si_scheduleName s := scheduleSignature s]> running), d')) as Hstart.
    { intros r Hr Hi. rewrite Hr, bool_decide_false by (by intros []).
      destruct (auto_backfill_ok clock now s d) as [d' Hd']. exists d'.
      rewrite (bind_ok _ _ _ _ _ Hd'), Hi. done. }
    destruct (running !! si_scheduleName s) as [sig|] eqn:E; [|by apply Hstart].
    destruct (decide (sig = scheduleSignature s)) as [Hsig|Hsig];
      [rewrite (bool_decide_true _ Hsig) | rewrite (bool_decide_false _ Hsig)].
    + rewrite E, bool_decide_true by (by eexists). eexists. subst sig. by rewrite (insert_id _ _ _ E).
    + apply Hstart; [apply lookup_delete_eq | intros x; apply insert_delete_eq].
Qed.

Lemma poll_schedules_run clock now ss running d :
  exists d', poll_schedules clock now ss running d
             = (Ok (foldl (fun r s => polled s r) running ss), d').
Proof.
  revert running d. induction ss as [|s ss IH]; intros running d; [by eexists|].
  cbn [poll_schedules foldl].
  destruct (poll_schedule_run clock (now (si_scheduleName s)) s running d) as [d1 H1].
  rewrite (bind_ok _ _ _ _ _ H1). apply IH.
Qed.

Lemma polled_other s running name :
  si_scheduleName s <> name -> polled s running !! name = running !! name.
Proof.
  intros H. unfold polled. repeat case_bool_decide; [by rewrite lookup_insert_ne
    | by rewrite lookup_delete_ne | done].
Qed.

Lemma polled_all ss running name :
  NoDup (si_scheduleName <$> ss) ->
  (name ∉ (si_scheduleName <$> ss) ->
   foldl (fun r s => polled s r) running ss !! name = running !! name)
  /\ (forall s, s ∈ ss -> si_scheduleName s = name ->
      foldl (fun r s => polled s r) running ss !! name = polled s running !! name).
Proof.
  revert running. induction ss as [|x ss IH]; intros running Hnd;
    [split; [done | intros s Hs; by apply elem_of_nil in Hs]|].
  rewrite fmap_cons in *. apply NoDup_cons in Hnd as [Hx Hnd]. cbn [foldl].
  destruct (IH (polled x running) Hnd) as [IH1 IH2]. clear IH. split.
  - intros Hn. rewrite IH1 by set_solver. apply polled_other. set_solver.
  - intros s Hs Hname. apply elem_of_cons in Hs as [->|Hs].
    + apply IH1. by rewrite <- Hname.
    + rewrite (IH2 _ Hs Hname). assert (si_scheduleName x <> name) as Hne.
      { intros Heq. apply Hx. rewrite Heq, <- Hname. by apply list_elem_of_fmap_2. }
      unfold polled at 1 3. rewrite Hname.
      repeat case_bool_decide; rewrite ?lookup_insert_eq, ?lookup_delete_eq; try done.
      by apply polled_other.
Qed.

Lemma listSchedules_all name_le d s :
  s ∈ listSchedules name_le (ScheduleFiltersOf None None None) d
  <-> exists row, workflow_schedules d !! si_scheduleName s = Some row
                  /\ s = schedule_of_row (si_scheduleName s) row.
Proof.
  unfold listSchedules. rewrite list_elem_of_fmap. split.
  - intros ([name row] & -> & Hin). apply elem_of_order_by, elem_of_select_where in Hin as [H _].
    by exists row.
  - intros (row & Hrow & Hs). exists (si_scheduleName s, row). split; [exact Hs|].
    by apply elem_of_order_by, elem_of_select_where.
Qed.

Lemma NoDup_listSchedules name_le f d : NoDup (si_scheduleName <$> listSchedules name_le f d).
Proof.
  unfold listSchedules. rewrite <- list_fmap_compose.
  rewrite (list_fmap_ext _ fst) by (by intros ? [] _).
  rewrite order_by_Permutation. apply NoDup_select_where.
Qed.

(** One round of the polling loop brings the running loops in step with the stored
    schedules, and never fails on a schedule: afterwards an ACTIVE schedule has a loop with its
    current definition, a PAUSED or deleted one has none, and a schedule with another status
    keeps the loop it had. *)
Theorem poll_exact name_le clock now running d :
  exists running' d', poll_round name_le clock now running d = (Ok running', d')
  /\ forall name, running' !! name =
       match workflow_schedules d !! name with
       | Some row =>
           if decide (sc_status row = "ACTIVE")
           then Some (scheduleSignature (schedule_of_row name row))
           else if decide (sc_status row = "PAUSED") then None else running !! name
       | None => None
       end.
Proof.
  unfold poll_round. set (ss := listSchedules name_le _ d).
  destruct (poll_schedules_run clock now ss
    (filter (fun kv => kv.1 ∈ si_scheduleName <$> ss) running) d) as [d' Hd'].
  eexists _, d'. split; [exact Hd'|]. intros name.
  destruct (polled_all ss (filter (fun kv => kv.1 ∈ si_scheduleName <$> ss) running) name
    (NoDup_listSchedules _ _ _)) as [Hout Hin].
  destruct (workflow_schedules d !! name) as [row|] eqn:E.
  - assert (schedule_of_row name row ∈ ss) as Hs by (apply listSchedules_all; by exists row).
    assert (name ∈ si_scheduleName <$> ss) as Hname
      by (change name with (si_scheduleName (schedule_of_row name row)); by apply list_elem_of_fmap_2).
    rewrite (Hin _ Hs eq_refl). unfold polled. cbn [si_status si_scheduleName schedule_of_row].
    case_decide; [by rewrite bool_decide_true, lookup_insert_eq|].
    rewrite bool_decide_false by done.
    case_decide; [by rewrite bool_decide_true, lookup_delete_eq|].
    rewrite bool_decide_false by done.
    destruct (running !! name) as [sig|] eqn:Er.
    + by apply map_lookup_filter_Some_2.
    + by apply map_lookup_filter_None_2; left.
  - rewrite Hout.
    + apply map_lookup_filter_None_2. right. intros sig _ Hc. simpl in Hc.
      apply list_elem_of_fmap in Hc as (s & -> & Hs).
      apply listSchedules_all in Hs as (row & Hrow & _). by rewrite Hrow in E.
    + intros Hc. apply list_elem_of_fmap in Hc as (s & -> & Hs).
      apply listSchedules_all in Hs as (row & Hrow & _). by rewrite Hrow in E.
Qed.

End polling.

End scheduler.

(** * Witnesses *)

(** A clock that shows seconds, minutes and hours on one day *)
Definition ex_fields (t : Z) : DateFields :=
  DateFieldsOf ((t / 1000) mod 60) ((t / 60000) mod 60) ((t / 3600000) mod 24) 1 1 1.
Definition ex_date_fields (tz : option string) : option (Z -> DateFields) := Some ex_fields.
Definition ex_parse (s : string) : dbos_error + string := inr s.
Definition ex_args (t : Z) : string := stringify_Z t.
Definition ex_stringify (t : Z) (c : string) : dbos_error + string := inr (ex_args t).

Definition ex_cron : string := "*/15 * * * * *".
Definition ex_sched : WorkflowScheduleInternal :=
  ex_schedule "tick" ex_cron.
Definition ex_version : VersionInfo := VersionInfoOf "v-id" "v1" 5 5.
Definition ex_sched_db : sysdb :=
  empty_db <| workflow_schedules ::= <["tick" := schedule_row ex_sched]> |>
           <| application_versions ::= <["v1" := VersionRow "v-id" 5 5]> |>.

Definition ex_due (t : Z) : bool :=
  match newTimeMatcher ex_cron with inr m => time_matches m (ex_fields t) | inl _ => false end.

Lemma ex_runnable :
  runnable ex_date_fields stringify_Z ex_parse "json" ex_sched "null" ex_version ex_args ex_due
    ex_sched_db.
Proof.
  split; [done|]. split.
  - unfold time_matcher, ex_due. cbn [si_schedule ex_sched ex_schedule].
    destruct (newTimeMatcher ex_cron) eqn:E; [vm_compute in E; discriminate E | done].
  - split; [|split; [vm_compute; reflexivity|]].
    + apply dedup_uniqueb_spec. vm_compute. reflexivity.
    + intros id r _ Hr. cbn in Hr. by rewrite lookup_empty in Hr.
Qed.

Lemma ex_scheduled : getSchedule "tick" ex_sched_db = Some ex_sched.
Proof. vm_compute. reflexivity. Qed.

Lemma backfill_exact_witness :
  exists ts d',
    backfillSchedule ex_date_fields stringify_Z ex_parse ex_stringify "json" (fun t => (t, t))
      "tick" 0 60000 ex_sched_db = (Ok (scheduled_id stringify_Z "tick" <$> ts), d')
    /\ 45000 ∈ ts /\ 60000 ∉ ts.
Proof.
  destruct (backfill_exact ex_date_fields stringify_Z ex_parse ex_stringify "json" ex_sched "null"
    ex_version ex_args (fun _ => eq_refl) (fun t => (t, t)) ex_due 0 60000 ex_sched_db
    ex_scheduled ex_runnable) as (ts & d' & Hrun & _ & Hts & _).
  exists ts, d'. split; [exact Hrun|]. split.
  - apply Hts. split; [exists 45; lia|]. split; [lia | vm_compute; reflexivity].
  - intros Hin. apply Hts in Hin as (_ & Hlt & _). lia.
Defined.

Lemma schedule_loop_exact_witness :
  exists last d', scheduleLoop ex_date_fields stringify_Z ex_parse ex_stringify "json"
      (fun t => (t, t)) ex_sched 1500 3 ex_sched_db = (Ok last, d') /\ 4000 <= last.
Proof.
  destruct (schedule_loop_exact ex_date_fields stringify_Z ex_parse ex_stringify "json" ex_sched
    "null" ex_version ex_args (fun _ => eq_refl) (fun t => (t, t)) ex_due 1500 3 ex_sched_db
    ex_runnable) as (last & d' & Hrun & Hlast & _).
  exists last, d'. split; [exact Hrun|]. change (4000 <= last) in Hlast. exact Hlast.
Defined.

(** The backfill ends at half past 29 seconds, the loop starts a second later: the due time at
    30 seconds is lost. *)
Lemma restart_gap_witness :
  exists ids d1 lastExec d2,
    backfillSchedule ex_date_fields stringify_Z ex_parse ex_stringify "json" (fun t => (t, t))
      "tick" 0 29500 ex_sched_db = (Ok ids, d1)
    /\ scheduleLoop ex_date_fields stringify_Z ex_parse ex_stringify "json" (fun t => (t, t))
         ex_sched 30500 2 d1 = (Ok lastExec, d2)
    /\ (30000 <= lastExec -> ~ is_Some (workflow_status d2 !! scheduled_id stringify_Z "tick" 30000)).
Proof.
  destruct (restart_gap ex_date_fields stringify_Z ex_parse ex_stringify "json" ex_sched "null"
    ex_version ex_args (fun _ => eq_refl) (fun t => (t, t)) (fun t => (t, t)) ex_due 0 29500 30500 2
    ex_sched_db ex_scheduled ex_runnable eq_refl ltac:(lia) ltac:(lia))
    as (ids & d1 & lastExec & d2 & Hb & Hl & H).
  exists ids, d1, lastExec, d2. split; [exact Hb|]. split; [exact Hl|]. intros Hle Hs.
  apply (H 30000 ltac:(lia) eq_refl ltac:(vm_compute; reflexivity) ltac:(vm_compute; reflexivity))
    in Hs.
  apply Hs. vm_compute. split; discriminate.
Defined.
