(* ===== verification/StepExecution.v ===== *)
(** Running a step: the retry policy and the checkpointing of [callStepFunction], the internal
    steps of [runInternalStep] (src/src/dbos-executor.ts), and the replay of a workflow from
    its checkpoints.

    A value is its serialized form: the code returns to the workflow what it reads back from
    the serialization, on the first execution and on a replay alike.  An error is serialized
    by the serialize-error package, which is a parameter here; what a replay throws is what
    that package makes of the stored text. *)

From Stdlib Require Import QArith.
From stdpp Require Import pretty.
From S2P Require Export Steps Context.

Open Scope Z_scope.

(** * Data *)

(** [StepConfig]; intervals are in seconds and need not be whole. *)
Record StepConfig : Type := StepConfigOf {
  sc_retriesAllowed : bool;
  sc_intervalSeconds : option Q;
  sc_maxAttempts : option Z;
  sc_backoffRate : option Q;
  sc_shouldRetry : option (dbos_error -> dbos_error + bool);
  sc_timeoutMS : option Z
}.

#[export] Instance StepConfig_eta : Eta StepConfig := fun c =>
  StepConfigOf (sc_retriesAllowed c) (sc_intervalSeconds c) (sc_maxAttempts c)
    (sc_backoffRate c) (sc_shouldRetry c) (sc_timeoutMS c).

(** One attempt of a step: what others do to the database before it, how long it takes, and
    the user's function. *)
Record Attempt : Type := AttemptOf {
  at_world : sysdb -> sysdb;
  at_duration : Z;
  at_body : DB (option string)
}.

(** What one execution of a step meets: the clock at its start and its end, and its attempts
    by number; a step without retries, or an internal step, makes attempt 1. *)
Record World : Type := WorldOf {
  wd_start : Z;
  wd_end : Z;
  wd_attempt : Z -> Attempt
}.

(** How the attempts of a step end *)
Inductive attempts_result : Type :=
| Succeeded (v : option string)
| Failed (e : dbos_error)
| Exhausted.

(** * Operations *)

(** [validateStepConfig] *)
Definition validateStepConfig (config : StepConfig) (stepName : string) : option dbos_error :=
  match sc_timeoutMS config with
  | Some t =>
      if t <=? 0
      then Some (DBOSError ("Invalid timeoutMS (" +:+ pretty t +:+ ") in configuration of step "
                            +:+ stepName +:+ ": must be a positive number"))
      else None
  | None => None
  end.

Definition maxRetryIntervalSec : Q := 3600.

(** [intervalSeconds *= backoffRate ?? 2], capped *)
Definition next_interval (config : StepConfig) (intervalSeconds : Q) : Q :=
  let i := (intervalSeconds * default 2%Q (sc_backoffRate config))%Q in
  if negb (Qle_bool maxRetryIntervalSec i) then i else maxRetryIntervalSec.

(** [invokeStepAttempt]: the race of the attempt against its timer; an attempt that loses is
    not stopped, only its outcome is dropped. *)
Definition invokeStepAttempt (stepFnName : string) (timeoutMS : option Z) (a : Attempt)
    : DB (option string) := fun d =>
  match timeoutMS with
  | None => at_body a d
  | Some t =>
      if t <=? at_duration a
      then (Throw (DBOSStepTimeoutError stepFnName t), (at_body a d).2)
      else at_body a d
  end.

(** What [shouldRetry] makes of an error: retry it, or end with the given error. *)
Definition retry_decision (config : StepConfig) (e : dbos_error) : option dbos_error :=
  match sc_shouldRetry config with
  | None => None
  | Some f =>
      match f e with
      | inl retryError => Some retryError
      | inr true => None
      | inr false => Some e
      end
  end.

(** The retry loop: [remaining] attempts are left and [attemptNum] is the number of the next
    one.  It returns how the attempts ended, the errors that were retried, and the pauses it
    made, in seconds. *)
Fixpoint retry_loop (wfid stepFnName : string) (config : StepConfig) (maxAttempts : Z)
    (attempt : Z -> Attempt) (remaining : nat) (attemptNum : Z) (intervalSeconds : Q)
    : DB (attempts_result * list dbos_error * list Q) := fun d =>
  match remaining with
  | O => (Ok (Exhausted, [], []), d)
  | S remaining' =>
      let a := attempt attemptNum in
      match checkIfCanceled wfid (at_world a d) with
      | (Throw e, d) => (Throw e, d)
      | (Ok _, d) =>
          match invokeStepAttempt stepFnName (sc_timeoutMS config) a d with
          | (Ok v, d) => (Ok (Succeeded v, [], []), d)
          | (Throw e, d) =>
              match retry_decision config e with
              | Some err => (Ok (Failed err, [], []), d)
              | None =>
                  if attemptNum <? maxAttempts then
                    bind (retry_loop wfid stepFnName config maxAttempts attempt remaining'
                            (attemptNum + 1) (next_interval config intervalSeconds))
                      (fun r => ret (r.1.1, e :: r.1.2, intervalSeconds :: r.2)) d
                  else
                    bind (retry_loop wfid stepFnName config maxAttempts attempt remaining'
                            (attemptNum + 1) intervalSeconds)
                      (fun r => ret (r.1.1, e :: r.1.2, r.2)) d
              end
          end
      end
  end.

Definition run_attempts (wfid stepFnName : string) (config : StepConfig) (w : World)
    : DB (attempts_result * list dbos_error * list Q) :=
  let maxAttempts := default 3 (sc_maxAttempts config) in
  if sc_retriesAllowed config then
    retry_loop wfid stepFnName config maxAttempts (wd_attempt w) (Z.to_nat maxAttempts) 1
      (default 1%Q (sc_intervalSeconds config))
  else fun d =>
    let a := wd_attempt w 1 in
    match invokeStepAttempt stepFnName (sc_timeoutMS config) a (at_world a d) with
    | (Ok v, d) => (Ok (Succeeded v, [], []), d)
    | (Throw e, d) => (Ok (Failed e, [], []), d)
    end.

(** The error a step ends with *)
Definition final_error (stepFnName : string) (maxAttempts : Z) (errors : list dbos_error)
    (r : attempts_result) : dbos_error + option string :=
  match r with
  | Succeeded v => inr v
  | Failed e => inl e
  | Exhausted => inl (DBOSMaxStepRetriesError stepFnName maxAttempts errors)
  end.

Section serializer.
(** [serializer.stringify(serializeError(e))], [deserializeResError] and the name of the
    serializer *)
Context (serializeError : dbos_error -> string)
        (deserializeResError : string -> option string -> dbos_error)
        (serializerName : string) (executorID : string).

(** [reviveResultOrError] *)
Definition reviveResultOrError (r : SystemDatabaseStoredResult) : DB (option string) :=
  match truthy_str (sr_error r) with
  | Some e => throw (deserializeResError e (sr_serialization r))
  | None => ret (sr_output r)
  end.

(** [callStepFunction], with the function ID it was given *)
Definition callStepFunction (wfid stepFnName : string) (stepConfig : StepConfig) (funcID : Z)
    (w : World) : DB (option string) :=
  match validateStepConfig stepConfig stepFnName with
  | Some e => throw e
  | None =>
      checkIfCanceled wfid ;*
      let* checkr := getOperationResultAndThrowIfCancelled wfid funcID in
      match checkr with
      | Some r =>
          if negb (opt_eqb (sr_functionName r) (Some stepFnName))
          then throw (DBOSUnexpectedStepError wfid funcID stepFnName
                        (default "?" (sr_functionName r)))
          else reviveResultOrError r
      | None =>
          let* res := run_attempts wfid stepFnName stepConfig w in
          match final_error stepFnName (default 3 (sc_maxAttempts stepConfig)) res.1.2 res.1.1 with
          | inl err =>
              recordOperationResult executorID wfid funcID stepFnName true (wd_start w) (wd_end w)
                (no_options <| op_error := Some (serializeError err) |>
                            <| op_serialization := Some serializerName |>) ;*
              throw err
          | inr v =>
              recordOperationResult executorID wfid funcID stepFnName true (wd_start w) (wd_end w)
                (no_options <| op_output := v |>
                            <| op_serialization := Some serializerName |>) ;*
              ret v
          end
      end
  end.

(** [DBOSExecutor.runInternalStep]; the callback is attempt 1 of the world. *)
Definition runInternalStep (functionName workflowID : string) (functionID : Z)
    (childWfId : option string) (w : World) : DB (option string) :=
  let* result := getOperationResultAndThrowIfCancelled workflowID functionID in
  match result with
  | Some r =>
      if negb (opt_eqb (sr_functionName r) (Some functionName))
      then throw (DBOSUnexpectedStepError workflowID functionID functionName
                    (default "" (sr_functionName r)))
      else reviveResultOrError r
  | None =>
      try_catch
        (let* output := at_body (wd_attempt w 1) in
         recordOperationResult executorID workflowID functionID functionName true
           (wd_start w) (wd_end w)
           (no_options <| op_output := output |> <| op_childWorkflowID := childWfId |>) ;*
         ret output)
        (fun e =>
           if match e with
              | DBOSWorkflowCancelledError w => bool_decide (w = workflowID)
              | _ => false
              end
           then throw e
           else
             recordOperationResult executorID workflowID functionID functionName false
               (wd_start w) (wd_end w)
               (no_options <| op_error := Some (serializeError e) |>
                           <| op_childWorkflowID := childWfId |>) ;*
             throw e)
  end.

(** * Lemmas: attempts *)

(** What a computation of another party keeps of the workflow [id]: its checkpoints. *)
Definition keeps (id : string) (f : sysdb -> sysdb) : Prop := forall d,
  db_ok d -> db_ok (f d) /\ forall fid, same_checkpoint id fid d (f d).

(** The attempts of a step leave the checkpoints of its workflow to the library. *)
Definition benign (id : string) (w : World) : Prop := forall n,
  keeps id (at_world (wd_attempt w n)) /\ keeps id (fun d => (at_body (wd_attempt w n) d).2).

Lemma keeps_compose id f g : keeps id f -> keeps id g -> keeps id (fun d => g (f d)).
Proof.
  intros Hf Hg d Hd. destruct (Hf d Hd) as [Hf1 Hf2]. destruct (Hg _ Hf1) as [Hg1 Hg2].
  split; [done|]. intros fid. unfold same_checkpoint in *. by rewrite Hf2.
Qed.

Lemma keeps_invoke id name t a :
  keeps id (fun d => (at_body a d).2) ->
  keeps id (fun d => (invokeStepAttempt name t a d).2).
Proof. intros Ha d Hd. unfold invokeStepAttempt. repeat case_match; by apply Ha. Qed.

Lemma keeps_retry_loop id name cfg mx w n :
  benign id w -> forall num i, keeps id (fun d => (retry_loop id name cfg mx (wd_attempt w) n num i d).2).
Proof.
  intros Hw. induction n as [|n IH]; intros num i d Hd; [done|]. cbn [retry_loop].
  destruct (Hw num) as [Hwd Hb]. rewrite checkIfCanceled_run.
  destruct (Hwd d Hd) as [Hd1 Hs1]. destruct (is_cancelled id _); [done|].
  pose proof (keeps_compose id _ _ Hwd (keeps_invoke id name (sc_timeoutMS cfg) _ Hb) d Hd) as [Hd2 Hs2].
  destruct (invokeStepAttempt _ _ _ _) as [[v|e] d2]; [done|]. simpl in Hd2, Hs2.
  destruct (retry_decision cfg e); [done|].
  destruct (_ <? _); unfold bind.
  - pose proof (IH (num + 1) (next_interval cfg i) d2 Hd2) as [Hd3 Hs3].
    destruct (retry_loop _ _ _ _ _ n _ _ d2) as [[?|?] d3]; simpl in *; split; try done;
      intros fid; unfold same_checkpoint in *; by rewrite Hs2.
  - pose proof (IH (num + 1) i d2 Hd2) as [Hd3 Hs3].
    destruct (retry_loop _ _ _ _ _ n _ _ d2) as [[?|?] d3]; simpl in *; split; try done;
      intros fid; unfold same_checkpoint in *; by rewrite Hs2.
Qed.

Lemma keeps_run_attempts id name cfg w :
  benign id w -> keeps id (fun d => (run_attempts id name cfg w d).2).
Proof.
  intros Hw. unfold run_attempts. destruct (sc_retriesAllowed cfg); [by apply keeps_retry_loop|].
  intros d Hd. destruct (Hw 1) as [Hwd Hb].
  pose proof (keeps_compose id _ _ Hwd (keeps_invoke id name (sc_timeoutMS cfg) _ Hb) d Hd) as H.
  simpl in *. by destruct (invokeStepAttempt _ _ _ _) as [[?|?] ?].
Qed.

(** * Lemmas: checkpoints *)

(** Recording a step that has no checkpoint: it is written, or its workflow is missing. *)
Lemma record_cases id fid fn chk st en o d :
  db_ok d -> operation_outputs d !! (id, fid) = None ->
  (exists d', recordOperationResult executorID id fid fn chk st en o d = (Ok tt, d')
     /\ operation_outputs d' !! (id, fid) = Some (op_row_of fn st en o)
     /\ db_ok d' /\ forall fid', fid' <> fid -> same_checkpoint id fid' d d')
  \/ recordOperationResult executorID id fid fn chk st en o d = (Throw foreign_key_violation, d).
Proof.
  intros Hd Hn. destruct (workflow_status d !! id) as [r|] eqn:Hr.
  - left. eexists. split; [apply record_fresh; [by destruct Hd|done|by eexists]|].
    split; [simpl; by rewrite lookup_insert_eq|]. split.
    + pose proof (preserves_recordOperationResultInternal executorID id fid fn chk st en o d Hd) as H.
      rewrite record_fresh in H; [done|by destruct Hd|done|by eexists].
    + intros fid' Hne. unfold same_checkpoint. simpl. by rewrite lookup_insert_ne by congruence.
  - right. by apply record_missing.
Qed.

(** An error that a replay throws in the place of [e] *)
Definition revived (e e' : dbos_error) : Prop :=
  exists ser, e' = deserializeResError (serializeError e) ser.

(** What a replay yields for a step that ended with [o] *)
Definition agrees (o o' : outcome dbos_error (option string)) : Prop :=
  match o with
  | Ok v => o' = Ok v
  | Throw e => exists e', o' = Throw e' /\ revived e e'
  end.

(** A checkpointed operation: it runs under a function ID in a world, a stored checkpoint
    alone determines what a later run yields, and a first run that leaves a checkpoint leaves
    one that replays its outcome. *)
Record CheckpointedOp : Type := CheckpointedOpOf {
  op_run : string -> Z -> World -> DB (option string);
  op_replay : string -> Z -> op_row -> outcome dbos_error (option string);
  op_replays : forall id fid w d r,
    is_cancelled id d = false -> operation_outputs d !! (id, fid) = Some r ->
    op_run id fid w d = (op_replay id fid r, d);
  op_records : forall id fid w d,
    db_ok d -> benign id w -> operation_outputs d !! (id, fid) = None ->
    let (o, d') := op_run id fid w d in
    db_ok d' /\ (forall fid', fid' <> fid -> same_checkpoint id fid' d d')
    /\ match operation_outputs d' !! (id, fid) with
       | Some r => agrees o (op_replay id fid r)
       | None => exists e, o = Throw e
       end
}.

(** [reviveResultOrError] as a function of the row *)
Definition revive (r : op_row) : outcome dbos_error (option string) :=
  match truthy_str (oo_error r) with
  | Some e => Throw (deserializeResError e (oo_serialization r))
  | None => Ok (oo_output r)
  end.

Lemma revive_run r d : reviveResultOrError (stored_result r) d = (revive r, d).
Proof. unfold reviveResultOrError, revive. simpl. by destruct (truthy_str _). Qed.

Definition replay_step (name id : string) (fid : Z) (r : op_row)
    : outcome dbos_error (option string) :=
  if negb (opt_eqb (Some (oo_function_name r)) (Some name))
  then Throw (DBOSUnexpectedStepError id fid name (oo_function_name r))
  else revive r.

Context (serializeError_nonempty : forall e, serializeError e <> "").

(** The checkpoint of an error, with what else the step writes, revives an error. *)
Lemma revive_error fn st en o e :
  op_error o = Some (serializeError e) ->
  exists e', revive (op_row_of fn st en o) = Throw e' /\ revived e e'.
Proof.
  intros Ho. unfold revive. simpl. rewrite Ho. unfold truthy_str.
  pose proof (serializeError_nonempty e). destruct (serializeError e) eqn:E; [done|].
  eexists. split; [done|]. exists (op_serialization o). by rewrite E.
Qed.

Lemma replay_recorded name id fid st en o :
  replay_step name id fid (op_row_of name st en o) = revive (op_row_of name st en o).
Proof. unfold replay_step. simpl. unfold opt_eqb. by rewrite bool_decide_true. Qed.

(** Recording the outcome [out] with [o] and then ending with it *)
Lemma record_outcome_ok name id fid chk st en o out d d1 :
  db_ok d1 -> (forall fid', same_checkpoint id fid' d d1) ->
  operation_outputs d !! (id, fid) = None ->
  agrees out (revive (op_row_of name st en o)) ->
  let (res, d') := bind (recordOperationResult executorID id fid name chk st en o)
                        (fun _ d => (out, d)) d1 in
  db_ok d' /\ (forall fid', fid' <> fid -> same_checkpoint id fid' d d')
  /\ match operation_outputs d' !! (id, fid) with
     | Some r => agrees res (replay_step name id fid r)
     | None => exists e, res = Throw e
     end.
Proof.
  intros Hd Hk1 Hn Ha. unfold bind. rewrite (Hk1 fid) in Hn.
  destruct (record_cases id fid name chk st en o d1 Hd Hn) as [(d' & -> & Hr & Hok & Hk)| ->].
  - split; [done|]. split; [|rewrite Hr; by rewrite replay_recorded].
    intros fid' Hne. unfold same_checkpoint. rewrite (Hk1 fid'). by apply Hk.
  - split; [done|]. split; [by intros fid' _|]. rewrite Hn. eauto.
Qed.

Lemma callStepFunction_replays name cfg id fid w d r :
  validateStepConfig cfg name = None ->
  is_cancelled id d = false -> operation_outputs d !! (id, fid) = Some r ->
  callStepFunction id name cfg fid w d = (replay_step name id fid r, d).
Proof.
  intros Hv Hc Hr. unfold callStepFunction, bind. rewrite Hv, checkIfCanceled_run, Hc.
  rewrite getOperationResult_run, Hc, Hr. simpl. unfold replay_step.
  destruct (negb _); [done|]. apply revive_run.
Qed.

Lemma callStepFunction_records name cfg id fid w d :
  validateStepConfig cfg name = None ->
  db_ok d -> benign id w -> operation_outputs d !! (id, fid) = None ->
  let (o, d') := callStepFunction id name cfg fid w d in
  db_ok d' /\ (forall fid', fid' <> fid -> same_checkpoint id fid' d d')
  /\ match operation_outputs d' !! (id, fid) with
     | Some r => agrees o (replay_step name id fid r)
     | None => exists e, o = Throw e
     end.
Proof.
  intros Hv Hd Hw Hn. unfold callStepFunction. rewrite Hv. unfold bind.
  rewrite checkIfCanceled_run. destruct (is_cancelled id d) eqn:Hc;
    [rewrite Hn; split; [done|split; [done|eauto]]|].
  cbn beta iota.
  rewrite getOperationResult_run, Hc, Hn. simpl.
  pose proof (keeps_run_attempts id name cfg w Hw d Hd) as [Hd1 Hk1].
  destruct (run_attempts id name cfg w d) as [[[[res errs] sl]|e] d1]; simpl in Hd1, Hk1.
  2: { split; [done|]. split; [by intros fid' _|]. rewrite <- (Hk1 fid), Hn. eauto. }
  simpl. destruct (final_error _ _ errs res) as [err|v] eqn:Hf.
  - apply (record_outcome_ok name id fid true _ _ _ (Throw err) d d1 Hd1 Hk1 Hn).
    by apply revive_error.
  - by apply (record_outcome_ok name id fid true _ _ _ (Ok v) d d1 Hd1 Hk1 Hn).
Qed.

Lemma runInternalStep_replays name child id fid w d r :
  is_cancelled id d = false -> operation_outputs d !! (id, fid) = Some r ->
  runInternalStep name id fid child w d
  = (replay_step name id fid r, d).
Proof.
  intros Hc Hr. unfold runInternalStep, bind. rewrite getOperationResult_run, Hc, Hr. simpl.
  unfold replay_step. destruct (negb _); [done|]. apply revive_run.
Qed.

Lemma runInternalStep_records name child id fid w d :
  db_ok d -> benign id w -> operation_outputs d !! (id, fid) = None ->
  let (o, d') := runInternalStep name id fid child w d in
  db_ok d' /\ (forall fid', fid' <> fid -> same_checkpoint id fid' d d')
  /\ match operation_outputs d' !! (id, fid) with
     | Some r => agrees o (replay_step name id fid r)
     | None => exists e, o = Throw e
     end.
Proof.
  intros Hd Hw Hn. unfold runInternalStep. unfold bind at 1.
  rewrite getOperationResult_run. destruct (is_cancelled id d);
    [split; [done|split; [done|rewrite Hn; eauto]]|].
  rewrite Hn. cbn [fmap option_fmap option_map]. unfold try_catch. unfold bind at 1.
  destruct (Hw 1) as [_ Hb]. pose proof (Hb d Hd) as [Hd1 Hk1].
  destruct (at_body (wd_attempt w 1) d) as [[v|e] d1]; simpl in Hd1, Hk1.
  - unfold bind at 1.
    pose proof (record_cases id fid name true (wd_start w) (wd_end w)
      (no_options <| op_output := v |> <| op_childWorkflowID := child |>) d1 Hd1) as Hrec.
    rewrite <- (Hk1 fid) in Hrec. destruct (Hrec Hn) as [(d' & -> & Hr & Hok & Hk)| ->].
    + unfold ret. split; [done|]. split; [|rewrite Hr; by rewrite replay_recorded].
      intros fid' Hne. unfold same_checkpoint. rewrite (Hk1 fid'). by apply Hk.
    + cbv beta iota.
      apply (record_outcome_ok name id fid false _ _ _ (Throw foreign_key_violation) d d1 Hd1 Hk1 Hn).
      by apply revive_error.
  - cbv beta iota. destruct (match e with DBOSWorkflowCancelledError w0 => _ | _ => _ end).
    + unfold throw. split; [done|]. split; [by intros fid' _|]. rewrite <- (Hk1 fid), Hn. eauto.
    + apply (record_outcome_ok name id fid false _ _ _ (Throw e) d d1 Hd1 Hk1 Hn).
      by apply revive_error.
Qed.

(** The two kinds of steps as checkpointed operations *)
Definition step_op (name : string) (cfg : StepConfig) (Hv : validateStepConfig cfg name = None)
    : CheckpointedOp :=
  {| op_run := fun id fid w =>
       callStepFunction id name cfg fid w;
     op_replay := replay_step name;
     op_replays := fun id fid w d r => callStepFunction_replays name cfg id fid w d r Hv;
     op_records := fun id fid w d => callStepFunction_records name cfg id fid w d Hv |}.

Definition internal_op (name : string) (child : option string) : CheckpointedOp :=
  {| op_run := fun id fid w =>
       runInternalStep name id fid child w;
     op_replay := replay_step name;
     op_replays := runInternalStep_replays name child;
     op_records := runInternalStep_records name child |}.

(** * Workflows *)

(** The body of a workflow: a deterministic function of the outcomes of its steps. *)
Inductive program : Type :=
| PReturn (v : option string)
| PThrow (e : dbos_error)
| PStep (op : CheckpointedOp) (k : outcome dbos_error (option string) -> program).

(** Running the body of workflow [id] from function ID [fid]; [env] gives each step its
    world. *)
Fixpoint exec (env : Z -> World) (id : string) (p : program) (fid : Z) : DB (option string) :=
  match p with
  | PReturn v => ret v
  | PThrow e => throw e
  | PStep op k => fun d =>
      let (o, d') := op_run op id fid (env fid) d in exec env id (k o) (fid + 1) d'
  end.

(** A step of an execution that leaves a checkpoint: the points where it can be
    interrupted and resumed. *)
Inductive progress (env : Z -> World) (id : string)
    : program * Z * sysdb -> program * Z * sysdb -> Prop :=
| progress_step op k fid d o d' :
    is_cancelled id d = false -> op_run op id fid (env fid) d = (o, d') ->
    is_Some (operation_outputs d' !! (id, fid)) ->
    progress env id (PStep op k, fid, d) (k o, fid + 1, d').

(** The workflow does not tell an error from what the serialization makes of it. *)
Inductive error_blind : program -> Prop :=
| blind_return v : error_blind (PReturn v)
| blind_throw e : error_blind (PThrow e)
| blind_step op k :
    (forall e e', revived e e' -> k (Throw e) = k (Throw e')) ->
    (forall o, error_blind (k o)) -> error_blind (PStep op k).

(** One step of progress: the checkpoint it leaves replays it. *)
Lemma progress_replays env id p fid d p' fid' d' :
  db_ok d -> (forall n, benign id (env n)) -> error_blind p ->
  progress env id (p, fid, d) (p', fid', d') ->
  db_ok d' /\ error_blind p' /\ fid' = fid + 1
  /\ (forall n, n <> fid -> same_checkpoint id n d d')
  /\ (forall env2 d2, is_cancelled id d2 = false -> same_checkpoint id fid d' d2 ->
        exec env2 id p fid d2 = exec env2 id p' (fid + 1) d2).
Proof.
  intros Hd Hw Hb Hp. inversion Hp as [op k f d0 o d1 Hc Hrun [r Hr]]; subst.
  inversion Hb as [| |op' k' Hk Hb']; subst.
  destruct (operation_outputs d !! (id, fid)) as [r0|] eqn:E.
  - rewrite (op_replays op id fid _ d r0 Hc E) in Hrun. injection Hrun as <- <-.
    do 3 (split; [done|]). split; [by intros n _|]. intros env2 d2 Hc2 Hs. simpl.
    unfold same_checkpoint in Hs. rewrite E in Hs. by rewrite (op_replays op id fid _ d2 r0 Hc2) by done.
  - pose proof (op_records op id fid (env fid) d Hd (Hw fid) E) as H. rewrite Hrun, Hr in H.
    destruct H as (Hd' & Hkeep & Ha). do 3 (split; [done|]). split; [done|].
    intros env2 d2 Hc2 Hs. simpl. unfold same_checkpoint in Hs. rewrite Hr in Hs.
    rewrite (op_replays op id fid _ d2 r Hc2) by done. f_equal.
    destruct o as [v|e]; [by rewrite Ha|]. destruct Ha as (e' & -> & He). symmetry. by apply Hk.
Qed.

Lemma progress_star env id a b :
  (forall n, benign id (env n)) -> rtc (progress env id) a b ->
  db_ok a.2 -> error_blind a.1.1 ->
  a.1.2 <= b.1.2 /\ (forall n, n < a.1.2 -> same_checkpoint id n a.2 b.2)
  /\ forall env2 d2, is_cancelled id d2 = false ->
       (forall n, a.1.2 <= n < b.1.2 -> same_checkpoint id n b.2 d2) ->
       exec env2 id a.1.1 a.1.2 d2 = exec env2 id b.1.1 b.1.2 d2.
Proof.
  intros Hw. induction 1 as [a|[[p f] d] [[p' f'] d'] [[q n] d1] Hp Hs IH]; intros Hd Hb; simpl in *.
  { split; [lia|]. split; done. }
  destruct (progress_replays env id p f d p' f' d' Hd Hw Hb Hp) as (Hd' & Hb' & -> & Hk & He).
  destruct (IH Hd' Hb') as (Hle & Hk' & He'). split; [lia|]. split.
  - intros m Hm. unfold same_checkpoint. rewrite (Hk m) by lia. apply Hk'. lia.
  - intros env2 d2 Hc Hd2. rewrite (He env2 d2 Hc).
    + apply He'; [done|]. intros m Hm. apply Hd2. lia.
    + unfold same_checkpoint. rewrite (Hk' f) by lia. apply Hd2. lia.
Qed.

End serializer.

(** * Lemmas: the retry policy *)

(** The pauses of [n] retries, from the interval [i] *)
Fixpoint backoff (config : StepConfig) (i : Q) (n : nat) : list Q :=
  match n with
  | O => []
  | S n' => i :: backoff config (next_interval config i) n'
  end.

Lemma next_interval_cap config i : (next_interval config i <= maxRetryIntervalSec)%Q.
Proof.
  unfold next_interval. destruct (Qle_bool maxRetryIntervalSec _) eqn:E; simpl.
  - apply Qle_refl.
  - apply Qlt_le_weak, Qnot_le_lt. intros H. apply Qle_bool_iff in H. congruence.
Qed.

Lemma backoff_cap config i n :
  (i <= maxRetryIntervalSec)%Q -> Forall (fun p => p <= maxRetryIntervalSec)%Q (backoff config i n).
Proof.
  revert i. induction n as [|n IH]; intros i Hi; constructor; [done|].
  apply IH, next_interval_cap.
Qed.

Section policy.
Context (id name : string) (config : StepConfig) (w : World)
        (out : Z -> outcome dbos_error (option string)).

(** The attempts end as [out] says, whatever the database, and nobody cancels the workflow. *)
Hypothesis Hout : forall j d,
  (invokeStepAttempt name (sc_timeoutMS config) (wd_attempt w j) (at_world (wd_attempt w j) d)).1
  = out j.
Hypothesis Hlive : forall j d, is_cancelled id d = false ->
  is_cancelled id (at_world (wd_attempt w j) d) = false
  /\ is_cancelled id (invokeStepAttempt name (sc_timeoutMS config) (wd_attempt w j)
                        (at_world (wd_attempt w j) d)).2 = false.

(** The attempts from [num] fail with the errors [es], all to be retried. *)
Definition fail_with (num : Z) (es : list dbos_error) : Prop := forall m e,
  es !! m = Some e -> out (num + Z.of_nat m) = Throw e /\ retry_decision config e = None.

Lemma fail_with_tail num e es : fail_with num (e :: es) -> fail_with (num + 1) es.
Proof.
  intros H m e' Hm. specialize (H (S m) e' Hm). by replace (num + 1 + Z.of_nat m) with (num + Z.of_nat (S m)) by lia.
Qed.

Lemma retry_loop_policy mx es : forall remaining num i d,
  is_cancelled id d = false -> Z.of_nat remaining = mx - num + 1 -> fail_with num es ->
  (length es <= remaining)%nat ->
  forall r, (if decide (length es = remaining) then r = Exhausted
             else match out (num + Z.of_nat (length es)) with
                  | Ok v => r = Succeeded v
                  | Throw e => exists err, retry_decision config e = Some err /\ r = Failed err
                  end) ->
  exists d', retry_loop id name config mx (wd_attempt w) remaining num i d
    = (Ok (r, es, backoff config i
                    (if decide (length es = remaining) then pred (length es) else length es)), d').
Proof.
  induction es as [|e es IH]; intros remaining num i d Hc Hrem Hf Hlen r Hr; simpl in Hlen.
  - destruct remaining as [|n]; simpl in Hr |- *.
    { subst r. by exists d. }
    rewrite Z.add_0_r in Hr. rewrite checkIfCanceled_run. destruct (Hlive num d Hc) as [-> _].
    pose proof (Hout num d) as Ho. destruct (invokeStepAttempt _ _ _ _) as [o d1]. simpl in Ho.
    subst o. destruct (out num) as [v|e].
    + subst r. by exists d1.
    + destruct Hr as (err & -> & ->). by exists d1.
  - destruct remaining as [|n]; [simpl in Hlen; lia|]. cbn [retry_loop].
    destruct (Hf 0%nat e eq_refl) as [He Hd]. rewrite Z.add_0_r in He.
    rewrite checkIfCanceled_run. destruct (Hlive num d Hc) as [-> Hl].
    pose proof (Hout num d) as Ho. destruct (invokeStepAttempt _ _ _ _) as [o d1].
    simpl in Ho, Hl. subst o. rewrite He, Hd. cbv beta iota.
    assert (forall i', exists d', retry_loop id name config mx (wd_attempt w) n (num + 1) i' d1
      = (Ok (r, es, backoff config i'
               (if decide (length es = n) then pred (length es) else length es)), d')) as IH'.
    { intros i'. apply IH; [done|lia|by eapply fail_with_tail|lia|].
      simpl in Hr. replace (num + 1 + Z.of_nat (length es)) with (num + Z.of_nat (S (length es))) by lia.
      repeat case_decide; try lia; done. }
    destruct (num <? mx) eqn:E; break_bool.
    + destruct (IH' (next_interval config i)) as [d' H]. exists d'. unfold bind. rewrite H.
      unfold ret. simpl. do 3 f_equal. simpl in Hr.
      repeat case_decide; try lia; [|done]. destruct es; simpl in *; [lia|done].
    + assert (n = O) as -> by lia. destruct es; [|simpl in Hlen; lia].
      destruct (IH' i) as [d' H]. exists d'. unfold bind. by rewrite H.
Qed.

End policy.

(** * Properties *)

(** C1: Recovery resumes where the execution stopped.  A workflow body is run until it has
    checkpointed [n] steps and is then interrupted; when it is run again from the start on
    any later database that still has those checkpoints (whatever else has changed), with
    whatever the steps would do now, then none of the [n] steps runs again, the database is
    not touched by them, and the run is exactly the run of what was left. *)
Theorem replay_resumes (serializeError : dbos_error -> string)
    (deserializeResError : string -> option string -> dbos_error)
    env env2 id p q n d0 d1 d2 :
  db_ok d0 -> (forall k, benign id (env k)) ->
  error_blind serializeError deserializeResError p ->
  rtc (progress serializeError deserializeResError env id) (p, 0, d0) (q, n, d1) ->
  is_cancelled id d2 = false -> (forall k, 0 <= k < n -> same_checkpoint id k d1 d2) ->
  exec serializeError deserializeResError env2 id p 0 d2
  = exec serializeError deserializeResError env2 id q n d2.
Proof.
  intros Hd Hw Hb Hp Hc Hk.
  pose proof (progress_star serializeError deserializeResError env id _ _ Hw Hp Hd Hb)
    as (_ & _ & H). exact (H env2 d2 Hc Hk).
Qed.

(** The attempts are exhausted only when none is left, and every one has failed with an error that
    is to be retried. *)
Lemma retry_loop_exhausted id name config mx attempt remaining num i d es ps d' :
  retry_loop id name config mx attempt remaining num i d = (Ok (Exhausted, es, ps), d') ->
  length es = remaining /\ Forall (fun e => retry_decision config e = None) es.
Proof.
  revert num i d es ps d'. induction remaining as [|n IH]; intros num i d es ps d'; cbn [retry_loop].
  { intros [= <- _ _]. by split. }
  destruct (checkIfCanceled id _) as [[?|?] d1]; [|done].
  destruct (invokeStepAttempt _ _ _ d1) as [[v|e] d2]; [done|].
  destruct (retry_decision config e) eqn:Ee; [done|].
  destruct (num <? mx); intros ([[r es'] ps'] & d3 & Hrun & Hret)%bind_inv_ok; simpl in Hret;
    injection Hret as -> <- _ _; destruct (IH _ _ _ _ _ _ Hrun) as [Hl Hf]; simpl; by auto.
Qed.

(** C18: The retry policy of a step that allows retries, with an interval of at most an hour.  It is
    attempted until an attempt succeeds or [shouldRetry] refuses its error, if this comes before
    [maxAttempts] attempts have failed, and that value or error is its result; between two attempts
    it pauses the configured interval, multiplied by the backoff rate each time and never more than
    an hour.  It gives up only when at least [maxAttempts] attempts have failed with errors that
    are to be retried, and then with the max-retries error that carries all of them. *)
Theorem step_retry_policy id name config w :
  sc_retriesAllowed config = true ->
  let maxAttempts := default 3 (sc_maxAttempts config) in
  let interval := default 1%Q (sc_intervalSeconds config) in
  (interval <= maxRetryIntervalSec)%Q ->
  (forall out es r d,
    (forall j d, (invokeStepAttempt name (sc_timeoutMS config) (wd_attempt w j)
                    (at_world (wd_attempt w j) d)).1 = out j) ->
    (forall j d, is_cancelled id d = false ->
       is_cancelled id (at_world (wd_attempt w j) d) = false
       /\ is_cancelled id (invokeStepAttempt name (sc_timeoutMS config) (wd_attempt w j)
                             (at_world (wd_attempt w j) d)).2 = false) ->
    is_cancelled id d = false ->
    (forall m e, es !! m = Some e ->
       out (1 + Z.of_nat m) = Throw e /\ retry_decision config e = None) ->
    Z.of_nat (length es) < maxAttempts ->
    match out (1 + Z.of_nat (length es)) with
    | Ok v => r = Succeeded v
    | Throw e => exists err, retry_decision config e = Some err /\ r = Failed err
    end ->
    exists d' pauses, run_attempts id name config w d = (Ok (r, es, pauses), d')
      /\ pauses = backoff config interval (length es)
      /\ Forall (fun p => p <= maxRetryIntervalSec)%Q pauses)
  /\ (forall es pauses d d', run_attempts id name config w d = (Ok (Exhausted, es, pauses), d') ->
        maxAttempts <= Z.of_nat (length es)
        /\ Forall (fun e => retry_decision config e = None) es
        /\ final_error name maxAttempts es Exhausted = inl (DBOSMaxStepRetriesError name maxAttempts es)).
Proof.
  intros Hretry mx i Hi. unfold run_attempts. rewrite Hretry. fold mx i. split.
  - intros out es r d Hout Hlive Hc Hf Hlen Hr.
    destruct (retry_loop_policy id name config w out Hout Hlive mx es (Z.to_nat mx) 1 i d)
      with (r := r) as [d' H]; [done|lia|done|lia|by rewrite decide_False by lia|].
    rewrite decide_False in H by lia. exists d'. eexists. split; [exact H|]. split; [done|].
    by apply backoff_cap.
  - intros es ps d d' H. apply retry_loop_exhausted in H as [Hl Hf]. split; [lia|]. by split.
Qed.

(** * Witnesses *)

Definition ex_ser (e : dbos_error) : string := "e:" +:+ error_message e.
Definition ex_deser (s : string) (_ : option string) : dbos_error := JsError s.

Lemma ex_ser_nonempty e : ex_ser e <> "".
Proof. discriminate. Defined.

(** A step that fails once and then charges, and a second one *)
Definition ex_world : World :=
  {| wd_start := 10; wd_end := 20;
     wd_attempt := fun n =>
       {| at_world := fun d => d; at_duration := 5;
          at_body := fun d => if n =? 1 then (Throw (JsError "busy"), d) else (Ok (Some "7"), d) |} |}.

Definition ex_config : StepConfig :=
  {| sc_retriesAllowed := true; sc_intervalSeconds := Some (1 # 2)%Q; sc_maxAttempts := Some 2;
     sc_backoffRate := None; sc_shouldRetry := None; sc_timeoutMS := Some 100 |}.

Definition ex_op : CheckpointedOp ex_ser ex_deser :=
  step_op ex_ser ex_deser "js_superjson" "exec-1" ex_ser_nonempty "charge" ex_config eq_refl.

Definition ex_continue (o : outcome dbos_error (option string)) : program ex_ser ex_deser :=
  match o with
  | Ok v => PReturn _ _ v
  | Throw _ => PReturn _ _ None
  end.

Definition ex_program : program ex_ser ex_deser := PStep _ _ ex_op ex_continue.

Lemma ex_world_benign : benign "wf-1" ex_world.
Proof.
  intros n. split; intros d Hd; simpl; [by split|]. by destruct (n =? 1).
Defined.

Lemma step_retry_policy_witness :
  exists d' pauses, run_attempts "wf-1" "charge" ex_config ex_world ex_db
    = (Ok (Succeeded (Some "7"), [JsError "busy"], pauses), d') /\ pauses = [(1 # 2)%Q].
Proof.
  destruct (step_retry_policy "wf-1" "charge" ex_config ex_world) as [H _]; [reflexivity|vm_compute; discriminate|].
  destruct (H (fun n => if n =? 1 then Throw (JsError "busy") else Ok (Some "7"))
    [JsError "busy"] (Succeeded (Some "7")) ex_db) as (d' & ps & Hrun & Hp & _).
  - intros j d. simpl. destruct (j =? 1); reflexivity.
  - intros j d Hc. simpl. destruct (j =? 1); split; exact Hc.
  - vm_compute. reflexivity.
  - intros [|m] e Hm; [|discriminate Hm]. injection Hm as <-. split; reflexivity.
  - simpl. lia.
  - reflexivity.
  - exists d', ps. split; [exact Hrun|exact Hp].
Defined.

Lemma replay_resumes_witness :
  exists d1, exec ex_ser ex_deser (fun _ => ex_world) "wf-1" ex_program 0 d1 = (Ok (Some "7"), d1).
Proof.
  exists (op_run _ _ ex_op "wf-1" 0 ex_world ex_db).2.
  set (d1 := (op_run _ _ ex_op "wf-1" 0 ex_world ex_db).2).
  assert (is_cancelled "wf-1" d1 = false) as Hc by (vm_compute; reflexivity).
  rewrite (replay_resumes ex_ser ex_deser (fun _ => ex_world) (fun _ => ex_world) "wf-1"
    ex_program (PReturn _ _ (Some "7")) 1 ex_db d1 d1).
  - reflexivity.
  - exact ex_db_ok.
  - intros _. exact ex_world_benign.
  - constructor; [reflexivity|]. intros [v|e]; constructor.
  - apply rtc_once.
    apply (progress_step ex_ser ex_deser (fun _ => ex_world) "wf-1" ex_op ex_continue 0
             ex_db (Ok (Some "7")) d1).
    + vm_compute. reflexivity.
    + vm_compute. reflexivity.
    + eexists. vm_compute. reflexivity.
  - exact Hc.
  - intros k _. reflexivity.
Defined.

(** The warning of [callStepFunction] says the interval is capped, but the first pause is the
    configured interval. *)
Example first_pause_uncapped :
  exists d', run_attempts "wf-1" "charge" (ex_config <| sc_intervalSeconds := Some 7200%Q |>)
               ex_world ex_db = (Ok (Succeeded (Some "7"), [JsError "busy"], [7200%Q]), d').
Proof. eexists. vm_compute. reflexivity. Qed.
