(* ===== verification/Executor.v ===== *)
(** The executor (src/src/dbos-executor.ts): starting a workflow, alone or as the child of
    another, running its body under its deadline and recording how it ends, executing a
    stored workflow by its ID, and the recovery of pending workflows.

    The state is the system database and the map of the workflows that run in this process.
    Arguments are opaque: what serializes and deserializes them is a parameter, and so is the
    registry of functions the application fills. *)

From Stdlib Require Import Ascii.
From S2P Require Export StepExecution Management.

(** * Data *)

(** The configuration of a registered workflow *)
Record WorkflowConfig : Type := WorkflowConfigOf {
  wc_maxRecoveryAttempts : option Z;
  wc_serialization : option string
}.

(** The registration of a function: its name, its class, and what it is registered as *)
Record Registration : Type := RegistrationOf {
  rg_name : string;
  rg_className : string;
  rg_workflowConfig : option WorkflowConfig;
  rg_stepConfig : option StepConfig
}.

(** [InternalWorkflowParams], with its [enqueueOptions] spread out; the delay is in
    milliseconds. *)
Record InternalWorkflowParams : Type := InternalWorkflowParamsOf {
  iw_workflowUUID : option string;
  iw_configName : string;
  iw_queueName : option string;
  iw_executeWorkflow : bool;
  iw_timeoutMS : option Z;
  iw_deadlineEpochMS : option Z;
  iw_applicationVersion : option string;
  iw_deduplicationID : option string;
  iw_priority : option Z;
  iw_queuePartitionKey : option string;
  iw_delayMS : option Z;
  iw_debounceDeadlineEpochMS : option Z;
  iw_isDebounced : bool;
  iw_returnExisting : bool;
  iw_workflowAttributes : option json;
  iw_tempWfType : option string;
  iw_tempWfName : option string;
  iw_tempWfClass : option string;
  iw_isRecoveryDispatch : bool;
  iw_isQueueDispatch : bool
}.

#[export] Instance InternalWorkflowParams_eta : Eta InternalWorkflowParams := fun p =>
  InternalWorkflowParamsOf (iw_workflowUUID p) (iw_configName p) (iw_queueName p)
    (iw_executeWorkflow p) (iw_timeoutMS p) (iw_deadlineEpochMS p) (iw_applicationVersion p)
    (iw_deduplicationID p) (iw_priority p) (iw_queuePartitionKey p) (iw_delayMS p)
    (iw_debounceDeadlineEpochMS p) (iw_isDebounced p) (iw_returnExisting p)
    (iw_workflowAttributes p) (iw_tempWfType p) (iw_tempWfName p) (iw_tempWfClass p)
    (iw_isRecoveryDispatch p) (iw_isQueueDispatch p).

(** What the status takes from the context of the caller *)
Record CallerContext : Type := CallerContextOf {
  cc_authenticatedUser : option string;
  cc_assumedRole : option string;
  cc_authenticatedRoles : list string;
  cc_request : option json
}.

(** The readings of clocks and of the random source one start makes: [Date.now()] for the
    status, SQL's [now()], the start and end of the record in the caller, a random workflow ID
    and the owner ID. *)
Record StartReadings : Type := StartReadingsOf {
  rd_now : Z;
  rd_nowMs : Z;
  rd_start : Z;
  rd_end : Z;
  rd_randomUUID : string;
  rd_ownerXid : string
}.

Inductive WorkflowHandle : Type :=
| InvokedHandle (workflowID : string)
| RetrievedHandle (workflowID : option string).

(** The state of the executor *)
Definition exec_state : Type := (sysdb * running_map)%type.

Definition EX (A : Type) : Type := M exec_state dbos_error A.

Definition on_sys {A} (m : DB A) : EX A := fun s =>
  let (o, d) := m s.1 in (o, (d, s.2)).

Definition DEFAULT_MAX_RECOVERY_ATTEMPTS : Z := 100.
Definition tempWorkflowName : string := "temp_workflow".

(** * Starting a workflow *)

Section executor.
Context {Args : Type}
        (serializeArgs : Args -> option string -> string * option string)
        (deserializePositionalArgs : string -> option string -> dbos_error + Args)
        (serializeError : dbos_error -> string)
        (deserializeResError : string -> option string -> dbos_error)
        (serializerName executorID appVersion appID : string).

(** [isTempWorkflow] *)
Definition isTempWorkflow (wf : Registration) (params : InternalWorkflowParams) : bool :=
  bool_decide (rg_name wf = tempWorkflowName)
  || bool_decide (is_Some (truthy_str (iw_tempWfType params))).

(** [wfname] and [wfclassname] *)
Definition wf_names (wf : Registration) (params : InternalWorkflowParams) : string * string :=
  match isTempWorkflow wf params, truthy_str (iw_tempWfName params) with
  | true, Some n => (n, default "" (iw_tempWfClass params))
  | _, _ => (rg_name wf, rg_className wf)
  end.

(** [internalStatus.workflowName]; an absent type or name prints as [undefined]. *)
Definition stored_name (wf : Registration) (params : InternalWorkflowParams) : string :=
  if isTempWorkflow wf params
  then tempWorkflowName +:+ "-" +:+ default "undefined" (iw_tempWfType params) +:+ "-"
       +:+ default "undefined" (iw_tempWfName params)
  else rg_name wf.

Definition wf_config (wf : Registration) (params : InternalWorkflowParams)
    : option WorkflowConfig :=
  if isTempWorkflow wf params then Some (WorkflowConfigOf None None) else rg_workflowConfig wf.

(** [deadlineEpochMS] *)
Definition start_deadline (now : Z) (params : InternalWorkflowParams) : option Z :=
  match truthy_num (iw_timeoutMS params) with
  | Some t => if bool_decide (is_Some (truthy_str (iw_queueName params))) then None
              else Some (now + t)
  | None => iw_deadlineEpochMS params
  end.

(** [delayUntilEpochMS] *)
Definition start_delay (now : Z) (params : InternalWorkflowParams) : option Z :=
  match iw_queueName params, iw_delayMS params with
  | Some _, Some d =>
      if 0 <? d then
        match iw_debounceDeadlineEpochMS params with
        | Some dl => if dl <? now + d then Some dl else Some (now + d)
        | None => Some (now + d)
        end
      else None
  | _, _ => None
  end.

(** [internalStatus] *)
Definition internal_status (wf : Registration) (params : InternalWorkflowParams)
    (callerID : option string) (args : Args) (ctx : CallerContext) (rd : StartReadings)
    : WorkflowStatusInternal :=
  let now := rd_now rd in
  let ser := wf_config wf params ≫= wc_serialization in
  {| i_workflowUUID := default (rd_randomUUID rd) (truthy_str (iw_workflowUUID params));
     i_status := match iw_queueName params with
                 | Some _ => if bool_decide (is_Some (start_delay now params)) then DELAYED
                             else ENQUEUED
                 | None => PENDING
                 end;
     i_workflowName := stored_name wf params;
     i_workflowClassName := (wf_names wf params).2;
     i_workflowConfigName := iw_configName params;
     i_queueName := iw_queueName params;
     i_authenticatedUser := default "" (cc_authenticatedUser ctx);
     i_output := None;
     i_error := None;
     i_input := Some (serializeArgs args ser).1;
     i_assumedRole := default "" (cc_assumedRole ctx);
     i_authenticatedRoles := cc_authenticatedRoles ctx;
     i_request := default (JObj []) (cc_request ctx);
     i_executorId := Some executorID;
     i_applicationVersion := Some (default appVersion (iw_applicationVersion params));
     i_applicationID := appID;
     i_createdAt := now;
     i_updatedAt := None;
     i_recoveryAttempts := None;
     i_timeoutMS := iw_timeoutMS params;
     i_deadlineEpochMS := start_deadline now params;
     i_deduplicationID := iw_deduplicationID params;
     i_priority := default 0 (iw_priority params);
     i_queuePartitionKey := iw_queuePartitionKey params;
     i_startedAtEpochMs := None;
     i_forkedFrom := None;
     i_wasForkedFrom := false;
     i_parentWorkflowID := callerID;
     i_serialization := (serializeArgs args ser).2;
     i_delayUntilEpochMS := start_delay now params;
     i_completedAt := None;
     i_attributes := iw_workflowAttributes params;
     i_scheduleName := None;
     i_debounceDeadlineEpochMS := iw_debounceDeadlineEpochMS params;
     i_isDebounced := iw_isDebounced params |}.

(** The check of the caller's checkpoint: the handle of the child it started, or the error it
    got.  The name of the recorded function is not compared. *)
Definition child_checkpoint (callerID : option string) (callerFunctionID : option Z)
    : EX (option WorkflowHandle) :=
  match callerID, callerFunctionID with
  | Some c, Some f =>
      let* result := on_sys (getOperationResultAndThrowIfCancelled c f) in
      match result with
      | Some r =>
          match truthy_str (sr_error r) with
          | Some e => throw (deserializeResError e (sr_serialization r))
          | None => ret (Some (RetrievedHandle (sr_childWorkflowID r)))
          end
      | None => ret None
      end
  | _, _ => ret None
  end.

(** What the caller's checkpoint records of a deduplication error: only for a caller and a
    function ID that are true, and not under the return-existing policy *)
Definition record_dedup_error (callerID : option string) (callerFunctionID : option Z)
    (returnExisting : bool) (name : string) (rd : StartReadings) (e : dbos_error) : EX unit :=
  match e, truthy_str callerID, truthy_num callerFunctionID, returnExisting with
  | DBOSQueueDuplicatedError _ _ _, Some c, Some f, false =>
      on_sys (recordOperationResult executorID c f name true (rd_start rd) (rd_end rd)
                (no_options <| op_error := Some (serializeError e) |>
                            <| op_serialization := Some serializerName |>))
  | _, _, _, _ => ret tt
  end.

(** The record of the child in the caller *)
Definition record_child (callerID : option string) (callerFunctionID : option Z) (name : string)
    (workflowID : string) (rd : StartReadings) : EX unit :=
  match callerID, callerFunctionID with
  | Some c, Some f =>
      on_sys (recordOperationResult executorID c f name true (rd_start rd) (rd_end rd)
                (no_options <| op_childWorkflowID := Some workflowID |>))
  | _, _ => ret tt
  end.

(** [internalWorkflow], up to the handle it returns.  An [InvokedHandle] is a run that has
    begun: [runWorkflow] below is that run, with the deadline [initWorkflowStatus] gave. *)
Definition internalWorkflow (wf : Registration) (params : InternalWorkflowParams)
    (callerID : option string) (callerFunctionID : option Z) (args : Args) (ctx : CallerContext)
    (rd : StartReadings) : EX WorkflowHandle :=
  match wf_config wf params with
  | None => throw (DBOSNotRegisteredError (rg_name wf) None)
  | Some config =>
      let s := internal_status wf params callerID args ctx rd in
      let workflowID := i_workflowUUID s in
      let maxRecoveryAttempts :=
        default DEFAULT_MAX_RECOVERY_ATTEMPTS (truthy_num (wc_maxRecoveryAttempts config)) in
      let* prior := child_checkpoint callerID callerFunctionID in
      match prior with
      | Some h => ret h
      | None =>
          let* ires := try_catch
            (on_sys (initWorkflowStatus (rd_now rd) (rd_nowMs rd) s (Some (rd_ownerXid rd))
                       (iw_isRecoveryDispatch params) (iw_isQueueDispatch params)
                       (Some maxRecoveryAttempts)))
            (fun e => record_dedup_error callerID callerFunctionID (iw_returnExisting params)
                        (i_workflowName s) rd e ;* throw e) in
          record_child callerID callerFunctionID (i_workflowName s) workflowID rd ;*
          (fun st =>
             if init_shouldExecuteOnThisExecutor ires
                && (negb (bool_decide (is_Some (iw_queueName params))) || iw_executeWorkflow params)
                && negb (checkForRunningWorkflow workflowID st.2)
             then (Ok (InvokedHandle workflowID),
                   (st.1, registerRunningWorkflow workflowID (iw_queueName params)
                            (iw_queuePartitionKey params) st.2))
             else (Ok (RetrievedHandle (Some workflowID)), st))
      end
  end.

(** * Running a workflow *)

(** One run of a workflow: its status, the serialization its row has and whether that is the
    portable one, its deadline, and what it meets: the body up to the deadline and the rest
    of it, when it settles, what other parties do after the run is released, the wait for the
    result when another executor has taken the workflow over, and the clocks. *)
Record Run : Type := RunOf {
  rn_status : WorkflowStatusInternal;
  rn_serialization : option string;
  rn_portable : bool;
  rn_deadline : option Z;
  rn_before : EX unit;
  rn_body : EX (option string);
  rn_finish : Z;
  rn_world : exec_state -> exec_state;
  rn_awaited : EX (option string);
  rn_nowMs : Z
}.

Definition rn_id (r : Run) : string := i_workflowUUID (rn_status r).

(** The state of a run: that of the executor, and [runningWorkflowReleased]. *)
Definition RX (A : Type) : Type := M (exec_state * bool) dbos_error A.

Definition in_run {A} (m : EX A) : RX A := fun s =>
  let (o, st) := m s.1 in (o, (st, s.2)).

(** [releaseRunningWorkflow]; other parties act after it. *)
Definition releaseRunningWorkflow (r : Run) : RX unit := fun s =>
  if s.2 then (Ok tt, s)
  else (Ok tt, (rn_world r (s.1.1, clearRunningWorkflow (rn_id r) s.1.2), true)).

(** [callPromiseWithTimeout]: a body that has not settled at its deadline is cancelled and
    its outcome dropped. *)
Definition callPromiseWithTimeout (r : Run) : EX (option string) :=
  match rn_deadline r with
  | None => rn_before r ;* rn_body r
  | Some dl =>
      rn_before r ;*
      if dl <? rn_finish r then
        on_sys (cancelWorkflows [dl] [rn_id r] false) ;*
        (fun st => (Throw (DBOSWorkflowCancelledError (rn_id r)), (rn_body r st).2))
      else rn_body r
  end.

(** [handleWorkflowError]: what the error is after its serialization *)
Definition handleWorkflowError (r : Run) (e : dbos_error) : RX dbos_error :=
  releaseRunningWorkflow r ;*
  in_run (on_sys (recordWorkflowError (rn_nowMs r) (rn_id r)
                    (rn_status r <| i_error := Some (serializeError e) |>
                                 <| i_status := ERROR |>))) ;*
  ret (deserializeResError (serializeError e) (rn_serialization r)).

(** [runWorkflow] *)
Definition runWorkflow (r : Run) : RX (option string) :=
  try_catch
    (let* result := in_run (callPromiseWithTimeout r) in
     releaseRunningWorkflow r ;*
     in_run (on_sys (recordWorkflowOutput (rn_nowMs r) (rn_id r)
                       (rn_status r <| i_output := result |> <| i_status := SUCCESS |>))) ;*
     ret result)
    (fun err =>
       match err with
       | DBOSWorkflowConflictError _ => in_run (rn_awaited r)
       | DBOSWorkflowCancelledError w =>
           if bool_decide (w = rn_id r) then releaseRunningWorkflow r ;* throw err
           else
             let e := DBOSAwaitedWorkflowCancelledError w in
             handleWorkflowError r e ;* throw e
       | _ =>
           let* e := handleWorkflowError r err in
           throw (if rn_portable r then e else err)
       end).

(** The run with the cleanup of [registerRunningWorkflow] *)
Definition settle (r : Run) (st : exec_state) : outcome dbos_error (option string) * exec_state :=
  let (o, s) := runWorkflow r (st, false) in
  (o, (releaseRunningWorkflow r s).2.1).

(** * Executing a stored workflow *)

(** What [executeWorkflowId] decides to start: a workflow, a step in a workflow of its own, or
    an old workflow of a send *)
Inductive dispatch : Type :=
| DispatchWorkflow (reg : Registration)
| DispatchStep (reg : Registration)
| DispatchSend (name : string).

(** [wfName.split('-')] *)
Fixpoint split_dash (acc s : string) : list string :=
  match s with
  | "" => [acc]
  | String c s' =>
      if bool_decide (c = "-"%char) then acc :: split_dash "" s'
      else split_dash (acc +:+ String c "") s'
  end.

(** The function of a temporary workflow, by the name it was stored under; [registry] is
    [getFunctionRegistrationByName]. *)
Definition find_temp_function (registry : string -> string -> option Registration)
    (workflowID : string) (s : WorkflowStatusInternal) : dbos_error + dispatch :=
  let wfName := i_workflowName s in
  let nameArr := split_dash "" wfName in
  if negb (string_prefixb tempWorkflowName (default "" (nameArr !! 0%nat))) then
    inl (DBOSError ("Cannot find workflow function for a non-temporary workflow, ID " +:+ workflowID
      +:+ ", class '" +:+ i_workflowClassName s +:+ "', function '" +:+ wfName
      +:+ "'; did you change your code?"))
  else if opt_eqb (nameArr !! 1%nat) (Some "step") then
    let name := default "undefined" (nameArr !! 2%nat) in
    match registry (i_workflowClassName s) name with
    | Some reg =>
        if bool_decide (is_Some (rg_stepConfig reg)) then inr (DispatchStep reg)
        else inl (DBOSNotRegisteredError name None)
    | None => inl (DBOSNotRegisteredError name None)
    end
  else if opt_eqb (nameArr !! 1%nat) (Some "send") then
    inr (DispatchSend (default "undefined" (nameArr !! 2%nat)))
  else inl (DBOSNotRegisteredError wfName None).

Definition find_function (registry : string -> string -> option Registration)
    (workflowID : string) (s : WorkflowStatusInternal) : dbos_error + dispatch :=
  match registry (i_workflowClassName s) (i_workflowName s) with
  | Some reg =>
      if bool_decide (is_Some (rg_workflowConfig reg)) then inr (DispatchWorkflow reg)
      else find_temp_function registry workflowID s
  | None => find_temp_function registry workflowID s
  end.

Definition no_params : InternalWorkflowParams :=
  {| iw_workflowUUID := None; iw_configName := ""; iw_queueName := None;
     iw_executeWorkflow := false; iw_timeoutMS := None; iw_deadlineEpochMS := None;
     iw_applicationVersion := None; iw_deduplicationID := None; iw_priority := None;
     iw_queuePartitionKey := None; iw_delayMS := None; iw_debounceDeadlineEpochMS := None;
     iw_isDebounced := false; iw_returnExisting := false; iw_workflowAttributes := None;
     iw_tempWfType := None; iw_tempWfName := None; iw_tempWfClass := None;
     iw_isRecoveryDispatch := false; iw_isQueueDispatch := false |}.

(** [executeWorkflowId]; [configured] tells whether [getConfiguredInstance] finds the named
    instance of the class. *)
Definition executeWorkflowId (configured : string -> string -> bool)
    (registry : string -> string -> option Registration)
    (workflowID : string) (startNewWorkflow isRecoveryDispatch isQueueDispatch : bool)
    (rd : StartReadings) : EX WorkflowHandle := fun st =>
  match mapWorkflowStatus workflowID <$> workflow_status st.1 !! workflowID with
  | None => (Throw (DBOSError ("Failed to find workflow status for workflow UUID: "
                               +:+ workflowID)), st)
  | Some wfStatus =>
      match truthy_str (i_input wfStatus) with
      | None => (Throw (DBOSError ("Failed to find inputs for workflow UUID: " +:+ workflowID)), st)
      | Some input =>
          match deserializePositionalArgs input (i_serialization wfStatus) with
          | inl err =>
              bind (on_sys (recordWorkflowError (rd_nowMs rd) workflowID
                              (wfStatus <| i_error := Some (serializeError err) |>)))
                   (fun _ => throw err) st
          | inr inputs =>
              let ctx := {| cc_authenticatedUser := Some (i_authenticatedUser wfStatus);
                            cc_assumedRole := Some (i_assumedRole wfStatus);
                            cc_authenticatedRoles := i_authenticatedRoles wfStatus;
                            cc_request := Some (i_request wfStatus) |} in
              let configName :=
                if configured (i_workflowClassName wfStatus) (i_workflowConfigName wfStatus)
                then i_workflowConfigName wfStatus else "" in
              let params := no_params
                <| iw_workflowUUID := if startNewWorkflow then None else Some workflowID |>
                <| iw_queueName := i_queueName wfStatus |>
                <| iw_queuePartitionKey := i_queuePartitionKey wfStatus |>
                <| iw_executeWorkflow := true |>
                <| iw_isRecoveryDispatch := isRecoveryDispatch |>
                <| iw_isQueueDispatch := isQueueDispatch |> in
              match find_function registry workflowID wfStatus with
              | inl e => (Throw e, st)
              | inr (DispatchWorkflow reg) =>
                  internalWorkflow reg
                    (params <| iw_configName := configName |>
                            <| iw_deadlineEpochMS := i_deadlineEpochMS wfStatus |>)
                    None None inputs ctx rd st
              | inr (DispatchStep reg) =>
                  internalWorkflow (RegistrationOf "temp_workflow" "" None None)
                    (params <| iw_configName := configName |>
                            <| iw_tempWfType := Some "step" |>
                            <| iw_tempWfName := Some (rg_name reg) |>
                            <| iw_tempWfClass := Some (rg_className reg) |>)
                    None None inputs ctx rd st
              | inr (DispatchSend name) =>
                  internalWorkflow (RegistrationOf "swf" "" None None)
                    (params <| iw_tempWfType := Some "send" |>
                            <| iw_tempWfName := Some name |>)
                    None None inputs ctx rd st
              end
          end
      end
  end.

(** [recoverPendingWorkflows]; each executor ID has its reading of the clock. *)
Fixpoint recoverPendingWorkflows (executorIDs : list (string * Z)) : EX (list WorkflowHandle) :=
  match executorIDs with
  | [] => ret []
  | (execID, now) :: rest =>
      let* ids := on_sys (reenqueueWorkflowsForRecovery now execID appVersion INTERNAL_QUEUE_NAME) in
      let* handles := recoverPendingWorkflows rest in
      ret (((fun id => RetrievedHandle (Some id)) <$> ids) ++ handles)
  end.

(** * Lemmas: starting *)

(** Creating a workflow does not touch the checkpoints. *)
Lemma init_outputs now nowMs s xid rec deq mx d :
  operation_outputs (initWorkflowStatus now nowMs s xid rec deq mx d).2 = operation_outputs d.
Proof.
  assert (forall d, operation_outputs (insertWorkflowStatus now s xid (rec || deq) d).2
                    = operation_outputs d) as Hi.
  { intros d0. unfold insertWorkflowStatus. destruct (workflow_status d0 !! _) eqn:E; [done|].
    unfold insert_workflow_status. rewrite E. by destruct (dedup_uniqueb _). }
  assert (forall id st u w d, operation_outputs (updateWorkflowStatus nowMs id st u w false d).2
                              = operation_outputs d) as Hu.
  { intros id st u w d0. unfold updateWorkflowStatus, bind, update_workflow_status.
    by destruct (dedup_uniqueb _). }
  unfold initWorkflowStatus. pose proof (Hi d) as H1.
  destruct (insertWorkflowStatus _ _ _ _ d) as [[[rr s']|e] d1]; [|done]. simpl in H1.
  repeat (case_match; try done).
  all: match goal with
       | H : updateWorkflowStatus _ ?id ?st ?u ?w _ ?d0 = _ |- _ =>
           pose proof (Hu id st u w d0) as H9; rewrite H in H9; simpl in *; congruence
       end.
Qed.

Lemma init_keeps now nowMs s xid rec deq mx d o d' :
  db_ok d -> initWorkflowStatus now nowMs s xid rec deq mx d = (o, d') ->
  db_ok d' /\ operation_outputs d' = operation_outputs d.
Proof.
  intros Hd Hi. pose proof (preserves_initWorkflowStatus now nowMs s xid rec deq mx d Hd) as Hp.
  pose proof (init_outputs now nowMs s xid rec deq mx d) as Ho. by rewrite Hi in Hp, Ho.
Qed.

Lemma wf_exists_claimed x c d id : wf_exists d id -> wf_exists (claimed x c d) id.
Proof.
  unfold wf_exists. rewrite <- (fmap_is_Some ws_status), <- (fmap_is_Some ws_status (workflow_status (claimed x c d) !! id)).
  by rewrite claimed_status.
Qed.

(** A created workflow is there. *)
Lemma init_ok_exists now nowMs s xid rec deq mx d res d' :
  initWorkflowStatus now nowMs s xid rec deq mx d = (Ok res, d') -> wf_exists d' (i_workflowUUID s).
Proof.
  unfold initWorkflowStatus.
  destruct (insertWorkflowStatus _ _ _ _ d) as [[[rr s']|e] d1] eqn:E; [|done].
  assert (i_workflowUUID s' = i_workflowUUID s /\ wf_exists d1 (i_workflowUUID s)
          /\ (wf_exists d (i_workflowUUID s) \/ r_owner_xid rr = xid)) as (Hid & Hex & Hold).
  { unfold insertWorkflowStatus, insert_workflow_status in E. unfold wf_exists.
    destruct (workflow_status d !! i_workflowUUID s) as [old|] eqn:Eo.
    - simplify_eq. simpl. rewrite lookup_insert_eq. eauto.
    - destruct (dedup_uniqueb _); simplify_eq. simpl. rewrite lookup_insert_eq. eauto. }
  repeat (case_match; try done); intros; simplify_eq; try done.
  destruct Hold as [Hold|Hold]; [done|]. exfalso. break_bool.
  unfold opt_eqb in *. break_bool. congruence.
Qed.

Lemma on_sys_run {A} (m : DB A) st :
  on_sys m st = ((m st.1).1, ((m st.1).2, st.2)).
Proof. unfold on_sys. by destruct (m st.1). Qed.

(** The child check without a caller *)
Lemma child_checkpoint_none callerID fid st :
  callerID = None \/ fid = None -> child_checkpoint callerID fid st = (Ok None, st).
Proof. intros [->| ->]; unfold child_checkpoint; [|destruct callerID]; done. Qed.

(** A recorded child is what the check finds. *)
Lemma child_checkpoint_replay c f r st :
  is_cancelled c st.1 = false -> operation_outputs st.1 !! (c, f) = Some r ->
  oo_error r = None ->
  child_checkpoint (Some c) (Some f) st = (Ok (Some (RetrievedHandle (oo_child_workflow_id r))), st).
Proof.
  intros Hc Hr He. unfold child_checkpoint, bind. rewrite on_sys_run, getOperationResult_run, Hc, Hr.
  simpl. rewrite He. by destruct st.
Qed.

Lemma child_checkpoint_fresh c f st :
  operation_outputs st.1 !! (c, f) = None ->
  child_checkpoint (Some c) (Some f) st
  = (if is_cancelled c st.1 then Throw (DBOSWorkflowCancelledError c) else Ok None, st).
Proof.
  intros Hr. unfold child_checkpoint, bind. rewrite on_sys_run, getOperationResult_run, Hr. simpl.
  destruct (is_cancelled c st.1); by destruct st.
Qed.

(** How a start that returns a new handle went: the status was created, the caller's
    checkpoint written, and the run registered or not. *)
Lemma internalWorkflow_inv wf params callerID fid args ctx rd st h st' :
  child_checkpoint callerID fid st = (Ok None, st) ->
  internalWorkflow wf params callerID fid args ctx rd st = (Ok h, st') ->
  exists config ires d1 d2,
    let s := internal_status wf params callerID args ctx rd in
    let id := i_workflowUUID s in
    wf_config wf params = Some config
    /\ initWorkflowStatus (rd_now rd) (rd_nowMs rd) s (Some (rd_ownerXid rd))
         (iw_isRecoveryDispatch params) (iw_isQueueDispatch params)
         (Some (default DEFAULT_MAX_RECOVERY_ATTEMPTS (truthy_num (wc_maxRecoveryAttempts config))))
         st.1 = (Ok ires, d1)
    /\ record_child callerID fid (i_workflowName s) id rd (d1, st.2) = (Ok tt, (d2, st.2))
    /\ st'.1 = d2
    /\ if init_shouldExecuteOnThisExecutor ires
          && (negb (bool_decide (is_Some (iw_queueName params))) || iw_executeWorkflow params)
          && negb (checkForRunningWorkflow id st.2)
       then h = InvokedHandle id
            /\ st'.2 = registerRunningWorkflow id (iw_queueName params)
                         (iw_queuePartitionKey params) st.2
       else h = RetrievedHandle (Some id) /\ st'.2 = st.2.
Proof.
  intros Hchk. unfold internalWorkflow. destruct (wf_config wf params) as [config|] eqn:Ec; [|done].
  set (s := internal_status wf params callerID args ctx rd). unfold bind at 1. rewrite Hchk.
  unfold bind at 1. unfold try_catch. rewrite on_sys_run.
  destruct (initWorkflowStatus _ _ _ _ _ _ _ st.1) as [[ires|e] d1] eqn:Ei; cbn [fst snd].
  2: { unfold bind. destruct (record_dedup_error _ _ _ _ _ _ _) as [[?|?] ?]; done. }
  unfold bind at 1. destruct (record_child _ _ _ _ _ (d1, st.2)) as [[[]|e] [d2 m2]] eqn:Er; [|done].
  assert (m2 = st.2) as ->.
  { unfold record_child in Er. destruct callerID, fid; try (by injection Er as <- <-).
    rewrite on_sys_run in Er. by injection Er as _ <- <-. }
  intros Hrun. exists config, ires, d1, d2. cbn zeta. fold s. rewrite Ei.
  do 3 (split; [done|]). destruct (_ && _ && _); injection Hrun as <- <-; done.
Qed.

(** Outside of a workflow the database moves by [initWorkflowStatus] alone. *)
Lemma internalWorkflow_top wf params config args ctx rd (st : exec_state) :
  wf_config wf params = Some config ->
  let res := internalWorkflow wf params None None args ctx rd st in
  let init := initWorkflowStatus (rd_now rd) (rd_nowMs rd)
                (internal_status wf params None args ctx rd)
                (Some (rd_ownerXid rd)) (iw_isRecoveryDispatch params) (iw_isQueueDispatch params)
                (Some (default DEFAULT_MAX_RECOVERY_ATTEMPTS (truthy_num (wc_maxRecoveryAttempts config)))) st.1 in
  res.2.1 = init.2 /\ is_ok res.1 = is_ok init.1.
Proof.
  intros Hc. cbv zeta. unfold internalWorkflow. rewrite Hc.
  unfold bind, child_checkpoint, record_child, record_dedup_error, try_catch, on_sys, ret, throw.
  destruct (initWorkflowStatus _ _ _ _ _ _ _ st.1) as [[ires|e] d1]; cbn [fst snd].
  - by match goal with |- context [if ?b then (Ok (InvokedHandle _), _) else _] => destruct b end.
  - by destruct e.
Qed.

Definition handle_id (h : WorkflowHandle) : option string :=
  match h with InvokedHandle id => Some id | RetrievedHandle o => o end.

(** A start that fails leaves the map of running workflows alone. *)
Lemma internalWorkflow_throw_map wf params callerID fid args ctx rd st e st' :
  internalWorkflow wf params callerID fid args ctx rd st = (Throw e, st') -> st'.2 = st.2.
Proof.
  assert (forall A (m : DB A) t, (on_sys m t).2.2 = t.2) as Hs by (intros; by rewrite on_sys_run).
  unfold internalWorkflow. destruct (wf_config wf params) as [config|]; [|by intros [= _ <-]].
  unfold bind at 1.
  assert ((child_checkpoint callerID fid st).2.2 = st.2) as Hc.
  { unfold child_checkpoint. destruct callerID, fid; try done. unfold bind.
    rewrite on_sys_run, getOperationResult_run. simpl.
    destruct (is_cancelled _ _); [done|]. simpl.
    destruct (operation_outputs _ !! _); simpl; [by destruct (truthy_str _)|done]. }
  destruct (child_checkpoint _ _ st) as [[[h|]|e0] st1]; simpl in Hc; [done| |by intros [= _ <-]].
  unfold bind at 1. unfold try_catch. rewrite on_sys_run.
  destruct (initWorkflowStatus _ _ _ _ _ _ _ st1.1) as [[ires|e1] d1]; cbn [fst snd].
  - unfold bind. destruct (record_child _ _ _ _ _ _) as [[[]|e2] t] eqn:Er.
    + by destruct (_ && _ && _).
    + intros [= _ <-]. unfold record_child in Er.
      destruct callerID, fid; try discriminate Er.
      rewrite on_sys_run in Er. injection Er as _ <-. done.
  - unfold bind. destruct (record_dedup_error _ _ _ _ _ _ _) as [[[]|e2] t] eqn:Er;
      intros [= _ <-]; unfold record_dedup_error in Er; repeat case_match;
      first [rewrite on_sys_run in Er; by injection Er as _ <- | by injection Er as <- | done].
Qed.

(** * Lemmas: running *)

(** The run after its body has settled, when the outcome is to be recorded as [status] *)
Definition recorded_run (r : Run) (status : StatusString) (output error : option string)
    (o : outcome dbos_error (option string)) (st : exec_state)
    : outcome dbos_error (option string) * exec_state :=
  let st2 := rn_world r (st.1, clearRunningWorkflow (rn_id r) st.2) in
  match recordWorkflowOutcome (rn_nowMs r) (rn_id r) status output error st2.1 with
  | (Ok _, d) => (o, (d, st2.2))
  | (Throw e, d) => (Throw e, (d, st2.2))
  end.

Lemma handleWorkflowError_run r e st :
  handleWorkflowError r e (st, false)
  = let st2 := rn_world r (st.1, clearRunningWorkflow (rn_id r) st.2) in
    match recordWorkflowOutcome (rn_nowMs r) (rn_id r) ERROR None (Some (serializeError e)) st2.1 with
    | (Ok _, d) => (Ok (deserializeResError (serializeError e) (rn_serialization r)),
                    ((d, st2.2), true))
    | (Throw e', d) => (Throw e', ((d, st2.2), true))
    end.
Proof.
  unfold handleWorkflowError, releaseRunningWorkflow, bind, in_run. cbn [fst snd].
  rewrite on_sys_run. unfold recordWorkflowError. simpl.
  by destruct (recordWorkflowOutcome _ _ _ _ _ _) as [[[]|?] ?].
Qed.

(** Recording an outcome only ever throws the cancellation of its workflow. *)
Lemma recordWorkflowOutcome_throws nowMs id status o e d x d' :
  db_ok d -> status <> CANCELLED ->
  recordWorkflowOutcome nowMs id status o e d = (Throw x, d') ->
  x = DBOSWorkflowCancelledError id /\ d' = d.
Proof.
  intros Hd Hs. rewrite recordWorkflowOutcome_run by done.
  destruct (workflow_status d !! id); [case_decide|]; by intros [= <- <-].
Qed.

Lemma settle_ok r st v st1 :
  callPromiseWithTimeout r st = (Ok v, st1) ->
  db_ok (rn_world r (st1.1, clearRunningWorkflow (rn_id r) st1.2)).1 ->
  settle r st = recorded_run r SUCCESS v None (Ok v) st1.
Proof.
  intros Hrun Hok. unfold settle, runWorkflow, recorded_run, try_catch, in_run, bind.
  cbn [fst snd]. rewrite Hrun. unfold releaseRunningWorkflow. cbn [fst snd].
  rewrite on_sys_run. cbn [fst snd]. unfold recordWorkflowOutput. simpl.
  destruct (recordWorkflowOutcome _ _ _ _ _ _) as [[[]|e] d] eqn:E; [done|].
  apply recordWorkflowOutcome_throws in E as [-> ->]; [|done|done].
  simpl. by rewrite bool_decide_true.
Qed.

Lemma settle_error r st err st1 :
  callPromiseWithTimeout r st = (Throw err, st1) ->
  (forall w, err <> DBOSWorkflowConflictError w) -> (forall w, err <> DBOSWorkflowCancelledError w) ->
  settle r st
  = recorded_run r ERROR None (Some (serializeError err))
      (Throw (if rn_portable r
              then deserializeResError (serializeError err) (rn_serialization r) else err)) st1.
Proof.
  intros Hrun Hnc Hnx. unfold settle, runWorkflow, try_catch, in_run at 1, bind at 1.
  cbn [fst snd]. rewrite Hrun. cbv beta iota.
  assert (forall k : RX (option string),
    (match err with
     | DBOSWorkflowConflictError _ => in_run (rn_awaited r)
     | DBOSWorkflowCancelledError w =>
         if bool_decide (w = rn_id r) then releaseRunningWorkflow r ;* throw err
         else handleWorkflowError r (DBOSAwaitedWorkflowCancelledError w) ;*
              throw (DBOSAwaitedWorkflowCancelledError w)
     | _ => k
     end) = k) as Hk
    by (intros; destruct err; try done; [by edestruct Hnc | by edestruct Hnx]).
  rewrite Hk. unfold bind. rewrite handleWorkflowError_run. unfold recorded_run. cbn zeta.
  destruct (recordWorkflowOutcome _ _ _ _ _ _) as [[[]|e] d]; [|done].
  by destruct (rn_portable r).
Qed.

Lemma settle_conflict r st w st1 :
  callPromiseWithTimeout r st = (Throw (DBOSWorkflowConflictError w), st1) ->
  settle r st = let (o, st2) := rn_awaited r st1 in
                (o, rn_world r (st2.1, clearRunningWorkflow (rn_id r) st2.2)).
Proof.
  intros Hrun. unfold settle, runWorkflow, try_catch, in_run at 1, bind at 1. cbn [fst snd].
  rewrite Hrun. cbv beta iota. unfold in_run. cbn [fst snd]. by destruct (rn_awaited r st1).
Qed.

Lemma settle_cancelled r st st1 :
  callPromiseWithTimeout r st = (Throw (DBOSWorkflowCancelledError (rn_id r)), st1) ->
  settle r st = (Throw (DBOSWorkflowCancelledError (rn_id r)),
                 rn_world r (st1.1, clearRunningWorkflow (rn_id r) st1.2)).
Proof.
  intros Hrun. unfold settle, runWorkflow, try_catch, in_run at 1, bind at 1. cbn [fst snd].
  rewrite Hrun. cbv beta iota. by rewrite bool_decide_true.
Qed.

Lemma settle_awaited_cancelled r st w st1 :
  callPromiseWithTimeout r st = (Throw (DBOSWorkflowCancelledError w), st1) -> w <> rn_id r ->
  settle r st
  = recorded_run r ERROR None (Some (serializeError (DBOSAwaitedWorkflowCancelledError w)))
      (Throw (DBOSAwaitedWorkflowCancelledError w)) st1.
Proof.
  intros Hrun Hne. unfold settle, runWorkflow, try_catch, in_run at 1, bind at 1. cbn [fst snd].
  rewrite Hrun. cbv beta iota. rewrite bool_decide_false by done. cbn zeta.
  unfold bind. rewrite handleWorkflowError_run. unfold recorded_run. cbn zeta.
  by destruct (recordWorkflowOutcome _ _ _ _ _ _) as [[[]|e] d].
Qed.

(** * Properties *)

(** A child workflow is started once.  A start by a caller at a function ID that has no
    checkpoint, when it returns a handle, has created the child and checkpointed its ID;
    from then on, as long as the caller is not cancelled and the checkpoint is there, every
    start at that function ID returns a handle of that same child and changes nothing,
    whatever its arguments, the random ID it drew, and the state of the rest. *)
Theorem child_started_once wf params c f args ctx rd st h st' :
  db_ok st.1 -> operation_outputs st.1 !! (c, f) = None ->
  internalWorkflow wf params (Some c) (Some f) args ctx rd st = (Ok h, st') ->
  let id := i_workflowUUID (internal_status wf params (Some c) args ctx rd) in
  handle_id h = Some id /\ wf_exists st'.1 id
  /\ (exists r, operation_outputs st'.1 !! (c, f) = Some r /\ oo_child_workflow_id r = Some id
        /\ oo_function_name r = stored_name wf params)
  /\ forall wf2 params2 args2 ctx2 rd2 st2,
       is_Some (wf_config wf2 params2) ->
       is_cancelled c st2.1 = false -> same_checkpoint c f st'.1 st2.1 ->
       internalWorkflow wf2 params2 (Some c) (Some f) args2 ctx2 rd2 st2
       = (Ok (RetrievedHandle (Some id)), st2).
Proof.
  intros Hd Hn Hrun id.
  assert (child_checkpoint (Some c) (Some f) st = (Ok None, st)) as Hchk.
  { rewrite child_checkpoint_fresh by done. destruct (is_cancelled c st.1) eqn:Hc; [|done].
    unfold internalWorkflow in Hrun. destruct (wf_config wf params); [|done].
    unfold bind at 1 in Hrun. by rewrite child_checkpoint_fresh, Hc in Hrun. }
  destruct (internalWorkflow_inv _ _ _ _ _ _ _ _ _ _ Hchk Hrun)
    as (config & ires & d1 & d2 & _ & Hinit & Hrec & Hst' & Hh).
  pose proof (init_ok_exists _ _ _ _ _ _ _ _ _ _ Hinit) as Hex.
  destruct (init_keeps _ _ _ _ _ _ _ _ _ _ Hd Hinit) as [Hd1 Ho].
  unfold record_child in Hrec. rewrite on_sys_run in Hrec. cbn [fst snd] in Hrec.
  destruct (recordOperationResult _ _ _ _ _ _ _ _ d1) as [o d2'] eqn:Er.
  injection Hrec as -> ->. unfold recordOperationResult in Er.
  apply record_ok_row in Er as [Hr Hd2]; [|done|by rewrite Ho].
  assert (handle_id h = Some id) as Hid
    by (destruct (_ && _ && _); destruct Hh as [-> _]; done).
  split; [done|]. rewrite Hst'. split.
  { rewrite Hd2. by apply wf_exists_claimed. }
  split; [eexists; split; [exact Hr|by split]|].
  intros wf2 params2 args2 ctx2 rd2 st2 [cf Hcf] Hc2 Hs2. unfold internalWorkflow. rewrite Hcf.
  unfold bind. unfold same_checkpoint in Hs2. rewrite Hr in Hs2.
  by rewrite (child_checkpoint_replay c f _ st2 Hc2 (eq_sym Hs2)).
Qed.

(** A process runs a workflow at most once at a time: a start returns a running handle
    only for a workflow that was not running here, and enters it in the map of running
    workflows; a start of a workflow that is in the map never runs it; a workflow on a
    queue is only run by the queue's dispatch; and every other start, failed ones included,
    leaves the map alone. *)
Theorem start_runs_once wf params callerID fid args ctx rd st o st' :
  child_checkpoint callerID fid st = (Ok None, st) ->
  internalWorkflow wf params callerID fid args ctx rd st = (o, st') ->
  let id := i_workflowUUID (internal_status wf params callerID args ctx rd) in
  match o with
  | Ok (InvokedHandle id') =>
      id' = id /\ checkForRunningWorkflow id st.2 = false /\ checkForRunningWorkflow id st'.2 = true
      /\ (forall k, k <> id -> st'.2 !! k = st.2 !! k)
      /\ (iw_queueName params = None \/ iw_executeWorkflow params = true)
  | Ok (RetrievedHandle id') => id' = Some id /\ st'.2 = st.2
  | Throw _ => st'.2 = st.2
  end.
Proof.
  intros Hchk Hrun id. destruct o as [h|e]; [|by eapply internalWorkflow_throw_map].
  destruct (internalWorkflow_inv _ _ _ _ _ _ _ _ _ _ Hchk Hrun)
    as (config & ires & d1 & d2 & _ & _ & _ & _ & Hh).
  destruct (_ && _ && _) eqn:E; destruct Hh as [-> Hm]; [|done].
  apply andb_true_iff in E as [E Hnr]. apply andb_true_iff in E as [_ Hq].
  apply negb_true_iff in Hnr. split; [done|]. split; [done|]. rewrite Hm.
  unfold registerRunningWorkflow, checkForRunningWorkflow.
  split; [apply bool_decide_eq_true; unfold id; rewrite lookup_insert_eq; eauto|].
  split; [intros k Hk; by rewrite lookup_insert_ne|].
  apply orb_true_iff in Hq as [Hq|Hq]; [left|by right].
  apply negb_true_iff, bool_decide_eq_false in Hq. by destruct (iw_queueName params); [destruct Hq; eauto|].
Qed.

(** How a run ends, by the outcome of the race with its deadline *)
Lemma settle_cases r st o st1 :
  callPromiseWithTimeout r st = (o, st1) ->
  let st2 := rn_world r (st1.1, clearRunningWorkflow (rn_id r) st1.2) in
  let stored := fun status output error res =>
    match workflow_status st2.1 !! rn_id r with
    | Some row =>
        if decide (ws_status row = CANCELLED)
        then (Throw (DBOSWorkflowCancelledError (rn_id r)), st2)
        else (res, (st2.1 <| workflow_status ::= <[rn_id r := row
                       <| ws_status := status |> <| ws_updated_at := rn_nowMs r |>
                       <| ws_output := match truthy_str output with
                                       | Some o => Some o | None => ws_output row end |>
                       <| ws_error := match truthy_str error with
                                      | Some e => Some e | None => ws_error row end |>
                       <| ws_deduplication_id := None |>
                       <| ws_completed_at := Some (rn_nowMs r) |>]> |>, st2.2))
    | None => (res, st2)
    end in
  db_ok st2.1 ->
  settle r st =
  match o with
  | Ok v => stored SUCCESS v None (Ok v)
  | Throw (DBOSWorkflowConflictError _) =>
      let (res, st3) := rn_awaited r st1 in
      (res, rn_world r (st3.1, clearRunningWorkflow (rn_id r) st3.2))
  | Throw (DBOSWorkflowCancelledError w) =>
      if decide (w = rn_id r) then (Throw (DBOSWorkflowCancelledError w), st2)
      else let e := DBOSAwaitedWorkflowCancelledError w in
           stored ERROR None (Some (serializeError e)) (Throw e)
  | Throw e =>
      stored ERROR None (Some (serializeError e))
        (Throw (if rn_portable r
                then deserializeResError (serializeError e) (rn_serialization r) else e))
  end.
Proof.
  intros Hrun st2 stored Hok.
  assert (forall status output error res, status <> CANCELLED ->
    recorded_run r status output error res st1 = stored status output error res) as Hrec.
  { intros status output error res Hs. unfold recorded_run, stored. fold st2.
    rewrite recordWorkflowOutcome_run by done.
    destruct (workflow_status st2.1 !! rn_id r); [case_decide|]; by destruct st2. }
  destruct o as [v|e].
  - rewrite (settle_ok r st v st1) by done. by rewrite Hrec.
  - destruct e;
      try (rewrite (settle_error r st _ st1 Hrun) by done; by rewrite Hrec).
    + by eapply settle_conflict.
    + case_decide as E; [subst; by apply settle_cancelled|].
      rewrite (settle_awaited_cancelled r st _ st1) by done. by rewrite Hrec.
Qed.

(** A body that has settled by its deadline is not raced. *)
Definition in_time (r : Run) : Prop :=
  match rn_deadline r with Some dl => rn_finish r <= dl | None => True end.

Lemma call_in_time r st : in_time r -> callPromiseWithTimeout r st = (rn_before r ;* rn_body r) st.
Proof.
  unfold in_time, callPromiseWithTimeout. destruct (rn_deadline r) as [dl|]; [|done]. intros H.
  assert (dl <? rn_finish r = false) as -> by lia. done.
Qed.

(** A body that is late: its workflow is cancelled, and its outcome is dropped. *)
Lemma call_late r dl st st0 :
  rn_deadline r = Some dl -> dl < rn_finish r -> rn_before r st = (Ok tt, st0) -> db_ok st0.1 ->
  callPromiseWithTimeout r st
  = (Throw (DBOSWorkflowCancelledError (rn_id r)),
     (rn_body r (st0.1 <| workflow_status ::=
                   update_where (fun id row => mem id [rn_id r] && not_finished row) (cancelled dl) |>, st0.2)).2).
Proof.
  intros Hdl Hlt Hb Hd. unfold callPromiseWithTimeout. rewrite Hdl. unfold bind at 1. rewrite Hb.
  assert (dl <? rn_finish r = true) as -> by lia. unfold bind. rewrite on_sys_run.
  change (cancelWorkflows [dl] [rn_id r] false st0.1) with (cancelStatement dl [rn_id r] st0.1).
  by rewrite (cancelStatement_run dl [rn_id r] st0.1 (ok_dedup _ Hd)).
Qed.

(** C19: How a run ends.  Of a run whose body settles by its deadline, a value is stored as the
    output with SUCCESS, an error as the error with ERROR, the cancellation of another workflow as
    the awaited-cancelled error; a run that finds its workflow cancelled stores nothing, nor does
    one another executor took over, which waits for that one's result.  The entry of the running
    map is released before the outcome is stored and only then, so that an entry a resumed run has
    made in between survives.  A run that is late past its deadline has its workflow cancelled,
    before the rest of its body runs, and whatever that comes to is dropped: it throws that it was
    cancelled, and stores nothing. *)
Theorem runWorkflow_settles r st :
  (forall o st1,
    in_time r -> (rn_before r ;* rn_body r) st = (o, st1) ->
    let st2 := rn_world r (st1.1, clearRunningWorkflow (rn_id r) st1.2) in
    let stored := fun status output error res =>
      match workflow_status st2.1 !! rn_id r with
      | Some row =>
          if decide (ws_status row = CANCELLED)
          then (Throw (DBOSWorkflowCancelledError (rn_id r)), st2)
          else (res, (st2.1 <| workflow_status ::= <[rn_id r := row
                         <| ws_status := status |> <| ws_updated_at := rn_nowMs r |>
                         <| ws_output := match truthy_str output with
                                         | Some o => Some o | None => ws_output row end |>
                         <| ws_error := match truthy_str error with
                                        | Some e => Some e | None => ws_error row end |>
                         <| ws_deduplication_id := None |>
                         <| ws_completed_at := Some (rn_nowMs r) |>]> |>, st2.2))
      | None => (res, st2)
      end in
    db_ok st2.1 ->
    settle r st =
    match o with
    | Ok v => stored SUCCESS v None (Ok v)
    | Throw (DBOSWorkflowConflictError _) =>
        let (res, st3) := rn_awaited r st1 in
        (res, rn_world r (st3.1, clearRunningWorkflow (rn_id r) st3.2))
    | Throw (DBOSWorkflowCancelledError w) =>
        if decide (w = rn_id r) then (Throw (DBOSWorkflowCancelledError w), st2)
        else let e := DBOSAwaitedWorkflowCancelledError w in
             stored ERROR None (Some (serializeError e)) (Throw e)
    | Throw e =>
        stored ERROR None (Some (serializeError e))
          (Throw (if rn_portable r
                  then deserializeResError (serializeError e) (rn_serialization r) else e))
    end)
  /\ (forall dl st0,
    rn_deadline r = Some dl -> dl < rn_finish r -> rn_before r st = (Ok tt, st0) -> db_ok st0.1 ->
    let row_cancelled := st0.1 <| workflow_status ::=
      update_where (fun id row => mem id [rn_id r] && not_finished row) (cancelled dl) |> in
    let st1 := (rn_body r (row_cancelled, st0.2)).2 in
    settle r st = (Throw (DBOSWorkflowCancelledError (rn_id r)),
                   rn_world r (st1.1, clearRunningWorkflow (rn_id r) st1.2))
    /\ forall row, workflow_status st0.1 !! rn_id r = Some row -> not_finished row = true ->
         ws_status <$> workflow_status row_cancelled !! rn_id r = Some CANCELLED).
Proof.
  split.
  - intros o st1 Ht Hrun. apply settle_cases. by rewrite call_in_time.
  - intros dl st0 Hdl Hlt Hb Hd row_cancelled st1.
    pose proof (call_late r dl st st0 Hdl Hlt Hb Hd) as Hcall. fold row_cancelled st1 in Hcall. split.
    + by apply (settle_cancelled r st st1).
    + intros row Hr Hn. unfold row_cancelled. simpl. rewrite lookup_update_where, Hr. simpl.
      rewrite Hn. by rewrite (proj2 (mem_spec _ _) (list_elem_of_here _ _)).
Qed.

End executor.

(** * Witnesses *)

Definition ex_args (a : string) (_ : option string) : string * option string :=
  (a, Some "js_superjson").

Definition ex_child : Registration :=
  RegistrationOf "ship" "Orders" (Some (WorkflowConfigOf None None)) None.

Definition ex_ctx : CallerContext := CallerContextOf None None [] None.

Definition ex_readings : StartReadings := StartReadingsOf 100 100 100 101 "wf-9" "xid-9".

Definition ex_state : exec_state := (ex_db, ∅).

(** The child [ship], started by the first call of [wf-1] *)
Definition ex_start : EX WorkflowHandle :=
  internalWorkflow ex_args ex_ser ex_deser "js_superjson" "exec-1" "v1" "" ex_child no_params
    (Some "wf-1") (Some 0) "[1]" ex_ctx ex_readings.

Lemma ex_start_run : ex_start ex_state = (Ok (InvokedHandle "wf-9"), (ex_start ex_state).2).
Proof. vm_compute. reflexivity. Defined.

Lemma child_started_once_witness :
  internalWorkflow ex_args ex_ser ex_deser "js_superjson" "exec-1" "v1" "" ex_child no_params
    (Some "wf-1") (Some 0) "[2]" ex_ctx (StartReadingsOf 200 200 200 201 "wf-10" "xid-10")
    ((ex_start ex_state).2.1, ∅)
  = (Ok (RetrievedHandle (Some "wf-9")), ((ex_start ex_state).2.1, ∅)).
Proof.
  pose proof (child_started_once ex_args ex_ser ex_deser "js_superjson" "exec-1" "v1" ""
    ex_child no_params "wf-1" 0 "[1]" ex_ctx ex_readings ex_state (InvokedHandle "wf-9")
    (ex_start ex_state).2 ex_db_ok ltac:(vm_compute; reflexivity) ex_start_run)
    as (_ & _ & _ & H).
  apply (H ex_child no_params "[2]" ex_ctx (StartReadingsOf 200 200 200 201 "wf-10" "xid-10")
           ((ex_start ex_state).2.1, ∅)).
  - eexists. reflexivity.
  - vm_compute. reflexivity.
  - reflexivity.
Defined.

Lemma start_runs_once_witness :
  checkForRunningWorkflow "wf-9" (ex_start ex_state).2.2 = true.
Proof.
  pose proof (start_runs_once ex_args ex_ser ex_deser "js_superjson" "exec-1" "v1" ""
    ex_child no_params (Some "wf-1") (Some 0) "[1]" ex_ctx ex_readings ex_state
    (Ok (InvokedHandle "wf-9")) (ex_start ex_state).2 ltac:(vm_compute; reflexivity)
    ex_start_run) as (_ & _ & H & _).
  exact H.
Defined.

(** A run of [wf-1] that returns 42; the entry of the map is that of the run. *)
Definition ex_run : Run :=
  {| rn_status := ex_status; rn_serialization := None; rn_portable := false; rn_deadline := None;
     rn_before := ret tt; rn_body := ret (Some "42"); rn_finish := 5; rn_world := fun s => s;
     rn_awaited := ret None; rn_nowMs := 7 |}.

(** The same run with a deadline that it misses *)
Definition ex_late_run : Run :=
  {| rn_status := ex_status; rn_serialization := None; rn_portable := false; rn_deadline := Some 4;
     rn_before := ret tt; rn_body := ret (Some "42"); rn_finish := 5; rn_world := fun s => s;
     rn_awaited := ret None; rn_nowMs := 7 |}.

Lemma runWorkflow_settles_witness :
  ws_status <$> workflow_status (settle ex_ser ex_deser ex_run ex_state).2.1 !! "wf-1"
  = Some SUCCESS
  /\ (settle ex_ser ex_deser ex_late_run ex_state).1 = Throw (DBOSWorkflowCancelledError "wf-1")
  /\ ws_status <$> workflow_status (settle ex_ser ex_deser ex_late_run ex_state).2.1 !! "wf-1"
     = Some CANCELLED.
Proof.
  split.
  - rewrite (proj1 (runWorkflow_settles ex_ser ex_deser ex_run ex_state) (Ok (Some "42")) ex_state I eq_refl
      ex_db_ok).
    vm_compute. reflexivity.
  - destruct (proj2 (runWorkflow_settles ex_ser ex_deser ex_late_run ex_state) 4 ex_state eq_refl
      eq_refl eq_refl ex_db_ok) as [-> _].
    vm_compute. split; reflexivity.
Defined.
