(* ===== verification/QueueRunner.v ===== *)
(** The queue runner: [WFQueueRunner] (src/src/wfqueue.ts), which decides when each queue is
    polled, and one poll.

    The map of the queue states is a list without repeated names, in its insertion order.  A
    state is an object that the polls in flight share with the map, and a queue can be deleted
    and added again while it is polled: every state has an identity.  Polling intervals are
    rational, the code's are doubles.  The scheduler loop is given by its events: between two of
    its [await]s it reconciles or schedules, and polls end in between. *)

From Stdlib Require Import QArith Qminmax Lqa.
From S2P Require Export Queues Executor.

Local Open Scope Z_scope.

(** * State *)

(** [QueueRuntimeState] *)
Record QueueRuntimeState : Type := QueueRuntimeStateOf {
  qs_id : nat;
  qs_queue : WorkflowQueue;
  qs_currentPollingMs : Q;
  qs_nextPollAt : Q
}.

#[export] Instance QueueRuntimeState_eta : Eta QueueRuntimeState := fun s =>
  QueueRuntimeStateOf (qs_id s) (qs_queue s) (qs_currentPollingMs s) (qs_nextPollAt s).

Definition qs_name (s : QueueRuntimeState) : string := wq_name (qs_queue s).

(** The fields of [WFQueueRunner], with the polls in flight of its scheduler loop: the name of
    the queue and the state the poll holds.  [rn_fresh] is the next identity. *)
Record Runner : Type := RunnerOf {
  rn_wfQueuesByName : list WorkflowQueue;
  rn_pollerQueueNames : list string;
  rn_isRunning : bool;
  rn_listenQueueNames : option (list string);
  rn_states : list QueueRuntimeState;
  rn_conflictWarned : list string;
  rn_inFlightPolls : list (string * nat);
  rn_fresh : nat
}.

#[export] Instance Runner_eta : Eta Runner := fun r =>
  RunnerOf (rn_wfQueuesByName r) (rn_pollerQueueNames r) (rn_isRunning r) (rn_listenQueueNames r)
    (rn_states r) (rn_conflictWarned r) (rn_inFlightPolls r) (rn_fresh r).

Definition defaultMinPollingIntervalMs : Z := 1000.
Definition defaultMaxPollingIntervalMs : Z := 120000.
Definition reconcileIntervalMs : Z := 1000.
Definition transitionIntervalMs : Z := 1000.
Definition backoffFactor : Q := 2.
Definition scalebackFactor : Q := 9 # 10.
Definition jitterMin : Q := 95 # 100.
Definition jitterMax : Q := 105 # 100.

Definition find_state (name : string) (states : list QueueRuntimeState) : option QueueRuntimeState :=
  List.find (fun s => bool_decide (qs_name s = name)) states.

Definition find_queue (name : string) (queues : list WorkflowQueue) : option WorkflowQueue :=
  List.find (fun q => bool_decide (wq_name q = name)) queues.

Definition in_flight (name : string) (r : Runner) : bool := mem name (rn_inFlightPolls r).*1.

Definition min_polling (q : WorkflowQueue) : Z :=
  default defaultMinPollingIntervalMs (wq_minPollingIntervalMs q).

(** * Discovery *)

Definition ensureState (now : Z) (queue : WorkflowQueue) (r : Runner) : Runner :=
  match find_state (wq_name queue) (rn_states r) with
  | Some _ => r
  | None =>
      let interval := min_polling queue in
      r <| rn_states := rn_states r
             ++ [QueueRuntimeStateOf (rn_fresh r) queue (inject_Z interval) (inject_Z (now + interval))] |>
        <| rn_fresh := S (rn_fresh r) |>
  end.

(** An entry of [listenQueues]: a queue or a name *)
Inductive listen_entry : Type := ByQueue (q : WorkflowQueue) | ByName (name : string).

Definition entry_name (e : listen_entry) : string :=
  match e with ByName n => n | ByQueue q => wq_name q end.

Definition resolveInMemoryQueues (listenQueues : option (list listen_entry)) (r : Runner)
    : list WorkflowQueue :=
  match listenQueues with
  | None => List.filter (fun q => negb (bool_decide (wq_name q = INTERNAL_QUEUE_NAME)))
              (rn_wfQueuesByName r)
  | Some entries =>
      let result := omap (fun e => match e with
                                   | ByName n => find_queue n (rn_wfQueuesByName r)
                                   | ByQueue q => Some q
                                   end) entries in
      foldl (fun result name =>
        match find_queue name (rn_wfQueuesByName r) with
        | Some q => if mem name (wq_name <$> result) then result else result ++ [q]
        | None => result
        end) result (rn_pollerQueueNames r)
  end.

(** What [refreshDbQueues] does with one record of the queues table: the names it adds to
    [present] and the runner *)
Definition refresh_record (now : Z) (record : QueueRecord) (p : list string * Runner)
    : list string * Runner :=
  let (present, r) := p in
  let name := qr_name record in
  if bool_decide (name = INTERNAL_QUEUE_NAME) then p
  else if bool_decide (is_Some (find_queue name (rn_wfQueuesByName r))) then
    (present, if mem name (rn_conflictWarned r) then r
              else r <| rn_conflictWarned := rn_conflictWarned r ++ [name] |>)
  else if match rn_listenQueueNames r with
          | Some names => negb (mem name names) && negb (mem name (rn_pollerQueueNames r))
          | None => false
          end then p
  else
    (present ++ [name],
     match find_state name (rn_states r) with
     | Some _ =>
         r <| rn_states := (fun s => if bool_decide (qs_name s = name)
                                     then s <| qs_queue := fromRecord record |> else s)
                           <$> rn_states r |>
     | None => ensureState now (fromRecord record) r
     end).

(** [refreshDbQueues]; [None] is a failing query. *)
Definition refreshDbQueues (now : Z) (records : option (list QueueRecord)) (r : Runner) : Runner :=
  match records with
  | None => r
  | Some records =>
      let (present, r) := foldl (fun p record => refresh_record now record p) ([], r) records in
      r <| rn_states := List.filter (fun s => negb (wq_databaseBacked (qs_queue s))
                                              || mem (qs_name s) present) (rn_states r) |>
  end.

(** [dispatchLoop], up to the scheduler loop *)
Definition dispatchLoop_start (now : Z) (listenQueues : option (list listen_entry))
    (records : option (list QueueRecord)) (r : Runner) : Runner :=
  let r := r <| rn_isRunning := true |> <| rn_states := [] |> <| rn_conflictWarned := [] |>
             <| rn_listenQueueNames := option_map (map entry_name) listenQueues |>
             <| rn_inFlightPolls := [] |> in
  let r := match find_queue INTERNAL_QUEUE_NAME (rn_wfQueuesByName r) with
           | Some q => ensureState now q r
           | None => r
           end in
  let r := foldl (fun r q => ensureState now q r) r (resolveInMemoryQueues listenQueues r) in
  refreshDbQueues now records r.

Definition stop (r : Runner) : Runner :=
  if rn_isRunning r then r <| rn_isRunning := false |> else r.

Definition clearRegistrations (r : Runner) : Runner :=
  r <| rn_wfQueuesByName := [] |> <| rn_pollerQueueNames := [] |>.

(** * Scheduling *)

Definition poll_before (a b : QueueRuntimeState) : bool := Qle_bool (qs_nextPollAt a) (qs_nextPollAt b).

(** The queues to poll, the longest overdue first *)
Definition due_queues (now : Z) (r : Runner) : list QueueRuntimeState :=
  order_by poll_before
    (List.filter (fun s => Qle_bool (qs_nextPollAt s) (inject_Z now)
                           && negb (in_flight (qs_name s) r)) (rn_states r)).

(** Starts polls while lanes are free. *)
Fixpoint start_polls (lanes : nat) (due : list QueueRuntimeState) (polls : list (string * nat))
    : list (string * nat) :=
  match due with
  | [] => polls
  | s :: rest =>
      if (lanes <=? length polls)%nat then polls
      else start_polls lanes rest (polls ++ [(qs_name s, qs_id s)])
  end.

Definition scheduleDueQueues (lanes : nat) (now : Z) (r : Runner) : Runner :=
  if negb (rn_isRunning r) then r
  else r <| rn_inFlightPolls := start_polls lanes (due_queues now r) (rn_inFlightPolls r) |>.

(** When the scheduler wakes up without a completed poll *)
Definition next_wake (lanes : nat) (lastReconcileAt lastTransitionAt : Z) (r : Runner) : Q :=
  let maintenance := inject_Z (Z.min (lastReconcileAt + reconcileIntervalMs)
                                     (lastTransitionAt + transitionIntervalMs)) in
  if (length (rn_inFlightPolls r) <? lanes)%nat then
    foldl (fun wake s => if negb (in_flight (qs_name s) r) && negb (Qle_bool wake (qs_nextPollAt s))
                         then qs_nextPollAt s else wake) maintenance (rn_states r)
  else maintenance.

(** [adjustInterval]; [random] is [Math.random()] and [now] its [Date.now()]. *)
Definition adjustInterval (now : Z) (random : Q) (contentionDetected : bool) (s : QueueRuntimeState)
    : QueueRuntimeState :=
  let minPollingMs := inject_Z (min_polling (qs_queue s)) in
  let maxPollingMs := inject_Z defaultMaxPollingIntervalMs in
  let cur := if contentionDetected
             then Qmin maxPollingMs (qs_currentPollingMs s * backoffFactor)
             else Qmax minPollingMs (qs_currentPollingMs s * scalebackFactor) in
  let cur := Qmax minPollingMs (Qmin cur maxPollingMs) in
  let jitter := (jitterMin + random * (jitterMax - jitterMin))%Q in
  s <| qs_currentPollingMs := cur |> <| qs_nextPollAt := (inject_Z now + cur * jitter)%Q |>.

(** The [finally] of [runQueuePoll]: the state the poll holds is adjusted, in the map if it is
    still there, and the lane is freed. *)
Definition finish_poll (now : Z) (random : Q) (contentionDetected : bool) (name : string) (r : Runner)
    : Runner :=
  match List.find (fun p => bool_decide (p.1 = name)) (rn_inFlightPolls r) with
  | None => r
  | Some (_, id) =>
      r <| rn_states := (fun s => if bool_decide (qs_id s = id)
                                  then adjustInterval now random contentionDetected s else s)
                        <$> rn_states r |>
        <| rn_inFlightPolls := List.filter (fun p => negb (bool_decide (p.1 = name)))
                                 (rn_inFlightPolls r) |>
  end.

(** * Events *)

Inductive runner_event : Type :=
| Reconcile (now : Z) (records : option (list QueueRecord))
| Schedule (now : Z)
| PollDone (now : Z) (random : Q) (contentionDetected : bool) (name : string).

Definition event_time (e : runner_event) : Z :=
  match e with Reconcile now _ => now | Schedule now => now | PollDone now _ _ _ => now end.

Definition runner_handle (lanes : nat) (e : runner_event) (r : Runner) : Runner :=
  match e with
  | Reconcile now records => refreshDbQueues now records r
  | Schedule now => scheduleDueQueues lanes now r
  | PollDone now random contention name => finish_poll now random contention name r
  end.

Definition handle_all (lanes : nat) (es : list runner_event) (r : Runner) : Runner :=
  foldl (fun r e => runner_handle lanes e r) r es.

(** * One poll *)

Section poll.
Context {Args : Type}
        (serializeArgs : Args -> option string -> string * option string)
        (deserializePositionalArgs : string -> option string -> dbos_error + Args)
        (serializeError : dbos_error -> string)
        (deserializeResError : string -> option string -> dbos_error)
        (serializerName executorID appVersion appID : string)
        (configured : string -> string -> bool)
        (registry : string -> string -> option Registration).

(** The readings of the clocks a claim makes, and the rows other transactions lock, by the
    partition key; and the readings of each start *)
Context (claim_readings : option string -> Z * Z * gset string)
        (start_readings : string -> StartReadings).

(** [dispatch]: an error of one workflow is logged. *)
Definition dispatch_claimed (wfids : list string) : EX unit :=
  for_each (fun wfid =>
    try_catch (executeWorkflowId serializeArgs deserializePositionalArgs serializeError
                 deserializeResError serializerName executorID appVersion appID configured registry
                 wfid false false true (start_readings wfid) ;* ret tt)
      (fun _ => ret tt)) wfids.

Definition claim (queue : WorkflowQueue) (partitionKey : option string) : EX (list string) := fun st =>
  let '(startTimeMs, nowMs, locked) := claim_readings partitionKey in
  on_sys (findAndMarkStartableWorkflows queue executorID appVersion partitionKey
            (countRunningWorkflowsForQueue (wq_name queue) partitionKey st.2)
            startTimeMs nowMs locked) st.

(** The polls of the partitions, one after another *)
Fixpoint poll_partitions (queue : WorkflowQueue) (keys : list (option string)) : EX unit :=
  match keys with
  | [] => ret tt
  | key :: rest =>
      let* wfids := claim queue key in
      dispatch_claimed wfids ;*
      poll_partitions queue rest
  end.

(** 40001: serialization failure; 55P03: lock not available *)
Definition is_contention (e : dbos_error) : bool :=
  match e with
  | DatabaseError code => bool_decide (code = "40001") || bool_decide (code = "55P03")
  | _ => false
  end.

(** [pollQueue]: whether contention was detected *)
Definition pollQueue (queue : WorkflowQueue) : EX bool := fun st =>
  let keys := if wq_partitionQueue queue
              then Some <$> getQueuePartitions (wq_name queue) st.1 else [None] in
  try_catch (poll_partitions queue keys ;* ret false) (fun e => ret (is_contention e)) st.

End poll.

(** * The invariant of the runner *)

Record runner_ok (lanes : nat) (r : Runner) : Prop := RunnerOk {
  ok_names : NoDup (qs_name <$> rn_states r);
  ok_ids : NoDup (qs_id <$> rn_states r);
  ok_fresh : Forall (fun s => (qs_id s < rn_fresh r)%nat) (rn_states r);
  ok_polls : NoDup (rn_inFlightPolls r).*1;
  ok_lanes : (length (rn_inFlightPolls r) <= lanes)%nat;
  ok_held : Forall (fun p => (p.2 < rn_fresh r)%nat
                             /\ forall s, s ∈ rn_states r -> qs_id s = p.2 -> qs_name s = p.1)
              (rn_inFlightPolls r)
}.

(** Distinct values of [g] tell the elements of a list apart. *)
Lemma NoDup_fmap_inj {A B} (g : A -> B) (l : list A) x y :
  NoDup (g <$> l) -> x ∈ l -> y ∈ l -> g x = g y -> x = y.
Proof.
  induction l as [|z l IH]; [intros _ H; by apply elem_of_nil in H|].
  rewrite fmap_cons, NoDup_cons. intros [Hz Hl] Hx Hy Hg.
  apply elem_of_cons in Hx as [->|Hx]; apply elem_of_cons in Hy as [->|Hy]; [done| | |by apply IH].
  - destruct Hz. rewrite Hg. by apply list_elem_of_fmap_2.
  - destruct Hz. rewrite <- Hg. by apply list_elem_of_fmap_2.
Qed.

Lemma find_state_some name l s : find_state name l = Some s -> s ∈ l /\ qs_name s = name.
Proof.
  unfold find_state. intros H. apply List.find_some in H as [Hin Hn].
  apply bool_decide_eq_true in Hn. by rewrite list_elem_of_In.
Qed.

Lemma find_state_none name l : find_state name l = None <-> name ∉ (qs_name <$> l).
Proof.
  unfold find_state. induction l as [|s l IH]; [split; [set_solver | done]|].
  rewrite fmap_cons. simpl. case_bool_decide; [set_solver|]. rewrite IH. set_solver.
Qed.

Lemma find_state_in l s :
  NoDup (qs_name <$> l) -> s ∈ l -> find_state (qs_name s) l = Some s.
Proof.
  intros Hnd Hs. induction l as [|x l IH]; [by apply elem_of_nil in Hs|].
  rewrite fmap_cons in Hnd. apply NoDup_cons in Hnd as [Hx Hnd]. unfold find_state. simpl.
  apply elem_of_cons in Hs as [->|Hs]; [by rewrite bool_decide_true|].
  rewrite bool_decide_false; [by apply IH|]. intros Heq. apply Hx. rewrite Heq.
  by apply list_elem_of_fmap_2.
Qed.

Lemma find_state_map (f : QueueRuntimeState -> QueueRuntimeState) name l :
  (forall s, qs_name (f s) = qs_name s) -> find_state name (f <$> l) = f <$> find_state name l.
Proof.
  intros Hf. induction l as [|s l IH]; [done|]. unfold find_state in *. rewrite fmap_cons. simpl.
  rewrite Hf. by case_bool_decide.
Qed.

Lemma find_state_app name l l' :
  find_state name (l ++ l') = match find_state name l with Some s => Some s | None => find_state name l' end.
Proof.
  induction l as [|s l IH]; [done|]. unfold find_state in *. simpl. by case_bool_decide.
Qed.

Lemma fmap_names_map (f : QueueRuntimeState -> QueueRuntimeState) (l : list QueueRuntimeState) :
  (forall s, qs_name (f s) = qs_name s) -> qs_name <$> (f <$> l) = qs_name <$> l.
Proof.
  intros Hf. rewrite <- list_fmap_compose. apply list_fmap_ext. intros i s _. apply Hf.
Qed.

Lemma fmap_ids_map (f : QueueRuntimeState -> QueueRuntimeState) (l : list QueueRuntimeState) :
  (forall s, qs_id (f s) = qs_id s) -> qs_id <$> (f <$> l) = qs_id <$> l.
Proof.
  intros Hf. rewrite <- list_fmap_compose. apply list_fmap_ext. intros i s _. apply Hf.
Qed.

(** Replacing the states by ones with the same names and identities *)
Lemma ok_map lanes f r :
  (forall s, qs_name (f s) = qs_name s) -> (forall s, qs_id (f s) = qs_id s) ->
  runner_ok lanes r -> runner_ok lanes (r <| rn_states := f <$> rn_states r |>).
Proof.
  intros Hn Hi [H1 H2 H3 H4 H5 H6]. split; simpl; [by rewrite fmap_names_map
    | by rewrite fmap_ids_map | | done | done |].
  - apply Forall_fmap. eapply Forall_impl; [exact H3|]. intros s Hs. unfold compose. by rewrite Hi.
  - eapply Forall_impl; [exact H6|]. intros p [Hp Hs]. split; [done|]. intros s' Hin Hid.
    apply list_elem_of_fmap in Hin as (s & -> & Hin). rewrite Hn. apply Hs; [done|].
    by rewrite <- Hid, Hi.
Qed.

Lemma NoDup_filter_map {A B} (g : A -> B) (p : A -> bool) (l : list A) :
  NoDup (g <$> l) -> NoDup (g <$> List.filter p l).
Proof.
  induction l as [|x l IH]; [done|]. rewrite fmap_cons, NoDup_cons. intros [Hx Hl]. simpl.
  destruct (p x); [|by apply IH]. rewrite fmap_cons, NoDup_cons. split; [|by apply IH].
  intros Hin. apply Hx. apply list_elem_of_fmap in Hin as (y & -> & Hy).
  apply list_elem_of_fmap_2. rewrite list_elem_of_In in *. by apply filter_In in Hy as [Hy _].
Qed.

Lemma ok_filter lanes p r :
  runner_ok lanes r -> runner_ok lanes (r <| rn_states := List.filter p (rn_states r) |>).
Proof.
  intros [H1 H2 H3 H4 H5 H6].
  assert (forall s, s ∈ List.filter p (rn_states r) -> s ∈ rn_states r) as Hin.
  { intros s Hs. rewrite list_elem_of_In in *. by apply filter_In in Hs as [Hs _]. }
  split; simpl; [by apply NoDup_filter_map | by apply NoDup_filter_map | | done | done |].
  - rewrite Forall_forall in *. intros s Hs. by apply H3, Hin.
  - eapply Forall_impl; [exact H6|]. intros x [Hx Hs]. split; [done|]. intros s Hs'. by apply Hs, Hin.
Qed.

Lemma ok_ensureState lanes now q r : runner_ok lanes r -> runner_ok lanes (ensureState now q r).
Proof.
  intros [H1 H2 H3 H4 H5 H6]. unfold ensureState.
  destruct (find_state (wq_name q) (rn_states r)) eqn:E; [by split|].
  apply find_state_none in E. split; simpl; [| | |done|done|].
  - rewrite fmap_app. apply NoDup_app. split; [done|]. split; [set_solver | apply NoDup_singleton].
  - rewrite fmap_app. apply NoDup_app. split; [done|]. split; [|apply NoDup_singleton].
    intros i Hi Hin. apply list_elem_of_singleton in Hin. simpl in Hin. subst i.
    apply list_elem_of_fmap in Hi as (s & Hs & Hin). rewrite Forall_forall in H3.
    specialize (H3 _ Hin). lia.
  - apply Forall_app. split; [|by apply Forall_singleton; simpl; lia].
    eapply Forall_impl; [exact H3|]. simpl. lia.
  - eapply Forall_impl; [exact H6|]. intros x [Hx Hs]. split; [lia|]. intros s Hin Hid.
    apply elem_of_app in Hin as [Hin|Hin]; [by apply Hs|].
    apply list_elem_of_singleton in Hin. subst s. simpl in Hid. lia.
Qed.

Lemma ok_refresh_record lanes now record p :
  runner_ok lanes p.2 -> runner_ok lanes (refresh_record now record p).2.
Proof.
  destruct p as [present r]. cbn [snd]. intros H. unfold refresh_record.
  case_bool_decide; [done|].
  destruct (bool_decide (is_Some (find_queue _ _))).
  { destruct (mem _ _); [done|]. by destruct H. }
  destruct (match rn_listenQueueNames r with Some _ => _ | None => _ end); [done|]. cbn [snd].
  destruct (find_state _ _); [|by apply ok_ensureState].
  apply (ok_map lanes (fun s => if bool_decide (qs_name s = qr_name record)
                                then s <| qs_queue := fromRecord record |> else s));
    [intros x | intros x |done]; case_bool_decide; done.
Qed.

Lemma ok_refreshDbQueues lanes now records r :
  runner_ok lanes r -> runner_ok lanes (refreshDbQueues now records r).
Proof.
  intros H. destruct records as [records|]; [|done]. unfold refreshDbQueues.
  assert (runner_ok lanes (foldl (fun p record => refresh_record now record p) ([], r) records).2)
    as Hf.
  { assert (runner_ok lanes (@nil string, r).2) as H0 by done. revert H0. generalize (@nil string, r).
    induction records as [|x records IH]; intros p Hp; [done|]. by apply IH, ok_refresh_record. }
  destruct (foldl _ _ _) as [present r']. by apply ok_filter.
Qed.

Lemma start_polls_spec lanes due polls :
  exists started, start_polls lanes due polls = polls ++ ((fun s => (qs_name s, qs_id s)) <$> started)
  /\ (exists rest, due = started ++ rest /\
        (rest = [] \/ (lanes <= length polls + length started)%nat))
  /\ (length polls <= lanes -> length polls + length started <= lanes)%nat.
Proof.
  revert polls. induction due as [|s due IH]; intros polls; cbn [start_polls].
  - exists []. rewrite app_nil_r. split; [done|]. split; [exists []; eauto|]. simpl. lia.
  - destruct (Nat.leb_spec lanes (length polls)).
    + exists []. rewrite app_nil_r. split; [done|]. split; [|simpl; lia].
      exists (s :: due). split; [done|]. right. simpl. lia.
    + destruct (IH (polls ++ [(qs_name s, qs_id s)])) as (started & -> & (rest & -> & Hrest) & Hlen).
      rewrite length_app in *. cbn [length] in *.
      exists (s :: started). rewrite fmap_cons, <- app_assoc. split; [done|]. cbn [length].
      split; [|lia]. exists rest. split; [done|]. destruct Hrest; [by left | right; lia].
Qed.

Lemma elem_of_due now r s :
  s ∈ due_queues now r
  <-> s ∈ rn_states r /\ (qs_nextPollAt s <= inject_Z now)%Q /\ in_flight (qs_name s) r = false.
Proof.
  unfold due_queues. rewrite elem_of_order_by, list_elem_of_In, filter_In, <- list_elem_of_In.
  rewrite andb_true_iff, negb_true_iff, Qle_bool_iff. done.
Qed.

Lemma NoDup_due now r : NoDup (qs_name <$> rn_states r) -> NoDup (qs_name <$> due_queues now r).
Proof.
  intros H. unfold due_queues. rewrite order_by_Permutation. by apply NoDup_filter_map.
Qed.

Lemma ok_scheduleDueQueues lanes now r :
  runner_ok lanes r -> runner_ok lanes (scheduleDueQueues lanes now r).
Proof.
  intros [H1 H2 H3 H4 H5 H6]. unfold scheduleDueQueues. destruct (rn_isRunning r); [|by split].
  cbn [negb]. destruct (start_polls_spec lanes (due_queues now r) (rn_inFlightPolls r))
    as (started & Hs & (rest & Hdue & _) & Hlen).
  assert (forall s, s ∈ started -> s ∈ due_queues now r) as Hd by (rewrite Hdue; set_solver).
  rewrite Hs. split; simpl; [done..| |rewrite length_app, length_fmap; by apply Hlen|].
  2:{ apply Forall_app. split; [done|]. apply Forall_fmap, Forall_forall. intros s Hin.
      apply Hd, elem_of_due in Hin as (Hin & _). unfold compose. simpl.
      rewrite Forall_forall in H3. split; [by apply H3|]. intros s' Hin' Hid.
      f_equal. by apply (NoDup_fmap_inj _ _ _ _ H2). }
  rewrite fmap_app. apply NoDup_app. split; [done|].
  pose proof (NoDup_due now r H1) as Hnd. rewrite Hdue, fmap_app in Hnd.
  apply NoDup_app in Hnd as (Hnd & _ & _). rewrite <- list_fmap_compose.
  rewrite (list_fmap_ext _ qs_name) by done. split; [|done].
  intros n Hn Hin. apply list_elem_of_fmap in Hin as (s & -> & Hin).
  apply Hd, elem_of_due in Hin as (_ & _ & Hf). unfold in_flight, mem in Hf.
  by apply bool_decide_eq_false in Hf.
Qed.

Lemma adjust_name now random c s : qs_name (adjustInterval now random c s) = qs_name s.
Proof. done. Qed.

Lemma ok_finish_poll lanes now random c name r :
  runner_ok lanes r -> runner_ok lanes (finish_poll now random c name r).
Proof.
  intros H. unfold finish_poll. destruct (List.find _ _) as [[n id]|]; [|done].
  apply (ok_map lanes (fun s => if bool_decide (qs_id s = id) then adjustInterval now random c s else s))
    in H; [|intros x; by case_bool_decide..].
  destruct H as [H1 H2 H3 H4 H5 H6]. split; simpl; [done..| | |].
  - by apply NoDup_filter_map.
  - etrans; [apply List.filter_length_le | done].
  - rewrite Forall_forall in *. intros x Hx. apply H6. rewrite list_elem_of_In in *.
    by apply filter_In in Hx as [Hx _].
Qed.

Lemma ok_handle lanes e r : runner_ok lanes r -> runner_ok lanes (runner_handle lanes e r).
Proof.
  destruct e; [apply ok_refreshDbQueues | apply ok_scheduleDueQueues | apply ok_finish_poll].
Qed.

Lemma ok_handle_all lanes es r : runner_ok lanes r -> runner_ok lanes (handle_all lanes es r).
Proof.
  revert r. induction es as [|e es IH]; intros r H; [done|]. by apply IH, ok_handle.
Qed.

Lemma ok_start lanes now listen records r :
  runner_ok lanes (dispatchLoop_start now listen records r).
Proof.
  unfold dispatchLoop_start. apply ok_refreshDbQueues.
  assert (forall qs r, runner_ok lanes r ->
            runner_ok lanes (foldl (fun r q => ensureState now q r) r qs)) as Hfold.
  { induction qs as [|q qs IH]; intros r' H; [done|]. by apply IH, ok_ensureState. }
  apply Hfold. destruct (find_queue _ _); [apply ok_ensureState|]; split; simpl;
    try apply NoDup_nil_2; try apply List.Forall_nil; lia.
Qed.

(** The lanes.  From the start of the dispatch loop on, whatever the order in which
    reconciliations, scheduling passes and ends of polls come, no more polls are in flight than
    there are lanes, no queue is polled twice at a time, and every queue has one state. *)
Theorem lanes_bounded lanes now listen records r0 es :
  let r := handle_all lanes es (dispatchLoop_start now listen records r0) in
  (length (rn_inFlightPolls r) <= lanes)%nat /\ NoDup (rn_inFlightPolls r).*1
  /\ NoDup (qs_name <$> rn_states r).
Proof.
  cbv zeta. destruct (ok_handle_all lanes es _ (ok_start lanes now listen records r0)). done.
Qed.

(** * The polling interval *)

Lemma Qmax_case_strong a b : (Qmax a b == a /\ b <= a \/ Qmax a b == b /\ a <= b)%Q.
Proof.
  destruct (Q.max_spec a b) as [[H E]|[H E]]; [right | left]; split; try done.
  by apply Qlt_le_weak.
Qed.

Lemma Qmin_case_strong a b : (Qmin a b == a /\ a <= b \/ Qmin a b == b /\ b <= a)%Q.
Proof.
  destruct (Q.min_spec a b) as [[H E]|[H E]]; [left | right]; split; try done.
  by apply Qlt_le_weak.
Qed.

(** The backoff.  After a poll the interval is at least the minimum of the queue and at most
    two minutes, or the minimum where that is longer; it does not shrink on contention and does
    not grow without, within these bounds; and the next poll is scheduled that interval later,
    give or take five percent. *)
Theorem adjustInterval_bounds now random contention s :
  (0 <= random)%Q -> (random < 1)%Q -> 0 <= min_polling (qs_queue s) ->
  let s' := adjustInterval now random contention s in
  let lo := inject_Z (min_polling (qs_queue s)) in
  let hi := Qmax lo (inject_Z 120000) in
  (lo <= qs_currentPollingMs s' <= hi)%Q
  /\ (lo <= qs_currentPollingMs s <= hi ->
      if contention then qs_currentPollingMs s <= qs_currentPollingMs s'
      else qs_currentPollingMs s' <= qs_currentPollingMs s)%Q
  /\ (inject_Z now + (95 # 100) * qs_currentPollingMs s' <= qs_nextPollAt s'
      <= inject_Z now + (105 # 100) * qs_currentPollingMs s')%Q.
Proof.
  intros Hr0 Hr1 Hmin. cbv zeta. unfold adjustInterval. cbn [qs_currentPollingMs qs_nextPollAt].
  assert (0 <= inject_Z (min_polling (qs_queue s)))%Q as Hlo
    by (change 0%Q with (inject_Z 0); by rewrite <- Zle_Qle).
  generalize dependent (inject_Z (min_polling (qs_queue s))). intros lo Hlo.
  unfold defaultMaxPollingIntervalMs, jitterMin, jitterMax, backoffFactor, scalebackFactor.
  simpl (set _ _). cbn.
  set (cur := qs_currentPollingMs s). set (c := if contention then _ else _).
  change (inject_Z 120000) with (120000 # 1)%Q in *.
  assert (lo <= Qmax lo (Qmin c (120000 # 1)) <= Qmax lo (120000 # 1))%Q as Hb.
  { destruct (Qmax_case_strong lo (Qmin c (120000 # 1))) as [[-> H]|[-> H]];
      destruct (Qmax_case_strong lo (120000 # 1)) as [[-> H']|[-> H']];
      destruct (Qmin_case_strong c (120000 # 1)) as [[E H'']|[E H'']]; rewrite E in *; split; lra. }
  split; [exact Hb|]. split.
  - intros [Hc1 Hc2]. subst c. destruct contention.
    + destruct (Qmax_case_strong lo (Qmin (Qmin (120000 # 1) (cur * 2)) (120000 # 1))) as [[-> H]|[-> H]];
      destruct (Qmax_case_strong lo (120000 # 1)) as [[E2 H2]|[E2 H2]]; rewrite E2 in *;
      destruct (Qmin_case_strong (Qmin (120000 # 1) (cur * 2)) (120000 # 1)) as [[E3 H3]|[E3 H3]];
      rewrite ?E3 in *;
      destruct (Qmin_case_strong (120000 # 1) (cur * 2)) as [[E4 H4]|[E4 H4]]; rewrite ?E4 in *; lra.
    + destruct (Qmax_case_strong lo (Qmin (Qmax lo (cur * (9 # 10))) (120000 # 1))) as [[-> H]|[-> H]];
      destruct (Qmax_case_strong lo (120000 # 1)) as [[E2 H2]|[E2 H2]]; rewrite E2 in *;
      destruct (Qmin_case_strong (Qmax lo (cur * (9 # 10))) (120000 # 1)) as [[E3 H3]|[E3 H3]];
      rewrite ?E3 in *;
      destruct (Qmax_case_strong lo (cur * (9 # 10))) as [[E4 H4]|[E4 H4]]; rewrite ?E4 in *; lra.
  - generalize dependent (Qmax lo (Qmin c (120000 # 1))). intros x Hx. clear c. split; nra.
Qed.

(** * Reconciliation *)

(** Whether a record of the queues table is dispatched by this process *)
Definition accepts (r : Runner) (name : string) : bool :=
  negb (bool_decide (name = INTERNAL_QUEUE_NAME))
  && negb (bool_decide (is_Some (find_queue name (rn_wfQueuesByName r))))
  && match rn_listenQueueNames r with
     | Some names => mem name names || mem name (rn_pollerQueueNames r)
     | None => true
     end.

Definition find_record (name : string) (records : list QueueRecord) : option QueueRecord :=
  List.find (fun x => bool_decide (qr_name x = name)) records.

Lemma find_record_none name records :
  name ∉ (qr_name <$> records) -> find_record name records = None.
Proof.
  intros Hn. unfold find_record. induction records as [|x records IH]; [done|].
  rewrite fmap_cons in Hn. simpl. rewrite bool_decide_false by set_solver. apply IH. set_solver.
Qed.

(** The configuration of the runner that [accepts] reads *)
Definition same_config (r r' : Runner) : Prop :=
  rn_wfQueuesByName r' = rn_wfQueuesByName r /\ rn_listenQueueNames r' = rn_listenQueueNames r
  /\ rn_pollerQueueNames r' = rn_pollerQueueNames r /\ rn_inFlightPolls r' = rn_inFlightPolls r
  /\ rn_isRunning r' = rn_isRunning r.

Lemma accepts_config r r' name : same_config r r' -> accepts r' name = accepts r name.
Proof. intros (H1 & H2 & H3 & _). unfold accepts. by rewrite H1, H2, H3. Qed.

Lemma accepts_refresh now record present r :
  refresh_record now record (present, r)
  = if accepts r (qr_name record)
    then (present ++ [qr_name record],
          match find_state (qr_name record) (rn_states r) with
          | Some _ => r <| rn_states := (fun s => if bool_decide (qs_name s = qr_name record)
                                                  then s <| qs_queue := fromRecord record |> else s)
                                        <$> rn_states r |>
          | None => ensureState now (fromRecord record) r
          end)
    else (present, (refresh_record now record (present, r)).2).
Proof.
  unfold refresh_record, accepts. destruct (bool_decide (qr_name record = _)); [done|].
  destruct (bool_decide (is_Some _)); [done|]. cbn [negb andb].
  destruct (rn_listenQueueNames r) as [names|]; [|done].
  destruct (mem _ names); [done|]. by destruct (mem _ (rn_pollerQueueNames r)).
Qed.

Lemma refresh_record_rejected now record present r :
  accepts r (qr_name record) = false ->
  let r' := (refresh_record now record (present, r)).2 in
  same_config r r' /\ rn_states r' = rn_states r.
Proof.
  intros Ha. cbv zeta. revert Ha. unfold refresh_record, accepts.
  destruct (bool_decide (qr_name record = _)); [done|].
  destruct (bool_decide (is_Some _)).
  { intros _. cbn [snd]. destruct (mem _ (rn_conflictWarned r)); by repeat split. }
  cbn [negb andb]. destruct (rn_listenQueueNames r) as [names|] eqn:E; [|done].
  intros Ha. apply orb_false_iff in Ha as [-> ->]. done.
Qed.

(** What one reconciliation leaves of a queue: [old] is its state before. *)
Definition reconciled (now : Z) (record : option QueueRecord) (old : option QueueRuntimeState)
    (s : option QueueRuntimeState) : Prop :=
  match record, old with
  | Some record, Some old => s = Some (old <| qs_queue := fromRecord record |>)
  | Some record, None => exists id, s = Some (QueueRuntimeStateOf id (fromRecord record)
      (inject_Z (qr_pollingIntervalMs record)) (inject_Z (now + qr_pollingIntervalMs record)))
  | None, _ => s = old
  end.

Lemma ensureState_config now q r : same_config r (ensureState now q r).
Proof. unfold ensureState. by destruct (find_state _ _). Qed.

Lemma ensureState_find now q r name :
  find_state (wq_name q) (rn_states r) = None ->
  find_state name (rn_states (ensureState now q r))
  = if bool_decide (name = wq_name q)
    then Some (QueueRuntimeStateOf (rn_fresh r) q (inject_Z (min_polling q))
                 (inject_Z (now + min_polling q)))
    else find_state name (rn_states r).
Proof.
  intros E. unfold ensureState. rewrite E. simpl. rewrite find_state_app.
  case_bool_decide as Hn.
  - subst name. rewrite E. unfold find_state, qs_name. simpl. by rewrite bool_decide_true.
  - destruct (find_state name (rn_states r)); [done|].
    unfold find_state, qs_name. simpl. by rewrite bool_decide_false by congruence.
Qed.

Lemma refresh_fold now records present r :
  NoDup (qr_name <$> records) ->
  let p := foldl (fun p record => refresh_record now record p) (present, r) records in
  same_config r p.2
  /\ (forall name, name ∈ p.1 <-> name ∈ present \/ name ∈ (qr_name <$> records) /\ accepts r name = true)
  /\ forall name, reconciled now (if accepts r name then find_record name records else None)
                    (find_state name (rn_states r)) (find_state name (rn_states p.2)).
Proof.
  cbv zeta. revert present r. induction records as [|x records IH]; intros present r Hnd.
  { split; [done|]. split; [set_solver|]. intros name. cbn. by destruct (accepts r name). }
  rewrite fmap_cons in *. apply NoDup_cons in Hnd as [Hx Hnd]. cbn [foldl].
  destruct (refresh_record now x (present, r)) as [present1 r1] eqn:E1.
  specialize (IH present1 r1 Hnd). destruct IH as (Hc & Hp & Hr).
  assert (find_record (qr_name x) records = None) as Hxn.
    by (by apply find_record_none).
  assert (forall name, name <> qr_name x -> find_record name (x :: records) = find_record name records)
    as Hne by (intros name Hn; unfold find_record; simpl; by rewrite bool_decide_false by congruence).
  assert (find_record (qr_name x) (x :: records) = Some x) as Heq
    by (unfold find_record; simpl; by rewrite bool_decide_true).
  destruct (accepts r (qr_name x)) eqn:Ha.
  - rewrite accepts_refresh, Ha in E1. injection E1 as <- Er1.
    assert (same_config r r1) as Hc1.
    { rewrite <- Er1. destruct (find_state _ _); [done | apply ensureState_config]. }
    assert (forall name, accepts r1 name = accepts r name) as Hacc
      by (intros; by apply accepts_config).
    split; [destruct Hc as (? & ? & ? & ? & ?), Hc1 as (? & ? & ? & ? & ?);
            split_and!; congruence|].
    split; [intros name; rewrite Hp, Hacc; set_solver|].
    intros name. specialize (Hr name). rewrite Hacc in Hr.
    assert (find_state name (rn_states r1)
            = if bool_decide (name = qr_name x) then
                Some match find_state name (rn_states r) with
                     | Some old => old <| qs_queue := fromRecord x |>
                     | None => QueueRuntimeStateOf (rn_fresh r) (fromRecord x)
                         (inject_Z (qr_pollingIntervalMs x)) (inject_Z (now + qr_pollingIntervalMs x))
                     end
              else find_state name (rn_states r)) as Hf.
    { rewrite <- Er1. destruct (find_state (qr_name x) (rn_states r)) as [old|] eqn:Eold.
      - cbn [rn_states]. simpl (rn_states _). rewrite find_state_map
          by (intros s; case_bool_decide as Hs; [by rewrite Hs | done]).
        case_bool_decide as Hn.
        + subst name. rewrite Eold. simpl. apply find_state_some in Eold as [_ Hn].
          by rewrite bool_decide_true.
        + destruct (find_state name (rn_states r)) as [s|] eqn:Es; [|done]. simpl.
          apply find_state_some in Es as [_ Hs]. by rewrite bool_decide_false by congruence.
      - rewrite ensureState_find by exact Eold. cbn [wq_name fromRecord].
        case_bool_decide as Hn; [subst name; by rewrite Eold | done]. }
    rewrite Hf in Hr. case_bool_decide as Hn.
    + subst name. rewrite Ha, Heq. rewrite Ha, Hxn in Hr. cbn in Hr. rewrite Hr.
      destruct (find_state (qr_name x) (rn_states r)); [done | by eexists].
    + by rewrite Hne.
  - destruct (refresh_record_rejected now x present r Ha) as [Hc1 Hs1].
    rewrite E1 in Hc1, Hs1. cbn [snd] in Hc1, Hs1.
    assert (present1 = present) as ->
      by (apply (f_equal fst) in E1; rewrite accepts_refresh, Ha in E1; by symmetry).
    assert (forall name, accepts r1 name = accepts r name) as Hacc
      by (intros; by apply accepts_config).
    split; [destruct Hc as (? & ? & ? & ? & ?), Hc1 as (? & ? & ? & ? & ?);
            split_and!; congruence|].
    split.
    { intros name. rewrite Hp, Hacc. split; [set_solver|].
      intros [?|[Hin Hn]]; [by left|]. right. split; [|done].
      apply elem_of_cons in Hin as [->|?]; [congruence | done]. }
    intros name. specialize (Hr name). rewrite Hacc, Hs1 in Hr.
    destruct (decide (name = qr_name x)) as [->|Hn]; [by rewrite Ha in * | by rewrite Hne].
Qed.

Lemma find_state_filter (p : QueueRuntimeState -> bool) name l :
  NoDup (qs_name <$> l) ->
  find_state name (List.filter p l)
  = match find_state name l with Some s => if p s then Some s else None | None => None end.
Proof.
  induction l as [|s l IH]; [done|]. rewrite fmap_cons, NoDup_cons. intros [Hs Hl]. simpl.
  unfold find_state in *. simpl. case_bool_decide as Hn.
  - destruct (p s); [simpl; by rewrite bool_decide_true|]. rewrite (IH Hl).
    assert (List.find (fun s => bool_decide (qs_name s = name)) l = None) as ->; [|done].
    apply find_state_none. by rewrite <- Hn.
  - destruct (p s); [|by apply IH]. simpl. rewrite bool_decide_false by done. by apply IH.
Qed.

Lemma refreshDbQueues_find lanes now records r name :
  runner_ok lanes r -> NoDup (qr_name <$> records) ->
  let s := find_state name (rn_states r) in
  let s' := find_state name (rn_states (refreshDbQueues now (Some records) r)) in
  match (if accepts r name then find_record name records else None) with
  | Some record => reconciled now (Some record) s s'
  | None => s' = match s with
                 | Some old => if wq_databaseBacked (qs_queue old) then None else Some old
                 | None => None
                 end
  end.
Proof.
  intros Hok Hnd. cbv zeta. unfold refreshDbQueues.
  destruct (refresh_fold now records [] r Hnd) as (Hc & Hp & Hr).
  assert (runner_ok lanes (foldl (fun p record => refresh_record now record p) ([], r) records).2)
    as Hok'.
  { assert (runner_ok lanes (@nil string, r).2) as H0 by done. revert H0. generalize (@nil string, r).
    clear. induction records as [|x records IH]; intros p Hp; [done|]. by apply IH, ok_refresh_record. }
  destruct (foldl _ _ _) as [present r']. cbn [fst snd] in *. simpl (rn_states _).
  rewrite find_state_filter by apply (ok_names _ _ Hok'). specialize (Hr name).
  destruct (if accepts r name then find_record name records else None) as [record|] eqn:E.
  - assert (name ∈ present) as Hin.
    { apply Hp. right. destruct (accepts r name); [|done]. split; [|done].
      unfold find_record in E. apply List.find_some in E as [Hin Hn].
      apply bool_decide_eq_true in Hn. rewrite <- Hn. apply list_elem_of_fmap_2.
      by rewrite list_elem_of_In. }
    assert (forall s, find_state name (rn_states r') = Some s ->
      match find_state name (rn_states r') with
      | Some s => if negb (wq_databaseBacked (qs_queue s)) || mem (qs_name s) present
                  then Some s else None
      | None => None
      end = Some s) as Hkeep.
    { intros s Hs. rewrite Hs. apply find_state_some in Hs as [_ <-].
      rewrite (proj2 (mem_spec _ _) Hin). by rewrite orb_true_r. }
    cbn [reconciled] in *. destruct (find_state name (rn_states r)) as [old|].
    + by apply Hkeep.
    + destruct Hr as [id Hr]. exists id. by apply Hkeep.
  - cbn [reconciled] in Hr. rewrite Hr. destruct (find_state name (rn_states r)) as [old|] eqn:Eo; [|done].
    apply find_state_some in Eo as [_ Hn].
    assert (mem (qs_name old) present = false) as ->.
    { apply not_true_is_false. rewrite mem_spec, Hn, Hp. intros [Hin|[Hin Ha]]; [set_solver|].
      rewrite Ha in E. apply list_elem_of_fmap in Hin as (x & Hx & Hin).
      unfold find_record in E. rewrite list_elem_of_In in Hin.
      eapply List.find_none in E; [|exact Hin]. apply bool_decide_eq_false in E. by symmetry in Hx. }
    rewrite orb_false_r. by destruct (wq_databaseBacked (qs_queue old)).
Qed.

(** A reconciliation with the queues table.  The queue of an accepted record (not the
    internal queue, not shadowed by an in-memory queue, and listened to) is dispatched with the
    configuration of the record: one that was dispatched keeps its polling and backoff state, a
    new one is first polled one interval later.  A database-backed queue without such a record
    is dropped, and every other queue is left as it is. *)
Theorem refreshDbQueues_exact lanes now records r name :
  runner_ok lanes r -> NoDup (qr_name <$> records) ->
  let s := find_state name (rn_states r) in
  let s' := find_state name (rn_states (refreshDbQueues now (Some records) r)) in
  match (if accepts r name then find_record name records else None) with
  | Some record => reconciled now (Some record) s s'
  | None => s' = match s with
                 | Some old => if wq_databaseBacked (qs_queue old) then None else Some old
                 | None => None
                 end
  end.
Proof. apply refreshDbQueues_find. Qed.

(** * No queue is starved *)

(** The poll of a state is in flight. *)
Definition held (r : Runner) (s : QueueRuntimeState) : bool := mem (qs_id s) (rn_inFlightPolls r).*2.

(** The states of other queues that are scheduled no later than [t] and are not being polled *)
Definition is_ahead (name : string) (t : Q) (r : Runner) (s : QueueRuntimeState) : bool :=
  negb (bool_decide (qs_name s = name)) && Qle_bool (qs_nextPollAt s) t && negb (held r s).

Definition ahead (name : string) (t : Q) (r : Runner) : list QueueRuntimeState :=
  List.filter (is_ahead name t r) (rn_states r).

(** Intervals are natural numbers, as the validation of the queues has it. *)
Definition intervals_ok (r : Runner) : Prop :=
  Forall (fun s => 0 <= min_polling (qs_queue s)) (rn_states r).

(** An event after [t], with valid records and a random number *)
Definition event_ok (t : Q) (e : runner_event) : Prop :=
  (t < inject_Z (event_time e))%Q
  /\ match e with
     | Reconcile _ (Some records) =>
         NoDup (qr_name <$> records) /\ Forall (fun x => 0 <= qr_pollingIntervalMs x) records
     | PollDone _ random _ _ => (0 <= random < 1)%Q
     | _ => True
     end.

(** How many scheduling passes of a run find a free lane *)
Fixpoint free_passes (lanes : nat) (es : list runner_event) (r : Runner) : nat :=
  match es with
  | [] => O
  | e :: es' =>
      ((match e with
        | Schedule _ => if (length (rn_inFlightPolls r) <? lanes)%nat then 1 else 0
        | _ => 0
        end) + free_passes lanes es' (runner_handle lanes e r))%nat
  end.

Lemma elem_of_ahead name t r s :
  s ∈ ahead name t r <-> s ∈ rn_states r /\ is_ahead name t r s = true.
Proof. unfold ahead. by rewrite list_elem_of_In, filter_In, <- list_elem_of_In. Qed.

Lemma is_ahead_true name t r s :
  is_ahead name t r s = true
  <-> qs_name s <> name /\ (qs_nextPollAt s <= t)%Q /\ held r s = false.
Proof.
  unfold is_ahead. rewrite !andb_true_iff, !negb_true_iff, Qle_bool_iff, bool_decide_eq_false.
  tauto.
Qed.

(** The states ahead can be counted by their identities. *)
Lemma ahead_le name t r r' extra :
  NoDup (qs_id <$> rn_states r') -> NoDup extra ->
  (forall s', s' ∈ ahead name t r' ->
     qs_id s' ∉ extra /\ exists s, s ∈ ahead name t r /\ qs_id s = qs_id s') ->
  (forall i, i ∈ extra -> exists s, s ∈ ahead name t r /\ qs_id s = i) ->
  (length (ahead name t r') + length extra <= length (ahead name t r))%nat.
Proof.
  intros Hnd Hex Hin Hin'.
  rewrite <- (length_fmap qs_id (ahead name t r')), <- length_app, <- (length_fmap qs_id (ahead name t r)).
  apply submseteq_length, NoDup_submseteq.
  - apply NoDup_app. split; [by apply NoDup_filter_map|]. split; [|done].
    intros i Hi. apply list_elem_of_fmap in Hi as (s & -> & Hs). by destruct (Hin s Hs).
  - intros i Hi. apply elem_of_app in Hi as [Hi|Hi].
    + apply list_elem_of_fmap in Hi as (s & -> & Hs). destruct (Hin s Hs) as (_ & x & Hx & <-).
      by apply list_elem_of_fmap_2.
    + destruct (Hin' i Hi) as (x & Hx & <-). by apply list_elem_of_fmap_2.
Qed.

(** What a reconciliation can have done to a state *)
Lemma refresh_states now records r s' :
  Forall (fun x => 0 <= qr_pollingIntervalMs x) records -> intervals_ok r ->
  s' ∈ rn_states (refreshDbQueues now (Some records) r) ->
  0 <= min_polling (qs_queue s')
  /\ ((exists s, s ∈ rn_states r /\ qs_id s = qs_id s' /\ qs_name s = qs_name s'
                 /\ qs_nextPollAt s = qs_nextPollAt s')
      \/ (inject_Z now <= qs_nextPollAt s')%Q).
Proof.
  intros Hrec Hint. unfold refreshDbQueues.
  set (Q s' := 0 <= min_polling (qs_queue s')
    /\ ((exists s, s ∈ rn_states r /\ qs_id s = qs_id s' /\ qs_name s = qs_name s'
                   /\ qs_nextPollAt s = qs_nextPollAt s')
        \/ (inject_Z now <= qs_nextPollAt s')%Q)).
  assert (Forall Q (rn_states (foldl (fun p record => refresh_record now record p) ([], r) records).2))
    as HQ.
  { assert (Forall Q (rn_states (@nil string, r).2)) as H0.
    { apply Forall_forall. intros s Hs. unfold intervals_ok in Hint. rewrite Forall_forall in Hint.
      split; [by apply Hint|]. left. by exists s. }
    revert H0. generalize (@nil string, r). induction Hrec as [|x records Hx Hrec IH]; intros p Hp; [done|].
    cbn [foldl]. apply IH. destruct p as [present r1]. cbn [snd] in Hp.
    unfold refresh_record. destruct (bool_decide _); [done|].
    destruct (bool_decide _); [by destruct (mem _ _)|].
    destruct (match rn_listenQueueNames r1 with Some _ => _ | None => _ end); [done|]. cbn [snd].
    destruct (find_state _ _) eqn:Ef.
    - simpl (rn_states _). apply Forall_fmap. eapply Forall_impl; [exact Hp|].
      intros s [Hs1 Hs2]. unfold compose. case_bool_decide as Hn; [|done]. split; [exact Hx|].
      destruct Hs2 as [(s0 & H1 & H2 & H3 & H4)|H]; [left | by right]. exists s0.
      split; [done|]. split; [done|]. split; [by rewrite H3, Hn | done].
    - unfold ensureState. cbn [wq_name fromRecord]. rewrite Ef. simpl (rn_states _).
      apply Forall_app. split; [done|]. apply Forall_singleton. split; [exact Hx|]. right.
      cbn [qs_nextPollAt]. rewrite <- Zle_Qle. unfold min_polling. simpl. lia. }
  destruct (foldl _ _ _) as [present r1]. simpl (rn_states _). intros Hs'.
  rewrite list_elem_of_In in Hs'. apply filter_In in Hs' as [Hs' _].
  rewrite <- list_elem_of_In in Hs'. rewrite Forall_forall in HQ. by apply HQ.
Qed.

Lemma refresh_inFlight now records r :
  NoDup (qr_name <$> records) ->
  same_config r (refreshDbQueues now (Some records) r).
Proof.
  intros Hnd. unfold refreshDbQueues. destruct (refresh_fold now records [] r Hnd) as (Hc & _).
  by destruct (foldl _ _ _).
Qed.

(** The waiting queue is still known and not being polled. *)
Definition waiting (name : string) (t : Q) (r : Runner) : Prop :=
  exists s, s ∈ rn_states r /\ qs_name s = name /\ qs_nextPollAt s = t /\ in_flight name r = false.

Definition served (name : string) (r : Runner) : Prop :=
  in_flight name r = true \/ name ∉ (qs_name <$> rn_states r).

Lemma not_in_flight_not_held lanes r s :
  runner_ok lanes r -> s ∈ rn_states r -> in_flight (qs_name s) r = false -> held r s = false.
Proof.
  intros Hok Hs Hf. apply not_true_is_false. unfold held. rewrite mem_spec. intros Hin.
  apply list_elem_of_fmap in Hin as ([n i] & Hi & Hin). pose proof (ok_held _ _ Hok) as Hh.
  rewrite Forall_forall in Hh. destruct (Hh _ Hin) as [_ Hn]. cbn [fst snd] in *.
  specialize (Hn s Hs Hi). unfold in_flight, mem in Hf. apply bool_decide_eq_false in Hf. apply Hf.
  rewrite Hn. by apply (list_elem_of_fmap_2 fst _ (n, i)).
Qed.

Lemma wait_reconcile lanes now records name t r :
  runner_ok lanes r -> intervals_ok r -> event_ok t (Reconcile now records) -> waiting name t r ->
  let r' := refreshDbQueues now records r in
  intervals_ok r' /\ (served name r' \/ waiting name t r')
  /\ (length (ahead name t r') <= length (ahead name t r))%nat.
Proof.
  intros Hok Hint [Ht Hev] (s & Hs & Hn & Hst & Hf). cbn [event_time] in Ht. cbv zeta.
  destruct records as [records|]; [|split; [done|]; split; [right; by exists s | done]].
  destruct Hev as [Hnd Hrec].
  destruct (refresh_inFlight now records r Hnd) as (_ & _ & _ & Hpolls & _).
  pose proof (ok_refreshDbQueues lanes now (Some records) r Hok) as Hok'.
  pose proof (refreshDbQueues_find lanes now records r name Hok Hnd) as Hfind. cbv zeta in Hfind.
  rewrite <- Hn, (find_state_in _ _ (ok_names _ _ Hok) Hs), Hn in Hfind.
  set (r' := refreshDbQueues now (Some records) r) in *.
  assert (in_flight name r' = false) as Hf' by (unfold in_flight; by rewrite Hpolls).
  assert (forall s, held r' s = held r s) as Hheld by (intros; unfold held; by rewrite Hpolls).
  split; [|split].
  - apply Forall_forall. intros x Hx. by apply (refresh_states now records r).
  - assert (find_state name (rn_states r') = None
            \/ exists x, find_state name (rn_states r') = Some x /\ qs_nextPollAt x = t) as [Hno|(x & Hx & Hxt)].
    { destruct (if accepts r name then find_record name records else None); cbn [reconciled] in Hfind;
        rewrite Hfind; [right; by eexists|].
      destruct (wq_databaseBacked (qs_queue s)); [by left | right; by eexists]. }
    + left. right. by apply find_state_none.
    + right. apply find_state_some in Hx as [Hx Hxn]. by exists x.
  - pose proof (ahead_le name t r r' [] (ok_ids _ _ Hok') NoDup_nil_2) as Hle.
    rewrite Nat.add_0_r in Hle. apply Hle; [|intros i Hi; by apply elem_of_nil in Hi].
    intros x Hx. split; [apply not_elem_of_nil|].
    apply elem_of_ahead in Hx as [Hx Ha]. apply is_ahead_true in Ha as (Hxn & Hxt & Hxh).
    destruct (refresh_states now records r x Hrec Hint Hx) as [_ [(y & Hy & Hyi & Hyn & Hyt)|Hlate]].
    + exists y. split; [|done]. apply elem_of_ahead. split; [done|]. apply is_ahead_true.
      rewrite Hyn, Hyt. split; [done|]. split; [done|].
      rewrite <- Hxh, Hheld. unfold held. by rewrite Hyi.
    + lra.
Qed.

Lemma adjust_later now random contention s :
  (0 <= random)%Q -> 0 <= min_polling (qs_queue s) ->
  (inject_Z now <= qs_nextPollAt (adjustInterval now random contention s))%Q.
Proof.
  intros Hr Hmin. assert (0 <= inject_Z (min_polling (qs_queue s)))%Q as Hlo
    by (change 0%Q with (inject_Z 0); by rewrite <- Zle_Qle).
  unfold adjustInterval. cbn. unfold jitterMin, jitterMax.
  set (x := Qmin _ _). pose proof (Q.le_max_l (inject_Z (min_polling (qs_queue s))) x) as Hc.
  generalize dependent (Qmax (inject_Z (min_polling (qs_queue s))) x). intros c Hc. nra.
Qed.

Lemma wait_finish lanes now random contention polled name t r :
  runner_ok lanes r -> intervals_ok r -> event_ok t (PollDone now random contention polled) ->
  waiting name t r ->
  let r' := finish_poll now random contention polled r in
  intervals_ok r' /\ (served name r' \/ waiting name t r')
  /\ (length (ahead name t r') <= length (ahead name t r))%nat.
Proof.
  intros Hok Hint [Ht Hrand] (s & Hs & Hn & Hst & Hf). cbn [event_time] in Ht. cbv zeta.
  pose proof (ok_finish_poll lanes now random contention polled r Hok) as Hok'.
  revert Hok'. unfold finish_poll.
  destruct (List.find _ (rn_inFlightPolls r)) as [[n id]|] eqn:E;
    [|intros _; split; [done|]; split; [right; by exists s | done]].
  apply List.find_some in E as [Hin Hnp]. apply bool_decide_eq_true in Hnp. cbn [fst] in Hnp. subst n.
  rewrite <- list_elem_of_In in Hin.
  set (f := fun s => if bool_decide (qs_id s = id) then adjustInterval now random contention s else s).
  set (r' := r <| rn_states := f <$> rn_states r |> <| rn_inFlightPolls := _ |>). intros Hok'.
  assert (forall x, held r' x = true -> held r x = true) as Hheld.
  { intros x. unfold held. rewrite !mem_spec. intros Hx.
    apply list_elem_of_fmap in Hx as (p & Hp & Hx). rewrite Hp. apply list_elem_of_fmap_2.
    simpl in Hx. rewrite list_elem_of_In in *. by apply filter_In in Hx as [Hx _]. }
  assert (forall x, held r x = true -> qs_id x <> id -> held r' x = true) as Hheld'.
  { intros x. unfold held. rewrite !mem_spec. intros Hx Hid.
    apply list_elem_of_fmap in Hx as ([m i] & Hi & Hx). cbn [snd] in Hi. subst i.
    apply (list_elem_of_fmap_2 snd _ (m, qs_id x)). simpl. rewrite list_elem_of_In in *.
    apply filter_In. split; [done|]. apply negb_true_iff, bool_decide_eq_false. cbn [fst].
    intros ->. apply Hid. pose proof (ok_polls _ _ Hok) as Hnd.
    rewrite <- list_elem_of_In in *.
    assert ((polled, qs_id x) = (polled, id)) as Heq
      by (apply (NoDup_fmap_inj fst _ _ _ Hnd); done). by injection Heq. }
  assert (qs_id s <> id) as Hsid.
  { intros Heq. pose proof (ok_held _ _ Hok) as Hh. rewrite Forall_forall in Hh.
    destruct (Hh _ Hin) as [_ Hp]. cbn [fst snd] in Hp. specialize (Hp s Hs Heq).
    unfold in_flight, mem in Hf. apply bool_decide_eq_false in Hf. apply Hf. rewrite <- Hn, Hp.
    by apply (list_elem_of_fmap_2 fst _ (polled, id)). }
  unfold intervals_ok in Hint. rewrite Forall_forall in Hint. split; [|split].
  - apply Forall_fmap, Forall_forall. intros x Hx. unfold compose, f. specialize (Hint _ Hx).
    by case_bool_decide.
  - right. exists s. split; [|split; [done|split; [done|]]].
    + simpl. apply list_elem_of_fmap. exists s. split; [|done]. unfold f.
      by rewrite bool_decide_false.
    + apply not_true_is_false. intros Hc. unfold in_flight in Hc. rewrite mem_spec in Hc.
      unfold in_flight, mem in Hf. apply bool_decide_eq_false in Hf. apply Hf.
      apply list_elem_of_fmap in Hc as (p & -> & Hc). apply list_elem_of_fmap_2. simpl in Hc.
      rewrite list_elem_of_In in *. by apply filter_In in Hc as [Hc _].
  - pose proof (ahead_le name t r r' [] (ok_ids _ _ Hok') NoDup_nil_2) as Hle.
    rewrite Nat.add_0_r in Hle. apply Hle; [|intros i Hi; by apply elem_of_nil in Hi].
    intros x Hx. split; [apply not_elem_of_nil|].
    apply elem_of_ahead in Hx as [Hx Ha]. apply is_ahead_true in Ha as (Hxn & Hxt & Hxh).
    simpl in Hx. apply list_elem_of_fmap in Hx as (y & -> & Hy). unfold f in *.
    case_bool_decide as Hyid.
    + exfalso. specialize (Hint _ Hy).
      assert (inject_Z now <= qs_nextPollAt (adjustInterval now random contention y))%Q; [|lra].
      apply adjust_later; [tauto | done].
    + exists y. split; [|done]. apply elem_of_ahead. split; [done|]. apply is_ahead_true.
      split; [done|]. split; [done|]. apply not_true_is_false. intros Hc.
      rewrite (Hheld' _ Hc Hyid) in Hxh. done.
Qed.

Lemma poll_before_total x y : poll_before x y = true \/ poll_before y x = true.
Proof.
  unfold poll_before. rewrite !Qle_bool_iff.
  destruct (Qlt_le_dec (qs_nextPollAt x) (qs_nextPollAt y)); [left; by apply Qlt_le_weak | by right].
Qed.

Lemma poll_before_trans x y z :
  poll_before x y = true -> poll_before y z = true -> poll_before x z = true.
Proof. unfold poll_before. rewrite !Qle_bool_iff. apply Qle_trans. Qed.

Lemma wait_schedule lanes now name t r :
  runner_ok lanes r -> intervals_ok r -> event_ok t (Schedule now) -> waiting name t r ->
  rn_isRunning r = true ->
  let r' := scheduleDueQueues lanes now r in
  intervals_ok r' /\ (served name r' \/ waiting name t r'
  /\ (length (ahead name t r') + (if (length (rn_inFlightPolls r) <? lanes)%nat then 1 else 0)
      <= length (ahead name t r))%nat).
Proof.
  intros Hok Hint [Ht _] (s & Hs & Hn & Hst & Hf) Hrun. cbn [event_time] in Ht. cbv zeta.
  pose proof (ok_scheduleDueQueues lanes now r Hok) as Hok'. revert Hok'.
  unfold scheduleDueQueues. rewrite Hrun. cbn [negb].
  destruct (start_polls_spec lanes (due_queues now r) (rn_inFlightPolls r))
    as (started & Hstart & (rest & Hdue & Hfull) & Hlen).
  rewrite Hstart. set (r' := r <| rn_inFlightPolls := _ |>). intros Hok'. split; [done|].
  assert (s ∈ due_queues now r) as Hsd.
  { apply elem_of_due. rewrite Hn. split; [done|]. split; [|done]. rewrite Hst. lra. }
  assert (forall x, x ∈ started -> x ∈ due_queues now r) as Hd by (rewrite Hdue; set_solver).
  destruct (decide (name ∈ (qs_name <$> started))) as [Hin|Hno].
  { left. left. unfold in_flight. apply mem_spec. simpl. rewrite fmap_app, <- list_fmap_compose.
    apply elem_of_app. right. done. }
  right. assert (s ∈ rest) as Hsr.
  { rewrite Hdue in Hsd. apply elem_of_app in Hsd as [Hc|]; [|done].
    destruct Hno. rewrite <- Hn. by apply list_elem_of_fmap_2. }
  assert (NoDup (qs_id <$> started)) as Hnds.
  { pose proof (NoDup_filter_map qs_id (fun s => Qle_bool (qs_nextPollAt s) (inject_Z now)
      && negb (in_flight (qs_name s) r)) _ (ok_ids _ _ Hok)) as Hnd.
    assert (NoDup (qs_id <$> due_queues now r)) as Hnd'
      by (unfold due_queues; by rewrite order_by_Permutation).
    rewrite Hdue, fmap_app in Hnd'. by apply NoDup_app in Hnd' as [? _]. }
  assert (forall x, x ∈ started -> x ∈ ahead name t r) as Hsa.
  { intros x Hx. pose proof (Hd x Hx) as Hxd. apply elem_of_due in Hxd as (Hxs & _ & Hxf).
    apply elem_of_ahead. split; [done|]. apply is_ahead_true. split; [|split].
    - intros Heq. apply Hno. rewrite <- Heq. by apply list_elem_of_fmap_2.
    - pose proof (order_by_sorted poll_before (List.filter (fun s =>
        Qle_bool (qs_nextPollAt s) (inject_Z now) && negb (in_flight (qs_name s) r)) (rn_states r))
        poll_before_total poll_before_trans) as Hsort.
      fold (due_queues now r) in Hsort. rewrite Hdue in Hsort.
      pose proof (StronglySorted_app_1_elem_of _ _ _ _ _ Hsort Hx Hsr) as Hb.
      unfold poll_before in Hb. apply Qle_bool_iff in Hb. by rewrite Hst in Hb.
    - by apply (not_in_flight_not_held lanes). }
  split.
  { exists s. split; [done|]. split; [done|]. split; [done|].
    apply not_true_is_false. unfold in_flight. rewrite mem_spec. simpl.
    rewrite fmap_app, <- list_fmap_compose. intros Hc. apply elem_of_app in Hc as [Hc|Hc]; [|done].
    unfold in_flight, mem in Hf. by apply bool_decide_eq_false in Hf. }
  assert ((if (length (rn_inFlightPolls r) <? lanes)%nat then 1 else 0)%nat <= length (qs_id <$> started))%nat
    as Hone.
  { rewrite length_fmap. destruct (Nat.ltb_spec (length (rn_inFlightPolls r)) lanes); [|lia].
    destruct Hfull as [->|Hfull]; [by apply elem_of_nil in Hsr|]. lia. }
  etrans; [apply Nat.add_le_mono_l, Hone|].
  apply ahead_le; [apply (ok_ids _ _ Hok') | done | |].
  - intros x Hx. apply elem_of_ahead in Hx as [Hx Ha]. apply is_ahead_true in Ha as (Hxn & Hxt & Hxh).
    unfold held in Hxh. simpl in Hxh. rewrite fmap_app, <- list_fmap_compose in Hxh.
    unfold mem in Hxh. apply bool_decide_eq_false in Hxh. split.
    + intros Hc. apply Hxh, elem_of_app. by right.
    + exists x. split; [|done]. apply elem_of_ahead. split; [done|]. apply is_ahead_true.
      split; [done|]. split; [done|]. apply not_true_is_false. unfold held. rewrite mem_spec.
      intros Hc. apply Hxh, elem_of_app. by left.
  - intros i Hi. apply list_elem_of_fmap in Hi as (x & -> & Hx). exists x. split; [|done].
    by apply Hsa.
Qed.

Lemma isRunning_handle lanes e t r :
  event_ok t e -> rn_isRunning (runner_handle lanes e r) = rn_isRunning r.
Proof.
  intros [_ H]. destruct e as [now [records|]| |]; cbn [runner_handle]; [| done | |].
  - by destruct (refresh_inFlight now records r (proj1 H)) as (_ & _ & _ & _ & ?).
  - unfold scheduleDueQueues. destruct (rn_isRunning r) eqn:E; cbn [negb]; exact E.
  - unfold finish_poll. by destruct (List.find _ _) as [[]|].
Qed.

(** C7: No queue is starved by the others.  Take a queue that waits for its poll since [t], and
    any later run of reconciliations, scheduling passes and ends of polls.  Once the passes that
    find a free lane outnumber the queues scheduled no later than it, it is being polled, or it
    was deleted, whatever new queues appear and however often the others are polled. *)
Theorem no_starvation lanes name t es r :
  runner_ok lanes r -> intervals_ok r -> rn_isRunning r = true -> waiting name t r ->
  Forall (event_ok t) es ->
  (length (ahead name t r) < free_passes lanes es r)%nat ->
  exists es1 es2, es = es1 ++ es2 /\ served name (handle_all lanes es1 r).
Proof.
  intros Hok Hint Hrun Hw Hes. revert r Hok Hint Hrun Hw.
  induction Hes as [|e es He Hes IH]; intros r Hok Hint Hrun Hw Hlt; [cbn in Hlt; lia|].
  assert (intervals_ok (runner_handle lanes e r) /\ (served name (runner_handle lanes e r)
    \/ waiting name t (runner_handle lanes e r)
       /\ (length (ahead name t (runner_handle lanes e r))
           < free_passes lanes es (runner_handle lanes e r))%nat)) as [Hint' [Hserved|[Hw' Hlt']]].
  { cbn [free_passes] in Hlt. destruct e as [now records|now|now random contention polled]; cbn [runner_handle] in *.
    - destruct (wait_reconcile lanes now records name t r Hok Hint He Hw) as (? & [?|?] & ?);
        (split; [done|]); [by left | right; split; [done | lia]].
    - destruct (wait_schedule lanes now name t r Hok Hint He Hw Hrun) as (? & [?|[? ?]]);
        (split; [done|]); [by left | right; split; [done | lia]].
    - destruct (wait_finish lanes now random contention polled name t r Hok Hint He Hw)
        as (? & [?|?] & ?); (split; [done|]); [by left | right; split; [done | lia]]. }
  - exists [e], es. done.
  - destruct (IH (runner_handle lanes e r)) as (es1 & es2 & -> & Hs);
      [by apply ok_handle | done | by rewrite (isRunning_handle lanes e t) | done | done |].
    by exists (e :: es1), es2.
Qed.

(** * Witnesses *)

Definition ex_queue (name : string) : WorkflowQueue :=
  WorkflowQueueOf name None None None false false None false.

(** Two queues are overdue; a lane is free. *)
Definition ex_runner : Runner :=
  RunnerOf [ex_queue "a"; ex_queue "b"] [] true None
    [QueueRuntimeStateOf 0 (ex_queue "a") 1000 900; QueueRuntimeStateOf 1 (ex_queue "b") 1000 1000]
    [] [] 2.

Lemma ex_runner_ok : runner_ok 1 ex_runner.
Proof.
  split; simpl; try (repeat constructor; set_solver || lia); lia.
Qed.

Lemma adjustInterval_bounds_witness :
  (qs_currentPollingMs (adjustInterval 5000 (1 # 2) true
     (QueueRuntimeStateOf 0 (ex_queue "a") 100000 900)) <= Qmax 1000 (inject_Z 120000))%Q.
Proof.
  apply (adjustInterval_bounds 5000 (1 # 2) true (QueueRuntimeStateOf 0 (ex_queue "a") 100000 900));
    [lra | lra | vm_compute; discriminate].
Defined.

Definition ex_record (name : string) : QueueRecord :=
  QueueRecordOf name None None None None false false 1000.

Lemma refreshDbQueues_exact_witness :
  exists id, find_state "c" (rn_states (refreshDbQueues 2000 (Some [ex_record "c"; ex_record "a"]) ex_runner))
  = Some (QueueRuntimeStateOf id (fromRecord (ex_record "c")) (inject_Z 1000) (inject_Z 3000)).
Proof.
  exact (refreshDbQueues_exact 1 2000 [ex_record "c"; ex_record "a"] ex_runner "c" ex_runner_ok
    ltac:(apply (bool_decide_eq_true_1 (NoDup ["c"; "a"])); reflexivity)).
Defined.

Definition ex_events : list runner_event :=
  [Schedule 1001; PollDone 1100 (1 # 2) true "a"; Schedule 1100].

Lemma no_starvation_witness :
  exists es1 es2, ex_events = es1 ++ es2 /\ served "b" (handle_all 1 es1 ex_runner).
Proof.
  apply (no_starvation 1 "b" 1000 ex_events ex_runner ex_runner_ok).
  - repeat constructor; vm_compute; discriminate.
  - reflexivity.
  - exists (QueueRuntimeStateOf 1 (ex_queue "b") 1000 1000). split; [set_solver|]. done.
  - repeat constructor; simpl; lra.
  - vm_compute. lia.
Defined.
