(* ===== verification/Datasource.v ===== *)
(** Transactional data sources: the transactions of an application database
    (src/src/datasource.ts and the packages nodepg-, postgres-, knex-, kysely-, drizzle-, prisma-
    and typeorm-datasource).

    The transaction function of a step runs in a transaction of the application database, which
    also records its output in [transaction_completion]; the step is checkpointed in the system
    database afterwards.  The packages share one control flow and differ in which schema they
    query, how they read a recorded row back, and whether a read-only transaction is enforced:
    a [Provider] holds these, and [Replaying] is what the control flow asks of it.

    The tables of the application are a type [U].  A value is in the serialized form of the
    system database, SuperJSON's text of it is a parameter, as is what other processes do to the
    database between two statements. *)

From Stdlib Require Import QArith Qminmax Lqa.
From S2P Require Export StepExecution.

Local Open Scope Z_scope.

(** * Data *)

(** A row of [transaction_completion], keyed by [(workflow_id, function_num)] *)
Record completion : Type := Completion {
  tc_output : option string;
  tc_error : option string
}.

(** The result of [#checkExecution] *)
Inductive previous : Type := PrevError (error : string) | PrevOutput (output : option string).

(** The codes of Postgres the code tells apart *)
Definition isPGRetriableTransactionError (e : dbos_error) : bool :=
  match e with DatabaseError c => bool_decide (c = "40001") | _ => false end.
Definition isPGKeyConflictError (e : dbos_error) : bool :=
  match e with DatabaseError c => bool_decide (c = "23505") | _ => false end.
Definition isPGFailedSqlTransactionError (e : dbos_error) : bool :=
  match e with DatabaseError c => bool_decide (c = "25P02") | _ => false end.

(** [relation does not exist] *)
Definition undefined_table : dbos_error := DatabaseError "42P01".

(** What the packages differ in *)
Record Provider : Type := ProviderOf {
  pv_install_schema : string;
  pv_query_schema : string;
  pv_previous : completion -> option previous;
  pv_readonly_enforced : bool
}.

(** The body of [#checkExecution] after the query *)
Definition previous_of (c : completion) : option previous :=
  Some match tc_error c with
       | Some e => PrevError e
       | None => PrevOutput (tc_output c)
       end.

(** TypeORM's takes a row without an output for no row. *)
Definition typeorm_previous (c : completion) : option previous :=
  match tc_output c with
  | None => None
  | Some _ => previous_of c
  end.

Definition nodepg (schemaName : string) : Provider := ProviderOf schemaName schemaName previous_of true.
Definition postgres (schemaName : string) : Provider := ProviderOf schemaName schemaName previous_of true.
Definition drizzle (schemaName : string) : Provider := ProviderOf schemaName schemaName previous_of true.
Definition knex (schemaName : string) : Provider := ProviderOf schemaName "dbos" previous_of true.
Definition kysely (schemaName : string) : Provider := ProviderOf schemaName "dbos" previous_of true.
Definition prisma (schemaName : string) : Provider := ProviderOf schemaName schemaName previous_of false.
Definition typeorm (schemaName : string) : Provider := ProviderOf schemaName schemaName typeorm_previous true.

(** What the control flow asks of a provider: it queries the schema it installs, and reads back
    every row as it was recorded. *)
Class Replaying (p : Provider) : Prop := {
  installs_what_it_queries : pv_install_schema p = pv_query_schema p;
  reads_back : forall c, pv_previous p c = previous_of c
}.

#[export] Instance nodepg_replaying s : Replaying (nodepg s).
Proof. by split. Qed.
#[export] Instance postgres_replaying s : Replaying (postgres s).
Proof. by split. Qed.
#[export] Instance drizzle_replaying s : Replaying (drizzle s).
Proof. by split. Qed.
#[export] Instance prisma_replaying s : Replaying (prisma s).
Proof. by split. Qed.
#[export] Instance knex_replaying : Replaying (knex "dbos").
Proof. by split. Qed.
#[export] Instance kysely_replaying : Replaying (kysely "dbos").
Proof. by split. Qed.

Section datasource.
Context {U : Type}
        (stringify : option string -> string) (parse : string -> option string)
        (stringifyError : dbos_error -> string) (parseError : string -> dbos_error).

(** The application database: the tables of the application, and the completion tables by
    their schema *)
Record appdb : Type := AppDb {
  ad_user : U;
  ad_completion : gmap string (gmap (string * Z) completion)
}.

#[export] Instance appdb_eta : Eta appdb := fun a => AppDb (ad_user a) (ad_completion a).

Definition AM (A : Type) : Type := M appdb dbos_error A.

(** * Statements *)

Definition tables_of (schema : string) (a : appdb) : option (gmap (string * Z) completion) :=
  ad_completion a !! schema.

Definition row_of (schema wf : string) (fid : Z) (a : appdb) : option completion :=
  tables_of schema a ≫= (fun t => t !! (wf, fid)).

(** [checkSchemaInstallationPG] and [initialize]: the schema and the table, if they are not there *)
Definition initialize_schema (p : Provider) : AM unit := fun a =>
  match tables_of (pv_install_schema p) a with
  | Some _ => (Ok tt, a)
  | None => (Ok tt, a <| ad_completion ::= <[pv_install_schema p := ∅]> |>)
  end.

(** [#checkExecution] *)
Definition checkExecution (p : Provider) (workflowID : string) (stepID : Z) : AM (option previous) :=
  fun a =>
  match tables_of (pv_query_schema p) a with
  | None => (Throw undefined_table, a)
  | Some t => (Ok (t !! (workflowID, stepID) ≫= pv_previous p), a)
  end.

(** The INSERT of [#recordOutput] and [#recordError] *)
Definition insert_completion (p : Provider) (workflowID : string) (stepID : Z) (c : completion)
    : AM unit := fun a =>
  match tables_of (pv_query_schema p) a with
  | None => (Throw undefined_table, a)
  | Some t =>
      match t !! (workflowID, stepID) with
      | Some _ => (Throw unique_violation, a)
      | None => (Ok tt, a <| ad_completion ::=
                            <[pv_query_schema p := <[(workflowID, stepID) := c]> t]> |>)
      end
  end.

(** The [catch] around it *)
Definition conflict_of (workflowID : string) (e : dbos_error) : dbos_error :=
  if isPGKeyConflictError e then DBOSWorkflowConflictError workflowID else e.

Definition recordOutput (p : Provider) (workflowID : string) (stepID : Z) (output : string)
    : AM unit :=
  try_catch (insert_completion p workflowID stepID (Completion (Some output) None))
    (fun e => throw (conflict_of workflowID e)).

Definition recordError (p : Provider) (workflowID : string) (stepID : Z) (error : string)
    : AM unit :=
  try_catch (insert_completion p workflowID stepID (Completion None (Some error)))
    (fun e => throw (conflict_of workflowID e)).

(** * Transactions *)

(** One attempt: what others do before the check, between the check and the transaction, and
    before the error is recorded; the user's function, which is told whether the transaction is
    read only; and whether the commit fails. *)
Record TxAttempt : Type := TxAttemptOf {
  ta_before : appdb -> appdb;
  ta_meanwhile : appdb -> appdb;
  ta_func : bool -> U -> outcome dbos_error (option string) * U;
  ta_commit : option dbos_error;
  ta_after : appdb -> appdb
}.

(** The transaction of one attempt *)
Definition transaction_body (p : Provider) (readOnly save : bool) (workflowID : string) (stepID : Z)
    (t : TxAttempt) : AM (option string) :=
  transaction (fun a =>
    let (o, u) := ta_func t (readOnly && pv_readonly_enforced p) (ad_user a) in
    let a := a <| ad_user := u |> in
    match o with
    | Throw e => (Throw e, a)
    | Ok v =>
        bind (when save (recordOutput p workflowID stepID (stringify v)))
          (fun _ => match ta_commit t with Some e => throw e | None => ret v end) a
    end).

(** What a recorded result yields *)
Definition previous_result (r : previous) : outcome dbos_error (option string) :=
  match r with
  | PrevError e => Throw (parseError e)
  | PrevOutput o => Ok match truthy_str o with Some s => parse s | None => None end
  end.

Definition retryBackoffFactor : Q := 3 # 2.
Definition maxRetryWaitMS : Q := 2000.

(** The loop of [invokeTransactionFunction], from attempt [n] on; [None] when the fuel runs out.
    It also returns the waits it made, in milliseconds. *)
Fixpoint invoke_loop (p : Provider) (readOnly save : bool) (workflowID : string) (stepID : Z)
    (attempt : nat -> TxAttempt) (fuel n : nat) (retryWaitMS : Q) (a : appdb)
    : option (outcome dbos_error (option string) * list Q * appdb) :=
  match fuel with
  | O => None
  | S fuel' =>
      let t := attempt n in
      let a := ta_before t a in
      match (if save then checkExecution p workflowID stepID a else (Ok None, a)) with
      | (Throw e, a) => Some (Throw e, [], a)
      | (Ok (Some r), a) => Some (previous_result r, [], a)
      | (Ok None, a) =>
          match transaction_body p readOnly save workflowID stepID t (ta_meanwhile t a) with
          | (Ok v, a) => Some (Ok v, [], a)
          | (Throw e, a) =>
              if isPGRetriableTransactionError e then
                match invoke_loop p readOnly save workflowID stepID attempt fuel' (S n)
                        (Qmin (retryWaitMS * retryBackoffFactor) maxRetryWaitMS) a with
                | Some (o, waits, a) => Some (o, retryWaitMS :: waits, a)
                | None => None
                end
              else if save then
                match recordError p workflowID stepID (stringifyError e) (ta_after t a) with
                | (Ok _, a) => Some (Throw e, [], a)
                | (Throw e', a) => Some (Throw e', [], a)
                end
              else Some (Throw e, [], a)
          end
      end
  end.

(** [invokeTransactionFunction]; outside of a workflow there is no workflow ID. *)
Definition invokeTransactionFunction (p : Provider) (readOnly : bool) (workflowID : option string)
    (stepID : option Z) (attempt : nat -> TxAttempt) (fuel : nat) (a : appdb)
    : option (outcome dbos_error (option string) * list Q * appdb) :=
  match workflowID, stepID with
  | Some _, None => Some (Throw (JsError "DBOS.stepID is undefined inside a workflow."), [], a)
  | Some wf, Some fid => invoke_loop p readOnly (negb readOnly) wf fid attempt fuel 0 1 a
  | None, _ => invoke_loop p readOnly false "" 0 attempt fuel 0 1 a
  end.

(** [initializeDBOSSchema] and [uninitializeDBOSSchema], for an administrator *)
Definition initializeDBOSSchema (schemaName : string) : AM unit := fun a =>
  (Ok tt, a <| ad_completion ::= <[schemaName := default ∅ (tables_of schemaName a)]> |>).

Definition uninitializeDBOSSchema (schemaName : string) : AM unit := fun a =>
  (Ok tt, a <| ad_completion ::= delete schemaName |>).

(** [getClient]: the client of the transaction that the caller is in, for a source that is
    the owner of it *)
Definition getClient {C} (isInTransaction : bool) (ctx : option (C * Provider)) (same : Provider -> bool)
    : outcome dbos_error C :=
  if negb isInTransaction then Throw (JsError "invalid use of client outside of a DBOS transaction.")
  else match ctx with
       | None => Throw (JsError "invalid use of client outside of a DBOS transaction.")
       | Some (client, owner) =>
           if negb (same owner) then Throw (JsError "Use of client from the wrong object")
           else Ok client
       end.

(** ** The packages *)

(** nodepg-datasource *)
Definition nodepg_initialize (schemaName : string) := initialize_schema (nodepg schemaName).
Definition nodepg_checkExecution (schemaName : string) := checkExecution (nodepg schemaName).
Definition nodepg_recordOutput (schemaName : string) := recordOutput (nodepg schemaName).
Definition nodepg_recordError (schemaName : string) := recordError (nodepg schemaName).
Definition nodepg_invokeTransactionFunction (schemaName : string) :=
  invokeTransactionFunction (nodepg schemaName).

(** postgres-datasource *)
Definition postgres_initialize (schemaName : string) := initialize_schema (postgres schemaName).
Definition postgres_checkExecution (schemaName : string) := checkExecution (postgres schemaName).
Definition postgres_recordOutput (schemaName : string) := recordOutput (postgres schemaName).
Definition postgres_recordError (schemaName : string) := recordError (postgres schemaName).
Definition postgres_invokeTransactionFunction (schemaName : string) :=
  invokeTransactionFunction (postgres schemaName).

(** knex-datasource *)
Definition knex_initialize (schemaName : string) := initialize_schema (knex schemaName).
Definition knex_checkExecution (schemaName : string) := checkExecution (knex schemaName).
Definition knex_recordOutput (schemaName : string) := recordOutput (knex schemaName).
Definition knex_recordError (schemaName : string) := recordError (knex schemaName).
Definition knex_invokeTransactionFunction (schemaName : string) :=
  invokeTransactionFunction (knex schemaName).

(** kysely-datasource *)
Definition kysely_initialize (schemaName : string) := initialize_schema (kysely schemaName).
Definition kysely_checkExecution (schemaName : string) := checkExecution (kysely schemaName).
Definition kysely_recordOutput (schemaName : string) := recordOutput (kysely schemaName).
Definition kysely_recordError (schemaName : string) := recordError (kysely schemaName).
Definition kysely_invokeTransactionFunction (schemaName : string) :=
  invokeTransactionFunction (kysely schemaName).

(** drizzle-datasource *)
Definition drizzle_initialize (schemaName : string) := initialize_schema (drizzle schemaName).
Definition drizzle_checkExecution (schemaName : string) := checkExecution (drizzle schemaName).
Definition drizzle_recordOutput (schemaName : string) := recordOutput (drizzle schemaName).
Definition drizzle_recordError (schemaName : string) := recordError (drizzle schemaName).
Definition drizzle_invokeTransactionFunction (schemaName : string) :=
  invokeTransactionFunction (drizzle schemaName).

(** prisma-datasource *)
Definition prisma_initialize (schemaName : string) := initialize_schema (prisma schemaName).
Definition prisma_checkExecution (schemaName : string) := checkExecution (prisma schemaName).
Definition prisma_recordOutput (schemaName : string) := recordOutput (prisma schemaName).
Definition prisma_recordError (schemaName : string) := recordError (prisma schemaName).
Definition prisma_invokeTransactionFunction (schemaName : string) :=
  invokeTransactionFunction (prisma schemaName).

(** typeorm-datasource *)
Definition typeorm_initialize (schemaName : string) := initialize_schema (typeorm schemaName).
Definition typeorm_checkExecution (schemaName : string) := checkExecution (typeorm schemaName).
Definition typeorm_recordOutput (schemaName : string) := recordOutput (typeorm schemaName).
Definition typeorm_recordError (schemaName : string) := recordError (typeorm schemaName).
Definition typeorm_invokeTransactionFunction (schemaName : string) :=
  invokeTransactionFunction (typeorm schemaName).

(** * Calling a data source: [runTransaction] *)

(** The guards of [runTransaction], and the function ID the transaction gets: 0 outside of a
    workflow *)
Definition runTransaction_id (funcName : string) : CM Z := fun c =>
  if negb (isWithinWorkflowCtx c) then
    match getNextWFID None c with
    | (Ok (Some _), c) =>
        (Throw (DBOSInvalidWorkflowTransitionError
           (Some ("Invalid call to transaction '" +:+ funcName
                  +:+ "' outside of a workflow; with directive to start a workflow."))), c)
    | (_, c) => (Ok 0, c)
    end
  else if negb (isInWorkflow c) then
    (Throw (DBOSInvalidWorkflowTransitionError
       (Some ("Invalid call to `" +:+ funcName +:+ "` inside a `step` or `transaction`"))), c)
  else functionIDGetIncrement c.

(** The same for a registered transaction, which tells its caller by the [undefined] tests *)
Definition registerTransaction_id (funcName : string) : CM Z := fun c =>
  if negb (isWithinWorkflowCtx c) then
    match getNextWFID None c with
    | (Ok (Some _), c) =>
        (Throw (DBOSInvalidWorkflowTransitionError
           (Some ("Call to transaction '" +:+ funcName +:+ "' made without starting workflow"))), c)
    | (_, c) => (Ok 0, c)
    end
  else if isInTransaction c || isInStep c then
    (Throw (DBOSInvalidWorkflowTransitionError
       (Some "Invalid call to a `transaction` function from within a `step` or `transaction`")), c)
  else functionIDGetIncrement c.

(** [runWithDataSourceContext]: the callback runs in a copy of the context. *)
Definition runWithDataSourceContext {A} (callnum : Z) (callback : CM A) : CM A := fun c =>
  ((callback (c <| cx_curTxFunctionId := Some callnum |>)).1, c).

(** The two entry points give the same function IDs, and refuse the same calls. *)
Lemma runTransaction_registerTransaction f g c :
  match runTransaction_id f c, registerTransaction_id g c with
  | (Ok i, c1), (Ok j, c2) => i = j /\ c1 = c2
  | (Throw _, c1), (Throw _, c2) => c1 = c2
  | _, _ => False
  end.
Proof.
  unfold runTransaction_id, registerTransaction_id.
  destruct (isWithinWorkflowCtx c) eqn:Hw; simpl.
  - unfold isInWorkflow. rewrite Hw. simpl.
    destruct (isInTransaction c), (isInStep c); simpl; try done.
    by destruct (functionIDGetIncrement c) as [[|] ?].
  - by destruct (getNextWFID None c) as [[[|]|] ?].
Qed.

Section step.
Context (serializeError : dbos_error -> string)
        (deserializeResError : string -> option string -> dbos_error)
        (executorID : string).

(** The step in a workflow: [runInternalStep] around the data source, over both databases; the
    clocks are its start and its end.  The callback runs exactly when no result is recorded. *)
Definition runTransaction_step (p : Provider) (readOnly : bool) (funcName workflowID : string)
    (callnum clock_start clock_end : Z) (attempt : nat -> TxAttempt) (fuel : nat)
    (s : sysdb * appdb) : option (outcome dbos_error (option string) * (sysdb * appdb)) :=
  let step (body : DB (option string)) :=
    runInternalStep serializeError deserializeResError executorID funcName workflowID callnum None
      (WorldOf clock_start clock_end (fun _ => AttemptOf id 0 body)) s.1 in
  match getOperationResultAndThrowIfCancelled workflowID callnum s.1 with
  | (Ok None, _) =>
      match invokeTransactionFunction p readOnly (Some workflowID) (Some callnum) attempt fuel s.2 with
      | Some (o, _, a) =>
          let (o, d) := step (match o with Ok v => ret v | Throw e => throw e end) in
          Some (o, (d, a))
      | None => None
      end
  | _ => let (o, d) := step (ret None) in Some (o, (d, s.2))
  end.

End step.

(** * Lemmas *)

Section lemmas.
Context (p : Provider) `{!Replaying p} (wf : string) (fid : Z).

Definition stored (a : appdb) : option completion := row_of (pv_query_schema p) wf fid a.
Definition installed (a : appdb) : Prop := is_Some (tables_of (pv_query_schema p) a).

(** What a recorded row yields *)
Definition replay_of (c : completion) : outcome dbos_error (option string) :=
  match previous_of c with Some r => previous_result r | None => Ok None end.

(** The row of the step, once it is recorded *)
Definition with_row (c : completion) (a : appdb) : appdb :=
  a <| ad_completion ::=
         alter (fun t => <[(wf, fid) := c]> t) (pv_query_schema p) |>.

Lemma check_run a :
  installed a -> checkExecution p wf fid a = (Ok (stored a ≫= previous_of), a).
Proof.
  intros [t Ht]. unfold checkExecution, stored, row_of. rewrite Ht. simpl.
  destruct (t !! (wf, fid)); [|done]. simpl. by rewrite reads_back.
Qed.

Lemma insert_run c a :
  installed a ->
  insert_completion p wf fid c a
  = match stored a with
    | Some _ => (Throw unique_violation, a)
    | None => (Ok tt, with_row c a)
    end.
Proof.
  intros [t Ht]. unfold insert_completion, stored, row_of, with_row. rewrite Ht. simpl.
  destruct (t !! (wf, fid)); [done|]. do 2 f_equal. destruct a as [u m]. simpl in *. f_equal.
  apply map_eq. intros k. destruct (decide (k = pv_query_schema p)) as [->|Hk].
  - unfold tables_of in Ht. simpl in Ht. by rewrite lookup_insert_eq, lookup_alter_eq, Ht.
  - by rewrite lookup_insert_ne, lookup_alter_ne.
Qed.

Lemma stored_with_row c a : installed a -> stored (with_row c a) = Some c.
Proof.
  intros [t Ht]. unfold stored, row_of, with_row, tables_of in *. simpl.
  rewrite lookup_alter_eq, Ht. simpl. by rewrite lookup_insert_eq.
Qed.

Lemma installed_with_row c a : installed a -> installed (with_row c a).
Proof.
  intros [t Ht]. unfold installed, with_row, tables_of in *. simpl.
  rewrite lookup_alter_eq, Ht. by eexists.
Qed.

Lemma stored_user (a : appdb) u : stored (a <| ad_user := u |>) = stored a.
Proof. done. Qed.

(** The transaction of one attempt: it commits with its row, or leaves nothing. *)
Lemma body_cases t a :
  installed a ->
  let o := (ta_func t false (ad_user a)).1 in
  let u := (ta_func t false (ad_user a)).2 in
  transaction_body p false true wf fid t a
  = match o with
    | Throw e => (Throw e, a)
    | Ok v =>
        match stored a with
        | Some _ => (Throw (DBOSWorkflowConflictError wf), a)
        | None => match ta_commit t with
                  | Some e => (Throw e, a)
                  | None => (Ok v, with_row (Completion (Some (stringify v)) None) (a <| ad_user := u |>))
                  end
        end
    end.
Proof.
  intros Hi. cbv zeta. unfold transaction_body, transaction. cbn [andb].
  destruct (ta_func t false (ad_user a)) as [[v|e] u]; [|done]. cbn [fst snd when].
  unfold bind, recordOutput, try_catch. rewrite insert_run by done. rewrite stored_user.
  destruct (stored a); [done|]. by destruct (ta_commit t).
Qed.

Context (attempt : nat -> TxAttempt).

(** What others do between the statements of this step *)
Definition others (a b : appdb) : Prop :=
  exists n, b = ta_before (attempt n) a \/ b = ta_meanwhile (attempt n) a
            \/ b = ta_after (attempt n) a.

(** They do not take rows or tables away. *)
Definition additive : Prop := forall a b, others a b ->
  (installed a -> installed b) /\ (forall c, stored a = Some c -> stored b = Some c).

Lemma additive_rtc a b :
  additive -> rtc others a b ->
  (installed a -> installed b) /\ (forall c, stored a = Some c -> stored b = Some c).
Proof.
  intros H. induction 1 as [a|a b c Hab _ [IH1 IH2]]; [done|]. destruct (H _ _ Hab) as [H1 H2].
  split; [by intros ?; apply IH1, H1 | by intros ? ?; apply IH2, H2].
Qed.

(** How an invocation ends: with the row that was there, with its own commit, with its own
    error, or in conflict with another execution of the step that recorded first *)
Definition ends (a : appdb) (o : outcome dbos_error (option string)) (a' : appdb) : Prop :=
  (exists c, rtc others a a' /\ stored a' = Some c /\ o = replay_of c)
  \/ (exists s n v u, rtc others a s /\ stored s = None
        /\ ta_func (attempt n) false (ad_user s) = (Ok v, u) /\ o = Ok v
        /\ a' = with_row (Completion (Some (stringify v)) None) (s <| ad_user := u |>))
  \/ (exists s e, rtc others a s /\ stored s = None /\ o = Throw e
        /\ a' = with_row (Completion None (Some (stringifyError e))) s)
  \/ (rtc others a a' /\ is_Some (stored a') /\ o = Throw (DBOSWorkflowConflictError wf)).

Lemma ends_after a b o a' : rtc others a b -> ends b o a' -> ends a o a'.
Proof.
  intros Hab [(c & H)|[(s & n & v & u & H)|[(s & e & H)|H]]].
  - left. exists c. destruct H as (H & ?). split; [by etrans | done].
  - right; left. exists s, n, v, u. destruct H as (H & ?). split; [by etrans | done].
  - right; right; left. exists s, e. destruct H as (H & ?). split; [by etrans | done].
  - right; right; right. destruct H as (H & ?). split; [by etrans | done].
Qed.

Lemma invoke_loop_ends fuel n wait a o waits a' :
  additive -> installed a ->
  invoke_loop p false true wf fid attempt fuel n wait a = Some (o, waits, a') -> ends a o a'.
Proof.
  intros Hadd. revert n wait a waits. induction fuel as [|fuel IH]; intros n wait a waits Hi H; [done|].
  cbn [invoke_loop] in H. set (b := ta_before (attempt n) a) in *.
  assert (rtc others a b) as Hab by (apply rtc_once; exists n; tauto).
  destruct (additive_rtc a b Hadd Hab) as [Hib _]. specialize (Hib Hi).
  rewrite check_run in H by done.
  destruct (stored b) as [c|] eqn:Eb; cbn [mbind option_bind] in H.
  { unfold previous_of in H. simplify_eq. left. exists c. split; [done|]. by split. }
  set (m := ta_meanwhile (attempt n) b) in *.
  assert (rtc others a m) as Ham by (eapply rtc_r; [exact Hab|]; exists n; tauto).
  destruct (additive_rtc a m Hadd Ham) as [Him _]. specialize (Him Hi).
  destruct (transaction_body p false true wf fid (attempt n) m) as [[v|e] s] eqn:Et;
    rewrite body_cases in Et by done; cbv zeta in Et.
  - simplify_eq. destruct (ta_func (attempt n) false (ad_user m)) as [[v'|?] u] eqn:Ef; [|done].
    cbn [fst snd] in Et. destruct (stored m) eqn:Em; [done|]. destruct (ta_commit (attempt n)); [done|].
    simplify_eq. right; left. by exists m, n, v, u.
  - assert (s = m) as -> by (repeat case_match; by simplify_eq).
    destruct (isPGRetriableTransactionError e).
    { destruct (invoke_loop p false true wf fid attempt fuel (S n) _ m) as [[[o1 w1] a1]|] eqn:E; [|done].
      simplify_eq. eapply ends_after; [exact Ham|]. by eapply IH. }
    set (r := ta_after (attempt n) m) in *.
    assert (rtc others a r) as Har by (eapply rtc_r; [exact Ham|]; exists n; tauto).
    destruct (additive_rtc a r Hadd Har) as [Hir _]. specialize (Hir Hi).
    unfold recordError, try_catch in H. rewrite insert_run in H by done.
    destruct (stored r) as [c|] eqn:Er; cbn in H; simplify_eq.
    + right; right; right. split; [done|]. split; [by eexists | done].
    + right; right; left. by exists r, e.
Qed.

(** The attempts up to [k] that fail are retried, and attempt [k] does not ask for a retry. *)
Definition settles (k : nat) : Prop := forall a e a',
  transaction_body p false true wf fid (attempt k) a = (Throw e, a') ->
  isPGRetriableTransactionError e = false.

Lemma wait_bounds w :
  (0 < w <= maxRetryWaitMS)%Q -> (0 < Qmin (w * retryBackoffFactor) maxRetryWaitMS <= maxRetryWaitMS)%Q.
Proof.
  unfold retryBackoffFactor, maxRetryWaitMS. intros [H1 H2].
  destruct (Q.min_spec (w * (3 # 2)) 2000) as [[H E]|[H E]]; rewrite E; split; lra.
Qed.

Lemma invoke_loop_terminates k fuel n wait a :
  settles (n + k) -> (k < fuel)%nat -> (0 < wait <= maxRetryWaitMS)%Q ->
  exists o waits a', invoke_loop p false true wf fid attempt fuel n wait a = Some (o, waits, a')
  /\ (length waits <= k)%nat /\ Forall (fun w => 0 < w <= maxRetryWaitMS)%Q waits.
Proof.
  revert fuel n wait a. induction k as [|k IH]; intros fuel n wait a Hs Hfuel Hw;
    (destruct fuel as [|fuel]; [lia|]); cbn [invoke_loop];
    (destruct (checkExecution p wf fid _) as [[[r|]|e] b];
      [by eexists _, _, _; split; [done|]; split; [simpl; lia | constructor] |
      | by eexists _, _, _; split; [done|]; split; [simpl; lia | constructor]]);
    (destruct (transaction_body p false true wf fid (attempt n) _) as [[v|e] s] eqn:Et;
      [by eexists _, _, _; split; [done|]; split; [simpl; lia | constructor]|]).
  - rewrite Nat.add_0_r in Hs. rewrite (Hs _ _ _ Et).
    destruct (recordError p wf fid _ _) as [[?|?] ?];
      by eexists _, _, _; split; [done|]; split; [simpl; lia | constructor].
  - destruct (isPGRetriableTransactionError e).
    + destruct (IH fuel (S n) (Qmin (wait * retryBackoffFactor) maxRetryWaitMS) s) as (o & ws & a' & -> & Hl & Hf);
        [by rewrite <- Nat.add_succ_comm in * | lia | by apply wait_bounds|].
      eexists _, _, _. split; [done|]. split; [simpl; lia | by constructor].
    + destruct (recordError p wf fid _ _) as [[?|?] ?];
        by eexists _, _, _; split; [done|]; split; [simpl; lia | constructor].
Qed.

(** An outcome as the row of the step *)
Definition recorded_as (o : outcome dbos_error (option string)) : completion :=
  match o with
  | Ok v => Completion (Some (stringify v)) None
  | Throw e => Completion None (Some (stringifyError e))
  end.

(** An invocation that does not end in conflict has recorded its outcome, or replayed it. *)
Lemma ends_recorded a o a' :
  additive -> installed a -> ends a o a' -> o <> Throw (DBOSWorkflowConflictError wf) ->
  installed a' /\ exists c, stored a' = Some c /\ (o = replay_of c \/ c = recorded_as o).
Proof.
  intros Hadd Hi H Ho. destruct H as [(c & H & Hs & ->)|[(s & n & v & u & H & Hs & Hf & -> & ->)|
    [(s & e & H & Hs & -> & ->)|(_ & _ & ?)]]]; [..|done].
  - split; [by eapply additive_rtc|]. exists c. split; [done|by left].
  - destruct (additive_rtc _ _ Hadd H) as [His _]. specialize (His Hi).
    split; [by apply installed_with_row|]. eexists. split; [by apply stored_with_row|by right].
  - destruct (additive_rtc _ _ Hadd H) as [His _]. specialize (His Hi).
    split; [by apply installed_with_row|]. eexists. split; [by apply stored_with_row|by right].
Qed.

(** An invocation that finds the row of the step leaves the application as it is. *)
Lemma invoke_loop_replays fuel wait c a :
  installed (ta_before (attempt 0) a) -> stored (ta_before (attempt 0) a) = Some c ->
  invoke_loop p false true wf fid attempt (S fuel) 0 wait a
  = Some (replay_of c, [], ta_before (attempt 0) a).
Proof. intros Hi Hs. cbn [invoke_loop]. by rewrite check_run, Hs. Qed.

End lemmas.

(** * How an invocation ends *)

(** However many attempts a read-write transaction takes, whatever other transactions do
    in between and wherever an attempt fails, an invocation ends in exactly one of four ways:
    it yields the row that is there already and changes nothing; or exactly one run of the
    user's function took effect, together with the row of its output; or no run took effect
    and the row of the error was written; or another execution of the step recorded first and
    nothing changes.  Nothing of a failed attempt stays. *)
Theorem invocation_atomic (p : Provider) `{!Replaying p} (wf : string) (fid : Z)
    (attempt : nat -> TxAttempt) (fuel : nat) (a a' : appdb)
    (o : outcome dbos_error (option string)) (waits : list Q) :
  additive p wf fid attempt -> installed p a ->
  invokeTransactionFunction p false (Some wf) (Some fid) attempt fuel a = Some (o, waits, a') ->
  (exists c, rtc (others attempt) a a' /\ stored p wf fid a' = Some c /\ o = replay_of c)
  \/ (exists s n v u, rtc (others attempt) a s /\ stored p wf fid s = None
        /\ ta_func (attempt n) false (ad_user s) = (Ok v, u) /\ o = Ok v
        /\ a' = with_row p wf fid (Completion (Some (stringify v)) None) (s <| ad_user := u |>))
  \/ (exists s e, rtc (others attempt) a s /\ stored p wf fid s = None /\ o = Throw e
        /\ a' = with_row p wf fid (Completion None (Some (stringifyError e))) s)
  \/ (rtc (others attempt) a a' /\ is_Some (stored p wf fid a')
        /\ o = Throw (DBOSWorkflowConflictError wf)).
Proof. intros Hadd Hi H. by eapply invoke_loop_ends. Qed.

(** If attempt [k] of the loop does not ask for another one - it commits, or its error is
    no serialization failure - an invocation returns after at most [k] waits, and a wait is
    at most two seconds. *)
Theorem invocation_terminates (p : Provider) (wf : string) (fid : Z)
    (attempt : nat -> TxAttempt) (k : nat) (a : appdb) :
  settles p wf fid attempt k ->
  exists o waits a',
    invokeTransactionFunction p false (Some wf) (Some fid) attempt (S k) a = Some (o, waits, a')
    /\ (length waits <= k)%nat /\ Forall (fun w => 0 < w <= maxRetryWaitMS)%Q waits.
Proof.
  intros Hs. apply invoke_loop_terminates; [done | lia|]. unfold maxRetryWaitMS. lra.
Qed.

(** * The step over both databases *)

Section exactly_once.
Context (serializeError : dbos_error -> string)
        (deserializeResError : string -> option string -> dbos_error)
        (executorID : string)
        (serializeError_nonempty : forall e, serializeError e <> "").

Notation run_step := (runTransaction_step serializeError deserializeResError executorID).

(** A step that ends in [o] is checkpointed. *)
Lemma runInternalStep_settled fn wf fid st en (o : outcome dbos_error (option string)) d :
  db_ok d -> is_Some (workflow_status d !! wf) -> is_cancelled wf d = false ->
  operation_outputs d !! (wf, fid) = None -> o <> Throw (DBOSWorkflowCancelledError wf) ->
  exists r d', runInternalStep serializeError deserializeResError executorID fn wf fid None
    (WorldOf st en (fun _ => AttemptOf id 0 (match o with Ok v => ret v | Throw e => throw e end))) d
    = (o, d')
  /\ operation_outputs d' !! (wf, fid) = Some r
  /\ agrees serializeError deserializeResError o (replay_step deserializeResError fn wf fid r).
Proof.
  intros Hd Hw Hc Hn Ho. unfold runInternalStep, bind at 1.
  rewrite getOperationResult_run, Hc, Hn. cbn [fmap option_fmap option_map]. unfold try_catch.
  destruct o as [v|e]; cbn [at_body wd_attempt wd_start wd_end]; unfold bind, ret, throw.
  - rewrite record_fresh by (done || by destruct Hd). eexists _, _. split; [done|].
    split; [simpl; by rewrite lookup_insert_eq|]. by rewrite replay_recorded.
  - replace (match e with DBOSWorkflowCancelledError w => _ | _ => _ end) with false.
    2: { destruct e; try done. symmetry. apply bool_decide_false. by intros ->. }
    rewrite record_fresh by (done || by destruct Hd). eexists _, _. split; [done|].
    split; [simpl; by rewrite lookup_insert_eq|]. rewrite replay_recorded.
    by apply (revive_error _ _ serializeError_nonempty).
Qed.

(** C2: A transaction step takes effect exactly once, even when the process dies after the
    commit to the application database and before the checkpoint in the system database: once
    an invocation has ended other than in conflict, with [o1] and the application database
    [a1], running the step again - the system database has no checkpoint of it - finds the
    row that [o1] is recorded as, runs no user code, leaves the application as it is, ends
    with the recorded outcome, and leaves the checkpoint that replays it. *)
Theorem transaction_exactly_once (p : Provider) `{!Replaying p} (wf fn : string) (fid : Z)
    (attempt attempt' : nat -> TxAttempt) (fuel fuel' : nat) (a a1 : appdb)
    (o1 : outcome dbos_error (option string)) (waits : list Q) (d : sysdb) (st en : Z) :
  additive p wf fid attempt -> installed p a ->
  invokeTransactionFunction p false (Some wf) (Some fid) attempt fuel a = Some (o1, waits, a1) ->
  o1 <> Throw (DBOSWorkflowConflictError wf) ->
  db_ok d -> is_Some (workflow_status d !! wf) -> is_cancelled wf d = false ->
  operation_outputs d !! (wf, fid) = None ->
  ta_before (attempt' 0%nat) a1 = a1 ->
  exists c, stored p wf fid a1 = Some c /\ (o1 = replay_of c \/ c = recorded_as o1)
    /\ (replay_of c <> Throw (DBOSWorkflowCancelledError wf) ->
        exists r d2,
          run_step p false fn wf fid st en attempt' (S fuel') (d, a1) = Some (replay_of c, (d2, a1))
          /\ operation_outputs d2 !! (wf, fid) = Some r
          /\ agrees serializeError deserializeResError (replay_of c)
               (replay_step deserializeResError fn wf fid r)).
Proof.
  intros Hadd Hi H Ho Hd Hw Hc Hn Hb.
  apply invoke_loop_ends in H; [|done..].
  destruct (ends_recorded _ _ _ _ _ _ _ Hadd Hi H Ho) as (Hi1 & c & Hs & Hrec).
  exists c. split; [done|]. split; [done|]. intros Hcan.
  destruct (runInternalStep_settled fn wf fid st en (replay_of c) d) as (r & d2 & E & Hr & Ha); [done..|].
  exists r, d2. split; [|done]. unfold runTransaction_step. cbn [fst snd].
  rewrite getOperationResult_run, Hc, Hn. cbn [fmap option_fmap option_map].
  unfold invokeTransactionFunction. cbn [negb].
  rewrite (invoke_loop_replays _ _ _ _ fuel' 1 c a1) by (by rewrite Hb). by rewrite Hb, E.
Qed.

End exactly_once.

(** * Where the packages fall short *)

(** knex-datasource and kysely-datasource query the schema [dbos] whatever schema they were
    configured with and have installed. *)
Lemma knex_schema s : Replaying (knex s) <-> s = "dbos".
Proof. split; [by intros [H _]|by intros ->; apply _]. Qed.

Lemma kysely_schema s : Replaying (kysely s) <-> s = "dbos".
Proof. split; [by intros [H _]|by intros ->; apply _]. Qed.

(** So with another schema every read-write transaction of a workflow fails on a database that
    has no other installation. *)
Lemma knex_other_schema s (attempt : nat -> TxAttempt) wf fid fuel (a : appdb) :
  s <> "dbos" -> tables_of "dbos" a = None -> ta_before (attempt 0%nat) = id ->
  invokeTransactionFunction (knex s) false (Some wf) (Some fid) attempt (S fuel)
    (initialize_schema (knex s) a).2
  = Some (Throw undefined_table, [], (initialize_schema (knex s) a).2).
Proof.
  intros Hs Hn Hb. unfold invokeTransactionFunction. cbn [invoke_loop negb]. rewrite Hb. unfold id at 1.
  unfold checkExecution at 1. cbn [pv_query_schema knex].
  assert (tables_of "dbos" (initialize_schema (knex s) a).2 = None) as ->; [|done].
  unfold initialize_schema. cbn [pv_install_schema knex].
  destruct (tables_of s a) eqn:E; [done|]. unfold tables_of in *. simpl. by rewrite lookup_insert_ne.
Qed.

(** typeorm-datasource does not replay an error: the transaction runs again. *)
Lemma typeorm_not_replaying s : ~ Replaying (typeorm s).
Proof. intros [_ H]. by specialize (H (Completion None (Some ""))). Qed.

(** A package does what exactly-once replay asks of it - it queries the schema it installs
    and reads back every recorded row - as follows: nodepg, postgres, drizzle and prisma always
    do; knex and kysely exactly when the schema they are configured with is [dbos]; typeorm
    never does, since it reads a recorded error as no row. *)
Theorem packages_conform (s : string) :
  (Replaying (nodepg s) /\ Replaying (postgres s) /\ Replaying (drizzle s) /\ Replaying (prisma s))
  /\ (Replaying (knex s) <-> s = "dbos") /\ (Replaying (kysely s) <-> s = "dbos")
  /\ ~ Replaying (typeorm s).
Proof.
  split; [repeat split; apply _|]. split; [apply knex_schema|]. split; [apply kysely_schema|].
  apply typeorm_not_replaying.
Qed.

(** Its second execution runs the user's function once more, and then ends in conflict with
    the row of its own error. *)
Lemma typeorm_reruns s wf fid e (f : U -> option string * U) (a : appdb) :
  row_of s wf fid a = Some (Completion None (Some e)) ->
  typeorm_invokeTransactionFunction s false (Some wf) (Some fid)
    (fun _ => TxAttemptOf id id (fun _ u => let (v, u') := f u in (Ok v, u')) None id) 1 a
  = Some (Throw (DBOSWorkflowConflictError wf), [], a).
Proof.
  unfold row_of. destruct (tables_of s a) as [t|] eqn:Ht; [|done]. simpl. intros Hr.
  unfold typeorm_invokeTransactionFunction, invokeTransactionFunction. cbn [invoke_loop negb].
  unfold checkExecution. simpl. rewrite Ht, Hr. simpl.
  unfold transaction_body, transaction. simpl. destruct (f (ad_user a)) as [v u]. simpl.
  unfold bind, recordOutput, recordError, try_catch, insert_completion. simpl.
  unfold tables_of in *. simpl. rewrite Ht, Hr. simpl. unfold isPGRetriableTransactionError. simpl. unfold id.
  by rewrite Ht, Hr.
Qed.

End datasource.

(** * Witnesses *)

Module Fixtures.

(** An application with one counter; a transaction that adds 5 to it, after a failed attempt *)
Definition str (o : option string) : string := "j" +:+ default "" o.
Definition err (e : dbos_error) : string := "boom".
Definition unstr (s : string) : option string := Some s.
Definition unerr (s : string) : dbos_error := JsError s.
Definition a0 : appdb := AppDb (10 : Z) {[ "dbos" := ∅ ]}.

Definition add5 (n : nat) : TxAttempt := TxAttemptOf id id
  (fun _ u => (match n with O => Throw (DatabaseError "40001") | _ => Ok (Some "v") end, u + 5))
  None id.

Definition a1 : appdb :=
  AppDb 15 {[ "dbos" := {[ ("wf-1", 0) := Completion (Some "jv") None ]} ]}.

Lemma others_id a b : others (U:=Z) add5 a b -> b = a.
Proof. by intros (n & [->|[->| ->]]). Qed.

Lemma additive_add5 : additive (nodepg "dbos") "wf-1" 0 add5.
Proof. intros a b ->%others_id. done. Qed.

Lemma add5_run :
  invokeTransactionFunction str unstr err unerr (nodepg "dbos") false (Some "wf-1") (Some 0) add5 2 a0
  = Some (Ok (Some "v"), [1%Q], a1).
Proof. reflexivity. Defined.

End Fixtures.

Import Fixtures.

Lemma invocation_atomic_witness :
  exists s n v u, stored (nodepg "dbos") "wf-1" 0 s = None
     /\ ta_func (add5 n) false (ad_user s) = (Ok v, u) /\ v = Some "v".
Proof.
  destruct (invocation_atomic str unstr err unerr (nodepg "dbos") "wf-1" 0 add5 2 a0 a1 (Ok (Some "v"))
    [1%Q] additive_add5 ltac:(by eexists) add5_run) as [(c & H & Hs & Hc)|
      [(s & n & v & u & _ & Hs & Hf & Hv & _)|[(s & e & _ & _ & He & _)|(_ & _ & He)]]]; [|..|done|done].
  - exfalso. assert (forall a, rtc (others add5) a0 a -> a = a0) as Hid.
    { intros a. generalize a0 at 1 2. induction 1 as [|x y z Hxy _ IH]; [done|].
      rewrite IH. by eapply others_id. }
    discriminate (Hid _ H).
  - exists s, n, v, u. by simplify_eq.
Defined.

Lemma invocation_terminates_witness :
  exists o waits a', invokeTransactionFunction str unstr err unerr (nodepg "dbos") false (Some "wf-1")
    (Some 0) add5 2 a0 = Some (o, waits, a') /\ (length waits <= 1)%nat.
Proof.
  destruct (invocation_terminates str unstr err unerr (nodepg "dbos") "wf-1" 0 add5 1 a0)
    as (o & ws & a' & H & Hl & _); [|by exists o, ws, a'].
  intros [u m] e a'. unfold transaction_body, transaction. simpl.
  unfold bind, recordOutput, try_catch, insert_completion, tables_of. simpl.
  destruct (m !! "dbos") as [t|]; simpl; [destruct (t !! _); simpl|]; intros H; by simplify_eq.
Defined.

Lemma transaction_exactly_once_witness :
  exists r d2, runTransaction_step str unstr err unerr ex_ser ex_deser "local" (nodepg "dbos") false
    "add5" "wf-1" 0 100 200 add5 1 (ex_db, a1) = Some (Ok (Some "jv"), (d2, a1))
  /\ operation_outputs d2 !! ("wf-1", 0) = Some r.
Proof.
  destruct (transaction_exactly_once str unstr err unerr ex_ser ex_deser "local" ex_ser_nonempty
    (nodepg "dbos") "wf-1" "add5" 0 add5 add5 2 0 a0 a1 (Ok (Some "v")) [1%Q] ex_db 100 200)
    as (c & Hs & _ & H).
  - exact additive_add5.
  - by eexists.
  - exact add5_run.
  - done.
  - exact ex_db_ok.
  - by eexists.
  - reflexivity.
  - reflexivity.
  - reflexivity.
  - vm_compute in Hs. injection Hs as <-. destruct H as (r & d2 & H & Hr & _); [done|].
    exists r, d2. split; [exact H | exact Hr].
Defined.
