(* ===== verification/Query.v ===== *)
(** Reading the system database: [listWorkflows], [getWorkflowStatus], the aggregates and the
    metrics (src/src/system_database.ts), and what src/src/workflow_management.ts builds on
    them: the listings, the steps of a workflow, and the global timeout.

    [new Date(text).getTime()] and the JSONB operator [@>] are parameters; a filter clause is a
    condition on a row, or an error that the server raises for the query. *)

From Stdlib Require Import Ascii.
From S2P Require Export Schedules Serialization.

(** * Input *)

(** A filter that takes one value or several *)
Inductive StrFilter : Type := One (s : string) | Any (l : list string).

(** [GetWorkflowsInput] *)
Record GetWorkflowsInput : Type := GetWorkflowsInputOf {
  q_workflowIDs : option (list string);
  q_workflowName : option StrFilter;
  q_status : option StrFilter;
  q_startTime : option string;
  q_endTime : option string;
  q_completedAfter : option string;
  q_completedBefore : option string;
  q_dequeuedAfter : option string;
  q_dequeuedBefore : option string;
  q_authenticatedUser : option StrFilter;
  q_applicationVersion : option StrFilter;
  q_executorId : option StrFilter;
  q_workflow_id_prefix : option StrFilter;
  q_queueName : option StrFilter;
  q_queuesOnly : bool;
  q_forkedFrom : option StrFilter;
  q_wasForkedFrom : option bool;
  q_parentWorkflowID : option StrFilter;
  q_hasParent : option bool;
  q_attributes : option (list (string * json));
  q_scheduleName : option StrFilter;
  q_limit : option Z;
  q_offset : option Z;
  q_sortDesc : bool;
  q_loadInput : option bool;
  q_loadOutput : option bool
}.

#[export] Instance GetWorkflowsInput_eta : Eta GetWorkflowsInput := fun q =>
  GetWorkflowsInputOf (q_workflowIDs q) (q_workflowName q) (q_status q) (q_startTime q) (q_endTime q)
    (q_completedAfter q) (q_completedBefore q) (q_dequeuedAfter q) (q_dequeuedBefore q)
    (q_authenticatedUser q) (q_applicationVersion q) (q_executorId q) (q_workflow_id_prefix q)
    (q_queueName q) (q_queuesOnly q) (q_forkedFrom q) (q_wasForkedFrom q) (q_parentWorkflowID q)
    (q_hasParent q) (q_attributes q) (q_scheduleName q) (q_limit q) (q_offset q) (q_sortDesc q)
    (q_loadInput q) (q_loadOutput q).

Definition no_filters : GetWorkflowsInput :=
  GetWorkflowsInputOf None None None None None None None None None None None None None None false
    None None None None None None None None false None None.

(** [GetWorkflowAggregatesInput] *)
Record GetWorkflowAggregatesInput : Type := GetWorkflowAggregatesInputOf {
  a_groupByStatus : bool;
  a_groupByName : bool;
  a_groupByQueueName : bool;
  a_groupByExecutorId : bool;
  a_groupByApplicationVersion : bool;
  a_selectCount : bool;
  a_selectMinCreatedAt : bool;
  a_selectMaxQueueWaitMs : bool;
  a_selectMaxTotalLatencyMs : bool;
  a_timeBucketSizeMs : option Z;
  a_status : list string;
  a_startTime : option string;
  a_endTime : option string;
  a_completedAfter : option string;
  a_completedBefore : option string;
  a_dequeuedAfter : option string;
  a_dequeuedBefore : option string;
  a_name : list string;
  a_appVersion : list string;
  a_executorId : list string;
  a_queueName : list string;
  a_workflowIdPrefix : list string;
  a_workflowIDs : list string;
  a_authenticatedUser : list string;
  a_forkedFrom : list string;
  a_wasForkedFrom : option bool;
  a_parentWorkflowID : list string;
  a_hasParent : option bool;
  a_queuesOnly : bool;
  a_attributes : option (list (string * json));
  a_scheduleName : list string
}.

(** [GetStepAggregatesInput] *)
Record GetStepAggregatesInput : Type := GetStepAggregatesInputOf {
  s_groupByFunctionName : bool;
  s_groupByStatus : bool;
  s_selectCount : bool;
  s_selectMaxDurationMs : bool;
  s_timeBucketSizeMs : option Z;
  s_status : list string;
  s_functionName : list string;
  s_workflowIdPrefix : list string;
  s_completedAfter : option string;
  s_completedBefore : option string
}.

(** [WorkflowAggregateRow] and [StepAggregateRow] *)
Record WorkflowAggregateRow : Type := WorkflowAggregateRowOf {
  ag_group : list (string * option string);
  ag_count : option Z;
  ag_minCreatedAt : option Z;
  ag_maxQueueWaitMs : option Z;
  ag_maxTotalLatencyMs : option Z
}.

Record StepAggregateRow : Type := StepAggregateRowOf {
  sa_group : list (string * option string);
  sa_count : option Z;
  sa_maxDurationMs : option Z
}.

(** [MetricData] *)
Record MetricData : Type := MetricDataOf {
  metricType : string;
  metricName : string;
  metricValue : Z
}.

(** * Clauses *)

(** A clause of the WHERE: a condition on a row with its key, an empty list of values, which
    is a syntax error, or a value the server cannot convert *)
Inductive clause (K R : Type) : Type :=
| Cond (p : K -> R -> bool)
| BadSyntax
| BadParam.
Arguments Cond {K R} p.
Arguments BadSyntax {K R}.
Arguments BadParam {K R}.

Definition is_bad_syntax {K R} (c : clause K R) : bool :=
  match c with BadSyntax => true | _ => false end.
Definition is_bad_param {K R} (c : clause K R) : bool :=
  match c with BadParam => true | _ => false end.

Definition holds {K R} (k : K) (r : R) (c : clause K R) : bool :=
  match c with Cond p => p k r | _ => false end.

Definition syntax_error : dbos_error := DatabaseError "42601".
Definition invalid_text : dbos_error := DatabaseError "22P02".

(** The whole query fails on a clause that is no condition; the text is checked first. *)
Definition where_clause {K R} (cs : list (clause K R)) : dbos_error + (K -> R -> bool) :=
  if existsb is_bad_syntax cs then inl syntax_error
  else if existsb is_bad_param cs then inl invalid_text
  else inr (fun k r => forallb (holds k r) cs).

(** [LIMIT] and [OFFSET], which a zero leaves out *)
Definition page {A} (lim offset : option Z) (l : list A) : outcome dbos_error (list A) :=
  match truthy_num lim, truthy_num offset with
  | Some n, o => if n <? 0 then Throw (DatabaseError "2201W")
                 else if default 0 o <? 0 then Throw (DatabaseError "2201X")
                 else Ok (take (Z.to_nat n) (drop (Z.to_nat (default 0 o)) l))
  | None, o => if default 0 o <? 0 then Throw (DatabaseError "2201X")
               else Ok (drop (Z.to_nat (default 0 o)) l)
  end.

(** [column IN (...)] on a column that may be NULL *)
Definition is_in (values : list string) (o : option string) : bool :=
  match o with Some x => mem x values | None => false end.

(** The prefixes of [workflow_uuid LIKE p%], any of which may match *)
Definition any_prefix (ps : list string) (id : string) : bool :=
  existsb (fun p => sql_like (p +:+ "%") id) ps.

(** [addFilter] of [listWorkflows] *)
Definition add_filter {K R} (column : K -> R -> option string) (value : option StrFilter)
    : list (clause K R) :=
  match value with
  | None | Some (One "") => []
  | Some (One s) => [Cond (fun k r => sql_eqb (column k r) s)]
  | Some (Any []) => [BadSyntax]
  | Some (Any l) => [Cond (fun k r => is_in l (column k r))]
  end.

(** [addFilter] of the aggregates: an empty list filters nothing. *)
Definition add_values {K R} (column : K -> R -> option string) (values : list string)
    : list (clause K R) :=
  match values with
  | [] => []
  | _ => [Cond (fun k r => is_in values (column k r))]
  end.

Definition prefix_filter (value : option StrFilter) : list (clause string wf_row) :=
  match value with
  | None | Some (One "") => []
  | Some (One p) => [Cond (fun id _ => any_prefix [p] id)]
  | Some (Any []) => [BadSyntax]
  | Some (Any ps) => [Cond (fun id _ => any_prefix ps id)]
  end.

Definition prefix_values {K R} (key : K -> string) (ps : list string) : list (clause K R) :=
  match ps with
  | [] => []
  | _ => [Cond (fun k _ => any_prefix ps (key k))]
  end.

Definition ids_filter (value : option (list string)) : list (clause string wf_row) :=
  match value with
  | None => []
  | Some [] => [BadSyntax]
  | Some ids => [Cond (fun id _ => mem id ids)]
  end.

Definition bool_filter {R} (column : R -> bool) (value : option bool) : list (clause string R) :=
  match value with
  | None => []
  | Some b => [Cond (fun _ r => eqb (column r) b)]
  end.

Definition when_set {K R} (b : bool) (p : R -> bool) : list (clause K R) :=
  if b then [Cond (fun _ r => p r)] else [].

Definition queued_only (r : wf_row) : bool :=
  bool_decide (is_Some (ws_queue_name r)) && isWorkflowActive (ws_status r).

Section query.
Context (Date_parse : string -> option Z) (jsonb_contains : json -> json -> bool).

(** A bound on a timestamp column, when the text is given: [new Date(text).getTime()] is NaN
    for a text that is no date. *)
Definition time_filter {K R} (test : R -> Z -> bool) (value : option string) : list (clause K R) :=
  match truthy_str value with
  | None => []
  | Some t => match Date_parse t with
              | Some ms => [Cond (fun _ r => test r ms)]
              | None => [BadParam]
              end
  end.

Definition attributes_filter (value : option (list (string * json))) : list (clause string wf_row) :=
  match value with
  | None | Some [] => []
  | Some kvs => [Cond (fun _ r => match ws_attributes r with
                                  | Some j => jsonb_contains j (JObj kvs)
                                  | None => false
                                  end)]
  end.

(** * [listWorkflows] *)

Definition column (f : wf_row -> option string) : string -> wf_row -> option string := fun _ => f.

Definition workflow_clauses (q : GetWorkflowsInput) : list (clause string wf_row) :=
  when_set (q_queuesOnly q) queued_only
  ++ add_filter (column (fun r => Some (ws_name r))) (q_workflowName q)
  ++ add_filter (column ws_queue_name) (q_queueName q)
  ++ add_filter (column ws_schedule_name) (q_scheduleName q)
  ++ prefix_filter (q_workflow_id_prefix q)
  ++ ids_filter (q_workflowIDs q)
  ++ add_filter (column (fun r => Some (ws_authenticated_user r))) (q_authenticatedUser q)
  ++ add_filter (column ws_forked_from) (q_forkedFrom q)
  ++ add_filter (column ws_parent_workflow_id) (q_parentWorkflowID q)
  ++ bool_filter ws_was_forked_from (q_wasForkedFrom q)
  ++ bool_filter (fun r => bool_decide (is_Some (ws_parent_workflow_id r))) (q_hasParent q)
  ++ attributes_filter (q_attributes q)
  ++ time_filter (fun r t => t <=? ws_created_at r) (q_startTime q)
  ++ time_filter (fun r t => ws_created_at r <=? t) (q_endTime q)
  ++ time_filter (fun r t => sql_geb (ws_completed_at r) t) (q_completedAfter q)
  ++ time_filter (fun r t => sql_leb (ws_completed_at r) t) (q_completedBefore q)
  ++ time_filter (fun r t => sql_geb (ws_started_at_epoch_ms r) t) (q_dequeuedAfter q)
  ++ time_filter (fun r t => sql_leb (ws_started_at_epoch_ms r) t) (q_dequeuedBefore q)
  ++ add_filter (column (fun r => Some (status_string (ws_status r)))) (q_status q)
  ++ add_filter (column ws_application_version) (q_applicationVersion q)
  ++ add_filter (column ws_executor_id) (q_executorId q).

(** The columns that are not selected read as [undefined]. *)
Definition loaded (q : GetWorkflowsInput) (r : wf_row) : wf_row :=
  let loadInput := default true (q_loadInput q) in
  let loadOutput := default true (q_loadOutput q) in
  let r := if loadInput then r else r <| ws_inputs := None |> <| ws_request := JObj [] |> in
  let r := if loadOutput then r else r <| ws_output := None |> <| ws_error := None |> in
  if loadInput || loadOutput then r else r <| ws_serialization := None |>.

(** [ORDER BY created_at]; rows of one millisecond in the order of the scan. *)
Definition created_order (desc : bool) (a b : string * wf_row) : bool :=
  if desc then ws_created_at b.2 <=? ws_created_at a.2
  else ws_created_at a.2 <=? ws_created_at b.2.

Definition listWorkflows (q : GetWorkflowsInput) (d : sysdb)
    : outcome dbos_error (list WorkflowStatusInternal) :=
  match where_clause (workflow_clauses q) with
  | inl e => Throw e
  | inr p =>
      match page (q_limit q) (q_offset q)
              (order_by (created_order (q_sortDesc q)) (select_where p (workflow_status d))) with
      | Ok rows => Ok (map (fun kr => mapWorkflowStatus kr.1 (loaded q kr.2)) rows)
      | Throw e => Throw e
      end
  end.

(** [listQueuedWorkflows] of workflow_management.ts, up to [toWorkflowStatus] *)
Definition listQueuedWorkflows (q : GetWorkflowsInput) (d : sysdb)
    : outcome dbos_error (list WorkflowStatusInternal) :=
  listWorkflows (q <| q_queuesOnly := true |> <| q_loadOutput := Some false |>) d.

(** * [getWorkflowStatus] *)

Section get_status.
Context (stringify_status : WorkflowStatusInternal -> string)
        (parse_status : string -> WorkflowStatusInternal).

Definition DBOS_FUNCNAME_GETSTATUS : string := "getStatus".

Definition find_status (workflowID : string) : DB (option string) := fun d =>
  match listWorkflows (no_filters <| q_workflowIDs := Some [workflowID] |>) d with
  | Throw e => (Throw e, d)
  | Ok l => (Ok (stringify_status <$> List.find (fun s => String.eqb (i_workflowUUID s) workflowID) l), d)
  end.

(** [if (callerID && callerFN)]: an empty ID and the function ID 0 are falsy. *)
Definition getWorkflowStatus (executorID workflowID : string) (callerID : option string)
    (callerFN : option Z) (startTime endTime : Z) : DB (option WorkflowStatusInternal) :=
  let parseStatus (o : option string) := parse_status <$> truthy_str o in
  match truthy_str callerID, truthy_num callerFN with
  | Some caller, Some fid =>
      let* json := runAndRecordResult executorID DBOS_FUNCNAME_GETSTATUS caller fid
                     (find_status workflowID) startTime endTime in
      ret (parseStatus json)
  | _, _ => let* json := find_status workflowID in ret (parseStatus json)
  end.

End get_status.

(** * Aggregates *)

(** [GROUP BY]: the rows of each key that occurs *)
Definition group_rows {R} (key : R -> list (option string)) (rows : list R)
    : list (list (option string) * list R) :=
  map (fun k => (k, List.filter (fun r => bool_decide (key r = k)) rows)) (remove_dups (map key rows)).

(** [FLOOR(t / bucket) * bucket] on integers, whose division truncates *)
Definition bucket_of (bucket t : Z) : Z := Z.quot t bucket * bucket.

Definition min_of (l : list Z) : option Z :=
  (fun m => - m) <$> max_of (fun x => - x) l.
Definition max_of_some (l : list (option Z)) : option Z := max_of id (omap id l).

(** [b - a], NULL when one of them is *)
Definition sql_minus (b a : option Z) : option Z :=
  match b, a with Some y, Some x => Some (y - x) | _, _ => None end.

(** The enabled entries of a list of flags *)
Definition enabled {A} (flags : list (bool * A)) : list A :=
  map snd (List.filter fst flags).

Definition bad_bucket (o : option Z) : bool :=
  match o with Some b => b <=? 0 | None => false end.

Definition aggregate_groups (a : GetWorkflowAggregatesInput) : list (string * (wf_row -> option string)) :=
  enabled [ (a_groupByStatus a, ("status", fun r => Some (status_string (ws_status r))));
            (a_groupByName a, ("name", fun r => Some (ws_name r)));
            (a_groupByQueueName a, ("queue_name", ws_queue_name));
            (a_groupByExecutorId a, ("executor_id", ws_executor_id));
            (a_groupByApplicationVersion a, ("application_version", ws_application_version)) ]
  ++ match a_timeBucketSizeMs a with
     | Some b => [("time_bucket", fun r => Some (stringify_Z (bucket_of b (ws_created_at r))))]
     | None => []
     end.

Definition aggregate_clauses (a : GetWorkflowAggregatesInput) : list (clause string wf_row) :=
  add_values (column (fun r => Some (status_string (ws_status r)))) (a_status a)
  ++ add_values (column (fun r => Some (ws_name r))) (a_name a)
  ++ add_values (column ws_application_version) (a_appVersion a)
  ++ add_values (column ws_executor_id) (a_executorId a)
  ++ add_values (column ws_queue_name) (a_queueName a)
  ++ prefix_values id (a_workflowIdPrefix a)
  ++ add_values (fun id _ => Some id) (a_workflowIDs a)
  ++ add_values (column (fun r => Some (ws_authenticated_user r))) (a_authenticatedUser a)
  ++ add_values (column ws_forked_from) (a_forkedFrom a)
  ++ add_values (column ws_parent_workflow_id) (a_parentWorkflowID a)
  ++ add_values (column ws_schedule_name) (a_scheduleName a)
  ++ when_set (a_queuesOnly a) queued_only
  ++ bool_filter ws_was_forked_from (a_wasForkedFrom a)
  ++ bool_filter (fun r => bool_decide (is_Some (ws_parent_workflow_id r))) (a_hasParent a)
  ++ attributes_filter (a_attributes a)
  ++ time_filter (fun r t => t <=? ws_created_at r) (a_startTime a)
  ++ time_filter (fun r t => ws_created_at r <=? t) (a_endTime a)
  ++ time_filter (fun r t => sql_geb (ws_completed_at r) t) (a_completedAfter a)
  ++ time_filter (fun r t => sql_leb (ws_completed_at r) t) (a_completedBefore a)
  ++ time_filter (fun r t => sql_geb (ws_started_at_epoch_ms r) t) (a_dequeuedAfter a)
  ++ time_filter (fun r t => sql_leb (ws_started_at_epoch_ms r) t) (a_dequeuedBefore a).

Definition selected {A} (b : bool) (o : option A) : option A := if b then o else None.

Definition getWorkflowAggregates (a : GetWorkflowAggregatesInput) (d : sysdb)
    : outcome dbos_error (list WorkflowAggregateRow) :=
  if bad_bucket (a_timeBucketSizeMs a) then Throw (JsError "time_bucket_size_ms must be > 0")
  else
  let groups := aggregate_groups a in
  if bool_decide (length groups = 0%nat) then Throw (JsError "At least one group_by flag must be set to True")
  else if negb (a_selectCount a || a_selectMinCreatedAt a || a_selectMaxQueueWaitMs a
                || a_selectMaxTotalLatencyMs a)
  then Throw (JsError "At least one select_ flag must be set to True")
  else
  match where_clause (aggregate_clauses a) with
  | inl e => Throw e
  | inr p =>
      Ok (map (fun g =>
            WorkflowAggregateRowOf (zip groups.*1 g.1)
              (selected (a_selectCount a) (Some (Z.of_nat (length g.2))))
              (selected (a_selectMinCreatedAt a) (min_of (map ws_created_at g.2)))
              (selected (a_selectMaxQueueWaitMs a) (max_of_some (map (fun r =>
                 sql_minus (ws_started_at_epoch_ms r) (Some (ws_created_at r))) g.2)))
              (selected (a_selectMaxTotalLatencyMs a) (max_of_some (map (fun r =>
                 sql_minus (ws_completed_at r) (Some (ws_created_at r))) g.2))))
          (group_rows (fun r => map (fun c => c.2 r) groups) (select_where p (workflow_status d)).*2))
  end.

(** The status of a step: by whether its error is NULL *)
Definition step_status (r : op_row) : string :=
  match oo_error r with None => "SUCCESS" | Some _ => "ERROR" end.

Definition step_groups (a : GetStepAggregatesInput) : list (string * (op_row -> option string)) :=
  enabled [ (s_groupByFunctionName a, ("function_name", fun r => Some (oo_function_name r)));
            (s_groupByStatus a, ("status", fun r => Some (step_status r))) ]
  ++ match s_timeBucketSizeMs a with
     | Some b => [("time_bucket", fun r =>
                     (fun t => stringify_Z (bucket_of b t)) <$> oo_completed_at_epoch_ms r)]
     | None => []
     end.

Definition step_clauses (a : GetStepAggregatesInput) : list (clause (string * Z) op_row) :=
  add_values (fun _ r => Some (step_status r)) (s_status a)
  ++ add_values (fun _ r => Some (oo_function_name r)) (s_functionName a)
  ++ prefix_values fst (s_workflowIdPrefix a)
  ++ time_filter (fun r t => sql_geb (oo_completed_at_epoch_ms r) t) (s_completedAfter a)
  ++ time_filter (fun r t => sql_leb (oo_completed_at_epoch_ms r) t) (s_completedBefore a).

Definition getStepAggregates (a : GetStepAggregatesInput) (d : sysdb)
    : outcome dbos_error (list StepAggregateRow) :=
  if bad_bucket (s_timeBucketSizeMs a) then Throw (JsError "time_bucket_size_ms must be > 0")
  else
  let groups := step_groups a in
  if bool_decide (length groups = 0%nat) then Throw (JsError "At least one group_by flag must be set to True")
  else if negb (s_selectCount a || s_selectMaxDurationMs a)
  then Throw (JsError "At least one select_ flag must be set to True")
  else
  match where_clause (step_clauses a) with
  | inl e => Throw e
  | inr p =>
      Ok (map (fun g =>
            StepAggregateRowOf (zip groups.*1 g.1)
              (selected (s_selectCount a) (Some (Z.of_nat (length g.2))))
              (selected (s_selectMaxDurationMs a) (max_of_some (map (fun r =>
                 sql_minus (oo_completed_at_epoch_ms r) (oo_started_at_epoch_ms r)) g.2))))
          (group_rows (fun r => map (fun c => c.2 r) groups) (select_where p (operation_outputs d)).*2))
  end.

(** [getMetrics] *)
Definition metric_rows {R} (kind : string) (name : R -> string) (rows : list R) : list MetricData :=
  map (fun n => MetricDataOf kind n (Z.of_nat (length (List.filter (fun r => String.eqb (name r) n) rows))))
    (remove_dups (map name rows)).

Definition getMetrics (startTime endTime : string) (d : sysdb) : outcome dbos_error (list MetricData) :=
  match Date_parse startTime, Date_parse endTime with
  | Some st, Some en =>
      Ok (metric_rows "workflow_count" ws_name
            (select_where (fun _ r => (st <=? ws_created_at r) && (ws_created_at r <? en))
               (workflow_status d)).*2
          ++ metric_rows "step_count" oo_function_name
               (select_where (fun _ r => sql_geb (oo_completed_at_epoch_ms r) st
                                         && sql_ltb (oo_completed_at_epoch_ms r) en)
                  (operation_outputs d)).*2)
  | _, _ => Throw invalid_text
  end.

(** * The global timeout *)

(** One of the three loops of [globalTimeout]: cancels what is listed, each with the clock of
    its own statement. *)
Definition cancel_listed (cutoffIso status : string) (clock : string -> Z) : DB unit := fun d =>
  match listWorkflows (no_filters <| q_status := Some (One status) |>
                                  <| q_endTime := Some cutoffIso |>) d with
  | Throw e => (Throw e, d)
  | Ok l => for_each (fun w => cancelWorkflows [clock (i_workflowUUID w)] [i_workflowUUID w] false) l d
  end.

Definition globalTimeout (toISOString : Z -> string) (cutoffEpochTimestampMs : Z)
    (clock : string -> Z) : DB unit :=
  let cutoffIso := toISOString cutoffEpochTimestampMs in
  cancel_listed cutoffIso (status_string PENDING) clock ;*
  cancel_listed cutoffIso (status_string ENQUEUED) clock ;*
  cancel_listed cutoffIso (status_string DELAYED) clock.

(** * Lemmas: clauses *)

Lemma where_ok {K R} (cs : list (clause K R)) p :
  where_clause cs = inr p -> forall k r, p k r = forallb (holds k r) cs.
Proof. unfold where_clause. repeat case_match; intros; by simplify_eq. Qed.

Lemma holds_app {K R} (k : K) (r : R) cs cs' :
  forallb (holds k r) (cs ++ cs') = true <->
  forallb (holds k r) cs = true /\ forallb (holds k r) cs' = true.
Proof. rewrite forallb_app, andb_true_iff. done. Qed.

(** What a filter asks of a column *)
Definition matches (value : option StrFilter) (o : option string) : Prop :=
  match value with
  | None => True
  | Some (One s) => s = "" \/ o = Some s
  | Some (Any l) => exists x, o = Some x /\ x ∈ l
  end.

Definition nonempty (value : option StrFilter) : Prop := value <> Some (Any []).

Lemma is_in_spec l o : is_in l o = true <-> exists x, o = Some x /\ x ∈ l.
Proof.
  unfold is_in. destruct o as [x|]; [|naive_solver]. rewrite mem_spec. naive_solver.
Qed.

Lemma add_filter_spec {K R} (col : K -> R -> option string) v k r :
  nonempty v -> forallb (holds k r) (add_filter col v) = true <-> matches v (col k r).
Proof.
  intros Hn. destruct v as [[[|c s]|[|x l]]|]; simpl; try done.
  - split; [by left|done].
  - rewrite andb_true_r, sql_eqb_spec. naive_solver.
  - rewrite andb_true_r, is_in_spec. done.
Qed.

Lemma add_filter_ok {K R} (col : K -> R -> option string) v :
  nonempty v -> Forall (fun c => is_bad_syntax c = false /\ is_bad_param c = false) (add_filter col v).
Proof. intros Hn. by destruct v as [[[|c s]|[|x l]]|]; repeat constructor. Qed.

(** ** LIKE *)

(** Text without the special characters of LIKE *)
Fixpoint literal (p : string) : bool :=
  match p with
  | "" => true
  | String c p' => negb (mem c ["%"; "_"; "\"]%char) && literal p'
  end.

Lemma like_any s : sql_like "%" s = true.
Proof.
  induction s as [|c s IH]; [done|].
  change (sql_like "%" (String c s)) with (sql_like "" (String c s) || sql_like "%" s).
  by rewrite IH, orb_true_r.
Qed.

Lemma like_literal c p s :
  mem c ["%"; "_"; "\"]%char = false ->
  sql_like (String c p) s
  = match s with String x s' => bool_decide (x = c) && sql_like p s' | "" => false end.
Proof. intros Hc. destruct c as [[] [] [] [] [] [] [] []]; (discriminate Hc || reflexivity). Qed.

Lemma like_prefix p s :
  literal p = true -> sql_like (p +:+ "%") s = true <-> exists t, s = p +:+ t.
Proof.
  revert s. induction p as [|c p IH]; intros s Hl.
  - change ("" +:+ "%") with "%". rewrite like_any. split; [by exists s|done].
  - simpl in Hl. apply andb_true_iff in Hl as [Hc Hl]. apply negb_true_iff in Hc.
    rewrite append_cons, like_literal by done. destruct s as [|x s].
    + split; [done|]. intros [t Ht]. by rewrite append_cons in Ht.
    + rewrite andb_true_iff, bool_decide_eq_true, IH by done. split.
      * intros [-> [t ->]]. by exists t.
      * intros [t Ht]. rewrite append_cons in Ht. simplify_eq. naive_solver.
Qed.

(** ** Groups *)

Lemma group_rows_spec {R} (key : R -> list (option string)) rows :
  NoDup (group_rows key rows).*1
  /\ (forall k g, (k, g) ∈ group_rows key rows ->
        g <> [] /\ g = List.filter (fun r => bool_decide (key r = k)) rows).
Proof.
  unfold group_rows. split.
  - rewrite map_map. simpl. change (NoDup (map id (remove_dups (map key rows)))).
    rewrite map_id. apply NoDup_remove_dups.
  - intros k g Hg. apply list_elem_of_In, in_map_iff in Hg as (k' & Hk & Hin). simplify_eq.
    split; [|done]. apply list_elem_of_In, elem_of_remove_dups, list_elem_of_In, in_map_iff in Hin
      as (r & Hr & Hin). intros E.
    assert (In r (List.filter (fun r => bool_decide (key r = k)) rows)) as H
      by (apply filter_In; split; [done|by apply bool_decide_eq_true]).
    by rewrite E in H.
Qed.

Definition sum_of (l : list Z) : Z := foldr Z.add 0 l.

Lemma sum_of_app l l' : sum_of (l ++ l') = sum_of l + sum_of l'.
Proof. induction l as [|x l IH]; simpl; [done|]. rewrite IH. lia. Qed.

(** Counting by a list of distinct keys that covers the rows counts every row once. *)
Lemma count_by_keys {R} (key : R -> list (option string)) rows keys :
  NoDup keys -> (forall r, r ∈ rows -> key r ∈ keys) ->
  sum_of (map (fun k => Z.of_nat (length (List.filter (fun r => bool_decide (key r = k)) rows))) keys)
  = Z.of_nat (length rows).
Proof.
  intros Hn. induction rows as [|r rows IH]; intros Hc.
  - simpl. clear. induction keys as [|k keys IH]; simpl; [done|]. by rewrite IH.
  - specialize (IH ltac:(intros x Hx; apply Hc; by right)).
    assert (key r ∈ keys) as Hin by (apply Hc; by left).
    apply list_elem_of_split in Hin as (l1 & l2 & E). rewrite E in *.
    apply NoDup_app in Hn as (_ & Hd & Hn2). apply NoDup_cons in Hn2 as [Hk _].
    rewrite map_app, sum_of_app in *. cbn [map] in *. simpl in IH |- *.
    assert (forall l, key r ∉ l ->
      map (fun k => Z.of_nat (length (if bool_decide (key r = k)
             then r :: List.filter (fun r => bool_decide (key r = k)) rows
             else List.filter (fun r => bool_decide (key r = k)) rows))) l
      = map (fun k => Z.of_nat (length (List.filter (fun r => bool_decide (key r = k)) rows))) l) as He.
    { intros l Hl. apply map_ext_in. intros k Hk'. rewrite bool_decide_false; [done|].
      intros <-. by apply Hl, list_elem_of_In. }
    rewrite !He; [|done|intros Hl; by apply (Hd _ Hl); left].
    rewrite bool_decide_true by done. simpl. lia.
Qed.

Lemma group_counts {R} (key : R -> list (option string)) rows :
  sum_of (map (fun g => Z.of_nat (length g.2)) (group_rows key rows)) = Z.of_nat (length rows).
Proof.
  unfold group_rows. rewrite map_map. simpl. apply count_by_keys; [apply NoDup_remove_dups|].
  intros r Hr. apply elem_of_remove_dups, list_elem_of_In, in_map. by apply list_elem_of_In.
Qed.

(** * What a listing returns *)

Definition prefix_matches (value : option StrFilter) (id : string) : Prop :=
  match value with
  | None => True
  | Some (One p) => p = "" \/ exists t, id = p +:+ t
  | Some (Any ps) => exists p, p ∈ ps /\ exists t, id = p +:+ t
  end.

Definition literal_prefixes (value : option StrFilter) : Prop :=
  match value with
  | None => True
  | Some (One p) => literal p = true
  | Some (Any ps) => Forall (fun p => literal p = true) ps
  end.

Definition ids_match (value : option (list string)) (id : string) : Prop :=
  match value with None => True | Some ids => id ∈ ids end.

Definition bool_matches (value : option bool) (b : bool) : Prop :=
  match value with None => True | Some x => b = x end.

(** The time, if one is given, satisfies [P]. *)
Definition time_satisfies (value : option string) (P : Z -> bool) : Prop :=
  match truthy_str value with
  | None => True
  | Some t => exists ms, Date_parse t = Some ms /\ P ms = true
  end.

Definition date_ok (value : option string) : Prop :=
  match truthy_str value with None => True | Some t => is_Some (Date_parse t) end.

(** The filters of the input, read as the documentation of [GetWorkflowsInput] puts them *)
Definition satisfies (q : GetWorkflowsInput) (id : string) (r : wf_row) : Prop :=
  (q_queuesOnly q = true -> is_Some (ws_queue_name r) /\ isWorkflowActive (ws_status r) = true)
  /\ matches (q_workflowName q) (Some (ws_name r))
  /\ matches (q_queueName q) (ws_queue_name r)
  /\ matches (q_scheduleName q) (ws_schedule_name r)
  /\ prefix_matches (q_workflow_id_prefix q) id
  /\ ids_match (q_workflowIDs q) id
  /\ matches (q_authenticatedUser q) (Some (ws_authenticated_user r))
  /\ matches (q_forkedFrom q) (ws_forked_from r)
  /\ matches (q_parentWorkflowID q) (ws_parent_workflow_id r)
  /\ bool_matches (q_wasForkedFrom q) (ws_was_forked_from r)
  /\ bool_matches (q_hasParent q) (bool_decide (is_Some (ws_parent_workflow_id r)))
  /\ (forall kvs, q_attributes q = Some kvs -> kvs <> [] ->
        exists j, ws_attributes r = Some j /\ jsonb_contains j (JObj kvs) = true)
  /\ time_satisfies (q_startTime q) (fun t => t <=? ws_created_at r)
  /\ time_satisfies (q_endTime q) (fun t => ws_created_at r <=? t)
  /\ time_satisfies (q_completedAfter q) (sql_geb (ws_completed_at r))
  /\ time_satisfies (q_completedBefore q) (sql_leb (ws_completed_at r))
  /\ time_satisfies (q_dequeuedAfter q) (sql_geb (ws_started_at_epoch_ms r))
  /\ time_satisfies (q_dequeuedBefore q) (sql_leb (ws_started_at_epoch_ms r))
  /\ matches (q_status q) (Some (status_string (ws_status r)))
  /\ matches (q_applicationVersion q) (ws_application_version r)
  /\ matches (q_executorId q) (ws_executor_id r).

(** No list of values is empty. *)
Definition nonempty_lists (q : GetWorkflowsInput) : Prop :=
  nonempty (q_workflowName q) /\ nonempty (q_queueName q) /\ nonempty (q_scheduleName q)
  /\ nonempty (q_workflow_id_prefix q) /\ q_workflowIDs q <> Some []
  /\ nonempty (q_authenticatedUser q) /\ nonempty (q_forkedFrom q) /\ nonempty (q_parentWorkflowID q)
  /\ nonempty (q_status q) /\ nonempty (q_applicationVersion q) /\ nonempty (q_executorId q).

(** Every date parses. *)
Definition dates_ok (q : GetWorkflowsInput) : Prop :=
  date_ok (q_startTime q) /\ date_ok (q_endTime q) /\ date_ok (q_completedAfter q)
  /\ date_ok (q_completedBefore q) /\ date_ok (q_dequeuedAfter q) /\ date_ok (q_dequeuedBefore q).

Definition good {K R} (c : clause K R) : Prop := is_bad_syntax c = false /\ is_bad_param c = false.

Lemma good_where {K R} (cs : list (clause K R)) :
  Forall good cs -> where_clause cs = inr (fun k r => forallb (holds k r) cs).
Proof.
  intros Hg. unfold where_clause.
  assert (existsb is_bad_syntax cs = false /\ existsb is_bad_param cs = false) as [-> ->]; [|done].
  induction Hg as [|c cs [H1 H2] _ [IH1 IH2]]; [done|]. simpl. by rewrite H1, H2.
Qed.

Lemma prefix_filter_spec v id r :
  nonempty v -> literal_prefixes v ->
  forallb (holds id r) (prefix_filter v) = true <-> prefix_matches v id.
Proof.
  intros Hn Hl. destruct v as [[[|c s]|[|x l]]|]; cbn [prefix_filter forallb holds]; try done.
  - split; [by left|done].
  - rewrite andb_true_r. unfold any_prefix. cbn [existsb]. rewrite orb_false_r, like_prefix by done.
    simpl. naive_solver.
  - rewrite andb_true_r. unfold any_prefix. rewrite existsb_exists. simpl prefix_matches. simpl in Hl.
    rewrite Forall_forall in Hl. split.
    + intros (p & Hp & Hm). apply list_elem_of_In in Hp. rewrite like_prefix in Hm by auto. eauto.
    + intros (p & Hp & Hm). exists p. split; [by apply list_elem_of_In|]. rewrite like_prefix by auto. done.
Qed.

Lemma ids_filter_spec v id r :
  v <> Some [] -> forallb (holds id r) (ids_filter v) = true <-> ids_match v id.
Proof.
  intros Hn. destruct v as [[|x l]|]; simpl; try done. by rewrite andb_true_r, mem_spec.
Qed.

Lemma bool_filter_spec (f : wf_row -> bool) v id r :
  forallb (holds id r) (bool_filter f v) = true <-> bool_matches v (f r).
Proof. destruct v as [b|]; simpl; [|done]. rewrite andb_true_r. apply eqb_true_iff. Qed.

Lemma when_set_spec b (p : wf_row -> bool) (id : string) r :
  forallb (holds id r) (when_set b p) = true <-> (b = true -> p r = true).
Proof. destruct b; simpl; [rewrite andb_true_r|]; naive_solver. Qed.

Lemma time_filter_spec v (test : wf_row -> Z -> bool) (id : string) r :
  date_ok v -> forallb (holds id r) (time_filter test v) = true <-> time_satisfies v (test r).
Proof.
  unfold date_ok, time_filter, time_satisfies. destruct (truthy_str v) as [t|]; [|done].
  intros [ms ->]. simpl. rewrite andb_true_r. naive_solver.
Qed.

Lemma attributes_filter_spec v id r :
  forallb (holds id r) (attributes_filter v) = true <->
  (forall kvs, v = Some kvs -> kvs <> [] ->
     exists j, ws_attributes r = Some j /\ jsonb_contains j (JObj kvs) = true).
Proof.
  destruct v as [[|kv kvs]|]; simpl; [naive_solver| |naive_solver].
  rewrite andb_true_r. destruct (ws_attributes r); naive_solver.
Qed.

Lemma workflow_clauses_good q : nonempty_lists q -> dates_ok q -> Forall good (workflow_clauses q).
Proof.
  assert (forall v f, nonempty v -> Forall good (add_filter (column f) v)) as Ha
    by (intros v f; apply add_filter_ok).
  assert (forall v (test : wf_row -> Z -> bool), date_ok v ->
            Forall good (time_filter (K := string) test v)) as Ht.
  { intros v test. unfold date_ok, time_filter. destruct (truthy_str v) as [t|]; [|constructor].
    intros [ms ->]. by repeat constructor. }
  intros (N1 & N2 & N3 & N4 & N5 & N6 & N7 & N8 & N9 & N10 & N11) (D1 & D2 & D3 & D4 & D5 & D6).
  unfold workflow_clauses. repeat (apply Forall_app; split); try by (apply Ha || apply Ht).
  - unfold when_set. by destruct (q_queuesOnly q); repeat constructor.
  - unfold prefix_filter. by destruct (q_workflow_id_prefix q) as [[[|c s]|[|x l]]|]; repeat constructor.
  - unfold ids_filter. by destruct (q_workflowIDs q) as [[|x l]|]; repeat constructor.
  - unfold bool_filter. by destruct (q_wasForkedFrom q); repeat constructor.
  - unfold bool_filter. by destruct (q_hasParent q); repeat constructor.
  - unfold attributes_filter. by destruct (q_attributes q) as [[|x l]|]; repeat constructor.
Qed.

Lemma workflow_clauses_spec q id r :
  nonempty_lists q -> dates_ok q -> literal_prefixes (q_workflow_id_prefix q) ->
  forallb (holds id r) (workflow_clauses q) = true <-> satisfies q id r.
Proof.
  intros (N1 & N2 & N3 & N4 & N5 & N6 & N7 & N8 & N9 & N10 & N11) (D1 & D2 & D3 & D4 & D5 & D6) Hl.
  unfold workflow_clauses, satisfies. rewrite !holds_app.
  rewrite !add_filter_spec by done. rewrite !time_filter_spec by done.
  rewrite when_set_spec, prefix_filter_spec, ids_filter_spec, !bool_filter_spec,
    attributes_filter_spec by done.
  unfold queued_only. rewrite andb_true_iff, bool_decide_eq_true. done.
Qed.

Lemma created_order_total desc a b : created_order desc a b = true \/ created_order desc b a = true.
Proof. unfold created_order. destruct desc; lia. Qed.

Lemma created_order_trans desc a b c :
  created_order desc a b = true -> created_order desc b c = true -> created_order desc a c = true.
Proof. unfold created_order. destruct desc; lia. Qed.

Lemma listWorkflows_rows (q : GetWorkflowsInput) (d : sysdb) :
  nonempty_lists q -> dates_ok q -> literal_prefixes (q_workflow_id_prefix q) ->
  0 <= default 0 (q_limit q) -> 0 <= default 0 (q_offset q) ->
  exists rows : list (string * wf_row),
    NoDup rows.*1
    /\ (forall id r, (id, r) ∈ rows <-> workflow_status d !! id = Some r /\ satisfies q id r)
    /\ StronglySorted (fun a b => created_order (q_sortDesc q) a b = true) rows
    /\ listWorkflows q d
       = Ok (map (fun kr => mapWorkflowStatus kr.1 (loaded q kr.2))
               (limit (truthy_num (q_limit q)) (drop (Z.to_nat (default 0 (q_offset q))) rows))).
Proof.
  intros Hn Hd Hl Hlim Hoff. pose proof (good_where _ (workflow_clauses_good q Hn Hd)) as Hw.
  set (p := fun k r => forallb (holds k r) (workflow_clauses q)) in Hw.
  exists (order_by (created_order (q_sortDesc q)) (select_where p (workflow_status d))). split; [|split; [|split]].
  - rewrite order_by_Permutation. apply NoDup_select_where.
  - intros id r. rewrite elem_of_order_by, elem_of_select_where. unfold p.
    by rewrite workflow_clauses_spec.
  - apply order_by_sorted; [apply created_order_total | apply created_order_trans].
  - unfold listWorkflows. rewrite Hw. unfold page.
    assert (default 0 (truthy_num (q_offset q)) = default 0 (q_offset q)) as ->
      by (by destruct (q_offset q) as [[]|]).
    assert (default 0 (q_offset q) <? 0 = false) as -> by lia.
    destruct (q_limit q) as [[|n|n]|]; simpl; try done.
Qed.

(** No workflow was created in the very millisecond of a bound: there the comment of the input,
    "started after", and the comparison of the query, [>=], differ. *)
Definition no_boundary (q : GetWorkflowsInput) (d : sysdb) : Prop :=
  forall id r, workflow_status d !! id = Some r ->
    time_satisfies (q_startTime q) (fun t => negb (ws_created_at r =? t))
    /\ time_satisfies (q_endTime q) (fun t => negb (ws_created_at r =? t)).

(** The bounds of the creation, strict as the comments of the input have them *)
Definition created_between (q : GetWorkflowsInput) (r : wf_row) : Prop :=
  time_satisfies (q_startTime q) (fun t => t <? ws_created_at r)
  /\ time_satisfies (q_endTime q) (fun t => ws_created_at r <? t).

Lemma created_between_spec q d id r :
  no_boundary q d -> workflow_status d !! id = Some r -> satisfies q id r -> created_between q r.
Proof.
  intros Hb Hr (_ & _ & _ & _ & _ & _ & _ & _ & _ & _ & _ & _ & Hs & He & _).
  destruct (Hb id r Hr) as [Hs' He']. unfold created_between, time_satisfies in *. split.
  - destruct (truthy_str (q_startTime q)); [|done].
    destruct Hs as (ms & Hp & Hs), Hs' as (ms' & Hp' & Hs'). simplify_eq. eexists. split; [done|]. lia.
  - destruct (truthy_str (q_endTime q)); [|done].
    destruct He as (ms & Hp & He), He' as (ms' & Hp' & He'). simplify_eq. eexists. split; [done|]. lia.
Qed.

(** C22: [listWorkflows] returns exactly what its input asks for: for an input whose lists of
    values are not empty, whose dates parse and are not the creation of a workflow to the
    millisecond, whose prefixes hold no wildcard, whose limit, if there is one, is positive and
    which does not ask for queued workflows only, it returns the page from the offset on, of at
    most the limit, of the workflows that satisfy every filter - those created after [startTime]
    and before [endTime] among them -, each once, in the order of their creation. *)
Theorem listWorkflows_exact (q : GetWorkflowsInput) (d : sysdb) :
  nonempty_lists q -> dates_ok q -> no_boundary q d -> literal_prefixes (q_workflow_id_prefix q) ->
  q_queuesOnly q = false -> 0 < default 1 (q_limit q) -> 0 <= default 0 (q_offset q) ->
  exists rows : list (string * wf_row),
    NoDup rows.*1
    /\ (forall id r, (id, r) ∈ rows <->
          workflow_status d !! id = Some r /\ satisfies q id r /\ created_between q r)
    /\ StronglySorted (fun a b => created_order (q_sortDesc q) a b = true) rows
    /\ listWorkflows q d
       = Ok (map (fun kr => mapWorkflowStatus kr.1 (loaded q kr.2))
               (limit (q_limit q) (drop (Z.to_nat (default 0 (q_offset q))) rows))).
Proof.
  intros Hn Hd Hb Hl _ Hlim Hoff.
  destruct (listWorkflows_rows q d) as (rows & H1 & H2 & H3 & H4); [done|done|done| |done|].
  { destruct (q_limit q); simpl in *; lia. }
  exists rows. split; [done|]. split.
  - intros id r. rewrite H2. split; [|tauto]. intros [Hr Hs]. by eauto using created_between_spec.
  - split; [done|]. rewrite H4. by destruct (q_limit q) as [[|n|n]|].
Qed.

(** An empty list of values is a syntax error of the query. *)
Lemma listWorkflows_empty_list (q : GetWorkflowsInput) (d : sysdb) :
  q_workflowIDs q = Some [] \/ q_workflowName q = Some (Any []) ->
  listWorkflows q d = Throw syntax_error.
Proof.
  intros Hq. unfold listWorkflows, where_clause.
  assert (existsb is_bad_syntax (workflow_clauses q) = true) as ->; [|done].
  apply existsb_exists. exists BadSyntax. split; [|done]. unfold workflow_clauses.
  apply list_elem_of_In. destruct Hq as [->| ->]; set_solver.
Qed.

(** A zero limit is no limit. *)
Lemma listWorkflows_limit_zero (q : GetWorkflowsInput) (d : sysdb) :
  listWorkflows (q <| q_limit := Some 0 |>) d = listWorkflows (q <| q_limit := None |>) d.
Proof. reflexivity. Qed.

(** The aggregates partition what they select: the groups are distinct, each has at least
    one workflow, and the counts add up to the number of workflows that satisfy the filters -
    nobody is counted twice or lost, NULLs included. *)
Theorem getWorkflowAggregates_partition (a : GetWorkflowAggregatesInput) (d : sysdb)
    (rows : list WorkflowAggregateRow) :
  getWorkflowAggregates a d = Ok rows -> a_selectCount a = true ->
  exists p, where_clause (aggregate_clauses a) = inr p
    /\ NoDup (map ag_group rows)
    /\ Forall (fun g => exists n, ag_count g = Some n /\ 0 < n) rows
    /\ sum_of (omap ag_count rows) = count_where p (workflow_status d).
Proof.
  unfold getWorkflowAggregates. destruct (bad_bucket _); [done|].
  destruct (bool_decide (length (aggregate_groups a) = 0%nat)); [done|]. destruct (negb _); [done|].
  destruct (where_clause (aggregate_clauses a)) as [|p]; [done|]. intros H Hc. simplify_eq.
  set (groups := aggregate_groups a). set (key := fun r => map (fun c => c.2 r) groups).
  set (sel := (select_where p (workflow_status d)).*2).
  destruct (group_rows_spec key sel) as [Hn Hg]. exists p. split; [done|]. rewrite Hc. split; [|split].
  - rewrite map_map. simpl. apply (NoDup_fmap_2_strong (fun g => zip groups.*1 g.1)).
    + intros [k1 g1] [k2 g2] H1 H2 E. simpl in E. destruct (Hg _ _ H1) as [_ Hg1].
      destruct (Hg _ _ H2) as [_ Hg2].
      assert (forall k g, (k, g) ∈ group_rows key sel -> length k = length groups) as Hlen.
      { intros k g Hk. unfold group_rows in Hk. apply list_elem_of_In, in_map_iff in Hk as (k' & Hk & Hin).
        simplify_eq. apply list_elem_of_In, elem_of_remove_dups, list_elem_of_In, in_map_iff in Hin
          as (r & <- & _). unfold key. by rewrite length_map. }
      assert (k1 = k2) as ->; [|by subst].
      apply (f_equal (fmap snd)) in E. rewrite !snd_zip in E; [done|..];
        rewrite length_fmap; [by erewrite Hlen | by erewrite (Hlen k1)].
    + by apply (NoDup_fmap_1 fst).
  - apply Forall_forall. intros x Hx. apply list_elem_of_In, in_map_iff in Hx as ([k g] & <- & Hin).
    apply list_elem_of_In in Hin. destruct (Hg _ _ Hin) as [Hne _]. simpl. eexists. split; [done|].
    destruct g; [done|]. simpl. lia.
  - unfold count_where. rewrite <- (length_fmap snd (select_where p _)). fold sel.
    rewrite <- (group_counts key sel). f_equal. clear Hn Hg.
    induction (group_rows key sel) as [|g l IH]; [done|]. simpl. f_equal. exact IH.
Qed.

(** ** The global timeout *)

Section timeout.
Context (toISOString : Z -> string) (clock : string -> Z).

(** The date that is printed parses as itself. *)
Definition iso_laws : Prop := forall t, Date_parse (toISOString t) = Some t /\ toISOString t <> "".

(** Workflows that the loop for status [s] cancels *)
Definition timed_out (s : StatusString) (cutoff : Z) (r : wf_row) : bool :=
  bool_decide (ws_status r = s) && (ws_created_at r <=? cutoff).

Definition timeout_row (p : wf_row -> bool) (id : string) (r : wf_row) : wf_row :=
  if p r then cancelled (clock id) r else r.

Lemma status_string_inj s s' : status_string s = status_string s' -> s = s'.
Proof. by destruct s, s'. Qed.

Lemma for_each_cancel (l : list WorkflowStatusInternal) d :
  db_ok d -> NoDup (map i_workflowUUID l) ->
  exists t, for_each (fun w => cancelWorkflows [clock (i_workflowUUID w)] [i_workflowUUID w] false) l d
    = (Ok tt, d <| workflow_status := t |>)
  /\ db_ok (d <| workflow_status := t |>)
  /\ forall id, t !! id = (fun r => if mem id (map i_workflowUUID l) && not_finished r
                                  then cancelled (clock id) r else r) <$> workflow_status d !! id.
Proof.
  revert d. induction l as [|w l IH]; intros d Hd Hn.
  - exists (workflow_status d). split; [by destruct d|]. split; [by destruct d|].
    intros id. simpl. by destruct (workflow_status d !! id).
  - simpl in Hn. apply NoDup_cons in Hn as [Hw Hn]. cbn [for_each]. unfold bind.
    pose proof (preserves_cancelWorkflows [clock (i_workflowUUID w)] [i_workflowUUID w] false d Hd) as Hd1.
    unfold cancelWorkflows in *. cbn [negb head default] in *.
    rewrite cancelStatement_run in * by apply Hd. cbn [snd] in Hd1. cbv beta iota.
    destruct (IH _ Hd1 Hn) as (t & -> & Ht & Hl). exists t. split; [done|]. split; [exact Ht|].
    intros id. rewrite Hl. simpl. rewrite lookup_update_where.
    destruct (workflow_status d !! id) as [r|]; [|done]. simpl. f_equal.
    rewrite !mem_cons. simpl (mem id []). rewrite orb_false_r.
    destruct (decide (id = i_workflowUUID w)) as [->|Hne].
    + rewrite bool_decide_true, (proj2 (mem_false _ _) Hw) by done. simpl.
      by destruct (not_finished r).
    + by rewrite bool_decide_false.
Qed.

Lemma cancel_listed_run cutoff s d :
  iso_laws -> db_ok d -> isWorkflowActive s = true ->
  exists t, cancel_listed (toISOString cutoff) (status_string s) clock d
    = (Ok tt, d <| workflow_status := t |>)
  /\ db_ok (d <| workflow_status := t |>)
  /\ forall id, t !! id = timeout_row (timed_out s cutoff) id <$> workflow_status d !! id.
Proof.
  intros Hiso Hd Hs. destruct (Hiso cutoff) as [Hp Hne]. unfold cancel_listed.
  destruct (toISOString cutoff) as [|c iso]; [done|]. clear Hne.
  set (q := no_filters <| q_status := Some (One (status_string s)) |>
                       <| q_endTime := Some (String c iso) |>).
  destruct (listWorkflows_rows q d) as (rows & Hn & Hin & _ & ->).
  - repeat split; done.
  - unfold dates_ok, date_ok. simpl. rewrite Hp. by eauto 10.
  - done.
  - done.
  - done.
  - cbn [limit truthy_num q_limit q_offset default drop]. set (l := map _ _).
    assert (map i_workflowUUID l = rows.*1) as Hl by (unfold l; by rewrite map_map).
    change (drop (Z.to_nat 0) rows) with rows in *.
    destruct (for_each_cancel l d Hd) as (t & Hrun & Hok & Hlook); [by rewrite Hl|].
    exists t. split; [exact Hrun|]. split; [done|]. intros id. rewrite Hlook, Hl.
    destruct (workflow_status d !! id) as [r|] eqn:Hr; [|done]. simpl. f_equal. unfold timeout_row.
    assert (mem id rows.*1 = timed_out s cutoff r) as ->.
    { apply eq_true_iff_eq. rewrite mem_spec. unfold timed_out. rewrite andb_true_iff, bool_decide_eq_true.
      assert (satisfies q id r <-> ws_status r = s /\ (ws_created_at r <=? cutoff) = true) as Hsat.
      { unfold satisfies, time_satisfies. simpl. rewrite Hp. split.
        - intros H. destruct_and! H. split; [|naive_solver]. apply status_string_inj.
          by match goal with H : _ = "" \/ Some _ = Some _ |- _ => destruct H; [by destruct s|congruence] end.
        - intros [-> Hc]. repeat split; try done; eauto. }
      rewrite <- Hsat. rewrite list_elem_of_fmap. split.
      - intros ([id' r'] & -> & Hm). apply Hin in Hm as [Hr' Hm]. simpl in *. congruence.
      - intros Hm. exists (id, r). split; [done|]. by apply Hin. }
    destruct (timed_out s cutoff r) eqn:E; [|done].
    assert (not_finished r = true) as ->; [|done].
    unfold timed_out in E. break_bool. subst. unfold not_finished. by destruct (ws_status r).
Qed.

(** After a global timeout every workflow that was running, enqueued or delayed and was
    created at the cutoff or before it is cancelled, with the row an individual cancellation
    would have left; every other workflow, and everything else in the database, is as it was. *)
Theorem globalTimeout_exact (cutoff : Z) (d : sysdb) :
  iso_laws -> db_ok d ->
  exists t, globalTimeout toISOString cutoff clock d = (Ok tt, d <| workflow_status := t |>)
  /\ forall id, t !! id = timeout_row (fun r => isWorkflowActive (ws_status r) && (ws_created_at r <=? cutoff))
                  id <$> workflow_status d !! id.
Proof.
  intros Hiso Hd. unfold globalTimeout, bind.
  destruct (cancel_listed_run cutoff PENDING d Hiso Hd eq_refl) as (t1 & -> & H1 & L1). cbv beta iota.
  destruct (cancel_listed_run cutoff ENQUEUED _ Hiso H1 eq_refl) as (t2 & -> & H2 & L2). cbv beta iota.
  destruct (cancel_listed_run cutoff DELAYED _ Hiso H2 eq_refl) as (t3 & -> & H3 & L3).
  exists t3. split; [done|]. intros id. rewrite L3. simpl. rewrite L2. simpl. rewrite L1.
  destruct (workflow_status d !! id) as [r|]; [|done]. simpl. f_equal.
  unfold timeout_row, timed_out, isWorkflowActive.
  by destruct (ws_status r) eqn:Es, (ws_created_at r <=? cutoff) eqn:Ec; simpl; rewrite ?Es, ?Ec; simpl;
    rewrite ?Es, ?Ec; simpl; rewrite ?Es, ?Ec.
Qed.

End timeout.

(** ** The status of another workflow *)

Section status_of_another.
Context (stringify_status : WorkflowStatusInternal -> string)
        (parse_status : string -> WorkflowStatusInternal).

Notation get := (getWorkflowStatus stringify_status parse_status).

Lemma find_status_pure id d : (find_status stringify_status id d).2 = d.
Proof. unfold find_status. by destruct (listWorkflows _ _). Qed.

(** A workflow that asks for the status of another one as its operation [fid] gets the
    same answer on every replay, whatever has happened to the other one since - if [fid] is
    not 0.  As its first operation, whose ID is 0, the call is never checkpointed: it reads
    the database anew on every replay, and writes nothing. *)
Theorem getWorkflowStatus_stable (x id caller : string) (fid st en : Z) (d d1 : sysdb)
    (o : option WorkflowStatusInternal) :
  db_ok d -> caller <> "" ->
  getWorkflowStatus stringify_status parse_status x id (Some caller) (Some fid) st en d = (Ok o, d1) ->
  (fid <> 0 -> forall x' st' en' d2, same_checkpoint caller fid d2 d1 -> is_cancelled caller d2 = false ->
     get x' id (Some caller) (Some fid) st' en' d2 = (Ok o, d2))
  /\ (fid = 0 -> d1 = d /\ forall x' st' en' d2,
       get x' id (Some caller) (Some fid) st' en' d2 = get x' id None None st' en' d2).
Proof.
  intros Hd Hc H. assert (truthy_str (Some caller) = Some caller) as Ec by (by destruct caller).
  unfold getWorkflowStatus in *. rewrite Ec in *. split.
  - intros Hf. assert (truthy_num (Some fid) = Some fid) as Ef by (by destruct fid).
    rewrite Ef in *. apply bind_inv_ok in H as (json & da & H & Hr). injection Hr as <- <-.
    intros x' st' en' d2 Hs Hcan. unfold bind.
    assert (preserves db_ok (find_status stringify_status id)) as Hp
      by (intros s Hs'; by rewrite find_status_pure).
    assert (forall s, same_checkpoint caller fid (find_status stringify_status id s).2 s) as Hk
      by (intros s; by rewrite find_status_pure).
    destruct (run_once_replays x DBOS_FUNCNAME_GETSTATUS caller fid (find_status stringify_status id)
      st en d json da Hd Hp Hk H x' (find_status stringify_status id) st' en' d2 Hs Hcan) as [-> _].
    done.
  - intros ->. cbn [truthy_num] in *. change (truthy_num (Some 0)) with (@None Z) in *. split; [|done].
    apply bind_inv_ok in H as (json & da & H & Hr). injection Hr as _ <-.
    pose proof (find_status_pure id d) as Hp. by rewrite H in Hp.
Qed.

End status_of_another.

End query.

(** * Presenting: [toWorkflowStatus] and [listWorkflowSteps] *)

(** [WorkflowStatus], with the values and errors deserialized *)
Record WorkflowStatus (Err : Type) : Type := WorkflowStatusOf {
  w_workflowID : string;
  w_status : string;
  w_workflowName : string;
  w_workflowClassName : string;
  w_workflowConfigName : string;
  w_queueName : option string;
  w_authenticatedUser : string;
  w_assumedRole : string;
  w_authenticatedRoles : list string;
  w_input : option jsval;
  w_output : option jsval;
  w_error : option Err;
  w_request : json;
  w_executorId : option string;
  w_applicationVersion : option string;
  w_applicationID : string;
  w_recoveryAttempts : option Z;
  w_createdAt : Z;
  w_updatedAt : option Z;
  w_timeoutMS : option Z;
  w_deadlineEpochMS : option Z;
  w_deduplicationID : option string;
  w_priority : Z;
  w_queuePartitionKey : option string;
  w_dequeuedAt : option Z;
  w_forkedFrom : option string;
  w_wasForkedFrom : bool;
  w_parentWorkflowID : option string;
  w_delayUntilEpochMS : option Z;
  w_completedAt : option Z;
  w_attributes : option json;
  w_scheduleName : option string
}.

(** [StepInfo] *)
Record StepInfo (Err : Type) : Type := StepInfoOf {
  si_functionID : Z;
  si_name : string;
  si_output : option jsval;
  si_error : option Err;
  si_childWorkflowID : option string;
  si_startedAtEpochMs : option Z;
  si_completedAtEpochMs : option Z
}.

Section present.
(** [safeParsePositionalArgs], [safeParse] and [safeParseError] with the configured serializer *)
Context {Err : Type} (safe_args safe_value : string -> option string -> jsval)
        (safe_error : string -> option string -> Err).

Definition toWorkflowStatus (i : WorkflowStatusInternal) : WorkflowStatus Err :=
  WorkflowStatusOf Err (i_workflowUUID i) (status_string (i_status i)) (i_workflowName i)
    (i_workflowClassName i) (i_workflowConfigName i) (i_queueName i) (i_authenticatedUser i)
    (i_assumedRole i) (i_authenticatedRoles i)
    ((fun t => safe_args t (i_serialization i)) <$> truthy_str (i_input i))
    ((fun t => safe_value t (i_serialization i)) <$> truthy_str (i_output i))
    ((fun t => safe_error t (i_serialization i)) <$> truthy_str (i_error i))
    (i_request i) (i_executorId i) (i_applicationVersion i) (i_applicationID i)
    (i_recoveryAttempts i) (i_createdAt i) (i_updatedAt i) (i_timeoutMS i) (i_deadlineEpochMS i)
    (i_deduplicationID i) (i_priority i) (i_queuePartitionKey i) (i_startedAtEpochMs i)
    (i_forkedFrom i) (i_wasForkedFrom i) (i_parentWorkflowID i) (i_delayUntilEpochMS i)
    (i_completedAt i) (i_attributes i) (i_scheduleName i).

Definition step_info (loadOutput : bool) (s : Z * op_row) : StepInfo Err :=
  let keep (o : option string) := if loadOutput then truthy_str o else None in
  StepInfoOf Err s.1 (oo_function_name s.2)
    ((fun t => safe_value t (oo_serialization s.2)) <$> keep (oo_output s.2))
    ((fun t => safe_error t (oo_serialization s.2)) <$> keep (oo_error s.2))
    (oo_child_workflow_id s.2) (oo_started_at_epoch_ms s.2) (oo_completed_at_epoch_ms s.2).

(** [undefined] for a workflow that does not exist *)
Definition listWorkflowSteps (workflowID : string) (loadOutput : bool) (lim offset : option Z)
    (d : sysdb) : option (list (StepInfo Err)) :=
  match workflow_status d !! workflowID with
  | None => None
  | Some _ => Some (order_by (fun a b => si_functionID _ a <=? si_functionID _ b)
                      (step_info loadOutput <$> getAllOperationResults workflowID lim offset d))
  end.

End present.

(** * Witnesses *)

(** Dates are their milliseconds in decimal. *)
Definition ex_iso (t : Z) : string := stringify_Z t.
Definition ex_contains (a b : json) : bool := true.

Lemma ex_iso_laws : iso_laws parse_Z ex_iso.
Proof.
  intros t. pose proof (parse_stringify_Z t) as H. split; [exact H|].
  unfold ex_iso. by destruct (stringify_Z t).
Defined.

Definition ex_query : GetWorkflowsInput :=
  no_filters <| q_workflow_id_prefix := Some (One "wf-") |> <| q_startTime := Some "5" |>
             <| q_limit := Some 10 |>.

Lemma listWorkflows_exact_witness :
  exists l, listWorkflows parse_Z ex_contains ex_query ex_db = Ok l /\ map i_workflowUUID l = ["wf-1"].
Proof.
  destruct (listWorkflows_exact parse_Z ex_contains ex_query ex_db) as (rows & _ & _ & _ & H);
    [repeat split; discriminate| | |reflexivity|reflexivity|reflexivity|discriminate|].
  - repeat split; try exact I. exists 5. reflexivity.
  - intros id r Hr. split; [|exact I]. exists 5. split; [reflexivity|].
    assert (map_Forall (fun _ r => negb (ws_created_at r =? 5) = true) (workflow_status ex_db)) as H
      by (apply map_Forall_insert_2; [reflexivity|apply map_Forall_empty]).
    exact (H id r Hr).
  - eexists. split; [exact H|]. vm_compute in H. injection H as H.
    change (limit (q_limit ex_query) (drop (Z.to_nat (default 0 (q_offset ex_query))) rows))
      with (take 10 rows).
    assert (map i_workflowUUID (map (fun kr => mapWorkflowStatus kr.1 (loaded ex_query kr.2)) (take 10 rows))
      = map fst (take 10 rows)) as E by (by rewrite map_map).
    rewrite E. destruct rows as [|[id r] [|[id2 r2] rows]]; [discriminate H| |discriminate H].
    simpl in H |- *. by injection H as <-.
Defined.

Definition ex_aggregate : GetWorkflowAggregatesInput :=
  GetWorkflowAggregatesInputOf true false false false false true false false false (Some 100)
    [] None None None None None None [] [] [] [] [] [] [] [] None [] None false None [].

Lemma getWorkflowAggregates_partition_witness :
  exists p, where_clause (aggregate_clauses parse_Z ex_contains ex_aggregate) = inr p
    /\ count_where p (workflow_status ex_db) = 1.
Proof.
  destruct (getWorkflowAggregates_partition parse_Z ex_contains ex_aggregate ex_db
    [WorkflowAggregateRowOf [("status", Some "PENDING"); ("time_bucket", Some "1000")] (Some 1) None None None])
    as (p & Hp & _ & _ & Hs); [vm_compute; reflexivity|reflexivity|].
  exists p. split; [exact Hp|]. rewrite <- Hs. reflexivity.
Defined.

Lemma globalTimeout_exact_witness :
  exists t r, globalTimeout parse_Z ex_contains ex_iso 5000 (fun _ => 7000) ex_db
    = (Ok tt, ex_db <| workflow_status := t |>)
  /\ t !! "wf-1" = Some r /\ ws_status r = CANCELLED.
Proof.
  destruct (globalTimeout_exact parse_Z ex_contains ex_iso (fun _ => 7000) 5000 ex_db ex_iso_laws ex_db_ok)
    as (t & H & Hl).
  exists t, (cancelled 7000 ex_row). split; [exact H|]. split; [|reflexivity].
  rewrite Hl. vm_compute. reflexivity.
Defined.

Lemma getWorkflowStatus_stable_witness :
  exists d1, getWorkflowStatus parse_Z ex_contains i_workflowUUID (fun _ => ex_status) "exec-a" "wf-1"
      (Some "wf-1") (Some 3) 10 20 ex_db = (Ok (Some ex_status), d1)
    /\ getWorkflowStatus parse_Z ex_contains i_workflowUUID (fun _ => ex_status) "exec-b" "wf-1"
         (Some "wf-1") (Some 3) 30 40 d1 = (Ok (Some ex_status), d1).
Proof.
  eexists. split; [vm_compute; reflexivity|].
  destruct (getWorkflowStatus_stable parse_Z ex_contains i_workflowUUID (fun _ => ex_status) "exec-a" "wf-1"
    "wf-1" 3 10 20 ex_db _ (Some ex_status) ex_db_ok ltac:(discriminate) ltac:(vm_compute; reflexivity)) as [H _].
  apply H; [discriminate|reflexivity|vm_compute; reflexivity].
Defined.
