(* ===== verification/Lifecycle.v ===== *)
(** The operations of the system database together: every state that a sequence of them
    reaches is well formed, and what they keep of a workflow, of its checkpoints, of its
    messages and of its streams.  An operation is one call of a method of [SystemDatabase]
    (src/src/system_database.ts) with any arguments; the calls of all executors and clients
    interleave. *)

From S2P Require Export Fork Debounce Messaging Queues Schedules.

(** * What operations keep *)

(** What no operation changes in the row of a workflow *)
Definition identity (r : wf_row) :=
  (ws_name r, ws_class_name r, ws_config_name r, ws_authenticated_user r, ws_assumed_role r,
   ws_authenticated_roles r, ws_request r, ws_created_at r, ws_application_id r,
   ws_workflow_timeout_ms r, ws_queue_partition_key r, ws_forked_from r,
   ws_parent_workflow_id r, ws_attributes r, ws_schedule_name r,
   ws_debounce_deadline_epoch_ms r, ws_is_debounced r).

(** The state machine of the status, transitively closed; [resumable] is whether
    [resumeWorkflows] is among the operations. *)
Definition status_evolves (resumable : bool) (s s' : StatusString) : Prop :=
  s = s' \/
  match s with
  | DELAYED => True
  | SUCCESS | ERROR => s' = SUCCESS \/ s' = ERROR
  | CANCELLED => resumable = true /\ s' <> DELAYED
  | _ => s' <> DELAYED
  end.

Record row_evolves (resumable : bool) (r r' : wf_row) : Prop := {
  re_identity : identity r' = identity r;
  re_status : status_evolves resumable (ws_status r) (ws_status r');
  re_inputs : ws_status r <> DELAYED ->
    ws_inputs r' = ws_inputs r /\ ws_serialization r' = ws_serialization r;
  re_attempts : resumable = false -> ws_recovery_attempts r <= ws_recovery_attempts r'
}.

(** A message keeps its content, and once it is consumed it stays so. *)
Definition message_evolves (r r' : notif_row) : Prop := r' = r \/ r' = r <| nt_consumed := true |>.

(** Workflows and messages evolve, and the recorded steps and streams only grow. *)
Record evolves (resumable : bool) (d d' : sysdb) : Prop := {
  ev_rows : forall id r, workflow_status d !! id = Some r ->
    exists r', workflow_status d' !! id = Some r' /\ row_evolves resumable r r';
  ev_steps : operation_outputs d ⊆ operation_outputs d';
  ev_messages : forall m r, notifications d !! m = Some r ->
    exists r', notifications d' !! m = Some r' /\ message_evolves r r';
  ev_streams : streams d ⊆ streams d'
}.

#[export] Instance status_evolves_preorder rs : PreOrder (status_evolves rs).
Proof. split; [by left|]. intros [] [] []; unfold status_evolves; naive_solver. Qed.

#[export] Instance row_evolves_preorder rs : PreOrder (row_evolves rs).
Proof.
  split.
  - intros r. by split.
  - intros r1 r2 r3 [I1 S1 P1 A1] [I2 S2 P2 A2]. split.
    + by rewrite I2.
    + by trans (ws_status r2).
    + intros Hn. destruct (P1 Hn) as [<- <-]. apply P2.
      destruct S1 as [<-|S1]; [done|]. by destruct (ws_status r1), (ws_status r2); naive_solver.
    + intros Hr. specialize (A1 Hr). specialize (A2 Hr). lia.
Qed.

#[export] Instance message_evolves_preorder : PreOrder message_evolves.
Proof. split; [by left|]. intros r1 r2 r3 [->| ->] [->| ->]; by (left + right). Qed.

#[export] Instance evolves_preorder rs : PreOrder (evolves rs).
Proof.
  split.
  - intros d. split; eauto; intros; eexists; by split.
  - intros d1 d2 d3 [R1 O1 M1 S1] [R2 O2 M2 S2]. split; [|by etrans| |by etrans].
    + intros id r (r2 & (r3 & Hr3 & H2)%R2 & H1)%R1. exists r3. split; [done|by etrans].
    + intros m r (r2 & (r3 & Hr3 & H2)%M2 & H1)%M1. exists r3. split; [done|by etrans].
Qed.

(** What the proofs carry through a computation *)
Definition since (resumable : bool) (d0 d : sysdb) : Prop := db_ok d /\ evolves resumable d0 d.

Notation keeps_all rs m := (forall d0, preserves (since rs d0) m).

Lemma keeps_intro {A} rs (m : DB A) :
  preserves db_ok m -> (forall d, db_ok d -> evolves rs d (m d).2) -> keeps_all rs m.
Proof. intros Hok Hev d0 d [Hd He]. split; [by apply Hok|]. etrans; [exact He | by apply Hev]. Qed.

(** The tables of [evolves] *)
Definition core (d : sysdb) := (workflow_status d, operation_outputs d, notifications d, streams d).

Lemma evolves_core rs d d' : core d = core d' -> evolves rs d d'.
Proof.
  intros H. injection H as H1 H2 H3 H4. split; [|by rewrite H2| |by rewrite H4].
  - intros id r Hr. exists r. by rewrite <- H1.
  - intros m r Hr. exists r. by rewrite <- H3.
Qed.

Lemma keeps_core {A} rs (m : DB A) :
  preserves db_ok m -> (forall d, core d = core (m d).2) -> keeps_all rs m.
Proof. intros Hok H. apply keeps_intro; [done|]. intros d _. by apply evolves_core. Qed.

(** * Statements *)

Section statements.
Context (rs : bool).

Lemma evolves_wf d (t : gmap string wf_row) :
  (forall id r, workflow_status d !! id = Some r -> exists r', t !! id = Some r' /\ row_evolves rs r r') ->
  evolves rs d (d <| workflow_status := t |>).
Proof. intros H. split; [exact H|done| |done]. intros m r Hm. by exists r. Qed.

Lemma keeps_update p f :
  (forall id r, p id r = true -> row_evolves rs r (f r)) ->
  keeps_all rs (update_workflow_status p f).
Proof.
  intros Hf. apply keeps_intro; [apply preserves_update_workflow_status|]. intros d Hd.
  unfold update_workflow_status. destruct (dedup_uniqueb _); [|done].
  apply evolves_wf. intros id r Hr. rewrite lookup_update_where, Hr. simpl.
  eexists. split; [done|]. destruct (p id r) eqn:E; [by eapply Hf | done].
Qed.

Lemma keeps_insert id r : keeps_all rs (insert_workflow_status id r).
Proof.
  apply keeps_intro; [apply preserves_insert_workflow_status|]. intros d Hd.
  unfold insert_workflow_status. destruct (workflow_status d !! id) eqn:E; [done|].
  destruct (dedup_uniqueb _); [|done]. apply evolves_wf. intros k x Hk.
  exists x. split; [|done]. by rewrite lookup_insert_ne by congruence.
Qed.

Lemma keeps_upsert_operation_output id fid r : keeps_all rs (upsert_operation_output id fid r).
Proof.
  apply keeps_intro; [apply preserves_upsert_operation_output|]. intros d Hd.
  unfold upsert_operation_output, bind, require_workflow.
  destruct (operation_outputs d !! _) eqn:E; [done|].
  destruct (workflow_status d !! id); [|done]. split; [intros; eexists; by split| |..|done].
  - by apply insert_subseteq.
  - intros m x Hm. by exists x.
Qed.

Lemma keeps_insert_notification now uuid dest topic msg ser :
  keeps_all rs (insert_notification now uuid dest topic msg ser).
Proof.
  apply keeps_intro; [apply preserves_insert_notification|]. intros d Hd.
  unfold insert_notification, bind, require_workflow.
  destruct (notifications d !! _) eqn:E; [done|].
  destruct (workflow_status d !! dest); [|done]. split; [intros; eexists; by split|done|..|done].
  intros m x Hm. exists x. split; [|done]. simpl. by rewrite lookup_insert_ne by congruence.
Qed.

Lemma keeps_consume_oldest id topic : keeps_all rs (consume_oldest id topic).
Proof.
  apply keeps_intro; [apply preserves_consume_oldest|]. intros d Hd. unfold consume_oldest.
  destruct (pending_messages id topic d) as [|[uuid r] l] eqn:E; [done|].
  assert ((uuid, r) ∈ pending_messages id topic d) as Hin by (rewrite E; set_solver).
  apply elem_of_order_by, elem_of_select_where in Hin as [Hin _].
  split; [intros; eexists; by split|done|..|done].
  intros m x Hm. simpl. destruct (decide (m = uuid)) as [->|Hne].
  - simplify_eq. rewrite lookup_insert_eq. eexists. split; [done|by right].
  - rewrite lookup_insert_ne by done. exists x. by split; [|left].
Qed.

Lemma keeps_upsert_event id fid key v : keeps_all rs (upsert_event id fid key v).
Proof.
  apply keeps_core; [apply preserves_upsert_event|]. intros d.
  unfold upsert_event, bind, require_workflow. by destruct (workflow_status d !! id).
Qed.

Lemma keeps_checkIfCanceled id : keeps_all rs (checkIfCanceled id).
Proof. intros d0 d H. by rewrite checkIfCanceled_run. Qed.

Lemma keeps_getOperationResult id fid :
  keeps_all rs (getOperationResultAndThrowIfCancelled id fid).
Proof. intros d0 d H. by rewrite getOperationResult_run. Qed.

Lemma keeps_getWorkflowStatusValue id : keeps_all rs (getWorkflowStatusValue id).
Proof. by intros d0 d. Qed.

(** ** Rows of the child tables *)

Lemma insert_all_lookup {K A} `{Countable K} (rows : list (K * A)) t t' :
  insert_all rows t = Some t' ->
  t ⊆ t' /\ forall k r, t' !! k = Some r -> (k, r) ∈ rows \/ t !! k = Some r.
Proof.
  revert t. induction rows as [|[k0 r0] rows IH]; intros t Hi; simpl in Hi.
  - simplify_eq. split; [done|by right].
  - destruct (t !! k0) eqn:E; [done|]. destruct (IH _ Hi) as [Hs Hl]. split.
    + etrans; [|exact Hs]. by apply insert_subseteq.
    + intros k r [Hk|Hk]%Hl; [left; by right|].
      destruct (decide (k = k0)) as [->|]; simplify_map_eq; [left; by left|by right].
Qed.

Lemma insert_rows_cases {K A} `{Countable K} (tbl : sysdb -> gmap K A) `{!ChildTable tbl} rows d :
  (insert_rows tbl rows d).2 = d
  \/ exists t, (insert_rows tbl rows d).2 = put_table t d /\ tbl d ⊆ t
     /\ forall k r, t !! k = Some r -> wf_exists d (owner k) \/ tbl d !! k = Some r.
Proof.
  unfold insert_rows. destruct (insert_all rows (tbl d)) as [t|] eqn:E; [|by left].
  destruct (forallb _ rows) eqn:F; [|by left]. right. exists t. split; [done|].
  destruct (insert_all_lookup _ _ _ E) as [Hs Hl]. split; [done|].
  intros k r [Hk|Hk]%Hl; [left|by right]. rewrite forallb_forall in F.
  specialize (F (k, r)). rewrite <- list_elem_of_In in F. specialize (F Hk). by case_bool_decide.
Qed.

Ltac child_table tbl rows d :=
  destruct (insert_rows_cases tbl rows d) as [-> |(t & -> & Hs & Hl)]; [done|].

Lemma keeps_insert_operations rows : keeps_all rs (insert_rows operation_outputs rows).
Proof.
  intros d0 d [Hd He]. child_table operation_outputs rows d. split.
  - destruct Hd. split; simpl; try done. intros id fid r [?|?]%Hl; [done|eauto].
  - etrans; [exact He|]. split; try done; intros; eexists; by split.
Qed.

Lemma keeps_insert_events rows : keeps_all rs (insert_rows workflow_events rows).
Proof.
  intros d0 d [Hd He]. child_table workflow_events rows d. split.
  - destruct Hd. split; simpl; try done. intros id key r [?|?]%Hl; [done|eauto].
  - etrans; [exact He|]. by apply evolves_core.
Qed.

Lemma keeps_insert_history rows : keeps_all rs (insert_rows workflow_events_history rows).
Proof.
  intros d0 d [Hd He]. child_table workflow_events_history rows d. split.
  - destruct Hd. split; simpl; try done. intros id fid key r [?|?]%Hl; [done|eauto].
  - etrans; [exact He|]. by apply evolves_core.
Qed.

Lemma keeps_insert_streams rows : keeps_all rs (insert_rows streams rows).
Proof.
  intros d0 d [Hd He]. child_table streams rows d. split.
  - destruct Hd. split; simpl; try done. intros id key off r [?|?]%Hl; [done|eauto].
  - etrans; [exact He|]. split; try done; intros; eexists; by split.
Qed.

Lemma keeps_append_stream id key fid v ser : keeps_all rs (append_stream id key fid v ser).
Proof. intros d0 d. apply keeps_insert_streams. Qed.

End statements.

#[export] Hint Resolve keeps_insert keeps_upsert_operation_output keeps_insert_notification
  keeps_consume_oldest keeps_upsert_event keeps_checkIfCanceled keeps_getOperationResult
  keeps_getWorkflowStatusValue keeps_insert_operations keeps_insert_events keeps_insert_history
  keeps_insert_streams keeps_append_stream : preserves.

(** * Operations *)

(** An update that keeps the identity of a row, and its inputs unless it is delayed *)
Ltac row_update :=
  let id := fresh "id" in let r := fresh "r" in let H := fresh "H" in
  intros id r H; break_bool; split; simpl;
  [ done | unfold status_evolves; destruct (ws_status r); naive_solver
  | first [done | intros; congruence] | intros; first [lia | congruence] ].

Section operations.
Context (rs : bool).

Lemma keeps_claim_executor x id : keeps_all rs (claim_executor x id).
Proof.
  intros d0. unfold claim_executor. apply preserves_bind; [|auto with preserves].
  apply keeps_update. row_update.
Qed.

Lemma keeps_record x id fid fn chk st en o :
  keeps_all rs (recordOperationResultInternal x id fid fn chk st en o).
Proof.
  pose proof keeps_claim_executor as Hc. intros d0. unfold recordOperationResultInternal.
  apply preserves_try_catch.
  - apply preserves_bind; [auto with preserves|]. intros out.
    destruct (_ && _); auto with preserves.
  - intros e. destruct (is_conflict_code e); auto with preserves.
Qed.

Hint Resolve keeps_record : preserves.

Lemma keeps_runAndRecordResult x fn id fid func st en :
  keeps_all rs func -> keeps_all rs (runAndRecordResult x fn id fid func st en).
Proof.
  intros Hf d0. unfold runAndRecordResult. apply preserves_bind; [auto with preserves|].
  intros [r|]; [destruct (negb _)|]; auto with preserves.
Qed.

Lemma keeps_runTransactionalStep x id fid fn cb st en :
  keeps_all rs cb -> keeps_all rs (runTransactionalStep x id fid fn cb st en).
Proof.
  intros Hf d0. unfold runTransactionalStep. apply preserves_transaction, preserves_bind;
    [auto with preserves|]. intros [r|]; auto with preserves.
Qed.

Lemma keeps_checkPatch dn id fid p dep : keeps_all rs (checkPatch dn id fid p dep).
Proof.
  intros d0 d Hd. unfold checkPatch. destruct (operation_outputs d !! _); [by repeat case_match|].
  destruct dep; [done|].
  apply (preserves_bind (since rs d0) (upsert_operation_output id fid _)); auto with preserves.
Qed.

Lemma keeps_durableSleep x id fid dur now st en :
  keeps_all rs (durableSleep x id fid dur now st en).
Proof.
  intros d0. unfold durableSleep. apply preserves_bind; [auto with preserves|].
  intros [r|]; [destruct (negb _); [|destruct (parse_Z _)]|]; auto with preserves.
Qed.

Lemma keeps_translate_missing {A} dest (m : DB A) :
  keeps_all rs m -> keeps_all rs (translate_missing dest m).
Proof.
  intros Hm d0. apply preserves_try_catch; [done|]. intros e.
  destruct (is_foreign_key_error e); apply preserves_throw.
Qed.

Hint Resolve keeps_runAndRecordResult keeps_translate_missing : preserves.

Lemma keeps_send x u now id fid dest msg topic ser idem st en :
  keeps_all rs (send x u now id fid dest msg topic ser idem st en).
Proof.
  intros d0. apply keeps_translate_missing. intros d1. apply preserves_transaction, preserves_bind;
    [|auto with preserves]. apply keeps_runAndRecordResult. auto with preserves.
Qed.

Lemma keeps_sendDirect u now dest msg topic ser idem :
  keeps_all rs (sendDirect u now dest msg topic ser idem).
Proof. apply keeps_translate_missing. auto with preserves. Qed.

Lemma keeps_recv_consume x id fid topic st en : keeps_all rs (recv_consume x id fid topic st en).
Proof.
  intros d0. unfold recv_consume. apply preserves_transaction, preserves_bind; [auto with preserves|].
  intros row. auto with preserves.
Qed.

Lemma keeps_write_step x fn id fid m st en :
  keeps_all rs m -> keeps_all rs (write_step x fn id fid m st en).
Proof.
  intros Hm d0. unfold write_step. apply preserves_transaction, preserves_bind; [auto with preserves|].
  intros res. apply preserves_bind; [|auto with preserves].
  apply keeps_runAndRecordResult. auto with preserves.
Qed.

Lemma keeps_setEvent x id fid key msg ser st en : keeps_all rs (setEvent x id fid key msg ser st en).
Proof. apply keeps_write_step. auto with preserves. Qed.

Lemma keeps_writeStreamFromStep id fid key v ser :
  keeps_all rs (writeStreamFromStep id fid key v ser).
Proof. intros d0. unfold writeStreamFromStep. auto with preserves. Qed.

Lemma keeps_writeStreamFromWorkflow x id fid key v ser fn st en :
  keeps_all rs (writeStreamFromWorkflow x id fid key v ser fn st en).
Proof. apply keeps_write_step. auto with preserves. Qed.

(** ** Statuses *)

Lemma keeps_insertWorkflowStatus now s xid inc : keeps_all rs (insertWorkflowStatus now s xid inc).
Proof.
  apply keeps_intro; [apply preserves_insertWorkflowStatus|]. intros d Hd.
  unfold insertWorkflowStatus. destruct (workflow_status d !! _) as [old|] eqn:E.
  - apply evolves_wf. intros id r Hr. destruct (decide (id = i_workflowUUID s)) as [->|].
    + simplify_eq. rewrite lookup_insert_eq. eexists. split; [done|]. split; simpl; [done|by left|done|].
      intros _. destruct inc, (negb _); lia.
    + rewrite lookup_insert_ne by done. by exists r.
  - pose proof (keeps_insert rs (i_workflowUUID s) (status_to_row now s xid) d d) as H.
    destruct (insert_workflow_status _ _ d) as [[]]; simpl in *; by apply H.
Qed.

Lemma keeps_dead_letter nowMs id :
  keeps_all rs (updateWorkflowStatus nowMs id MAX_RECOVERY_ATTEMPTS_EXCEEDED
    (no_update <| u_resetDeduplicationID := true |>) (UpdateWhereOf (Some PENDING) None) false).
Proof.
  intros d0. unfold updateWorkflowStatus. apply preserves_bind; [|simpl; auto with preserves].
  apply keeps_update. unfold update_matches. simpl. row_update.
Qed.

Lemma keeps_initWorkflowStatus now nowMs s xid rec deq mx :
  keeps_all rs (initWorkflowStatus now nowMs s xid rec deq mx).
Proof.
  intros d0 d Hd. unfold initWorkflowStatus.
  pose proof (keeps_insertWorkflowStatus now s xid (rec || deq) d0 d Hd) as Hi.
  destruct (insertWorkflowStatus _ _ _ _ d) as [[[rr s']|e] d1]; [|done]. simpl in Hi.
  pose proof (keeps_dead_letter nowMs (i_workflowUUID s') d0 d1 Hi) as Hp.
  repeat (case_match; try done).
Qed.

Lemma keeps_recordWorkflowOutcome nowMs id st output error :
  st = SUCCESS \/ st = ERROR -> keeps_all rs (recordWorkflowOutcome nowMs id st output error).
Proof.
  intros Hst d0. unfold recordWorkflowOutcome. apply preserves_bind.
  - apply preserves_transaction, preserves_bind; [|auto with preserves].
    intros d. unfold updateWorkflowStatus. apply preserves_bind; [|simpl; auto with preserves].
    apply keeps_update. intros k r H. unfold update_matches in H. simpl in H. break_bool.
    unfold update_set. simpl. destruct (truthy_str output), (truthy_str error); split; simpl;
      try done; intros; try lia; unfold status_evolves; destruct (ws_status r); naive_solver.
  - intros []; auto with preserves.
Qed.

Lemma keeps_insert_do_nothing id r : keeps_all rs (insert_do_nothing id r).
Proof.
  intros d0 d Hd. unfold insert_do_nothing. destruct (workflow_status d !! id); [done|].
  apply (preserves_bind (since rs d0) (insert_workflow_status id r)); auto with preserves.
Qed.

Lemma keeps_insert_chunk rows : keeps_all rs (insert_chunk rows).
Proof.
  intros d0. induction rows as [|[id r] rows IH]; simpl; [auto with preserves|].
  apply preserves_bind; [apply keeps_insert_do_nothing|]. intros a.
  apply preserves_bind; [done|auto with preserves].
Qed.

Lemma keeps_insert_chunks fuel n rows : keeps_all rs (insert_chunks fuel n rows).
Proof.
  intros d0. revert rows. induction fuel as [|fuel IH]; intros [|x rows]; simpl; auto with preserves.
  apply preserves_bind; [apply keeps_insert_chunk|]. intros a.
  apply preserves_bind; [done|auto with preserves].
Qed.

Lemma keeps_reenqueue now x v q : keeps_all rs (reenqueueWorkflowsForRecovery now x v q).
Proof. apply keeps_update. unfold pending_on. row_update. Qed.

Lemma keeps_cancelWorkflows clock ids b : keeps_all rs (cancelWorkflows clock ids b).
Proof.
  assert (forall now ids, keeps_all rs (cancelStatement now ids)) as Hc.
  { intros now l d0. unfold cancelStatement. apply preserves_bind; [|auto with preserves].
    apply keeps_update. unfold not_finished. row_update. }
  intros d0. unfold cancelWorkflows. destruct (negb b); [apply Hc|].
  generalize (remove_dups ids). revert ids.
  induction clock as [|now clock IH]; intros ids V; [apply preserves_ret|].
  destruct ids as [|y ids]; [apply preserves_ret|]. cbn [cancel_levels].
  apply preserves_bind; [apply Hc|]. intros _.
  apply preserves_bind; [apply preserves_get|]. intros d. apply IH.
Qed.

Lemma keeps_resumeWorkflows now ids q : rs = true -> keeps_all rs (resumeWorkflows now ids q).
Proof.
  intros -> d0. unfold resumeWorkflows. apply preserves_bind; [|auto with preserves].
  apply keeps_update. unfold not_finished. row_update.
Qed.

Lemma keeps_setWorkflowPriority now id p : keeps_all rs (setWorkflowPriority now id p).
Proof.
  intros d0. unfold setWorkflowPriority. apply preserves_bind; [|auto with preserves].
  apply keeps_update. row_update.
Qed.

Lemma keeps_setWorkflowDelay now id t : keeps_all rs (setWorkflowDelay now id t).
Proof.
  intros d0. unfold setWorkflowDelay. apply preserves_bind; [|auto with preserves].
  apply keeps_update. row_update.
Qed.

Lemma keeps_debounceDelayedWorkflow now p : keeps_all rs (debounceDelayedWorkflow now p).
Proof.
  intros d0. unfold debounceDelayedWorkflow. apply preserves_bind.
  - apply keeps_update. unfold bounceable. row_update.
  - intros [|id l]; [|auto with preserves]. apply preserves_bind; [auto with preserves|].
    intros d. destruct (select_where _ _) as [|[]]; auto with preserves.
Qed.

Lemma keeps_transitionDelayedWorkflows now : keeps_all rs (transitionDelayedWorkflows now).
Proof.
  intros d0. unfold transitionDelayedWorkflows. apply preserves_bind; [|auto with preserves].
  apply keeps_update. unfold delay_expired. row_update.
Qed.

Lemma keeps_claim_loop x v st now b budget ids :
  keeps_all rs (claim_loop (started x v st now b) budget ids).
Proof.
  intros d0. revert budget. induction ids as [|id ids IH]; intros budget; [apply preserves_ret|].
  cbn [claim_loop]. destruct (match budget with Some b => _ | None => _ end); [apply preserves_ret|].
  apply preserves_bind; [apply keeps_update; row_update|]. intros [|]; [apply IH|].
  apply preserves_bind; [apply IH|auto with preserves].
Qed.

Lemma keeps_findAndMark q x v part lr st now locked :
  keeps_all rs (findAndMarkStartableWorkflows q x v part lr st now locked).
Proof.
  intros d0. unfold findAndMarkStartableWorkflows. apply preserves_transaction. intros d Hd.
  unfold claim_selection.
  repeat match goal with |- context [if ?b then (Ok [], d) else _] => destruct b; [done|] end.
  destruct (lock_rows _ _ _ _); [done|]. by apply keeps_claim_loop.
Qed.

(** ** Copies *)

Lemma keeps_insert_forks now o pairs t : keeps_all rs (insert_forks now o pairs t).
Proof.
  intros d0. induction pairs as [|[a b] pairs IH]; [apply preserves_ret|]. cbn [insert_forks].
  destruct (t !! a); [|apply preserves_throw].
  apply preserves_bind; [auto with preserves|done].
Qed.

Lemma keeps_check_originals ids t : keeps_all rs (check_originals ids t).
Proof.
  intros d0. induction ids as [|a ids IH]; [apply preserves_ret|]. cbn [check_originals].
  destruct (t !! a); [done|apply preserves_throw].
Qed.

Lemma keeps_copy_checkpoints reps d ms : keeps_all rs (copy_checkpoints reps d ms).
Proof. intros d0. unfold copy_checkpoints. auto 10 with preserves. Qed.

Hint Resolve keeps_insert_forks keeps_check_originals keeps_copy_checkpoints : preserves.

Lemma keeps_bulkFork now origs forks starts o :
  keeps_all rs (bulkForkWorkflows now origs forks starts o).
Proof.
  intros d0. unfold bulkForkWorkflows. destruct origs as [|x origs]; [apply preserves_ret|].
  destruct (_ || _); [apply preserves_throw|]. apply preserves_transaction.
  apply preserves_bind; [apply preserves_get|]. intros d.
  apply preserves_bind; [auto with preserves|]. intros _.
  apply preserves_bind; [auto with preserves|]. intros _.
  apply preserves_bind; [apply keeps_update; row_update|]. intros _.
  destruct (List.filter _ _); auto with preserves.
Qed.

Lemma keeps_forkWorkflow now id start new o : keeps_all rs (forkWorkflow now id start new o).
Proof.
  intros d0. unfold forkWorkflow. apply preserves_bind; [apply keeps_bulkFork|auto with preserves].
Qed.

Lemma keeps_forkFromFailure now ids forks modes o :
  keeps_all rs (forkFromFailure now ids forks modes o).
Proof.
  intros d0 d Hd. unfold forkFromFailure. destruct (negb _); [done|].
  destruct (start_steps modes ids d); [done|]. by apply keeps_bulkFork.
Qed.

Lemma keeps_importWorkflow xs : keeps_all rs (importWorkflow xs).
Proof.
  intros d0. apply preserves_transaction, preserves_for_each. intros x _. unfold import_one.
  repeat (apply preserves_bind; [|intros _]);
    first [apply keeps_insert | apply preserves_for_each; auto with preserves].
Qed.

End operations.

(** ** Operations on the other tables *)

(** Everything that belongs to a workflow *)
Definition workflows_part (d : sysdb) := (core d, workflow_events d, workflow_events_history d).

Lemma keeps_outside {A} rs (m : DB A) :
  (forall d, workflows_part (m d).2 = workflows_part d) -> keeps_all rs m.
Proof.
  intros H. assert (forall d, core (m d).2 = core d) as Hc
    by (intros d; exact (f_equal (fun x => x.1.1) (H d))).
  apply keeps_core; [|by intros d]. intros d [Hu Ho Hn He Hh Hs]. specialize (H d).
  injection H as H1 H2 H3 H4 H5 H6. unfold wf_exists in *.
  split; unfold wf_exists; rewrite ?H1, ?H2, ?H3, ?H4, ?H5, ?H6; eauto.
Qed.

(** * Sequences of operations *)

(** The operations of the engine and of its users.  [resumeWorkflows] is one of them when
    [rs] says so; deleting is a [purge] below. *)
Inductive operation (rs : bool) : forall {A}, DB A -> Prop :=
| op_initWorkflowStatus now nowMs s xid rec deq mx :
    operation rs (initWorkflowStatus now nowMs s xid rec deq mx)
| op_enqueueWorkflows now statuses cursors :
    operation rs (fun d => let '(o, _, d') := enqueueWorkflows now statuses cursors d in (o, d'))
| op_recordWorkflowOutput now id s : operation rs (recordWorkflowOutput now id s)
| op_recordWorkflowError now id s : operation rs (recordWorkflowError now id s)
| op_reenqueueWorkflowsForRecovery now x v q :
    operation rs (reenqueueWorkflowsForRecovery now x v q)
| op_cancelWorkflows clock ids b : operation rs (cancelWorkflows clock ids b)
| op_resumeWorkflows now ids q : rs = true -> operation rs (resumeWorkflows now ids q)
| op_setWorkflowPriority now id p : operation rs (setWorkflowPriority now id p)
| op_setWorkflowDelay now id t : operation rs (setWorkflowDelay now id t)
| op_debounceDelayedWorkflow now p : operation rs (debounceDelayedWorkflow now p)
| op_transitionDelayedWorkflows now : operation rs (transitionDelayedWorkflows now)
| op_findAndMark q x v part lr st now locked :
    operation rs (findAndMarkStartableWorkflows q x v part lr st now locked)
| op_bulkForkWorkflows now origs forks starts o :
    operation rs (bulkForkWorkflows now origs forks starts o)
| op_forkWorkflow now id start new o : operation rs (forkWorkflow now id start new o)
| op_forkFromFailure now ids forks modes o : operation rs (forkFromFailure now ids forks modes o)
| op_importWorkflow xs : operation rs (importWorkflow xs)
| op_recordOperationResult x id fid fn chk st en o :
    operation rs (recordOperationResult x id fid fn chk st en o)
| op_runTransactionalStep x id fid fn (cb : DB (option string)) st en :
    operation rs cb -> operation rs (runTransactionalStep x id fid fn cb st en)
| op_checkPatch dn id fid p dep : operation rs (checkPatch dn id fid p dep)
| op_durableSleep x id fid dur now st en : operation rs (durableSleep x id fid dur now st en)
| op_send x u now id fid dest msg topic ser idem st en :
    operation rs (send x u now id fid dest msg topic ser idem st en)
| op_sendDirect u now dest msg topic ser idem :
    operation rs (sendDirect u now dest msg topic ser idem)
| op_recv_consume x id fid topic st en : operation rs (recv_consume x id fid topic st en)
| op_setEvent x id fid key msg ser st en : operation rs (setEvent x id fid key msg ser st en)
| op_writeStreamFromStep id fid key v ser : operation rs (writeStreamFromStep id fid key v ser)
| op_writeStreamFromWorkflow x id fid key v ser fn st en :
    operation rs (writeStreamFromWorkflow x id fid key v ser fn st en)
| op_closeStream x id fid key st en : operation rs (closeStream x id fid key st en)
| op_upsertEventDispatchState service fn key s :
    operation rs (upsertEventDispatchState service fn key s)
| op_upsertQueue now r b : operation rs (upsertQueue now r b)
| op_updateQueue now name f : operation rs (updateQueue now name f)
| op_deleteQueue name : operation rs (deleteQueue name)
| op_createSchedule s : operation rs (createSchedule s)
| op_deleteSchedule name : operation rs (deleteSchedule name)
| op_setScheduleStatus name status : operation rs (setScheduleStatus name status)
| op_updateSchedule name u : operation rs (updateSchedule name u)
| op_updateLastFiredAt name t : operation rs (updateLastFiredAt name t)
| op_applySchedules ss : operation rs (applySchedules ss)
| op_createApplicationVersion u name now : operation rs (createApplicationVersion u name now)
| op_updateApplicationVersionTimestamp name t :
    operation rs (updateApplicationVersionTimestamp name t)
| op_read {A} (f : sysdb -> outcome dbos_error A) : operation rs (fun d => (f d, d)).

(** The operations that remove workflows *)
Inductive purge : forall {A}, DB A -> Prop :=
| purge_deleteWorkflows ids b m : purge (deleteWorkflows ids b m)
| purge_garbageCollect c n : purge (garbageCollect c n).

(** One operation of some executor or client; it may end in an exception. *)
Definition step (rs : bool) (d d' : sysdb) : Prop :=
  exists A (m : DB A), operation rs m /\ d' = (m d).2.

Definition any_step (d d' : sysdb) : Prop :=
  step true d d' \/ exists A (m : DB A), purge m /\ d' = (m d).2.

Lemma keeps_apply_all rs ss : keeps_all rs (apply_all ss).
Proof.
  intros d0. induction ss as [|s ss IH]; simpl; [auto with preserves|].
  apply preserves_bind; [|done]. apply keeps_outside. intros d. unfold apply_schedule.
  by repeat case_match.
Qed.

Lemma operation_keeps rs {A} (m : DB A) : operation rs m -> keeps_all rs m.
Proof.
  induction 1; intros d0.
  - apply keeps_initWorkflowStatus.
  - intros d Hd. unfold enqueueWorkflows. destruct statuses as [|s statuses]; [done|].
    destruct (check_batch _); [done|]. destruct (assignBatchCreatedAt _ _ _ _) as [ts cs].
    match goal with |- context [transaction ?m d] =>
      pose proof (preserves_transaction _ m (keeps_insert_chunks rs _ _ _ d0) d Hd) as Hp;
      by destruct (transaction m d) as [? ?] end.
  - apply (keeps_recordWorkflowOutcome rs now id SUCCESS (i_output s) None). by left.
  - apply (keeps_recordWorkflowOutcome rs now id ERROR None (i_error s)). by right.
  - apply keeps_reenqueue.
  - apply keeps_cancelWorkflows.
  - by apply keeps_resumeWorkflows.
  - apply keeps_setWorkflowPriority.
  - apply keeps_setWorkflowDelay.
  - apply keeps_debounceDelayedWorkflow.
  - apply keeps_transitionDelayedWorkflows.
  - apply keeps_findAndMark.
  - apply keeps_bulkFork.
  - apply keeps_forkWorkflow.
  - apply keeps_forkFromFailure.
  - apply keeps_importWorkflow.
  - apply keeps_record.
  - by apply keeps_runTransactionalStep.
  - apply keeps_checkPatch.
  - apply keeps_durableSleep.
  - apply keeps_send.
  - apply keeps_sendDirect.
  - apply keeps_recv_consume.
  - apply keeps_setEvent.
  - apply keeps_writeStreamFromStep.
  - apply keeps_writeStreamFromWorkflow.
  - apply keeps_writeStreamFromWorkflow.
  - apply keeps_outside. done.
  - apply keeps_outside. intros d. unfold upsertQueue. by repeat case_match.
  - apply keeps_outside. intros d. unfold updateQueue. by case_match.
  - apply keeps_outside. done.
  - apply keeps_outside. intros d. unfold createSchedule. by case_match.
  - apply keeps_outside. done.
  - apply keeps_outside. done.
  - apply keeps_outside. intros d. unfold updateSchedule. by case_match.
  - apply keeps_outside. done.
  - apply preserves_transaction, keeps_apply_all.
  - apply keeps_outside. intros d. unfold createApplicationVersion. by case_match.
  - apply keeps_outside. done.
  - by intros d.
Qed.

Lemma step_since rs d d' : step rs d d' -> db_ok d -> since rs d d'.
Proof. intros (A & m & Hm & ->) Hd. by apply (operation_keeps rs m Hm d). Qed.

Lemma steps_since rs d d' : rtc (step rs) d d' -> db_ok d -> since rs d d'.
Proof.
  induction 1 as [d|d d1 d' Hs _ IH]; intros Hd; [done|].
  destruct (step_since _ _ _ Hs Hd) as [Hd1 He1]. destruct (IH Hd1) as [Hd' He']. split; [done|].
  by etrans.
Qed.

(** Whatever operations the executors and clients of a database run, in whatever order
    and with whatever arguments, and whether they return or throw, the database stays well
    formed: no two workflows hold one deduplication ID of one queue, and every step, message,
    event and stream entry belongs to a workflow that exists. *)
Theorem reachable_well_formed (d : sysdb) : rtc any_step empty_db d -> db_ok d.
Proof.
  assert (forall d1 d2, rtc any_step d1 d2 -> db_ok d1 -> db_ok d2) as H.
  { induction 1 as [|d1 d2 d3 [Hs|(A & m & Hm & ->)] _ IH]; [done| |]; intros Hd; apply IH.
    - by eapply step_since.
    - destruct Hm; [by apply preserves_deleteWorkflows | by apply preserves_garbageCollect]. }
  intros Hr. by apply (H _ _ Hr), empty_db_ok.
Qed.

(** C3: As long as nobody deletes it, a workflow evolves only as the state machine of the
    status lets it, whatever operations run: a finished workflow stays finished, a workflow
    that is not delayed is never delayed again, a cancelled one stays so until it is resumed;
    who it is and who started it never changes, nor do its inputs once it is not delayed any
    more; without a resume its recovery attempts only grow.  Recorded steps and stream entries
    are never changed or lost, and a message keeps its content and is consumed at most once. *)
Theorem lifecycle (rs : bool) (d d' : sysdb) :
  db_ok d -> rtc (step rs) d d' -> evolves rs d d'.
Proof. intros Hd Hs. by apply (steps_since rs d d' Hs Hd). Qed.

(** Two readings of it *)
Lemma finished_for_good rs d d' id r :
  db_ok d -> rtc (step rs) d d' -> workflow_status d !! id = Some r -> not_finished r = false ->
  exists r', workflow_status d' !! id = Some r' /\ not_finished r' = false.
Proof.
  intros Hd Hs Hr Hf. destruct (steps_since rs d d' Hs Hd) as [_ [Hrow _ _ _]].
  destruct (Hrow id r Hr) as (r' & Hr' & [_ Hst _ _]). exists r'. split; [done|].
  unfold not_finished, status_evolves in *. destruct (ws_status r), (ws_status r'); naive_solver.
Qed.

Lemma cancelled_until_resumed d d' id r :
  db_ok d -> rtc (step false) d d' -> workflow_status d !! id = Some r -> ws_status r = CANCELLED ->
  exists r', workflow_status d' !! id = Some r' /\ ws_status r' = CANCELLED.
Proof.
  intros Hd Hs Hr Hf. destruct (steps_since false d d' Hs Hd) as [_ [Hrow _ _ _]].
  destruct (Hrow id r Hr) as (r' & Hr' & [_ Hst _ _]). exists r'. split; [done|].
  rewrite Hf in Hst. destruct Hst as [<-|[? ?]]; done.
Qed.

(** * Witnesses *)

(** A workflow is cancelled by one client and then its executor records its output. *)
Definition ex_life : sysdb := (cancelWorkflows [2000] ["wf-1"] false ex_db).2.
Definition ex_life' : sysdb := (recordWorkflowOutput 3000 "wf-1" ex_status ex_life).2.

Lemma ex_steps : rtc (step false) ex_db ex_life'.
Proof.
  eapply rtc_l; [by eexists _, _; split; [apply op_cancelWorkflows|]|].
  apply rtc_once. eexists _, _. split; [apply op_recordWorkflowOutput|reflexivity].
Defined.

Lemma lifecycle_witness :
  exists r r', workflow_status ex_db !! "wf-1" = Some r /\ workflow_status ex_life' !! "wf-1" = Some r'
    /\ row_evolves false r r' /\ ws_status r' = CANCELLED.
Proof.
  destruct (lifecycle false ex_db ex_life' ex_db_ok ex_steps) as [H _ _ _].
  destruct (H "wf-1" ex_row) as (r' & Hr' & He); [reflexivity|].
  exists ex_row, r'. split; [reflexivity|]. split; [exact Hr'|]. split; [exact He|].
  vm_compute in Hr'. injection Hr' as <-. reflexivity.
Defined.

Lemma reachable_well_formed_witness :
  exists d, db_ok d /\ workflow_status d !! "wf-1" = Some ex_row.
Proof.
  exists (initWorkflowStatus 1000 1000 ex_status (Some "xid-1") false false None empty_db).2.
  split; [|vm_compute; reflexivity].
  apply reachable_well_formed, rtc_once. left.
  eexists _, _. split; [apply op_initWorkflowStatus|reflexivity].
Defined.
