(* ===== verification/Await.v ===== *)
(** Waiting for other workflows: [awaitWorkflowResult], [awaitFirstWorkflowId] and
    [awaitWorkflowIds] (src/src/system_database.ts), and [DBOS.getResult], [DBOS.waitFirst] and
    [DBOS.waitAll] (src/src/dbos.ts), which checkpoint what they returned.

    The three methods poll: they look at the database, and between two looks they sleep while
    others work on it.  As in Messaging.v a run is given the pauses it makes; [None] is a run
    that still waits after the last of them. *)

From S2P Require Export StepExecution Lifecycle.

(** * Data *)

Definition no_result : SystemDatabaseStoredResult := StoredResult None None false false None None None.

#[export] Instance SystemDatabaseStoredResult_eta : Eta SystemDatabaseStoredResult := fun r =>
  StoredResult (sr_output r) (sr_error r) (sr_cancelled r) (sr_maxRecoveryAttemptsExceeded r)
    (sr_childWorkflowID r) (sr_functionName r) (sr_serialization r).

(** * Polling *)

Section poll.
Context {T A : Type} (caller : option string) (look : T -> sysdb -> A + T) (expired : Z -> option A).

(** [if (callerID) await this.#checkIfCanceledLimited(callerID)] *)
Definition check_caller : DB unit :=
  match truthy_str caller with Some c => checkIfCanceled c | None => ret tt end.

(** The loop: check the caller, look, give up when the time is over, sleep. *)
Fixpoint poll (pauses : list pause) (t : T) : DB (option A) :=
  check_caller ;*
  let* d := get in
  match look t d with
  | inl a => ret (Some a)
  | inr t' =>
      match pauses with
      | [] => ret None
      | p :: pauses' =>
          match expired (pause_clock p) with
          | Some a => ret (Some a)
          | None => (fun d => (Ok tt, pause_world p d)) ;* poll pauses' t'
          end
      end
  end.
End poll.

(** * Operations *)

(** What the row of a workflow says of its result; [None] is a status that is not actionable,
    or no row. *)
Definition awaited_result (workflowID : string) (d : sysdb) : option SystemDatabaseStoredResult :=
  r ← workflow_status d !! workflowID;
  match ws_status r with
  | SUCCESS => Some (no_result <| sr_output := ws_output r |>
                               <| sr_serialization := ws_serialization r |>)
  | ERROR => Some (no_result <| sr_error := ws_error r |>
                             <| sr_serialization := ws_serialization r |>)
  | CANCELLED => Some (no_result <| sr_cancelled := true |>)
  | MAX_RECOVERY_ATTEMPTS_EXCEEDED => Some (no_result <| sr_maxRecoveryAttemptsExceeded := true |>)
  | _ => None
  end.

(** The loop of [awaitWorkflowResult] *)
Definition await_loop (callerID : option string) (finishTime : option Z) (workflowID : string)
    (pauses : list pause) : DB (option (option SystemDatabaseStoredResult)) :=
  poll callerID
    (fun _ d => match awaited_result workflowID d with Some r => inl (Some r) | None => inr tt end)
    (fun ct => if time_is_up finishTime ct then Some None else None)
    pauses tt.

(** The deadline of a wait: a workflow that has reserved a timer records it, durably;
    [timeoutms] is [timeoutSeconds * 1000]. *)
Definition await_deadline (executorID : string) (timeoutms : option Z) (callerID : option string)
    (timerFuncID : option Z) (now : Z) : DB (option Z) :=
  match timerFuncID, callerID, timeoutms with
  | Some fid, Some c, Some ms =>
      let* t := durableSleep executorID c fid ms now now now in ret (Some t)
  | _, _, _ => ret ((fun ms => now + ms) <$> timeoutms)
  end.

(** [awaitWorkflowResult].  The inner [None] is [undefined]: the time was up. *)
Definition awaitWorkflowResult (executorID workflowID : string) (timeoutms : option Z)
    (callerID : option string) (timerFuncID : option Z) (pauses : list pause) (now : Z)
    : DB (option (option SystemDatabaseStoredResult)) :=
  let* finishTime := await_deadline executorID timeoutms callerID timerFuncID now in
  await_loop callerID finishTime workflowID pauses.

(** [status NOT IN ('PENDING', 'ENQUEUED', 'DELAYED')] for the rows of [ids] *)
Definition settled_rows (ids : list string) (d : sysdb) : list string :=
  map fst (select_where (fun id r => mem id ids && negb (isWorkflowActive (ws_status r)))
             (workflow_status d)).

(** [awaitFirstWorkflowId]: one of the rows, in an order the query leaves open. *)
Definition awaitFirstWorkflowId (workflowIds : list string) (callerID : option string)
    (pauses : list pause) : DB (option string) :=
  match workflowIds with
  | [] => check_caller callerID ;* throw (DatabaseError "42601")
  | _ => poll callerID
           (fun _ d => match limit (Some 1) (settled_rows workflowIds d) with
                       | id :: _ => inl id
                       | [] => inr tt
                       end)
           (fun _ => None) pauses tt
  end.

(** One look of [awaitWorkflowIds], which drops the settled workflows from the set of the
    remaining ones *)
Definition look_remaining (remaining : list string) (d : sysdb) : unit + list string :=
  match List.filter (fun id => negb (mem id (settled_rows remaining d))) remaining with
  | [] => inl tt
  | remaining' => inr remaining'
  end.

(** [awaitWorkflowIds] *)
Definition awaitWorkflowIds (workflowIds : list string) (callerID : option string)
    (pauses : list pause) : DB (option unit) :=
  match remove_dups workflowIds with
  | [] => ret (Some tt)
  | remaining => poll callerID look_remaining (fun _ => None) pauses remaining
  end.

(** * The operations of dbos.ts *)

(** The IDs [getResult] takes from the context: the timer's, then the step's. *)
Definition getResult_ids (timeoutms : option Z) : CM (option Z * step_mode) := fun c =>
  (let* timer := if isWithinWorkflowCtx c && bool_decide (is_Some timeoutms)
                 then let* id := functionIDGetIncrement in ret (Some id)
                 else ret None in
   let* mode := runInternalStep_mode "DBOS.getResult" None in
   ret (timer, mode)) c.

Section serializer.
(** The parameters of StepExecution.v, the serialized [null], and the serialized text of a
    workflow ID with its reading *)
Context (serializeError : dbos_error -> string)
        (deserializeResError : string -> option string -> dbos_error)
        (executorID : string) (null_text : string)
        (write_id : string -> string) (read_id : string -> option string).

Notation revive := (reviveResultOrError deserializeResError).

(** [DBOSExecutor.runInternalStep] for a callback that waits: it records nothing as long as
    the callback has not returned. *)
Definition waiting_step (functionName workflowID : string) (functionID : Z)
    (childWfId : option string) (callback : DB (option (option string))) (startTime endTime : Z)
    : DB (option (option string)) :=
  let* result := getOperationResultAndThrowIfCancelled workflowID functionID in
  match result with
  | Some r =>
      if negb (opt_eqb (sr_functionName r) (Some functionName))
      then throw (DBOSUnexpectedStepError workflowID functionID functionName
                    (default "" (sr_functionName r)))
      else let* v := revive r in ret (Some v)
  | None =>
      try_catch
        (let* waited := callback in
         match waited with
         | None => ret None
         | Some output =>
             recordOperationResult executorID workflowID functionID functionName true
               startTime endTime
               (no_options <| op_output := output |> <| op_childWorkflowID := childWfId |>) ;*
             ret (Some output)
         end)
        (fun e =>
           if match e with
              | DBOSWorkflowCancelledError w => bool_decide (w = workflowID)
              | _ => false
              end
           then throw e
           else
             recordOperationResult executorID workflowID functionID functionName false
               startTime endTime
               (no_options <| op_error := Some (serializeError e) |>
                           <| op_childWorkflowID := childWfId |>) ;*
             throw e)
  end.

(** [runInternalStep] of dbos.ts in the mode the context gives *)
Definition run_in_mode (mode : step_mode) (functionName : string) (caller : option string)
    (childWfId : option string) (callback : DB (option (option string))) (startTime endTime : Z)
    : DB (option (option string)) :=
  match mode with
  | Direct => callback
  | AsStep fid =>
      waiting_step functionName (default "" caller) fid childWfId callback startTime endTime
  end.

(** The callback of [getResultInternal] *)
Definition getResult_callback (workflowID : string) (timeoutms : option Z)
    (caller : option string) (timerFuncID : option Z) (pauses : list pause) (now : Z)
    : DB (option (option string)) :=
  let* rres := awaitWorkflowResult executorID workflowID timeoutms caller timerFuncID pauses now in
  match rres with
  | None => ret None
  | Some None => ret (Some (Some null_text))
  | Some (Some r) =>
      if sr_cancelled r then throw (DBOSAwaitedWorkflowCancelledError workflowID)
      else if sr_maxRecoveryAttemptsExceeded r
      then throw (DBOSAwaitedWorkflowExceededMaxRecoveryAttempts workflowID)
      else let* v := revive r in ret (Some v)
  end.

(** [getResultInternal] *)
Definition getResultInternal (workflowID : string) (timeoutms : option Z) (caller : option string)
    (timerFuncID : option Z) (mode : step_mode) (pauses : list pause) (startTime endTime : Z)
    : DB (option (option string)) :=
  run_in_mode mode "DBOS.getResult" caller (Some workflowID)
    (getResult_callback workflowID timeoutms caller timerFuncID pauses startTime)
    startTime endTime.

(** [DBOS.getResult], in a context *)
Definition getResult (c : DBOSLocalCtx) (workflowID : string) (timeoutms : option Z)
    (pauses : list pause) (startTime endTime : Z) : DB (option (option string)) := fun d =>
  match (getResult_ids timeoutms c).1 with
  | Throw e => (Throw e, d)
  | Ok (timer, mode) =>
      getResultInternal workflowID timeoutms (cx_workflowId c) timer mode pauses
        startTime endTime d
  end.

(** A handle that holds no promise of its own ([RetrievedHandle]): its [getResult] passes the
    function ID it was given. *)
Definition handle_getResult (c : DBOSLocalCtx) (workflowID : string) (funcIdForGet : option Z)
    (pauses : list pause) (startTime endTime : Z) : DB (option (option string)) := fun d =>
  match (runInternalStep_mode "DBOS.getResult" funcIdForGet c).1 with
  | Throw e => (Throw e, d)
  | Ok mode =>
      getResultInternal workflowID None (cx_workflowId c) None mode pauses startTime endTime d
  end.

(** [getResult] of the handles of a client, which is no workflow *)
Definition client_getResult (workflowID : string) (pauses : list pause) (now : Z)
    : DB (option (option string)) :=
  getResult_callback workflowID None None None pauses now.

(** The handle map of [waitFirst]: the first ID that occurs twice *)
Fixpoint duplicate_handle (seen ids : list string) : option string :=
  match ids with
  | [] => None
  | id :: ids' => if mem id seen then Some id else duplicate_handle (seen ++ [id]) ids'
  end.

(** [DBOS.waitFirst] of handles, given by their workflow IDs, and the client's; [Some None] is
    a missing entry of the map. *)
Definition waitFirst (c : DBOSLocalCtx) (handles : list string) (pauses : list pause)
    (startTime endTime : Z) : DB (option (option string)) := fun d =>
  match handles with
  | [] => (Throw (JsError "handles must not be empty"), d)
  | _ =>
      match duplicate_handle [] handles with
      | Some id => (Throw (JsError ("Duplicate workflow ID in waitFirst: " +:+ id)), d)
      | None =>
          match (runInternalStep_mode "DBOS.waitFirst" None c).1 with
          | Throw e => (Throw e, d)
          | Ok mode =>
              (let* completedId :=
                 run_in_mode mode "DBOS.waitFirst" (cx_workflowId c) None
                   (let* o := awaitFirstWorkflowId handles (cx_workflowId c) pauses in
                    ret ((fun id => Some (write_id id)) <$> o)) startTime endTime in
               ret ((fun text => t ← text; id ← read_id t;
                                 if mem id handles then Some id else None) <$> completedId)) d
          end
      end
  end.

(** [DBOS.waitAll] *)
Definition waitAll (c : DBOSLocalCtx) (handles : list string) (pauses : list pause)
    (startTime endTime : Z) : DB (option (list string)) := fun d =>
  match handles with
  | [] => (Ok (Some []), d)
  | _ =>
      match (runInternalStep_mode "DBOS.waitAll" None c).1 with
      | Throw e => (Throw e, d)
      | Ok mode =>
          (let* o := run_in_mode mode "DBOS.waitAll" (cx_workflowId c) None
                       (let* o := awaitWorkflowIds handles (cx_workflowId c) pauses in
                        ret ((fun _ => None) <$> o)) startTime endTime in
           ret ((fun _ => handles) <$> o)) d
      end
  end.

End serializer.

(** * Lemmas: polling *)

(** The states of the successive looks of a run that makes all the pauses *)
Fixpoint looks (pauses : list pause) (d : sysdb) : list sysdb :=
  d :: match pauses with
       | [] => []
       | p :: pauses' => looks pauses' (pause_world p d)
       end.

Definition caller_cancelled (caller : option string) (d : sysdb) : bool :=
  match truthy_str caller with Some c => is_cancelled c d | None => false end.

Lemma check_caller_run caller d :
  check_caller caller d =
  (if caller_cancelled caller d
   then Throw (DBOSWorkflowCancelledError (default "" (truthy_str caller))) else Ok tt, d).
Proof.
  unfold check_caller, caller_cancelled. destruct (truthy_str caller) as [c|]; [|done].
  rewrite checkIfCanceled_run. by destruct (is_cancelled c d).
Qed.

Section polling.
Context {T A : Type} (caller : option string) (look : T -> sysdb -> A + T) (expired : Z -> option A).

Notation poll := (poll caller look expired).

Lemma poll_eq pauses t d :
  poll pauses t d =
  if caller_cancelled caller d
  then (Throw (DBOSWorkflowCancelledError (default "" (truthy_str caller))), d)
  else match look t d, pauses with
       | inl a, _ => (Ok (Some a), d)
       | inr _, [] => (Ok None, d)
       | inr t', p :: pauses' =>
           match expired (pause_clock p) with
           | Some a => (Ok (Some a), d)
           | None => poll pauses' t' (pause_world p d)
           end
       end.
Proof.
  destruct pauses as [|p pauses]; cbn [Await.poll]; unfold bind at 1; rewrite check_caller_run;
    destruct (caller_cancelled caller d); try done; unfold bind at 1; cbn [get];
    destruct (look t d); try done.
  by destruct (expired (pause_clock p)).
Qed.

(** A run that still waits after [ps] of its pauses, with [ps'] ahead *)
Inductive waited : list pause -> T -> sysdb -> list pause -> T -> sysdb -> Prop :=
| waited_none ps t d : waited ps t d ps t d
| waited_one p ps t d t1 ps' t' d' :
    caller_cancelled caller d = false -> look t d = inr t1 -> expired (pause_clock p) = None ->
    waited ps t1 (pause_world p d) ps' t' d' ->
    waited (p :: ps) t d ps' t' d'.

(** How the last look ends the run *)
Inductive ends (ps : list pause) (t : T) (d : sysdb) : outcome dbos_error (option A) -> Prop :=
| ends_cancelled c :
    truthy_str caller = Some c -> is_cancelled c d = true ->
    ends ps t d (Throw (DBOSWorkflowCancelledError c))
| ends_found a :
    caller_cancelled caller d = false -> look t d = inl a -> ends ps t d (Ok (Some a))
| ends_expired a t' p :
    caller_cancelled caller d = false -> look t d = inr t' -> head ps = Some p ->
    expired (pause_clock p) = Some a -> ends ps t d (Ok (Some a))
| ends_waiting t' :
    caller_cancelled caller d = false -> look t d = inr t' -> ps = [] -> ends ps t d (Ok None).

Lemma poll_spec pauses t d :
  exists ps' t' d', waited pauses t d ps' t' d' /\ ends ps' t' d' (poll pauses t d).1
                    /\ (poll pauses t d).2 = d'.
Proof.
  revert t d. induction pauses as [|p pauses IH]; intros t d; rewrite poll_eq;
    destruct (caller_cancelled caller d) eqn:Ec.
  1, 3: eexists _, t, d; split; [apply waited_none|]; split; [|done];
    unfold caller_cancelled in Ec; destruct (truthy_str caller) as [c|] eqn:E; [|done];
    by eapply ends_cancelled.
  all: destruct (look t d) as [a|t1] eqn:El.
  1, 3: eexists _, t, d; split; [apply waited_none|]; split; [by eapply ends_found|done].
  - exists [], t, d. split; [apply waited_none|]. split; [by eapply ends_waiting|done].
  - destruct (expired (pause_clock p)) as [a|] eqn:Ee.
    + exists (p :: pauses), t, d. split; [apply waited_none|]. split; [by eapply ends_expired|done].
    + destruct (IH t1 (pause_world p d)) as (ps' & t' & d' & Hw & He & Hd).
      exists ps', t', d'. split; [by eapply waited_one|done].
Qed.

(** The run ends in one of its looks. *)
Lemma waited_looks ps t d ps' t' d' : waited ps t d ps' t' d' -> d' ∈ looks ps d.
Proof.
  induction 1 as [ps t d|p ps t d t1 ps' t' d' _ _ _ _ IH]; [destruct ps; set_solver|].
  simpl. set_solver.
Qed.

Lemma waited_suffix ps t d ps' t' d' : waited ps t d ps' t' d' -> ps' `suffix_of` ps.
Proof. induction 1; [done|by apply suffix_cons_r]. Qed.

(** A relation that the world follows holds between the first and the last look. *)
Lemma waited_world (R : sysdb -> sysdb -> Prop) `{!PreOrder R} ps t d ps' t' d' :
  Forall (fun p => forall d, R d (pause_world p d)) ps -> waited ps t d ps' t' d' -> R d d'.
Proof.
  intros Hps Hw. induction Hw as [|p ps t d t1 ps' t' d' _ _ _ _ IH]; [done|].
  apply Forall_cons in Hps as [Hp Hps]. etrans; [apply Hp|by apply IH].
Qed.
End polling.

(** Every look of a run that waits to the end found nothing. *)
Lemma waited_quiet {T A} caller (look : T -> sysdb -> A + T) expired (P : sysdb -> Prop) ps t d t' d' :
  (forall t d t1, look t d = inr t1 -> P d) ->
  waited caller look expired ps t d [] t' d' -> P d' -> forall d1, d1 ∈ looks ps d -> P d1.
Proof.
  intros HP Hw Hd. remember [] as ps' eqn:E.
  induction Hw as [ps t d|p ps t d t1 ps' t' d' Hc Hl He _ IH]; subst; intros d1 Hd1.
  - simpl in Hd1. by apply list_elem_of_singleton in Hd1 as ->.
  - simpl in Hd1. apply elem_of_cons in Hd1 as [->|Hd1]; [by eapply HP|by apply IH].
Qed.

Lemma waited_unexpired {T A} caller (look : T -> sysdb -> A + T) expired ps t d t' d' :
  waited caller look expired ps t d [] t' d' -> forall p, p ∈ ps -> expired (pause_clock p) = None.
Proof.
  intros Hw. remember [] as ps' eqn:E. induction Hw; subst; [set_solver|].
  intros q [->|Hq]%elem_of_cons; [done|by apply IHHw].
Qed.

(** What each pause of a wait keeps: the schema, and the checkpoint [fid] of the waiting
    workflow [id]. *)
Definition undisturbed (id : string) (fid : Z) (f : sysdb -> sysdb) : Prop := forall d,
  db_ok d -> db_ok (f d) /\ same_checkpoint id fid (f d) d.

Lemma undisturbed_compose id fid f g :
  undisturbed id fid f -> undisturbed id fid g -> undisturbed id fid (fun d => g (f d)).
Proof.
  intros Hf Hg d Hd. destruct (Hf d Hd) as [Hf1 Hf2]. destruct (Hg _ Hf1) as [Hg1 Hg2].
  split; [done|]. unfold same_checkpoint in *. by rewrite Hg2.
Qed.

Lemma undisturbed_bind {A B} id fid (m : DB A) (k : A -> DB B) :
  undisturbed id fid (fun d => (m d).2) -> (forall a, undisturbed id fid (fun d => (k a d).2)) ->
  undisturbed id fid (fun d => (bind m k d).2).
Proof.
  intros Hm Hk d Hd. destruct (Hm d Hd) as [Hm1 Hm2]. unfold bind.
  destruct (m d) as [[a|e] d1]; simpl in *; [|done].
  destruct (Hk a d1 Hm1) as [Hk1 Hk2]. split; [done|]. unfold same_checkpoint in *. congruence.
Qed.

Lemma undisturbed_id id fid : undisturbed id fid (fun d => d).
Proof. by intros d. Qed.

Lemma undisturbed_poll {T A} id fid caller (look : T -> sysdb -> A + T) expired pauses t :
  Forall (patient id fid) pauses -> undisturbed id fid (fun d => (poll caller look expired pauses t d).2).
Proof.
  intros Hp d Hd. destruct (poll_spec caller look expired pauses t d) as (ps & t' & d' & Hw & _ & ->).
  induction Hw as [|p ps0 t0 d0 t1 ps1 t2 d2 _ _ _ _ IH]; [done|].
  apply Forall_cons in Hp as [Hp Hps]. destruct (Hp d0 Hd) as [Hd1 Hs].
  destruct (IH Hps Hd1) as [Hd2 Hs2]. split; [done|]. unfold same_checkpoint in *. congruence.
Qed.

Section stability.
Context (serializeError : dbos_error -> string)
        (deserializeResError : string -> option string -> dbos_error)
        (serializeError_nonempty : forall e, serializeError e <> "").

Notation step := (waiting_step serializeError deserializeResError).

(** What the replay of a waiting step yields for a run that ended with [o] *)
Definition same_outcome (o o' : outcome dbos_error (option (option string))) : Prop :=
  o' = o \/ exists e ser, o = Throw e /\ o' = Throw (deserializeResError (serializeError e) ser).

Lemma waiting_step_recorded x name id fid child cb st en d r :
  is_cancelled id d = false -> operation_outputs d !! (id, fid) = Some r ->
  step x name id fid child cb st en d
  = (match replay_step deserializeResError name id fid r with
     | Ok v => Ok (Some v) | Throw e => Throw e end, d).
Proof.
  intros Hc Hr. unfold waiting_step, bind at 1. rewrite getOperationResult_run, Hc, Hr. simpl.
  unfold replay_step. destruct (negb _); [done|]. unfold bind. rewrite revive_run.
  by destruct (revive deserializeResError r).
Qed.

(** The handler of [waiting_step], when the step has no checkpoint *)
Lemma record_error_stable x name id fid child st en e dc o d1 r :
  db_ok dc -> operation_outputs dc !! (id, fid) = None ->
  bind (recordOperationResult x id fid name false st en
          (no_options <| op_error := Some (serializeError e) |> <| op_childWorkflowID := child |>))
       (fun _ => throw e) dc = (o : outcome dbos_error (option (option string)), d1) ->
  operation_outputs d1 !! (id, fid) = Some r ->
  exists ser, o = Throw e
    /\ replay_step deserializeResError name id fid r = Throw (deserializeResError (serializeError e) ser).
Proof.
  intros Hd Hn H Hr. unfold bind in H.
  destruct (record_cases x id fid name false st en
    (no_options <| op_error := Some (serializeError e) |> <| op_childWorkflowID := child |>)
    dc Hd Hn) as [(d' & E & Hrow & _)|E]; rewrite E in H.
  - injection H as <- <-. rewrite Hrow in Hr. injection Hr as <-. rewrite replay_recorded.
    edestruct (revive_error serializeError deserializeResError serializeError_nonempty name st en)
      as (e' & He & ser & ->); [|rewrite He; eauto]. reflexivity.
  - injection H as <- <-. congruence.
Qed.

Lemma waiting_step_stable x name id fid child cb st en d o d1 r :
  db_ok d -> is_cancelled id d = false -> undisturbed id fid (fun d => (cb d).2) ->
  step x name id fid child cb st en d = (o, d1) -> operation_outputs d1 !! (id, fid) = Some r ->
  forall x' cb' st' en' d2, same_checkpoint id fid d2 d1 -> is_cancelled id d2 = false ->
  exists o', step x' name id fid child cb' st' en' d2 = (o', d2) /\ same_outcome o o'.
Proof.
  intros Hd Hc Hcb H Hr x' cb' st' en' d2 H2 Hc2. unfold same_checkpoint in H2. rewrite Hr in H2.
  eexists. split; [by apply waiting_step_recorded|].
  destruct (operation_outputs d !! (id, fid)) as [r0|] eqn:Hn.
  { erewrite waiting_step_recorded in H by done. injection H as <- <-. left. by simplify_eq. }
  unfold waiting_step, bind at 1 in H. rewrite getOperationResult_run, Hc, Hn in H.
  cbn [fmap option_fmap option_map] in H.
  destruct (Hcb d Hd) as [Hdc Hsc]. unfold same_checkpoint in Hsc. rewrite Hn in Hsc.
  unfold try_catch, bind at 1 in H. destruct (cb d) as [[[v|]|e] dc]; simpl in Hdc, Hsc.
  - unfold bind at 1 in H.
    destruct (recordOperationResult x id fid name true st en _ dc) as [[[]|e] dr] eqn:E.
    + injection H as <- <-. apply record_ok_row in E as [E _]; [|done|done]. rewrite E in Hr.
      injection Hr as <-. left. by rewrite replay_recorded.
    + destruct (record_cases x id fid name true st en
        (no_options <| op_output := v |> <| op_childWorkflowID := child |>) dc Hdc Hsc)
        as [(d' & E' & _)|E']; rewrite E' in E; [done|].
      apply (f_equal snd) in E as Ed. apply (f_equal fst) in E as Ee. cbn [fst snd] in Ed, Ee. subst dr.
      right. exists e. injection Ee as <-. cbv beta iota in H.
      destruct (record_error_stable _ _ _ _ _ _ _ _ _ _ _ _ Hdc Hsc H Hr) as (ser & -> & ->). eauto.
  - injection H as <- <-. congruence.
  - destruct (match e with DBOSWorkflowCancelledError w => bool_decide (w = id) | _ => false end).
    { injection H as <- <-. congruence. }
    right. exists e.
    destruct (record_error_stable _ _ _ _ _ _ _ _ _ _ _ _ Hdc Hsc H Hr) as (ser & -> & ->). eauto.
Qed.
(** Without a checkpoint, the answer is the callback's. *)
Lemma waiting_step_fresh x name id fid child cb st en d v d1 :
  operation_outputs d !! (id, fid) = None ->
  step x name id fid child cb st en d = (Ok (Some v), d1) -> (cb d).1 = Ok (Some v).
Proof.
  intros Hn H. unfold waiting_step in H.
  apply bind_inv_ok in H as (res & d0 & Hg & H). rewrite getOperationResult_run in Hg.
  destruct (is_cancelled id d); [done|]. injection Hg as <- <-.
  rewrite Hn in H. cbn [fmap option_fmap option_map] in H.
  unfold try_catch in H. match type of H with context [match ?m with _ => _ end] =>
    destruct m as [[w|e] dr] eqn:E end.
  - injection H as -> ->. apply bind_inv_ok in E as (w & dc & Hcb & E). rewrite Hcb.
    destruct w as [w|]; [|done]. apply bind_inv_ok in E as (? & ? & _ & E). by injection E as ->.
  - destruct (match e with DBOSWorkflowCancelledError w => bool_decide (w = id) | _ => false end);
      [done|]. unfold bind in H. by destruct (recordOperationResult _ _ _ _ _ _ _ _ dr) as [[]].
Qed.

(** An answer leaves a checkpoint. *)
Lemma waiting_step_leaves x name id fid child cb st en d v d1 :
  db_ok d -> undisturbed id fid (fun d => (cb d).2) ->
  step x name id fid child cb st en d = (Ok (Some v), d1) ->
  is_Some (operation_outputs d1 !! (id, fid)).
Proof.
  intros Hd Hcb H. unfold waiting_step in H.
  apply bind_inv_ok in H as (res & d0 & Hg & H). rewrite getOperationResult_run in Hg.
  destruct (is_cancelled id d); [done|]. injection Hg as <- <-.
  destruct (operation_outputs d !! (id, fid)) as [r|] eqn:Hn; cbn [fmap option_fmap option_map] in H.
  - destruct (negb _); [done|]. unfold bind in H. rewrite revive_run in H.
    destruct (revive deserializeResError r); [|done]. injection H as _ <-. by rewrite Hn.
  - destruct (Hcb d Hd) as [Hdc Hsc]. unfold same_checkpoint in Hsc. rewrite Hn in Hsc.
    unfold try_catch, bind at 1 in H. destruct (cb d) as [[[w|]|e] dc]; simpl in Hdc, Hsc.
    + unfold bind at 1 in H.
      destruct (recordOperationResult x id fid name true st en _ dc) as [[[]|e] dr] eqn:E.
      * injection H as _ <-. apply record_ok_row in E as [E _]; [|done|done]. by rewrite E.
      * exfalso. destruct (match e with DBOSWorkflowCancelledError w => bool_decide (w = id) | _ => false end);
          [done|]. unfold bind in H. by destruct (recordOperationResult _ _ _ _ _ _ _ _ dr) as [[]].
    + done.
    + exfalso. destruct (match e with DBOSWorkflowCancelledError w => bool_decide (w = id) | _ => false end);
        [done|]. unfold bind in H. by destruct (recordOperationResult _ _ _ _ _ _ _ _ dc) as [[]].
Qed.
End stability.

(** * Theorems *)

(** A wait for a result ends at one of its looks.  If it yields a result, then what that look
    found in the row of the awaited workflow, which was finished; if it yields [undefined], the
    workflow was not finished and the deadline had passed; if it throws, the caller was
    cancelled; if it still waits, no look found the workflow finished and the deadline has not
    passed.  A wait with a deadline is over within as many looks as it has milliseconds, when
    each pause lasts one. *)
Theorem awaitWorkflowResult_exact x id timeoutms caller timer pauses now d ft d0 :
  await_deadline x timeoutms caller timer now d = (Ok ft, d0) ->
  let (o, d') := awaitWorkflowResult x id timeoutms caller timer pauses now d in
  d' ∈ looks pauses d0
  /\ match o with
     | Ok (Some (Some r)) => awaited_result id d' = Some r
     | Ok (Some None) => awaited_result id d' = None
         /\ exists t p, ft = Some t /\ p ∈ pauses /\ t < pause_clock p
     | Ok None => (forall d1, d1 ∈ looks pauses d0 -> awaited_result id d1 = None)
         /\ forall p, p ∈ pauses -> time_is_up ft (pause_clock p) = false
     | Throw e => exists c, caller = Some c /\ e = DBOSWorkflowCancelledError c /\ is_cancelled c d' = true
     end
  /\ (forall t, ft = Some t -> t <> 0 ->
        (forall i p, pauses !! i = Some p -> now + Z.of_nat i <= pause_clock p) ->
        Z.max 0 (t - now + 1) < Z.of_nat (length pauses) -> o <> Ok None).
Proof.
  intros Hft. unfold awaitWorkflowResult. rewrite (bind_ok _ _ _ _ _ Hft).
  unfold await_loop. match goal with |- context [poll ?c ?l ?e pauses tt] =>
    destruct (poll_spec c l e pauses tt d0) as (ps & t' & d' & Hw & He & Hd);
    destruct (poll c l e pauses tt d0) as [o d''] end.
  simpl in He, Hd. subst d''. pose proof (waited_looks _ _ _ _ _ _ _ _ _ Hw) as Hin.
  pose proof (waited_suffix _ _ _ _ _ _ _ _ _ Hw) as Hsuf.
  assert (o = Ok None -> (forall d1, d1 ∈ looks pauses d0 -> awaited_result id d1 = None)
    /\ forall p, p ∈ pauses -> time_is_up ft (pause_clock p) = false) as Hwait.
  { intros ->. inversion He as [| | |t1 Hc Hl Hps]; subst. split.
    - eapply (waited_quiet _ _ _ (fun d => awaited_result id d = None)); [|exact Hw|by destruct (awaited_result id d')].
      intros ? d1 t2 Hl2. cbv beta in Hl2. by destruct (awaited_result id d1).
    - intros p Hp. pose proof (waited_unexpired _ _ _ _ _ _ _ _ Hw p Hp) as E.
      cbv beta in E. by destruct (time_is_up _ _). }
  split; [done|]. split.
  - destruct He as [c Hc Hca|a Hc Hl|a t1 p Hc Hl Hp He|t1 Hc Hl Hp].
    + exists c. destruct caller as [[|]|]; simplify_eq/=; eauto.
    + destruct (awaited_result id d') eqn:E; [|done]. by simplify_eq.
    + destruct (awaited_result id d') eqn:E; [done|]. unfold time_is_up in He.
      destruct (truthy_num ft) as [t|] eqn:Et; [|done]. destruct (t <? _) eqn:El; [|done].
      injection He as <-. split; [done|]. exists t, p. apply Z.ltb_lt in El. split; [by destruct ft as [[]|]|].
      split; [|done]. destruct ps as [|p0 ps]; [done|]. simplify_eq/=.
      destruct Hsuf as [l ->]. set_solver.
    + by apply Hwait.
  - intros t Ht Hnz Htick Hlen E. destruct (Hwait E) as [_ Hno].
    destruct (lookup_lt_is_Some_2 pauses (Z.to_nat (t - now + 1)) ltac:(lia)) as [p Hp].
    specialize (Hno p ltac:(by eapply list_elem_of_lookup_2)). specialize (Htick _ _ Hp).
    assert (truthy_num ft = Some t) as Et by (rewrite Ht; by destruct t).
    unfold time_is_up in Hno. rewrite Et in Hno. apply Z.ltb_ge in Hno. lia.
Qed.

(** * Lemmas: several workflows *)

(** The row of the workflow exists and is no longer active. *)
Definition settled (id : string) (d : sysdb) : Prop :=
  exists r, workflow_status d !! id = Some r /\ isWorkflowActive (ws_status r) = false.

Lemma elem_of_settled_rows id ids d : id ∈ settled_rows ids d <-> id ∈ ids /\ settled id d.
Proof.
  unfold settled_rows, settled. rewrite list_elem_of_fmap. split.
  - intros ([k r] & -> & [Hr Hp]%elem_of_select_where). simpl in *.
    apply andb_true_iff in Hp as [Hm Ha]. apply mem_spec in Hm. split; [done|].
    exists r. by destruct (isWorkflowActive _).
  - intros [Hin (r & Hr & Ha)]. exists (id, r). split; [done|]. apply elem_of_select_where.
    split; [done|]. simpl. rewrite Ha, andb_true_r. by apply mem_spec.
Qed.

Lemma look_remaining_spec ids d :
  match look_remaining ids d with
  | inl _ => forall id, id ∈ ids -> settled id d
  | inr rest => rest <> [] /\ forall id, id ∈ rest <-> id ∈ ids /\ ~ settled id d
  end.
Proof.
  unfold look_remaining.
  assert (forall id, id ∈ List.filter (fun id => negb (mem id (settled_rows ids d))) ids
            <-> id ∈ ids /\ ~ settled id d) as H.
  { intros id. rewrite list_elem_of_In, filter_In, <- list_elem_of_In, negb_true_iff, mem_false,
      elem_of_settled_rows. naive_solver. }
  destruct (List.filter _ ids) as [|x rest]; [|by split].
  intros id Hid. destruct (decide (id ∈ settled_rows ids d)) as [Hs|Hs];
    rewrite elem_of_settled_rows in Hs; [by destruct Hs|].
  exfalso. assert (id ∈ @nil string) as Hn by (apply H; split; [done|]; tauto). by apply not_elem_of_nil in Hn.
Qed.

Lemma looks_head pauses d : d ∈ looks pauses d.
Proof. destruct pauses; set_solver. Qed.

Lemma poll_remaining caller pauses ids d :
  ids <> [] ->
  match (poll caller look_remaining (fun _ => None) pauses ids d).1 with
  | Ok (Some _) => forall id, id ∈ ids -> exists d1, d1 ∈ looks pauses d /\ settled id d1
  | Ok None => exists id, id ∈ ids /\ forall d1, d1 ∈ looks pauses d -> ~ settled id d1
  | Throw e => exists c, truthy_str caller = Some c /\ e = DBOSWorkflowCancelledError c
  end.
Proof.
  revert ids d. induction pauses as [|p pauses IH]; intros ids d Hne; rewrite poll_eq;
    unfold caller_cancelled; destruct (truthy_str caller) as [c|] eqn:Ec;
    try (destruct (is_cancelled c d); [by exists c|]);
    pose proof (look_remaining_spec ids d) as Hl; destruct (look_remaining ids d) as [u|rest];
    try (intros id Hid; exists d; split; [apply looks_head|by apply Hl]);
    destruct Hl as [Hr Hiff].
  1, 2: destruct rest as [|id rest]; [done|]; exists id; destruct (proj1 (Hiff id) ltac:(by left)) as [? Hn];
    split; [done|]; intros d1 Hd1; simpl in Hd1; by apply list_elem_of_singleton in Hd1 as ->.
  all: specialize (IH rest (pause_world p d) Hr); simpl;
    destruct (poll _ _ _ pauses rest _).1 as [[u|]|e]; [| |done].
  1, 3: intros id Hid; destruct (decide (id ∈ rest)) as [Hin|Hin];
    [destruct (IH id Hin) as (d1 & Hd1 & Hs); exists d1; split; [by right|done]|];
    exists d; split; [by left|]; destruct (decide (id ∈ settled_rows ids d)) as [Hs|Hs];
    rewrite elem_of_settled_rows in Hs; [by destruct Hs|];
    exfalso; apply Hin, Hiff; split; [done|tauto].
  all: destruct IH as (id & Hid & Hno); exists id; destruct (proj1 (Hiff id) Hid) as [? Hn];
    split; [done|]; intros d1 [->|Hd1]%elem_of_cons; [done|by apply Hno].
Qed.

(** [waitAll] returns only after each of the workflows was found to be finished at one of its
    looks, however the status of others changes meanwhile; it goes on waiting only for a
    workflow that no look has found finished, which a workflow that does not exist is. *)
Theorem awaitWorkflowIds_exact ids caller pauses d :
  match (awaitWorkflowIds ids caller pauses d).1 with
  | Ok (Some _) => forall id, id ∈ ids -> exists d1, d1 ∈ looks pauses d /\ settled id d1
  | Ok None => exists id, id ∈ ids /\ forall d1, d1 ∈ looks pauses d -> ~ settled id d1
  | Throw e => exists c, truthy_str caller = Some c /\ e = DBOSWorkflowCancelledError c
  end.
Proof.
  unfold awaitWorkflowIds. destruct (remove_dups ids) as [|x l] eqn:E.
  - intros id Hid. apply (elem_of_remove_dups ids) in Hid. rewrite E in Hid. by apply not_elem_of_nil in Hid.
  - pose proof (poll_remaining caller pauses (x :: l) d ltac:(done)) as H.
    destruct (poll _ _ _ _ _ _).1 as [[u|]|e]; [| |done].
    + intros id Hid. apply H. rewrite <- E. by apply elem_of_remove_dups.
    + destruct H as (id & Hid & H). exists id. split; [|done].
      rewrite <- E in Hid. by rewrite elem_of_remove_dups in Hid.
Qed.

(** * Lemmas: the step of a wait *)

Lemma undisturbed_ret {A} id fid (o : outcome dbos_error A) : undisturbed id fid (fun d => (o, d).2).
Proof. by intros d. Qed.

Lemma undisturbed_deadline x id fid timeoutms caller timer now :
  timer <> Some fid -> undisturbed id fid (fun d => (await_deadline x timeoutms caller timer now d).2).
Proof.
  intros Hne. unfold await_deadline. destruct timer as [t|]; [|done].
  destruct caller as [c|]; [|done]. destruct timeoutms as [ms|]; [|done].
  apply undisturbed_bind; [|done]. intros d Hd. split; [by apply preserves_durableSleep|].
  apply durableSleep_key. congruence.
Qed.

Section stable.
Context (serializeError : dbos_error -> string)
        (deserializeResError : string -> option string -> dbos_error)
        (null_text : string)
        (serializeError_nonempty : forall e, serializeError e <> "").

Lemma undisturbed_callback x id fid wf timeoutms caller timer pauses now :
  timer <> Some fid -> Forall (patient id fid) pauses ->
  undisturbed id fid (fun d => (getResult_callback deserializeResError x null_text wf timeoutms caller
                                  timer pauses now d).2).
Proof.
  intros Ht Hp. apply undisturbed_bind.
  - apply undisturbed_bind; [by apply undisturbed_deadline|]. intros ft. by apply undisturbed_poll.
  - intros [[r|]|]; try done. destruct (sr_cancelled r); [done|].
    destruct (sr_maxRecoveryAttemptsExceeded r); [done|].
    unfold reviveResultOrError. by destruct (truthy_str _).
Qed.

(** The ID of the step of a [getResult] *)
Definition getResult_step (next : option Z) (timeoutms : option Z) : Z :=
  default 0 next + match timeoutms with Some _ => 1 | None => 0 end.

Notation getResult x := (getResult serializeError deserializeResError x null_text).

Lemma getResult_in_workflow x caller next id timeoutms pauses st en :
  getResult x (workflow_ctx caller next) id timeoutms pauses st en
  = waiting_step serializeError deserializeResError x "DBOS.getResult" caller
      (getResult_step next timeoutms) (Some id)
      (getResult_callback deserializeResError x null_text id timeoutms (Some caller)
         ((fun _ => default 0 next) <$> timeoutms) pauses st) st en.
Proof.
  unfold Await.getResult, getResult_ids, getResult_step.
  destruct timeoutms; simpl; by rewrite ?Z.add_0_r.
Qed.

(** C23: A workflow that asks for the result of another one, with or without a timeout, gets the
    same answer on every replay: once the step has its checkpoint - and an answer always leaves
    one - asking again neither waits nor looks at the awaited workflow.  A wait that ran out of
    time answers [null] for good, even if the awaited workflow finishes later. *)
Theorem getResult_stable x caller next id timeoutms pauses st en d o d1 :
  let fid := getResult_step next timeoutms in
  db_ok d -> is_cancelled caller d = false -> Forall (patient caller fid) pauses ->
  getResult x (workflow_ctx caller next) id timeoutms pauses st en d = (o, d1) ->
  (forall v, o = Ok (Some v) -> is_Some (operation_outputs d1 !! (caller, fid)))
  /\ forall r x' pauses' st' en' d2,
       operation_outputs d1 !! (caller, fid) = Some r ->
       same_checkpoint caller fid d2 d1 -> is_cancelled caller d2 = false ->
       exists o', getResult x' (workflow_ctx caller next) id timeoutms pauses' st' en' d2 = (o', d2)
                  /\ same_outcome serializeError deserializeResError o o'.
Proof.
  intros fid Hd Hc Hp H. rewrite getResult_in_workflow in H. fold fid in H.
  assert (undisturbed caller fid (fun d => (getResult_callback deserializeResError x null_text id
    timeoutms (Some caller) ((fun _ => default 0 next) <$> timeoutms) pauses st d).2)) as Hcb.
  { apply undisturbed_callback; [|done]. unfold fid, getResult_step. destruct timeoutms; simpl; [|done].
    intros E. injection E. lia. }
  split; [intros v ->; by eapply waiting_step_leaves|].
  intros r x' pauses' st' en' d2 Hr H2 Hc2. rewrite getResult_in_workflow. fold fid.
  by eapply waiting_step_stable.
Qed.
End stable.

(** ** waitFirst *)

Section first.
Context (serializeError : dbos_error -> string)
        (deserializeResError : string -> option string -> dbos_error)
        (write_id : string -> string) (read_id : string -> option string)
        (serializeError_nonempty : forall e, serializeError e <> "")
        (read_write : forall id, read_id (write_id id) = Some id).

Notation waitFirst x := (waitFirst serializeError deserializeResError x write_id read_id).

(** The callback of [waitFirst] *)
Notation first_callback handles caller pauses :=
  (let* o := awaitFirstWorkflowId handles caller pauses in
   ret ((fun id => Some (write_id id)) <$> o)).

Lemma undisturbed_first id fid handles caller pauses :
  Forall (patient id fid) pauses ->
  undisturbed id fid (fun d => (first_callback handles caller pauses d).2).
Proof.
  intros Hp. apply undisturbed_bind; [|done]. unfold awaitFirstWorkflowId. destruct handles as [|h l].
  - intros d Hd. unfold bind. rewrite check_caller_run. by destruct (caller_cancelled caller d).
  - by apply undisturbed_poll.
Qed.

Lemma awaitFirst_settled handles caller pauses d id d' :
  awaitFirstWorkflowId handles caller pauses d = (Ok (Some id), d') ->
  id ∈ handles /\ d' ∈ looks pauses d /\ settled id d'.
Proof.
  unfold awaitFirstWorkflowId. destruct handles as [|h l].
  { unfold bind. rewrite check_caller_run. by destruct (caller_cancelled caller d). }
  intros H. match type of H with poll ?c ?lk ?e pauses tt d = _ =>
    destruct (poll_spec c lk e pauses tt d) as (ps & t' & d2 & Hw & He & Hd) end.
  rewrite H in He, Hd. cbn [fst snd] in He, Hd. subst d2.
  apply waited_looks in Hw. inversion He as [|a Hc Hl| |]; subst; [|done].
  destruct (limit (Some 1) (settled_rows (h :: l) d')) as [|y ys] eqn:E; [done|].
  injection Hl as ->. assert (id ∈ settled_rows (h :: l) d') as Hin.
  { apply (elem_of_limit (Some 1)). rewrite E. by left. }
  apply elem_of_settled_rows in Hin as [? ?]. done.
Qed.

(** [waitFirst] answers one of the given handles, whose workflow a look found finished, and a
    replay answers the same handle, whichever workflows have finished by then. *)
Theorem waitFirst_stable x caller next handles pauses st en d h d1 :
  let fid := default 0 next in
  db_ok d -> is_cancelled caller d = false -> Forall (patient caller fid) pauses ->
  waitFirst x (workflow_ctx caller next) handles pauses st en d = (Ok (Some (Some h)), d1) ->
  h ∈ handles
  /\ (operation_outputs d !! (caller, fid) = None ->
        exists d', d' ∈ looks pauses d /\ settled h d')
  /\ forall x' pauses' st' en' d2, same_checkpoint caller fid d2 d1 -> is_cancelled caller d2 = false ->
       waitFirst x' (workflow_ctx caller next) handles pauses' st' en' d2 = (Ok (Some (Some h)), d2).
Proof.
  intros fid Hd Hc Hp H. unfold Await.waitFirst in *. destruct handles as [|h0 l]; [done|].
  destruct (duplicate_handle [] (h0 :: l)); [done|].
  cbn [runInternalStep_mode isWithinWorkflowCtx workflow_ctx cx_workflowId] in *.
  change (runInternalStep_mode "DBOS.waitFirst" None (workflow_ctx caller next)).1
    with (Ok (E := dbos_error) (AsStep fid)) in *. cbn [run_in_mode default] in *.
  apply bind_inv_ok in H as (o & d0 & Hs & H). injection H as H ->.
  destruct o as [text|]; [|done]. simpl in H. injection H as H.
  pose proof (undisturbed_first caller fid (h0 :: l) (Some caller) pauses Hp) as Hu.
  destruct (waiting_step_leaves serializeError deserializeResError _ _ _ _ _ _ _ _ _ _ _ Hd Hu Hs) as [r Hr].
  split; [|split].
  - destruct text as [t|]; [|done]. simpl in H. destruct (read_id t) as [i|]; [|done]. simpl in H.
    destruct (mem i (h0 :: l)) eqn:Hm; [|done]. simplify_eq. by apply mem_spec.
  - intros Hn. apply waiting_step_fresh in Hs; [|done].
    destruct (first_callback (h0 :: l) (Some caller) pauses d) as [o dc] eqn:E. simpl in Hs. subst o.
    apply bind_inv_ok in E as (o & d' & Ha & E). injection E as E _. destruct o as [i|]; [|done].
    simpl in E. injection E as <-. simpl in H. rewrite read_write in H. simpl in H.
    apply awaitFirst_settled in Ha as (Hin & Hl & Hst). apply mem_spec in Hin. rewrite Hin in H.
    injection H as ->. eauto.
  - intros x' pauses' st' en' d2 H2 Hc2.
    destruct (waiting_step_stable serializeError deserializeResError serializeError_nonempty
      _ _ _ _ _ _ _ _ _ _ _ _ Hd Hc Hu Hs Hr x' (first_callback (h0 :: l) (Some caller) pauses')
      st' en' d2 H2 Hc2) as (o' & Ho' & [->|(e & ? & ? & _)]); [|done].
    rewrite (bind_ok _ _ _ _ _ Ho'). simpl. by rewrite H.
Qed.
End first.

(** * A timeout inside a step *)

(** Inside a step, where asking for a result without a timeout runs directly, asking with a
    timeout throws: it takes the ID of its timer from a context that gives none. *)
Lemma getResult_timeout_in_step serr dres x null_text caller next k id ms pauses st en d :
  k <> 0 ->
  let c := workflow_ctx caller next <| cx_curStepFunctionId := Some k |> in
  getResult serr dres x null_text c id (Some ms) pauses st en d
  = (Throw (DBOSInvalidWorkflowTransitionError
      (Some "Attempt to get a call ID number in a workflow that is already in a call")), d)
  /\ getResult serr dres x null_text c id None pauses st en d
     = getResult_callback dres x null_text id None (Some caller) None pauses st d.
Proof. intros Hk. by destruct k. Qed.

(** * Witnesses *)

Definition ex_finish (d : sysdb) : sysdb :=
  (recordWorkflowOutput 3000 "wf-2" (ex_status <| i_output := Some "7" |>) d).2.

Lemma awaitWorkflowResult_exact_witness :
  (awaitWorkflowResult "exec-a" "wf-2" None (Some "wf-1") None [Pause 5 ex_finish] 0 ex_family).1
  = Ok (Some (Some (no_result <| sr_output := Some "7" |> <| sr_serialization := Some "js_superjson" |>)))
  /\ awaited_result "wf-2" (awaitWorkflowResult "exec-a" "wf-2" None (Some "wf-1") None
       [Pause 5 ex_finish] 0 ex_family).2
     = Some (no_result <| sr_output := Some "7" |> <| sr_serialization := Some "js_superjson" |>).
Proof.
  pose proof (awaitWorkflowResult_exact "exec-a" "wf-2" None (Some "wf-1") None [Pause 5 ex_finish] 0
    ex_family None ex_family eq_refl) as H.
  split; [vm_compute; reflexivity|].
  assert ((awaitWorkflowResult "exec-a" "wf-2" None (Some "wf-1") None [Pause 5 ex_finish] 0 ex_family).1
    = Ok (Some (Some (no_result <| sr_output := Some "7" |> <| sr_serialization := Some "js_superjson" |>))))
    as E by (vm_compute; reflexivity).
  destruct (awaitWorkflowResult _ _ _ _ _ _ _ _) as [o d']. cbn [fst] in E. subst o. apply H.
Defined.

(** The wait for the second workflow runs out of time; it finishes, and the replay still
    answers [null]. *)
Notation ex_getResult x := (getResult ex_ser ex_deser x "null" (workflow_ctx "wf-1" None) "wf-2" (Some 1000)).

Definition ex_timed_out : sysdb := (ex_getResult "exec-a" [Pause 2000 id] 0 10 ex_family).2.

Lemma getResult_stable_witness :
  (ex_getResult "exec-a" [Pause 2000 id] 0 10 ex_family).1 = Ok (Some (Some "null"))
  /\ is_Some (awaited_result "wf-2" (ex_finish ex_timed_out))
  /\ (ex_getResult "exec-b" [] 5000 5010 (ex_finish ex_timed_out)).1 = Ok (Some (Some "null")).
Proof.
  assert (ex_getResult "exec-a" [Pause 2000 id] 0 10 ex_family
          = (Ok (Some (Some "null")), ex_timed_out)) as E by (vm_compute; reflexivity).
  split; [by rewrite E|]. split; [vm_compute; eexists; reflexivity|].
  destruct (getResult_stable ex_ser ex_deser "null" ex_ser_nonempty "exec-a" "wf-1" None "wf-2"
    (Some 1000) [Pause 2000 id] 0 10 ex_family (Ok (Some (Some "null"))) ex_timed_out ex_family_ok)
    as [Hr H].
  - vm_compute. reflexivity.
  - apply Forall_singleton. intros d Hd. by split.
  - exact E.
  - destruct (Hr _ eq_refl) as [r Hrow].
    destruct (H r "exec-b" [] 5000 5010 (ex_finish ex_timed_out) Hrow) as (o' & Ho' & [->|(e & ? & ? & _)]);
      [vm_compute; reflexivity|vm_compute; reflexivity|by rewrite Ho'|discriminate].
Defined.

Notation ex_waitFirst x := (waitFirst ex_ser ex_deser x id Some (workflow_ctx "wf-1" None) ["wf-2"; "wf-3"]).

Definition ex_chosen : sysdb := (ex_waitFirst "exec-a" [] 0 10 ex_family).2.

(** The third workflow has finished; the second one finishes before the replay. *)
Lemma waitFirst_stable_witness :
  (ex_waitFirst "exec-a" [] 0 10 ex_family).1 = Ok (Some (Some "wf-3"))
  /\ ex_waitFirst "exec-b" [] 50 60 (ex_finish ex_chosen) = (Ok (Some (Some "wf-3")), ex_finish ex_chosen).
Proof.
  assert (ex_waitFirst "exec-a" [] 0 10 ex_family = (Ok (Some (Some "wf-3")), ex_chosen)) as E
    by (vm_compute; reflexivity).
  split; [by rewrite E|].
  destruct (waitFirst_stable ex_ser ex_deser id Some ex_ser_nonempty (fun _ => eq_refl) "exec-a" "wf-1"
    None ["wf-2"; "wf-3"] [] 0 10 ex_family "wf-3" ex_chosen ex_family_ok) as (_ & _ & H).
  - vm_compute. reflexivity.
  - by apply Forall_nil.
  - exact E.
  - apply (H "exec-b" [] 50 60 (ex_finish ex_chosen)); vm_compute; reflexivity.
Defined.
