(* ===== verification/Retry.v ===== *)
(** Retrying on a lost connection: the [dbRetry] decorator of the methods of [SystemDatabase]
    and the classification of the errors it retries (src/src/system_database.ts).

    A JavaScript error is an object that can refer to other errors, in cycles even; the objects
    live in a heap and a value is a reference into it, a primitive, or [null] or [undefined].
    What [Math.random] yields is an argument. *)

From Stdlib Require Import QArith Qminmax Lqa.
From S2P Require Export Messaging.
From S2P Require Import Json Crontab.

Open Scope Z_scope.

(** * Error values *)

Inductive jsvalue : Type :=
| Nullish
| Primitive (text : string) (truthy : bool)
| Ref (r : nat).

#[export] Instance jsvalue_eq_dec : EqDecision jsvalue.
Proof. solve_decision. Defined.

(** The properties of an object that the classification reads; [ob_text] is [String(e)], and
    [ob_code] the code if it is a string. *)
Record object : Type := ObjectOf {
  ob_isError : bool;
  ob_code : option string;
  ob_stack : option string;
  ob_message : option string;
  ob_text : string;
  ob_errors : option (list jsvalue);
  ob_cause : jsvalue;
  ob_error : jsvalue
}.

Definition plain_object : object :=
  ObjectOf false None None None "[object Object]" None Nullish Nullish.

(** The object at index [r] of the heap *)
Definition heap : Type := list object.
Definition object_at (h : heap) (r : nat) : object := nth r h plain_object.

Definition is_truthy (v : jsvalue) : bool :=
  match v with Nullish => false | Primitive _ b => b | Ref _ => true end.

(** * Classification *)

Definition RETRY_SQLSTATE_PREFIXES : list string := ["08"; "53"; "57"].
Definition RETRY_SQLSTATE_CODES : list string := ["40003"].
Definition RETRY_NODE_ERRNOS : list string :=
  ["ECONNRESET"; "ECONNREFUSED"; "EHOSTUNREACH"; "ENETUNREACH"; "ETIMEDOUT"; "ECONNABORTED"].

(** [isPgDatabaseError]: it has a string of five characters as its code. *)
Definition isPgDatabaseError (code : option string) : bool :=
  match code with Some c => (String.length c =? 5)%nat | None => false end.

Definition sqlStateLooksRetryable (sqlstate : option string) : bool :=
  match truthy_str sqlstate with
  | None => false
  | Some s => mem s RETRY_SQLSTATE_CODES || mem (String.substring 0 2 s) RETRY_SQLSTATE_PREFIXES
  end.

Definition nodeErrnoLooksRetryable (code : option string) : bool :=
  match truthy_str code with Some c => mem c RETRY_NODE_ERRNOS | None => false end.

(** [toLowerCase], of ASCII letters *)
Fixpoint lower (s : string) : string :=
  match s with
  | EmptyString => EmptyString
  | String c s' => String (to_lower c) (lower s')
  end.

Definition messageLooksRetryable (msg : string) : bool :=
  let m := lower msg in
  includes "ECONNREFUSED" msg
  || includes "ECONNRESET" msg
  || includes "connection timeout" m
  || includes "server closed the connection" m
  || includes "connection terminated unexpectedly" m
  || includes "client has encountered a connection error" m
  || includes "timeout exceeded when trying to connect" m
  || includes "could not connect to server" m.

(** What [unwrapErrors] pushes for an object: the elements of [errors] if it is an array, then
    [cause] and [error] if they are truthy. *)
Definition links (o : object) : list jsvalue :=
  default [] (ob_errors o)
  ++ (if is_truthy (ob_cause o) then [ob_cause o] else [])
  ++ (if is_truthy (ob_error o) then [ob_error o] else []).

(** [unwrapErrors]: what the generator yields, in order; [None] when the fuel runs out. *)
Fixpoint unwrap (fuel : nat) (h : heap) (queue : list jsvalue) (seen : list nat)
    : option (list jsvalue) :=
  match fuel with
  | O => None
  | S fuel' =>
      match queue with
      | [] => Some []
      | cur :: queue' =>
          match cur with
          | Ref r =>
              if bool_decide (r ∈ seen) then unwrap fuel' h queue' seen
              else cons cur <$> unwrap fuel' h (queue' ++ links (object_at h r)) (r :: seen)
          | _ => cons cur <$> unwrap fuel' h queue' seen
          end
      end
  end.

(** The links of the objects of [rs] *)
Definition edges (h : heap) (rs : list nat) : nat :=
  sum_list_with (fun r => length (links (object_at h r))) rs.

Definition unwrapErrors (h : heap) (e : jsvalue) : option (list jsvalue) :=
  unwrap (edges h (seq 0 (length h)) + 2) h [e] [].

(** One round of the loop of [retriablePostgresException]; the properties of [null] cannot be
    read. *)
Definition looksRetriable (h : heap) (v : jsvalue) : dbos_error + bool :=
  match v with
  | Nullish => inl (JsTypeError "Cannot read properties of null (reading 'code')")
  | Primitive text _ => inr (messageLooksRetryable text)
  | Ref r =>
      let o := object_at h r in
      inr ((isPgDatabaseError (ob_code o) && sqlStateLooksRetryable (ob_code o))
           || nodeErrnoLooksRetryable (ob_code o)
           || (if ob_isError o
               then match truthy_str (ob_stack o) with Some s => messageLooksRetryable s | None => false end
                    || match truthy_str (ob_message o) with Some s => messageLooksRetryable s | None => false end
               else messageLooksRetryable (ob_text o)))
  end.

(** The loop, which stops at the first error that is retriable *)
Fixpoint first_retriable (h : heap) (vs : list jsvalue) : dbos_error + bool :=
  match vs with
  | [] => inr false
  | v :: vs' =>
      match looksRetriable h v with
      | inl e => inl e
      | inr true => inr true
      | inr false => first_retriable h vs'
      end
  end.

Definition retriablePostgresException (h : heap) (err : jsvalue) : option (dbos_error + bool) :=
  first_retriable h <$> unwrapErrors h err.

(** * The retry loop *)

Section dbRetry.
Context {T E A : Type}.

(** What the classification makes of an error: whether to retry, or the error it throws *)
Variable classify : E -> E + bool.
(** The [n]-th call of the method, and the [n]-th random number *)
Variable method : nat -> M T E A.
Variable random : nat -> Q.

Definition initialBackoff : Q := 1.
Definition maxBackoff : Q := 60.

(** [dbRetry] from call [n] on: the outcome, and the pauses in milliseconds; [None] when the
    fuel runs out. *)
Fixpoint dbRetry_loop (fuel n : nat) (backoff : Q) (s : T) : option (outcome E A * list Q * T) :=
  match fuel with
  | O => None
  | S fuel' =>
      match method n s with
      | (Ok a, s') => Some (Ok a, [], s')
      | (Throw e, s') =>
          match classify e with
          | inl e' => Some (Throw e', [], s')
          | inr false => Some (Throw e, [], s')
          | inr true =>
              let pause := (backoff * ((1 # 2) + random n) * 1000)%Q in
              (fun r => (r.1.1, pause :: r.1.2, r.2))
                <$> dbRetry_loop fuel' (S n) (Qmin (backoff * 2) maxBackoff) s'
          end
      end
  end.

Definition dbRetry (fuel : nat) (s : T) : option (outcome E A * list Q * T) :=
  dbRetry_loop fuel 0 initialBackoff s.
End dbRetry.

(** * Lemmas: unwrapping *)

(** [w] is one of the errors that [v] refers to. *)
Definition link (h : heap) (v w : jsvalue) : Prop :=
  match v with Ref r => w ∈ links (object_at h r) | _ => False end.

Definition in_seen (seen : list nat) (v : jsvalue) : Prop := exists r, v = Ref r /\ r ∈ seen.

(** The objects that are still to be expanded *)
Definition unseen (h : heap) (seen : list nat) : list nat :=
  List.filter (fun r => negb (bool_decide (r ∈ seen))) (seq 0 (length h)).

Lemma edges_filter h seen r l :
  NoDup l -> r ∉ seen ->
  (edges h (List.filter (fun k => negb (bool_decide (k ∈ r :: seen))) l)
   + (if bool_decide (r ∈ l) then length (links (object_at h r)) else 0)
   = edges h (List.filter (fun k => negb (bool_decide (k ∈ seen))) l))%nat.
Proof.
  intros Hnd Hr. induction Hnd as [|x l Hx _ IH]; [done|]. cbn [List.filter].
  destruct (decide (x = r)) as [->|Hne].
  - rewrite (bool_decide_true (r ∈ r :: seen)), (bool_decide_false (r ∈ seen)),
      (bool_decide_true (r ∈ r :: l)) by set_solver.
    rewrite (bool_decide_false (r ∈ l)) in IH by done. simpl. unfold edges in *. lia.
  - rewrite (bool_decide_ext (x ∈ r :: seen) (x ∈ seen)) by set_solver.
    rewrite (bool_decide_ext (r ∈ x :: l) (r ∈ l)) by set_solver.
    destruct (bool_decide (x ∈ seen)); simpl; unfold edges in *; simpl; lia.
Qed.

Lemma edges_filter_le h p l : (edges h (List.filter p l) <= edges h l)%nat.
Proof. induction l as [|x l IH]; [done|]. simpl. destruct (p x); unfold edges in *; simpl; lia. Qed.

Lemma edges_unseen h seen r :
  r ∉ seen ->
  (edges h (unseen h (r :: seen)) + length (links (object_at h r)) <= edges h (unseen h seen)
   \/ links (object_at h r) = [] /\ edges h (unseen h (r :: seen)) = edges h (unseen h seen))%nat.
Proof.
  intros Hr. pose proof (edges_filter h seen r (seq 0 (length h)) (NoDup_seq _ _) Hr) as H.
  unfold unseen. case_bool_decide as Hin; [left; lia|]. right. split; [|lia].
  rewrite elem_of_seq in Hin. unfold object_at. by rewrite nth_overflow by lia.
Qed.

(** With enough fuel the walk yields what it starts from and, for each object it yields, all it
    links to, except what was seen before. *)
Lemma unwrap_spec h fuel queue seen :
  (length queue + edges h (unseen h seen) < fuel)%nat ->
  exists l, unwrap fuel h queue seen = Some l
    /\ (forall v, v ∈ l -> exists u, u ∈ queue /\ rtc (link h) u v)
    /\ (forall v, v ∈ queue -> v ∈ l \/ in_seen seen v)
    /\ (forall v w, v ∈ l -> link h v w -> w ∈ l \/ in_seen seen w).
Proof.
  revert queue seen. induction fuel as [|fuel IH]; intros queue seen Hf; [lia|].
  destruct queue as [|cur queue]; cbn [unwrap].
  { exists []. split; [done|]. repeat split; set_solver. }
  assert (forall queue' seen', (length queue' + edges h (unseen h seen') < fuel)%nat ->
    (forall v, v ∈ queue' -> v ∈ queue \/ link h cur v) ->
    (forall v, v ∈ queue -> v ∈ queue') -> (forall w, link h cur w -> w ∈ queue') ->
    (forall v, in_seen seen' v -> in_seen seen v \/ v = cur) ->
    exists l, cons cur <$> unwrap fuel h queue' seen' = Some l
      /\ (forall v, v ∈ l -> exists u, u ∈ cur :: queue /\ rtc (link h) u v)
      /\ (forall v, v ∈ cur :: queue -> v ∈ l \/ in_seen seen v)
      /\ (forall v w, v ∈ l -> link h v w -> w ∈ l \/ in_seen seen w)) as Hstep.
  { intros queue' seen' Hm Hq Hq' Hl Hs.
    destruct (IH queue' seen' Hm) as (l & -> & H1 & H2 & H3). exists (cur :: l). split; [done|].
    assert (forall w, w ∈ l \/ in_seen seen' w -> w ∈ cur :: l \/ in_seen seen w) as Hw.
    { intros w [?|[?| ->]%Hs]; [left; by right|by right|left; by left]. }
    repeat split.
    - intros v [->|Hv]%elem_of_cons; [exists cur; split; [by left|done]|].
      destruct (H1 v Hv) as (u & [Hu|Hu]%Hq & Hr); [exists u; split; [by right|done]|].
      exists cur. split; [by left|]. by eapply rtc_l.
    - intros v [->|Hv]%elem_of_cons; [left; by left|]. apply Hw, H2. by apply Hq'.
    - intros v w [->|Hv]%elem_of_cons Hvw; apply Hw; [apply H2; by apply Hl|by eapply H3]. }
  simpl in Hf. destruct cur as [|t b|r].
  1, 2: apply Hstep; try done; [lia|by left|by left].
  case_bool_decide as Hr.
  - destruct (IH queue seen ltac:(lia)) as (l & -> & H1 & H2 & H3). exists l. split; [done|].
    repeat split; [|..|done].
    + intros v Hv. destruct (H1 v Hv) as (u & Hu & Hv'). exists u. split; [by right|done].
    + intros v [->|Hv]%elem_of_cons; [right; by exists r|by apply H2].
  - apply Hstep; simpl.
    + rewrite length_app. destruct (edges_unseen h seen r Hr) as [?|[-> ?]]; simpl; lia.
    + intros v [?|?]%elem_of_app; auto.
    + set_solver.
    + set_solver.
    + intros v (k & -> & [->|Hk]%elem_of_cons); [by right|]. left. by exists k.
Qed.

(** [unwrapErrors] ends and yields exactly the errors that can be reached. *)
Lemma unwrapErrors_spec h e :
  exists l, unwrapErrors h e = Some l /\ forall v, v ∈ l <-> rtc (link h) e v.
Proof.
  destruct (unwrap_spec h (edges h (seq 0 (length h)) + 2) [e] []) as (l & Hl & H1 & H2 & H3).
  { pose proof (edges_filter_le h (fun r => negb (bool_decide (r ∈ @nil nat))) (seq 0 (length h))).
    unfold unseen. cbn [length]. lia. }
  exists l. split; [exact Hl|]. intros v. split.
  - intros Hv. destruct (H1 v Hv) as (u & ->%list_elem_of_singleton & Hr). done.
  - assert (forall w, w ∈ l \/ in_seen [] w -> w ∈ l) as Hn.
    { intros w [?|(r & _ & Hr)]; [done|]. by apply not_elem_of_nil in Hr. }
    assert (e ∈ l) as He by (apply Hn, H2; by left).
    intros Hr. clear Hl H1 H2. induction Hr as [v|v w z Hvw Hr IH]; [done|]. apply IH. apply Hn. by eapply H3.
Qed.

Lemma first_retriable_spec h l :
  (forall v, v ∈ l -> v <> Nullish) ->
  exists b, first_retriable h l = inr b
    /\ (b = true <-> exists v, v ∈ l /\ looksRetriable h v = inr true).
Proof.
  induction l as [|x l IH]; intros Hn.
  { exists false. split; [done|]. split; [done|]. intros (v & Hv & _). by apply not_elem_of_nil in Hv. }
  destruct IH as (b & Hb & Hiff); [intros v Hv; apply Hn; by right|]. cbn [first_retriable].
  destruct (looksRetriable h x) as [e|[]] eqn:E.
  - exfalso. destruct x; simplify_eq/=. by apply (Hn Nullish); [left|].
  - exists true. split; [done|]. split; [|done]. intros _. exists x. split; [by left|done].
  - exists b. split; [done|]. rewrite Hiff. split.
    + intros (v & Hv & Hl). exists v. split; [by right|done].
    + intros (v & [->|Hv]%elem_of_cons & Hl); [congruence|]. by exists v.
Qed.

(** * Lemmas: the loop *)

Section loop.
Context {T E A : Type} (classify : E -> E + bool) (method : nat -> M T E A) (random : nat -> Q).

(** Calls [n] to [n' - 1] fail with errors that are retried. *)
Inductive retried : nat -> T -> nat -> T -> Prop :=
| retried_none n s : retried n s n s
| retried_one n s e s1 n' s' :
    method n s = (Throw e, s1) -> classify e = inr true -> retried (S n) s1 n' s' ->
    retried n s n' s'.

Lemma retried_snoc n s n' s' e s1 :
  retried n s n' s' -> method n' s' = (Throw e, s1) -> classify e = inr true -> retried n s (S n') s1.
Proof.
  intros Hr Hm Hc. induction Hr as [n s|n s e' s2 n' s' Hm' Hc' _ IH].
  - eapply retried_one; [done|done|constructor].
  - eapply retried_one; [done|done|by apply IH].
Qed.

(** Call [n] is the last one and ends with [o]. *)
Definition last_call (n : nat) (s : T) (o : outcome E A) (s' : T) : Prop :=
  match method n s with
  | (Ok a, s1) => o = Ok a /\ s' = s1
  | (Throw e, s1) =>
      s' = s1 /\ match classify e with
                 | inl e' => o = Throw e'
                 | inr false => o = Throw e
                 | inr true => False
                 end
  end.

(** The backoff before the random factor, in seconds *)
Fixpoint backoff_at (b : Q) (i : nat) : Q :=
  match i with O => b | S i' => backoff_at (Qmin (b * 2) maxBackoff) i' end.

Lemma dbRetry_loop_run fuel n n' b s s1 o s' :
  retried n s n' s1 -> last_call n' s1 o s' -> (n' < n + fuel)%nat ->
  exists waits, dbRetry_loop classify method random fuel n b s = Some (o, waits, s')
    /\ (n + length waits)%nat = n'
    /\ forall i w, waits !! i = Some w ->
         w = (backoff_at b i * ((1 # 2) + random (n + i)%nat) * 1000)%Q.
Proof.
  intros Hr Ho. revert fuel b. induction Hr as [n s|n s e s1 n' s2 Hm Hc Hr IH]; intros fuel b Hf;
    (destruct fuel as [|fuel]; [|cbn [dbRetry_loop]]).
  - lia.
  - exists []. unfold last_call in Ho. split; [|split; [simpl; lia|done]].
    destruct (method n s) as [[a|e] s1]; [by destruct Ho as [-> ->]|]. destruct Ho as [-> Ho].
    destruct (classify e) as [e'|[]]; by subst.
  - exfalso. assert (forall m x m' y, retried m x m' y -> (m <= m')%nat) as Hle.
    { intros m x m' y H. induction H; lia. } apply Hle in Hr. lia.
  - rewrite Hm, Hc. destruct (IH Ho fuel (Qmin (b * 2) maxBackoff) ltac:(lia)) as (ws & -> & Hl & Hw).
    eexists. split; [done|]. simpl. split; [lia|]. intros [|i] w Hi; simpl in Hi.
    + injection Hi as <-. by rewrite Nat.add_0_r.
    + rewrite (Hw i w Hi). by rewrite Nat.add_succ_r.
Qed.

Lemma backoff_bounds i b : (0 < b <= maxBackoff)%Q -> (b <= backoff_at b i <= maxBackoff)%Q.
Proof.
  revert b. induction i as [|i IH]; intros b [Hb Hm]; cbn [backoff_at]; [split; [apply Qle_refl|done]|].
  assert (b <= Qmin (b * 2) maxBackoff <= maxBackoff)%Q as [H1 H2].
  { split; [apply Q.min_glb; [lra|done]|apply Q.le_min_r]. }
  destruct (IH (Qmin (b * 2) maxBackoff)) as [H3 H4]; [split; lra|]. split; [lra|done].
Qed.
End loop.

(** * Properties *)

(** An error is retried exactly if one of the errors that it wraps, at any depth and however
    they refer to each other, looks like a lost connection; on any heap the search ends. *)
Theorem retriablePostgresException_exact (h : heap) (e : jsvalue) :
  exists res, retriablePostgresException h e = Some res
    /\ ((forall v, rtc (link h) e v -> v <> Nullish) ->
        exists b, res = inr b
          /\ (b = true <-> exists v, rtc (link h) e v /\ looksRetriable h v = inr true)).
Proof.
  destruct (unwrapErrors_spec h e) as (l & Hl & Hiff). unfold retriablePostgresException.
  rewrite Hl. eexists. split; [done|]. intros Hn.
  destruct (first_retriable_spec h l) as (b & Hb & Ht); [intros v Hv; by apply Hn, Hiff|].
  exists b. split; [done|]. rewrite Ht. split; intros (v & Hv & Hr); exists v; split; try done; by apply Hiff.
Qed.

(** The decorated method ends with its first call that does not fail with a retried error; it
    pauses once after each call before, for at least half of and less than one and a half times
    the backoff, which doubles from one second up to a minute. *)
Theorem dbRetry_first {T E A} (classify : E -> E + bool) (method : nat -> M T E A) (random : nat -> Q)
    (k fuel : nat) (s s1 s' : T) (o : outcome E A) :
  (forall n, (0 <= random n < 1)%Q) ->
  retried classify method 0 s k s1 -> last_call classify method k s1 o s' -> (k < fuel)%nat ->
  exists waits, dbRetry classify method random fuel s = Some (o, waits, s')
    /\ length waits = k
    /\ forall i w, waits !! i = Some w ->
         (500 * backoff_at initialBackoff i <= w < 1500 * backoff_at initialBackoff i
          /\ w < 90000)%Q.
Proof.
  intros Hrand Hr Ho Hf.
  destruct (dbRetry_loop_run classify method random fuel 0 k initialBackoff s s1 o s' Hr Ho Hf)
    as (ws & Hrun & Hl & Hw).
  exists ws. split; [exact Hrun|]. split; [done|]. intros i w Hi. rewrite (Hw i w Hi). simpl.
  destruct (backoff_bounds i initialBackoff) as [H1 H2]; [split; unfold initialBackoff, maxBackoff; lra|].
  destruct (Hrand i) as [H3 H4]. unfold initialBackoff, maxBackoff in *.
  set (b := backoff_at 1 i) in *. repeat split; nra.
Qed.

(** ** Lost acknowledgements *)

(** How a call of the operation [m] goes: it runs, its connection is lost before it takes
    effect, or after it committed; in between others work on the database. *)
Inductive attempt_kind : Type := Clean | LostBefore | LostAfter.

Definition flaky {A} (m : DB A) (lost : dbos_error) (world : nat -> sysdb -> sysdb)
    (kind : nat -> attempt_kind) (n : nat) : DB A := fun d =>
  let d := world n d in
  match kind n with
  | Clean => m d
  | LostBefore => (Throw lost, d)
  | LostAfter => (Throw lost, (m d).2)
  end.

(** A method that runs under the checkpoint of a step, as [send], [setEvent] and
    [writeStreamFromWorkflow] do: each call reads the clocks and draws its random values anew. *)
Section once.
Context (x fn id : string) (fid : Z) (func : nat -> DB (option string)) (st en : nat -> Z)
        (lost : dbos_error) (classify : dbos_error -> dbos_error + bool)
        (world : nat -> sysdb -> sysdb) (kind : nat -> attempt_kind) (random : nat -> Q).

Definition method_call (n : nat) : DB (option string) :=
  transaction (runAndRecordResult x fn id fid (func n) (st n) (en n)).

Definition calls (n : nat) : DB (option string) := flaky (method_call n) lost world kind n.

(** What the call [n] leaves, and the state before the work of others and then at the call *)
Definition after_call (n : nat) (d : sysdb) : sysdb :=
  match kind n with LostBefore => d | _ => (method_call n d).2 end.

Fixpoint before_call (n : nat) (s : sysdb) : sysdb :=
  match n with O => s | S n' => after_call n' (world n' (before_call n' s)) end.

Definition at_call (n : nat) (s : sysdb) : sysdb := world n (before_call n s).

(** The workflow may run the step; [ready] is what its function needs to succeed. *)
Context (ready : sysdb -> Prop).

Definition may_run (d : sysdb) : Prop := db_ok d /\ is_cancelled id d = false.

(** Others leave the checkpoint of the step to its workflow, and do not cancel the workflow. *)
Context (world_runs : forall n d, may_run d -> may_run (world n d))
        (world_checkpoint : forall n d, same_checkpoint id fid (world n d) d)
        (world_ready : forall n d, ready d -> ready (world n d))
        (func_preserves : forall n, preserves db_ok (func n))
        (func_runs : forall n d, db_ok d -> ready d -> exists out d',
           func n d = (Ok out, d') /\ same_checkpoint id fid d' d
           /\ wf_exists d' id /\ is_cancelled id d' = is_cancelled id d)
        (retried_lost : classify lost = inr true).

(** The step is still to be run; it has been run, with the output [out]. *)
Definition to_run (d : sysdb) : Prop :=
  may_run d /\ ready d /\ operation_outputs d !! (id, fid) = None.

Definition has_run (out : option string) (d : sysdb) : Prop :=
  may_run d /\ exists r, operation_outputs d !! (id, fid) = Some r
    /\ oo_output r = out /\ oo_function_name r = fn.

Lemma method_call_replays out n d : has_run out d -> method_call n d = (Ok out, d).
Proof.
  intros ([_ Hc] & r & Hr & <- & Hfn). unfold method_call, transaction.
  by rewrite (run_replay x fn id fid _ _ _ d r).
Qed.

Lemma method_call_runs n d :
  to_run d -> exists out d',
    func n d = (Ok out, d')
    /\ method_call n d = (Ok out, claimed x id (d' <| operation_outputs ::=
         <[(id, fid) := op_row_of fn (st n) (en n) (no_options <| op_output := out |>)]> |>))
    /\ has_run out (method_call n d).2.
Proof.
  intros ([Hd Hc] & Hrd & Hn). destruct (func_runs n d Hd Hrd) as (out & d' & Hf & Hs & Hw & Hc').
  pose proof (func_preserves n d Hd) as Hd'. rewrite Hf in Hd'. cbn [snd] in Hd'.
  unfold same_checkpoint in Hs. rewrite Hn in Hs.
  assert (method_call n d = (Ok out, claimed x id (d' <| operation_outputs ::=
            <[(id, fid) := op_row_of fn (st n) (en n) (no_options <| op_output := out |>)]> |>))) as E.
  { unfold method_call, transaction, runAndRecordResult, bind. rewrite getOperationResult_run, Hc, Hn. simpl.
    rewrite Hf. rewrite record_fresh; [done|apply Hd'|done|done]. }
  exists out, d'. split; [done|]. split; [exact E|].
  assert (preserves db_ok (method_call n)) as Hp by (unfold method_call; auto with preserves).
  pose proof (Hp d Hd) as Hok. rewrite E in Hok |- *. cbn [snd] in *.
  split; [split; [exact Hok|]|].
  - unfold is_cancelled in *. by rewrite claimed_status, <- Hc, <- Hc'.
  - eexists. split; [unfold claimed; simpl; apply lookup_insert_eq|]. by split.
Qed.
(** The first call that is not lost before it takes effect *)
Lemma first_effect k :
  kind k <> LostBefore ->
  exists j, (j <= k)%nat /\ kind j <> LostBefore /\ forall i, (i < j)%nat -> kind i = LostBefore.
Proof.
  assert ((exists j, (j <= k)%nat /\ kind j <> LostBefore /\ forall i, (i < j)%nat -> kind i = LostBefore)
          \/ forall i, (i <= k)%nat -> kind i = LostBefore) as [?|H]; [|done|intros Hk; by rewrite H in Hk].
  induction k as [|k [(j & Hj & ?)|IH]].
  - destruct (kind 0) eqn:E; [left; exists 0%nat|right|left; exists 0%nat];
      try (split; [lia|]; split; [by rewrite E|lia]). intros i Hi. by assert (i = 0%nat) as -> by lia.
  - left. exists j. split; [lia|done].
  - destruct (kind (S k)) eqn:E; [left; exists (S k)|right|left; exists (S k)];
      try (split; [lia|]; split; [by rewrite E|intros i Hi; apply IH; lia]).
    intros i Hi. destruct (decide (i = S k)) as [->|]; [done|]. apply IH. lia.
Qed.

(** Until a call takes effect the step is still to be run. *)
Lemma to_run_until j s :
  to_run s -> (forall i, (i < j)%nat -> kind i = LostBefore) -> to_run (at_call j s).
Proof.
  assert (forall n d, to_run d -> to_run (world n d)) as Hw.
  { intros n d (Hm & Hr & Hn). split; [by apply world_runs|]. split; [by apply world_ready|].
    by rewrite (world_checkpoint n d). }
  intros Hs. induction j as [|j IH]; intros Hlost; [by apply Hw|].
  unfold at_call. cbn [before_call]. apply Hw. unfold after_call. rewrite Hlost by lia.
  apply IH. intros i Hi. apply Hlost. lia.
Qed.

(** From then on each call replays it. *)
Lemma has_run_from out j i s :
  (j < i)%nat -> kind j <> LostBefore -> has_run out (method_call j (at_call j s)).2 ->
  has_run out (at_call i s).
Proof.
  assert (forall n d, has_run out d -> has_run out (world n d)) as Hw.
  { intros n d (Hm & r & Hr & He). split; [by apply world_runs|]. exists r. by rewrite (world_checkpoint n d). }
  intros Hj Hk Ha. induction Hj as [|i Hj IH]; unfold at_call; cbn [before_call]; apply Hw; unfold after_call.
  - by destruct (kind j).
  - fold (at_call i s). destruct (kind i); [|done|]; by rewrite (method_call_replays out) .
Qed.

(** The calls that lose their connection are retried. *)
Lemma calls_retried k s :
  (forall i, (i < k)%nat -> kind i <> Clean) -> retried classify calls 0 s k (before_call k s).
Proof.
  induction k as [|k IH]; intros Hk; [constructor|].
  eapply retried_snoc; [apply IH; intros i Hi; apply Hk; lia| |exact retried_lost].
  unfold calls, flaky. cbn [before_call]. unfold after_call. specialize (Hk k ltac:(lia)).
  by destruct (kind k).
Qed.

(** C24: A method that runs under the checkpoint of a step is safe to retry: whatever calls lose their
    connection, before or after their commit, and whatever others do in between, its function takes
    effect in exactly one of the calls - the first one that is not lost before its commit -, whose
    output the retried method returns.  The calls before that one change nothing, and those after it
    find the checkpoint and change nothing either, although each draws its random values anew. *)
Theorem dbRetry_exactly_once (k fuel : nat) (s : sysdb) :
  to_run s -> (forall i, (i < k)%nat -> kind i <> Clean) -> kind k = Clean -> (k < fuel)%nat ->
  exists j out d' waits,
    (j <= k)%nat /\ kind j <> LostBefore
    /\ (forall i, (i < j)%nat -> after_call i (at_call i s) = at_call i s)
    /\ func j (at_call j s) = (Ok out, d')
    /\ after_call j (at_call j s) = claimed x id (d' <| operation_outputs ::=
         <[(id, fid) := op_row_of fn (st j) (en j) (no_options <| op_output := out |>)]> |>)
    /\ (forall i, (j < i)%nat -> method_call i (at_call i s) = (Ok out, at_call i s))
    /\ dbRetry classify calls random fuel s = Some (Ok out, waits, after_call k (at_call k s)).
Proof.
  intros Hs Hfail Hk Hf.
  destruct (first_effect k) as (j & Hj & Hkind & Hlost); [by rewrite Hk|].
  pose proof (to_run_until j s Hs Hlost) as Hto.
  destruct (method_call_runs j _ Hto) as (out & d' & Hfunc & Hatt & Hrun).
  assert (forall i, (j < i)%nat -> method_call i (at_call i s) = (Ok out, at_call i s)) as Hafter.
  { intros i Hi. by apply method_call_replays, (has_run_from out j). }
  assert (last_call classify calls k (before_call k s) (Ok out) (after_call k (at_call k s))) as Hlast.
  { unfold last_call, calls, flaky, after_call. rewrite Hk. fold (at_call k s).
    destruct (decide (j = k)) as [->|Hne]; [by rewrite Hatt|]. by rewrite Hafter by lia. }
  destruct (dbRetry_loop_run classify calls random fuel 0 k initialBackoff s _ (Ok out) _
    (calls_retried k s Hfail) Hlast Hf) as (ws & Hrun' & _).
  exists j, out, d', ws. split; [done|]. split; [done|]. split.
  { intros i Hi. unfold after_call. by rewrite Hlost. }
  split; [done|]. split; [|by split].
  unfold after_call. destruct (kind j); [|done|]; by rewrite Hatt.
Qed.
End once.

(** * Witnesses and examples *)

(** Two errors that are each other's cause, the second one a refused connection *)
Definition ex_heap : heap :=
  [ ObjectOf true None (Some "Error: query failed") (Some "query failed") "Error: query failed" None (Ref 1) Nullish;
    ObjectOf true (Some "ECONNREFUSED") None (Some "connect") "Error: connect" None (Ref 0) Nullish ].

Example ex_cyclic : retriablePostgresException ex_heap (Ref 0) = Some (inr true).
Proof. vm_compute. reflexivity. Qed.

Lemma retriablePostgresException_exact_witness :
  exists v, rtc (link ex_heap) (Ref 0) v /\ looksRetriable ex_heap v = inr true.
Proof.
  destruct (retriablePostgresException_exact ex_heap (Ref 0)) as (res & Hres & H).
  assert (Some res = Some (inr true)) as E by (rewrite <- Hres; vm_compute; reflexivity).
  injection E as ->. destruct H as (b & Hb & Ht); [|injection Hb as <-; by apply Ht].
  intros v Hv. assert (v = Ref 0 \/ v = Ref 1) as [-> | ->]; [|discriminate|discriminate].
  assert (forall u w, rtc (link ex_heap) u w -> u = Ref 0 \/ u = Ref 1 -> w = Ref 0 \/ w = Ref 1) as Hinv.
  { intros u w Hr. induction Hr as [|u x w Hl _ IH]; [done|]. intros [-> | ->]; apply IH;
      apply list_elem_of_singleton in Hl; rewrite Hl; auto. }
  by apply (Hinv (Ref 0)); [|left].
Defined.

Definition connection_lost : dbos_error := DatabaseError "08006".
Definition ex_classify (e : dbos_error) : dbos_error + bool :=
  inr (match e with DatabaseError c => sqlStateLooksRetryable (Some c) | _ => false end).

(** The first call commits and its acknowledgement is lost, the second call succeeds. *)
Definition ex_lost_ack (n : nat) : attempt_kind := match n with O => LostAfter | _ => Clean end.

Definition ex_record : DB unit :=
  recordOperationResult "exec-a" "wf-1" 0 "charge" true 10 20 (no_options <| op_output := Some "7" |>).

Lemma dbRetry_first_witness :
  exists waits s', dbRetry ex_classify (flaky ex_record connection_lost (fun _ d => d) ex_lost_ack)
      (fun _ => 1 # 2)%Q 5 ex_db = Some (Ok tt, waits, s') /\ length waits = 1%nat.
Proof.
  set (d1 := (ex_record ex_db).2).
  destruct (dbRetry_first ex_classify (flaky ex_record connection_lost (fun _ d => d) ex_lost_ack)
    (fun _ => 1 # 2)%Q 1 5 ex_db d1 d1 (Ok tt)) as (ws & H & Hl & _).
  - intros _. split; vm_compute; [discriminate|reflexivity].
  - eapply retried_one; [reflexivity|vm_compute; reflexivity|constructor].
  - vm_compute. split; reflexivity.
  - lia.
  - exists ws, d1. split; [exact H|exact Hl].
Defined.

(** A message to [wf-1]: each call draws an ID of its own. *)
Definition ex_insert (n : nat) : DB (option string) :=
  insert_notification 50 (message_uuid None "wf-1" (nth n ["u-1"; "u-2"] "")) "wf-1" nullTopic
    (Some "hi") None ;* ret None.

Definition ex_calls : nat -> DB (option string) :=
  calls "exec-a" DBOS_FUNCNAME_SEND "wf-1" 0 ex_insert (fun _ => 50) (fun _ => 51) connection_lost
    (fun _ d => d) ex_lost_ack.

Definition ex_destination (d : sysdb) : Prop := wf_exists d "wf-1".

Lemma ex_insert_runs n d :
  ex_destination d -> exists out d',
    ex_insert n d = (Ok out, d') /\ same_checkpoint "wf-1" 0 d' d /\ wf_exists d' "wf-1"
    /\ is_cancelled "wf-1" d' = is_cancelled "wf-1" d.
Proof.
  intros [r Hr]. unfold ex_insert, bind, insert_notification.
  destruct (notifications d !! _); [exists None, d; split; [done|]; split; [done|]; split; [by exists r|done]|].
  unfold bind, require_workflow. rewrite Hr. eexists _, _. split; [reflexivity|].
  split; [done|]. split; [by exists r|done].
Qed.

(** The first call commits, its acknowledgement is lost, and the second call answers from the
    checkpoint: the message arrives once. *)
Lemma dbRetry_exactly_once_witness :
  exists waits d1, dbRetry ex_classify ex_calls (fun _ => 1 # 2)%Q 5 ex_db = Some (Ok None, waits, d1)
    /\ map (fun m => nt_message m.2) (pending_messages "wf-1" nullTopic d1) = [Some "hi"].
Proof.
  destruct (dbRetry_exactly_once "exec-a" DBOS_FUNCNAME_SEND "wf-1" 0 ex_insert (fun _ => 50) (fun _ => 51)
    connection_lost ex_classify (fun _ d => d) ex_lost_ack (fun _ => 1 # 2)%Q ex_destination)
    with (k := 1%nat) (fuel := 5%nat) (s := ex_db) as (j & out & d' & ws & _ & _ & _ & _ & _ & _ & H).
  - done.
  - done.
  - done.
  - intros n. unfold ex_insert. auto with preserves.
  - intros n d _. apply ex_insert_runs.
  - vm_compute. reflexivity.
  - split; [split; [exact ex_db_ok|reflexivity]|]. split; [eexists; apply ex_lookup|reflexivity].
  - intros i Hi. assert (i = O) as -> by lia. discriminate.
  - reflexivity.
  - lia.
  - assert (out = None) as -> by (vm_compute in H; by injection H as H _).
    exists ws. eexists. split; [exact H|vm_compute; reflexivity].
Defined.

(** A message that is sent without an idempotency key draws its ID inside the retried method:
    when the acknowledgement of the first call is lost, the message arrives twice. *)
Example sendDirect_retry_duplicates :
  let send n := flaky (sendDirect (nth n ["u-1"; "u-2"] "") 50 "wf-1" (Some "hi") None None None)
                  connection_lost (fun _ d => d) ex_lost_ack n in
  (fun r => (r.1.1, map (fun m => nt_message m.2) (pending_messages "wf-1" nullTopic r.2)))
    <$> dbRetry ex_classify send (fun _ => 1 # 2)%Q 5 ex_db
  = Some (Ok tt, [Some "hi"; Some "hi"]).
Proof. vm_compute. reflexivity. Qed.

(** So does a value that a step writes to a stream. *)
Example writeStreamFromStep_retry_duplicates :
  let write := flaky (writeStreamFromStep "wf-1" 5 "s" "a" None) connection_lost
                 (fun _ d => d) ex_lost_ack in
  (fun r => (r.1.1, (readStreamValue "wf-1" "s" 0 r.2).2, (readStreamValue "wf-1" "s" 1 r.2).2))
    <$> dbRetry ex_classify write (fun _ => 1 # 2)%Q 5 ex_db
  = Some (Ok tt, Some ("a", None), Some ("a", None)).
Proof. vm_compute. reflexivity. Qed.
