(* ===== verification/ContextOptions.v ===== *)
(** Contexts as the objects that they are: the [with...] methods of dbos.ts
    ([withNextWorkflowID], [withAuthedContext], [withWorkflowQueue], [withWorkflowTimeout],
    [runWithContext]), which set fields of the current context for the time of a callback, and
    the functions of context.ts that make a new context.

    An object is a finite map from the names of its own properties to values; a property may be
    there and hold [undefined]. *)

From S2P Require Export Errors Json.

Open Scope Z_scope.

(** * Data *)

(** The values of the fields of [DBOSContextOptions] and [DBOSLocalCtx] *)
Inductive ctx_value : Type :=
| CUndefined
| CNull
| CNumber (z : Z)
| CString (s : string)
| CStrings (l : list string)
| CObject (j : json).

Notation ctx_object := (gmap string ctx_value).

(** A computation in the scope of a context: the object is shared, so what the computation
    assigns to it stays. *)
Definition XM (A : Type) : Type := M ctx_object dbos_error A.

(** [for (const k of Object.keys(options))]: the keys, with their values *)
Definition entries (options : ctx_object) : list (string * ctx_value) := map_to_list options.

(** * Operations *)

(** The first loop of [#withTopContext]: what the context had is kept in [existing], and the
    options are assigned. *)
Fixpoint save_and_assign (options : list (string * ctx_value)) (existing pctx : ctx_object)
    : ctx_object * ctx_object :=
  match options with
  | [] => (existing, pctx)
  | (k, v) :: rest =>
      let existing := match pctx !! k with Some old => <[k := old]> existing | None => existing end in
      save_and_assign rest existing (<[k := v]> pctx)
  end.

(** The loop of its [finally] *)
Fixpoint restore (options : list (string * ctx_value)) (existing pctx : ctx_object) : ctx_object :=
  match options with
  | [] => pctx
  | (k, _) :: rest =>
      restore rest existing
        (match existing !! k with Some old => <[k := old]> pctx | None => delete k pctx end)
  end.

(** [#withTopContext]; without a current context the options are the context. *)
Definition withTopContext {A} (options : ctx_object) (callback : XM A)
    (current : option ctx_object) : outcome dbos_error A * option ctx_object :=
  match current with
  | Some pctx =>
      let (existing, pctx1) := save_and_assign (entries options) ∅ pctx in
      let (o, pctx2) := callback pctx1 in
      (o, Some (restore (entries options) existing pctx2))
  | None => ((callback options).1, None)
  end.

(** The methods, each with the options it sets *)
Definition withNextWorkflowID {A} (workflowID : string) : XM A -> option ctx_object -> _ :=
  withTopContext {[ "idAssignedForNextWorkflow" := CString workflowID ]}.

Definition withAuthedContext {A} (authedUser : string) (authedRoles : list string)
    : XM A -> option ctx_object -> _ :=
  withTopContext (<["authenticatedUser" := CString authedUser]>
                    {[ "authenticatedRoles" := CStrings authedRoles ]}).

Definition withNamedContext {A} (callerName : string) : XM A -> option ctx_object -> _ :=
  withTopContext {[ "operationCaller" := CString callerName ]}.

Definition withWorkflowQueue {A} (queueName : string) : XM A -> option ctx_object -> _ :=
  withTopContext {[ "queueAssignedForWorkflows" := CString queueName ]}.

Definition withWorkflowTimeout {A} (timeoutMS : option Z) : XM A -> option ctx_object -> _ :=
  withTopContext {[ "workflowTimeoutMS" := match timeoutMS with Some t => CNumber t | None => CNull end ]}.

(** [runWithParentContext]: [{...pctx, ...ctx, parentCtx: pctx}]; the callback runs in this new
    object, and what it assigns is not seen outside. *)
Definition runWithParentContext {A} (ctx : ctx_object) (callback : XM A) : XM A := fun pctx =>
  ((callback (delete "parentCtx" (ctx ∪ pctx))).1, pctx).

(** [getNextWFID] on the object *)
Definition nextWFID (assignedID : option string) : XM (option string) := fun pctx =>
  match truthy_str assignedID with
  | Some id => (Ok (Some id), pctx)
  | None =>
      match pctx !! "idAssignedForNextWorkflow" with
      | Some (CString id) =>
          match truthy_str (Some id) with
          | Some id => (Ok (Some id), <["idAssignedForNextWorkflow" := CUndefined]> pctx)
          | None => (Ok assignedID, pctx)
          end
      | _ => (Ok assignedID, pctx)
      end
  end.

(** ** Interleaving

    The callback awaits, and other code with the same context runs meanwhile.  A run is a
    sequence of events on the shared object: a block of [#withTopContext] is entered or left,
    or code of some block assigns a field.  A block is known by a number. *)

Inductive ctx_event : Type :=
| Enter (block : nat) (options : ctx_object)
| Leave (block : nat)
| Assign (k : string) (v : ctx_value).

Record ctx_state : Type := CtxState {
  shared : ctx_object;
  open_blocks : gmap nat (ctx_object * ctx_object)
}.

Definition ctx_step (e : ctx_event) (s : ctx_state) : ctx_state :=
  match e with
  | Enter b options =>
      let (existing, pctx) := save_and_assign (entries options) ∅ (shared s) in
      CtxState pctx (<[b := (options, existing)]> (open_blocks s))
  | Leave b =>
      match open_blocks s !! b with
      | Some (options, existing) =>
          CtxState (restore (entries options) existing (shared s)) (delete b (open_blocks s))
      | None => s
      end
  | Assign k v => CtxState (<[k := v]> (shared s)) (open_blocks s)
  end.

Fixpoint ctx_run (es : list ctx_event) (s : ctx_state) : ctx_state :=
  match es with [] => s | e :: es' => ctx_run es' (ctx_step e s) end.

(** Blocks that are left in the opposite order of their entry, and the code in them *)
Inductive nested : list ctx_event -> Prop :=
| nested_nil : nested []
| nested_block b options body rest :
    nested body -> nested rest -> (forall o, Enter b o ∉ body) ->
    nested (Enter b options :: body ++ Leave b :: rest).

(** * Lemmas *)

Lemma save_and_assign_lookup options existing pctx :
  NoDup options.*1 ->
  let '(existing', pctx') := save_and_assign options existing pctx in
  (forall k, existing' !! k = if decide (k ∈ options.*1)
                              then match pctx !! k with Some v => Some v | None => existing !! k end
                              else existing !! k)
  /\ (forall k, pctx' !! k = match (list_to_map options : ctx_object) !! k with
                             | Some v => Some v
                             | None => pctx !! k
                             end).
Proof.
  revert existing pctx. induction options as [|[k0 v0] rest IH]; intros existing pctx; simpl.
  { intros _. by split. }
  intros [Hk0 Hrest]%NoDup_cons.
  specialize (IH (match pctx !! k0 with Some old => <[k0 := old]> existing | None => existing end)
                (<[k0 := v0]> pctx) Hrest).
  destruct (save_and_assign rest _ _) as [existing' pctx']. destruct IH as [He Hp]. split.
  - intros k. rewrite He. destruct (decide (k = k0)) as [->|Hne].
    + rewrite decide_False by done. rewrite (decide_True (P := k0 ∈ _)) by set_solver.
      destruct (pctx !! k0); [by rewrite lookup_insert_eq|done].
    + rewrite lookup_insert_ne by done.
      destruct (decide (k ∈ rest.*1)).
      * rewrite (decide_True (P := k ∈ k0 :: _)) by set_solver.
        destruct (pctx !! k); [done|]. by destruct (pctx !! k0); rewrite ?lookup_insert_ne by done.
      * rewrite (decide_False (P := k ∈ k0 :: _)) by set_solver.
        by destruct (pctx !! k0); rewrite ?lookup_insert_ne by done.
  - intros k. rewrite Hp. destruct (decide (k = k0)) as [->|Hne].
    + rewrite !lookup_insert_eq. by rewrite not_elem_of_list_to_map_1.
    + by rewrite !lookup_insert_ne by done.
Qed.

Lemma restore_lookup options existing pctx k :
  restore options existing pctx !! k
  = if decide (k ∈ options.*1) then existing !! k else pctx !! k.
Proof.
  revert pctx. induction options as [|[k0 v0] rest IH]; intros pctx; simpl; [done|].
  rewrite IH. destruct (decide (k = k0)) as [->|Hne].
  - rewrite (decide_True (P := k0 ∈ k0 :: _)) by set_solver. destruct (decide _); [done|].
    destruct (existing !! k0); [by rewrite lookup_insert_eq|by rewrite lookup_delete_eq].
  - destruct (decide (k ∈ rest.*1)).
    + by rewrite (decide_True (P := k ∈ k0 :: _)) by set_solver.
    + rewrite (decide_False (P := k ∈ k0 :: _)) by set_solver.
      by destruct (existing !! k0); rewrite ?lookup_insert_ne, ?lookup_delete_ne by done.
Qed.

Lemma entries_keys options k : k ∈ (entries options).*1 <-> is_Some (options !! k).
Proof.
  unfold entries. rewrite list_elem_of_fmap. split.
  - intros ([k' v] & -> & Hin). apply elem_of_map_to_list in Hin. eauto.
  - intros [v Hv]. exists (k, v). split; [done|]. by apply elem_of_map_to_list.
Qed.

(** Entering and leaving around code that turned the object [pctx1] into [pctx2] *)
Lemma enter_lookup options pctx :
  let '(existing, pctx1) := save_and_assign (entries options) ∅ pctx in
  pctx1 = options ∪ pctx
  /\ forall pctx2 k, restore (entries options) existing pctx2 !! k
                     = if decide (is_Some (options !! k)) then pctx !! k else pctx2 !! k.
Proof.
  pose proof (save_and_assign_lookup (entries options) ∅ pctx (NoDup_fst_map_to_list options)) as H.
  destruct (save_and_assign _ _ _) as [existing pctx1]. destruct H as [He Hp]. split.
  - apply map_eq. intros k. rewrite Hp. unfold entries. rewrite list_to_map_to_list.
    rewrite lookup_union. by destruct (options !! k), (pctx !! k).
  - intros pctx2 k. rewrite restore_lookup. destruct (decide (k ∈ _)) as [Hk|Hk].
    + rewrite decide_True by by apply entries_keys. rewrite He, decide_True by done.
      destruct (pctx !! k); [done|apply lookup_empty].
    + by rewrite decide_False by by rewrite <- entries_keys.
Qed.

(** A block whose body leaves each key outside of some set as it was *)
Lemma nested_restores es s k :
  nested es -> shared (ctx_run es s) !! k = shared s !! k
  /\ forall b, (forall o, Enter b o ∉ es) -> open_blocks (ctx_run es s) !! b = open_blocks s !! b.
Proof.
  assert (forall es1 es2 s, ctx_run (es1 ++ es2) s = ctx_run es2 (ctx_run es1 s)) as Happ.
  { induction es1 as [|e es1 IH]; intros es2 s1; [done|]. simpl. apply IH. }
  intros Hn. revert s. induction Hn as [|b options body rest Hb IHb Hr IHr Hfresh]; intros s; [done|].
  simpl. pose proof (enter_lookup options (shared s)) as He.
  destruct (save_and_assign (entries options) ∅ (shared s)) as [existing pctx1].
  destruct He as [Hp1 Hrest]. rewrite Happ. cbn [ctx_run]. cbn [ctx_step].
  set (s1 := CtxState pctx1 (<[b := (options, existing)]> (open_blocks s))).
  destruct (IHb s1) as [Hk Hblocks]. rewrite (Hblocks b Hfresh).
  simpl. rewrite lookup_insert_eq. simpl. split.
  - rewrite (proj1 (IHr _)). simpl. rewrite Hrest. rewrite Hk. simpl. rewrite Hp1.
    destruct (decide (is_Some (options !! k))) as [|Hno]; [done|].
    rewrite lookup_union. apply eq_None_not_Some in Hno. rewrite Hno.
    by destruct (shared s !! k).
  - intros b' Hb'. assert (b' <> b) as Hne by (intros ->; apply (Hb' options); set_solver).
    rewrite (proj2 (IHr _)); simpl.
    + rewrite lookup_delete_ne by done. rewrite Hblocks.
      * simpl. by rewrite lookup_insert_ne.
      * intros o Ho. apply (Hb' o). set_solver.
    + intros o Ho. apply (Hb' o). set_solver.
Qed.

(** * Theorems *)

(** A block sets exactly its options for its callback, and when it ends - by returning or by
    throwing - the fields it set have the value, or the absence, that they had before, whatever
    the callback assigned to them; the callback's assignments to other fields stay.  Without a
    context the callback has the options alone.  Any blocks of the same context that are
    properly nested leave the context as it was. *)
Theorem withTopContext_restores {A} (options pctx : ctx_object) (callback : XM A) :
  let (o, after) := withTopContext options callback (Some pctx) in
  let (o', inside) := callback (options ∪ pctx) in
  o = o'
  /\ (exists pctx', after = Some pctx'
      /\ forall k, pctx' !! k = if decide (is_Some (options !! k)) then pctx !! k else inside !! k)
  /\ withTopContext options callback None = ((callback options).1, None)
  /\ forall es blocks, nested es -> shared (ctx_run es (CtxState pctx blocks)) = pctx.
Proof.
  unfold withTopContext at 1. pose proof (enter_lookup options pctx) as He.
  destruct (save_and_assign (entries options) ∅ pctx) as [existing pctx1]. destruct He as [-> Hrest].
  destruct (callback (options ∪ pctx)) as [o' inside]. split; [done|]. split.
  - eexists. split; [done|]. intros k. apply Hrest.
  - split; [done|]. intros es blocks Hn. apply map_eq. intros k.
    by apply (nested_restores es (CtxState pctx blocks) k).
Qed.

(** The ID set for the next workflow is used by one workflow only, and is gone after the block. *)
Lemma next_id_once pctx id :
  id <> "" ->
  withNextWorkflowID id (let* a := nextWFID None in let* b := nextWFID None in ret (a, b)) (Some pctx)
  = (Ok (Some id, None), Some pctx).
Proof.
  intros Hid. unfold withNextWorkflowID, withTopContext.
  pose proof (enter_lookup {[ "idAssignedForNextWorkflow" := CString id ]} pctx) as He.
  destruct (save_and_assign _ ∅ pctx) as [existing pctx1]. destruct He as [-> Hrest].
  unfold bind, nextWFID, ret. cbn [truthy_str].
  rewrite lookup_union_l' by (rewrite lookup_singleton_eq; eauto). rewrite lookup_singleton_eq.
  destruct id as [|c id]; [done|]. cbn [truthy_str]. rewrite lookup_insert_eq. f_equal. f_equal.
  apply map_eq. intros k. rewrite Hrest.
  destruct (decide (k = "idAssignedForNextWorkflow")) as [->|Hne].
  - rewrite decide_True; [done|]. rewrite lookup_singleton_eq. eauto.
  - rewrite decide_False by (rewrite lookup_singleton_ne by done; by intros []).
    rewrite lookup_insert_ne by done. rewrite lookup_union, lookup_singleton_ne by done.
    by destruct (pctx !! k).
Qed.

(** Blocks of one context that overlap without nesting, as the blocks of a [Promise.all] do,
    leave a field of the first block behind: the second block keeps as existing what the first
    one set, and puts it back when the first one is over.  While both are open the first one
    runs with the options of the second. *)
Lemma overlapping_blocks_leak pctx k (v w : ctx_value) :
  let during := ctx_run [Enter 0 {[ k := v ]}; Enter 1 {[ k := w ]}]%nat (CtxState pctx ∅) in
  let after := ctx_run [Leave 0; Leave 1]%nat during in
  shared during !! k = Some w /\ open_blocks after = ∅ /\ shared after !! k = Some v.
Proof.
  simpl. pose proof (enter_lookup {[ k := v ]} pctx) as He.
  destruct (save_and_assign (entries {[ k := v ]}) ∅ pctx) as [e1 p1]. destruct He as [-> Hr1]. simpl.
  pose proof (enter_lookup {[ k := w ]} ({[ k := v ]} ∪ pctx)) as He.
  destruct (save_and_assign (entries {[ k := w ]}) ∅ _) as [e2 p2]. destruct He as [-> Hr2]. simpl.
  rewrite lookup_insert_ne, lookup_insert_eq by done. simpl.
  rewrite lookup_delete_ne, lookup_insert_eq by done. simpl.
  split; [by rewrite lookup_union_l' ; rewrite lookup_singleton_eq; eauto|]. split.
  - apply map_eq. intros b. rewrite lookup_empty.
    destruct (decide (b = 1%nat)) as [->|Hb]; [apply lookup_delete_eq|].
    rewrite lookup_delete_ne by done. destruct (decide (b = 0%nat)) as [->|Hb0]; [apply lookup_delete_eq|].
    rewrite lookup_delete_ne by done. by rewrite !lookup_insert_ne.
  - rewrite Hr2. rewrite decide_True by (rewrite lookup_singleton_eq; eauto).
    rewrite lookup_union_l' by (rewrite lookup_singleton_eq; eauto). apply lookup_singleton_eq.
Qed.

(** * Witnesses *)

(** A block in a block, with an assignment inside *)
Lemma withTopContext_restores_witness :
  shared (ctx_run [Enter 0 {[ "a" := CNull ]}; Enter 1 {[ "a" := CNumber 1 ]}; Leave 1; Leave 0]%nat
            (CtxState {[ "a" := CString "x" ]} ∅)) = {[ "a" := CString "x" ]}.
Proof.
  destruct (withTopContext_restores ∅ {[ "a" := CString "x" ]} (ret tt)) as (_ & _ & _ & H).
  apply H.
  apply (nested_block 0%nat _ [Enter 1%nat {[ "a" := CNumber 1 ]}; Leave 1%nat] []).
  - apply (nested_block 1%nat _ [] []); [apply nested_nil|apply nested_nil|].
    intros o Ho. by apply elem_of_nil in Ho.
  - apply nested_nil.
  - intros o Ho. apply elem_of_cons in Ho as [Ho|Ho]; [discriminate|].
    apply elem_of_cons in Ho as [Ho|Ho]; [discriminate|]. by apply elem_of_nil in Ho.
Defined.
