(* ===== verification/Start.v ===== *)
(** Starting workflows and steps through the interface of dbos.ts: [DBOS.startWorkflow]
    ([#invokeWorkflow]), the return-existing policy ([#invokeSingletonWorkflow]), the wrappers
    of registered workflows and steps, and [DBOS.runStep].

    What a call does before its first await runs in the context of the caller and without
    interruption: there it draws its function IDs.  The rest works on the state of the
    executor. *)

From Stdlib Require Import Ascii.
From stdpp Require Import pretty.
From S2P Require Export Await Executor Queues Debounce.

Open Scope Z_scope.

(** * Data *)

Definition DBOS_QUEUE_MIN_PRIORITY : Z := 1.
Definition DBOS_QUEUE_MAX_PRIORITY : Z := 2 ^ 31 - 1.

(** [StartWorkflowParams], with its [enqueueOptions] spread out; [timeoutMS] tells [null] from
    [undefined]; the delay is in milliseconds. *)
Record StartParams : Type := StartParamsOf {
  st_workflowID : option string;
  st_queueName : option string;
  st_timeoutMS : option (option Z);
  st_deduplicationID : option string;
  st_priority : option Z;
  st_queuePartitionKey : option string;
  st_applicationVersion : option string;
  st_delayMS : option Z;
  st_returnExisting : bool;
  st_attributes : attributes;
  st_debounceDeadlineEpochMS : option Z;
  st_isDebounced : bool
}.

#[export] Instance StartParams_eta : Eta StartParams := fun p =>
  StartParamsOf (st_workflowID p) (st_queueName p) (st_timeoutMS p) (st_deduplicationID p)
    (st_priority p) (st_queuePartitionKey p) (st_applicationVersion p) (st_delayMS p)
    (st_returnExisting p) (st_attributes p) (st_debounceDeadlineEpochMS p) (st_isDebounced p).

(** The fields of the caller's context that a start reads and does not change *)
Record CallerOptions : Type := CallerOptionsOf {
  co_queueAssignedForWorkflows : option string;
  co_workflowTimeoutMS : option (option Z);
  co_deadlineEpochMS : option Z;
  co_context : CallerContext
}.

(** [this] of the call: nothing or a class, a [ConfiguredInstance] with its name, or another
    object *)
Inductive this_object : Type := Static | Configured (name : string) | Unconfigured.

(** A computation in the context of the caller that goes on to the executor *)
Definition AX (A : Type) : Type := M (DBOSLocalCtx * exec_state) dbos_error A.

Definition in_ctx {A} (m : CM A) : AX A := fun s => let (o, c) := m s.1 in (o, (c, s.2)).

Definition in_exec {A} (m : EX A) : AX A := fun s => let (o, st) := m s.2 in (o, (s.1, st)).

(** * Validation *)

(** [Array.prototype.join] with a comma and a space *)
Fixpoint join_comma (l : list string) : string :=
  match l with [] => "" | [s] => s | s :: l' => s +:+ ", " +:+ join_comma l' end.

(** [a && b] on strings, as a condition *)
Definition both (a b : option string) : bool :=
  bool_decide (is_Some (truthy_str a)) && bool_decide (is_Some (truthy_str b)).

(** The validation of the options of an enqueued start; [queues] is [wfQueuesByName]. *)
Definition enqueue_error (queues : gmap string WorkflowQueue) (queueName : string) (p : StartParams)
    : option dbos_error :=
  let partition := truthy_str (st_queuePartitionKey p) in
  if match st_priority p with
     | Some n => (n <? DBOS_QUEUE_MIN_PRIORITY) || (DBOS_QUEUE_MAX_PRIORITY <? n)
     | None => false
     end
  then Some (DBOSInvalidQueuePriorityError (default 0 (st_priority p)) DBOS_QUEUE_MIN_PRIORITY
               DBOS_QUEUE_MAX_PRIORITY)
  else if both (st_queuePartitionKey p) (st_deduplicationID p)
  then Some (JsError "Deduplication is not supported for partitioned queues")
  else match queues !! queueName with
       | None => None
       | Some q =>
           if wq_partitionQueue q && negb (bool_decide (is_Some partition))
           then Some (JsError ("A workflow cannot be enqueued on partitioned queue " +:+ queueName
                               +:+ " without a partition key"))
           else if bool_decide (is_Some partition) && negb (wq_partitionQueue q)
           then Some (JsError ("You can only use a partition key on a partition-enabled queue. Key "
                  +:+ default "" partition +:+ " was used with non-partitioned queue " +:+ queueName))
           else if bool_decide (is_Some (st_priority p)) && negb (wq_priorityEnabled q)
           then Some (JsError ("Priority is not enabled for queue " +:+ queueName
                               +:+ ". Setting priority will not have any effect."))
           else None
       end.

(** The options that only mean something on a queue, set on a start that has none *)
Definition stray_options (p : StartParams) : list string :=
  (if bool_decide (is_Some (st_deduplicationID p)) then ["deduplicationID"] else [])
  ++ (if bool_decide (is_Some (st_priority p)) then ["priority"] else [])
  ++ (if bool_decide (is_Some (st_queuePartitionKey p)) then ["queuePartitionKey"] else [])
  ++ (if bool_decide (is_Some (st_delayMS p)) then ["delaySeconds"] else []).

Definition options_error (queues : gmap string WorkflowQueue) (queueName : option string)
    (p : StartParams) : option dbos_error :=
  match truthy_str queueName with
  | Some q => enqueue_error queues q p
  | None =>
      match stray_options p with
      | [] => None
      | set => Some (DBOSError ("Enqueue option(s) " +:+ join_comma set
          +:+ " set on a workflow that is not being enqueued. These options are only supported when enqueueing a workflow onto a queue."))
      end
  end.

(** * Starting a workflow *)

Section start.
Context {Args : Type}
        (serializeArgs : Args -> option string -> string * option string)
        (serializeError : dbos_error -> string)
        (deserializeResError : string -> option string -> dbos_error)
        (serializerName executorID appVersion appID : string)
        (queues : gmap string WorkflowQueue).

Notation internalWorkflow :=
  (internalWorkflow serializeArgs serializeError deserializeResError serializerName executorID
     appVersion appID).

(** [queueName] and [timeoutMS] of a start *)
Definition start_queue (p : StartParams) (co : CallerOptions) : option string :=
  match st_queueName p with Some q => Some q | None => co_queueAssignedForWorkflows co end.

Definition start_timeout (p : StartParams) (co : CallerOptions) : option Z :=
  match st_timeoutMS p with Some (Some t) => Some t | _ => default None (co_workflowTimeoutMS co) end.

(** [wfParams]; [child] is the workflow of the caller with the function ID of the call. *)
Definition start_params (this : this_object) (p : StartParams) (co : CallerOptions)
    (wfId : option string) (child : option (string * Z)) : InternalWorkflowParams :=
  no_params
    <| iw_workflowUUID := match truthy_str wfId, child with
                          | Some id, _ => Some id
                          | None, Some (pwfid, f) => Some (pwfid +:+ "-" +:+ pretty f)
                          | None, None => wfId
                          end |>
    <| iw_configName := match this with Configured n => n | _ => "" end |>
    <| iw_queueName := start_queue p co |>
    <| iw_timeoutMS := start_timeout p co |>
    <| iw_deadlineEpochMS :=
         match child with
         | None => None
         | Some _ =>
             if opt_eqb (st_timeoutMS p) (Some None) || opt_eqb (co_workflowTimeoutMS co) (Some None)
             then None else co_deadlineEpochMS co
         end |>
    <| iw_applicationVersion := st_applicationVersion p |>
    <| iw_deduplicationID := st_deduplicationID p |>
    <| iw_priority := st_priority p |>
    <| iw_queuePartitionKey := st_queuePartitionKey p |>
    <| iw_delayMS := st_delayMS p |>
    <| iw_returnExisting := st_returnExisting p |>
    <| iw_debounceDeadlineEpochMS := st_debounceDeadlineEpochMS p |>
    <| iw_isDebounced := st_isDebounced p |>
    <| iw_workflowAttributes := attributes_json (st_attributes p) |>.

(** [invokeRegOp], with [startStepTempWF] *)
Definition invokeRegOp (reg : Registration) (params : InternalWorkflowParams)
    (callerID : option string) (callerFunctionID : option Z) (args : Args) (ctx : CallerContext)
    (rd : StartReadings) : EX WorkflowHandle :=
  if bool_decide (is_Some (rg_workflowConfig reg))
  then internalWorkflow reg params callerID callerFunctionID args ctx rd
  else if bool_decide (is_Some (rg_stepConfig reg))
  then internalWorkflow (RegistrationOf tempWorkflowName "" None None)
         (params <| iw_tempWfType := Some "step" |> <| iw_tempWfName := Some (rg_name reg) |>
                 <| iw_tempWfClass := Some (rg_className reg) |>)
         callerID callerFunctionID args ctx rd
  else throw (DBOSNotRegisteredError (rg_name reg)
         (Some (rg_name reg +:+ " is not a registered DBOS workflow, step, or transaction function"))).

(** The first part of [#invokeWorkflow]: the checks, the workflow ID, the function ID. *)
Definition prepare_start (this : this_object) (p : StartParams) (startWfFuncId : option Z)
    (co : CallerOptions) : CM (InternalWorkflowParams * option (string * Z)) :=
  match validateWorkflowAttributes (st_attributes p) with
  | Some e => throw e
  | None =>
      let* wfId := getNextWFID (st_workflowID p) in
      match this with
      | Unconfigured =>
          throw (DBOSInvalidWorkflowTransitionError (Some
            "Attempt to call a `workflow` function on an object that is not a `ConfiguredInstance`"))
      | _ =>
          let* c := get in
          if isWithinWorkflowCtx c && negb (isInWorkflow c) then
            throw (DBOSInvalidWorkflowTransitionError (Some
              "Invalid call to a `workflow` function from within a `step` or `transaction`"))
          else
            let* child := match cx_workflowId c, startWfFuncId with
                          | None, _ => ret None
                          | Some pwfid, Some f => ret (Some (pwfid, f))
                          | Some pwfid, None =>
                              let* f := functionIDGetIncrement in ret (Some (pwfid, f))
                          end in
            match options_error queues (start_queue p co) p with
            | Some e => throw e
            | None => ret (start_params this p co wfId child, child)
            end
      end
  end.

(** [#invokeWorkflow] *)
Definition invokeWorkflow (this : this_object) (reg : Registration) (args : Args) (p : StartParams)
    (startWfFuncId : option Z) (co : CallerOptions) (rd : StartReadings) : AX WorkflowHandle :=
  let* prepared := in_ctx (prepare_start this p startWfFuncId co) in
  in_exec (invokeRegOp reg prepared.1 (fst <$> prepared.2) (snd <$> prepared.2) args
             (co_context co) rd).

(** What one round of the loop of [#invokeSingletonWorkflow] meets: the readings of the start,
    and what others do before the lookup and before the next round *)
Record Round : Type := RoundOf {
  ro_readings : StartReadings;
  ro_lookup : DBOSLocalCtx * exec_state -> DBOSLocalCtx * exec_state;
  ro_next : DBOSLocalCtx * exec_state -> DBOSLocalCtx * exec_state
}.

(** The loop: [None] when it still tries after the given rounds *)
Fixpoint singleton_loop (this : this_object) (reg : Registration) (args : Args) (p : StartParams)
    (childFuncId : option Z) (co : CallerOptions) (queueName dedupID : string) (rounds : list Round)
    : AX (option WorkflowHandle) :=
  match rounds with
  | [] => ret None
  | r :: rounds' =>
      try_catch
        (let* h := invokeWorkflow this reg args p childFuncId co (ro_readings r) in ret (Some h))
        (fun e =>
           match e with
           | DBOSQueueDuplicatedError _ _ _ =>
               (fun s => (Ok tt, ro_lookup r s)) ;*
               let* s := get (S := DBOSLocalCtx * exec_state) in
               match truthy_str (getDeduplicatedWorkflow queueName dedupID s.2.1) with
               | Some existingID =>
                   match childFuncId with
                   | Some f =>
                       in_exec (record_child executorID (Some (default "" (cx_workflowId s.1)))
                                  (Some f) (rg_name reg) existingID (ro_readings r))
                   | None => ret tt
                   end ;*
                   ret (Some (RetrievedHandle (Some existingID)))
               | None =>
                   (fun s => (Ok tt, ro_next r s)) ;*
                   singleton_loop this reg args p childFuncId co queueName dedupID rounds'
               end
           | _ => throw e
           end)
  end.

(** [#invokeSingletonWorkflow] *)
Definition invokeSingletonWorkflow (this : this_object) (reg : Registration) (args : Args)
    (p : StartParams) (co : CallerOptions) (rounds : list Round) : AX (option WorkflowHandle) :=
  match truthy_str (st_queueName p), truthy_str (st_deduplicationID p) with
  | None, _ => throw (DBOSInvalidWorkflowTransitionError (Some
                 "`duplicationPolicy: 'return-existing'` requires a `queueName`"))
  | Some _, None => throw (DBOSInvalidWorkflowTransitionError (Some
                 "`duplicationPolicy: 'return-existing'` requires `enqueueOptions.deduplicationID`"))
  | Some queueName, Some dedupID =>
      let* s := get (S := DBOSLocalCtx * exec_state) in
      let* childFuncId := if isInWorkflow s.1
                          then let* f := in_ctx functionIDGetIncrement in ret (Some f)
                          else ret None in
      let* resolved := in_ctx (getNextWFID (st_workflowID p)) in
      let callParams := match resolved with
                        | Some _ => p <| st_workflowID := resolved |>
                        | None => p
                        end in
      singleton_loop this reg args callParams childFuncId co queueName dedupID rounds
  end.

(** [DBOS.startWorkflow(...)(...)] *)
Definition startWorkflow (this : this_object) (reg : Registration) (args : Args) (p : StartParams)
    (co : CallerOptions) (rounds : list Round) : AX (option WorkflowHandle) :=
  if st_returnExisting p then invokeSingletonWorkflow this reg args p co rounds
  else match rounds with
       | [] => ret None
       | r :: _ => let* h := invokeWorkflow this reg args p None co (ro_readings r) in ret (Some h)
       end.

(** The wrapper of a registered workflow: a direct call.  [get_result] is [handle.getResult] with
    the function ID it is given. *)
Definition call_workflow (this : this_object) (reg : Registration) (args : Args)
    (co : CallerOptions) (rd : StartReadings)
    (get_result : WorkflowHandle -> option Z -> AX (option string)) : AX (option string) :=
  let p := StartParamsOf None None None None None None None None false NoAttributes None false in
  let* s := get (S := DBOSLocalCtx * exec_state) in
  if isInWorkflow s.1 then
    let* startWfFuncId := in_ctx functionIDGetIncrement in
    let* getResFuncID := in_ctx functionIDGetIncrement in
    let* handle := invokeWorkflow this reg args p (Some startWfFuncId) co rd in
    get_result handle (Some getResFuncID)
  else
    let* handle := invokeWorkflow this reg args p None co rd in
    get_result handle None.

(** ** Steps *)

(** How a call of a step runs: as it is, as the step with the given ID of the workflow, or, for
    a decorated method, in a workflow of its own with the given ID. *)
Inductive step_call : Type :=
| CallDirect
| CallStep (functionID : Z)
| CallTemp (workflowID : option string).

(** The wrapper of a decorated step; [config] is the configuration of its registration. *)
Definition step_invoker (this : this_object) (config : option StepConfig) (name : string)
    : CM step_call :=
  match this with
  | Unconfigured =>
      throw (DBOSInvalidWorkflowTransitionError (Some
        "Attempt to call a `step` function on an object that is not a `ConfiguredInstance`"))
  | _ =>
      let* c := get in
      if isWithinWorkflowCtx c then
        if isInTransaction c then
          throw (DBOSInvalidWorkflowTransitionError (Some
            "Invalid call to a `step` function from within a `transaction`"))
        else if isInStep c then ret CallDirect
        else match config with
             | None => throw (DBOSNotRegisteredError name None)
             | Some config =>
                 match validateStepConfig config name with
                 | Some e => throw e
                 | None => let* f := functionIDGetIncrement in ret (CallStep f)
                 end
             end
      else let* wfId := getNextWFID None in ret (CallTemp wfId)
  end.

(** The wrapper [registerStep] makes, and [DBOS.runStep]: [what] is how its message names the
    call. *)
Definition plain_step_invoker (what : string) (config : StepConfig) (name : string) : CM step_call :=
  let* c := get in
  if isWithinWorkflowCtx c then
    if isInTransaction c then
      throw (DBOSInvalidWorkflowTransitionError (Some ("Invalid call to " +:+ what)))
    else if isInStep c then ret CallDirect
    else match validateStepConfig config name with
         | Some e => throw e
         | None => let* f := functionIDGetIncrement in ret (CallStep f)
         end
  else
    let* wfId := getNextWFID None in
    match truthy_str wfId with
    | Some _ => throw (DBOSInvalidWorkflowTransitionError (Some ("Invalid call to step '" +:+ name
                  +:+ "' outside of a workflow; with directive to start a workflow.")))
    | None => ret CallDirect
    end.

Definition registerStep_invoker : StepConfig -> string -> CM step_call :=
  plain_step_invoker "a `step` function from within a `transaction`".

Definition runStep_invoker : StepConfig -> string -> CM step_call :=
  plain_step_invoker "a runStep from within a `transaction`".

(** * Lemmas *)

(** The checkpoint [f] of the workflow [c] holds the child [id]. *)
Definition child_recorded (c : string) (f : Z) (id : string) (d : sysdb) : Prop :=
  exists r, operation_outputs d !! (c, f) = Some r
            /\ oo_child_workflow_id r = Some id /\ oo_error r = None.

Lemma record_child_spec c f name id rd st o st' :
  db_ok st.1 -> operation_outputs st.1 !! (c, f) = None ->
  record_child executorID (Some c) (Some f) name id rd st = (o, st') ->
  match o with
  | Ok _ => child_recorded c f id st'.1
  | Throw e => e = foreign_key_violation /\ st' = st
  end.
Proof.
  intros Hd Hn. unfold record_child, recordOperationResult. rewrite on_sys_run.
  destruct (recordOperationResultInternal _ _ _ _ _ _ _ _ st.1) as [[[]|e] d'] eqn:E;
    intros H; simpl in H; injection H as <- <-.
  - apply record_ok_row in E as [Hr _]; [|done|done]. eexists. split; [exact Hr|by split].
  - destruct (workflow_status st.1 !! c) as [r|] eqn:Hr.
    + rewrite record_fresh in E; [done|by destruct Hd|done|by eexists].
    + rewrite record_missing in E by done. injection E as <- <-. split; [done|by destruct st].
Qed.

Lemma child_recorded_check c f id st :
  is_cancelled c st.1 = false -> child_recorded c f id st.1 ->
  child_checkpoint deserializeResError (Some c) (Some f) st
  = (Ok (Some (RetrievedHandle (Some id))), st).
Proof. intros Hc (r & Hr & <- & He). by apply child_checkpoint_replay. Qed.

(** A start at a checkpoint that is not there, under the return-existing policy: it writes the
    checkpoint of the child it started, or none. *)
Lemma start_outcome wf params c f args ctx rd st o st' :
  db_ok st.1 -> operation_outputs st.1 !! (c, f) = None -> iw_returnExisting params = true ->
  internalWorkflow wf params (Some c) (Some f) args ctx rd st = (o, st') ->
  match o with
  | Ok h => exists id, handle_id h = Some id /\ child_recorded c f id st'.1
  | Throw e => db_ok st'.1 /\ operation_outputs st'.1 !! (c, f) = None
  end.
Proof.
  intros Hd Hn Hpol Hrun.
  destruct (is_cancelled c st.1) eqn:Hc.
  { unfold Executor.internalWorkflow in Hrun. destruct (wf_config wf params); [|by injection Hrun as <- <-].
    unfold bind at 1 in Hrun. rewrite child_checkpoint_fresh, Hc in Hrun by done. by injection Hrun as <- <-. }
  assert (child_checkpoint deserializeResError (Some c) (Some f) st = (Ok None, st)) as Hchk
    by by rewrite child_checkpoint_fresh, Hc.
  destruct o as [h|e].
  - destruct (internalWorkflow_inv _ _ _ _ _ _ _ _ _ _ _ _ _ _ _ _ _ Hchk Hrun)
      as (config & ires & d1 & d2 & _ & Hinit & Hrec & -> & Hh).
    destruct (init_keeps _ _ _ _ _ _ _ _ _ _ Hd Hinit) as [Hd1 Ho].
    eexists. split; [|refine (record_child_spec _ _ _ _ _ _ _ _ _ _ Hrec); [done|simpl; by rewrite Ho]].
    destruct (_ && _ && _); by destruct Hh as [-> _].
  - unfold Executor.internalWorkflow in Hrun.
    destruct (wf_config wf params) as [config|]; [|by injection Hrun as <- <-].
    unfold bind at 1 in Hrun. rewrite Hchk in Hrun. unfold bind at 1, try_catch in Hrun.
    rewrite on_sys_run in Hrun.
    destruct (initWorkflowStatus _ _ _ _ _ _ _ st.1) as [[ires|e1] d1] eqn:Hinit; cbn [fst snd] in Hrun;
      destruct (init_keeps _ _ _ _ _ _ _ _ _ _ Hd Hinit) as [Hd1 Ho].
    + unfold bind at 1 in Hrun.
      destruct (record_child _ _ _ _ _ _ (d1, st.2)) as [[[]|e2] st2] eqn:Hrec;
        [destruct (_ && _ && _); done|]. injection Hrun as <- <-.
      apply record_child_spec in Hrec as [_ ->]; simpl; by rewrite ?Ho.
    + assert (record_dedup_error serializeError serializerName executorID (Some c) (Some f)
                (iw_returnExisting params)
                (i_workflowName (internal_status serializeArgs executorID appVersion appID wf params (Some c) args ctx rd))
                rd e1 = ret tt) as Hno.
      { rewrite Hpol. unfold record_dedup_error.
        by destruct e1, (truthy_str (Some c)), (truthy_num (Some f)). }
      rewrite Hno in Hrun. injection Hrun as _ <-. simpl. by rewrite Ho.
Qed.

(** The same at the interface *)
Lemma invokeRegOp_outcome reg params c f args ctx rd st o st' :
  db_ok st.1 -> operation_outputs st.1 !! (c, f) = None -> iw_returnExisting params = true ->
  invokeRegOp reg params (Some c) (Some f) args ctx rd st = (o, st') ->
  match o with
  | Ok h => exists id, handle_id h = Some id /\ child_recorded c f id st'.1
  | Throw e => db_ok st'.1 /\ operation_outputs st'.1 !! (c, f) = None
  end.
Proof.
  intros Hd Hn Hp. unfold invokeRegOp. repeat case_bool_decide.
  - by apply start_outcome.
  - by apply start_outcome.
  - intros H'. by injection H' as <- <-.
Qed.

Definition registered (reg : Registration) : Prop :=
  is_Some (rg_workflowConfig reg) \/ is_Some (rg_stepConfig reg).

(** A recorded child is what a start at its checkpoint returns. *)
Lemma invokeRegOp_replay reg params c f args ctx rd st id :
  registered reg -> iw_tempWfType params = None -> rg_name reg <> tempWorkflowName ->
  is_cancelled c st.1 = false -> child_recorded c f id st.1 ->
  invokeRegOp reg params (Some c) (Some f) args ctx rd st = (Ok (RetrievedHandle (Some id)), st).
Proof.
  intros Hreg Ht Hname Hc Hr. unfold invokeRegOp. repeat case_bool_decide.
  - unfold Executor.internalWorkflow. unfold wf_config, isTempWorkflow. rewrite Ht.
    rewrite bool_decide_false by done. rewrite bool_decide_false by (by intros []).
    destruct (rg_workflowConfig reg) as [cfg|]; [|by destruct H as []].
    unfold bind. cbn [orb]. by rewrite child_recorded_check with (id := id).
  - unfold Executor.internalWorkflow. unfold wf_config, isTempWorkflow.
    rewrite bool_decide_true by done. unfold bind. cbn [orb].
    by rewrite child_recorded_check with (id := id).
  - by destruct Hreg.
Qed.

(** What a start that got through its checks has found and drawn, at a function ID it was given *)
Lemma prepare_start_inv this p f co c parent params child c' :
  cx_workflowId c = Some parent ->
  prepare_start this p (Some f) co c = (Ok (params, child), c') ->
  exists wfId, getNextWFID (st_workflowID p) c = (Ok wfId, c')
    /\ child = Some (parent, f) /\ params = start_params this p co wfId child
    /\ validateWorkflowAttributes (st_attributes p) = None /\ this <> Unconfigured
    /\ isInWorkflow c' = true /\ options_error queues (start_queue p co) p = None.
Proof.
  intros Hp. unfold prepare_start. destruct (validateWorkflowAttributes _); [done|]. unfold bind at 1.
  assert (exists wfId, getNextWFID (st_workflowID p) c = (Ok wfId, (getNextWFID (st_workflowID p) c).2)
            /\ cx_workflowId (getNextWFID (st_workflowID p) c).2 = Some parent) as (wfId & E & Hp').
  { unfold getNextWFID. destruct (truthy_str (st_workflowID p)); [by eexists|].
    destruct (truthy_str (cx_idAssignedForNextWorkflow c)); by eexists. }
  destruct (getNextWFID (st_workflowID p) c) as [o c1]. simpl in *. injection E as ->.
  destruct this; [| |done]; unfold bind at 1, get;
    unfold isWithinWorkflowCtx; rewrite Hp', bool_decide_true by eauto; cbn [andb];
    destruct (isInWorkflow c1) eqn:Hin; cbn [negb]; [|done| |done];
    unfold bind, ret; destruct (options_error _ _ _) eqn:Ho; [done| |done|];
    intros [= <- <- <-]; exists wfId; done.
Qed.

Lemma getNextWFID_ctx a c : exists wfId, getNextWFID a c = (Ok wfId, (getNextWFID a c).2)
  /\ cx_workflowId (getNextWFID a c).2 = cx_workflowId c
  /\ isInWorkflow (getNextWFID a c).2 = isInWorkflow c
  /\ cx_curWFFunctionId (getNextWFID a c).2 = cx_curWFFunctionId c.
Proof.
  unfold getNextWFID. destruct (truthy_str a); [by eexists|].
  destruct (truthy_str (cx_idAssignedForNextWorkflow c)); by eexists.
Qed.

Lemma prepare_start_workflow this p f co c :
  cx_workflowId (prepare_start this p (Some f) co c).2 = cx_workflowId c.
Proof.
  unfold prepare_start. destruct (validateWorkflowAttributes _); [done|]. unfold bind at 1.
  destruct (getNextWFID_ctx (st_workflowID p) c) as (wfId & E & Hw & _). rewrite E.
  destruct this; [| |done]; unfold bind at 1, get; destruct (_ && _); try done;
    unfold bind, ret; destruct (options_error queues (start_queue p co) p);
    destruct (cx_workflowId (getNextWFID (st_workflowID p) c).2) eqn:Ew; cbn; congruence.
Qed.

Lemma invokeWorkflow_outcome this reg args p c f co rd s o s' :
  cx_workflowId s.1 = Some c -> db_ok s.2.1 -> operation_outputs s.2.1 !! (c, f) = None ->
  st_returnExisting p = true -> invokeWorkflow this reg args p (Some f) co rd s = (o, s') ->
  cx_workflowId s'.1 = Some c
  /\ match o with
     | Ok h => exists id, handle_id h = Some id /\ child_recorded c f id s'.2.1
     | Throw e => db_ok s'.2.1 /\ operation_outputs s'.2.1 !! (c, f) = None
     end.
Proof.
  destruct s as [c0 st]. cbn [fst snd]. intros Hc Hd Hn Hp. unfold invokeWorkflow, bind, in_ctx.
  cbn [fst snd]. pose proof (prepare_start_workflow this p f co c0) as Hw.
  destruct (prepare_start this p (Some f) co c0) as [[[params child]|e] c'] eqn:E;
    simpl in Hw; [|intros [= <- <-]; simpl; by rewrite Hw].
  destruct (prepare_start_inv _ _ _ _ _ _ _ _ _ Hc E) as (wfId & _ & -> & -> & _).
  unfold in_exec. cbn [fst snd fmap option_fmap option_map].
  destruct (invokeRegOp _ _ _ _ _ _ _ st) as [o' st'] eqn:Er.
  intros [= <- <-]. simpl. rewrite Hw. split; [done|].
  refine (invokeRegOp_outcome _ _ _ _ _ _ _ _ _ _ Hd Hn _ Er). done.
Qed.

(** What others do in a round: they leave the caller's context in its workflow, the database
    well formed and the reserved checkpoint alone. *)
Definition tame (c : string) (f : Z) (w : DBOSLocalCtx * exec_state -> DBOSLocalCtx * exec_state)
    : Prop := forall s,
  cx_workflowId s.1 = Some c -> db_ok s.2.1 ->
  cx_workflowId (w s).1 = Some c /\ db_ok (w s).2.1 /\ same_checkpoint c f s.2.1 (w s).2.1.

Definition tame_round (c : string) (f : Z) (r : Round) : Prop :=
  tame c f (ro_lookup r) /\ tame c f (ro_next r).

Lemma singleton_loop_spec this reg args p c f co q k rounds : forall s h s',
  st_returnExisting p = true -> Forall (tame_round c f) rounds ->
  cx_workflowId s.1 = Some c -> db_ok s.2.1 -> operation_outputs s.2.1 !! (c, f) = None ->
  singleton_loop this reg args p (Some f) co q k rounds s = (Ok (Some h), s') ->
  exists id, handle_id h = Some id /\ child_recorded c f id s'.2.1.
Proof.
  induction rounds as [|r rounds IH]; intros s h s' Hp Ht Hc Hd Hn; [done|].
  apply Forall_cons in Ht as [[Hl Hx] Ht]. cbn [singleton_loop]. unfold try_catch, bind at 1.
  destruct (invokeWorkflow this reg args p (Some f) co (ro_readings r) s) as [[h1|e] s1] eqn:E;
    destruct (invokeWorkflow_outcome _ _ _ _ _ _ _ _ _ _ _ Hc Hd Hn Hp E) as [Hc1 H1].
  { intros [= <- <-]. exact H1. }
  destruct H1 as [Hd1 Hn1]. destruct e; try done. unfold bind at 1.
  destruct (Hl s1 Hc1 Hd1) as (Hc2 & Hd2 & Hs2). assert (Hn2 := eq_trans (eq_sym Hs2) Hn1).
  unfold bind at 1, get. destruct (truthy_str _) as [id|].
  - unfold bind, in_exec. rewrite Hc2. cbn [default from_option]. unfold Datatypes.id.
    destruct (record_child executorID (Some c) (Some f) (rg_name reg) id (ro_readings r)
                (ro_lookup r s1).2) as [[[]|e] st'] eqn:Er; [|done]. intros [= <- <-].
    exists id. split; [done|]. by eapply record_child_spec in Er.
  - unfold bind at 1. destruct (Hx _ Hc2 Hd2) as (Hc3 & Hd3 & Hs3).
    apply IH; try done. exact (eq_trans (eq_sym Hs3) Hn2).
Qed.

Lemma increment_ctx c :
  isInWorkflow c = true ->
  functionIDGetIncrement c
  = (Ok (default 0 (cx_curWFFunctionId c)),
     c <| cx_curWFFunctionId := Some (default 0 (cx_curWFFunctionId c) + 1) |>).
Proof.
  unfold isInWorkflow, isInTransaction, isInStep, functionIDGetIncrement, isInWorkflowCtx, isInStepCtx, isInTxnCtx.
  destruct (isWithinWorkflowCtx c); [|done].
  by destruct (cx_curStepFunctionId c), (cx_curTxFunctionId c).
Qed.

(** The checks do not throw the error of a deduplicated start. *)
Definition is_dup (e : dbos_error) : bool :=
  match e with DBOSQueueDuplicatedError _ _ _ => true | _ => false end.

Lemma options_not_dup q p e : options_error queues q p = Some e -> is_dup e = false.
Proof.
  unfold options_error, enqueue_error. repeat case_match; intros; by simplify_eq/=.
Qed.

Lemma prepare_not_dup this p f co c e c' :
  prepare_start this p (Some f) co c = (Throw e, c') -> is_dup e = false.
Proof.
  unfold prepare_start. destruct (validateWorkflowAttributes _) as [e0|] eqn:Ev.
  { intros [= <- _]. unfold validateWorkflowAttributes in Ev. repeat case_match; by simplify_eq/=. }
  unfold bind at 1. destruct (getNextWFID_ctx (st_workflowID p) c) as (wfId & E & _). rewrite E.
  destruct this; [| |by intros [= <- _]]; unfold bind at 1, get; destruct (_ && _);
    try (by intros [= <- _]); unfold bind, ret;
    destruct (cx_workflowId (getNextWFID (st_workflowID p) c).2); cbn [fst snd];
    destruct (options_error queues (start_queue p co) p) as [e1|] eqn:Ho; try done;
    intros [= <- _]; by apply options_not_dup in Ho.
Qed.

(** A loop that returns a handle got through its checks in the first round. *)
Lemma singleton_prepared this reg args p f co q k rounds s h s' :
  singleton_loop this reg args p (Some f) co q k rounds s = (Ok (Some h), s') ->
  exists prepared c', prepare_start this p (Some f) co s.1 = (Ok prepared, c').
Proof.
  destruct rounds as [|r rounds]; [done|]. cbn [singleton_loop]. unfold try_catch, bind at 1.
  unfold invokeWorkflow, bind at 1, in_ctx. destruct s as [c st]. cbn [fst snd].
  destruct (prepare_start this p (Some f) co c) as [[prepared|e] c'] eqn:E; [by eauto|].
  apply prepare_not_dup in E. by destruct e.
Qed.

Lemma prepare_start_ok this p f co co2 c parent prepared c' :
  is_Some (st_queueName p) -> cx_workflowId c = Some parent ->
  prepare_start this p (Some f) co c = (Ok prepared, c') ->
  exists params, prepare_start this p (Some f) co2 c = (Ok (params, Some (parent, f)), c')
                 /\ iw_tempWfType params = None.
Proof.
  intros [q Hq] Hp. destruct prepared as [params child]. intros E.
  destruct (prepare_start_inv _ _ _ _ _ _ _ _ _ Hp E) as (wfId & Hid & _ & _ & Hv & Ht & Hin & Ho).
  unfold prepare_start. rewrite Hv. unfold bind at 1. rewrite Hid.
  destruct (getNextWFID_ctx (st_workflowID p) c) as (wfId' & _ & Hw & _). rewrite Hid in Hw.
  cbn [snd] in Hw. unfold start_queue in *. rewrite Hq in *.
  exists (start_params this p co2 wfId (Some (parent, f))).
  destruct this; [| |done]; unfold bind at 1, get; rewrite Hin, andb_false_r;
    unfold bind, ret; rewrite Hw, Hp, Ho; done.
Qed.

(** * Theorems *)

(** Under the return-existing policy, whatever rounds it takes and whatever others do meanwhile,
    a start in a workflow draws one function ID, and when it returns a handle - of the workflow
    it started, or of the one that holds the deduplication ID - the workflow's checkpoint at that
    ID names this workflow: every later execution of the call returns a handle of the same
    workflow in its first round, draws one ID too, and changes nothing. *)
Theorem singleton_stable this reg args p co rounds parent c st h s' :
  st_returnExisting p = true -> cx_workflowId c = Some parent -> isInWorkflow c = true ->
  registered reg -> rg_name reg <> tempWorkflowName ->
  let f := default 0 (cx_curWFFunctionId c) in
  db_ok st.1 -> operation_outputs st.1 !! (parent, f) = None -> Forall (tame_round parent f) rounds ->
  startWorkflow this reg args p co rounds (c, st) = (Ok (Some h), s') ->
  exists id, handle_id h = Some id /\ child_recorded parent f id s'.2.1
  /\ forall args2 co2 r2 rounds2 st2,
       is_cancelled parent st2.1 = false -> same_checkpoint parent f s'.2.1 st2.1 ->
       exists c2, cx_curWFFunctionId c2 = Some (f + 1)
         /\ startWorkflow this reg args2 p co2 (r2 :: rounds2) (c, st2)
            = (Ok (Some (RetrievedHandle (Some id))), (c2, st2)).
Proof.
  intros Hpol Hp Hin Hreg Hname f Hd Hn Ht. unfold startWorkflow. rewrite Hpol.
  unfold invokeSingletonWorkflow. destruct (truthy_str (st_queueName p)) as [q|] eqn:Hq; [|done].
  destruct (truthy_str (st_deduplicationID p)) as [k|]; [|done].
  assert (is_Some (st_queueName p)) as Hqs by (destruct (st_queueName p); [eauto|done]).
  unfold bind at 1, get. cbn [fst]. rewrite Hin. unfold bind at 1, bind at 1, in_ctx at 1.
  cbn [fst snd]. rewrite increment_ctx by done. fold f. unfold ret at 1.
  set (c1 := c <| cx_curWFFunctionId := Some (f + 1) |>).
  assert (cx_workflowId c1 = Some parent) as Hp1 by done.
  unfold bind at 1, in_ctx at 1. cbn [fst snd].
  destruct (getNextWFID_ctx (st_workflowID p) c1) as (wfId & E & Hw2 & _ & Hf2). rewrite E.
  set (c2 := (getNextWFID (st_workflowID p) c1).2) in *. rewrite Hp1 in Hw2.
  set (p' := match wfId with Some _ => p <| st_workflowID := wfId |> | None => p end).
  assert (st_returnExisting p' = true /\ is_Some (st_queueName p')) as [Hpol' Hq']
    by (unfold p'; by destruct wfId).
  intros Hrun. destruct (singleton_prepared _ _ _ _ _ _ _ _ _ _ _ _ Hrun) as (prep & c3 & Hprep).
  destruct (singleton_loop_spec _ _ _ _ _ _ _ _ _ _ (c2, st) _ _ Hpol' Ht Hw2 Hd Hn Hrun) as (id & Hh & Hrec).
  exists id. split; [done|]. split; [done|]. intros args2 co2 r2 rounds2 st2 Hc2 Hs2.
  destruct (prepare_start_ok _ _ _ _ co2 _ _ _ _ Hq' Hw2 Hprep) as (params & Hprep2 & Htw).
  exists c3. split.
  { destruct prep as [? ?]. destruct (prepare_start_inv _ _ _ _ _ _ _ _ _ Hw2 Hprep) as (? & Hid & _).
    pose proof (getNextWFID_ctx (st_workflowID p') c2) as (? & _ & _ & _ & Hf3).
    rewrite Hid in Hf3. cbn [snd] in Hf3. by rewrite Hf3, Hf2. }
  unfold bind at 1. cbn [fst snd]. rewrite Hin. unfold bind at 1, bind at 1, in_ctx at 1.
  cbn [fst snd]. rewrite increment_ctx by done. fold f. unfold ret at 1. fold c1.
  unfold bind at 1, in_ctx at 1. cbn [fst snd]. rewrite E. fold c2. fold p'.
  cbn [singleton_loop]. unfold try_catch, bind at 1, invokeWorkflow, bind at 1, in_ctx. cbn [fst snd].
  rewrite Hprep2. unfold in_exec. cbn [fst snd fmap option_fmap option_map].
  destruct Hrec as (r & Hr & Hrid & Hre). unfold same_checkpoint in Hs2. rewrite Hr in Hs2.
  rewrite (invokeRegOp_replay reg params parent f args2 _ _ st2 id); try done.
  exists r. by split.
Qed.

End start.

(** * Witnesses *)

Lemma tame_id c f : tame c f (fun s => s).
Proof. by intros s Hc Hd. Qed.

(** The workflow [wf-1] enqueues [ship] under a deduplication ID, in its first call. *)
Definition ex_start_params : StartParams :=
  StartParamsOf None (Some "shipping") None (Some "order-1") None None None None true NoAttributes None false.

Definition ex_caller : CallerOptions := CallerOptionsOf None None None ex_ctx.

Definition ex_round : Round := RoundOf ex_readings (fun s => s) (fun s => s).

Definition ex_singleton (args : string) (st : exec_state)
    : outcome dbos_error (option WorkflowHandle) * (DBOSLocalCtx * exec_state) :=
  startWorkflow ex_args ex_ser ex_deser "js_superjson" "exec-1" "v1" "" ∅ Static ex_child args
    ex_start_params ex_caller [ex_round] (workflow_ctx "wf-1" (Some 3), st).

Lemma ex_singleton_run :
  ex_singleton "[1]" ex_state
  = (Ok (Some (RetrievedHandle (Some "wf-1-3"))), (ex_singleton "[1]" ex_state).2).
Proof. vm_compute. reflexivity. Qed.

Lemma singleton_stable_witness :
  exists id c2,
    ex_singleton "[2]" (ex_singleton "[1]" ex_state).2.2
    = (Ok (Some (RetrievedHandle (Some id))), (c2, (ex_singleton "[1]" ex_state).2.2)).
Proof.
  destruct (singleton_stable ex_args ex_ser ex_deser "js_superjson" "exec-1" "v1" "" ∅ Static ex_child
              "[1]" ex_start_params ex_caller [ex_round] "wf-1" (workflow_ctx "wf-1" (Some 3)) ex_state
              (RetrievedHandle (Some "wf-1-3")) (ex_singleton "[1]" ex_state).2)
    as (id & _ & _ & H).
  - reflexivity.
  - reflexivity.
  - reflexivity.
  - left. eexists. reflexivity.
  - discriminate.
  - exact ex_db_ok.
  - vm_compute. reflexivity.
  - apply Forall_singleton. split; apply tame_id.
  - exact ex_singleton_run.
  - destruct (H "[2]" ex_caller ex_round [] (ex_singleton "[1]" ex_state).2.2) as (c2 & _ & E).
    + vm_compute. reflexivity.
    + reflexivity.
    + exists id, c2. exact E.
Defined.
