(* ===== verification/Observe.v ===== *)
(** What the system database shows of the communication of a workflow: [getAllEvents],
    [getAllNotifications] and [getAllStreamEntries] (src/src/system_database.ts).

    The methods gather rows in a JavaScript object by the key of the row.  An object inherits
    the properties of [Object.prototype], which the code meets when a key has such a name. *)

From S2P Require Export Query Messaging.

Open Scope Z_scope.

(** * JavaScript objects *)

(** The names an object literal inherits *)
Definition Object_prototype : list string :=
  ["constructor"; "__defineGetter__"; "__defineSetter__"; "hasOwnProperty"; "__lookupGetter__";
   "__lookupSetter__"; "isPrototypeOf"; "propertyIsEnumerable"; "toString"; "valueOf"; "__proto__";
   "toLocaleString"].

(** An object built by assignments: its own properties, in the order of their creation *)
Definition js_object (A : Type) : Type := list (string * A).

Definition own {A} (k : string) (o : js_object A) : option A := snd <$> List.find (fun e => String.eqb e.1 k) o.

(** [o[k] = v]: assigning to [__proto__] makes no property. *)
Fixpoint set_own {A} (k : string) (v : A) (o : js_object A) : js_object A :=
  match o with
  | [] => [(k, v)]
  | (k', v') :: rest => if String.eqb k' k then (k', v) :: rest else (k', v') :: set_own k v rest
  end.

Definition assign {A} (k : string) (v : A) (o : js_object A) : js_object A :=
  if String.eqb k "__proto__" then o else set_own k v o.

(** [if (!o[k]) o[k] = []; o[k].push(v)]: an inherited property is no array. *)
Definition push {A} (k : string) (v : A) (o : js_object (list A)) : dbos_error + js_object (list A) :=
  match own k o with
  | Some vs => inr (assign k (vs ++ [v]) o)
  | None =>
      if mem k Object_prototype
      then inl (JsTypeError "streams[row.key].push is not a function")
      else inr (assign k [v] o)
  end.

(** A key that is an array index *)
Definition array_index (k : string) : option Z :=
  match parse_Z k with
  | Some n => if bool_decide (stringify_Z n = k) && (0 <=? n) && (n <? 2 ^ 32 - 1) then Some n else None
  | None => None
  end.

(** [Object.entries]: the array indices in their order, then the other keys in the order of
    their creation *)
Definition Object_entries {A} (o : js_object A) : list (string * A) :=
  (order_by (fun a b => default 0 (array_index a.1) <=? default 0 (array_index b.1))
     (List.filter (fun e => bool_decide (is_Some (array_index e.1))) o))
  ++ List.filter (fun e => negb (bool_decide (is_Some (array_index e.1)))) o.

Section observe.
(** [safeParse] with the configured serializer, of a nullable column, and the collation of
    [ORDER BY key] *)
Context (safe_value : option string -> option string -> jsval)
        (key_le : string -> string -> bool).

(** * Operations *)

(** [getAllEvents] *)
Definition getAllEvents (workflowID : string) (d : sysdb) : js_object jsval :=
  foldl (fun o kr => assign kr.1.2 (safe_value (ev_value kr.2) (ev_serialization kr.2)) o) []
    (select_where (fun k _ => bool_decide (k.1 = workflowID)) (workflow_events d)).

(** One message of [getAllNotifications] *)
Record Notification : Type := NotificationOf {
  n_topic : option string;
  n_message : jsval;
  n_createdAtEpochMs : Z;
  n_consumed : bool
}.

Definition notification_of (r : notif_row) : Notification :=
  {| n_topic := if bool_decide (nt_topic r = nullTopic) then None else Some (nt_topic r);
     n_message := safe_value (nt_message r) (nt_serialization r);
     n_createdAtEpochMs := nt_created_at_epoch_ms r;
     n_consumed := nt_consumed r |}.

(** [getAllNotifications] *)
Definition getAllNotifications (workflowID : string) (d : sysdb) : list Notification :=
  notification_of <$>
    (order_by (fun a b => nt_created_at_epoch_ms a.2 <=? nt_created_at_epoch_ms b.2)
       (select_where (fun _ r => bool_decide (nt_destination_uuid r = workflowID)) (notifications d))).*2.

(** [ORDER BY key, offset] *)
Definition entry_le (a b : string * Z * stream_row) : bool :=
  if bool_decide (a.1.1 = b.1.1) then a.1.2 <=? b.1.2 else key_le a.1.1 b.1.1.

Definition stream_entries (workflowID : string) (d : sysdb) : list (string * Z * stream_row) :=
  order_by entry_le
    (map (fun kr => (kr.1.1.2, kr.1.2, kr.2))
       (select_where (fun k _ => bool_decide (k.1.1 = workflowID)) (streams d))).

Definition entry_value (r : stream_row) : jsval := safe_value (Some (st_value r)) (st_serialization r).

(** [value === DBOS_STREAM_CLOSED_SENTINEL] *)
Definition is_sentinel (v : jsval) : bool :=
  match v with VStr s => String.eqb s DBOS_STREAM_CLOSED_SENTINEL | _ => false end.

(** The loop of [getAllStreamEntries] *)
Fixpoint gather (rows : list (string * Z * stream_row)) (o : js_object (list jsval))
    : dbos_error + js_object (list jsval) :=
  match rows with
  | [] => inr o
  | (key, _, r) :: rest =>
      let value := entry_value r in
      if is_sentinel value then gather rest o
      else match push key value o with
           | inl e => inl e
           | inr o' => gather rest o'
           end
  end.

Definition getAllStreamEntries (workflowID : string) (d : sysdb) : dbos_error + js_object (list jsval) :=
  gather (stream_entries workflowID d) [].

(** * Lemmas *)

Lemma own_set_own {A} k k' (v : A) o :
  own k' (set_own k v o) = if String.eqb k k' then Some v else own k' o.
Proof.
  unfold own. induction o as [|[k0 v0] o IH]; simpl.
  { by destruct (String.eqb k k'). }
  destruct (String.eqb_spec k0 k) as [->|Hne]; simpl.
  - by destruct (String.eqb k k').
  - destruct (String.eqb_spec k0 k') as [->|Hne']; simpl; [|apply IH].
    destruct (String.eqb_spec k k') as [->|]; done.
Qed.

Lemma own_assign {A} k k' (v : A) o :
  own k' (assign k v o)
  = if String.eqb k k' && negb (String.eqb k "__proto__") then Some v else own k' o.
Proof.
  unfold assign. destruct (String.eqb k "__proto__"); [by rewrite andb_false_r|].
  rewrite own_set_own. by rewrite andb_true_r.
Qed.

Lemma events_fold (rows : list (string * string * event_row)) o k :
  NoDup (map (fun kr => kr.1.2) rows) ->
  own k (foldl (fun o kr => assign kr.1.2 (safe_value (ev_value kr.2) (ev_serialization kr.2)) o) o rows)
  = match List.find (fun kr => String.eqb kr.1.2 k) rows with
    | Some kr => if String.eqb k "__proto__" then own k o
                 else Some (safe_value (ev_value kr.2) (ev_serialization kr.2))
    | None => own k o
    end.
Proof.
  revert o. induction rows as [|[[w k0] r] rows IH]; intros o; simpl; [done|].
  intros [Hk Hnd]%NoDup_cons. rewrite IH by done. rewrite own_assign.
  destruct (String.eqb_spec k0 k) as [->|Hne]; simpl; [|done].
  destruct (List.find _ rows) as [kr|] eqn:Ef.
  - exfalso. apply find_some in Ef as [Hin He]. apply String.eqb_eq in He. apply Hk.
    rewrite <- He. apply list_elem_of_In, in_map_iff. eauto.
  - by destruct (String.eqb k "__proto__").
Qed.

(** The values the rows hold for a key, without the markers *)
Definition values_for (k : string) (rows : list (string * Z * stream_row)) : list jsval :=
  List.filter (fun v => negb (is_sentinel v))
    (map (fun e => entry_value e.2) (List.filter (fun e => String.eqb e.1.1 k) rows)).

Definition nonempty {A} (l : list A) : option (list A) := match l with [] => None | _ => Some l end.

Lemma gather_spec rows : forall o,
  (forall e, e ∈ rows -> is_sentinel (entry_value e.2) = false -> e.1.1 ∉ Object_prototype) ->
  (forall k vs, own k o = Some vs -> vs <> []) ->
  exists o', gather rows o = inr o'
    /\ forall k, own k o' = nonempty (default [] (own k o) ++ values_for k rows).
Proof.
  induction rows as [|[[key off] r] rows IH]; intros o Hk Ho.
  { exists o. split; [done|]. intros k. unfold values_for. simpl. rewrite app_nil_r.
    specialize (Ho k). destruct (own k o) as [[|v vs]|]; simpl; [|done|done]. by destruct (Ho [] eq_refl). }
  assert (forall e, e ∈ rows -> is_sentinel (entry_value e.2) = false -> e.1.1 ∉ Object_prototype) as Hk'
    by (intros; apply Hk; set_solver).
  cbn [gather]. destruct (is_sentinel (entry_value r)) eqn:Es.
  { destruct (IH o Hk' Ho) as (o' & E & H). exists o'. split; [done|]. intros k. rewrite H.
    unfold values_for. cbn [List.filter fst snd]. destruct (String.eqb key k); [|done].
    cbn [map List.filter snd]. by rewrite Es. }
  assert (key ∉ Object_prototype) as Hp by (apply (Hk (key, off, r)); [set_solver|done]).
  assert (String.eqb key "__proto__" = false) as Hpr.
  { apply String.eqb_neq. intros ->. apply Hp. vm_compute. set_solver. }
  set (vs := default [] (own key o) ++ [entry_value r]).
  assert (push key (entry_value r) o = inr (assign key vs o)) as ->.
  { unfold push, vs. destruct (own key o); [done|]. unfold mem. by rewrite bool_decide_false. }
  destruct (IH (assign key vs o) Hk') as (o' & E & H).
  { intros k ws. rewrite own_assign, Hpr, andb_true_r. destruct (String.eqb key k); [|apply Ho].
    intros [= <-]. unfold vs. by destruct (default [] (own key o)). }
  exists o'. split; [done|]. intros k. rewrite H, own_assign, Hpr, andb_true_r.
  unfold values_for. cbn [List.filter fst snd].
  destruct (String.eqb_spec key k) as [->|]; [|done].
  cbn [map List.filter snd default from_option]. rewrite Es. cbn [negb]. unfold vs. unfold id.
  by rewrite <- app_assoc.
Qed.

Context (le_total : forall a b, key_le a b = true \/ key_le b a = true)
        (le_trans : forall a b c, key_le a b = true -> key_le b c = true -> key_le a c = true)
        (le_antisym : forall a b, key_le a b = true -> key_le b a = true -> a = b).

Lemma entry_le_total a b : entry_le a b = true \/ entry_le b a = true.
Proof.
  unfold entry_le. destruct (decide (a.1.1 = b.1.1)) as [E|Hne].
  - rewrite !bool_decide_true by done. rewrite !Z.leb_le. lia.
  - rewrite !bool_decide_false by congruence. apply le_total.
Qed.

Lemma entry_le_trans a b c : entry_le a b = true -> entry_le b c = true -> entry_le a c = true.
Proof.
  unfold entry_le. destruct a as [[ka oa] ra], b as [[kb ob] rb], c as [[kc oc] rc]. simpl.
  intros H1 H2. destruct (decide (ka = kc)) as [->|Hac].
  - rewrite bool_decide_true by done. destruct (decide (kc = kb)) as [->|Hne].
    + rewrite bool_decide_true in H1, H2 by done. apply Z.leb_le in H1, H2. apply Z.leb_le. lia.
    + rewrite bool_decide_false in H1, H2 by congruence. by destruct Hne; apply le_antisym.
  - rewrite bool_decide_false by done.
    destruct (decide (ka = kb)) as [->|]; [by rewrite (bool_decide_false (kb = kc)) in H2|].
    rewrite bool_decide_false in H1 by done.
    destruct (decide (kb = kc)) as [->|]; [done|]. rewrite bool_decide_false in H2 by done. by eapply le_trans.
Qed.

Lemma StronglySorted_weaken {A} (R R' : A -> A -> Prop) l :
  (forall x y, R x y -> R' x y) -> StronglySorted R l -> StronglySorted R' l.
Proof. intros H. induction 1 as [|x l Hs IH Hx]; constructor; [done|]. eapply Forall_impl; eauto. Qed.

Lemma StronglySorted_filter_ {A} (R : A -> A -> Prop) (p : A -> bool) l :
  StronglySorted R l -> StronglySorted R (List.filter p l).
Proof.
  induction 1 as [|x l Hs IH Hx]; simpl; [constructor|]. destruct (p x); [|done].
  constructor; [done|]. apply Forall_forall. intros y Hy.
  rewrite Forall_forall in Hx. apply Hx. apply list_elem_of_In, filter_In in Hy as [Hy _].
  by apply list_elem_of_In.
Qed.

(** The entries of one key come in the order of their offsets. *)
Lemma entries_sorted workflowID k d :
  let l := List.filter (fun e => String.eqb e.1.1 k) (stream_entries workflowID d) in
  StronglySorted Z.lt (map (fun e => e.1.2) l)
  /\ forall o r, (k, o, r) ∈ l <-> streams d !! (workflowID, k, o) = Some r.
Proof.
  intros l. set (rows := map (fun kr => (kr.1.1.2, kr.1.2, kr.2))
    (select_where (fun k _ => bool_decide (k.1.1 = workflowID)) (streams d))).
  assert (forall k o r, (k, o, r) ∈ rows <-> streams d !! (workflowID, k, o) = Some r) as Hrows.
  { intros k' o r. unfold rows. rewrite list_elem_of_fmap. split.
    - intros ([[[w k1] o1] r1] & [= -> -> ->] & Hin). apply elem_of_select_where in Hin as [Hl Hw].
      simpl in Hw. apply bool_decide_eq_true in Hw. by subst.
    - intros Hr. exists (workflowID, k', o, r). split; [done|]. apply elem_of_select_where.
      split; [done|]. by apply bool_decide_eq_true. }
  assert (forall o r, (k, o, r) ∈ l <-> streams d !! (workflowID, k, o) = Some r) as Hl.
  { intros o r. unfold l, stream_entries. rewrite list_elem_of_In, filter_In, <- list_elem_of_In.
    rewrite elem_of_order_by. fold rows. rewrite Hrows. simpl. rewrite String.eqb_refl. naive_solver. }
  split; [|done].
  assert (StronglySorted (fun a b => entry_le a b = true) l) as Hs.
  { apply StronglySorted_filter_, order_by_sorted; [apply entry_le_total|apply entry_le_trans]. }
  assert (NoDup l) as Hnd.
  { unfold l, stream_entries. apply NoDup_ListNoDup, List.NoDup_filter, NoDup_ListNoDup.
    rewrite order_by_Permutation. fold rows. unfold rows.
    pose proof (NoDup_select_where (fun k _ => bool_decide (k.1.1 = workflowID)) (streams d)) as H.
    apply NoDup_fmap_1 in H. apply (NoDup_fmap_2_strong _ _); [|done].
    intros [[[w1 k1] o1] r1] [[[w2 k2] o2] r2] H1 H2 [= -> -> ->].
    apply elem_of_select_where in H1 as [_ H1], H2 as [_ H2]. simpl in *.
    apply bool_decide_eq_true in H1, H2. by subst. }
  assert (forall e, e ∈ l -> e.1.1 = k) as Hkey.
  { intros e He. apply list_elem_of_In, filter_In in He as [_ He]. by apply String.eqb_eq in He. }
  clear -Hs Hnd Hkey Hl. revert Hs Hnd Hkey.
  assert (forall a b, a ∈ l -> b ∈ l -> a.1.2 = b.1.2 -> a.1.1 = b.1.1 -> a = b) as Hinj.
  { intros [[ka oa] ra] [[kb ob] rb] Ha Hb. simpl. intros -> ->.
    assert (kb = k) as ->.
    { apply list_elem_of_In, filter_In in Hb as [_ Hb]. by apply String.eqb_eq in Hb. }
    apply Hl in Ha, Hb. congruence. }
  clear Hl. generalize dependent l. intros l Hinj Hs. induction Hs as [|e l Hs IH He]; intros Hnd Hkey; simpl; [constructor|].
  apply NoDup_cons in Hnd as [Hne Hnd]. constructor.
  - apply IH; [|done|]; intros; [apply Hinj|apply Hkey]; set_solver.
  - apply Forall_forall. intros o Ho. apply list_elem_of_fmap in Ho as (e' & -> & He').
    rewrite Forall_forall in He. specialize (He e' He'). unfold entry_le in He.
    assert (e.1.1 = e'.1.1) as Ek by (rewrite !Hkey by set_solver; done).
    rewrite bool_decide_true in He by done. apply Z.leb_le in He.
    destruct (decide (e.1.2 = e'.1.2)) as [Eo|]; [|lia].
    exfalso. apply Hne. assert (e = e') as -> by (apply Hinj; set_solver). done.
Qed.

Lemma events_shown workflowID d k :
  own k (getAllEvents workflowID d)
  = if String.eqb k "__proto__" then None
    else (fun r => safe_value (ev_value r) (ev_serialization r)) <$> workflow_events d !! (workflowID, k).
Proof.
  unfold getAllEvents. set (rows := select_where _ (workflow_events d)).
  assert (forall w k r, (w, k, r) ∈ rows <-> workflow_events d !! (w, k) = Some r /\ w = workflowID) as Hr.
  { intros w k' r. unfold rows. rewrite elem_of_select_where. simpl. by rewrite bool_decide_eq_true. }
  rewrite events_fold.
  - destruct (List.find _ rows) as [[[w k'] r]|] eqn:Ef.
    + apply find_some in Ef as [Hin He]. simpl in He. apply String.eqb_eq in He as ->.
      apply list_elem_of_In, Hr in Hin as [Hl ->]. rewrite Hl. by destruct (String.eqb k "__proto__").
    + assert (workflow_events d !! (workflowID, k) = None) as ->; [|by destruct (String.eqb k "__proto__")].
      apply eq_None_not_Some. intros [r Hl].
      assert ((workflowID, k, r) ∈ rows) as Hin by by apply Hr.
      apply list_elem_of_In in Hin. pose proof (find_none _ _ Ef _ Hin) as Hf. simpl in Hf.
      by rewrite String.eqb_refl in Hf.
  - pose proof (NoDup_select_where (fun k _ => bool_decide (k.1 = workflowID)) (workflow_events d)) as H.
    apply NoDup_fmap_1 in H. apply NoDup_fmap_2_strong; [|done].
    intros [[w1 k1] r1] [[w2 k2] r2] H1 H2 E. simpl in E. subst.
    apply Hr in H1 as [H1 ->], H2 as [H2 ->]. congruence.
Qed.

Lemma notifications_shown workflowID d :
  exists rows, getAllNotifications workflowID d = notification_of <$> rows.*2
    /\ NoDup rows.*1
    /\ (forall id r, (id, r) ∈ rows <-> notifications d !! id = Some r /\ nt_destination_uuid r = workflowID)
    /\ StronglySorted (fun a b => nt_created_at_epoch_ms a.2 <= nt_created_at_epoch_ms b.2) rows.
Proof.
  eexists. split; [reflexivity|]. split; [|split].
  - rewrite order_by_Permutation. apply NoDup_select_where.
  - intros id r. rewrite elem_of_order_by, elem_of_select_where. by rewrite bool_decide_eq_true.
  - eapply StronglySorted_weaken; [|apply order_by_sorted]; simpl; intros *; rewrite ?Z.leb_le; lia.
Qed.

Lemma streams_shown workflowID d :
  (forall k o r, streams d !! (workflowID, k, o) = Some r -> is_sentinel (entry_value r) = false ->
     k ∉ Object_prototype) ->
  exists streams', getAllStreamEntries workflowID d = inr streams'
    /\ forall k, exists l : list (Z * stream_row),
         StronglySorted Z.lt l.*1
         /\ (forall o r, (o, r) ∈ l <-> streams d !! (workflowID, k, o) = Some r)
         /\ own k streams' = nonempty (List.filter (fun v => negb (is_sentinel v))
                                         (map (fun e => entry_value e.2) l)).
Proof.
  intros Hk. destruct (gather_spec (stream_entries workflowID d) []) as (o' & E & H).
  - intros [[k o] r] Hin Hs. eapply Hk; [|exact Hs].
    destruct (entries_sorted workflowID k d) as [_ Hl]. apply Hl.
    apply list_elem_of_In, filter_In. split; [by apply list_elem_of_In|apply String.eqb_refl].
  - done.
  - exists o'. split; [done|]. intros k. destruct (entries_sorted workflowID k d) as [Hs Hl].
    set (es := List.filter _ _) in *. exists (map (fun e => (e.1.2, e.2)) es).
    split; [rewrite <- list_fmap_compose; exact Hs|]. split.
    + intros o r. rewrite <- Hl. rewrite list_elem_of_fmap. split.
      * intros ([[k1 o1] r1] & [= -> ->] & Hin). assert (k1 = k) as ->; [|done].
        apply list_elem_of_In, filter_In in Hin as [_ Hin]. by apply String.eqb_eq in Hin.
      * intros Hin. by exists (k, o, r).
    + rewrite H. unfold values_for. fold es. simpl. by rewrite map_map.
Qed.

(** * Theorems *)

(** What is shown of a workflow is what the tables hold.  Its events are its rows but for one
    under [__proto__]; its messages are all the messages to it, in the order of their times; and
    when none of its streams with an entry has the name of a property that objects inherit, the
    streams are given with the values of their entries in the order of the offsets, without the
    closing markers, and those with no such value are left out. *)
Theorem observability_exact workflowID d :
  (forall k, own k (getAllEvents workflowID d)
             = if String.eqb k "__proto__" then None
               else (fun r => safe_value (ev_value r) (ev_serialization r))
                      <$> workflow_events d !! (workflowID, k))
  /\ (exists rows, getAllNotifications workflowID d = notification_of <$> rows.*2
        /\ NoDup rows.*1
        /\ (forall id r, (id, r) ∈ rows <-> notifications d !! id = Some r /\ nt_destination_uuid r = workflowID)
        /\ StronglySorted (fun a b => nt_created_at_epoch_ms a.2 <= nt_created_at_epoch_ms b.2) rows)
  /\ ((forall k o r, streams d !! (workflowID, k, o) = Some r -> is_sentinel (entry_value r) = false ->
         k ∉ Object_prototype) ->
      exists streams', getAllStreamEntries workflowID d = inr streams'
        /\ forall k, exists l : list (Z * stream_row),
             StronglySorted Z.lt l.*1
             /\ (forall o r, (o, r) ∈ l <-> streams d !! (workflowID, k, o) = Some r)
             /\ own k streams' = nonempty (List.filter (fun v => negb (is_sentinel v)) (map (fun e => entry_value e.2) l))).
Proof.
  split; [intros k; apply events_shown|]. split; [apply notifications_shown|apply streams_shown].
Qed.

End observe.

(** * Witness and consequences *)

Lemma string_leb_trans a b c : String.leb a b = true -> String.leb b c = true -> String.leb a c = true.
Proof.
  intros H1 H2. apply Is_true_true. assert (String.le a b) by (by apply Is_true_true).
  assert (String.le b c) by (by apply Is_true_true). by transitivity b.
Qed.

(** A reader of the values that takes the text as it stands *)
Definition raw_value (t : option string) (_ : option string) : jsval :=
  match t with Some t => VStr t | None => VNull end.

Definition ex_stream (t : string) : stream_row :=
  {| st_value := t; st_function_id := 0; st_serialization := None |}.

Definition ex_streams (rows : gmap (string * string * Z) stream_row) : sysdb :=
  SysDb ∅ ∅ ∅ ∅ ∅ rows ∅ ∅ ∅ ∅.

(** Two values and the marker in one stream, and a marker alone in another *)
Definition ex_observed : sysdb :=
  ex_streams {[("w", "s", 1) := ex_stream "b"; ("w", "s", 0) := ex_stream "a";
               ("w", "s", 2) := ex_stream DBOS_STREAM_CLOSED_SENTINEL;
               ("w", "t", 0) := ex_stream DBOS_STREAM_CLOSED_SENTINEL]}.

Lemma observability_exact_witness :
  getAllStreamEntries raw_value String.leb "w" ex_observed = inr [("s", [VStr "a"; VStr "b"])]
  /\ exists streams', getAllStreamEntries raw_value String.leb "w" ex_observed = inr streams'
     /\ own "s" streams' = Some [VStr "a"; VStr "b"] /\ own "t" streams' = None.
Proof.
  split; [vm_compute; reflexivity|].
  destruct (observability_exact raw_value String.leb String.leb_total string_leb_trans
              String.leb_antisym "w" ex_observed) as (_ & _ & H).
  destruct H as (streams' & E & _).
  - intros k o r Hr _. revert Hr. unfold ex_observed, ex_streams. cbn [streams].
    rewrite !lookup_insert_Some, lookup_singleton_Some. intros Hr.
    assert (k = "s" \/ k = "t") as [-> | ->] by naive_solver; vm_compute; set_solver.
  - exists streams'. split; [exact E|].
    assert (getAllStreamEntries raw_value String.leb "w" ex_observed = inr [("s", [VStr "a"; VStr "b"])])
      as E' by (vm_compute; reflexivity).
    rewrite E' in E. injection E as <-. split; reflexivity.
Defined.

(** A value in a stream with the name of an inherited property makes the listing of all the
    streams of its workflow throw. *)
Lemma inherited_name_throws :
  getAllStreamEntries raw_value String.leb "w"
    (ex_streams {[("w", "a", 0) := ex_stream "v"; ("w", "toString", 0) := ex_stream "v"]})
  = inl (JsTypeError "streams[row.key].push is not a function").
Proof. vm_compute. reflexivity. Qed.

(** The text of the marker, written by the user as a value in quotes, is not the marker for
    [readStream], which compares the stored text, and is not shown. *)
Definition unquoted (t : option string) (_ : option string) : jsval :=
  match t with
  | Some (String q rest) => VStr (String.substring 0 (String.length rest - 1) rest)
  | _ => VNull
  end.

Lemma quoted_marker_not_shown (q := String (Ascii.ascii_of_nat 34) EmptyString)
    (stored := String.append q (String.append DBOS_STREAM_CLOSED_SENTINEL q)) :
  stored <> DBOS_STREAM_CLOSED_SENTINEL
  /\ getAllStreamEntries unquoted String.leb "w" (ex_streams {[("w", "s", 0) := ex_stream stored]}) = inr [].
Proof. split; [discriminate|]. vm_compute. reflexivity. Qed.
