(* ===== verification/Connection.v ===== *)
(** The connection to the conductor (src/src/conductor/conductor.ts): the websocket that
    [dispatchLoop] opens, its pings, and how it is reopened when it is lost.

    A socket is a number, and the object with the ping timers that belongs to it is known by the
    same number.  A timer is armed or spent; what the sockets and the timers do is given by
    events, between which the code runs without interruption. *)

From S2P Require Export Prelude.
From stdpp Require Import relations.

Open Scope Z_scope.

(** * State *)

(** [readyState] *)
Inductive ReadyState : Type := CONNECTING | OPEN | CLOSING | CLOSED.

(** What a field holds that was set to a timer: the timer may have fired or been cleared. *)
Inductive timer : Type := Armed | Spent.

Record Conductor : Type := ConductorOf {
  websocket : option nat;
  readyState : nat -> ReadyState;
  sockets : nat;
  isShuttingDown : bool;
  isClosed : bool;
  ping_intervals : gset nat;
  ping_timeouts : gset nat;
  pingIntervalTimeout : option nat;
  reconnectTimeout : option timer
}.

#[export] Instance Conductor_eta : Eta Conductor := fun c =>
  ConductorOf (websocket c) (readyState c) (sockets c) (isShuttingDown c) (isClosed c)
    (ping_intervals c) (ping_timeouts c) (pingIntervalTimeout c) (reconnectTimeout c).

Definition new_conductor : Conductor :=
  ConductorOf None (fun _ => CLOSED) 0 false false ∅ ∅ None None.

(** * Operations *)

(** [clearInterval(ping?.interval); clearTimeout(ping?.timeout)] *)
Definition clear_ping (ping : option nat) (c : Conductor) : Conductor :=
  match ping with
  | None => c
  | Some w => c <| ping_intervals ::= fun s => s ∖ {[w]} |> <| ping_timeouts ::= fun s => s ∖ {[w]} |>
  end.

Definition set_ready (w : nat) (r : ReadyState) (c : Conductor) : Conductor :=
  c <| readyState ::= fun f w' => if decide (w' = w) then r else f w' |>.

Definition resetWebsocket (currWebsocket currPing : option nat) (c : Conductor) : Conductor :=
  let c := clear_ping currPing c in
  let c := match currWebsocket with
           | None => c
           | Some w =>
               let c := set_ready w CLOSING c in
               if opt_eqb (websocket c) (Some w) then c <| websocket := None |> else c
           end in
  if bool_decide (is_Some (reconnectTimeout c)) || isShuttingDown c then c
  else c <| reconnectTimeout := Some Armed |>.

(** [setPingInterval] *)
Definition setPingInterval (w : nat) (c : Conductor) : Conductor :=
  clear_ping (Some w) c <| ping_intervals ::= fun s => s ∪ {[w]} |>.

(** The callback of the ping interval: it arms the timeout, then pings. *)
Definition ping_tick (w : nat) (c : Conductor) : Conductor :=
  c <| ping_timeouts ::= fun s => s ∪ {[w]} |>.

(** The callback of the ping timeout *)
Definition ping_expire (w : nat) (c : Conductor) : Conductor :=
  let c := c <| ping_timeouts ::= fun s => s ∖ {[w]} |> in
  if isShuttingDown c then c
  else if bool_decide (reconnectTimeout c = None) then resetWebsocket (Some w) (Some w) c
  else c.

(** The [try] block of [dispatchLoop] and its handler; [constructed] is whether [new WebSocket]
    returns. *)
Definition open_socket (constructed : bool) (c : Conductor) : Conductor :=
  if constructed then
    let w := sockets c in
    let c := set_ready w CONNECTING c <| sockets := S w |> <| websocket := Some w |> in
    setPingInterval w c <| pingIntervalTimeout := Some w |>
  else if bool_decide (reconnectTimeout c = None)
  then resetWebsocket (websocket c) (pingIntervalTimeout c) c
  else c.

(** [dispatchLoop] *)
Definition dispatchLoop (constructed : bool) (c : Conductor) : Conductor :=
  if match websocket c with
     | Some w => match readyState c w with OPEN | CONNECTING => true | _ => false end
     | None => false
     end
  then c
  else
    let c := clear_ping (pingIntervalTimeout c) c <| reconnectTimeout := None |> in
    if isShuttingDown c then c else open_socket constructed c.

(** The handlers of 'open', 'pong' and 'message': the timeout is cleared. *)
Definition on_alive (w : nat) (c : Conductor) : Conductor :=
  c <| ping_timeouts ::= fun s => s ∖ {[w]} |>.

(** The handler of 'close' *)
Definition on_close (w : nat) (c : Conductor) : Conductor :=
  if isShuttingDown c then c
  else if bool_decide (reconnectTimeout c = None) then resetWebsocket (Some w) (Some w) c
  else c.

(** The handlers of 'error', and of the end of an 'unexpected-response' *)
Definition on_error (w : nat) (c : Conductor) : Conductor :=
  if bool_decide (reconnectTimeout c = None) then resetWebsocket (Some w) (Some w) c else c.

(** [stop] *)
Definition stop_conductor (c : Conductor) : Conductor :=
  let c := clear_ping (pingIntervalTimeout c) (c <| isShuttingDown := true |>) in
  let c := c <| reconnectTimeout ::= fmap (fun _ => Spent) |> in
  let c := match websocket c with Some w => set_ready w CLOSING c | None => c end in
  c <| isClosed := true |>.

(** * Events *)

(** The peer and the network: a socket opens, or it closes. *)
Inductive socket_event : Type :=
| Opened (w : nat)
| Died (w : nat)
| Alive (w : nat)
| Close (w : nat)
| Error (w : nat)
| PingTick (w : nat)
| PingExpire (w : nat)
| Reconnect (constructed : bool)
| Stop.

(** Which events can occur: a socket that was created reports, a timer that is armed fires. *)
Definition enabled (e : socket_event) (c : Conductor) : Prop :=
  match e with
  | Opened w => (w < sockets c)%nat /\ readyState c w = CONNECTING
  | Died w | Alive w | Close w | Error w => (w < sockets c)%nat
  | PingTick w => w ∈ ping_intervals c
  | PingExpire w => w ∈ ping_timeouts c
  | Reconnect _ => reconnectTimeout c = Some Armed
  | Stop => True
  end.

Definition handle_event (e : socket_event) (c : Conductor) : Conductor :=
  match e with
  | Opened w => on_alive w (set_ready w OPEN c)
  | Died w => set_ready w CLOSED c
  | Alive w => on_alive w c
  | Close w => on_close w c
  | Error w => on_error w c
  | PingTick w => ping_tick w c
  | PingExpire w => ping_expire w c
  | Reconnect constructed => dispatchLoop constructed (c <| reconnectTimeout := Some Spent |>)
  | Stop => stop_conductor c
  end.

Inductive step (c : Conductor) : Conductor -> Prop :=
| step_event e : enabled e c -> step c (handle_event e c).

(** An event of a socket is timely if the socket is the current one, or the loss of a socket is
    being dealt with already. *)
Definition timely (e : socket_event) (c : Conductor) : Prop :=
  match e with
  | Close w | Error w | PingExpire w => websocket c = Some w \/ reconnectTimeout c <> None
  | _ => True
  end.

Inductive timely_step (c : Conductor) : Conductor -> Prop :=
| timely_event e : enabled e c -> timely e c -> timely_step c (handle_event e c).

(** * Lemmas *)

(** While it is not shutting down, the conductor has a socket that it pings, or it is about to
    open one. *)
Definition watching (c : Conductor) : Prop :=
  isShuttingDown c = false ->
  match reconnectTimeout c with
  | Some t => t = Armed /\ websocket c = None
  | None => exists w, websocket c = Some w /\ w ∈ ping_intervals c /\ pingIntervalTimeout c = Some w
  end.

(** After [stop] nothing is opened again. *)
Definition stopped (c : Conductor) : Prop :=
  isShuttingDown c = true /\ reconnectTimeout c <> Some Armed.

Lemma clear_ping_fields ping c :
  let c' := clear_ping ping c in
  websocket c' = websocket c /\ sockets c' = sockets c /\ isShuttingDown c' = isShuttingDown c
  /\ reconnectTimeout c' = reconnectTimeout c.
Proof. by destruct ping. Qed.

Lemma reset_fields w ping c :
  let c' := resetWebsocket w ping c in
  sockets c' = sockets c /\ isShuttingDown c' = isShuttingDown c
  /\ websocket c' = (if decide (w <> None /\ websocket c = w) then None else websocket c)
  /\ reconnectTimeout c' = match reconnectTimeout c with
                           | Some t => Some t
                           | None => if isShuttingDown c then None else Some Armed
                           end.
Proof.
  unfold resetWebsocket. destruct (clear_ping_fields ping c) as (Hw & Hn & Hs & Hr).
  destruct (clear_ping ping c) as [ws rs n sd cl pi pt p rt]. simpl in *. subst.
  destruct w as [w|]; simpl; [unfold opt_eqb; case_bool_decide as E; simpl|];
    destruct (reconnectTimeout c) as [t|]; simpl;
    rewrite ?(bool_decide_true (is_Some (Some _))), ?(bool_decide_false (is_Some None)) by (by first [eexists|intros []]);
    simpl; destruct (isShuttingDown c); simpl; repeat case_decide; naive_solver.
Qed.

Lemma stop_fields c :
  isShuttingDown (stop_conductor c) = true /\ sockets (stop_conductor c) = sockets c /\ reconnectTimeout (stop_conductor c) <> Some Armed.
Proof.
  destruct c as [ws rs n sd cl pi pt p rt]. unfold stop_conductor. by destruct p, ws; destruct rs, rt.
Qed.

Lemma stopped_step c c' :
  stopped c -> step c c' -> stopped c' /\ sockets c' = sockets c.
Proof.
  intros [Hs Hr] [e He]. destruct e as [w|w|w|w|w|w|w|b|]; simpl in *; try done.
  - unfold on_close. by rewrite Hs.
  - unfold on_error. case_bool_decide as E; [|done].
    destruct (reset_fields (Some w) (Some w) c) as (H1 & H2 & _ & H4).
    unfold stopped. by rewrite H1, H2, H4, E, Hs.
  - unfold ping_expire. simpl. by rewrite Hs.
  - destruct (stop_fields c) as (H1 & H2 & H3). by repeat split.
Qed.

Lemma reset_watching w c :
  isShuttingDown c = false -> reconnectTimeout c = None -> websocket c = Some w ->
  watching (resetWebsocket (Some w) (Some w) c).
Proof.
  intros Hs Hr Hw _. destruct (reset_fields (Some w) (Some w) c) as (_ & _ & H3 & H4).
  rewrite H4, Hr, Hs. split; [done|]. rewrite H3. by rewrite decide_True.
Qed.

Lemma expire_armed w c :
  isShuttingDown c = false -> reconnectTimeout c = None ->
  reconnectTimeout (handle_event (PingExpire w) (handle_event (PingTick w) c)) = Some Armed.
Proof.
  intros Hs Hr. cbn [handle_event]. unfold ping_expire, ping_tick.
  destruct c as [ws rs n sd cl pi pt p rt]. simpl in Hs, Hr. subst.
  cbn [isShuttingDown reconnectTimeout set]. simpl.
  match goal with |- reconnectTimeout (resetWebsocket ?a ?p ?c0) = _ =>
    by destruct (reset_fields a p c0) as (_ & _ & _ & ->) end.
Qed.

Lemma open_watching_if b c :
  isShuttingDown c = false -> websocket c = None -> reconnectTimeout c = None ->
  watching (if isShuttingDown c then c else open_socket b c).
Proof.
  intros Hs Hw Hr. rewrite Hs. intros _. destruct b; simpl.
  - rewrite Hr. eexists. split; [done|]. split; [set_solver|done].
  - rewrite bool_decide_true by done.
    destruct (reset_fields (websocket c) (pingIntervalTimeout c) c) as (_ & _ & H3 & H4).
    rewrite H4, Hr, Hs. split; [done|]. rewrite H3, Hw. by case_decide.
Qed.

Lemma dispatch_watching b c :
  isShuttingDown c = false -> websocket c = None -> watching (dispatchLoop b c).
Proof.
  intros Hs Hw. unfold dispatchLoop. rewrite Hw. apply open_watching_if;
    by destruct (pingIntervalTimeout c).
Qed.

Lemma timely_watching c c' : watching c -> timely_step c c' -> watching c'.
Proof.
  intros Hok [e He Ht].
  destruct e as [w|w|w|w|w|w|w|b|]; simpl in *; try (intros Hs; specialize (Hok Hs); exact Hok).
  - unfold on_close. destruct (isShuttingDown c) eqn:Hs; [done|].
    case_bool_decide as Hr; [|done]. apply reset_watching; [done|done|by destruct Ht].
  - unfold on_error. case_bool_decide as Hr; [|done].
    destruct (isShuttingDown c) eqn:Hs; [|apply reset_watching; [done|done|by destruct Ht]].
    intros Hs'. destruct (reset_fields (Some w) (Some w) c) as (_ & H2 & _). congruence.
  - unfold ping_expire. simpl. destruct (isShuttingDown c) eqn:Hs; [intros Hs'; simpl in Hs'; congruence|].
    case_bool_decide as Hr.
    + apply reset_watching; [done|done|by destruct Ht].
    + intros _. by specialize (Hok Hs).
  - destruct (isShuttingDown c) eqn:Hs.
    + intros Hs'. exfalso. revert Hs'. unfold dispatchLoop. simpl.
      destruct (match websocket c with Some w => _ | None => false end); [simpl; congruence|].
      destruct (pingIntervalTimeout c); simpl; congruence.
    + specialize (Hok Hs). rewrite He in Hok. apply dispatch_watching; [done|by destruct Hok].
  - intros Hs. exfalso. destruct (stop_fields c) as [Hs' _]. congruence.
Qed.

(** * Theorems *)

(** As long as the events are timely the conductor keeps watching. *)
Lemma timely_reach b c : rtc timely_step (dispatchLoop b new_conductor) c -> watching c.
Proof.
  intros Hr. remember (dispatchLoop b new_conductor) as c0 eqn:E.
  assert (watching c0) as H0 by (subst; by apply dispatch_watching). clear E.
  induction Hr as [c|c1 c2 c3 Hs _ IH]; [done|]. by eapply IH, timely_watching.
Qed.

Lemma stopped_for_good c c' :
  rtc step (stop_conductor c) c' -> isShuttingDown c' = true /\ sockets c' = sockets c.
Proof.
  assert (stopped (stop_conductor c) /\ sockets (stop_conductor c) = sockets c) as [H0 H1].
  { destruct (stop_fields c) as (H1 & H2 & H3). by repeat split. }
  rewrite <- H1. clear H1. generalize dependent (stop_conductor c). intros c1 H0 H.
  induction H as [c1|c1 c2 c3 Hst _ IH]; [by destruct H0|].
  destruct (stopped_step _ _ H0 Hst) as [H2 H3]. rewrite <- H3. by apply IH.
Qed.

(** Whatever the events, and however late: while it is not shutting down and no reconnection is
    scheduled, the conductor has a socket that it pings. *)
Definition pinging (c : Conductor) : Prop :=
  isShuttingDown c = false -> reconnectTimeout c = None ->
  exists w, websocket c = Some w /\ w ∈ ping_intervals c /\ pingIntervalTimeout c = Some w.

Lemma watching_pinging c : watching c -> pinging c.
Proof. intros H Hs Hr. specialize (H Hs). by rewrite Hr in H. Qed.

Lemma reset_scheduled w ping c :
  isShuttingDown c = false -> reconnectTimeout c = None ->
  reconnectTimeout (resetWebsocket w ping c) = Some Armed.
Proof. intros Hs Hr. destruct (reset_fields w ping c) as (_ & _ & _ & ->). by rewrite Hs, Hr. Qed.

Lemma open_pinging b c :
  reconnectTimeout c = None -> pinging (if isShuttingDown c then c else open_socket b c).
Proof.
  intros Hr. destruct (isShuttingDown c) eqn:Hs; [by intros H; rewrite Hs in H|].
  unfold open_socket. destruct b.
  - intros _ _. simpl. eexists. split; [done|]. split; [set_solver|done].
  - rewrite bool_decide_true by done. intros _ H. by rewrite reset_scheduled in H.
Qed.

Lemma step_pinging c c' : pinging c -> step c c' -> pinging c'.
Proof.
  intros Hok [e He]. destruct e as [w|w|w|w|w|w|w|b|]; simpl in *; try exact Hok.
  - unfold on_close. destruct (isShuttingDown c) eqn:Hs; [exact Hok|].
    case_bool_decide as Hr; [|exact Hok]. intros _ H. by rewrite reset_scheduled in H.
  - unfold on_error. case_bool_decide as Hr; [|exact Hok].
    intros Hs H. destruct (reset_fields (Some w) (Some w) c) as (_ & Hs' & _). rewrite Hs in Hs'.
    by rewrite reset_scheduled in H.
  - unfold ping_expire. simpl. destruct (isShuttingDown c) eqn:Hs; [by intros H; simpl in H; congruence|].
    case_bool_decide as Hr; [|intros _ H; by apply Hok]. intros _ H. by rewrite reset_scheduled in H.
  - unfold dispatchLoop. cbn [websocket readyState pingIntervalTimeout set].
    destruct (match websocket _ with Some w => _ | None => false end); [by intros _ H|].
    apply open_pinging. by destruct (pingIntervalTimeout c).
  - intros Hs. exfalso. destruct (stop_fields c) as [Hs' _]. congruence.
Qed.

(** C26: The connection is watched until the conductor is stopped.  Whatever events come, and in
    whatever order: either it has a socket that it pings, which is replaced within one ping when
    it no longer answers, or a reconnection is about to happen, or its [reconnectTimeout] holds a
    timer that is spent.  The last never happens as long as the events of a socket come before
    the socket has been replaced: then it has a socket that it pings or is about to open one.
    (After a late event it does happen, and the conductor is stuck: [late_report_stuck].)  And
    once stopped, whatever events still come, nothing is opened again. *)
Theorem connection_watched (b : bool) (c : Conductor) :
  rtc step (dispatchLoop b new_conductor) c ->
  (isShuttingDown c = false ->
     match reconnectTimeout c with
     | None =>
         exists w, websocket c = Some w /\ enabled (PingTick w) c
           /\ enabled (PingExpire w) (handle_event (PingTick w) c)
           /\ reconnectTimeout (handle_event (PingExpire w) (handle_event (PingTick w) c)) = Some Armed
     | Some Armed => forall b', enabled (Reconnect b') c
     | Some Spent => ~ rtc timely_step (dispatchLoop b new_conductor) c
     end)
  /\ (rtc timely_step (dispatchLoop b new_conductor) c -> watching c)
  /\ (forall c', rtc step (stop_conductor c) c' -> isShuttingDown c' = true /\ sockets c' = sockets c).
Proof.
  intros Hr. assert (rtc timely_step (dispatchLoop b new_conductor) c -> watching c) as Ht by apply timely_reach.
  split; [|split; [done|apply stopped_for_good]].
  intros Hs. destruct (reconnectTimeout c) as [[|]|] eqn:Hn; [done| |].
  - intros H. specialize (Ht H Hs). rewrite Hn in Ht. by destruct Ht.
  - assert (pinging c) as Hp.
    { remember (dispatchLoop b new_conductor) as c0 eqn:E.
      assert (pinging c0) as H0 by (subst; by apply watching_pinging, dispatch_watching). clear -Hr H0.
      induction Hr as [c|c1 c2 c3 Hs _ IH]; [done|]. by eapply IH, step_pinging. }
    destruct (Hp Hs Hn) as (w & Hw & Hi & _).
    exists w. split; [done|]. split; [done|]. split; [simpl; set_solver|].
    by apply expire_armed.
Qed.

(** The conductor believes that it is reconnecting, but its timer is spent. *)
Definition stuck (c : Conductor) : Prop :=
  isShuttingDown c = false /\ reconnectTimeout c = Some Spent.

(** It stays so, whatever happens to its sockets, and opens no socket again. *)
Lemma stuck_forever c c' :
  stuck c -> rtc step c c' ->
  isShuttingDown c' = true \/ stuck c' /\ sockets c' = sockets c.
Proof.
  intros Hc Hr. assert (forall a b, step a b -> stuck a -> isShuttingDown b = true \/ stuck b /\ sockets b = sockets a) as Hone.
  { intros a b [e He] [Hs Ht]. unfold stuck.
    destruct e as [w|w|w|w|w|w|w|k|]; simpl in *; auto; try congruence.
    - unfold on_close. rewrite Hs, Ht. simpl. auto.
    - unfold on_error. rewrite Ht. simpl. auto.
    - unfold ping_expire. simpl. rewrite Hs, Ht. simpl. auto.
    - left. apply stop_fields. }
  induction Hr as [c|c1 c2 c3 Hst Hr IH]; [by right|].
  destruct (Hone _ _ Hst Hc) as [Hs|[Hk Hn]].
  - left. clear -Hs Hr Hone. induction Hr as [c|c1 c2 c3 Hst _ IH]; [done|]. apply IH.
    destruct Hst as [e He]. clear -Hs He.
    destruct e as [w|w|w|w|w|w|w|k|]; simpl in *; try done.
    + unfold on_close. by rewrite Hs.
    + unfold on_error. case_bool_decide; [|done].
      destruct (reset_fields (Some w) (Some w) c1) as (_ & H2 & _). by rewrite H2.
    + unfold ping_expire. simpl. by rewrite Hs.
    + unfold dispatchLoop. simpl. destruct (match websocket c1 with Some w => _ | None => false end); [done|].
      destruct (pingIntervalTimeout c1); simpl; by rewrite Hs.
    + apply stop_fields.
  - destruct (IH Hk) as [?|[? E]]; [by left|right]. split; [done|]. by rewrite E.
Qed.

(** An untimely event leads there: the first socket fails and is replaced, the second one opens,
    and then the first one reports again - the end of an unexpected response, say.  The
    conductor schedules a reconnection; when the timer fires [dispatchLoop] finds the second
    socket open and returns without clearing [reconnectTimeout].  When the second socket is lost
    nothing reconnects. *)
Definition late_report : list socket_event :=
  [Error 0; Reconnect true; Opened 1; Error 0; Reconnect true; Died 1; Close 1]%nat.

Fixpoint handle_all (es : list socket_event) (c : Conductor) : Conductor :=
  match es with [] => c | e :: es' => handle_all es' (handle_event e c) end.

Fixpoint all_enabled (es : list socket_event) (c : Conductor) : Prop :=
  match es with [] => True | e :: es' => enabled e c /\ all_enabled es' (handle_event e c) end.

Lemma handle_all_steps es c : all_enabled es c -> rtc step c (handle_all es c).
Proof.
  revert c. induction es as [|e es IH]; intros c H; [apply rtc_refl|].
  destruct H as [He H]. eapply rtc_l; [by apply step_event|by apply IH].
Qed.

Lemma late_report_stuck :
  let c := handle_all late_report (dispatchLoop true new_conductor) in
  rtc step (dispatchLoop true new_conductor) c /\ stuck c /\ readyState c 1 = CLOSED.
Proof.
  split; [|split; [split; reflexivity|reflexivity]].
  apply handle_all_steps. unfold late_report. cbn [all_enabled].
  vm_compute. repeat split; lia.
Qed.

(** * Witnesses *)

Lemma connection_watched_witness :
  exists w, websocket (handle_event (Opened 0) (dispatchLoop true new_conductor)) = Some w
    /\ reconnectTimeout (handle_event (PingExpire w) (handle_event (PingTick w)
         (handle_event (Opened 0) (dispatchLoop true new_conductor)))) = Some Armed.
Proof.
  destruct (connection_watched true (handle_event (Opened 0) (dispatchLoop true new_conductor)))
    as (H & _).
  - apply rtc_once. apply (step_event _ (Opened 0)). vm_compute. auto.
  - destruct (H eq_refl) as (w & Hw & _ & _ & He). exists w. by split.
Defined.
