(* ===== verification/Conductor.v ===== *)
(** The messages of the conductor (src/src/conductor/conductor.ts, protocol.ts): what an
    executor does with each request that arrives on the socket of Connection.v, and what it
    answers.

    Each [case] of the handler is a definition; [handle] is the [switch].  A case runs its
    operation in the state of the process, the system database and the running workflows, and
    catches what it throws.  The readings of clocks and random sources that a case makes are
    arguments. *)

From Stdlib Require Import Ascii.
From S2P Require Export Observe Executor Lifecycle.
From S2P Require Import Scheduler.

Open Scope Z_scope.

(** * Requests *)

(** [ListWorkflowsBody]; [ListQueuedWorkflowsBody] is the same but for [queues_only]. *)
Record ListWorkflowsBody : Type := ListWorkflowsBodyOf {
  lb_workflow_uuids : option (list string);
  lb_workflow_name : option StrFilter;
  lb_authenticated_user : option StrFilter;
  lb_start_time : option string;
  lb_end_time : option string;
  lb_completed_after : option string;
  lb_completed_before : option string;
  lb_dequeued_after : option string;
  lb_dequeued_before : option string;
  lb_status : option StrFilter;
  lb_application_version : option StrFilter;
  lb_forked_from : option StrFilter;
  lb_parent_workflow_id : option StrFilter;
  lb_queue_name : option StrFilter;
  lb_limit : option Z;
  lb_offset : option Z;
  lb_sort_desc : bool;
  lb_workflow_id_prefix : option StrFilter;
  lb_load_input : option bool;
  lb_load_output : option bool;
  lb_executor_id : option StrFilter;
  lb_queues_only : option bool;
  lb_was_forked_from : option bool;
  lb_has_parent : option bool;
  lb_attributes : option (list (string * json));
  lb_schedule_name : option StrFilter
}.

Record ForkWorkflowBody : Type := ForkWorkflowBodyOf {
  fb_workflow_id : string;
  fb_start_step : Z;
  fb_application_version : option string;
  fb_new_workflow_id : option string;
  fb_queue_name : option string;
  fb_queue_partition_key : option string
}.

Record ForkFromFailureBody : Type := ForkFromFailureBodyOf {
  ff_workflow_ids : list string;
  ff_application_version : option string;
  ff_queue_name : option string;
  ff_queue_partition_key : option string;
  ff_from_last_failure : option bool;
  ff_from_last_step : option bool;
  ff_from_step : option Z;
  ff_from_step_name : option string
}.

Record RetentionBody : Type := RetentionBodyOf {
  rb_gc_cutoff_epoch_ms : option Z;
  rb_gc_rows_threshold : option Z;
  rb_timeout_cutoff_epoch_ms : option Z
}.

Record ListSchedulesBody : Type := ListSchedulesBodyOf {
  sb_status : option StrFilter;
  sb_workflow_name : option StrFilter;
  sb_schedule_name_prefix : option StrFilter;
  sb_load_context : option bool
}.

Record GetWorkflowAggregatesBody : Type := GetWorkflowAggregatesBodyOf {
  ab_group_by_status : option bool;
  ab_group_by_name : option bool;
  ab_group_by_queue_name : option bool;
  ab_group_by_executor_id : option bool;
  ab_group_by_application_version : option bool;
  ab_select_count : option bool;
  ab_select_min_created_at : option bool;
  ab_select_max_queue_wait_ms : option bool;
  ab_select_max_total_latency_ms : option bool;
  ab_time_bucket_size_ms : option Z;
  ab_status : option (list string);
  ab_start_time : option string;
  ab_end_time : option string;
  ab_completed_after : option string;
  ab_completed_before : option string;
  ab_dequeued_after : option string;
  ab_dequeued_before : option string;
  ab_name : option (list string);
  ab_app_version : option (list string);
  ab_executor_id : option (list string);
  ab_queue_name : option (list string);
  ab_workflow_id_prefix : option (list string);
  ab_workflow_uuids : option (list string);
  ab_authenticated_user : option (list string);
  ab_forked_from : option (list string);
  ab_parent_workflow_id : option (list string);
  ab_schedule_name : option (list string);
  ab_queues_only : option bool;
  ab_was_forked_from : option bool;
  ab_has_parent : option bool;
  ab_attributes : option (list (string * json))
}.

Record GetStepAggregatesBody : Type := GetStepAggregatesBodyOf {
  tb_group_by_function_name : option bool;
  tb_group_by_status : option bool;
  tb_select_count : option bool;
  tb_select_max_duration_ms : option bool;
  tb_time_bucket_size_ms : option Z;
  tb_status : option (list string);
  tb_function_name : option (list string);
  tb_workflow_id_prefix : option (list string);
  tb_completed_after : option string;
  tb_completed_before : option string
}.

(** The requests, with the fields that their cases read *)
Inductive Request : Type :=
| ExecutorInfoRequest
| RecoveryRequest (executor_ids : option (list string))
| CancelRequest (workflow_id : string) (cancel_children : bool) (workflow_ids : option (list string))
| DeleteRequest (workflow_id : string) (delete_children : option bool) (workflow_ids : option (list string))
| ResumeRequest (workflow_id : string) (workflow_ids : option (list string)) (queue_name : option string)
| RestartRequest (workflow_id : string)
| ForkWorkflowRequest (body : ForkWorkflowBody)
| ForkFromFailureRequest (body : ForkFromFailureBody)
| ListWorkflowsRequest (body : ListWorkflowsBody)
| ListQueuedWorkflowsRequest (body : ListWorkflowsBody)
| GetWorkflowRequest (workflow_id : string) (load_input load_output : option bool)
| ExistPendingWorkflowsRequest (executor_id application_version : string)
| ListStepsRequest (workflow_id : string) (load_output : option bool) (limit offset : option Z)
| RetentionRequest (body : RetentionBody)
| GetMetricsRequest (start_time end_time metric_class : string)
| ExportWorkflowRequest (workflow_id : string) (export_children : option bool)
| ImportWorkflowRequest (serialized_workflow : string)
| AlertRequest (name message : string) (metadata : list (string * string))
| ListSchedulesRequest (body : ListSchedulesBody)
| GetScheduleRequest (schedule_name : string) (load_context : option bool)
| PauseScheduleRequest (schedule_name : string)
| ResumeScheduleRequest (schedule_name : string)
| BackfillScheduleRequest (schedule_name start end_ : string)
| TriggerScheduleRequest (schedule_name : string)
| ListApplicationVersionsRequest
| SetLatestApplicationVersionRequest (version_name : string)
| GetWorkflowEventsRequest (workflow_id : string)
| GetWorkflowNotificationsRequest (workflow_id : string)
| GetWorkflowStreamsRequest (workflow_id : string)
| GetWorkflowAggregatesRequest (body : GetWorkflowAggregatesBody)
| GetStepAggregatesRequest (body : GetStepAggregatesBody)
| ListQueuesRequest
| GetQueueRequest (name : string)
| UnknownRequest (type : string).

(** [MessageType] *)
Definition message_type (r : Request) : string :=
  match r with
  | ExecutorInfoRequest => "executor_info"
  | RecoveryRequest _ => "recovery"
  | CancelRequest _ _ _ => "cancel"
  | DeleteRequest _ _ _ => "delete"
  | ListWorkflowsRequest _ => "list_workflows"
  | ListQueuedWorkflowsRequest _ => "list_queued_workflows"
  | ResumeRequest _ _ _ => "resume"
  | RestartRequest _ => "restart"
  | GetWorkflowRequest _ _ _ => "get_workflow"
  | ExistPendingWorkflowsRequest _ _ => "exist_pending_workflows"
  | ListStepsRequest _ _ _ _ => "list_steps"
  | ForkWorkflowRequest _ => "fork_workflow"
  | RetentionRequest _ => "retention"
  | GetMetricsRequest _ _ _ => "get_metrics"
  | ExportWorkflowRequest _ _ => "export_workflow"
  | ImportWorkflowRequest _ => "import_workflow"
  | AlertRequest _ _ _ => "alert"
  | ListSchedulesRequest _ => "list_schedules"
  | GetScheduleRequest _ _ => "get_schedule"
  | PauseScheduleRequest _ => "pause_schedule"
  | ResumeScheduleRequest _ => "resume_schedule"
  | BackfillScheduleRequest _ _ _ => "backfill_schedule"
  | TriggerScheduleRequest _ => "trigger_schedule"
  | ListApplicationVersionsRequest => "list_application_versions"
  | SetLatestApplicationVersionRequest _ => "set_latest_application_version"
  | GetWorkflowEventsRequest _ => "get_workflow_events"
  | GetWorkflowNotificationsRequest _ => "get_workflow_notifications"
  | GetWorkflowStreamsRequest _ => "get_workflow_streams"
  | GetWorkflowAggregatesRequest _ => "get_workflow_aggregates"
  | GetStepAggregatesRequest _ => "get_step_aggregates"
  | ForkFromFailureRequest _ => "fork_from_failure"
  | ListQueuesRequest => "list_queues"
  | GetQueueRequest _ => "get_queue"
  | UnknownRequest t => t
  end.

(** * Answers *)

(** [WorkflowsOutput] *)
Record WorkflowsOutput : Type := WorkflowsOutputOf {
  WorkflowUUID : string;
  Status : string;
  WorkflowName : string;
  WorkflowClassName : option string;
  WorkflowConfigName : option string;
  AuthenticatedUser : option string;
  AssumedRole : option string;
  AuthenticatedRoles : option string;
  Input : option string;
  Output : option string;
  Error : option string;
  CreatedAt : option string;
  UpdatedAt : option string;
  QueueName : option string;
  ApplicationVersion : option string;
  ExecutorID : option string;
  WorkflowTimeoutMS : option string;
  WorkflowDeadlineEpochMS : option string;
  DeduplicationID : option string;
  Priority : string;
  QueuePartitionKey : option string;
  DequeuedAt : option string;
  ForkedFrom : option string;
  WasForkedFrom : bool;
  ParentWorkflowID : option string;
  DelayUntilEpochMS : option string;
  CompletedAt : option string;
  Attributes : option string;
  ScheduleName : option string
}.

(** [WorkflowSteps] *)
Record WorkflowSteps : Type := WorkflowStepsOf {
  so_function_id : Z;
  so_function_name : string;
  so_output : option string;
  so_error : option string;
  so_child_workflow_id : option string;
  so_started_at_epoch_ms : option string;
  so_completed_at_epoch_ms : option string
}.

(** [ScheduleOutput] *)
Record ScheduleOutput : Type := ScheduleOutputOf {
  co_schedule_id : string;
  co_schedule_name : string;
  co_workflow_name : string;
  co_workflow_class_name : option string;
  co_schedule : string;
  co_status : string;
  co_context : option string;
  co_last_fired_at : option string;
  co_automatic_backfill : bool;
  co_cron_timezone : option string;
  co_queue_name : option string
}.

(** [NotificationOutput] *)
Record NotificationOutput : Type := NotificationOutputOf {
  no_topic : option string;
  no_message : string;
  no_created_at_epoch_ms : Z;
  no_consumed : bool
}.

(** What [globalParams] and the host say of the executor *)
Record ExecutorInfo : Type := ExecutorInfoOf {
  ei_executor_id : string;
  ei_application_version : string;
  ei_hostname : string;
  ei_dbos_version : string;
  ei_executor_metadata : option json
}.

(** The field of a response that is its own *)
Inductive Payload : Type :=
| NoPayload
| Info (i : ExecutorInfo) (language : string)
| Success (b : bool)
| NewWorkflowID (id : option string)
| ForkedWorkflowIDs (ids : option (list string))
| WorkflowList (l : list WorkflowsOutput)
| Workflow (w : option WorkflowsOutput)
| Exist (b : bool)
| Steps (l : option (list WorkflowSteps))
| Metrics (l : list MetricData)
| SerializedWorkflow (s : option string)
| ScheduleList (l : list ScheduleOutput)
| Schedule (s : option ScheduleOutput)
| BackfilledIDs (l : list string)
| TriggeredID (id : option string)
| Versions (l : list VersionInfo)
| Events (l : option (list (string * string)))
| Notifications (l : option (list NotificationOutput))
| Streams (l : option (list (string * list string)))
| WorkflowAggregates (l : list WorkflowAggregateRow)
| StepAggregates (l : list StepAggregateRow)
| QueueList (l : list QueueRecord)
| Queue (q : option QueueRecord).

(** [BaseResponse] *)
Record Response : Type := ResponseOf {
  r_type : string;
  r_request_id : string;
  r_error_message : option string;
  r_payload : Payload
}.

(** * Conversions *)

(** Whether a value counts as true *)
Definition js_truthy (v : jsval) : bool :=
  match v with
  | VUndefined | VNull => false
  | VBool b => b
  | VNum n | VBigInt n => negb (n =? 0)
  | VStr s => negb (String.eqb s "")
  | _ => true
  end.

(** What the cases use of Node, of the libraries and of the configuration: dates, JSONB
    containment, time zones, the collation of the server, the configured serializer, [inspect],
    the JSON of a serialized error, the JSON and the gzip encoding of exported workflows, the
    alert handler, and the parameters of the executor. *)
Record Platform (Err : Type) : Type := PlatformOf {
  pl_Date_parse : string -> option Z;
  pl_toISOString : Z -> string;
  pl_jsonb_contains : json -> json -> bool;
  pl_date_fields : option string -> option (Z -> DateFields);
  pl_name_le : string -> string -> bool;
  pl_parse : string -> dbos_error + jsval;
  pl_stringifyArgs : Z -> jsval -> dbos_error + string;
  pl_serializerName : string;
  pl_safe_args : string -> option string -> jsval;
  pl_safe_value : option string -> option string -> jsval;
  pl_safe_error : string -> option string -> Err;
  pl_inspect : jsval -> string;
  pl_error_json : Err -> string;
  pl_export_json : list ExportedWorkflow -> string;
  pl_import_json : string -> dbos_error + list ExportedWorkflow;
  pl_gzip : string -> string;
  pl_gunzip : string -> dbos_error + string;
  pl_alert_handler : option (string -> string -> list (string * string) -> dbos_error + unit);
  pl_info : ExecutorInfo
}.

(** The readings of one case: [Date.now()] or SQL's [now()] of its single statement, of each
    level of a cascade, of each executor ID, of each cancelled workflow and of each due time, and
    the random UUIDs *)
Record CaseReadings : Type := CaseReadingsOf {
  cr_now : Z;
  cr_levels : list Z;
  cr_executor : string -> Z;
  cr_workflow : string -> Z;
  cr_due : Z -> Z * Z;
  cr_uuid : string;
  cr_uuids : list string
}.

(** The outcome of a case: its payload and its error message *)
Definition reply : Type := Payload * option string.

(** [try { ... } catch (e) { errorMsg = `what: ${e.message}` }] *)
Definition attempt {A} (what : string) (m : EX A) (ok : A -> Payload) (failed : Payload)
    (st : exec_state) : reply * exec_state :=
  match m st with
  | (Ok a, st') => ((ok a, None), st')
  | (Throw e, st') => ((failed, Some (what +:+ ": " +:+ error_message e)), st')
  end.

(** A query *)
Definition query {A} (f : sysdb -> outcome dbos_error A) : EX A := fun st => (f st.1, st).

Definition outcome_of {A} (r : dbos_error + A) : outcome dbos_error A :=
  match r with inl e => Throw e | inr a => Ok a end.

Definition in_template (o : option string) : string := default "undefined" o.

(** The filter of [listSchedules]: an empty text filters nothing, and the server refuses an
    empty list. *)
Definition schedule_filter (f : option StrFilter) : outcome dbos_error (option (list string)) :=
  match f with
  | None | Some (Query.One "") => Ok None
  | Some (Query.One s) => Ok (Some [s])
  | Some (Query.Any []) => Throw syntax_error
  | Some (Query.Any l) => Ok (Some l)
  end.

(** The request of [LIST_WORKFLOWS] *)
Definition list_request (b : ListWorkflowsBody) (queuesOnly : bool) : GetWorkflowsInput :=
  {| q_workflowIDs := lb_workflow_uuids b;
     q_workflowName := lb_workflow_name b;
     q_status := lb_status b;
     q_startTime := lb_start_time b;
     q_endTime := lb_end_time b;
     q_completedAfter := lb_completed_after b;
     q_completedBefore := lb_completed_before b;
     q_dequeuedAfter := lb_dequeued_after b;
     q_dequeuedBefore := lb_dequeued_before b;
     q_authenticatedUser := lb_authenticated_user b;
     q_applicationVersion := lb_application_version b;
     q_executorId := lb_executor_id b;
     q_workflow_id_prefix := lb_workflow_id_prefix b;
     q_queueName := lb_queue_name b;
     q_queuesOnly := queuesOnly;
     q_forkedFrom := lb_forked_from b;
     q_wasForkedFrom := lb_was_forked_from b;
     q_parentWorkflowID := lb_parent_workflow_id b;
     q_hasParent := lb_has_parent b;
     q_attributes := lb_attributes b;
     q_scheduleName := lb_schedule_name b;
     q_limit := lb_limit b;
     q_offset := lb_offset b;
     q_sortDesc := lb_sort_desc b;
     q_loadInput := Some (default false (lb_load_input b));
     q_loadOutput := Some (default false (lb_load_output b)) |}.

Section conductor.
Context {Err : Type} (P : Platform Err) (rd : CaseReadings).

Notation Date_parse := (pl_Date_parse _ P).
Notation jsonb_contains := (pl_jsonb_contains _ P).
Notation inspectForConductor := (pl_inspect _ P).

Definition to_status : WorkflowStatusInternal -> WorkflowStatus Err :=
  toWorkflowStatus (pl_safe_args _ P) (fun t => pl_safe_value _ P (Some t)) (pl_safe_error _ P).

(** A value that is shown if it counts as true *)
Definition shown (v : option jsval) : option string :=
  match v with Some v => if js_truthy v then Some (inspectForConductor v) else None | None => None end.

(** [new WorkflowsOutput(info)] *)
Definition workflows_output (info : WorkflowStatus Err) : WorkflowsOutput :=
  {| WorkflowUUID := w_workflowID _ info;
     Status := Query.w_status _ info;
     WorkflowName := w_workflowName _ info;
     WorkflowClassName := truthy_str (Some (w_workflowClassName _ info));
     WorkflowConfigName := truthy_str (Some (w_workflowConfigName _ info));
     AuthenticatedUser := truthy_str (Some (w_authenticatedUser _ info));
     AssumedRole := truthy_str (Some (w_assumedRole _ info));
     AuthenticatedRoles :=
       match w_authenticatedRoles _ info with
       | [] => None
       | roles => Some (print (JArr (map JStr roles)))
       end;
     Input := shown (w_input _ info);
     Output := shown (w_output _ info);
     Error := pl_error_json _ P <$> w_error _ info;
     CreatedAt := stringify_Z <$> truthy_num (Some (w_createdAt _ info));
     UpdatedAt := stringify_Z <$> truthy_num (w_updatedAt _ info);
     QueueName := truthy_str (w_queueName _ info);
     ApplicationVersion := w_applicationVersion _ info;
     ExecutorID := w_executorId _ info;
     WorkflowTimeoutMS := stringify_Z <$> w_timeoutMS _ info;
     WorkflowDeadlineEpochMS := stringify_Z <$> w_deadlineEpochMS _ info;
     DeduplicationID := w_deduplicationID _ info;
     Priority := stringify_Z (w_priority _ info);
     QueuePartitionKey := w_queuePartitionKey _ info;
     DequeuedAt := stringify_Z <$> w_dequeuedAt _ info;
     ForkedFrom := w_forkedFrom _ info;
     WasForkedFrom := w_wasForkedFrom _ info;
     ParentWorkflowID := w_parentWorkflowID _ info;
     DelayUntilEpochMS := stringify_Z <$> w_delayUntilEpochMS _ info;
     CompletedAt := stringify_Z <$> w_completedAt _ info;
     Attributes := print <$> w_attributes _ info;
     ScheduleName := w_scheduleName _ info |}.

(** [new WorkflowSteps(info)] *)
Definition workflow_steps (info : StepInfo Err) : WorkflowSteps :=
  {| so_function_id := si_functionID _ info;
     so_function_name := si_name _ info;
     so_output := shown (si_output _ info);
     so_error := pl_error_json _ P <$> si_error _ info;
     so_child_workflow_id := si_childWorkflowID _ info;
     so_started_at_epoch_ms := stringify_Z <$> si_startedAtEpochMs _ info;
     so_completed_at_epoch_ms := stringify_Z <$> si_completedAtEpochMs _ info |}.

(** The output of a schedule; its context is parsed when it is loaded. *)
Definition schedule_output (loadContext : bool) (s : WorkflowScheduleInternal)
    : outcome dbos_error ScheduleOutput :=
  let output (context : option string) :=
    {| co_schedule_id := si_scheduleId s;
       co_schedule_name := si_scheduleName s;
       co_workflow_name := si_workflowName s;
       co_workflow_class_name := truthy_str (Some (si_workflowClassName s));
       co_schedule := si_schedule s;
       co_status := si_status s;
       co_context := context;
       co_last_fired_at := si_lastFiredAt s;
       co_automatic_backfill := si_automaticBackfill s;
       co_cron_timezone := si_cronTimezone s;
       co_queue_name := si_queueName s |} in
  if loadContext then
    match pl_parse _ P (si_context s) with
    | inl e => Throw e
    | inr v => Ok (output (Some (inspectForConductor v)))
    end
  else Ok (output None).

(** * The cases *)

(** [EXECUTOR_INFO] *)
Definition on_executor_info (st : exec_state) : reply * exec_state :=
  ((Info (pl_info _ P) "typescript", None), st).

(** [RECOVERY] *)
Definition on_recovery (executor_ids : option (list string)) : exec_state -> reply * exec_state :=
  attempt "Exception encountered when recovering workflows"
    (recoverPendingWorkflows (ei_application_version (pl_info _ P))
       (map (fun x => (x, cr_executor rd x)) (default ["local"] executor_ids)))
    (fun _ => Success true) (Success false).

(** [CANCEL] *)
Definition on_cancel (workflow_id : string) (cancel_children : bool) (workflow_ids : option (list string))
    : exec_state -> reply * exec_state :=
  let cancelIds := default [workflow_id] workflow_ids in
  attempt ("Exception encountered when cancelling workflow(s) " +:+ String.concat "," cancelIds)
    (on_sys (cancelWorkflows (cr_levels rd) cancelIds cancel_children))
    (fun _ => Success true) (Success false).

(** [deleteWorkflows] in the state of the process *)
Definition delete_in_process (ids : list string) (children : bool) : EX unit := fun st =>
  match deleteWorkflows ids children st.2 st.1 with
  | (Ok m, d) => (Ok tt, (d, m))
  | (Throw e, d) => (Throw e, (d, st.2))
  end.

(** [DELETE] *)
Definition on_delete (workflow_id : string) (delete_children : option bool)
    (workflow_ids : option (list string)) : exec_state -> reply * exec_state :=
  let deleteIds := default [workflow_id] workflow_ids in
  attempt ("Exception encountered when deleting workflow(s) " +:+ String.concat "," deleteIds)
    (delete_in_process deleteIds (default false delete_children))
    (fun _ => Success true) (Success false).

(** [RESUME] *)
Definition on_resume (workflow_id : string) (workflow_ids : option (list string))
    (queue_name : option string) : exec_state -> reply * exec_state :=
  let resumeIds := default [workflow_id] workflow_ids in
  attempt ("Exception encountered when resuming workflow(s) " +:+ String.concat "," resumeIds)
    (on_sys (resumeWorkflows (cr_now rd) resumeIds queue_name))
    (fun _ => Success true) (Success false).

(** [forkWorkflow] of the executor, outside the context of a workflow, where no ID is assigned for
    the next workflow: the new workflow has a random ID if it is given none. *)
Definition executor_fork (workflowID : string) (startStep : Z) (newWorkflowID : option string)
    (o : ForkOptions) : EX string :=
  let id := default (cr_uuid rd) newWorkflowID in
  let* _ := on_sys (forkWorkflow (cr_now rd) workflowID startStep id o) in
  ret id.

(** [RESTART] *)
Definition on_restart (workflow_id : string) : exec_state -> reply * exec_state :=
  attempt ("Exception encountered when restarting workflow " +:+ workflow_id)
    (executor_fork workflow_id 0 None (ForkOptionsOf None None None None []))
    (fun _ => Success true) (Success false).

(** [FORK_WORKFLOW] *)
Definition on_fork_workflow (b : ForkWorkflowBody) : exec_state -> reply * exec_state :=
  attempt ("Exception encountered when forking workflow " +:+ fb_workflow_id b
           +:+ " to new workflow " +:+ in_template (fb_new_workflow_id b) +:+ " on step "
           +:+ stringify_Z (fb_start_step b) +:+ ", app version "
           +:+ in_template (fb_application_version b))
    (executor_fork (fb_workflow_id b) (fb_start_step b) (fb_new_workflow_id b)
       (ForkOptionsOf (fb_application_version b) None (fb_queue_name b) (fb_queue_partition_key b) []))
    (fun id => NewWorkflowID (Some id)) (NewWorkflowID None).

(** [FORK_FROM_FAILURE] *)
Definition on_fork_from_failure (b : ForkFromFailureBody) : exec_state -> reply * exec_state :=
  attempt "Exception encountered when bulk forking workflows"
    (on_sys (forkFromFailure (cr_now rd) (ff_workflow_ids b) (cr_uuids rd)
       (ForkFromModesOf (default false (ff_from_last_failure b)) (default false (ff_from_last_step b))
          (ff_from_step b) (ff_from_step_name b))
       (ForkOptionsOf (ff_application_version b) None (ff_queue_name b) (ff_queue_partition_key b) [])))
    (fun ids => ForkedWorkflowIDs (Some ids)) (ForkedWorkflowIDs None).

Definition list_as_output (l : list WorkflowStatusInternal) : Payload :=
  WorkflowList (map (fun i => workflows_output (to_status i)) l).

(** [LIST_WORKFLOWS] *)
Definition on_list_workflows (b : ListWorkflowsBody) : exec_state -> reply * exec_state :=
  attempt "Exception encountered when listing workflows"
    (query (listWorkflows Date_parse jsonb_contains (list_request b (default false (lb_queues_only b)))))
    list_as_output (WorkflowList []).

(** [LIST_QUEUED_WORKFLOWS] *)
Definition on_list_queued_workflows (b : ListWorkflowsBody) : exec_state -> reply * exec_state :=
  attempt "Exception encountered when listing queued workflows"
    (query (listQueuedWorkflows Date_parse jsonb_contains (list_request b false)))
    list_as_output (WorkflowList []).

(** [GET_WORKFLOW] *)
Definition on_get_workflow (workflow_id : string) (load_input load_output : option bool)
    : exec_state -> reply * exec_state :=
  attempt ("Exception encountered when getting workflow " +:+ workflow_id)
    (query (listWorkflows Date_parse jsonb_contains
       (no_filters <| q_workflowIDs := Some [workflow_id] |>
                   <| q_loadInput := Some (default true load_input) |>
                   <| q_loadOutput := Some (default true load_output) |>)))
    (fun l => Workflow ((fun i => workflows_output (to_status i)) <$> head l)) (Workflow None).

(** [EXIST_PENDING_WORKFLOWS] *)
Definition on_exist_pending (executor_id application_version : string)
    : exec_state -> reply * exec_state :=
  attempt "Exception encountered when checking for pending workflows"
    (on_sys (getPendingWorkflows executor_id application_version))
    (fun ids => Exist (0 <? Z.of_nat (length ids))) (Exist false).

(** [LIST_STEPS] *)
Definition on_list_steps (workflow_id : string) (load_output : option bool) (lim offset : option Z)
    : exec_state -> reply * exec_state :=
  attempt ("Exception encountered when listing steps " +:+ workflow_id)
    (query (fun d => Ok (listWorkflowSteps (fun t => pl_safe_value _ P (Some t)) (pl_safe_error _ P)
                           workflow_id (default true load_output) lim offset d)))
    (fun l => Steps (map workflow_steps <$> l)) (Steps None).

(** [RETENTION] *)
Definition on_retention (b : RetentionBody) : exec_state -> reply * exec_state :=
  attempt "Exception encountered during enforcing retention policy"
    (on_sys (garbageCollect (rb_gc_cutoff_epoch_ms b) (rb_gc_rows_threshold b)) ;*
     match truthy_num (rb_timeout_cutoff_epoch_ms b) with
     | Some cutoff => on_sys (globalTimeout Date_parse jsonb_contains (pl_toISOString _ P) cutoff
                                (cr_workflow rd))
     | None => ret tt
     end)
    (fun _ => Success true) (Success false).

(** [GET_METRICS] *)
Definition on_get_metrics (start_time end_time metric_class : string) (st : exec_state)
    : reply * exec_state :=
  if String.eqb metric_class "workflow_step_count" then
    attempt "Exception encountered when getting metrics"
      (query (getMetrics Date_parse start_time end_time)) Metrics (Metrics []) st
  else ((Metrics [], Some ("Unexpected metric class: " +:+ metric_class)), st).

(** [EXPORT_WORKFLOW] *)
Definition on_export (workflow_id : string) (export_children : option bool)
    : exec_state -> reply * exec_state :=
  attempt ("Exception encountered when exporting workflow " +:+ workflow_id)
    (query (fun d => outcome_of (exportWorkflow workflow_id (default false export_children) d)))
    (fun exported => SerializedWorkflow
       match exported with
       | [] => None
       | _ => Some (pl_gzip _ P (pl_export_json _ P exported))
       end)
    (SerializedWorkflow None).

(** [IMPORT_WORKFLOW] *)
Definition on_import (serialized_workflow : string) : exec_state -> reply * exec_state :=
  attempt "Exception encountered when importing workflow"
    (on_sys (let* decompressed := lift (pl_gunzip _ P serialized_workflow) in
             let* workflows := lift (pl_import_json _ P decompressed) in
             importWorkflow workflows))
    (fun _ => Success true) (Success false).

(** [ALERT] *)
Definition on_alert (name message : string) (metadata : list (string * string))
    : exec_state -> reply * exec_state :=
  attempt "Exception in alert handler"
    (query (fun _ => match pl_alert_handler _ P with
                     | Some handler => outcome_of (handler name message metadata)
                     | None => Ok tt
                     end))
    (fun _ => Success true) (Success false).

(** [LIST_SCHEDULES] *)
Definition on_list_schedules (b : ListSchedulesBody) : exec_state -> reply * exec_state :=
  attempt "Exception encountered when listing schedules"
    (query (fun d =>
       match schedule_filter (sb_status b), schedule_filter (sb_workflow_name b),
             schedule_filter (sb_schedule_name_prefix b) with
       | Ok status, Ok name, Ok prefix =>
           collect (schedule_output (default true (sb_load_context b)))
             (listSchedules (pl_name_le _ P) (ScheduleFiltersOf status name prefix) d)
       | Throw e, _, _ | _, Throw e, _ | _, _, Throw e => Throw e
       end))
    ScheduleList (ScheduleList []).

(** [GET_SCHEDULE] *)
Definition on_get_schedule (schedule_name : string) (load_context : option bool)
    : exec_state -> reply * exec_state :=
  attempt ("Exception encountered when getting schedule " +:+ schedule_name)
    (query (fun d => match getSchedule schedule_name d with
                     | Some s => match schedule_output (default true load_context) s with
                                 | Ok o => Ok (Some o)
                                 | Throw e => Throw e
                                 end
                     | None => Ok None
                     end))
    Schedule (Schedule None).

(** [PAUSE_SCHEDULE] *)
Definition on_pause_schedule (schedule_name : string) : exec_state -> reply * exec_state :=
  attempt ("Exception encountered when pausing schedule '" +:+ schedule_name +:+ "'")
    (on_sys (setScheduleStatus schedule_name "PAUSED"))
    (fun _ => Success true) (Success false).

(** [RESUME_SCHEDULE] *)
Definition on_resume_schedule (schedule_name : string) : exec_state -> reply * exec_state :=
  attempt ("Exception encountered when resuming schedule '" +:+ schedule_name +:+ "'")
    (on_sys (setScheduleStatus schedule_name "ACTIVE"))
    (fun _ => Success true) (Success false).

(** The bounds of a backfill: an invalid date is NaN, with which the loop makes no round. *)
Definition backfill_bounds (start end_ : string) : Z * Z :=
  match Date_parse start, Date_parse end_ with
  | Some s, Some e => (s, e)
  | _, _ => (0, 0)
  end.

(** [BACKFILL_SCHEDULE] *)
Definition on_backfill_schedule (schedule_name start end_ : string)
    : exec_state -> reply * exec_state :=
  attempt ("Exception encountered when backfilling schedule '" +:+ schedule_name +:+ "'")
    (on_sys (backfillSchedule (pl_date_fields _ P) (pl_toISOString _ P) (pl_parse _ P)
       (pl_stringifyArgs _ P) (pl_serializerName _ P) (cr_due rd) schedule_name
       (backfill_bounds start end_).1 (backfill_bounds start end_).2))
    BackfilledIDs (BackfilledIDs []).

(** [TRIGGER_SCHEDULE] *)
Definition on_trigger_schedule (schedule_name : string) : exec_state -> reply * exec_state :=
  attempt ("Exception encountered when triggering schedule '" +:+ schedule_name +:+ "'")
    (on_sys (triggerSchedule (pl_toISOString _ P) (pl_parse _ P) (pl_stringifyArgs _ P)
       (pl_serializerName _ P) (cr_due rd (cr_now rd)).1 (cr_due rd (cr_now rd)).2 (cr_now rd)
       schedule_name))
    (fun id => TriggeredID (Some id)) (TriggeredID None).

(** [LIST_APPLICATION_VERSIONS] *)
Definition on_list_versions : exec_state -> reply * exec_state :=
  attempt "Exception encountered when listing application versions"
    (query (fun d => Ok (listApplicationVersions d))) Versions (Versions []).

(** [SET_LATEST_APPLICATION_VERSION] *)
Definition on_set_latest_version (version_name : string) : exec_state -> reply * exec_state :=
  attempt ("Exception encountered when setting latest application version '" +:+ version_name +:+ "'")
    (on_sys (updateApplicationVersionTimestamp version_name (cr_now rd)))
    (fun _ => Success true) (Success false).

(** [GET_WORKFLOW_EVENTS] *)
Definition on_get_events (workflow_id : string) : exec_state -> reply * exec_state :=
  attempt ("Exception encountered when getting events for workflow " +:+ workflow_id)
    (query (fun d => Ok (getAllEvents (pl_safe_value _ P) workflow_id d)))
    (fun events => Events (Some (map (fun e => (e.1, inspectForConductor e.2)) (Object_entries events))))
    (Events None).

(** [GET_WORKFLOW_NOTIFICATIONS] *)
Definition on_get_notifications (workflow_id : string) : exec_state -> reply * exec_state :=
  attempt ("Exception encountered when getting notifications for workflow " +:+ workflow_id)
    (query (fun d => Ok (getAllNotifications (pl_safe_value _ P) workflow_id d)))
    (fun l => Notifications (Some (map (fun n =>
       NotificationOutputOf (n_topic n) (inspectForConductor (n_message n)) (n_createdAtEpochMs n)
         (n_consumed n)) l)))
    (Notifications None).

(** [GET_WORKFLOW_STREAMS] *)
Definition on_get_streams (workflow_id : string) : exec_state -> reply * exec_state :=
  attempt ("Exception encountered when getting streams for workflow " +:+ workflow_id)
    (query (fun d => outcome_of (getAllStreamEntries (pl_safe_value _ P) (pl_name_le _ P) workflow_id d)))
    (fun l => Streams (Some (map (fun e => (e.1, map inspectForConductor e.2)) (Object_entries l))))
    (Streams None).

(** The request of [GET_WORKFLOW_AGGREGATES]; without any [select_...] flag it asks for the
    counts. *)
Definition aggregates_request (b : GetWorkflowAggregatesBody) : GetWorkflowAggregatesInput :=
  let flag := default false in
  let selectCount := flag (ab_select_count b) in
  let selectMinCreatedAt := flag (ab_select_min_created_at b) in
  let selectMaxQueueWaitMs := flag (ab_select_max_queue_wait_ms b) in
  let selectMaxTotalLatencyMs := flag (ab_select_max_total_latency_ms b) in
  {| a_groupByStatus := flag (ab_group_by_status b);
     a_groupByName := flag (ab_group_by_name b);
     a_groupByQueueName := flag (ab_group_by_queue_name b);
     a_groupByExecutorId := flag (ab_group_by_executor_id b);
     a_groupByApplicationVersion := flag (ab_group_by_application_version b);
     a_selectCount :=
       if negb (selectCount || selectMinCreatedAt || selectMaxQueueWaitMs || selectMaxTotalLatencyMs)
       then true else selectCount;
     a_selectMinCreatedAt := selectMinCreatedAt;
     a_selectMaxQueueWaitMs := selectMaxQueueWaitMs;
     a_selectMaxTotalLatencyMs := selectMaxTotalLatencyMs;
     a_timeBucketSizeMs := ab_time_bucket_size_ms b;
     a_status := default [] (ab_status b);
     a_startTime := ab_start_time b;
     a_endTime := ab_end_time b;
     a_completedAfter := ab_completed_after b;
     a_completedBefore := ab_completed_before b;
     a_dequeuedAfter := ab_dequeued_after b;
     a_dequeuedBefore := ab_dequeued_before b;
     a_name := default [] (ab_name b);
     a_appVersion := default [] (ab_app_version b);
     a_executorId := default [] (ab_executor_id b);
     a_queueName := default [] (ab_queue_name b);
     a_workflowIdPrefix := default [] (ab_workflow_id_prefix b);
     a_workflowIDs := default [] (ab_workflow_uuids b);
     a_authenticatedUser := default [] (ab_authenticated_user b);
     a_forkedFrom := default [] (ab_forked_from b);
     a_wasForkedFrom := ab_was_forked_from b;
     a_parentWorkflowID := default [] (ab_parent_workflow_id b);
     a_hasParent := ab_has_parent b;
     a_queuesOnly := flag (ab_queues_only b);
     a_attributes := ab_attributes b;
     a_scheduleName := default [] (ab_schedule_name b) |}.

(** [GET_WORKFLOW_AGGREGATES]; the rows keep their fields. *)
Definition on_workflow_aggregates (b : GetWorkflowAggregatesBody) : exec_state -> reply * exec_state :=
  attempt "Exception encountered when getting workflow aggregates"
    (query (getWorkflowAggregates Date_parse jsonb_contains (aggregates_request b)))
    WorkflowAggregates (WorkflowAggregates []).

(** The request of [GET_STEP_AGGREGATES] *)
Definition step_aggregates_request (b : GetStepAggregatesBody) : GetStepAggregatesInput :=
  let flag := default false in
  let selectCount := flag (tb_select_count b) in
  let selectMaxDurationMs := flag (tb_select_max_duration_ms b) in
  {| s_groupByFunctionName := flag (tb_group_by_function_name b);
     s_groupByStatus := flag (tb_group_by_status b);
     s_selectCount := if negb (selectCount || selectMaxDurationMs) then true else selectCount;
     s_selectMaxDurationMs := selectMaxDurationMs;
     s_timeBucketSizeMs := tb_time_bucket_size_ms b;
     s_status := default [] (tb_status b);
     s_functionName := default [] (tb_function_name b);
     s_workflowIdPrefix := default [] (tb_workflow_id_prefix b);
     s_completedAfter := tb_completed_after b;
     s_completedBefore := tb_completed_before b |}.

(** [GET_STEP_AGGREGATES] *)
Definition on_step_aggregates (b : GetStepAggregatesBody) : exec_state -> reply * exec_state :=
  attempt "Exception encountered when getting step aggregates"
    (query (getStepAggregates Date_parse (step_aggregates_request b)))
    StepAggregates (StepAggregates []).

(** [LIST_QUEUES]; the output has the fields of the record. *)
Definition on_list_queues : exec_state -> reply * exec_state :=
  attempt "Exception encountered when listing queues"
    (query (fun d => Ok (listQueues d))) QueueList (QueueList []).

(** [GET_QUEUE] *)
Definition on_get_queue (name : string) : exec_state -> reply * exec_state :=
  attempt ("Exception encountered when getting queue " +:+ name)
    (query (fun d => Ok (getQueue name d))) Queue (Queue None).

(** [default]: a message of another type is answered as well. *)
Definition on_unknown (st : exec_state) : reply * exec_state := ((NoPayload, Some "Unknown message type"), st).

(** The [switch] on the type of the message *)
Definition dispatch (r : Request) : exec_state -> reply * exec_state :=
  match r with
  | ExecutorInfoRequest => on_executor_info
  | RecoveryRequest ids => on_recovery ids
  | CancelRequest id children ids => on_cancel id children ids
  | DeleteRequest id children ids => on_delete id children ids
  | ResumeRequest id ids q => on_resume id ids q
  | RestartRequest id => on_restart id
  | ForkWorkflowRequest b => on_fork_workflow b
  | ForkFromFailureRequest b => on_fork_from_failure b
  | ListWorkflowsRequest b => on_list_workflows b
  | ListQueuedWorkflowsRequest b => on_list_queued_workflows b
  | GetWorkflowRequest id li lo => on_get_workflow id li lo
  | ExistPendingWorkflowsRequest x v => on_exist_pending x v
  | ListStepsRequest id lo lim off => on_list_steps id lo lim off
  | RetentionRequest b => on_retention b
  | GetMetricsRequest s e c => on_get_metrics s e c
  | ExportWorkflowRequest id children => on_export id children
  | ImportWorkflowRequest s => on_import s
  | AlertRequest n m md => on_alert n m md
  | ListSchedulesRequest b => on_list_schedules b
  | GetScheduleRequest n lc => on_get_schedule n lc
  | PauseScheduleRequest n => on_pause_schedule n
  | ResumeScheduleRequest n => on_resume_schedule n
  | BackfillScheduleRequest n s e => on_backfill_schedule n s e
  | TriggerScheduleRequest n => on_trigger_schedule n
  | ListApplicationVersionsRequest => on_list_versions
  | SetLatestApplicationVersionRequest n => on_set_latest_version n
  | GetWorkflowEventsRequest id => on_get_events id
  | GetWorkflowNotificationsRequest id => on_get_notifications id
  | GetWorkflowStreamsRequest id => on_get_streams id
  | GetWorkflowAggregatesRequest b => on_workflow_aggregates b
  | GetStepAggregatesRequest b => on_step_aggregates b
  | ListQueuesRequest => on_list_queues
  | GetQueueRequest n => on_get_queue n
  | UnknownRequest _ => on_unknown
  end.

(** The handler of a message: the response it sends, and the state it leaves *)
Definition handle (request_id : string) (r : Request) (st : exec_state) : Response * exec_state :=
  let '((payload, errorMsg), st') := dispatch r st in
  (ResponseOf (message_type r) request_id errorMsg payload, st').

(** * Effects *)

(** An operation whose failure leaves no trace *)
Definition all_or_nothing {A} (m : EX A) : Prop := forall st e st', m st = (Throw e, st') -> st' = st.

(** The requests whose case is one operation that takes effect as a whole *)
Definition atomic (r : Request) : bool :=
  match r with
  | RecoveryRequest _ | CancelRequest _ true _ | RetentionRequest _ | BackfillScheduleRequest _ _ _ => false
  | _ => true
  end.

(** The requests that only read *)
Definition read_only (r : Request) : bool :=
  match r with
  | RecoveryRequest _ | CancelRequest _ _ _ | DeleteRequest _ _ _ | ResumeRequest _ _ _
  | RestartRequest _ | ForkWorkflowRequest _ | ForkFromFailureRequest _ | RetentionRequest _
  | ImportWorkflowRequest _ | PauseScheduleRequest _ | ResumeScheduleRequest _
  | BackfillScheduleRequest _ _ _ | TriggerScheduleRequest _
  | SetLatestApplicationVersionRequest _ => false
  | _ => true
  end.

(** What a response carries when its request failed *)
Definition failed_payload (r : Request) : Payload :=
  match r with
  | RecoveryRequest _ | CancelRequest _ _ _ | DeleteRequest _ _ _ | ResumeRequest _ _ _
  | RestartRequest _ | RetentionRequest _ | ImportWorkflowRequest _ | AlertRequest _ _ _
  | PauseScheduleRequest _ | ResumeScheduleRequest _ | SetLatestApplicationVersionRequest _ => Success false
  | ForkWorkflowRequest _ => NewWorkflowID None
  | ForkFromFailureRequest _ => ForkedWorkflowIDs None
  | ListWorkflowsRequest _ | ListQueuedWorkflowsRequest _ => WorkflowList []
  | GetWorkflowRequest _ _ _ => Workflow None
  | ExistPendingWorkflowsRequest _ _ => Exist false
  | ListStepsRequest _ _ _ _ => Steps None
  | GetMetricsRequest _ _ _ => Metrics []
  | ExportWorkflowRequest _ _ => SerializedWorkflow None
  | ListSchedulesRequest _ => ScheduleList []
  | GetScheduleRequest _ _ => Schedule None
  | BackfillScheduleRequest _ _ _ => BackfilledIDs []
  | TriggerScheduleRequest _ => TriggeredID None
  | ListApplicationVersionsRequest => Versions []
  | GetWorkflowEventsRequest _ => Events None
  | GetWorkflowNotificationsRequest _ => Notifications None
  | GetWorkflowStreamsRequest _ => Streams None
  | GetWorkflowAggregatesRequest _ => WorkflowAggregates []
  | GetStepAggregatesRequest _ => StepAggregates []
  | ListQueuesRequest => QueueList []
  | GetQueueRequest _ => Queue None
  | ExecutorInfoRequest | UnknownRequest _ => NoPayload
  end.

(** ** What a request asks for

    The operation of a request, with what is answered when it returns, and the text that
    precedes the message of the error when it throws.  An unknown message and an unknown class of
    metrics ask for nothing. *)

Definition answering {A} (m : EX A) (ok : A -> Payload) : EX Payload := let* a := m in ret (ok a).

Definition succeeding {A} (m : EX A) : EX Payload := answering m (fun _ => Success true).

Definition reading (f : sysdb -> outcome dbos_error Payload) : EX Payload := query f.

Definition requested (r : Request) : option (EX Payload) :=
  match r with
  | ExecutorInfoRequest => Some (ret (Info (pl_info _ P) "typescript"))
  | RecoveryRequest ids =>
      Some (succeeding (recoverPendingWorkflows (ei_application_version (pl_info _ P))
        (map (fun x => (x, cr_executor rd x)) (default ["local"] ids))))
  | CancelRequest id children ids =>
      Some (succeeding (on_sys (cancelWorkflows (cr_levels rd) (default [id] ids) children)))
  | DeleteRequest id children ids =>
      Some (succeeding (delete_in_process (default [id] ids) (default false children)))
  | ResumeRequest id ids q => Some (succeeding (on_sys (resumeWorkflows (cr_now rd) (default [id] ids) q)))
  | RestartRequest id =>
      Some (succeeding (on_sys (forkWorkflow (cr_now rd) id 0 (cr_uuid rd)
        (ForkOptionsOf None None None None []))))
  | ForkWorkflowRequest b =>
      let id := default (cr_uuid rd) (fb_new_workflow_id b) in
      Some (answering (on_sys (forkWorkflow (cr_now rd) (fb_workflow_id b) (fb_start_step b) id
        (ForkOptionsOf (fb_application_version b) None (fb_queue_name b) (fb_queue_partition_key b) [])))
        (fun _ => NewWorkflowID (Some id)))
  | ForkFromFailureRequest b =>
      Some (answering (on_sys (forkFromFailure (cr_now rd) (ff_workflow_ids b) (cr_uuids rd)
        (ForkFromModesOf (default false (ff_from_last_failure b)) (default false (ff_from_last_step b))
           (ff_from_step b) (ff_from_step_name b))
        (ForkOptionsOf (ff_application_version b) None (ff_queue_name b) (ff_queue_partition_key b) [])))
        (fun ids => ForkedWorkflowIDs (Some ids)))
  | ListWorkflowsRequest b =>
      Some (answering (query (listWorkflows Date_parse jsonb_contains
        (list_request b (default false (lb_queues_only b))))) list_as_output)
  | ListQueuedWorkflowsRequest b =>
      Some (answering (query (listQueuedWorkflows Date_parse jsonb_contains (list_request b false)))
        list_as_output)
  | GetWorkflowRequest id li lo =>
      Some (answering (query (listWorkflows Date_parse jsonb_contains
        (no_filters <| q_workflowIDs := Some [id] |> <| q_loadInput := Some (default true li) |>
                    <| q_loadOutput := Some (default true lo) |>)))
        (fun l => Workflow ((fun i => workflows_output (to_status i)) <$> head l)))
  | ExistPendingWorkflowsRequest x v =>
      Some (answering (on_sys (getPendingWorkflows x v)) (fun ids => Exist (0 <? Z.of_nat (length ids))))
  | ListStepsRequest id lo lim off =>
      Some (reading (fun d => Ok (Steps (map workflow_steps <$>
        listWorkflowSteps (fun t => pl_safe_value _ P (Some t)) (pl_safe_error _ P) id (default true lo)
          lim off d))))
  | RetentionRequest b =>
      Some (succeeding (on_sys (garbageCollect (rb_gc_cutoff_epoch_ms b) (rb_gc_rows_threshold b)) ;*
        match truthy_num (rb_timeout_cutoff_epoch_ms b) with
        | Some cutoff => on_sys (globalTimeout Date_parse jsonb_contains (pl_toISOString _ P) cutoff
                                   (cr_workflow rd))
        | None => ret tt
        end))
  | GetMetricsRequest s e c =>
      if String.eqb c "workflow_step_count"
      then Some (answering (query (getMetrics Date_parse s e)) Metrics) else None
  | ExportWorkflowRequest id children =>
      Some (answering (query (fun d => outcome_of (exportWorkflow id (default false children) d)))
        (fun exported => SerializedWorkflow
           match exported with [] => None | _ => Some (pl_gzip _ P (pl_export_json _ P exported)) end))
  | ImportWorkflowRequest s =>
      Some (succeeding (on_sys (let* decompressed := lift (pl_gunzip _ P s) in
        let* workflows := lift (pl_import_json _ P decompressed) in importWorkflow workflows)))
  | AlertRequest n m md =>
      Some (succeeding (query (fun _ => match pl_alert_handler _ P with
                                        | Some handler => outcome_of (handler n m md)
                                        | None => Ok tt
                                        end)))
  | ListSchedulesRequest b =>
      Some (answering (query (fun d =>
        match schedule_filter (sb_status b), schedule_filter (sb_workflow_name b),
              schedule_filter (sb_schedule_name_prefix b) with
        | Ok status, Ok name, Ok prefix =>
            collect (schedule_output (default true (sb_load_context b)))
              (listSchedules (pl_name_le _ P) (ScheduleFiltersOf status name prefix) d)
        | Throw e, _, _ | _, Throw e, _ | _, _, Throw e => Throw e
        end)) ScheduleList)
  | GetScheduleRequest n lc =>
      Some (reading (fun d => match getSchedule n d with
                              | Some s => match schedule_output (default true lc) s with
                                          | Ok o => Ok (Schedule (Some o))
                                          | Throw e => Throw e
                                          end
                              | None => Ok (Schedule None)
                              end))
  | PauseScheduleRequest n => Some (succeeding (on_sys (setScheduleStatus n "PAUSED")))
  | ResumeScheduleRequest n => Some (succeeding (on_sys (setScheduleStatus n "ACTIVE")))
  | BackfillScheduleRequest n s e =>
      Some (answering (on_sys (backfillSchedule (pl_date_fields _ P) (pl_toISOString _ P) (pl_parse _ P)
        (pl_stringifyArgs _ P) (pl_serializerName _ P) (cr_due rd) n
        (backfill_bounds s e).1 (backfill_bounds s e).2)) BackfilledIDs)
  | TriggerScheduleRequest n =>
      Some (answering (on_sys (triggerSchedule (pl_toISOString _ P) (pl_parse _ P)
        (pl_stringifyArgs _ P) (pl_serializerName _ P) (cr_due rd (cr_now rd)).1
        (cr_due rd (cr_now rd)).2 (cr_now rd) n)) (fun id => TriggeredID (Some id)))
  | ListApplicationVersionsRequest => Some (reading (fun d => Ok (Versions (listApplicationVersions d))))
  | SetLatestApplicationVersionRequest n =>
      Some (succeeding (on_sys (updateApplicationVersionTimestamp n (cr_now rd))))
  | GetWorkflowEventsRequest id =>
      Some (reading (fun d => Ok (Events (Some (map (fun e => (e.1, inspectForConductor e.2))
        (Object_entries (getAllEvents (pl_safe_value _ P) id d)))))))
  | GetWorkflowNotificationsRequest id =>
      Some (reading (fun d => Ok (Notifications (Some (map (fun n =>
        NotificationOutputOf (n_topic n) (inspectForConductor (n_message n)) (n_createdAtEpochMs n)
          (n_consumed n)) (getAllNotifications (pl_safe_value _ P) id d))))))
  | GetWorkflowStreamsRequest id =>
      Some (answering (query (fun d =>
        outcome_of (getAllStreamEntries (pl_safe_value _ P) (pl_name_le _ P) id d)))
        (fun l => Streams (Some (map (fun e => (e.1, map inspectForConductor e.2)) (Object_entries l)))))
  | GetWorkflowAggregatesRequest b =>
      Some (answering (query (getWorkflowAggregates Date_parse jsonb_contains (aggregates_request b)))
        WorkflowAggregates)
  | GetStepAggregatesRequest b =>
      Some (answering (query (getStepAggregates Date_parse (step_aggregates_request b))) StepAggregates)
  | ListQueuesRequest => Some (reading (fun d => Ok (QueueList (listQueues d))))
  | GetQueueRequest n => Some (reading (fun d => Ok (Queue (getQueue n d))))
  | UnknownRequest _ => None
  end.

(** What the error message of a failed request begins with *)
Definition failure_text (r : Request) : string :=
  let exception := fun what => "Exception encountered " +:+ what in
  let ids := fun id l => String.concat "," (default [id] l) in
  let quoted := fun n => "'" +:+ n +:+ "'" in
  match r with
  | ExecutorInfoRequest => ""
  | UnknownRequest _ => "Unknown message type"
  | RecoveryRequest _ => exception "when recovering workflows"
  | CancelRequest id _ l => exception ("when cancelling workflow(s) " +:+ ids id l)
  | DeleteRequest id _ l => exception ("when deleting workflow(s) " +:+ ids id l)
  | ResumeRequest id l _ => exception ("when resuming workflow(s) " +:+ ids id l)
  | RestartRequest id => exception ("when restarting workflow " +:+ id)
  | ForkWorkflowRequest b =>
      exception ("when forking workflow " +:+ fb_workflow_id b +:+ " to new workflow "
        +:+ in_template (fb_new_workflow_id b) +:+ " on step " +:+ stringify_Z (fb_start_step b)
        +:+ ", app version " +:+ in_template (fb_application_version b))
  | ForkFromFailureRequest _ => exception "when bulk forking workflows"
  | ListWorkflowsRequest _ => exception "when listing workflows"
  | ListQueuedWorkflowsRequest _ => exception "when listing queued workflows"
  | GetWorkflowRequest id _ _ => exception ("when getting workflow " +:+ id)
  | ExistPendingWorkflowsRequest _ _ => exception "when checking for pending workflows"
  | ListStepsRequest id _ _ _ => exception ("when listing steps " +:+ id)
  | RetentionRequest _ => exception "during enforcing retention policy"
  | GetMetricsRequest _ _ c =>
      if String.eqb c "workflow_step_count" then exception "when getting metrics"
      else "Unexpected metric class: " +:+ c
  | ExportWorkflowRequest id _ => exception ("when exporting workflow " +:+ id)
  | ImportWorkflowRequest _ => exception "when importing workflow"
  | AlertRequest _ _ _ => "Exception in alert handler"
  | ListSchedulesRequest _ => exception "when listing schedules"
  | GetScheduleRequest n _ => exception ("when getting schedule " +:+ n)
  | PauseScheduleRequest n => exception ("when pausing schedule " +:+ quoted n)
  | ResumeScheduleRequest n => exception ("when resuming schedule " +:+ quoted n)
  | BackfillScheduleRequest n _ _ => exception ("when backfilling schedule " +:+ quoted n)
  | TriggerScheduleRequest n => exception ("when triggering schedule " +:+ quoted n)
  | ListApplicationVersionsRequest => exception "when listing application versions"
  | SetLatestApplicationVersionRequest n =>
      exception ("when setting latest application version " +:+ quoted n)
  | GetWorkflowEventsRequest id => exception ("when getting events for workflow " +:+ id)
  | GetWorkflowNotificationsRequest id => exception ("when getting notifications for workflow " +:+ id)
  | GetWorkflowStreamsRequest id => exception ("when getting streams for workflow " +:+ id)
  | GetWorkflowAggregatesRequest _ => exception "when getting workflow aggregates"
  | GetStepAggregatesRequest _ => exception "when getting step aggregates"
  | ListQueuesRequest => exception "when listing queues"
  | GetQueueRequest n => exception ("when getting queue " +:+ n)
  end.

(** What is answered, and the state that is left *)
Definition answered (r : Request) (st : exec_state) (x : reply * exec_state) : Prop :=
  match requested r with
  | None => x = ((failed_payload r, Some (failure_text r)), st)
  | Some m =>
      x = match m st with
          | (Ok p, st') => ((p, None), st')
          | (Throw e, st') => ((failed_payload r, Some (failure_text r +:+ ": " +:+ error_message e)), st')
          end
  end.

Lemma attempt_answers {A} what (m : EX A) ok failed st :
  attempt what m ok failed st
  = match answering m ok st with
    | (Ok p, st') => ((p, None), st')
    | (Throw e, st') => ((failed, Some (what +:+ ": " +:+ error_message e)), st')
    end.
Proof. unfold attempt, answering, bind. by destruct (m st) as [[a|e] st1]. Qed.

Lemma attempt_reads {A} what (f : sysdb -> outcome dbos_error A) (g : sysdb -> outcome dbos_error Payload)
    ok failed st :
  (forall d, g d = match f d with Ok a => Ok (ok a) | Throw e => Throw e end) ->
  attempt what (query f) ok failed st
  = match reading g st with
    | (Ok p, st') => ((p, None), st')
    | (Throw e, st') => ((failed, Some (what +:+ ": " +:+ error_message e)), st')
    end.
Proof. intros Hg. unfold attempt, reading, query. rewrite Hg. by destruct (f st.1). Qed.

Lemma attempt_forks what id start new o (ok : string -> Payload) failed st :
  attempt what (executor_fork id start new o) ok failed st
  = match answering (on_sys (forkWorkflow (cr_now rd) id start (default (cr_uuid rd) new) o))
            (fun _ => ok (default (cr_uuid rd) new)) st with
    | (Ok p, st') => ((p, None), st')
    | (Throw e, st') => ((failed, Some (what +:+ ": " +:+ error_message e)), st')
    end.
Proof. unfold attempt, answering, executor_fork, bind. by destruct (on_sys _ st) as [[a|e] st1]. Qed.

Lemma dispatch_answers r st : answered r st (dispatch r st).
Proof.
  destruct r; cbn [dispatch]; unfold answered; cbn [requested failed_payload]; try done;
    try apply attempt_answers; try apply attempt_forks; try (apply attempt_reads; intros d; done).
  - unfold on_get_metrics. cbn [failure_text]. destruct (String.eqb _ _); [|done]. apply attempt_answers.
  - apply attempt_reads. intros d. destruct (getSchedule _ d) as [s|]; [|done].
    by destruct (schedule_output _ s).
Qed.

Lemma attempt_failed {A} what (m : EX A) ok failed st p e st' :
  attempt what m ok failed st = ((p, Some e), st') ->
  p = failed /\ exists err, m st = (Throw err, st') /\ e = what +:+ ": " +:+ error_message err.
Proof. unfold attempt. destruct (m st) as [[a|err] st1]; naive_solver. Qed.

Lemma attempt_state {A} what (m : EX A) ok failed st : (attempt what m ok failed st).2 = (m st).2.
Proof. unfold attempt. by destruct (m st) as [[a|err] st1]. Qed.

(** All-or-nothing operations *)
Lemma aon_on_sys {A} (m : DB A) :
  (forall d e d', m d = (Throw e, d') -> d' = d) -> all_or_nothing (on_sys m).
Proof.
  intros H [d rm] e st'. unfold on_sys. simpl. destruct (m d) as [o d'] eqn:E. intros [= -> <-].
  by rewrite (H _ _ _ E).
Qed.

Lemma aon_query {A} (f : sysdb -> outcome dbos_error A) : all_or_nothing (query f).
Proof. intros st e st'. unfold query. by intros [= _ <-]. Qed.

Lemma aon_update p f d e d' : (update_workflow_status p f ;* ret tt) d = (Throw e, d') -> d' = d.
Proof. unfold bind, update_workflow_status. destruct (dedup_uniqueb _); unfold ret; naive_solver. Qed.

Lemma aon_bulkFork now origs forks starts o d e d' :
  bulkForkWorkflows now origs forks starts o d = (Throw e, d') -> d' = d.
Proof.
  unfold bulkForkWorkflows. destruct origs; [done|]. case_match; [by intros [=]|].
  apply transaction_throw.
Qed.

Lemma aon_fork id start new o : all_or_nothing (executor_fork id start new o).
Proof.
  intros st e st' H. unfold executor_fork in H. apply bind_inv_throw in H as [H|(x & st1 & _ & H)]; [|done].
  revert H. apply aon_on_sys. intros d e' d' H. unfold forkWorkflow in H.
  apply bind_inv_throw in H as [H|(y & d1 & _ & H)]; [|done]. by apply aon_bulkFork in H.
Qed.

Lemma aon_forkFromFailure now ids forks modes o d e d' :
  forkFromFailure now ids forks modes o d = (Throw e, d') -> d' = d.
Proof.
  unfold forkFromFailure. case_match; [by intros [=]|]. destruct (start_steps _ _ _); [by intros [=]|].
  apply aon_bulkFork.
Qed.

Lemma aon_init now nowMs s xid rec deq d e d' :
  initWorkflowStatus now nowMs s xid rec deq None d = (Throw e, d') -> d' = d.
Proof.
  unfold initWorkflowStatus. destruct (insertWorkflowStatus _ _ _ _ d) as [[[rr s']|e1] d1]; [|by intros [=]].
  cbn zeta. change (attempts_exceeded None _) with (@None Z).
  repeat match goal with |- context [if ?b then _ else _] => destruct b end; by intros [=].
Qed.

Lemma aon_trigger iso parse stringify ser now nowMs date name d e d' :
  triggerSchedule (C := jsval) iso parse stringify ser now nowMs date name d = (Throw e, d') -> d' = d.
Proof.
  unfold triggerSchedule, require_schedule, enqueueScheduledWorkflow, bind, lift, getLatestApplicationVersion.
  destruct (getSchedule name d) as [s|]; [|by intros [=]].
  destruct (parse _) as [e1|c]; simpl; [by intros [=]|].
  destruct (stringify _ _) as [e1|i]; simpl; [by intros [=]|].
  destruct (head _) as [v|]; [|by intros [=]].
  destruct (initWorkflowStatus _ _ _ _ _ _ _ d) as [[r|e1] d1] eqn:E; [by intros [=]|].
  intros [= <- <-]. by apply aon_init in E.
Qed.

Lemma aon_import s : all_or_nothing (on_sys (let* decompressed := lift (pl_gunzip _ P s) in
             let* workflows := lift (pl_import_json _ P decompressed) in importWorkflow workflows)).
Proof.
  apply aon_on_sys. intros d e d'. unfold bind, lift.
  destruct (pl_gunzip _ P s) as [e1|t]; simpl; [by intros [=]|].
  destruct (pl_import_json _ P t) as [e1|xs]; simpl; [by intros [=]|]. apply transaction_throw.
Qed.

Lemma aon_delete ids b : all_or_nothing (delete_in_process ids b).
Proof.
  intros [d m] e st'. unfold delete_in_process, deleteWorkflows, delete_workflow_status. simpl. by intros [=].
Qed.

Lemma aon_schedule_status n s d e d' : setScheduleStatus n s d = (Throw e, d') -> d' = d.
Proof. done. Qed.

Lemma atomic_rolls_back r st p e st' :
  atomic r = true -> dispatch r st = ((p, Some e), st') -> st' = st.
Proof.
  intros Ha H. destruct r; try discriminate Ha; cbn [dispatch] in H; try discriminate H;
    try (by injection H as _ _ <-);
    try (apply attempt_failed in H as (_ & err & H & _); revert H; first
      [ apply aon_query | apply aon_fork | apply aon_delete | apply aon_import
      | apply aon_on_sys; first [ done | apply aon_forkFromFailure | apply aon_trigger | apply aon_update] ]).
  - destruct cancel_children; [discriminate Ha|]. apply attempt_failed in H as (_ & err & H & _).
    revert H. apply aon_on_sys, aon_update.
  - unfold on_get_metrics in H. destruct (String.eqb _ _); [|by injection H as _ _ <-].
    apply attempt_failed in H as (_ & err & H & _). by apply aon_query in H.
Qed.

(** Steps of the system database *)
Definition runs {A} (m : EX A) : Prop := forall st, rtc any_step st.1 (m st).2.1.

Lemma runs_op {A} (m : DB A) : operation true m -> runs (on_sys m).
Proof.
  intros Hm [d rm]. unfold on_sys. simpl. destruct (m d) as [o d'] eqn:E. simpl.
  apply rtc_once. left. exists A, m. by rewrite E.
Qed.

Lemma runs_purge {A} (m : DB A) : purge m -> runs (on_sys m).
Proof.
  intros Hm [d rm]. unfold on_sys. simpl. destruct (m d) as [o d'] eqn:E. simpl.
  apply rtc_once. right. exists A, m. by rewrite E.
Qed.

Lemma runs_query {A} (f : sysdb -> outcome dbos_error A) : runs (query f).
Proof. intros st. done. Qed.

Lemma runs_ret {A} (a : A) : runs (ret a).
Proof. intros st. done. Qed.

Lemma runs_bind {A B} (m : EX A) (k : A -> EX B) : runs m -> (forall a, runs (k a)) -> runs (bind m k).
Proof.
  intros Hm Hk st. unfold bind. specialize (Hm st). destruct (m st) as [[a|e] st1]; [|done].
  simpl in *. etrans; [exact Hm|apply Hk].
Qed.

(** [on_sys] of a sequence is the sequence of its parts. *)
Lemma runs_on_sys_bind {A B} (m : DB A) (k : A -> DB B) :
  runs (on_sys m) -> (forall a, runs (on_sys (k a))) -> runs (on_sys (bind m k)).
Proof.
  intros Hm Hk st. specialize (Hm st). unfold on_sys, bind in *. destruct (m st.1) as [[a|e] d1]; [|done].
  simpl in *. etrans; [exact Hm|]. specialize (Hk a (d1, st.2)). simpl in Hk. by destruct (k a d1).
Qed.

Lemma runs_on_sys_for_each {A} (f : A -> DB unit) l :
  (forall a, runs (on_sys (f a))) -> runs (on_sys (for_each f l)).
Proof.
  intros Hf. induction l as [|x l IH]; [intros st; done|]. simpl. by apply runs_on_sys_bind.
Qed.

Lemma runs_lift {A} (r : dbos_error + A) : runs (on_sys (lift r)).
Proof. intros st. by destruct r. Qed.

Lemma runs_cancel_listed iso status clock :
  runs (on_sys (cancel_listed Date_parse jsonb_contains iso status clock)).
Proof.
  intros [d rm]. unfold cancel_listed, on_sys. simpl.
  destruct (listWorkflows _ _ _ d) as [l|e]; [|done].
  apply (runs_on_sys_for_each (fun w => cancelWorkflows [clock (i_workflowUUID w)] [i_workflowUUID w] false) l
           (fun w => runs_op _ (op_cancelWorkflows true _ _ _)) (d, rm)).
Qed.

Lemma runs_enqueueScheduled stringify ser now nowMs sched id date (c : jsval) :
  runs (on_sys (enqueueScheduledWorkflow stringify ser now nowMs sched id date c)).
Proof.
  unfold enqueueScheduledWorkflow. apply runs_on_sys_bind; [apply runs_lift|]. intros input.
  apply runs_on_sys_bind.
  { intros [d rm]. unfold on_sys, getLatestApplicationVersion. simpl. by destruct (head _). }
  intros v. apply runs_on_sys_bind; [apply runs_op, op_initWorkflowStatus|]. by intros r st.
Qed.

Lemma runs_require_schedule name : runs (on_sys (require_schedule name)).
Proof. intros [d rm]. unfold on_sys, require_schedule. simpl. by destruct (getSchedule name d). Qed.

Lemma runs_backfill_loop iso stringify ser clock matches sched (c : jsval) end_ fuel : forall current ids,
  runs (on_sys (backfill_loop iso stringify ser clock matches sched c end_ fuel current ids)).
Proof.
  induction fuel as [|fuel IH]; intros current ids; [by intros st|]. cbn [backfill_loop].
  destruct (current <? end_); [|by intros st]. cbv zeta.
  destruct (negb _); [apply IH|]. destruct (end_ <=? _); [by intros st|].
  apply runs_on_sys_bind; [apply runs_enqueueScheduled|]. intros _. apply IH.
Qed.

Lemma runs_recover version l : runs (recoverPendingWorkflows version l).
Proof.
  induction l as [|[x now] l IH]; simpl; [apply runs_ret|].
  apply runs_bind; [apply runs_op, op_reenqueueWorkflowsForRecovery|]. intros ids.
  apply runs_bind; [exact IH|]. intros hs. apply runs_ret.
Qed.

Lemma runs_fork id start new o : runs (executor_fork id start new o).
Proof. apply runs_bind; [apply runs_op, op_forkWorkflow|]. intros x. apply runs_ret. Qed.

Lemma runs_delete ids b : runs (delete_in_process ids b).
Proof.
  intros [d m]. unfold delete_in_process. cbn [fst snd]. pose proof (purge_deleteWorkflows ids b m) as Hp.
  destruct (deleteWorkflows ids b m d) as [o d'] eqn:E.
  assert (any_step d d') as Hs by (right; eexists _, _; split; [exact Hp|by rewrite E]).
  destruct o; cbn [fst snd]; apply rtc_once; exact Hs.
Qed.

Lemma runs_trigger iso parse stringify ser now nowMs date name :
  runs (on_sys (triggerSchedule (C := jsval) iso parse stringify ser now nowMs date name)).
Proof.
  unfold triggerSchedule. apply runs_on_sys_bind; [apply runs_require_schedule|]. intros s.
  apply runs_on_sys_bind; [apply runs_lift|]. intros c.
  apply runs_on_sys_bind; [apply runs_enqueueScheduled|]. by intros [] st.
Qed.

Lemma runs_backfill fields iso parse stringify ser clock name s e :
  runs (on_sys (backfillSchedule (C := jsval) fields iso parse stringify ser clock name s e)).
Proof.
  unfold backfillSchedule. apply runs_on_sys_bind; [apply runs_require_schedule|]. intros sc.
  apply runs_on_sys_bind; [apply runs_lift|]. intros c.
  apply runs_on_sys_bind; [apply runs_lift|]. intros m. apply runs_backfill_loop.
Qed.

Lemma runs_import s : runs (on_sys (let* decompressed := lift (pl_gunzip _ P s) in
             let* workflows := lift (pl_import_json _ P decompressed) in importWorkflow workflows)).
Proof.
  apply runs_on_sys_bind; [apply runs_lift|]. intros t.
  apply runs_on_sys_bind; [apply runs_lift|]. intros xs. apply runs_op, op_importWorkflow.
Qed.

Lemma runs_retention b :
  runs (on_sys (garbageCollect (rb_gc_cutoff_epoch_ms b) (rb_gc_rows_threshold b)) ;*
     match truthy_num (rb_timeout_cutoff_epoch_ms b) with
     | Some cutoff => on_sys (globalTimeout Date_parse jsonb_contains (pl_toISOString _ P) cutoff
                                (cr_workflow rd))
     | None => ret tt
     end).
Proof.
  apply runs_bind; [apply runs_purge, purge_garbageCollect|]. intros _.
  destruct (truthy_num _); [|apply runs_ret]. unfold globalTimeout.
  apply runs_on_sys_bind; [apply runs_cancel_listed|]. intros _.
  apply runs_on_sys_bind; [apply runs_cancel_listed|]. intros _. apply runs_cancel_listed.
Qed.

Lemma runs_set_schedule n s : runs (on_sys (setScheduleStatus n s)).
Proof. apply runs_op, op_setScheduleStatus. Qed.

Lemma attempt_steps {A} what (m : EX A) ok failed st :
  runs m -> rtc any_step st.1 (attempt what m ok failed st).2.1.
Proof. rewrite attempt_state. done. Qed.

Lemma dispatch_steps r st : rtc any_step st.1 (dispatch r st).2.1.
Proof.
  destruct r; cbn [dispatch]; try done; try apply attempt_steps;
    first
      [ apply runs_query | apply runs_fork | apply runs_delete | apply runs_import | apply runs_recover
      | apply runs_retention | apply runs_trigger | apply runs_backfill | apply runs_set_schedule
      | apply runs_op; constructor; done | idtac ].
  unfold on_get_metrics. destruct (String.eqb _ _); [|done]. by rewrite attempt_state.
Qed.

Lemma attempt_query_state {A} what (f : sysdb -> outcome dbos_error A) ok failed st :
  (attempt what (query f) ok failed st).2 = st.
Proof. by rewrite attempt_state. Qed.

Lemma read_only_state r st : read_only r = true -> (dispatch r st).2 = st.
Proof.
  intros Hr. destruct r; try discriminate Hr; cbn [dispatch]; try done; try apply attempt_query_state.
  - destruct st as [d m]. unfold on_exist_pending. by rewrite attempt_state.
  - unfold on_get_metrics. destruct (String.eqb _ _); [apply attempt_query_state|done].
Qed.

(** Only a deletion touches the map of the running workflows. *)
Lemma running_map_kept r st :
  match r with DeleteRequest _ _ _ => False | _ => True end -> (dispatch r st).2.2 = st.2.
Proof.
  intros Hr. destruct (read_only r) eqn:Ero; [by rewrite read_only_state|].
  assert (forall A (m : DB A) s, (on_sys m s).2.2 = s.2) as Hsys.
  { intros A m s. unfold on_sys. by destruct (m s.1). }
  assert (forall id start new o s, (executor_fork id start new o s).2.2 = s.2) as Hfork.
  { intros id start new o s. unfold executor_fork, bind.
    pose proof (Hsys _ (forkWorkflow (cr_now rd) id start (default (cr_uuid rd) new) o) s) as H.
    by destruct (on_sys _ s) as [[x|e] s1]. }
  destruct r; try discriminate Ero; try done; cbn [dispatch]; unfold on_recovery, on_cancel, on_resume,
    on_restart, on_fork_workflow, on_fork_from_failure, on_retention, on_import, on_pause_schedule,
    on_resume_schedule, on_backfill_schedule, on_trigger_schedule, on_set_latest_version;
    rewrite attempt_state; rewrite ?Hsys; rewrite ?Hfork; try done.
  - induction (map _ _) as [|[x now] l IH] in st |- *; [done|]. cbn [recoverPendingWorkflows]. unfold bind at 1.
    pose proof (Hsys _ (reenqueueWorkflowsForRecovery now x (ei_application_version (pl_info _ P))
                          INTERNAL_QUEUE_NAME) st) as H.
    destruct (on_sys _ st) as [[ids|e] s1]; [|done]. cbn [snd] in H. unfold bind.
    specialize (IH s1). destruct (recoverPendingWorkflows _ l s1) as [[hs|e] s2]; unfold ret; cbn [snd] in *; by rewrite IH.
  - unfold bind. pose proof (Hsys _ (garbageCollect (rb_gc_cutoff_epoch_ms body) (rb_gc_rows_threshold body)) st) as H.
    destruct (on_sys _ st) as [[[]|e] s1]; cbn [snd] in *; [|done].
    destruct (truthy_num _); [|done]. by rewrite Hsys.
Qed.

(** C27: Every request is answered with what its operation does.  If the operation returns, the
    response carries what it returned and no error; if it throws, the response carries the text
    of the request with the message of the error, and the empty payload of its type.  The system
    database moves only by operations that any executor may run, so every invariant of its
    reachable states is kept.  A failed request leaves no trace, unless it is a recovery, a
    cascading cancel, a retention or a backfill, which run several operations; a request that
    only reads leaves none, and none but a deletion touches the map of the running workflows. *)
Theorem conductor_failures request_id r st :
  let resp := (handle request_id r st).1 in
  let st' := (handle request_id r st).2 in
  r_type resp = message_type r /\ r_request_id resp = request_id
  /\ match requested r with
     | Some operation =>
         (forall p, (operation st).1 = Ok p -> r_error_message resp = None /\ r_payload resp = p)
         /\ (forall e, (operation st).1 = Throw e ->
               r_error_message resp = Some (failure_text r +:+ ": " +:+ error_message e)
               /\ r_payload resp = failed_payload r /\ (atomic r = true -> st' = st))
         /\ st' = (operation st).2
     | None => r_error_message resp = Some (failure_text r) /\ r_payload resp = failed_payload r /\ st' = st
     end
  /\ rtc any_step st.1 st'.1
  /\ (read_only r = true -> st' = st)
  /\ (match r with DeleteRequest _ _ _ => False | _ => True end -> st'.2 = st.2).
Proof.
  assert ((handle request_id r st).2 = (dispatch r st).2) as Hst.
  { unfold handle. by destruct (dispatch r st) as [[p e] st1]. }
  cbn zeta. rewrite Hst. split; [|split; [|split; [|split]]].
  1, 2: unfold handle; by destruct (dispatch r st) as [[p e] st1].
  - pose proof (dispatch_answers r st) as H. unfold answered in H.
    pose proof (atomic_rolls_back r st) as Ha. unfold handle.
    destruct (dispatch r st) as [[p e] st1]. cbn [fst snd r_error_message r_payload].
    destruct (requested r) as [m|]; [|by injection H as -> -> ->].
    destruct (m st) as [[a|err] st2]; injection H as -> -> ->; cbn [fst snd];
      (split; [|split; [|done]]); try done; intros x [= <-]; [done|].
    split; [done|]. split; [done|]. intros Hat. by eapply Ha.
  - apply dispatch_steps.
  - split; [apply read_only_state|apply running_map_kept].
Qed.

End conductor.

(** Exporting a workflow through one executor and importing what it answers through another,
    of another database, reproduces the workflow, alone or with its descendants, and leaves
    everything else of that database and its process alone, when the database knows none of
    these workflows nor their deduplication IDs and the encodings read back what they wrote. *)
Theorem conductor_moves_workflow {Err} (P1 P2 : Platform Err) rd1 rd2 id children st1 st2 :
  (forall s, pl_gunzip _ P2 (pl_gzip _ P1 s) = inr s) ->
  (forall xs, exportWorkflow id children st1.1 = inr xs ->
     pl_import_json _ P2 (pl_export_json _ P1 xs) = inr xs) ->
  db_ok st1.1 -> db_ok st2.1 -> wf_exists st1.1 id -> ~ tc (child_of st1.1) id id ->
  (forall k, k ∈ export_ids id children st1.1 -> workflow_status st2.1 !! k = None) ->
  (forall k r k' r', k ∈ export_ids id children st1.1 -> workflow_status st1.1 !! k = Some r ->
     workflow_status st2.1 !! k' = Some r' -> dedup_clash r r' = false) ->
  exists text e',
    dispatch P1 rd1 (ExportWorkflowRequest id (Some children)) st1
      = ((SerializedWorkflow (Some text), None), st1)
    /\ dispatch P2 rd2 (ImportWorkflowRequest text) st2 = ((Success true, None), (e', st2.2))
    /\ merged (fun k => k ∈ export_ids id children st1.1) st1.1 st2.1 e'.
Proof.
  intros Hz Hj Hd He Hw Hc Hf Hcl.
  destruct (export_insert id children st1.1 st2.1) as (xs & e' & Hx & Hrun & Hm); [done..|].
  destruct xs as [|x xs].
  { exfalso. unfold export_ids in Hx. simpl in Hx. destruct Hw as [r Hr]. rewrite Hr in Hx.
    by destruct (export_all _ _). }
  exists (pl_gzip _ P1 (pl_export_json _ P1 (x :: xs))), e'. split; [|split; [|exact Hm]].
  - cbn [dispatch]. unfold on_export, attempt, query, exportWorkflow.
    change (default false (Some children)) with children.
    by rewrite Hx.
  - cbn [dispatch]. unfold on_import, attempt, on_sys, bind, lift. rewrite Hz. cbv [ret]. rewrite (Hj _ Hx).
    unfold importWorkflow, transaction. by rewrite Hrun.
Qed.

(** * Witnesses *)

Definition ex_executor_info : ExecutorInfo := ExecutorInfoOf "exec-1" "v1" "host" "4.0" None.

(** One export under a name, and texts as they stand *)
Definition ex_platform (xs : list ExportedWorkflow) : Platform string :=
  {| pl_Date_parse := parse_Z;
     pl_toISOString := stringify_Z;
     pl_jsonb_contains := ex_contains;
     pl_date_fields := fun _ => None;
     pl_name_le := String.leb;
     pl_parse := fun s => inr (VStr s);
     pl_stringifyArgs := fun _ _ => inr "[]";
     pl_serializerName := "js_superjson";
     pl_safe_args := fun t _ => VStr t;
     pl_safe_value := raw_value;
     pl_safe_error := fun t _ => t;
     pl_inspect := fun v => match v with VStr s => s | _ => "?" end;
     pl_error_json := id;
     pl_export_json := fun _ => "export";
     pl_import_json := fun _ => inr xs;
     pl_gzip := fun s => s;
     pl_gunzip := inr;
     pl_alert_handler := None;
     pl_info := ex_executor_info |}.

Definition ex_readings : CaseReadings :=
  {| cr_now := 70; cr_levels := [70; 71]; cr_executor := fun _ => 70; cr_workflow := fun _ => 70;
     cr_due := fun t => (t, t); cr_uuid := "uuid-1"; cr_uuids := [] |}.

Lemma ex_state_handled :
  exists resp st', handle (ex_platform []) ex_readings "r-1" (CancelRequest "wf-1" false None) (ex_db, ∅)
    = (resp, st') /\ r_payload resp = Success true.
Proof. eexists _, _. split; [vm_compute; reflexivity|reflexivity]. Qed.

(** A fork of a workflow that does not exist fails, and a cancellation succeeds. *)
Lemma conductor_failures_witness :
  let failed := handle (ex_platform []) ex_readings "r-1" (RestartRequest "wf-9") (ex_db, ∅) in
  failed.2 = (ex_db, ∅) /\ r_type failed.1 = "restart" /\ r_payload failed.1 = Success false
  /\ r_error_message failed.1
     = Some "Exception encountered when restarting workflow wf-9: Workflow wf-9 does not exist"
  /\ r_payload (handle (ex_platform []) ex_readings "r-2" (CancelRequest "wf-1" false None) (ex_db, ∅)).1
     = Success true.
Proof.
  destruct (conductor_failures (ex_platform []) ex_readings "r-1" (RestartRequest "wf-9") (ex_db, ∅))
    as (Ht & _ & (_ & Hf & _) & _).
  destruct (Hf (DBOSNonExistentWorkflowError "Workflow wf-9 does not exist") ltac:(vm_compute; reflexivity)) as (Hm & Hp & Hs).
  split; [exact (Hs eq_refl)|]. split; [exact Ht|]. split; [exact Hp|]. split; [exact Hm|].
  destruct (conductor_failures (ex_platform []) ex_readings "r-2" (CancelRequest "wf-1" false None) (ex_db, ∅))
    as (_ & _ & (Hok & _) & _).
  exact (proj2 (Hok _ ltac:(vm_compute; reflexivity))).
Defined.

Definition ex_exported : list ExportedWorkflow :=
  match exportWorkflow "wf-1" false ex_step_db with inr xs => xs | inl _ => [] end.

Lemma conductor_moves_workflow_witness :
  exists text e',
    dispatch (ex_platform ex_exported) ex_readings (ExportWorkflowRequest "wf-1" (Some false)) (ex_step_db, ∅)
      = ((SerializedWorkflow (Some text), None), (ex_step_db, ∅))
    /\ dispatch (ex_platform ex_exported) ex_readings (ImportWorkflowRequest text) (empty_db, ∅)
      = ((Success true, None), (e', ∅)).
Proof.
  destruct (conductor_moves_workflow (ex_platform ex_exported) (ex_platform ex_exported) ex_readings ex_readings
              "wf-1" false (ex_step_db, ∅) (empty_db, ∅)) as (text & e' & H1 & H2 & _).
  - reflexivity.
  - intros xs Hx. unfold ex_exported. cbn [fst] in Hx. cbn [pl_import_json ex_platform]. rewrite Hx. reflexivity.
  - exact ex_step_db_ok.
  - exact empty_db_ok.
  - eexists. vm_compute. reflexivity.
  - intros (p & _ & r & Hr & Hp)%tc_last. vm_compute in Hr. injection Hr as <-. discriminate Hp.
  - intros k _. apply lookup_empty.
  - intros k r k' r' _ _ Hr'. simpl in Hr'. rewrite lookup_empty in Hr'. discriminate Hr'.
  - exists text, e'. split; assumption.
Defined.

(** A workflow whose output is [false], [0] or an empty text is shown as one without output. *)
Lemma falsy_output_not_shown {Err} (P : Platform Err) info v :
  js_truthy v = false -> w_output _ info = Some v -> Output (workflows_output P info) = None.
Proof. intros Hv Hw. cbn [workflows_output Output]. rewrite Hw. cbn [shown]. by rewrite Hv. Qed.
