(* ===== verification/Api.v ===== *)
(** The operations of the [DBOS] class (src/src/dbos.ts) that a program calls: where each may be
    called, which function IDs of the calling workflow it reserves, and what it then does to the
    system database.  Starting workflows is in Start.v, waiting for them in Await.v, and the
    [with...] blocks are in ContextOptions.v.

    A call runs synchronously on the context until its first [await], and hands the rest on: it
    is a computation in the context that returns a computation on the system database.  By its
    type, the IDs such a call reserves depend on nothing but the context. *)

From S2P Require Export Query Messaging StepExecution Executor Lifecycle.
From S2P Require Import Scheduler Start.

Open Scope Z_scope.

(** * Options *)

(** A JavaScript number that may be infinite or NaN *)
Inductive js_number : Type := Finite (n : Z) | NonFinite.

(** [RecvOptions], [GetEventOptions] and [GetResultOptions]: a number of seconds, or an object.
    Times are in milliseconds. *)
Inductive wait_options : Type :=
| TimeoutOnly (timeoutMs : Z)
| WaitOptions (timeoutMs deadlineEpochMS : option Z) (pollingIntervalMs : option js_number).

(** [SetWorkflowDelayOptions] or a number of seconds *)
Inductive delay_options : Type :=
| DelayOnly (delayMs : Z)
| DelayOptions (delayMs delayUntilEpochMS : option Z).

(** [resolveTimeoutSeconds] *)
Definition resolveTimeout (now : Z) (options : option wait_options) : option Z :=
  match options with
  | None => None
  | Some (TimeoutOnly t) => Some t
  | Some (WaitOptions t (Some deadline) _) => Some (Z.max 0 (deadline - now))
  | Some (WaitOptions t None _) => t
  end.

(** [resolvePollingIntervalMs] *)
Definition resolvePollingIntervalMs (options : option wait_options) : dbos_error + option Z :=
  match options with
  | None | Some (TimeoutOnly _) | Some (WaitOptions _ _ None) => inr None
  | Some (WaitOptions _ _ (Some (Finite i))) =>
      if i <=? 0 then inl (DBOSError "pollingIntervalMs must be a positive finite number")
      else inr (Some i)
  | Some (WaitOptions _ _ (Some NonFinite)) =>
      inl (DBOSError "pollingIntervalMs must be a positive finite number")
  end.

(** [resolveDelayEpochMS] *)
Definition resolveDelayEpochMS (now : Z) (options : delay_options) : dbos_error + Z :=
  match options with
  | DelayOnly t => if t <=? 0 then inl (DBOSError "delaySeconds must be greater than 0") else inr (now + t)
  | DelayOptions _ (Some until) =>
      if until <=? 0 then inl (DBOSError "delayUntilEpochMS must be greater than 0") else inr until
  | DelayOptions (Some t) None =>
      if t <=? 0 then inl (DBOSError "delaySeconds must be greater than 0") else inr (now + t)
  | DelayOptions None None =>
      inl (DBOSError "SetWorkflowDelayOptions must specify either delaySeconds or delayUntilEpochMS")
  end.

(** * Steps of the library *)

(** The readings of one call: the clock when the step starts and ends, [Date.now()] or SQL's
    [now()] in between, one per level of a cascade, and a random UUID *)
Record CallReadings : Type := CallReadingsOf {
  ar_start : Z;
  ar_end : Z;
  ar_now : Z;
  ar_levels : list Z;
  ar_uuid : string
}.

(** What the calls use of the platform and of the configuration: the serialized forms of
    errors and of what the calls return, the parsing of dates, JSONB containment, the collation
    of the server, the time zones, and the configuration of the executor. *)
Record ApiPlatform : Type := ApiPlatformOf {
  ap_serializeError : dbos_error -> string;
  ap_deserializeResError : string -> option string -> dbos_error;
  ap_write_nothing : option string;
  ap_write_number : Z -> option string;
  ap_write_text : string -> option string;
  ap_write_statuses : list WorkflowStatusInternal -> option string;
  ap_write_steps : option (list (Z * op_row)) -> option string;
  ap_write_schedules : list WorkflowScheduleInternal -> option string;
  ap_write_schedule : option WorkflowScheduleInternal -> option string;
  ap_Date_parse : string -> option Z;
  ap_jsonb_contains : json -> json -> bool;
  ap_name_le : string -> string -> bool;
  ap_valid_timezone : string -> bool;
  ap_executorID : string;
  ap_appVersion : string;
  ap_enablePatching : bool;
  ap_launched : bool
}.


Section api.
Context (P : ApiPlatform) (rd : CallReadings).

Notation serializeError := (ap_serializeError P).
Notation deserializeResError := (ap_deserializeResError P).
Notation executorID := (ap_executorID P).

(** A call: what it does before its first [await], and the rest *)
Definition Call (A : Type) : Type := CM (DB A).

(** [ensureDBOSIsLaunched] *)
Definition ensureDBOSIsLaunched (reason : string) : CM unit :=
  if ap_launched P then ret tt
  else throw (JsTypeError ("`DBOS.launch()` must be called before running " +:+ reason +:+ ".")).

Definition of_sum {A} (r : dbos_error + A) : CM A :=
  match r with inl e => throw e | inr a => ret a end.

(** [DBOS.workflowID!] *)
Definition workflowID : CM string := fun c => (Ok (default "" (cx_workflowId c)), c).

(** An operation that returns nothing *)
Definition void {A} (m : DB A) : DB (option string) := m ;* ret (ap_write_nothing P).

(** A query, and the serialized form of its result *)
Definition reading {A} (f : sysdb -> outcome dbos_error A) (write : A -> option string) : DB (option string) :=
  fun d => match f d with Ok a => (Ok (write a), d) | Throw e => (Throw e, d) end.

(** The world of a callback that runs when nothing is recorded *)
Definition world_of (m : DB (option string)) : World :=
  {| wd_start := ar_start rd; wd_end := ar_end rd; wd_attempt := fun _ => AttemptOf (fun d => d) 0 m |}.

(** [runInternalStep] of dbos.ts *)
Definition runInternalStep_call (callback : DB (option string)) (funcName : string) : Call (option string) :=
  let* mode := runInternalStep_mode funcName None in
  let* wfid := workflowID in
  ret match mode with
      | Direct => callback
      | AsStep fid => runInternalStep serializeError deserializeResError executorID funcName wfid fid None
                        (world_of callback)
      end.

(** The step of [runTransactionalInternalStep]: the callback, which is attempt 1 of the world,
    and its checkpoint share a transaction; a fresh run returns the value of the callback. *)
Definition transactional_step (w : World) (funcName wfid : string) (fid : Z) : DB (option string) := fun d =>
  let callback := at_body (wd_attempt w 1) in
  match runTransactionalStep executorID wfid fid funcName callback (wd_start w) (wd_end w) d with
  | (Throw e, d') => (Throw e, d')
  | (Ok (Some stored), d') =>
      if negb (opt_eqb (sr_functionName stored) (Some funcName))
      then (Throw (DBOSUnexpectedStepError wfid fid funcName (default "" (sr_functionName stored))), d')
      else reviveResultOrError deserializeResError stored d'
  | (Ok None, d') => ((callback d).1, d')
  end.

(** [runTransactionalInternalStep] *)
Definition runTransactionalInternalStep (callback : DB (option string)) (funcName : string)
    : Call (option string) :=
  let* mode := runInternalStep_mode funcName None in
  let* wfid := workflowID in
  ret match mode with
      | Direct => callback
      | AsStep fid => transactional_step (world_of callback) funcName wfid fid
      end.
End api.

(** * The operations *)

Module DBOS.
Section calls.
Context (P : ApiPlatform) (rd : CallReadings).

Notation executorID := (ap_executorID P).
Notation step := (runInternalStep_call P rd).
Notation transactional := (runTransactionalInternalStep P rd).
Notation void := (void P).

(** [DBOS.getWorkflowStatus] *)
Definition getWorkflowStatus (stringify_status : WorkflowStatusInternal -> string)
    (parse_status : string -> WorkflowStatusInternal) (id : string)
    : Call (option WorkflowStatusInternal) :=
  ensureDBOSIsLaunched P "getWorkflowStatus" ;*
  let* mode := runInternalStep_mode "getWorkflowStatus" None in
  let* wfid := workflowID in
  let status := Query.getWorkflowStatus (ap_Date_parse P) (ap_jsonb_contains P) stringify_status
                  parse_status executorID id in
  ret match mode with
      | Direct => status None None (ar_start rd) (ar_end rd)
      | AsStep fid => status (Some wfid) (Some fid) (ar_start rd) (ar_end rd)
      end.

(** [DBOS.retrieveWorkflow]: a handle is the ID of its workflow. *)
Definition retrieveWorkflow (id : string) : CM string := fun c =>
  if negb (ap_launched P)
  then (Throw (JsTypeError "`DBOS.launch()` must be called before running retrieveWorkflow."), c)
  else if isWithinWorkflowCtx c && negb (isInWorkflow c)
  then (Throw (DBOSInvalidWorkflowTransitionError
          (Some "Invalid call to `retrieveWorkflow` inside a `transaction` or `step`")), c)
  else (Ok id, c).

(** [DBOS.listWorkflows] *)
Definition listWorkflows (input : GetWorkflowsInput) : Call (option string) :=
  ensureDBOSIsLaunched P "listWorkflows" ;*
  step (reading (Query.listWorkflows (ap_Date_parse P) (ap_jsonb_contains P) input)
          (ap_write_statuses P)) "DBOS.listWorkflows".

(** [DBOS.listQueuedWorkflows] *)
Definition listQueuedWorkflows (input : GetWorkflowsInput) : Call (option string) :=
  ensureDBOSIsLaunched P "listQueuedWorkflows" ;*
  step (reading (Query.listQueuedWorkflows (ap_Date_parse P) (ap_jsonb_contains P) input)
          (ap_write_statuses P)) "DBOS.listQueuedWorkflows".

(** [DBOS.setWorkflowPriority] *)
Definition setWorkflowPriority (id : string) (priority : Z) : Call (option string) :=
  ensureDBOSIsLaunched P "setWorkflowPriority" ;*
  if (priority <? DBOS_QUEUE_MIN_PRIORITY) || (DBOS_QUEUE_MAX_PRIORITY <? priority)
  then throw (DBOSInvalidQueuePriorityError priority DBOS_QUEUE_MIN_PRIORITY DBOS_QUEUE_MAX_PRIORITY)
  else step (void (Management.setWorkflowPriority (ar_now rd) id priority)) "DBOS.setWorkflowPriority".

(** [DBOS.setWorkflowDelay] *)
Definition setWorkflowDelay (id : string) (options : delay_options) : Call (option string) :=
  ensureDBOSIsLaunched P "setWorkflowDelay" ;*
  let* delayUntilEpochMS := of_sum (resolveDelayEpochMS (ar_start rd) options) in
  step (void (Management.setWorkflowDelay (ar_now rd) id delayUntilEpochMS)) "DBOS.setWorkflowDelay".

(** [DBOS.listWorkflowSteps]: the rows of the steps, if the workflow exists *)
Definition listWorkflowSteps (id : string) (lim offset : option Z) : Call (option string) :=
  ensureDBOSIsLaunched P "listWorkflowSteps" ;*
  step (reading (fun d => Ok match workflow_status d !! id with
                             | None => None
                             | Some _ => Some (getAllOperationResults id lim offset d)
                             end) (ap_write_steps P)) "DBOS.listWorkflowSteps".

(** [DBOS.cancelWorkflows] *)
Definition cancelWorkflows (ids : list string) (cancelChildren : bool) : Call (option string) :=
  ensureDBOSIsLaunched P "cancelWorkflows" ;*
  step (void (Management.cancelWorkflows (ar_levels rd) ids cancelChildren)) "DBOS.cancelWorkflow".

(** [DBOS.cancelWorkflow] *)
Definition cancelWorkflow (id : string) (cancelChildren : bool) : Call (option string) :=
  cancelWorkflows [id] cancelChildren.

(** The step of [DBOS.resumeWorkflows]; the handles are retrieved when it is over. *)
Definition resumeWorkflows_step (ids : list string) (queueName : option string) : Call (option string) :=
  ensureDBOSIsLaunched P "resumeWorkflows" ;*
  step (void (Management.resumeWorkflows (ar_now rd) ids queueName)) "DBOS.resumeWorkflow".

(** What follows the step of a call that gives handles: [retrieveWorkflow] in the context, once
    the step is over. *)
Definition then_retrieve {A} (call : Call A) (ids : A -> list string) : Call (list string) := fun c =>
  match call c with
  | (Throw e, c') => (Throw e, c')
  | (Ok rest, c') =>
      (Ok (fun d => match rest d with
                    | (Throw e, d') => (Throw e, d')
                    | (Ok a, d') =>
                        ((fix retrieve (l : list string) : outcome dbos_error (list string) :=
                            match l with
                            | [] => Ok []
                            | id :: l' => match (retrieveWorkflow id c').1, retrieve l' with
                                          | Ok h, Ok hs => Ok (h :: hs)
                                          | Throw e, _ | _, Throw e => Throw e
                                          end
                            end) (ids a), d')
                    end), c')
  end.

(** [DBOS.resumeWorkflows] *)
Definition resumeWorkflows (ids : list string) (queueName : option string) : Call (list string) :=
  then_retrieve (resumeWorkflows_step ids queueName) (fun _ => ids).

(** [DBOS.resumeWorkflow] *)
Definition resumeWorkflow (id : string) (queueName : option string) : Call (list string) :=
  resumeWorkflows [id] queueName.

(** [DBOS.deleteWorkflows]; [m] is the map of the running workflows that the deletion cleans. *)
Definition deleteWorkflows (ids : list string) (deleteChildren : bool) (m : running_map)
    : Call (option string) :=
  ensureDBOSIsLaunched P "deleteWorkflows" ;*
  step (void (Management.deleteWorkflows ids deleteChildren m)) "DBOS.deleteWorkflow".

(** [DBOS.deleteWorkflow] *)
Definition deleteWorkflow (id : string) (deleteChildren : bool) (m : running_map) : Call (option string) :=
  deleteWorkflows [id] deleteChildren m.

(** The ID of a fork, and the context that choosing it leaves: [forkWorkflow] of the executor
    takes the ID that is assigned for the next workflow, if it is given none. *)
Definition fork_id (newWorkflowID : option string) (c : DBOSLocalCtx) : string * DBOSLocalCtx :=
  match newWorkflowID with
  | Some new => (new, c)
  | None => match getNextWFID None c with
            | (Ok assigned, c') => (default (ar_uuid rd) assigned, c')
            | (Throw _, c') => (ar_uuid rd, c')
            end
  end.

(** The step of [DBOS.forkWorkflow]; its callback runs in the context as it is at [later], when
    the step found no checkpoint (or at once, where no step is made of it). *)
Definition forkWorkflow_step (later : DBOSLocalCtx) (id : string) (startStep : Z)
    (newWorkflowID : option string) (o : ForkOptions) : Call (option string) :=
  ensureDBOSIsLaunched P "forkWorkflow" ;*
  let new := (fork_id newWorkflowID later).1 in
  step (Fork.forkWorkflow (ar_now rd) id startStep new o ;* ret (ap_write_text P new)) "DBOS.forkWorkflow".

(** The context once the step [fid] of the workflow [wfid] that forks is over: the callback does not
    run when there is a checkpoint, nor when the workflow was cancelled. *)
Definition forkWorkflow_context (wfid : string) (fid : Z) (newWorkflowID : option string)
    (d : sysdb) (later : DBOSLocalCtx) : DBOSLocalCtx :=
  match getOperationResultAndThrowIfCancelled wfid fid d with
  | (Ok None, _) => (fork_id newWorkflowID later).2
  | _ => later
  end.

(** [DBOS.forkWorkflow]; [read] reads the ID back. *)
Definition forkWorkflow (read : option string -> string) (later : DBOSLocalCtx) (id : string) (startStep : Z)
    (newWorkflowID : option string) (o : ForkOptions) : Call (list string) :=
  then_retrieve (forkWorkflow_step later id startStep newWorkflowID o) (fun t => [read t]).

(** [DBOS.sleepms] in a workflow; elsewhere it only waits. *)
Definition sleepms (durationMS : Z) : Call (option string) := fun c =>
  if isWithinWorkflowCtx c && negb (isInStep c) then
    if isInTransaction c
    then (Throw (DBOSInvalidWorkflowTransitionError (Some "Invalid call to `DBOS.sleep` inside a `transaction`")), c)
    else (let* fid := functionIDGetIncrement in
          let* wfid := workflowID in
          ret (if durationMS <=? 0 then ret (ap_write_nothing P)
               else void (durableSleep executorID wfid fid durationMS (ar_start rd) (ar_start rd) (ar_end rd)))) c
  else (Ok (ret (ap_write_nothing P)), c).

(** [DBOS.now] *)
Definition now : Call (option string) := fun c =>
  let reading := ret (ap_write_number P (ar_now rd)) in
  if isInWorkflow c then step reading "DBOS.now" c else (Ok reading, c).

(** [DBOS.randomUUID] *)
Definition randomUUID : Call (option string) := fun c =>
  let reading := ret (ap_write_text P (ar_uuid rd)) in
  if isInWorkflow c then step reading "DBOS.randomUUID" c else (Ok reading, c).

(** A value that [serializeValue] yields, with the name of its serializer, or the error it
    throws *)
Notation serialized := (dbos_error + option string * option string)%type.

(** [DBOS.send]; the message is serialized after the ID is reserved. *)
Definition send (destinationID : string) (sermsg : serialized) (topic idempotencyKey : option string)
    : Call (option string) := fun c =>
  (ensureDBOSIsLaunched P "send" ;*
   if isInWorkflow c then
     let* functionID := functionIDGetIncrement in
     let* wfid := workflowID in
     ret (let* msg := lift sermsg in
          void (Messaging.send executorID (ar_uuid rd) (ar_now rd) wfid functionID destinationID msg.1 topic
                  msg.2 idempotencyKey (ar_start rd) (ar_end rd)))
   else
     ret (let* msg := lift sermsg in
          void (sendDirect (ar_uuid rd) (ar_now rd) destinationID msg.1 topic msg.2 idempotencyKey))) c.

(** [DBOS.recv]: what the system database answers, [None] when it still waits *)
Definition recv (topic : option string) (options : option wait_options) (pauses : list pause)
    : Call (option (option string * option string)) := fun c =>
  (ensureDBOSIsLaunched P "recv" ;*
   if isWithinWorkflowCtx c then
     if negb (isInWorkflow c)
     then throw (DBOSInvalidWorkflowTransitionError
                   (Some "Invalid call to `DBOS.recv` inside a `step` or `transaction`"))
     else
       let* functionID := functionIDGetIncrement in
       let* timeoutFunctionID := functionIDGetIncrement in
       let timeoutSeconds := resolveTimeout (ar_start rd) options in
       let* pollingIntervalMs := of_sum (resolvePollingIntervalMs options) in
       let* wfid := workflowID in
       ret (Messaging.recv executorID wfid functionID timeoutFunctionID topic
              (Some (default 60000 timeoutSeconds)) pauses (ar_start rd) (ar_end rd))
   else throw (DBOSInvalidWorkflowTransitionError (Some "Attempt to call `DBOS.recv` outside of a workflow"))) c.

(** [DBOS.setEvent] *)
Definition setEvent (key : string) (serevt : serialized) : Call (option string) := fun c =>
  (ensureDBOSIsLaunched P "setEvent" ;*
   if isWithinWorkflowCtx c then
     if negb (isInWorkflow c)
     then throw (DBOSInvalidWorkflowTransitionError
                   (Some "Invalid call to `DBOS.setEvent` inside a `step` or `transaction`"))
     else
       let* functionID := functionIDGetIncrement in
       let* wfid := workflowID in
       ret (let* v := lift serevt in
            void (Messaging.setEvent executorID wfid functionID key v.1 v.2 (ar_start rd) (ar_end rd)))
   else throw (DBOSInvalidWorkflowTransitionError (Some "Attempt to call `DBOS.setEvent` outside of a workflow"))) c.

(** [DBOS.getEvent] *)
Definition getEvent (id key : string) (options : option wait_options) (pauses : list pause)
    : Call (option (option string * option string)) := fun c =>
  (ensureDBOSIsLaunched P "getEvent" ;*
   let timeoutSeconds := default 60000 (resolveTimeout (ar_start rd) options) in
   let* pollingIntervalMs := of_sum (resolvePollingIntervalMs options) in
   if isWithinWorkflowCtx c then
     if negb (isInWorkflow c)
     then throw (DBOSInvalidWorkflowTransitionError
                   (Some "Invalid call to `DBOS.getEvent` inside a `step` or `transaction`"))
     else
       let* functionID := functionIDGetIncrement in
       let* timeoutFunctionID := functionIDGetIncrement in
       let* wfid := workflowID in
       ret (Messaging.getEvent executorID id key (Some timeoutSeconds)
              (Some (CallerWorkflowOf wfid functionID timeoutFunctionID)) pauses (ar_start rd) (ar_end rd))
   else ret (Messaging.getEvent executorID id key (Some timeoutSeconds) None pauses (ar_start rd) (ar_end rd))) c.

(** [DBOS.writeStream] *)
Definition writeStream (key : string) (serval : dbos_error + string * option string)
    : Call (option string) := fun c =>
  (ensureDBOSIsLaunched P "writeStream" ;*
   if isInWorkflow c then
     let* functionID := functionIDGetIncrement in
     let* wfid := workflowID in
     ret (let* v := lift serval in
          void (writeStreamFromWorkflow executorID wfid functionID key v.1 v.2 DBOS_FUNCNAME_WRITESTREAM
                  (ar_start rd) (ar_end rd)))
   else if isInStep c then
     let* wfid := workflowID in
     ret (let* v := lift serval in
          void (writeStreamFromStep wfid (default 0 (cx_curStepFunctionId c)) key v.1 v.2))
   else throw (DBOSInvalidWorkflowTransitionError
                 (Some "Invalid call to `DBOS.writeStream` outside of a workflow or step"))) c.

(** [DBOS.closeStream] *)
Definition closeStream (key : string) : Call (option string) := fun c =>
  (ensureDBOSIsLaunched P "closeStream" ;*
   if isWithinWorkflowCtx c then
     if isInWorkflow c then
       let* functionID := functionIDGetIncrement in
       let* wfid := workflowID in
       ret (void (Messaging.closeStream executorID wfid functionID key (ar_start rd) (ar_end rd)))
     else throw (DBOSInvalidWorkflowTransitionError
                   (Some "Invalid call to `DBOS.closeStream` outside of a workflow or step"))
   else throw (DBOSInvalidWorkflowTransitionError
                 (Some "Invalid call to `DBOS.closeStream` outside of a workflow"))) c.

(** [DBOS.patch] and [DBOS.deprecatePatch]: the ID is looked at before the [await] and taken
    after it, on what the check found. *)
Definition patch_call (name : string) (deprecated : bool) (patchName : string)
    : CM (DB PatchResult * (PatchResult -> CM bool)) := fun c =>
  (if negb (isInWorkflow c)
   then throw (DBOSInvalidWorkflowTransitionError
                 (Some ("`DBOS." +:+ name +:+ "` must be called from a workflow, and not within a step")))
   else if negb (ap_enablePatching P)
   then throw (DBOSInvalidWorkflowTransitionError
                 (Some "Patching is not enabled.  See `enablePatching` in `DBOSConfig`"))
   else
     let* functionID := functionIDGet in
     let* wfid := workflowID in
     ret (checkPatch (ar_now rd) wfid functionID patchName deprecated,
          fun patched =>
            (if hasEntry patched then let* _ := functionIDGetIncrement in ret tt else ret tt) ;*
            ret (isPatched patched))) c.

(** [DBOS.patch] *)
Definition patch (patchName : string) := patch_call "patch" false patchName.

(** [DBOS.deprecatePatch] *)
Definition deprecatePatch (patchName : string) := patch_call "deprecatePatch" true patchName.

(** What the registry knows of the function of a schedule *)
Record ScheduledFn : Type := ScheduledFnOf {
  fn_isInstance : bool;
  fn_className : string;
  fn_name : string
}.

(** The options of [createSchedule] and of an element of [applySchedules]; the context is given
    by what [serializer.stringify] makes of it. *)
Record ScheduleSpec : Type := ScheduleSpecOf {
  ss_scheduleName : string;
  ss_workflowFn : ScheduledFn;
  ss_schedule : string;
  ss_context : dbos_error + string;
  ss_automaticBackfill : option bool;
  ss_cronTimezone : option string;
  ss_queueName : option string
}.

(** The checks of a schedule, up to the serialization of its context *)
Definition validate_timezone (timezone : option string) : dbos_error + unit :=
  match truthy_str timezone with
  | Some tz => if ap_valid_timezone P tz then inr tt
               else inl (JsError ("Invalid timezone: '" +:+ tz +:+ "'"))
  | None => inr tt
  end.

Definition validate_spec (s : ScheduleSpec) : dbos_error + unit :=
  if fn_isInstance (ss_workflowFn s)
  then inl (DBOSError ("Cannot schedule instance method " +:+ quote +:+ fn_name (ss_workflowFn s) +:+ quote
              +:+ ". Only static methods and free functions can be used in schedules."))
  else match validateCrontab (ss_schedule s) with
       | inl e => inl e
       | inr _ => validate_timezone (ss_cronTimezone s)
       end.

(** The schedule that is stored *)
Definition internal_schedule (scheduleId : string) (s : ScheduleSpec) (context : string)
    : WorkflowScheduleInternal :=
  {| si_scheduleId := scheduleId;
     si_scheduleName := ss_scheduleName s;
     si_workflowName := fn_name (ss_workflowFn s);
     si_workflowClassName := fn_className (ss_workflowFn s);
     si_schedule := ss_schedule s;
     si_status := "ACTIVE";
     si_context := context;
     si_lastFiredAt := None;
     si_automaticBackfill := default false (ss_automaticBackfill s);
     si_cronTimezone := ss_cronTimezone s;
     si_queueName := ss_queueName s |}.

(** [DBOS.createSchedule]: the checks run before the first [await], the serialization of the
    context is awaited, and only then is the function ID reserved. *)
Definition createSchedule (s : ScheduleSpec) : CM (Call (option string)) :=
  ensureDBOSIsLaunched P "createSchedule" ;*
  let* _ := of_sum (validate_spec s) in
  ret (let* context := of_sum (ss_context s) in
       transactional (void (Schedules.createSchedule (internal_schedule (ar_uuid rd) s context)))
         "DBOS.createSchedule").

(** [DBOS.listSchedules], up to parsing the contexts *)
Definition listSchedules (filters : ScheduleFilters) : Call (option string) :=
  ensureDBOSIsLaunched P "listSchedules" ;*
  transactional (reading (fun d => Ok (Schedules.listSchedules (ap_name_le P) filters d)) (ap_write_schedules P))
    "DBOS.listSchedules".

(** [DBOS.getSchedule], up to parsing the context *)
Definition getSchedule (name : string) : Call (option string) :=
  ensureDBOSIsLaunched P "getSchedule" ;*
  transactional (reading (fun d => Ok (Schedules.getSchedule name d)) (ap_write_schedule P)) "DBOS.getSchedule".

(** [DBOS.deleteSchedule] *)
Definition deleteSchedule (name : string) : Call (option string) :=
  ensureDBOSIsLaunched P "deleteSchedule" ;*
  transactional (void (Schedules.deleteSchedule name)) "DBOS.deleteSchedule".

(** [DBOS.pauseSchedule] *)
Definition pauseSchedule (name : string) : Call (option string) :=
  ensureDBOSIsLaunched P "pauseSchedule" ;*
  transactional (void (setScheduleStatus name "PAUSED")) "DBOS.pauseSchedule".

(** [DBOS.resumeSchedule] *)
Definition resumeSchedule (name : string) : Call (option string) :=
  ensureDBOSIsLaunched P "resumeSchedule" ;*
  transactional (void (setScheduleStatus name "ACTIVE")) "DBOS.resumeSchedule".

(** [DBOS.updateSchedule]; a context that is among the keys is given by its serialization,
    which is awaited before the function ID is reserved; without a context there is no
    [await] in between. *)
Definition updateSchedule (name : string) (schedule : option string) (context : option (dbos_error + string))
    (automaticBackfill : option bool) (cronTimezone queueName : option (option string))
    : CM (Call (option string)) :=
  ensureDBOSIsLaunched P "updateSchedule" ;*
  let* _ := of_sum (match schedule with
                    | Some s => match validateCrontab s with inl e => inl e | inr _ => inr tt end
                    | None => inr tt
                    end) in
  let* _ := of_sum (validate_timezone (default None cronTimezone)) in
  ret (let* text := match context with
                    | Some c => let* t := of_sum c in ret (Some t)
                    | None => ret None
                    end in
       transactional
         (void (Schedules.updateSchedule name
                  (WorkflowScheduleUpdateOf schedule text automaticBackfill cronTimezone queueName)))
         "DBOS.updateSchedule").

(** Outside a workflow *)
Definition outside_workflow (name : string) : CM unit := fun c =>
  if isWithinWorkflowCtx c
  then (Throw (DBOSError (name +:+ " cannot be called from within a workflow")), c)
  else (Ok tt, c).

(** The loop of [DBOS.applySchedules]: each schedule has a random ID. *)
Fixpoint internal_schedules (specs : list (ScheduleSpec * string))
    : dbos_error + list WorkflowScheduleInternal :=
  match specs with
  | [] => inr []
  | (s, id) :: rest =>
      match validate_spec s with
      | inl e => inl e
      | inr _ =>
          match ss_context s with
          | inl e => inl e
          | inr context =>
              match internal_schedules rest with
              | inl e => inl e
              | inr l => inr (internal_schedule id s context :: l)
              end
          end
      end
  end.

(** [DBOS.applySchedules] *)
Definition applySchedules (specs : list (ScheduleSpec * string)) : Call unit :=
  ensureDBOSIsLaunched P "applySchedules" ;*
  outside_workflow "applySchedules" ;*
  ret (let* internals := lift (internal_schedules specs) in Schedules.applySchedules internals).

(** [DBOS.triggerSchedule] and [DBOS.backfillSchedule], with the serializer of the executor over
    the values [C] of contexts, the fields of a date in a time zone and the clock *)
Section schedules.
Context {C : Type} (date_fields : option string -> option (Z -> DateFields))
  (toISOString : Z -> string) (parse : string -> dbos_error + C)
  (stringifyArgs : Z -> C -> dbos_error + string) (serializerName : string) (clock : Z -> Z * Z).

Definition triggerSchedule (name : string) : Call string :=
  ensureDBOSIsLaunched P "triggerSchedule" ;*
  outside_workflow "triggerSchedule" ;*
  ret (let t := clock (ar_now rd) in
       Scheduler.triggerSchedule toISOString parse stringifyArgs serializerName t.1 t.2 (ar_now rd) name).

Definition backfillSchedule (name : string) (start end_ : Z) : Call (list string) :=
  ensureDBOSIsLaunched P "backfillSchedule" ;*
  outside_workflow "backfillSchedule" ;*
  ret (Scheduler.backfillSchedule date_fields toISOString parse stringifyArgs serializerName clock name start end_).
End schedules.

(** [DBOS.listApplicationVersions] *)
Definition listApplicationVersions : Call (list VersionInfo) :=
  ensureDBOSIsLaunched P "listApplicationVersions" ;*
  ret (fun d => (Ok (Schedules.listApplicationVersions d), d)).

(** [DBOS.getLatestApplicationVersion] *)
Definition getLatestApplicationVersion : Call VersionInfo :=
  ensureDBOSIsLaunched P "getLatestApplicationVersion" ;*
  ret Schedules.getLatestApplicationVersion.

(** [DBOS.setLatestApplicationVersion] *)
Definition setLatestApplicationVersion (versionName : string) : Call unit :=
  ensureDBOSIsLaunched P "setLatestApplicationVersion" ;*
  ret (updateApplicationVersionTimestamp versionName (ar_now rd)).

(** The [onConflict] policy of [DBOS.registerQueue] *)
Inductive onConflict : Type := always_update | never_update | update_if_latest_version.

(** [DBOS.registerQueue], whose policy is the last one by default *)
Definition registerQueue (name : string) (policy : option onConflict) (params : QueueParameters)
    : Call WorkflowQueue :=
  ensureDBOSIsLaunched P "registerQueue" ;*
  match validateQueueParams params with
  | Some e => throw e
  | None =>
      ret (let* updateExisting :=
             match default update_if_latest_version policy with
             | always_update => ret true
             | never_update => ret false
             | update_if_latest_version =>
                 let* latest := Schedules.getLatestApplicationVersion in
                 ret (String.eqb (versionName latest) (ap_appVersion P))
             end in
           let* inserted := upsertQueue (ar_now rd) (recordFromParams name params) updateExisting in
           let* d := get in
           match getQueue name d with
           | None => throw (JsError ("Queue '" +:+ name +:+ "' missing from database after upsert"))
           | Some persisted => ret (fromRecord persisted)
           end)
  end.

(** [DBOS.retrieveQueue] *)
Definition retrieveQueue (name : string) : Call (option WorkflowQueue) :=
  ensureDBOSIsLaunched P "retrieveQueue" ;*
  ret (fun d => (Ok (fromRecord <$> getQueue name d), d)).

(** [DBOS.deleteQueue] *)
Definition deleteQueue (name : string) : Call unit :=
  ensureDBOSIsLaunched P "deleteQueue" ;*
  ret (Queues.deleteQueue name).
End calls.
End DBOS.

(** * Lemmas: what the operations leave alone *)

(** The checkpoints of the workflow [id] are the same after [m]. *)
Definition fixes {A} (id : string) (m : DB A) : Prop := forall d fid, same_checkpoint id fid d (m d).2.

(** What a step may run: it keeps the database well formed and the checkpoints of its workflow. *)
Definition quiet {A} (id : string) (m : DB A) : Prop := preserves db_ok m /\ fixes id m.

Lemma fixes_bind {A B} id (m : DB A) (k : A -> DB B) :
  fixes id m -> (forall a, fixes id (k a)) -> fixes id (bind m k).
Proof.
  intros Hm Hk d fid. unfold bind. specialize (Hm d fid). destruct (m d) as [[a|e] d1]; [|done].
  unfold same_checkpoint in *. simpl in Hm. rewrite Hm. apply (Hk a d1 fid).
Qed.

Lemma fixes_ret {A} id (a : A) : fixes id (ret a).
Proof. by intros d fid. Qed.

Lemma fixes_throw {A} id e : fixes id (throw (A := A) e).
Proof. by intros d fid. Qed.

Lemma fixes_transaction {A} id (m : DB A) : fixes id m -> fixes id (transaction m).
Proof. intros Hm d fid. unfold transaction. specialize (Hm d fid). by destruct (m d) as [[a|e] d1]. Qed.

Lemma fixes_outputs {A} id (m : DB A) :
  (forall d, operation_outputs (m d).2 = operation_outputs d) -> fixes id m.
Proof. intros H d fid. unfold same_checkpoint. by rewrite H. Qed.

Lemma fixes_update id p f : fixes id (update_workflow_status p f).
Proof. apply fixes_outputs. intros d. unfold update_workflow_status. by destruct (dedup_uniqueb _). Qed.

Lemma fixes_insert id k r : fixes id (insert_workflow_status k r).
Proof. apply fixes_outputs. intros d. unfold insert_workflow_status. by repeat case_match. Qed.

Lemma insert_all_frame {K A} `{Countable K} (rows : list (K * A)) t t' k :
  insert_all rows t = Some t' -> (forall r, (k, r) ∉ rows) -> t' !! k = t !! k.
Proof.
  revert t. induction rows as [|[k0 r0] rows IH]; intros t; simpl; [by intros [= ->]|].
  destruct (t !! k0); [done|]. intros Hi Hk. rewrite (IH _ Hi); [|intros r Hr; apply (Hk r); set_solver].
  apply lookup_insert_ne. intros ->. apply (Hk r0). set_solver.
Qed.

Lemma fixes_insert_operations id rows :
  (forall k r, (k, r) ∈ rows -> k.1 <> id) -> fixes id (insert_rows operation_outputs rows).
Proof.
  intros Hr d fid. unfold insert_rows, same_checkpoint. destruct (insert_all rows _) as [t|] eqn:E; [|done].
  destruct (forallb _ rows); [|done]. simpl. symmetry. apply (insert_all_frame _ _ _ _ E).
  intros r Hin. by apply (Hr _ _ Hin).
Qed.

#[export] Hint Resolve fixes_bind fixes_ret fixes_throw fixes_transaction fixes_update fixes_insert : fixes.

(** A fork writes the checkpoints of the fork only. *)
Lemma fixes_fork id now orig start new o : new <> id -> fixes id (forkWorkflow now orig start new o).
Proof.
  intros Hne. unfold forkWorkflow. apply fixes_bind; [|auto with fixes].
  unfold bulkForkWorkflows. destruct (_ || _); [auto with fixes|]. apply fixes_transaction.
  apply fixes_bind; [by intros d|]. intros d0. apply fixes_bind.
  { simpl. destruct (_ !! orig); auto with fixes. }
  intros _. apply fixes_bind.
  { simpl. destruct (_ !! orig); auto with fixes. }
  intros _. apply fixes_bind; [auto with fixes|]. intros _.
  destruct (List.filter _ _) as [|m ms] eqn:E; [auto with fixes|].
  apply fixes_bind; [by intros d|]. intros d1. apply fixes_bind; [|auto with fixes].
  assert (forall x, x ∈ m :: ms -> m_fork x = new) as Hms.
  { rewrite <- E. intros x Hx. apply list_elem_of_In, filter_In in Hx as [Hx _]. simpl in Hx. naive_solver. }
  unfold copy_checkpoints. apply fixes_bind.
  { apply fixes_insert_operations. intros k r Hin. apply list_elem_of_In, in_concat in Hin as (l & Hl & Hin).
    apply in_map_iff in Hl as (x & <- & Hx). apply list_elem_of_In, list_elem_of_fmap in Hin as (kr & [= -> ->] & _).
    simpl. rewrite (Hms x) by (by apply list_elem_of_In). done. }
  intros _. apply fixes_outputs. intros d. unfold bind, insert_rows. by repeat (case_match; simplify_eq/=).
Qed.

Lemma fixes_cancel_levels id clock : forall visited frontier, fixes id (cancel_levels clock visited frontier).
Proof.
  induction clock as [|t clock IH]; intros visited frontier; [apply fixes_ret|].
  destruct frontier; [apply fixes_ret|]. cbn [cancel_levels].
  apply fixes_bind; [unfold cancelStatement; auto with fixes|]. intros _.
  apply fixes_bind; [by intros d|]. intros d. apply IH.
Qed.

Lemma fixes_cancel id clock ids b : fixes id (cancelWorkflows clock ids b).
Proof.
  unfold cancelWorkflows. destruct (negb b); [unfold cancelStatement; auto with fixes|].
  apply fixes_cancel_levels.
Qed.

Lemma quiet_operation {A} id (m : DB A) : operation true m -> fixes id m -> quiet id m.
Proof.
  intros Hm Hf. split; [|done]. intros d Hd.
  apply (step_since true d _ ltac:(by exists A, m) Hd).
Qed.

Lemma quiet_bind {A B} id (m : DB A) (k : A -> DB B) :
  quiet id m -> (forall a, quiet id (k a)) -> quiet id (bind m k).
Proof.
  intros [Hm1 Hm2] Hk. split; [apply preserves_bind; [done|apply Hk]|].
  apply fixes_bind; [done|apply Hk].
Qed.

Lemma quiet_ret {A} id (a : A) : quiet id (ret a).
Proof. split; [auto with preserves|apply fixes_ret]. Qed.

Lemma quiet_throw {A} id e : quiet id (throw (A := A) e).
Proof. split; [auto with preserves|apply fixes_throw]. Qed.

Lemma quiet_void {A} P id (m : DB A) : quiet id m -> quiet id (void P m).
Proof. intros Hm. apply quiet_bind; [done|]. intros a. apply quiet_ret. Qed.

Lemma quiet_reading {A} id (f : sysdb -> outcome dbos_error A) write : quiet id (reading f write).
Proof. split; [intros d Hd|intros d fid]; unfold reading; by destruct (f d). Qed.

(** The world of a quiet callback is benign. *)
Lemma world_benign rd id m : quiet id m -> benign id (world_of rd m).
Proof.
  intros [Hp Hf] n. split; [by intros d Hd|]. intros d Hd. split; [by apply Hp|].
  intros fid. apply Hf.
Qed.

(** Updates of the schedules *)
Lemma quiet_schedule {A} id (m : DB A) :
  operation true m -> (forall d, operation_outputs (m d).2 = operation_outputs d) -> quiet id m.
Proof. intros Ho Hm. apply quiet_operation; [done|by apply fixes_outputs]. Qed.

(** * Checkpointed operations *)

Section ops.
Context (P : ApiPlatform) (nonempty : forall e, ap_serializeError P e <> "").

Notation serializeError := (ap_serializeError P).
Notation deserializeResError := (ap_deserializeResError P).
Notation executorID := (ap_executorID P).

(** What a checkpointed operation leaves, from a database without its checkpoint *)
Definition leaves_checkpoint (replay : op_row -> outcome dbos_error (option string)) (id : string) (fid : Z)
    (d : sysdb) (res : outcome dbos_error (option string) * sysdb) : Prop :=
  db_ok res.2 /\ (forall fid', fid' <> fid -> same_checkpoint id fid' d res.2)
  /\ match operation_outputs res.2 !! (id, fid) with
     | Some r => agrees serializeError deserializeResError res.1 (replay r)
     | None => exists e, res.1 = Throw e
     end.

Lemma leaves_split replay id fid d res :
  leaves_checkpoint replay id fid d res ->
  let (o, d') := res in
  db_ok d' /\ (forall fid', fid' <> fid -> same_checkpoint id fid' d d')
  /\ match operation_outputs d' !! (id, fid) with
     | Some r => agrees serializeError deserializeResError o (replay r)
     | None => exists e, o = Throw e
     end.
Proof. by destruct res. Qed.

Lemma transactional_replays name id fid w d r :
  is_cancelled id d = false -> operation_outputs d !! (id, fid) = Some r ->
  transactional_step P w name id fid d = (replay_step deserializeResError name id fid r, d).
Proof.
  intros Hc Hr. unfold transactional_step, runTransactionalStep, transaction.
  unfold bind at 1. rewrite getOperationResult_run, Hc, Hr. cbn [fmap option_fmap option_map ret].
  unfold replay_step. cbn [stored_result sr_functionName]. destruct (negb _); [done|]. apply revive_run.
Qed.

Lemma transactional_records name id fid w d :
  db_ok d -> benign id w -> operation_outputs d !! (id, fid) = None ->
  leaves_checkpoint (replay_step deserializeResError name id fid) id fid d (transactional_step P w name id fid d).
Proof.
  intros Hd Hw Hn. destruct (Hw 1) as [_ Hb]. pose proof (Hb d Hd) as [Hd1 Hk1].
  assert (forall e, leaves_checkpoint (replay_step deserializeResError name id fid) id fid d (Throw e, d)) as Hthrow.
  { intros e. split; [done|]. split; [done|]. simpl. rewrite Hn. eauto. }
  unfold transactional_step, runTransactionalStep, transaction. unfold bind at 1.
  rewrite getOperationResult_run, Hn. destruct (is_cancelled id d); [apply Hthrow|].
  cbn [fmap option_fmap option_map]. unfold bind.
  destruct (at_body (wd_attempt w 1) d) as [[v|e] d1]; [|apply Hthrow]. cbn [fst snd] in *.
  pose proof (Hk1 fid) as Hn1. unfold same_checkpoint in Hn1. rewrite Hn in Hn1.
  destruct (record_cases executorID id fid name true (wd_start w) (wd_end w)
              (no_options <| op_output := v |>) d1 Hd1 (eq_sym Hn1)) as [(d' & E & Hr & Hd' & Hk)|E];
    unfold recordOperationResult in E; rewrite E; [|apply Hthrow].
  split; [done|]. split.
  - intros fid' Hne. unfold same_checkpoint. rewrite (Hk1 fid'). by apply Hk.
  - cbn [fst snd ret]. rewrite Hr. cbn [agrees]. by rewrite replay_recorded.
Qed.

(** A step of [runTransactionalInternalStep] *)
Definition transactional_op (name : string) : CheckpointedOp serializeError deserializeResError :=
  {| op_run := fun id fid w => transactional_step P w name id fid;
     op_replay := replay_step deserializeResError name;
     op_replays := fun id fid w d r => transactional_replays name id fid w d r;
     op_records := fun id fid w d Hd Hw Hn => leaves_split _ _ _ _ _ (transactional_records name id fid w d Hd Hw Hn) |}.

(** ** Writes: [send], [setEvent] and the streams *)

(** A replay of a write checks the name and returns nothing. *)
Definition replay_write (name id : string) (fid : Z) (r : op_row) : outcome dbos_error (option string) :=
  if negb (opt_eqb (Some (oo_function_name r)) (Some name))
  then Throw (DBOSUnexpectedStepError id fid name (oo_function_name r))
  else Ok (ap_write_nothing P).

(** [#runAndRecordResult] of a quiet function that returns nothing, as a transaction *)
Definition recorded_write {A} (name id : string) (fid : Z) (m : DB unit) (a : A) (w : World) : DB A :=
  transaction (runAndRecordResult executorID name id fid (m ;* ret None) (wd_start w) (wd_end w) ;* ret a).

Lemma write_replays {A} name id fid (m : DB unit) (a : A) w d r :
  is_cancelled id d = false -> operation_outputs d !! (id, fid) = Some r ->
  recorded_write name id fid m a w d
  = (if negb (opt_eqb (Some (oo_function_name r)) (Some name))
     then Throw (DBOSUnexpectedStepError id fid name (oo_function_name r)) else Ok a, d).
Proof.
  intros Hc Hr. unfold recorded_write, transaction, runAndRecordResult. unfold bind at 1 2.
  rewrite getOperationResult_run, Hc, Hr. cbn [fmap option_fmap option_map stored_result sr_functionName].
  by destruct (negb _).
Qed.

Lemma write_records {A} name id fid (m : DB unit) (a : A) w d :
  db_ok d -> quiet id m -> operation_outputs d !! (id, fid) = None ->
  let res := recorded_write name id fid m a w d in
  db_ok res.2 /\ (forall fid', fid' <> fid -> same_checkpoint id fid' d res.2)
  /\ match operation_outputs res.2 !! (id, fid) with
     | Some r => res.1 = Ok a /\ oo_function_name r = name
     | None => exists e, res.1 = Throw e
     end.
Proof.
  intros Hd [Hp Hf] Hn. cbv zeta. destruct (recorded_write name id fid m a w d) as [o d'] eqn:E. cbn [fst snd].
  assert (forall e, (Throw e, d) = (o, d') ->
    db_ok d' /\ (forall fid', fid' <> fid -> same_checkpoint id fid' d d')
    /\ match operation_outputs d' !! (id, fid) with
       | Some r => o = Ok a /\ oo_function_name r = name
       | None => exists e, o = Throw e
       end) as Hthrow.
  { intros e [= <- <-]. rewrite Hn. split; [done|]. split; [done|]. eauto. }
  unfold recorded_write, transaction, runAndRecordResult in E. unfold bind at 1 2 in E.
  rewrite getOperationResult_run, Hn in E. destruct (is_cancelled id d); [by apply Hthrow in E|].
  cbn [fmap option_fmap option_map] in E. unfold bind in E.
  pose proof (Hp d Hd) as Hd1. pose proof (Hf d) as Hk1.
  destruct (m d) as [[[]|e] d1]; [|by apply Hthrow in E]. cbn [fst snd ret] in *.
  pose proof (Hk1 fid) as Hn1. unfold same_checkpoint in Hn1. rewrite Hn in Hn1.
  destruct (record_cases executorID id fid name true (wd_start w) (wd_end w)
              (no_options <| op_output := None |>) d1 Hd1 (eq_sym Hn1)) as [(d2 & Er & Hr & Hd2 & Hk)|Er];
    unfold recordOperationResult in Er; rewrite Er in E; [|by apply Hthrow in E].
  injection E as <- <-. split; [done|]. split; [|by rewrite Hr].
  intros fid' Hne. unfold same_checkpoint. rewrite (Hk1 fid'). by apply Hk.
Qed.

Lemma write_void_replays {A} name id fid (m : DB unit) (a : A) w d r :
  is_cancelled id d = false -> operation_outputs d !! (id, fid) = Some r ->
  void P (recorded_write name id fid m a w) d = (replay_write name id fid r, d).
Proof.
  intros Hc Hr. unfold void, bind at 1. rewrite (write_replays _ _ _ _ _ _ _ r) by done.
  unfold replay_write. by destruct (negb _).
Qed.

Lemma write_void_records {A} name id fid (m : DB unit) (a : A) w d :
  db_ok d -> quiet id m -> operation_outputs d !! (id, fid) = None ->
  leaves_checkpoint (replay_write name id fid) id fid d (void P (recorded_write name id fid m a w) d).
Proof.
  intros Hd Hm Hn. pose proof (write_records name id fid m a w d Hd Hm Hn) as H. cbv zeta in H.
  unfold void, bind at 1. destruct (recorded_write name id fid m a w d) as [[x|e] d']; cbn [fst snd] in H |- *.
  - destruct H as (H1 & H2 & H3). split; [done|]. split; [done|]. unfold ret. cbn [fst snd].
    destruct (operation_outputs d' !! (id, fid)) as [r|]; [|by destruct H3].
    destruct H3 as [_ Hname]. cbn [agrees]. unfold replay_write, opt_eqb. by rewrite bool_decide_true by congruence.
  - destruct H as (H1 & H2 & H3). split; [done|]. split; [done|]. cbn [fst snd].
    destruct (operation_outputs d' !! (id, fid)) as [r|]; [by destruct H3|]. eauto.
Qed.

(** [write_step] differs only in what it tells about the notification. *)
Lemma void_write_step fn id fid m w d :
  void P (write_step executorID fn id fid m (wd_start w) (wd_end w)) d
  = void P (recorded_write fn id fid m tt w) d.
Proof.
  unfold void, write_step, recorded_write, transaction, bind.
  rewrite getOperationResult_run. destruct (is_cancelled id d) eqn:Hc.
  - unfold runAndRecordResult, bind. by rewrite getOperationResult_run, Hc.
  - by destruct (runAndRecordResult _ _ _ _ _ _ _ d) as [[x|e] d'].
Qed.

Lemma translate_replays name id fid dest (m : DB unit) w d r :
  is_cancelled id d = false -> operation_outputs d !! (id, fid) = Some r ->
  void P (translate_missing dest (recorded_write name id fid m tt w)) d = (replay_write name id fid r, d).
Proof.
  intros Hc Hr. unfold void, translate_missing, try_catch, bind at 1.
  rewrite (write_replays _ _ _ _ _ _ _ r) by done. unfold replay_write. by destruct (negb _).
Qed.

Lemma translate_records name id fid dest (m : DB unit) w d :
  db_ok d -> quiet id m -> operation_outputs d !! (id, fid) = None ->
  leaves_checkpoint (replay_write name id fid) id fid d
    (void P (translate_missing dest (recorded_write name id fid m tt w)) d).
Proof.
  intros Hd Hm Hn. pose proof (write_void_records name id fid m tt w d Hd Hm Hn) as H.
  pose proof (write_records name id fid m tt w d Hd Hm Hn) as Hw. cbv zeta in Hw. revert H Hw.
  unfold void, translate_missing, try_catch, bind.
  destruct (recorded_write name id fid m tt w d) as [[x|e] d']; [done|]. intros _ (H1 & H2 & H3).
  cbn [fst snd] in H1, H2, H3.
  assert (forall e', leaves_checkpoint (replay_write name id fid) id fid d (Throw e', d')) as Hl.
  { intros e'. split; [done|]. split; [done|]. cbn [fst snd].
    destruct (operation_outputs d' !! (id, fid)); [by destruct H3|eauto]. }
  destruct (is_foreign_key_error e); apply Hl.
Qed.
End ops.

(** * The calls of a workflow *)

Section facade.
Context (P : ApiPlatform) (rd : CallReadings) (id : string).
Context (nonempty : forall e, ap_serializeError P e <> "") (launched : ap_launched P = true).

(** The calls that are one checkpointed step of the workflow [id]; their arguments pass the
    checks, the values they take can be serialized, and a fork is not given the ID of its caller.
    [createSchedule], and [updateSchedule] with a context, are none of them: they reserve their ID
    after their first [await] ([createSchedule_reserves_late] below). *)
Inductive durable : Call (option string) -> Prop :=
| dur_listWorkflows q : durable (DBOS.listWorkflows P rd q)
| dur_listQueuedWorkflows q : durable (DBOS.listQueuedWorkflows P rd q)
| dur_listWorkflowSteps k lim offset : durable (DBOS.listWorkflowSteps P rd k lim offset)
| dur_setWorkflowPriority k p :
    DBOS_QUEUE_MIN_PRIORITY <= p <= DBOS_QUEUE_MAX_PRIORITY -> durable (DBOS.setWorkflowPriority P rd k p)
| dur_setWorkflowDelay k o t :
    resolveDelayEpochMS (ar_start rd) o = inr t -> durable (DBOS.setWorkflowDelay P rd k o)
| dur_cancelWorkflows ids b : durable (DBOS.cancelWorkflows P rd ids b)
| dur_resumeWorkflows ids q : durable (DBOS.resumeWorkflows_step P rd ids q)
| dur_forkWorkflow later k start new o :
    (DBOS.fork_id rd new later).1 <> id -> durable (DBOS.forkWorkflow_step P rd later k start new o)
| dur_now : durable (DBOS.now P rd)
| dur_randomUUID : durable (DBOS.randomUUID P rd)
| dur_send dest msg topic idem : durable (DBOS.send P rd dest (inr msg) topic idem)
| dur_setEvent key v : durable (DBOS.setEvent P rd key (inr v))
| dur_writeStream key v : durable (DBOS.writeStream P rd key (inr v))
| dur_closeStream key : durable (DBOS.closeStream P rd key)
| dur_listSchedules f : durable (DBOS.listSchedules P rd f)
| dur_getSchedule n : durable (DBOS.getSchedule P rd n)
| dur_deleteSchedule n : durable (DBOS.deleteSchedule P rd n)
| dur_pauseSchedule n : durable (DBOS.pauseSchedule P rd n)
| dur_resumeSchedule n : durable (DBOS.resumeSchedule P rd n)
| dur_updateSchedule n sc ab tz q late :
    (forall c, DBOS.updateSchedule P rd n sc None ab tz q c = (Ok late, c)) ->
    durable (let* late := DBOS.updateSchedule P rd n sc None ab tz q in late).

(** The rest of a call is checkpointed under the function ID [fid]: when the workflow already has
    that checkpoint, it leaves the database alone and its outcome is a function of the checkpoint;
    when it has none, it leaves one that replays its outcome, or it throws, and either way it
    touches no other checkpoint of the workflow. *)
Definition checkpointed_under (fid : Z) (body : DB (option string)) : Prop := exists replay,
  (forall d r, is_cancelled id d = false -> operation_outputs d !! (id, fid) = Some r ->
     body d = (replay r, d))
  /\ (forall d, db_ok d -> operation_outputs d !! (id, fid) = None ->
        leaves_checkpoint P replay id fid d (body d)).

(** A call that reserves one function ID and whose rest is checkpointed under it *)
Definition checkpointed_call (call : Call (option string)) : Prop := forall next,
  let fid := default 0 next in
  exists body,
    call (workflow_ctx id next) = (Ok body, workflow_ctx id (Some (fid + 1)))
    /\ checkpointed_under fid body.

(** Calls that are made one after the other without waiting, as in a [Promise.all] *)
Fixpoint start_all (calls : list (Call (option string))) : CM (list (DB (option string))) :=
  match calls with
  | [] => ret []
  | call :: rest =>
      let* body := call in
      let* bodies := start_all rest in
      ret (body :: bodies)
  end.

Lemma ensure_launched what c : ensureDBOSIsLaunched P what c = (Ok tt, c).
Proof. unfold ensureDBOSIsLaunched. by rewrite launched. Qed.

Lemma after_launch what (call : Call (option string)) :
  checkpointed_call call -> checkpointed_call (ensureDBOSIsLaunched P what ;* call).
Proof. intros H next. unfold bind at 1. rewrite ensure_launched. apply H. Qed.

Lemma internal_checkpointed m name :
  quiet id m -> checkpointed_call (runInternalStep_call P rd m name).
Proof.
  intros Hm next fid. eexists. split; [reflexivity|].
  exists (replay_step (ap_deserializeResError P) name id fid). split.
  - intros d r Hc Hr. by apply runInternalStep_replays.
  - intros d Hd Hn.
    pose proof (runInternalStep_records (ap_serializeError P) (ap_deserializeResError P) (ap_executorID P) nonempty
                  name None id fid (world_of rd m) d Hd (world_benign rd id m Hm) Hn) as H.
    unfold leaves_checkpoint. cbn [default from_option cx_workflowId workflow_ctx] in *. by destruct (runInternalStep _ _ _ _ _ _ _ _ d).
Qed.

Lemma transactional_checkpointed m name :
  quiet id m -> checkpointed_call (runTransactionalInternalStep P rd m name).
Proof.
  intros Hm next fid. eexists. split; [reflexivity|].
  exists (replay_step (ap_deserializeResError P) name id fid). split.
  - intros d r Hc Hr. by apply transactional_replays.
  - intros d Hd Hn. apply (transactional_records P name id fid (world_of rd m) d Hd); [|done].
    by apply world_benign.
Qed.

(** A call that reserves its ID and then writes *)
Lemma write_checkpointed (call : Call (option string)) name (body : Z -> DB (option string)) :
  (forall next, call (workflow_ctx id next)
     = (Ok (body (default 0 next)), workflow_ctx id (Some (default 0 next + 1)))) ->
  (forall fid d r, is_cancelled id d = false -> operation_outputs d !! (id, fid) = Some r ->
     body fid d = (replay_write P name id fid r, d)) ->
  (forall fid d, db_ok d -> operation_outputs d !! (id, fid) = None ->
     leaves_checkpoint P (replay_write P name id fid) id fid d (body fid d)) ->
  checkpointed_call call.
Proof. intros Hc Hr Hl next fid. eexists. split; [apply Hc|]. eexists. split; [apply Hr|apply Hl]. Qed.

Lemma quiet_insert_notification now u dest topic m ser :
  quiet id (insert_notification now u dest topic m ser).
Proof.
  split; [auto with preserves|]. apply fixes_outputs. intros d.
  unfold insert_notification, bind, require_workflow. by repeat (case_match; simplify_eq/=).
Qed.

Lemma quiet_upsert_event fid key v : quiet id (upsert_event id fid key v).
Proof.
  split; [auto with preserves|]. apply fixes_outputs. intros d.
  unfold upsert_event, bind, require_workflow. by repeat (case_match; simplify_eq/=).
Qed.

Lemma quiet_append_stream key fid v ser : quiet id (append_stream id key fid v ser).
Proof.
  split; [auto with preserves|]. apply fixes_outputs. intros d. unfold append_stream, insert_rows.
  by repeat (case_match; simplify_eq/=).
Qed.

Lemma send_checkpointed dest msg topic idem : checkpointed_call (DBOS.send P rd dest (inr msg) topic idem).
Proof.
  apply (write_checkpointed _ DBOS_FUNCNAME_SEND (fun fid =>
           void P (Messaging.send (ap_executorID P) (ar_uuid rd) (ar_now rd) id fid dest msg.1 topic msg.2 idem
                     (ar_start rd) (ar_end rd)))).
  - intros next. unfold DBOS.send. unfold bind at 1. rewrite ensure_launched. reflexivity.
  - intros fid d r Hc Hr. apply (translate_replays P _ _ _ _ _ (world_of rd (ret None)) _ _ Hc Hr).
  - intros fid d Hd Hn.
    apply (translate_records P _ _ _ _ _ (world_of rd (ret None)) _ Hd (quiet_insert_notification _ _ _ _ _ _) Hn).
Qed.

Lemma step_write_checkpointed (call : Call (option string)) name (m : Z -> DB unit) :
  (forall next, call (workflow_ctx id next)
     = (Ok (void P (write_step (ap_executorID P) name id (default 0 next) (m (default 0 next)) (ar_start rd)
                      (ar_end rd))), workflow_ctx id (Some (default 0 next + 1)))) ->
  (forall fid, quiet id (m fid)) -> checkpointed_call call.
Proof.
  intros Hc Hm. apply (write_checkpointed _ name (fun fid =>
    void P (write_step (ap_executorID P) name id fid (m fid) (ar_start rd) (ar_end rd))) Hc).
  - intros fid d r Hx Hr. rewrite (void_write_step P name id fid _ (world_of rd (ret None))).
    by apply write_void_replays.
  - intros fid d Hd Hn. rewrite (void_write_step P name id fid _ (world_of rd (ret None))).
    by apply write_void_records.
Qed.

Lemma setEvent_checkpointed key v : checkpointed_call (DBOS.setEvent P rd key (inr v)).
Proof.
  apply (step_write_checkpointed _ DBOS_FUNCNAME_SETEVENT (fun fid => upsert_event id fid key (EventRow v.1 v.2))).
  - intros next. unfold DBOS.setEvent. unfold bind at 1. rewrite ensure_launched. reflexivity.
  - intros fid. apply quiet_upsert_event.
Qed.

Lemma writeStream_checkpointed key v : checkpointed_call (DBOS.writeStream P rd key (inr v)).
Proof.
  apply (step_write_checkpointed _ DBOS_FUNCNAME_WRITESTREAM (fun fid => append_stream id key fid v.1 v.2)).
  - intros next. unfold DBOS.writeStream. unfold bind at 1. rewrite ensure_launched. reflexivity.
  - intros fid. apply quiet_append_stream.
Qed.

Lemma closeStream_checkpointed key : checkpointed_call (DBOS.closeStream P rd key).
Proof.
  apply (step_write_checkpointed _ DBOS_FUNCNAME_CLOSESTREAM (fun fid =>
           append_stream id key fid DBOS_STREAM_CLOSED_SENTINEL (Some "portable_json"))).
  - intros next. unfold DBOS.closeStream. unfold bind at 1. rewrite ensure_launched. reflexivity.
  - intros fid. apply quiet_append_stream.
Qed.

(** Every one of these calls is checkpointed under the next function ID. *)
Lemma facade_durable call : durable call -> checkpointed_call call.
Proof.
  destruct 1 as [q|q|k lim off|k p Hp|k o t Ht|ids b|ids q|later k start new o Hne| | |dest msg topic idem|key v|key v|key
                |f|n|n|n|n|n sc ab tz q late Hlate].
  - apply after_launch, internal_checkpointed, quiet_reading.
  - apply after_launch, internal_checkpointed, quiet_reading.
  - apply after_launch, internal_checkpointed, quiet_reading.
  - apply after_launch. destruct Hp as [Hlo Hhi]. apply Z.ltb_ge in Hlo, Hhi. rewrite Hlo, Hhi.
    apply internal_checkpointed, quiet_void, quiet_operation; [apply op_setWorkflowPriority|].
    unfold setWorkflowPriority. auto with fixes.
  - apply after_launch. rewrite Ht. apply internal_checkpointed, quiet_void, quiet_operation; [apply op_setWorkflowDelay|].
    unfold setWorkflowDelay. auto with fixes.
  - apply after_launch, internal_checkpointed, quiet_void, quiet_operation; [apply op_cancelWorkflows|]. apply fixes_cancel.
  - apply after_launch, internal_checkpointed, quiet_void, quiet_operation; [by apply op_resumeWorkflows|].
    unfold resumeWorkflows. auto with fixes.
  - apply after_launch, internal_checkpointed. apply quiet_bind; [|intros a; apply quiet_ret].
    apply quiet_operation; [apply op_forkWorkflow|by apply fixes_fork].
  - apply (internal_checkpointed (ret (ap_write_number P (ar_now rd))) "DBOS.now"), quiet_ret.
  - apply (internal_checkpointed (ret (ap_write_text P (ar_uuid rd))) "DBOS.randomUUID"), quiet_ret.
  - apply send_checkpointed.
  - apply setEvent_checkpointed.
  - apply writeStream_checkpointed.
  - apply closeStream_checkpointed.
  - apply after_launch, transactional_checkpointed, quiet_reading.
  - apply after_launch, transactional_checkpointed, quiet_reading.
  - apply after_launch, transactional_checkpointed, quiet_void, quiet_schedule; [apply op_deleteSchedule|done].
  - apply after_launch, transactional_checkpointed, quiet_void, quiet_schedule; [apply op_setScheduleStatus|done].
  - apply after_launch, transactional_checkpointed, quiet_void, quiet_schedule; [apply op_setScheduleStatus|done].
  - intros next fid. unfold bind at 1. rewrite Hlate.
    specialize (Hlate (workflow_ctx id None)). unfold DBOS.updateSchedule, bind at 1 in Hlate.
    rewrite ensure_launched in Hlate. unfold bind at 1 2 in Hlate.
    destruct (of_sum _ _) as [[[]|e] c]; [|discriminate Hlate].
    destruct (of_sum _ c) as [[[]|e] c']; [|discriminate Hlate]. injection Hlate as <- _.
    apply (transactional_checkpointed
             (void P (updateSchedule n (WorkflowScheduleUpdateOf sc None ab tz q))) "DBOS.updateSchedule").
    apply quiet_void, quiet_schedule; [apply op_updateSchedule|].
    intros d; unfold updateSchedule; by destruct (_ !! n).
Qed.


End facade.

(** * Witnesses *)

Definition ex_api : ApiPlatform :=
  {| ap_serializeError := fun _ => "error";
     ap_deserializeResError := fun e _ => JsError e;
     ap_write_nothing := None;
     ap_write_number := fun n => Some (stringify_Z n);
     ap_write_text := fun s => Some s;
     ap_write_statuses := fun _ => None;
     ap_write_steps := fun _ => None;
     ap_write_schedules := fun _ => None;
     ap_write_schedule := fun _ => None;
     ap_Date_parse := parse_Z;
     ap_jsonb_contains := fun _ _ => false;
     ap_name_le := String.leb;
     ap_valid_timezone := fun _ => true;
     ap_executorID := "exec-1";
     ap_appVersion := "v1";
     ap_enablePatching := true;
     ap_launched := true |}.

Definition ex_call : CallReadings := CallReadingsOf 60 61 60 [60; 60] "uuid-1".

(** The clock is read, another workflow is cancelled and an event is set, at once. *)
Definition ex_calls : list (Call (option string)) :=
  [DBOS.now ex_api ex_call; DBOS.cancelWorkflows ex_api ex_call ["wf-2"] false;
   DBOS.setEvent ex_api ex_call "key" (inr (Some "1", None))].


(** * What the calls do not do *)

(** In the body of a step of the workflow [id] *)
Definition in_step_ctx (id : string) (next : option Z) (stepID : Z) : DBOSLocalCtx :=
  workflow_ctx id next <| cx_curStepFunctionId := Some stepID |>.

Lemma step_runs_directly P rd m name id next s :
  runInternalStep_call P rd m name (in_step_ctx id next s) = (Ok m, in_step_ctx id next s).
Proof. done. Qed.

(** In a step, [DBOS.forkWorkflow] forks the workflow and then refuses to give its handle. *)
Lemma forkWorkflow_in_step_forks_and_throws P rd read k startStep new o id next s d t d' :
  let c := in_step_ctx id next s in
  let fork := (DBOS.fork_id rd new c).1 in
  ap_launched P = true ->
  (Fork.forkWorkflow (ar_now rd) k startStep fork o ;*
     ret (ap_write_text P fork)) d = (Ok t, d') ->
  exists body, DBOS.forkWorkflow P rd read c k startStep new o c = (Ok body, c)
    /\ body d = (Throw (DBOSInvalidWorkflowTransitionError
                          (Some "Invalid call to `retrieveWorkflow` inside a `transaction` or `step`")), d').
Proof.
  intros c fork Hl Hf. unfold DBOS.forkWorkflow, DBOS.then_retrieve, DBOS.forkWorkflow_step, bind at 1.
  unfold ensureDBOSIsLaunched. rewrite Hl. unfold ret at 1. fold fork. unfold c. rewrite step_runs_directly.
  eexists. split; [reflexivity|]. cbv beta. rewrite Hf. unfold DBOS.retrieveWorkflow. by rewrite Hl.
Qed.

(** A fork takes the ID that is assigned for the next workflow, but its replay leaves it there, for
    the next workflow that is started. *)
Lemma forkWorkflow_replay_leaves_ID rd wfid fid later d x :
  cx_idAssignedForNextWorkflow later = Some x -> x <> "" -> is_cancelled wfid d = false ->
  DBOS.fork_id rd None later = (x, later <| cx_idAssignedForNextWorkflow := None |>)
  /\ DBOS.forkWorkflow_context rd wfid fid None d later
     = match operation_outputs d !! (wfid, fid) with
       | None => later <| cx_idAssignedForNextWorkflow := None |>
       | Some _ => later
       end.
Proof.
  intros Hx Hne Hc.
  assert (DBOS.fork_id rd None later = (x, later <| cx_idAssignedForNextWorkflow := None |>)) as Hf.
  { unfold DBOS.fork_id, getNextWFID. cbn [truthy_str]. rewrite Hx. by destruct x. }
  split; [exact Hf|]. unfold DBOS.forkWorkflow_context. rewrite Hf, getOperationResult_run, Hc.
  by destruct (operation_outputs d !! (wfid, fid)).
Qed.

(** In a step, so does [DBOS.resumeWorkflows]. *)
Lemma resumeWorkflows_in_step_resumes_and_throws P rd k ids q id next s d d' :
  ap_launched P = true ->
  Management.resumeWorkflows (ar_now rd) (k :: ids) q d = (Ok tt, d') ->
  exists body c, DBOS.resumeWorkflows P rd (k :: ids) q (in_step_ctx id next s) = (Ok body, c)
    /\ body d = (Throw (DBOSInvalidWorkflowTransitionError
                          (Some "Invalid call to `retrieveWorkflow` inside a `transaction` or `step`")), d').
Proof.
  intros Hl Hr. unfold DBOS.resumeWorkflows, DBOS.then_retrieve, DBOS.resumeWorkflows_step, bind at 1.
  unfold ensureDBOSIsLaunched. rewrite Hl. unfold ret at 1. rewrite step_runs_directly.
  eexists _, _. split; [reflexivity|]. cbv beta. unfold void, bind. rewrite Hr. unfold ret.
  unfold DBOS.retrieveWorkflow. by rewrite Hl.
Qed.

(** [DBOS.patch] looks at the next function ID and takes it only when the check is over: a call
    made meanwhile reserves the same one. *)
Lemma patch_shares_its_ID P rd name (call : Call (option string)) id next body :
  ap_enablePatching P = true ->
  call (workflow_ctx id (Some next)) = (Ok body, workflow_ctx id (Some (next + 1))) ->
  exists rest, (let* p := DBOS.patch P rd name in let* _ := call in ret p.1) (workflow_ctx id (Some next))
    = (Ok rest, workflow_ctx id (Some (next + 1)))
  /\ rest = checkPatch (ar_now rd) id next name false.
Proof.
  intros Hp Hc. unfold DBOS.patch, DBOS.patch_call. unfold bind at 1. cbn. rewrite Hp. cbn.
  unfold bind. unfold workflow_ctx in Hc. rewrite Hc. eexists. split; reflexivity.
Qed.

(** [DBOS.createSchedule] reserves its ID after its first [await]: a call that is made after it,
    without waiting, takes the ID before. *)
Lemma createSchedule_reserves_late P rd s text (call : Call (option string)) id next body :
  ap_launched P = true -> DBOS.validate_spec P s = inr tt -> DBOS.ss_context s = inr text ->
  call (workflow_ctx id (Some next)) = (Ok body, workflow_ctx id (Some (next + 1))) ->
  exists late,
    (let* late := DBOS.createSchedule P rd s in let* _ := call in ret late) (workflow_ctx id (Some next))
      = (Ok late, workflow_ctx id (Some (next + 1)))
    /\ late (workflow_ctx id (Some (next + 1)))
       = (Ok (transactional_step P
                (world_of rd (void P (Schedules.createSchedule (DBOS.internal_schedule (ar_uuid rd) s text))))
                "DBOS.createSchedule" id (next + 1)), workflow_ctx id (Some (next + 1 + 1))).
Proof.
  intros Hl Hv Hs Hc. unfold DBOS.createSchedule. unfold bind at 1 2. unfold ensureDBOSIsLaunched. rewrite Hl, Hv.
  cbv [of_sum ret bind]. rewrite Hc. eexists. split; [reflexivity|]. by rewrite Hs.
Qed.
