(* ===== verification/Debouncer.v ===== *)
(** The [Debouncer] of a running process (src/src/debouncer.ts): the same loop as that of
    [DebouncerClient] (Debounce.v), over a bounce that is a step of the calling workflow and a
    start through the executor. *)

From stdpp Require Import pretty.
From S2P Require Export Start Api.

Open Scope Z_scope.

(** What one round of the loop meets: the readings of its bounce, [Date.now()] for the delay and
    for the deadline, the readings of the start, and what other processes do between the bounce
    and the start and before the next round *)
Record DebouncerRound : Type := DebouncerRoundOf {
  dr_call : CallReadings;
  dr_delayNow : Z;
  dr_deadlineNow : Z;
  dr_start : StartReadings;
  dr_between : sysdb -> sysdb;
  dr_next : sysdb -> sysdb
}.

Section debouncer.
Context {Args : Type}
        (P : ApiPlatform)
        (serializeArgs : Args -> option string -> string * option string)
        (serializerName appID : string)
        (queues : gmap string WorkflowQueue)
        (registry : string -> string -> dbos_error + option Registration)
        (write_result : DebounceResult -> option string)
        (read_result : option string -> DebounceResult).

Notation executorID := (ap_executorID P).
Notation serializeError := (ap_serializeError P).
Notation deserializeResError := (ap_deserializeResError P).
Notation startWorkflow :=
  (startWorkflow serializeArgs serializeError deserializeResError serializerName executorID
     (ap_appVersion P) appID queues).
Notation invokeRegOp :=
  (invokeRegOp serializeArgs serializeError deserializeResError serializerName executorID
     (ap_appVersion P) appID).
Notation invokeWorkflow :=
  (invokeWorkflow serializeArgs serializeError deserializeResError serializerName executorID
     (ap_appVersion P) appID queues).
Notation prepare_start := (prepare_start queues).

(** The inputs as the bounce stores them, which is how a start serializes them *)
Definition debounced_call (c : DebounceCall) (args : Args) (serializationType : option string) : DebounceCall :=
  c <| dc_input := Some (serializeArgs args serializationType).1 |>
    <| dc_serialization := (serializeArgs args serializationType).2 |>.

(** The bounce, committed with its checkpoint when it is a step of a workflow.  The loop uses the
    result as a checkpoint gives it back. *)
Definition bounce_step (c : DebounceCall) (r : DebouncerRound) : Call (option string) :=
  runTransactionalInternalStep P (dr_call r)
    (let* result := debounceDelayedWorkflow (ar_now (dr_call r)) (bounce_params (dr_delayNow r) c) in
     ret (write_result result))
    "DBOS.debounceDelayedWorkflow".

(** The parameters of the start of a fresh debounced workflow *)
Definition debounced_start (c : DebounceCall) (pinnedWorkflowID : option string) (r : DebouncerRound)
    : StartParams :=
  {| st_workflowID := pinnedWorkflowID;
     st_queueName := Some (debounce_queue c);
     st_timeoutMS := Some (sp_timeoutMS (dc_params c));
     st_deduplicationID := Some (debounce_dedup_id c);
     st_priority := None;
     st_queuePartitionKey := None;
     st_applicationVersion := sp_applicationVersion (dc_params c);
     st_delayMS := Some (dc_debouncePeriodMs c);
     st_returnExisting := false;
     st_attributes := sp_attributes (dc_params c);
     st_debounceDeadlineEpochMS := debounce_deadline (dr_deadlineNow r) c;
     st_isDebounced := true |}.

(** What others do to the system database *)
Definition others (f : sysdb -> sysdb) : AX unit := fun s => (Ok tt, (s.1, (f s.2.1, s.2.2))).

(** [while (true)]: [None] when it still tries after the given rounds *)
Fixpoint debouncer_loop (reg : Registration) (c : DebounceCall) (args : Args) (co : CallerOptions)
    (pinnedWorkflowID : option string) (rounds : list DebouncerRound) : AX (option WorkflowHandle) :=
  match rounds with
  | [] => ret None
  | r :: rounds' =>
      let* step := in_ctx (bounce_step c r) in
      let* stored := in_exec (on_sys step) in
      let result := read_result stored in
      match classifyBounce result (dc_workflowName c) (dc_workflowClassName c) with
      | Return => ret (Some (RetrievedHandle (dr_bouncedWorkflowID result)))
      | Raise => throw (DBOSQueueDuplicatedError (default "" pinnedWorkflowID) (debounce_queue c)
                          (debounce_dedup_id c))
      | Retry =>
          others (dr_next r) ;*
          debouncer_loop reg c args co pinnedWorkflowID rounds'
      | Enqueue =>
          others (dr_between r) ;*
          try_catch
            (startWorkflow Static reg args (debounced_start c pinnedWorkflowID r) co
               [RoundOf (dr_start r) (fun s => s) (fun s => s)])
            (fun e =>
               if negb (isQueueDeduplicatedError e) then throw e
               else
                 others (dr_next r) ;*
                 debouncer_loop reg c args co pinnedWorkflowID rounds')
      end
  end.

(** [Debouncer.debounce] *)
Definition debouncer_debounce (c : DebounceCall) (args : Args) (co : CallerOptions) (rounds : list DebouncerRound)
    : AX (option WorkflowHandle) :=
  if dc_debouncePeriodMs c <=? 0
  then throw (JsError ("debouncePeriodMs must be positive, not " +:+ pretty (dc_debouncePeriodMs c)))
  else
    in_ctx (ensureDBOSIsLaunched P "debounce") ;*
    match rejectConflictingOptions (dc_params c) with
    | Some e => throw e
    | None =>
        let* pinnedWorkflowID := in_ctx (getNextWFID (dc_workflowID c)) in
        match registry (dc_workflowClassName c) (dc_workflowName c) with
        | inl e => throw e
        | inr None => throw (DBOSError ("Invalid workflow name provided to debouncer: " +:+ dc_workflowName c))
        | inr (Some reg) =>
            let serializationType := rg_workflowConfig reg ≫= wc_serialization in
            debouncer_loop reg (debounced_call c args serializationType) args co pinnedWorkflowID rounds
        end
    end.

(** * Lemmas: the context *)

(** The context of the caller when its next function ID is [n] *)
Definition at_id (ctx : DBOSLocalCtx) (n : Z) : DBOSLocalCtx := ctx <| cx_curWFFunctionId := Some n |>.

Lemma at_id_at_id ctx n m : at_id (at_id ctx n) m = at_id ctx m.
Proof. done. Qed.

Lemma increment_at_id ctx n :
  isInWorkflow ctx = true -> functionIDGetIncrement (at_id ctx n) = (Ok n, at_id ctx (n + 1)).
Proof. intros H. exact (increment_ctx (at_id ctx n) H). Qed.

(** A step of the library, in the body of a workflow *)
Lemma transactional_call ctx n rd m name :
  isInWorkflow ctx = true ->
  runTransactionalInternalStep P rd m name (at_id ctx n)
  = (Ok (transactional_step P (world_of rd m) name (default "" (cx_workflowId ctx)) n), at_id ctx (n + 1)).
Proof.
  intros H. assert (H' := H). unfold isInWorkflow in H'. apply andb_true_iff in H' as [H' Hs].
  apply andb_true_iff in H' as [Hw _]. apply negb_true_iff in Hs.
  unfold runTransactionalInternalStep, runInternalStep_mode, bind at 1.
  change (isWithinWorkflowCtx (at_id ctx n)) with (isWithinWorkflowCtx ctx).
  change (isInStep (at_id ctx n)) with (isInStep ctx).
  change (isInWorkflow (at_id ctx n)) with (isInWorkflow ctx).
  rewrite Hw, Hs, H. unfold bind at 1. by rewrite increment_at_id.
Qed.

(** An ID that was drawn once is given again without drawing. *)
Definition pinned (p : option string) (ctx : DBOSLocalCtx) : Prop := forall n,
  getNextWFID p (at_id ctx n) = (Ok p, at_id ctx n).

Lemma getNextWFID_pinned a ctx :
  exists p, getNextWFID a ctx = (Ok p, (getNextWFID a ctx).2) /\ pinned p (getNextWFID a ctx).2.
Proof.
  unfold getNextWFID, pinned. destruct (truthy_str a) as [x|] eqn:Ea.
  - exists (Some x). split; [done|]. intros n. unfold getNextWFID.
    assert (truthy_str (Some x) = Some x) as -> by (by destruct a as [[]|]; simplify_eq/=). done.
  - destruct (truthy_str (cx_idAssignedForNextWorkflow ctx)) as [y|] eqn:Ey.
    + exists (Some y). split; [done|]. intros n. unfold getNextWFID.
      assert (truthy_str (Some y) = Some y) as ->
        by (by destruct (cx_idAssignedForNextWorkflow ctx) as [[]|]; simplify_eq/=). done.
    + exists a. split; [done|]. cbn [snd]. intros n. unfold getNextWFID. rewrite Ea.
      change (cx_idAssignedForNextWorkflow (at_id ctx n)) with (cx_idAssignedForNextWorkflow ctx). by rewrite Ey.
Qed.

Lemma drawn_in_workflow a ctx : isInWorkflow (getNextWFID a ctx).2 = isInWorkflow ctx
  /\ cx_workflowId (getNextWFID a ctx).2 = cx_workflowId ctx
  /\ cx_curWFFunctionId (getNextWFID a ctx).2 = cx_curWFFunctionId ctx.
Proof.
  unfold getNextWFID. destruct (truthy_str a); [done|]. by destruct (truthy_str (cx_idAssignedForNextWorkflow ctx)).
Qed.

(** The checks of a debounced start depend on the configuration only. *)
Lemma prepare_debounced ctx parent n p c r co :
  isInWorkflow ctx = true -> cx_workflowId ctx = Some parent -> pinned p ctx ->
  let sp := debounced_start c p r in
  prepare_start Static sp None co (at_id ctx n)
  = match validateWorkflowAttributes (sp_attributes (dc_params c)) with
    | Some e => (Throw e, at_id ctx n)
    | None =>
        match options_error queues (Some (debounce_queue c)) sp with
        | Some e => (Throw e, at_id ctx (n + 1))
        | None => (Ok (start_params Static sp co p (Some (parent, n)), Some (parent, n)), at_id ctx (n + 1))
        end
    end.
Proof.
  intros Hin Hp Hpin sp. unfold Start.prepare_start. change (st_attributes sp) with (sp_attributes (dc_params c)).
  destruct (validateWorkflowAttributes _); [done|]. unfold bind at 1.
  change (st_workflowID sp) with p. rewrite (Hpin n). unfold bind at 1, get.
  change (isInWorkflow (at_id ctx n)) with (isInWorkflow ctx). rewrite Hin, andb_false_r. unfold bind at 1.
  change (cx_workflowId (at_id ctx n)) with (cx_workflowId ctx). rewrite Hp. unfold bind at 1.
  rewrite increment_at_id by done. cbn [fst snd ret].
  change (start_queue sp co) with (Some (debounce_queue c)). by destruct (options_error _ _ _).
Qed.

Lemma options_debounced c p r1 r2 :
  options_error queues (Some (debounce_queue c)) (debounced_start c p r1)
  = options_error queues (Some (debounce_queue c)) (debounced_start c p r2).
Proof. done. Qed.

(** * Lemmas: starts *)

Definition duplicated (e : dbos_error) : Prop := exists a b c, e = DBOSQueueDuplicatedError a b c.

(** The statements of a start throw no other error that counts as one of deduplication. *)
Lemma init_duplicated now nowMs s xid rec deq mx d e d' :
  initWorkflowStatus now nowMs s xid rec deq mx d = (Throw e, d') ->
  isQueueDeduplicatedError e = true -> duplicated e.
Proof.
  unfold initWorkflowStatus. intros H He.
  destruct (insertWorkflowStatus _ _ _ _ d) as [[[rr s']|e1] d1] eqn:E.
  2:{ apply insertWorkflowStatus_throw in E as [_ ->]. injection H as <- _. by do 3 eexists. }
  assert (forall id st u w d0 e0 d2, updateWorkflowStatus nowMs id st u w false d0 = (Throw e0, d2) ->
    isQueueDeduplicatedError e0 = false) as Hu.
  { intros id st u w d0 e0 d2. unfold updateWorkflowStatus, bind, update_workflow_status.
    destruct (dedup_uniqueb _); [done|]. by intros [= <- _]. }
  repeat (case_match; simplify_eq/=; try done).
  all: match goal with
       | H : updateWorkflowStatus _ _ _ _ _ _ _ = (Throw ?e0, _), H' : isQueueDeduplicatedError ?e0 = true |- _ =>
           apply Hu in H; congruence
       end.
Qed.

Lemma truthy_id f : f <> 0 -> truthy_num (Some f) = Some f.
Proof. intros H. unfold truthy_num. by destruct f. Qed.

(** The checkpoint of a start that met a holder of its deduplication ID *)
Definition duplicate_recorded (c : string) (f : Z) (d : sysdb) : Prop := exists r e,
  operation_outputs d !! (c, f) = Some r /\ oo_error r = Some (serializeError e) /\ duplicated e.

(** What a start by the workflow [c] at a free function ID leaves: its checkpoint names the child
    or holds the error of deduplication, and no other checkpoint changes. *)
Definition start_left (c : string) (f : Z) (st : exec_state) (o : outcome dbos_error WorkflowHandle) (st' : exec_state)
    : Prop :=
  db_ok st'.1 /\ (forall f', f' <> f -> same_checkpoint c f' st.1 st'.1)
  /\ match o with
     | Ok h => exists id, handle_id h = Some id /\ child_recorded c f id st'.1
     | Throw e => isQueueDeduplicatedError e = true -> duplicate_recorded c f st'.1
     end.

Lemma record_child_left c f name id rd st d :
  db_ok d -> operation_outputs d = operation_outputs st.1 -> operation_outputs st.1 !! (c, f) = None ->
  match record_child executorID (Some c) (Some f) name id rd (d, st.2) with
  | (Ok _, st') => db_ok st'.1 /\ (forall f', f' <> f -> same_checkpoint c f' st.1 st'.1) /\ child_recorded c f id st'.1
  | (Throw e, st') => e = foreign_key_violation /\ db_ok st'.1 /\ forall f', same_checkpoint c f' st.1 st'.1
  end.
Proof.
  intros Hd Ho Hn. unfold record_child. rewrite on_sys_run. cbn [fst snd].
  assert (forall f', same_checkpoint c f' st.1 d) as Hs by (intros f'; unfold same_checkpoint; by rewrite Ho).
  destruct (record_cases executorID c f name true (rd_start rd) (rd_end rd)
    (no_options <| op_childWorkflowID := Some id |>) d Hd (eq_trans (f_equal (lookup (c, f)) Ho) Hn))
    as [(d' & -> & Hr & Hd' & Hk)| ->]; cbn [fst snd].
  - split; [done|]. split; [|eexists; split; [exact Hr|by split]].
    intros f' Hf. exact (eq_trans (Hs f') (Hk f' Hf)).
  - split; [done|]. split; [done|]. exact Hs.
Qed.

Lemma internalWorkflow_left wf params c f args ctx rd st o st' :
  db_ok st.1 -> operation_outputs st.1 !! (c, f) = None -> iw_returnExisting params = false ->
  c <> "" -> f <> 0 ->
  internalWorkflow serializeArgs serializeError deserializeResError serializerName executorID (ap_appVersion P) appID
    wf params (Some c) (Some f) args ctx rd st = (o, st') ->
  start_left c f st o st'.
Proof.
  intros Hd Hn Hpol Hc Hf Hrun. unfold start_left.
  assert (forall e, isQueueDeduplicatedError e = false -> (Throw e, st) = (o, st') -> start_left c f st o st') as Hthrow.
  { intros e He [= <- <-]. split; [done|]. split; [done|]. intros H. congruence. }
  unfold Executor.internalWorkflow in Hrun. destruct (wf_config wf params) as [config|]; [|by apply Hthrow in Hrun].
  unfold bind at 1 in Hrun. rewrite child_checkpoint_fresh in Hrun by done.
  destruct (is_cancelled c st.1); [by apply Hthrow in Hrun|].
  unfold bind at 1, try_catch in Hrun. rewrite on_sys_run in Hrun.
  destruct (initWorkflowStatus _ _ _ _ _ _ _ st.1) as [[ires|e] d1] eqn:Hinit; cbn [fst snd] in Hrun;
    destruct (init_keeps _ _ _ _ _ _ _ _ _ _ Hd Hinit) as [Hd1 Ho].
  - unfold bind at 1 in Hrun.
    pose proof (record_child_left c f (i_workflowName (internal_status serializeArgs executorID (ap_appVersion P) appID
      wf params (Some c) args ctx rd)) (i_workflowUUID (internal_status serializeArgs executorID (ap_appVersion P) appID
      wf params (Some c) args ctx rd)) rd st d1 Hd1 Ho Hn) as Hr.
    destruct (record_child _ _ _ _ _ _ (d1, st.2)) as [[[]|e] st2].
    + destruct Hr as (H1 & H2 & H3).
      destruct (_ && _ && _); injection Hrun as <- <-; (split; [done|]; split; [done|]); by eexists.
    + destruct Hr as (-> & H1 & H2). injection Hrun as <- <-. split; [done|]. split; [by intros f' _|done].
  - assert (truthy_str (Some c) = Some c) as Ht by by destruct c.
    assert (forall f', same_checkpoint c f' st.1 d1) as Hs by (intros f'; unfold same_checkpoint; by rewrite Ho).
    destruct (isQueueDeduplicatedError e) eqn:Ee.
    + destruct (init_duplicated _ _ _ _ _ _ _ _ _ _ Hinit Ee) as (a & b & k & ->).
      unfold record_dedup_error in Hrun. rewrite Ht, (truthy_id f Hf), Hpol in Hrun.
      unfold bind in Hrun. rewrite on_sys_run in Hrun. cbn [fst snd] in Hrun.
      destruct (record_cases executorID c f (i_workflowName (internal_status serializeArgs executorID (ap_appVersion P)
        appID wf params (Some c) args ctx rd)) true (rd_start rd) (rd_end rd)
        (no_options <| op_error := Some (serializeError (DBOSQueueDuplicatedError a b k)) |>
                    <| op_serialization := Some serializerName |>) d1 Hd1 (eq_trans (f_equal (lookup (c, f)) Ho) Hn))
        as [(d' & E & Hr & Hd' & Hk)|E]; rewrite E in Hrun; injection Hrun as <- <-; cbn [fst snd].
      * split; [done|]. split; [|intros _; eexists _, _; split; [exact Hr|]; split; [done|by do 3 eexists]].
        intros f' Hf'. exact (eq_trans (Hs f') (Hk f' Hf')).
      * split; [done|]. split; [by intros f' _|done].
    + assert (record_dedup_error serializeError serializerName executorID (Some c) (Some f)
                (iw_returnExisting params)
                (i_workflowName (internal_status serializeArgs executorID (ap_appVersion P) appID wf params (Some c) args ctx rd))
                rd e = ret tt) as Hno by by destruct e.
      rewrite Hno in Hrun. injection Hrun as <- <-. split; [done|]. split; [by intros f' _|]. congruence.
Qed.

Lemma invokeRegOp_left reg params c f args ctx rd st o st' :
  db_ok st.1 -> operation_outputs st.1 !! (c, f) = None -> iw_returnExisting params = false ->
  c <> "" -> f <> 0 ->
  invokeRegOp reg params (Some c) (Some f) args ctx rd st = (o, st') -> start_left c f st o st'.
Proof.
  intros Hd Hn Hp Hc Hf. unfold Start.invokeRegOp. repeat case_bool_decide.
  - by apply internalWorkflow_left.
  - by apply internalWorkflow_left.
  - intros [= <- <-]. split; [done|]. by split.
Qed.

(** * Lemmas: replays *)

Context (nonempty : forall e, serializeError e <> "")
        (revived_duplicated : forall e ser, duplicated e ->
           isQueueDeduplicatedError (deserializeResError (serializeError e) ser) = true).

Lemma invokeRegOp_replay_duplicate reg params c f args ctx rd st :
  Start.registered reg -> iw_tempWfType params = None -> rg_name reg <> tempWorkflowName ->
  is_cancelled c st.1 = false -> duplicate_recorded c f st.1 ->
  exists e, invokeRegOp reg params (Some c) (Some f) args ctx rd st = (Throw e, st)
            /\ isQueueDeduplicatedError e = true.
Proof.
  intros Hreg Ht Hname Hc (r & e & Hr & He & Hdup).
  exists (deserializeResError (serializeError e) (oo_serialization r)). split; [|by apply revived_duplicated].
  assert (child_checkpoint deserializeResError (Some c) (Some f) st
          = (Throw (deserializeResError (serializeError e) (oo_serialization r)), st)) as Hchk.
  { unfold child_checkpoint, bind. rewrite on_sys_run, getOperationResult_run, Hc, Hr. simpl. rewrite He.
    pose proof (nonempty e) as Hne. unfold truthy_str. destruct (serializeError e); [done|]. by destruct st. }
  unfold Start.invokeRegOp. repeat case_bool_decide.
  - unfold Executor.internalWorkflow, wf_config, isTempWorkflow. rewrite Ht.
    rewrite bool_decide_false by done. rewrite bool_decide_false by (by intros []).
    destruct (rg_workflowConfig reg); [|by destruct H as []].
    unfold bind at 1. cbn [orb]. by rewrite Hchk.
  - unfold Executor.internalWorkflow, wf_config, isTempWorkflow.
    rewrite bool_decide_true by done. unfold bind at 1. cbn [orb]. by rewrite Hchk.
  - by destruct Hreg.
Qed.

Lemma quiet_bounce id now p :
  quiet id (let* result := debounceDelayedWorkflow now p in ret (write_result result)).
Proof.
  apply quiet_bind; [|intros a; apply quiet_ret]. split; [apply preserves_debounceDelayedWorkflow|].
  unfold debounceDelayedWorkflow. apply fixes_bind; [apply fixes_update|].
  intros [|x l]; [|apply fixes_ret]. apply fixes_bind; [by intros d|].
  intros d. destruct (select_where _ _) as [|[]]; apply fixes_ret.
Qed.

(** The same debounce, up to its inputs *)
Definition same_call (c c' : DebounceCall) : Prop :=
  c' = c <| dc_input := dc_input c' |> <| dc_serialization := dc_serialization c' |>.

(** Rounds in which others keep the database well formed and the caller's checkpoints, and rounds
    in which they do nothing *)
Definition benign_round (c : string) (r : DebouncerRound) : Prop :=
  keeps c (dr_between r) /\ keeps c (dr_next r).
Definition quiet_round (r : DebouncerRound) : Prop := forall d, dr_between r d = d /\ dr_next r d = d.

Section replay.
Context (reg : Registration) (parent : string) (ctx : DBOSLocalCtx) (p : option string).
Context (in_workflow : isInWorkflow ctx = true) (workflow : cx_workflowId ctx = Some parent)
        (drawn : pinned p ctx) (not_empty : parent <> "")
        (is_registered : Start.registered reg) (not_temp : rg_name reg <> tempWorkflowName).

(** A bounce at a free function ID leaves its result in the checkpoint; the later ones give it again. *)
Lemma bounce_recorded c r n (st : exec_state) o s1 :
  db_ok st.1 -> operation_outputs st.1 !! (parent, n) = None ->
  (let* step := in_ctx (bounce_step c r) in in_exec (on_sys step)) (at_id ctx n, st) = (Ok o, s1) ->
  exists d1, s1 = (at_id ctx (n + 1), (d1, st.2)) /\ db_ok d1
    /\ (forall f, f <> n -> same_checkpoint parent f st.1 d1)
    /\ forall c' r' (st2 : exec_state), is_cancelled parent st2.1 = false -> same_checkpoint parent n d1 st2.1 ->
         (let* step := in_ctx (bounce_step c' r') in in_exec (on_sys step)) (at_id ctx n, st2)
         = (Ok o, (at_id ctx (n + 1), st2)).
Proof.
  intros Hd Hn. unfold bind, in_ctx, in_exec, bounce_step. cbn [fst snd].
  rewrite (transactional_call _ _ _ _ _ in_workflow), workflow. cbn [fst snd]. rewrite on_sys_run.
  pose proof (transactional_records P "DBOS.debounceDelayedWorkflow" parent n _ st.1 Hd
    (world_benign (dr_call r) parent _ (quiet_bounce parent (ar_now (dr_call r)) (bounce_params (dr_delayNow r) c))) Hn)
    as (H1 & H2 & H3).
  change (default "" (Some parent)) with parent.
  destruct (transactional_step _ _ _ parent n st.1) as [[v|e] d1]; cbn [fst snd] in *; [|done].
  intros [= <- <-]. exists d1. split; [done|]. split; [done|]. split; [done|].
  intros c' r' st2 Hc Hs. unfold same_checkpoint in Hs.
  destruct (operation_outputs d1 !! (parent, n)) as [row|]; [|by destruct H3].
  rewrite (transactional_call _ _ _ _ _ in_workflow), workflow. cbn [fst snd]. rewrite on_sys_run.
  change (default "" (Some parent)) with parent.
  rewrite (transactional_replays P _ _ _ _ _ _ Hc (eq_sym Hs)). cbn [agrees] in H3. rewrite H3. by destruct st2.
Qed.

Lemma validate_not_duplicated a e :
  validateWorkflowAttributes a = Some e -> isQueueDeduplicatedError e = false.
Proof. unfold validateWorkflowAttributes. intros H. by repeat case_match; simplify_eq/=. Qed.

Lemma options_not_duplicated q sp e : options_error queues q sp = Some e -> isQueueDeduplicatedError e = false.
Proof. unfold options_error, enqueue_error. intros H. by repeat case_match; simplify_eq/=. Qed.

(** A start of the fresh workflow fails its checks, or goes to the executor as a child of the
    caller. *)
Lemma start_cases c r n args co (st : exec_state) :
  let sp := debounced_start c p r in
  let start := startWorkflow Static reg args sp co [RoundOf (dr_start r) (fun s => s) (fun s => s)] (at_id ctx n, st) in
  let refused := validateWorkflowAttributes (sp_attributes (dc_params c)) <> None
                 \/ options_error queues (Some (debounce_queue c)) sp <> None in
  (exists e, start = (Throw e, start.2) /\ isQueueDeduplicatedError e = false /\ refused)
  \/ exists params, iw_returnExisting params = false /\ iw_tempWfType params = None
     /\ validateWorkflowAttributes (sp_attributes (dc_params c)) = None
     /\ options_error queues (Some (debounce_queue c)) sp = None
     /\ start = (let (o, st') := invokeRegOp reg params (Some parent) (Some n) args (co_context co) (dr_start r) st in
                 (match o with Ok h => Ok (Some h) | Throw e => Throw e end, (at_id ctx (n + 1), st'))).
Proof.
  cbv zeta. unfold Start.startWorkflow. change (st_returnExisting _) with false. cbv beta iota.
  unfold Start.invokeWorkflow, bind, in_ctx. cbn [fst snd ro_readings].
  rewrite (prepare_debounced ctx parent n p c r co in_workflow workflow drawn).
  destruct (validateWorkflowAttributes (sp_attributes (dc_params c))) as [e|] eqn:Ev.
  { left. exists e. split; [done|]. split; [by eapply validate_not_duplicated|by left]. }
  destruct (options_error queues (Some (debounce_queue c)) (debounced_start c p r)) as [e|] eqn:Eo.
  { left. exists e. split; [done|]. split; [by eapply options_not_duplicated|by right]. }
  right. exists (start_params Static (debounced_start c p r) co p (Some (parent, n))).
  do 4 (split; [done|]). unfold in_exec. cbn [fst snd fmap option_fmap option_map].
  by destruct (invokeRegOp _ _ _ _ _ _ _ st) as [[h|e] st'].
Qed.

(** A start of the fresh workflow at a free function ID: its child or the error of deduplication is
    in the checkpoint, and the later ones end the same way. *)
Lemma start_recorded c r n args co (st : exec_state) o s1 :
  db_ok st.1 -> operation_outputs st.1 !! (parent, n) = None -> n <> 0 ->
  startWorkflow Static reg args (debounced_start c p r) co [RoundOf (dr_start r) (fun s => s) (fun s => s)]
    (at_id ctx n, st) = (o, s1) ->
  match o with
  | Ok None => False
  | Throw e => isQueueDeduplicatedError e = true
  | Ok (Some _) => True
  end ->
  exists st1, s1 = (at_id ctx (n + 1), st1) /\ db_ok st1.1
    /\ (forall f, f <> n -> same_checkpoint parent f st.1 st1.1)
    /\ exists res : option string,
         match o with Ok (Some h) => handle_id h = res /\ is_Some res | _ => res = None end
      /\ forall c' r' args' co' (st2 : exec_state), same_call c c' -> is_cancelled parent st2.1 = false ->
         same_checkpoint parent n st1.1 st2.1 ->
         exists o', startWorkflow Static reg args' (debounced_start c' p r') co'
                      [RoundOf (dr_start r') (fun s => s) (fun s => s)] (at_id ctx n, st2)
                    = (o', (at_id ctx (n + 1), st2))
         /\ match res with
            | Some id => o' = Ok (Some (RetrievedHandle (Some id)))
            | None => exists e', o' = Throw e' /\ isQueueDeduplicatedError e' = true
            end.
Proof.
  intros Hd Hn Hne Hrun Ho.
  pose proof (start_cases c r n args co st) as Hcases. cbv zeta in Hcases.
  destruct Hcases as [(e & E & He & _)|(params & Hpol & Htw & Hv & Hopt & E)];
    rewrite E in Hrun; [injection Hrun as <- <-; congruence|].
  destruct (invokeRegOp reg params (Some parent) (Some n) args (co_context co) (dr_start r) st) as [o1 st1] eqn:Er.
  cbn [fst snd] in Hrun. injection Hrun as <- <-.
  destruct (invokeRegOp_left _ _ _ _ _ _ _ _ _ _ Hd Hn Hpol not_empty Hne Er) as (H1 & H2 & H3).
  exists st1. split; [done|]. split; [done|]. split; [done|].
  exists (match o1 with Ok h => handle_id h | Throw _ => None end). split.
  { destruct o1 as [h|e]; [|done]. by destruct H3 as (id & -> & _). }
  intros c' r' args' co' st2 Hsame Hc Hs.
  pose proof (start_cases c' r' n args' co' st2) as Hcases. cbv zeta in Hcases.
  destruct Hcases as [(e & _ & _ & Hbad)|(params' & Hpol' & Htw' & _ & _ & E')].
  { exfalso. rewrite Hsame in Hbad. destruct Hbad as [Hbad|Hbad]; [exact (Hbad Hv)|exact (Hbad Hopt)]. }
  rewrite E'. unfold same_checkpoint in Hs. destruct o1 as [h|e]; cbn [fst snd].
  - destruct H3 as (id & Hid & row & Hr & Hrow). rewrite Hs in Hr.
    rewrite (invokeRegOp_replay _ _ _ _ _ _ _ reg params' parent n args' _ _ st2 id is_registered Htw' not_temp Hc
      (ex_intro _ row (conj Hr Hrow))).
    eexists. split; [done|]. by rewrite Hid.
  - destruct (H3 Ho) as (row & e0 & Hr & Hrow). rewrite Hs in Hr.
    destruct (invokeRegOp_replay_duplicate reg params' parent n args' (co_context co') (dr_start r') st2 is_registered
      Htw' not_temp Hc) as (e' & -> & He'); [by exists row, e0|].
    eexists. split; [done|]. by exists e'.
Qed.

(** The bounce, and what the loop makes of its result *)
Lemma debouncer_loop_step c args co r rounds s :
  debouncer_loop reg c args co p (r :: rounds) s
  = (let* stored := (let* step := in_ctx (bounce_step c r) in in_exec (on_sys step)) in
     let result := read_result stored in
     match classifyBounce result (dc_workflowName c) (dc_workflowClassName c) with
     | Return => ret (Some (RetrievedHandle (dr_bouncedWorkflowID result)))
     | Raise => throw (DBOSQueueDuplicatedError (default "" p) (debounce_queue c) (debounce_dedup_id c))
     | Retry => others (dr_next r) ;* debouncer_loop reg c args co p rounds
     | Enqueue =>
         others (dr_between r) ;*
         try_catch
           (startWorkflow Static reg args (debounced_start c p r) co
              [RoundOf (dr_start r) (fun s => s) (fun s => s)])
           (fun e => if negb (isQueueDeduplicatedError e) then throw e
                     else others (dr_next r) ;* debouncer_loop reg c args co p rounds)
     end) s.
Proof.
  cbn [debouncer_loop]. unfold bind. by destruct (in_ctx (bounce_step c r) s) as [[step|e] s1].
Qed.

Lemma others_quiet r (s : DBOSLocalCtx * exec_state) :
  quiet_round r -> others (dr_between r) s = (Ok tt, s) /\ others (dr_next r) s = (Ok tt, s).
Proof. intros Hq. destruct s as [x [d m]]. unfold others. cbn [fst snd]. destruct (Hq d) as [H1 H2]. by rewrite H1, H2. Qed.

(** No checkpoint at [n] or later *)
Definition free_from (n : Z) (d : sysdb) : Prop := forall f, n <= f -> operation_outputs d !! (parent, f) = None.

Lemma free_next n f d d' :
  free_from n d -> f < n + 1 -> (forall f', f' <> f -> same_checkpoint parent f' d d') -> free_from (n + 1) d'.
Proof. intros Hf Hlt Hs f' Hf'. rewrite <- (Hs f') by lia. apply Hf. lia. Qed.

Lemma keeps_free n w d : db_ok d -> keeps parent w -> free_from n d -> free_from n (w d).
Proof. intros Hd Hw Hf f Hle. destruct (Hw d Hd) as [_ Hs]. rewrite <- (Hs f). by apply Hf. Qed.

(** What a loop that returned leaves *)
Definition loop_stable (c : DebounceCall) (rounds : list DebouncerRound) (n : Z) (d : sysdb) (h : WorkflowHandle)
    (s' : DBOSLocalCtx * exec_state) : Prop :=
  exists id m, handle_id h = Some id /\ n < m /\ s'.1 = at_id ctx m
  /\ (forall f, f < n -> same_checkpoint parent f d s'.2.1)
  /\ forall c' args' co' rounds' (st2 : exec_state), same_call c c' ->
       (length rounds <= length rounds')%nat -> Forall quiet_round rounds' ->
       is_cancelled parent st2.1 = false -> (forall f, same_checkpoint parent f s'.2.1 st2.1) ->
       debouncer_loop reg c' args' co' p rounds' (at_id ctx n, st2)
       = (Ok (Some (RetrievedHandle (Some id))), (at_id ctx m, st2)).

(** A round whose bounce is recorded goes on as the recorded result says. *)
Lemma loop_replays c stored n d1 :
  (forall c' r' (st2 : exec_state), is_cancelled parent st2.1 = false -> same_checkpoint parent n d1 st2.1 ->
     (let* step := in_ctx (bounce_step c' r') in in_exec (on_sys step)) (at_id ctx n, st2)
     = (Ok stored, (at_id ctx (n + 1), st2))) ->
  let result := read_result stored in
  forall c' args' co' r' rounds' (st2 : exec_state), same_call c c' -> quiet_round r' ->
    is_cancelled parent st2.1 = false -> same_checkpoint parent n d1 st2.1 ->
    debouncer_loop reg c' args' co' p (r' :: rounds') (at_id ctx n, st2)
    = match classifyBounce result (dc_workflowName c) (dc_workflowClassName c) with
      | Return => (Ok (Some (RetrievedHandle (dr_bouncedWorkflowID result))), (at_id ctx (n + 1), st2))
      | Raise => (Throw (DBOSQueueDuplicatedError (default "" p) (debounce_queue c) (debounce_dedup_id c)),
                  (at_id ctx (n + 1), st2))
      | Retry => debouncer_loop reg c' args' co' p rounds' (at_id ctx (n + 1), st2)
      | Enqueue =>
          try_catch
            (startWorkflow Static reg args' (debounced_start c' p r') co'
               [RoundOf (dr_start r') (fun s => s) (fun s => s)])
            (fun e => if negb (isQueueDeduplicatedError e) then throw e
                      else others (dr_next r') ;* debouncer_loop reg c' args' co' p rounds') (at_id ctx (n + 1), st2)
      end.
Proof.
  intros Hrep1 result c' args' co' r' rounds' st2 Hsame Hq Hc Hs. rewrite debouncer_loop_step. unfold bind at 1.
  rewrite (Hrep1 c' r' st2 Hc Hs). cbv zeta. fold result. rewrite Hsame.
  change (dc_workflowName (c <| dc_input := ?a |> <| dc_serialization := ?b |>)) with (dc_workflowName c).
  change (dc_workflowClassName (c <| dc_input := ?a |> <| dc_serialization := ?b |>)) with (dc_workflowClassName c).
  destruct (classifyBounce _ _ _); try done.
  - unfold bind at 1. by rewrite (proj1 (others_quiet r' _ Hq)).
  - unfold bind at 1. by rewrite (proj2 (others_quiet r' _ Hq)).
Qed.

Lemma debouncer_loop_stable c args co rounds : forall n (st : exec_state) h s',
  0 <= n -> db_ok st.1 -> free_from n st.1 -> Forall (benign_round parent) rounds ->
  debouncer_loop reg c args co p rounds (at_id ctx n, st) = (Ok (Some h), s') ->
  loop_stable c rounds n st.1 h s'.
Proof.
  induction rounds as [|r rounds IH]; intros n st h s' Hn Hd Hfree Hben; [done|].
  apply Forall_cons in Hben as [[Hbetween Hnext] Hben]. rewrite debouncer_loop_step. unfold bind at 1.
  destruct ((let* step := _ in _) (at_id ctx n, st)) as [[stored|e] s1] eqn:Eb; [|done].
  destruct (bounce_recorded _ _ _ _ _ _ Hd (Hfree n ltac:(lia)) Eb) as (d1 & -> & Hd1 & Hs1 & Hrep1).
  cbv zeta. set (result := read_result stored).
  assert (free_from (n + 1) d1) as Hfree1 by (apply (free_next n n st.1); [done|lia|done]).
  assert (Hrep := loop_replays c stored n d1 Hrep1). cbv zeta in Hrep. fold result in Hrep.
  destruct (classifyBounce result (dc_workflowName c) (dc_workflowClassName c)) eqn:Ec; [| |done|].
  - intros [= <- <-]. destruct (classify_return _ _ _ Ec) as [id Hid]. exists id, (n + 1). rewrite Hid.
    split; [done|]. split; [lia|]. split; [done|]. split; [intros f Hf; apply Hs1; lia|].
    intros c' args' co' rounds' st2 Hsame Hlen Hq Hc Hs. destruct rounds' as [|r' rounds']; [simpl in Hlen; lia|].
    apply Forall_cons in Hq as [Hq _]. rewrite (Hrep c' args' co' r' rounds' st2 Hsame Hq Hc (Hs n)). by rewrite Hid.
  - unfold bind at 1, others at 1. cbn [fst snd]. destruct (Hbetween d1 Hd1) as [Hd2 Hs2].
    assert (Hfree2 := keeps_free (n + 1) _ d1 Hd1 Hbetween Hfree1). set (st2 := (dr_between r d1, st.2)).
    unfold try_catch. destruct (startWorkflow _ _ _ _ _ _ (at_id ctx (n + 1), st2)) as [o s2] eqn:Es. intros Hrun.
    assert (match o with Ok None => False | Throw e => isQueueDeduplicatedError e = true | Ok (Some _) => True end) as Ho.
    { destruct o as [[h0|]|e]; [done|done|]. by destruct (isQueueDeduplicatedError e). }
    destruct (start_recorded _ _ _ _ _ st2 _ _ Hd2 (Hfree2 (n + 1) ltac:(lia)) ltac:(lia) Es Ho)
      as (st3 & -> & Hd3 & Hs3 & res & Hres & Hrep3).
    assert (forall f, f < n + 1 -> same_checkpoint parent f d1 st3.1) as Hs13.
    { intros f Hf. unfold same_checkpoint. rewrite (Hs2 f). apply Hs3. lia. }
    destruct o as [[h0|]|e]; [|done|].
    + injection Hrun as <- <-. destruct Hres as [Hid [id ->]]. exists id, (n + 1 + 1).
      split; [done|]. split; [lia|]. split; [done|]. split.
      { intros f Hf. unfold same_checkpoint. rewrite (Hs1 f) by lia. apply Hs13. lia. }
      intros c' args' co' rounds' st4 Hsame Hlen Hq Hc Hs. destruct rounds' as [|r' rounds']; [simpl in Hlen; lia|].
      apply Forall_cons in Hq as [Hq _].
      rewrite (Hrep c' args' co' r' rounds' st4 Hsame Hq Hc (eq_trans (Hs13 n ltac:(lia)) (Hs n))). unfold try_catch.
      destruct (Hrep3 c' r' args' co' st4 Hsame Hc (Hs (n + 1))) as (o' & -> & ->). done.
    + rewrite Ho in Hrun. cbn [negb] in Hrun. unfold bind at 1, others at 1 in Hrun. cbn [fst snd] in Hrun.
      destruct (Hnext st3.1 Hd3) as [Hd4 Hs4].
      assert (Hfree3 := free_next (n + 1) (n + 1) _ _ Hfree2 ltac:(lia) Hs3).
      destruct (IH (n + 1 + 1) (dr_next r st3.1, st3.2) h s' ltac:(lia) Hd4
        (keeps_free _ _ _ Hd3 Hnext Hfree3) Hben Hrun) as (id & m & Hid & Hlt & Hs' & Hfr & Hreplay).
      assert (forall f, f < n + 1 + 1 -> same_checkpoint parent f st3.1 s'.2.1) as Hd3'.
      { intros f Hf. unfold same_checkpoint. rewrite (Hs4 f). by apply Hfr. }
      exists id, m. split; [done|]. split; [lia|]. split; [done|]. split.
      { intros f Hf. unfold same_checkpoint. rewrite (Hs1 f), (Hs13 f) by lia. apply Hd3'. lia. }
      intros c' args' co' rounds' st4 Hsame Hlen Hq Hc Hs. destruct rounds' as [|r' rounds']; [simpl in Hlen; lia|].
      apply Forall_cons in Hq as [Hq Hqs].
      rewrite (Hrep c' args' co' r' rounds' st4 Hsame Hq Hc
        (eq_trans (Hs13 n ltac:(lia)) (eq_trans (Hd3' n ltac:(lia)) (Hs n)))). unfold try_catch.
      destruct (Hrep3 c' r' args' co' st4 Hsame Hc (eq_trans (Hd3' (n + 1) ltac:(lia)) (Hs (n + 1)))) as (o' & -> & Ho').
      rewrite Hres in Ho'. destruct Ho' as (e' & -> & He'). rewrite He'. cbn [negb].
      unfold bind at 1. rewrite (proj2 (others_quiet r' _ Hq)).
      apply Hreplay; [done|simpl in Hlen; lia|done|done|done].
  - unfold bind at 1, others at 1. cbn [fst snd]. destruct (Hnext d1 Hd1) as [Hd2 Hs2]. intros Hrun.
    destruct (IH (n + 1) (dr_next r d1, st.2) h s' ltac:(lia) Hd2 (keeps_free (n + 1) _ d1 Hd1 Hnext Hfree1) Hben Hrun)
      as (id & m & Hid & Hlt & Hs' & Hfr & Hreplay).
    assert (forall f, f < n + 1 -> same_checkpoint parent f d1 s'.2.1) as Hd1'.
    { intros f Hf. unfold same_checkpoint. rewrite (Hs2 f). by apply Hfr. }
    exists id, m. split; [done|]. split; [lia|]. split; [done|]. split.
    { intros f Hf. unfold same_checkpoint. rewrite (Hs1 f) by lia. apply Hd1'. lia. }
    intros c' args' co' rounds' st2 Hsame Hlen Hq Hc Hs. destruct rounds' as [|r' rounds']; [simpl in Hlen; lia|].
    apply Forall_cons in Hq as [Hq Hqs].
    rewrite (Hrep c' args' co' r' rounds' st2 Hsame Hq Hc (eq_trans (Hd1' n ltac:(lia)) (Hs n))).
    apply Hreplay; [done|simpl in Hlen; lia|done|done|done].
Qed.
End replay.

Lemma at_id_same ctx n : cx_curWFFunctionId ctx = Some n -> at_id ctx n = ctx.
Proof. destruct ctx. by intros [= ->]. Qed.

(** * The property *)

(** C33: A debounce in a workflow is done once.  Whatever rounds it takes and whatever others do to the
    database meanwhile, lost races for the debounce key included, a debounce that returns a
    handle leaves checkpoints with which every later execution of the call, whatever its
    arguments, clocks and options, returns a handle of the same workflow, draws the same
    function IDs and changes nothing: no workflow is bounced or started again. *)
Theorem debouncer_stable c args co rounds ctx n parent st h s' :
  isInWorkflow ctx = true -> cx_workflowId ctx = Some parent -> parent <> "" ->
  cx_curWFFunctionId ctx = Some n -> 0 <= n ->
  (forall reg, registry (dc_workflowClassName c) (dc_workflowName c) = inr (Some reg) ->
     Start.registered reg /\ rg_name reg <> tempWorkflowName) ->
  db_ok st.1 -> free_from parent n st.1 -> Forall (benign_round parent) rounds ->
  debouncer_debounce c args co rounds (ctx, st) = (Ok (Some h), s') ->
  exists id, handle_id h = Some id
  /\ forall args' co' rounds' (st2 : exec_state),
       (length rounds <= length rounds')%nat -> Forall quiet_round rounds' ->
       is_cancelled parent st2.1 = false -> (forall f, same_checkpoint parent f s'.2.1 st2.1) ->
       debouncer_debounce c args' co' rounds' (ctx, st2) = (Ok (Some (RetrievedHandle (Some id))), (s'.1, st2)).
Proof.
  intros Hin Hp Hne Hn H0 Hreg Hd Hfree Hben. unfold debouncer_debounce.
  destruct (dc_debouncePeriodMs c <=? 0); [done|]. unfold bind at 1, in_ctx at 1. cbn [fst snd].
  unfold ensureDBOSIsLaunched. destruct (ap_launched P) eqn:Hl; [|done]. cbn [ret].
  destruct (rejectConflictingOptions (dc_params c)) eqn:Ero; [done|]. unfold bind at 1, in_ctx at 1. cbn [fst snd].
  destruct (getNextWFID_pinned (dc_workflowID c) ctx) as (p & E & Hpin).
  destruct (drawn_in_workflow (dc_workflowID c) ctx) as (Hin1 & Hp1 & Hn1). rewrite E.
  set (ctx1 := (getNextWFID (dc_workflowID c) ctx).2) in *.
  destruct (registry _ _) as [e|[reg|]] eqn:Er; [done| |done]. destruct (Hreg reg eq_refl) as [Hr1 Hr2].
  rewrite <- (at_id_same ctx1 n) by congruence. intros Hrun.
  destruct (debouncer_loop_stable reg parent ctx1 p ltac:(congruence) ltac:(congruence) Hpin Hne Hr1 Hr2
    _ args co rounds n st h s' H0 Hd Hfree Hben Hrun) as (id & m & Hid & _ & Hs' & _ & Hreplay).
  exists id. split; [done|]. intros args' co' rounds' st2 Hlen Hq Hc Hs.
  unfold bind at 1, in_ctx at 1. cbn [fst snd ret].
  unfold bind at 1, in_ctx at 1. cbn [fst snd]. rewrite E. fold ctx1.
  rewrite <- (at_id_same ctx1 n) by congruence. rewrite Hs'. by apply Hreplay.
Qed.
End debouncer.

(** * A witness *)

(** Results and errors as a serializer writes and reads them *)
Definition ex_write_result (r : DebounceResult) : option string :=
  match dr_bouncedWorkflowID r with
  | Some id => Some id
  | None => if bool_decide (is_Some (dr_holderWorkflowID r)) then Some "" else None
  end.

Definition ex_read_result (o : option string) : DebounceResult :=
  match o with
  | None => DebounceResultOf None None false None None
  | Some "" => DebounceResultOf None (Some "other") false None None
  | Some id => DebounceResultOf (Some id) None false None None
  end.

Definition ex_debouncer_api : ApiPlatform :=
  {| ap_serializeError := fun e => if isQueueDeduplicatedError e then "DBOSQueueDuplicatedError" else "error";
     ap_deserializeResError := fun s _ => PortableWorkflowError s "";
     ap_write_nothing := None;
     ap_write_number := fun n => Some (stringify_Z n);
     ap_write_text := fun s => Some s;
     ap_write_statuses := fun _ => None;
     ap_write_steps := fun _ => None;
     ap_write_schedules := fun _ => None;
     ap_write_schedule := fun _ => None;
     ap_Date_parse := parse_Z;
     ap_jsonb_contains := fun _ _ => false;
     ap_name_le := String.leb;
     ap_valid_timezone := fun _ => true;
     ap_executorID := "exec-1";
     ap_appVersion := "v1";
     ap_enablePatching := true;
     ap_launched := true |}.

(** The workflow [wf-1] debounces [ship] in its call 3; in the first round another process takes the
    key between the bounce and the start, and gives it up again. *)
Definition ex_debounce_call : DebounceCall :=
  DebounceCallOf "ship" "Orders" (StartWorkflowParamsOf (Some "jobs") None NoAttributes None None None None None false)
    None "order-1" 500 None None None.

Definition ex_holder : wf_row :=
  ex_row <| ws_status := ENQUEUED |> <| ws_queue_name := Some "jobs" |>
         <| ws_deduplication_id := Some "Orders.ship-order-1" |>.

Definition ex_take (d : sysdb) : sysdb := (insert_workflow_status "wf-7" ex_holder d).2.
Definition ex_give_up (d : sysdb) : sysdb :=
  (update_workflow_status (fun id _ => bool_decide (id = "wf-7")) (fun r => r <| ws_deduplication_id := None |>) d).2.

Definition ex_debouncer_round (between next : sysdb -> sysdb) : DebouncerRound :=
  DebouncerRoundOf ex_call 60 61 ex_readings between next.

Definition ex_debounce (args : string) (rounds : list DebouncerRound) (st : exec_state)
    : outcome dbos_error (option WorkflowHandle) * (DBOSLocalCtx * exec_state) :=
  debouncer_debounce ex_debouncer_api ex_args "js_superjson" "" ∅ (fun _ _ => inr (Some ex_child)) ex_write_result ex_read_result
    ex_debounce_call args ex_caller rounds (workflow_ctx "wf-1" (Some 3), st).

Definition ex_rounds : list DebouncerRound :=
  [ex_debouncer_round ex_take ex_give_up; ex_debouncer_round (fun d => d) (fun d => d)].

Definition ex_replay_rounds : list DebouncerRound := replicate 2 (ex_debouncer_round (fun d => d) (fun d => d)).

Lemma ex_rounds_benign : Forall (benign_round "wf-1") ex_rounds.
Proof.
  assert (keeps "wf-1" (fun d => d)) as Hid by by intros d.
  assert (keeps "wf-1" ex_take) as Ht.
  { intros d Hd. split; [by apply preserves_insert_workflow_status|]. intros fid. apply fixes_insert. }
  assert (keeps "wf-1" ex_give_up) as Hg.
  { intros d Hd. split; [by apply preserves_update_workflow_status|]. intros fid. apply fixes_update. }
  apply Forall_cons. split; [by split|]. apply Forall_singleton. by split.
Qed.

Lemma debouncer_stable_witness :
  exists s', ex_debounce "[2]" ex_replay_rounds (ex_debounce "[1]" ex_rounds ex_state).2.2
    = (Ok (Some (RetrievedHandle (Some "wf-1-6"))), (s', (ex_debounce "[1]" ex_rounds ex_state).2.2)).
Proof.
  destruct (debouncer_stable ex_debouncer_api ex_args "js_superjson" "" ∅ (fun _ _ => inr (Some ex_child))
    ex_write_result ex_read_result) with (c := ex_debounce_call) (args := "[1]") (co := ex_caller) (rounds := ex_rounds)
    (ctx := workflow_ctx "wf-1" (Some 3)) (n := 3) (parent := "wf-1") (st := ex_state)
    (h := RetrievedHandle (Some "wf-1-6")) (s' := (ex_debounce "[1]" ex_rounds ex_state).2) as (id & Hid & H).
  - intros e. cbn. by destruct (isQueueDeduplicatedError e).
  - by intros e ser (a & b & k & ->).
  - reflexivity.
  - reflexivity.
  - discriminate.
  - reflexivity.
  - lia.
  - intros reg [= <-]. split; [left; by eexists|discriminate].
  - exact ex_db_ok.
  - intros f _. reflexivity.
  - exact ex_rounds_benign.
  - vm_compute. reflexivity.
  - injection Hid as <-. eexists. apply (H "[2]" ex_caller ex_replay_rounds (ex_debounce "[1]" ex_rounds ex_state).2.2).
    + reflexivity.
    + by repeat constructor.
    + vm_compute. reflexivity.
    + done.
Defined.
