(* ===== verification/Client.v ===== *)
(** [DBOSClient] (src/src/client.ts): what a program that is no executor does to the system
    database.  It enqueues workflows, alone or as singletons, and calls the operations of the
    system database without the context of a workflow.  Its waits are in Await.v
    ([client_getResult], [waitFirst] and [waitAll] outside a workflow), its debouncer is the one
    of Debounce.v. *)

From S2P Require Export Serialization.
From S2P Require Export Query Messaging Debounce Queues Api.
From S2P Require Import Scheduler Start Lifecycle.

Open Scope Z_scope.

(** * Enqueueing *)

(** [ClientEnqueueOptions]; the delay is in milliseconds, [duplicationPolicy] is whether it is
    ['return-existing']. *)
Record ClientEnqueueOptions : Type := ClientEnqueueOptionsOf {
  ce_queueName : string;
  ce_workflowName : string;
  ce_workflowClassName : option string;
  ce_workflowConfigName : option string;
  ce_workflowID : option string;
  ce_appVersion : option string;
  ce_workflowTimeoutMS : option Z;
  ce_deduplicationID : option string;
  ce_serializationType : WorkflowSerializationFormat;
  ce_priority : option Z;
  ce_queuePartitionKey : option string;
  ce_delayMS : option Z;
  ce_returnExisting : bool;
  ce_attributes : attributes
}.

#[export] Instance ClientEnqueueOptions_eta : Eta ClientEnqueueOptions := fun o =>
  ClientEnqueueOptionsOf (ce_queueName o) (ce_workflowName o) (ce_workflowClassName o)
    (ce_workflowConfigName o) (ce_workflowID o) (ce_appVersion o) (ce_workflowTimeoutMS o)
    (ce_deduplicationID o) (ce_serializationType o) (ce_priority o) (ce_queuePartitionKey o)
    (ce_delayMS o) (ce_returnExisting o) (ce_attributes o).

(** What an enqueue reads: [Date.now()], SQL's [now()] and a random UUID *)
Record EnqueueReadings : Type := EnqueueReadingsOf {
  er_now : Z;
  er_nowMs : Z;
  er_uuid : string
}.

(** [serializeArgs] of the arguments of the call, with the serializer of the client, in the
    given format *)
Definition SerializedArgs : Type := WorkflowSerializationFormat -> dbos_error + option string * option string.

(** What others do to the database around one round of the loop of [#initSingletonWorkflow]:
    before the lookup of the holder, and before the next round *)
Record SingletonRound : Type := SingletonRoundOf {
  sr_lookup : sysdb -> sysdb;
  sr_next : sysdb -> sysdb
}.

Module DBOSClient.

(** [delayUntilEpochMS] *)
Definition delay_until (rd : EnqueueReadings) (o : ClientEnqueueOptions) : option Z :=
  match ce_delayMS o with
  | Some t => if 0 <? t then Some (er_now rd + t) else None
  | None => None
  end.

(** The ID of the workflow *)
Definition workflow_id (rd : EnqueueReadings) (o : ClientEnqueueOptions) : string :=
  default (er_uuid rd) (ce_workflowID o).

(** The status that is enqueued *)
Definition enqueue_status (rd : EnqueueReadings) (o : ClientEnqueueOptions)
    (serparam : option string * option string) : WorkflowStatusInternal :=
  {| i_workflowUUID := workflow_id rd o;
     i_status := match delay_until rd o with Some _ => DELAYED | None => ENQUEUED end;
     i_workflowName := ce_workflowName o;
     i_workflowClassName := default "" (ce_workflowClassName o);
     i_workflowConfigName := default "" (ce_workflowConfigName o);
     i_queueName := Some (ce_queueName o);
     i_authenticatedUser := "";
     i_output := None;
     i_error := None;
     i_input := serparam.1;
     i_assumedRole := "";
     i_authenticatedRoles := [];
     i_request := JObj [];
     i_executorId := Some "";
     i_applicationVersion := ce_appVersion o;
     i_applicationID := "";
     i_createdAt := er_now rd;
     i_updatedAt := None;
     i_recoveryAttempts := None;
     i_timeoutMS := ce_workflowTimeoutMS o;
     i_deadlineEpochMS := None;
     i_deduplicationID := ce_deduplicationID o;
     i_priority := default 0 (ce_priority o);
     i_queuePartitionKey := ce_queuePartitionKey o;
     i_startedAtEpochMs := None;
     i_forkedFrom := None;
     i_wasForkedFrom := false;
     i_parentWorkflowID := None;
     i_serialization := serparam.2;
     i_delayUntilEpochMS := delay_until rd o;
     i_completedAt := None;
     i_attributes := attributes_json (ce_attributes o);
     i_scheduleName := None;
     i_debounceDeadlineEpochMS := None;
     i_isDebounced := false |}.

(** [#buildEnqueueStatus] *)
Definition buildEnqueueStatus (rd : EnqueueReadings) (o : ClientEnqueueOptions) (args : SerializedArgs)
    : dbos_error + WorkflowStatusInternal :=
  match validateWorkflowAttributes (ce_attributes o) with
  | Some e => inl e
  | None =>
      match args (ce_serializationType o) with
      | inl e => inl e
      | inr serparam => inr (enqueue_status rd o serparam)
      end
  end.

(** [this.systemDatabase.initWorkflowStatus(internalStatus, null)] *)
Definition init (rd : EnqueueReadings) (s : WorkflowStatusInternal) : DB unit :=
  initWorkflowStatus (er_now rd) (er_nowMs rd) s None false false None ;* ret tt.

(** The loop: [None] when it still tries after the given rounds *)
Fixpoint singleton_loop (rd : EnqueueReadings) (s : WorkflowStatusInternal) (queueName deduplicationID : string)
    (rounds : list SingletonRound) : DB (option string) :=
  match rounds with
  | [] => ret None
  | r :: rounds' =>
      try_catch (init rd s ;* ret (Some (i_workflowUUID s)))
        (fun e =>
           match e with
           | DBOSQueueDuplicatedError _ _ _ =>
               (fun d => (Ok tt, sr_lookup r d)) ;*
               let* d := get in
               match truthy_str (getDeduplicatedWorkflow queueName deduplicationID d) with
               | Some existingID => ret (Some existingID)
               | None =>
                   (fun d => (Ok tt, sr_next r d)) ;*
                   singleton_loop rd s queueName deduplicationID rounds'
               end
           | _ => throw e
           end)
  end.

(** [#initSingletonWorkflow] *)
Definition initSingletonWorkflow (rd : EnqueueReadings) (s : WorkflowStatusInternal) (o : ClientEnqueueOptions)
    (rounds : list SingletonRound) : DB (option string) :=
  match truthy_str (ce_deduplicationID o) with
  | None => throw (DBOSInvalidWorkflowTransitionError
                     (Some "`duplicationPolicy: 'return-existing'` requires `deduplicationID`"))
  | Some k => singleton_loop rd s (ce_queueName o) k rounds
  end.

(** What [enqueue] and [enqueuePortable] do with the status; a handle is the ID of its workflow. *)
Definition enqueue_as (rd : EnqueueReadings) (o : ClientEnqueueOptions) (rounds : list SingletonRound)
    (s : WorkflowStatusInternal) : DB (option string) :=
  if ce_returnExisting o then initSingletonWorkflow rd s o rounds
  else init rd s ;* ret (Some (i_workflowUUID s)).

(** [enqueue] *)
Definition enqueue (rd : EnqueueReadings) (o : ClientEnqueueOptions) (args : SerializedArgs)
    (rounds : list SingletonRound) : DB (option string) :=
  let* s := lift (buildEnqueueStatus rd o args) in enqueue_as rd o rounds s.

(** [enqueuePortable]: the default format is the portable one. *)
Definition enqueuePortable (rd : EnqueueReadings) (o : ClientEnqueueOptions) (args : SerializedArgs)
    (rounds : list SingletonRound) : DB (option string) :=
  enqueue rd
    (o <| ce_serializationType :=
            match ce_serializationType o with unspecified => portable | f => f end |>) args rounds.

(** [enqueueDebounced] *)
Definition enqueueDebounced (rd : EnqueueReadings) (o : ClientEnqueueOptions)
    (debounceDeadlineEpochMS : option Z) (args : SerializedArgs) : DB string :=
  let* s := lift (buildEnqueueStatus rd o args) in
  let s := s <| i_debounceDeadlineEpochMS := debounceDeadlineEpochMS |> <| i_isDebounced := true |>
             <| i_delayUntilEpochMS := capped_delay debounceDeadlineEpochMS <$> i_delayUntilEpochMS s |> in
  init rd s ;* ret (i_workflowUUID s).

(** * The other operations *)

(** [registerQueue]: a client has no application version. *)
Definition registerQueue (now : Z) (name : string) (policy : option DBOS.onConflict)
    (params : QueueParameters) : DB WorkflowQueue :=
  match default DBOS.always_update policy with
  | DBOS.update_if_latest_version =>
      throw (JsError ("DBOSClient.registerQueue does not support onConflict='update_if_latest_version' "
              +:+ "because clients are not associated with an application version. "
              +:+ "Use 'always_update' or 'never_update'."))
  | p =>
      match validateQueueParams params with
      | Some e => throw e
      | None =>
          let updateExisting := match p with DBOS.always_update => true | _ => false end in
          let* inserted := upsertQueue now (recordFromParams name params) updateExisting in
          let* d := get in
          match getQueue name d with
          | None => throw (JsError ("Queue '" +:+ name +:+ "' missing from database after upsert"))
          | Some persisted => ret (fromRecord persisted)
          end
      end
  end.

(** [retrieveQueue] *)
Definition retrieveQueue (name : string) : DB (option WorkflowQueue) :=
  fun d => (Ok (fromRecord <$> getQueue name d), d).

(** [deleteQueue] *)
Definition deleteQueue (name : string) : DB unit := Queues.deleteQueue name.

(** [send] *)
Definition send (rd : EnqueueReadings) (destinationID : string)
    (sermsg : dbos_error + option string * option string) (topic idempotencyKey : option string) : DB unit :=
  let* msg := lift sermsg in
  sendDirect (er_uuid rd) (er_nowMs rd) destinationID msg.1 topic msg.2 idempotencyKey.

(** [getEvent], up to reading the value back *)
Definition getEvent (now : Z) (workflowID key : string) (options : option wait_options) (pauses : list pause)
    : DB (option (option string * option string)) :=
  let timeoutMs := default 60000 (resolveTimeout now options) in
  let* _ := lift (resolvePollingIntervalMs options) in
  Messaging.getEvent "" workflowID key (Some timeoutMs) None pauses now now.

(** [readStream]: the values it yields, and whether it ends within the given iterations; an
    unknown workflow ends it quietly. *)
Definition readStream (worlds : list (sysdb -> sysdb)) (workflowID key : string) (d : sysdb)
    : list (string * option string) * bool :=
  let '(values, e, _) := Messaging.readStream worlds workflowID key 0 false d in
  (values, match e with Waiting => false | _ => true end).

(** [cancelWorkflows] and [cancelWorkflow] *)
Definition cancelWorkflows (levels : list Z) (workflowIDs : list string) (cancelChildren : bool) : DB unit :=
  Management.cancelWorkflows levels workflowIDs cancelChildren.

Definition cancelWorkflow (levels : list Z) (workflowID : string) (cancelChildren : bool) : DB unit :=
  Management.cancelWorkflows levels [workflowID] cancelChildren.

(** [resumeWorkflows] and [resumeWorkflow] *)
Definition resumeWorkflows (now : Z) (workflowIDs : list string) (queueName : option string) : DB unit :=
  Management.resumeWorkflows now workflowIDs queueName.

Definition resumeWorkflow (now : Z) (workflowID : string) (queueName : option string) : DB unit :=
  Management.resumeWorkflows now [workflowID] queueName.

(** [setWorkflowPriority], without the bounds that [DBOS.setWorkflowPriority] checks *)
Definition setWorkflowPriority (now : Z) (workflowID : string) (priority : Z) : DB unit :=
  Management.setWorkflowPriority now workflowID priority.

(** [setWorkflowDelay] *)
Definition setWorkflowDelay (now nowMs : Z) (workflowID : string) (options : delay_options) : DB unit :=
  let* delayUntilEpochMS := lift (resolveDelayEpochMS now options) in
  Management.setWorkflowDelay nowMs workflowID delayUntilEpochMS.

(** [deleteWorkflows] and [deleteWorkflow]; the map of running workflows of a client is empty. *)
Definition deleteWorkflows (workflowIDs : list string) (deleteChildren : bool) : DB unit :=
  Management.deleteWorkflows workflowIDs deleteChildren ∅ ;* ret tt.

Definition deleteWorkflow (workflowID : string) (deleteChildren : bool) : DB unit :=
  deleteWorkflows [workflowID] deleteChildren.

(** [forkWorkflow] *)
Definition forkWorkflow (now : Z) (uuid workflowID : string) (startStep : Z) (newWorkflowID : option string)
    (o : ForkOptions) : DB string :=
  let new := default uuid newWorkflowID in
  Fork.forkWorkflow now workflowID startStep new o ;* ret new.

(** Listing, and the schedules, over what the platform gives *)
Section platform.
Context (Date_parse : string -> option Z) (jsonb_contains : json -> json -> bool)
        (name_le : string -> string -> bool) (valid_timezone : string -> bool).

(** [listWorkflows], [listQueuedWorkflows] and [getWorkflow] *)
Definition listWorkflows (input : GetWorkflowsInput) (d : sysdb)
    : outcome dbos_error (list WorkflowStatusInternal) :=
  Query.listWorkflows Date_parse jsonb_contains input d.

Definition listQueuedWorkflows (input : GetWorkflowsInput) (d : sysdb)
    : outcome dbos_error (list WorkflowStatusInternal) :=
  Query.listQueuedWorkflows Date_parse jsonb_contains input d.

(** [listWorkflowSteps]: the rows of the steps, if the workflow exists *)
Definition listWorkflowSteps (workflowID : string) (lim offset : option Z) (d : sysdb)
    : option (list (Z * op_row)) :=
  match workflow_status d !! workflowID with
  | None => None
  | Some _ => Some (getAllOperationResults workflowID lim offset d)
  end.

(** The options of [createSchedule] and of an element of [applySchedules]; the context is given
    by what [serializer.stringify] makes of it. *)
Record ClientSchedule : Type := ClientScheduleOf {
  cs_scheduleName : string;
  cs_workflowName : string;
  cs_workflowClassName : option string;
  cs_schedule : string;
  cs_context : dbos_error + string;
  cs_automaticBackfill : option bool;
  cs_cronTimezone : option string;
  cs_queueName : option string
}.

Definition validate_timezone (timezone : option string) : dbos_error + unit :=
  match truthy_str timezone with
  | Some tz => if valid_timezone tz then inr tt else inl (JsError ("Invalid timezone: '" +:+ tz +:+ "'"))
  | None => inr tt
  end.

(** The checks of a schedule and its context, and the schedule that is stored *)
Definition internal_schedule (scheduleId : string) (c : ClientSchedule) : dbos_error + WorkflowScheduleInternal :=
  match validateCrontab (cs_schedule c) with
  | inl e => inl e
  | inr _ =>
      match validate_timezone (cs_cronTimezone c) with
      | inl e => inl e
      | inr _ =>
          match cs_context c with
          | inl e => inl e
          | inr context =>
              inr {| si_scheduleId := scheduleId;
                     si_scheduleName := cs_scheduleName c;
                     si_workflowName := cs_workflowName c;
                     si_workflowClassName := default "" (cs_workflowClassName c);
                     si_schedule := cs_schedule c;
                     si_status := "ACTIVE";
                     si_context := context;
                     si_lastFiredAt := None;
                     si_automaticBackfill := default false (cs_automaticBackfill c);
                     si_cronTimezone := cs_cronTimezone c;
                     si_queueName := cs_queueName c |}
          end
      end
  end.

(** [createSchedule] *)
Definition createSchedule (scheduleId : string) (c : ClientSchedule) : DB unit :=
  let* schedInternal := lift (internal_schedule scheduleId c) in
  Schedules.createSchedule schedInternal.

(** [listSchedules] and [getSchedule], up to parsing the contexts *)
Definition listSchedules (filters : ScheduleFilters) (d : sysdb) : list WorkflowScheduleInternal :=
  Schedules.listSchedules name_le filters d.

Definition getSchedule (name : string) (d : sysdb) : option WorkflowScheduleInternal :=
  Schedules.getSchedule name d.

(** [deleteSchedule], [pauseSchedule] and [resumeSchedule] *)
Definition deleteSchedule (name : string) : DB unit := Schedules.deleteSchedule name.

Definition pauseSchedule (name : string) : DB unit := setScheduleStatus name "PAUSED".

Definition resumeSchedule (name : string) : DB unit := setScheduleStatus name "ACTIVE".

(** [updateSchedule]; a context that is among the keys is given by its serialization. *)
Definition updateSchedule (name : string) (schedule : option string) (context : option (dbos_error + string))
    (automaticBackfill : option bool) (cronTimezone queueName : option (option string)) : DB unit :=
  let* _ := lift (match schedule with Some s => validateCrontab s | None => inr "" end) in
  let* _ := lift (validate_timezone (default None cronTimezone)) in
  let* text := match context with
               | Some c => let* t := lift c in ret (Some t)
               | None => ret None
               end in
  Schedules.updateSchedule name
    (WorkflowScheduleUpdateOf schedule text automaticBackfill cronTimezone queueName).

(** The loop of [applySchedules]: each schedule has a random ID. *)
Fixpoint internal_schedules (schedules : list (string * ClientSchedule))
    : dbos_error + list WorkflowScheduleInternal :=
  match schedules with
  | [] => inr []
  | (id, c) :: rest =>
      match internal_schedule id c with
      | inl e => inl e
      | inr s => match internal_schedules rest with inl e => inl e | inr l => inr (s :: l) end
      end
  end.

(** [applySchedules] *)
Definition applySchedules (schedules : list (string * ClientSchedule)) : DB unit :=
  let* internals := lift (internal_schedules schedules) in Schedules.applySchedules internals.
End platform.

(** [setLatestApplicationVersion] *)
Definition setLatestApplicationVersion (now : Z) (versionName : string) : DB unit :=
  updateApplicationVersionTimestamp versionName now.

End DBOSClient.

(** * Lemmas *)

Lemma init_new rd s d :
  db_ok d -> workflow_status d !! i_workflowUUID s = None ->
  (exists k r q x, workflow_status d !! k = Some r /\ i_queueName s = Some q /\ i_deduplicationID s = Some x
     /\ holds_key q x r = true)
  /\ (exists i q k, DBOSClient.init rd s d = (Throw (DBOSQueueDuplicatedError i q k), d))
  \/ (forall k r q x, workflow_status d !! k = Some r -> i_queueName s = Some q -> i_deduplicationID s = Some x ->
        holds_key q x r = false)
  /\ DBOSClient.init rd s d
     = (Ok tt, d <| workflow_status ::= <[i_workflowUUID s := status_to_row (er_now rd) s None]> |>).
Proof.
  intros Hd Hn. unfold DBOSClient.init, bind.
  destruct (init_fresh_cases (er_now rd) (er_nowMs rd) s None None d (ok_dedup _ Hd) Hn)
    as [[(k & r & Hk & Hc) ->]|[Hc ->]]; [done|left|right].
  - split; [|eauto]. apply dedup_clash_true in Hc as (q & x & Hq & Hq' & Hx & Hx'). exists k, r, q, x.
    rewrite holds_key_spec. done.
  - split; [|done]. intros k r q x Hk Hq Hx. apply not_true_iff_false. intros [Hq' Hx']%holds_key_spec.
    specialize (Hc k r Hk). rewrite (proj2 (dedup_clash_true _ r)) in Hc; [done|].
    exists q, x. simpl. done.
Qed.

(** The workflow [id] is the one that holds the deduplication ID [x] of the queue [q]. *)
Definition the_holder (q x id : string) (d : sysdb) : Prop :=
  forall j, (exists r, workflow_status d !! j = Some r /\ holds_key q x r = true) <-> j = id.

Lemma found_holder q x id d :
  db_ok d -> getDeduplicatedWorkflow q x d = Some id -> the_holder q x id d.
Proof.
  intros Hd. unfold getDeduplicatedWorkflow. destruct (select_where _ _) as [|[k r] l] eqn:E; [done|].
  intros [= ->]. assert ((id, r) ∈ select_where (fun _ => holds_key q x) (workflow_status d)) as [Hr Hk]%elem_of_select_where
    by (rewrite E; set_solver).
  intros j. split; [|intros ->; eauto]. intros (r' & Hr' & Hk').
  apply (holder_unique _ q x j r' id r (ok_dedup _ Hd)); done.
Qed.

Lemma inserted_holder q x s now d :
  (forall k r, workflow_status d !! k = Some r -> holds_key q x r = false) ->
  i_queueName s = Some q -> i_deduplicationID s = Some x ->
  the_holder q x (i_workflowUUID s)
    (d <| workflow_status ::= <[i_workflowUUID s := status_to_row now s None]> |>).
Proof.
  intros Hno Hq Hx j. simpl. split.
  - intros (r & Hr & Hk). destruct (decide (j = i_workflowUUID s)) as [|Hne]; [done|].
    rewrite lookup_insert_ne in Hr by done. by rewrite (Hno _ _ Hr) in Hk.
  - intros ->. rewrite lookup_insert_eq. eexists. split; [done|]. by apply holds_key_spec.
Qed.

Lemma preserves_init rd s : preserves db_ok (DBOSClient.init rd s).
Proof. unfold DBOSClient.init. auto with preserves. Qed.

(** Others may do anything that keeps the schema's integrity and does not use the ID [id]. *)
Definition leaves_unused (id : string) (f : sysdb -> sysdb) : Prop := forall d,
  db_ok d -> workflow_status d !! id = None -> db_ok (f d) /\ workflow_status (f d) !! id = None.

Definition others_round (id : string) (r : SingletonRound) : Prop :=
  leaves_unused id (sr_lookup r) /\ leaves_unused id (sr_next r).

Lemma singleton_loop_holder rd s q x rounds : forall d id d',
  i_queueName s = Some q -> i_deduplicationID s = Some x ->
  Forall (others_round (i_workflowUUID s)) rounds ->
  db_ok d -> workflow_status d !! i_workflowUUID s = None ->
  DBOSClient.singleton_loop rd s q x rounds d = (Ok (Some id), d') ->
  db_ok d' /\ the_holder q x id d'.
Proof.
  induction rounds as [|r rounds IH]; intros d id d' Hq Hx Hr Hd Hn; [done|].
  apply Forall_cons in Hr as [[Hl Hnx] Hr]. cbn [DBOSClient.singleton_loop]. unfold try_catch, bind at 1.
  pose proof (preserves_init rd s d Hd) as Hp.
  destruct (init_new rd s d Hd Hn) as [[_ (i & q' & k & E)]|[Hno E]]; rewrite E in *.
  - unfold bind at 1 2, get. destruct (Hl d Hd Hn) as [Hd1 Hn1].
    destruct (truthy_str _) as [h|] eqn:Eh.
    + intros [= <- <-]. split; [done|]. apply found_holder; [done|].
      unfold truthy_str in Eh. destruct (getDeduplicatedWorkflow _ _ _) as [[]|]; congruence.
    + unfold bind. destruct (Hnx _ Hd1 Hn1) as [Hd2 Hn2]. by apply IH.
  - intros [= <- <-]. split; [exact Hp|]. apply inserted_holder; [|done..]. intros k r' Hk. by apply (Hno k r' q x).
Qed.

(** A round that nobody interferes with *)
Definition quiet_round : SingletonRound := SingletonRoundOf (fun d => d) (fun d => d).

Lemma singleton_loop_quiet rd s q x d :
  i_queueName s = Some q -> i_deduplicationID s = Some x ->
  db_ok d -> workflow_status d !! i_workflowUUID s = None -> workflow_status d !! "" = None ->
  exists id d', DBOSClient.singleton_loop rd s q x [quiet_round] d = (Ok (Some id), d').
Proof.
  intros Hq Hx Hd Hn He. cbn [DBOSClient.singleton_loop]. unfold try_catch, bind at 1.
  destruct (init_new rd s d Hd Hn) as [[(k & r & q' & x' & Hk & Hq' & Hx' & Hh) (i & q1 & k1 & E)]|[Hno E]]; rewrite E;
    [|by eauto].
  unfold bind at 1 2, get. cbn [sr_lookup quiet_round].
  assert (q' = q) as -> by congruence. assert (x' = x) as -> by congruence.
  unfold getDeduplicatedWorkflow. destruct (select_where _ _) as [|[h rh] l] eqn:Es.
  - pose proof (proj1 (select_where_nil _ _) Es k r Hk) as Hf. simpl in Hf. congruence.
  - assert ((h, rh) ∈ select_where (fun _ => holds_key q x) (workflow_status d)) as [Hh' _]%elem_of_select_where
      by (rewrite Es; set_solver).
    destruct h as [|a h]; [congruence|]. simpl. eauto.
Qed.

(** * Properties *)

(** C29: A client that enqueues under the policy ['return-existing'] gets the one workflow that holds
    the deduplication ID of the queue.  Whatever others do to the database between the statements
    of the loop, if it returns a workflow ID then that workflow holds the key in the database it
    leaves, and no other does; and the first round that nobody interferes with returns. *)
Theorem singleton_enqueue rd o args x serparam d :
  let id := DBOSClient.workflow_id rd o in
  ce_returnExisting o = true -> ce_deduplicationID o = Some x -> x <> "" ->
  DBOSClient.buildEnqueueStatus rd o args = inr (DBOSClient.enqueue_status rd o serparam) ->
  db_ok d -> workflow_status d !! id = None -> workflow_status d !! "" = None ->
  (forall rounds id' d', Forall (others_round id) rounds ->
     DBOSClient.enqueue rd o args rounds d = (Ok (Some id'), d') ->
     db_ok d' /\ the_holder (ce_queueName o) x id' d')
  /\ exists id' d', DBOSClient.enqueue rd o args [quiet_round] d = (Ok (Some id'), d').
Proof.
  intros id Hp Hx Hne Hb Hd Hn He.
  assert (forall rounds, DBOSClient.enqueue rd o args rounds
    = DBOSClient.singleton_loop rd (DBOSClient.enqueue_status rd o serparam) (ce_queueName o) x rounds) as Hrun.
  { intros rounds. unfold DBOSClient.enqueue, bind, lift. rewrite Hb. unfold DBOSClient.enqueue_as.
    rewrite Hp. unfold DBOSClient.initSingletonWorkflow. rewrite Hx. by destruct x. }
  split.
  - intros rounds id' d' Hr. rewrite Hrun. by apply singleton_loop_holder.
  - rewrite Hrun. by apply singleton_loop_quiet.
Qed.

(** What a poll makes of the waiting workflow [id] in [d]: it claims it for this executor, or it
    claims as many workflows as it may, and they all go first. *)
Definition claimed_or_first (id : string) (row : wf_row) (part : option string) (version : string) (d : sysdb)
    : Prop := forall q x lr st now locked claimed d',
  Some (wq_name q) = ws_queue_name row -> id ∉ locked ->
  findAndMarkStartableWorkflows q x version part lr st now locked d = (Ok claimed, d') ->
  id ∈ claimed
  /\ workflow_status d' !! id = Some (started x version st now (bool_decide (is_Some (wq_rateLimit q))) row)
  \/ exists n, room q part lr st d = Some n /\ n <= Z.of_nat (length claimed)
     /\ forall j rj, j ∈ claimed -> workflow_status d !! j = Some rj -> dequeue_le (j, rj) (id, row) = true.

(** The executors of this version run workflows that ask for it, and the latest version runs those
    that ask for none. *)
Definition runs_here (version : string) (o : ClientEnqueueOptions) (d : sysdb) : Prop :=
  match ce_appVersion o with Some v => v = version | None => is_latest version d = true end.

Lemma startable_enqueued rd o serparam version d r :
  let row := status_to_row (er_now rd) (DBOSClient.enqueue_status rd o serparam) None in
  ws_status r = ENQUEUED -> ws_queue_name r = ws_queue_name row ->
  ws_queue_partition_key r = ws_queue_partition_key row ->
  ws_application_version r = ws_application_version row -> runs_here version o d ->
  startable (ce_queueName o) version (is_latest version d) (ce_queuePartitionKey o) r = true.
Proof.
  intros row Hs Hq Hk Hv Hrun. unfold startable, on_queue, in_partition, version_matches.
  rewrite Hs, Hq, Hk, Hv. simpl.
  rewrite (bool_decide_true (ce_queueName o = ce_queueName o)) by done. unfold runs_here in Hrun.
  assert (match ce_queuePartitionKey o with Some k => sql_eqb (ce_queuePartitionKey o) k | None => true end = true)
    as -> by (destruct (ce_queuePartitionKey o); [by apply sql_eqb_spec|done]).
  destruct (ce_appVersion o) as [v|]; simpl; [|by rewrite Hrun]. by rewrite bool_decide_true.
Qed.

Lemma claimed_enqueued rd o serparam version d id r :
  let row := status_to_row (er_now rd) (DBOSClient.enqueue_status rd o serparam) None in
  db_ok d -> workflow_status d !! id = Some r ->
  ws_status r = ENQUEUED -> ws_queue_name r = ws_queue_name row ->
  ws_queue_partition_key r = ws_queue_partition_key row ->
  ws_application_version r = ws_application_version row -> runs_here version o d ->
  claimed_or_first id r (ce_queuePartitionKey o) version d.
Proof.
  intros row Hd Hr Hs Hq Hk Hv Hrun q x lr st now locked claimed d' Hname Hl Hpoll.
  rewrite Hq in Hname. injection Hname as Hname.
  apply (claimed_or_full q x version _ lr st now locked d claimed d' id r Hd Hpoll Hr Hl).
  rewrite Hname. by apply (startable_enqueued rd o serparam).
Qed.

(** What the executors do on their own before [t]: their sweeps, and their polls *)
Inductive before_delay (t : Z) : sysdb -> sysdb -> Prop :=
| early_sweep now d o d' : now < t -> transitionDelayedWorkflows now d = (o, d') -> before_delay t d d'
| early_poll q x v part lr st now locked d o d' :
    findAndMarkStartableWorkflows q x v part lr st now locked d = (o, d') -> before_delay t d d'.

(** A delayed workflow of [d] in [d']: nothing has happened to it. *)
Record still_delayed (id : string) (row : wf_row) (d d' : sysdb) : Prop := {
  sd_ok : db_ok d';
  sd_row : workflow_status d' !! id = Some row;
  sd_rest : d' = d <| workflow_status := workflow_status d' |>
}.

(** A poll claims no delayed workflow. *)
Lemma poll_skips_delayed id row q x v part lr st now locked d claimed d' :
  db_ok d -> workflow_status d !! id = Some row -> ws_status row = DELAYED ->
  findAndMarkStartableWorkflows q x v part lr st now locked d = (Ok claimed, d') -> id ∉ claimed.
Proof.
  intros Hd Hr Hs Hpoll Hin.
  pose proof (findAndMark_cases q x v part lr st now locked d (ok_dedup _ Hd)) as H.
  rewrite Hpoll in H. destruct H as (_ & -> & _). apply claimed_free in Hin as [r' Hr'].
  apply elem_of_free in Hr' as (Hr' & _ & Hst). assert (r' = row) as -> by congruence.
  unfold startable in Hst. rewrite Hs in Hst. discriminate Hst.
Qed.

Lemma early_still_delayed t id row d d1 d2 :
  ws_status row = DELAYED -> ws_delay_until_epoch_ms row = Some t ->
  still_delayed id row d d1 -> before_delay t d1 d2 -> still_delayed id row d d2.
Proof.
  intros Hs Ht [Hd Hr He] Hstep. destruct Hstep as [now d1 o d2 Hnow Hrun|q x v part lr st now locked d1 o d2 Hrun].
  - destruct (transitionDelayedWorkflows_spec now d1 Hd) as (d3 & Hsweep & Hd3 & Hl & _).
    pose proof (preserves_transitionDelayedWorkflows now d1 Hd) as Hok. rewrite Hsweep in Hrun, Hok.
    injection Hrun as _ <-. split; [exact Hok| |by rewrite Hd3, He].
    etrans; [exact (Hl id)|]. rewrite Hr. cbn [fmap option_fmap option_map].
    assert (delay_expired now row = false) as ->; [|done].
    unfold delay_expired. rewrite Hs, Ht. simpl. lia.
  - assert (db_ok d2) as Hok.
    { apply (step_since true d1); [|done]. eexists _, _. split; [apply op_findAndMark|].
      by rewrite Hrun. }
    pose proof (findAndMark_cases q x v part lr st now locked d1 (ok_dedup _ Hd)) as H.
    rewrite Hrun in H. destruct o as [claimed|e]; [|by destruct H as (-> & _)].
    pose proof (poll_skips_delayed id row _ _ _ _ _ _ _ _ _ _ _ Hd Hr Hs Hrun) as Hn.
    destruct H as (-> & _ & _). split; [exact Hok| |by rewrite He].
    simpl. rewrite lookup_update_where, Hr. simpl. by rewrite (proj2 (mem_false _ _) Hn).
Qed.

Lemma before_still_delayed t id row d d1 d2 :
  ws_status row = DELAYED -> ws_delay_until_epoch_ms row = Some t ->
  still_delayed id row d d1 -> rtc (before_delay t) d1 d2 -> still_delayed id row d d2.
Proof.
  intros Hs Ht Hd Hr. induction Hr as [|d1 d2 d3 Hstep _ IH]; [done|].
  apply IH. by eapply early_still_delayed.
Qed.

(** C30: A workflow that a client enqueues reaches the executors of its queue.  An enqueue under a new ID
    adds the row of the workflow and nothing else.  Without a delay, each poll of the queue, in the
    workflow's partition and by a version that may run it, then claims it with the inputs of the
    client, unless workflows that go first take all the room the limits leave.  With a delay,
    whatever sweeps and polls run before its end, none of them releases or claims it; and once a
    sweep has seen it over the same holds. *)
Theorem enqueue_claimed rd o args serparam d d1 :
  let id := DBOSClient.workflow_id rd o in
  let row := status_to_row (er_now rd) (DBOSClient.enqueue_status rd o serparam) None in
  ce_returnExisting o = false -> args (ce_serializationType o) = inr serparam ->
  db_ok d -> workflow_status d !! id = None ->
  DBOSClient.enqueue rd o args [] d = (Ok (Some id), d1) ->
  d1 = d <| workflow_status ::= <[id := row]> |>
  /\ ws_inputs row = serparam.1 /\ ws_serialization row = serparam.2
  /\ (forall version, runs_here version o d ->
        match DBOSClient.delay_until rd o with
        | None => claimed_or_first id row (ce_queuePartitionKey o) version d1
        | Some t =>
            forall d2, rtc (before_delay t) d1 d2 ->
              workflow_status d2 !! id = Some row
              /\ (forall q x v lr st now locked claimed d' part,
                    findAndMarkStartableWorkflows q x v part lr st now locked d2 = (Ok claimed, d') ->
                    id ∉ claimed)
              /\ forall now, t <= now -> exists d3,
                   transitionDelayedWorkflows now d2 = (Ok tt, d3)
                   /\ claimed_or_first id (released now row) (ce_queuePartitionKey o) version d3
        end).
Proof.
  intros id row Hp Ha Hd Hn Hrun.
  assert (DBOSClient.init rd (DBOSClient.enqueue_status rd o serparam) d = (Ok tt, d1)) as Hinit.
  { revert Hrun. unfold DBOSClient.enqueue, bind at 1, lift, DBOSClient.buildEnqueueStatus.
    destruct (validateWorkflowAttributes _); [done|]. rewrite Ha. unfold DBOSClient.enqueue_as. rewrite Hp.
    intros ([] & d2 & Hi & Hret)%bind_inv_ok. rewrite Hi. f_equal. unfold ret in Hret. congruence. }
  pose proof (preserves_init rd (DBOSClient.enqueue_status rd o serparam) d Hd) as Hd1. rewrite Hinit in Hd1.
  destruct (init_new rd (DBOSClient.enqueue_status rd o serparam) d Hd Hn) as [[_ (i & q & k & E)]|[_ E]];
    rewrite E in Hinit; [done|]. injection Hinit as <-. cbn [snd] in Hd1.
  split; [done|]. split; [done|]. split; [done|]. intros version Hv.
  assert (forall x, workflow_status (d <| workflow_status ::= x |>) = x (workflow_status d)) as Hw by done.
  assert (workflow_status (d <| workflow_status ::= <[id := row]> |>) !! id = Some row) as Hrow
    by (rewrite Hw; apply lookup_insert_eq).
  assert (ws_status row = match DBOSClient.delay_until rd o with Some _ => DELAYED | None => ENQUEUED end) as Hs
    by done.
  assert (ws_delay_until_epoch_ms row = DBOSClient.delay_until rd o) as Hdel by done.
  destruct (DBOSClient.delay_until rd o) as [t|].
  - intros d2 Hbefore.
    destruct (before_still_delayed t id row _ _ d2 Hs Hdel (Build_still_delayed _ _ _ _ Hd1 Hrow eq_refl) Hbefore)
      as [Hok2 Hrow2 Hrest]. split; [exact Hrow2|]. split.
    + intros q x v lr st now locked claimed d' part. by apply (poll_skips_delayed id row).
    + intros now Ht. destruct (transitionDelayedWorkflows_spec now _ Hok2) as (d3 & Hsweep & Hd3 & Hl & _).
      exists d3. split; [exact Hsweep|].
      pose proof (preserves_transitionDelayedWorkflows now _ Hok2) as Hok. rewrite Hsweep in Hok.
      apply (claimed_enqueued rd o serparam); try done.
      * assert (delay_expired now row = true) as Hexp.
        { unfold delay_expired. rewrite Hs, Hdel. exact (proj2 (Z.leb_le t now) Ht). }
        pose proof (Hl id) as Hlid. etrans; [exact Hlid|]. etrans; [apply (f_equal (fmap _) Hrow2)|].
        cbn [fmap option_fmap option_map]. by rewrite Hexp.
      * unfold runs_here in *. by rewrite Hd3, Hrest.
  - by apply (claimed_enqueued rd o serparam).
Qed.

(** ** The debouncer of a client *)

(** The options that [DebouncerClient.debounce] gives to [enqueueDebounced] *)
Definition debounce_options (c : DebounceCall) (f : WorkflowSerializationFormat) : ClientEnqueueOptions :=
  {| ce_queueName := debounce_queue c;
     ce_workflowName := dc_workflowName c;
     ce_workflowClassName := truthy_str (Some (dc_workflowClassName c));
     ce_workflowConfigName := None;
     ce_workflowID := dc_workflowID c;
     ce_appVersion := sp_applicationVersion (dc_params c);
     ce_workflowTimeoutMS := sp_timeoutMS (dc_params c);
     ce_deduplicationID := Some (debounce_dedup_id c);
     ce_serializationType := f;
     ce_priority := None;
     ce_queuePartitionKey := None;
     ce_delayMS := Some (dc_debouncePeriodMs c);
     ce_returnExisting := false;
     ce_attributes := sp_attributes (dc_params c) |}.

(** The enqueue of Debounce.v is [enqueueDebounced] with these options. *)
Lemma enqueue_fresh_enqueueDebounced now uuid c f args d :
  0 < dc_debouncePeriodMs c -> args f = inr (dc_input c, dc_serialization c) ->
  enqueue_fresh now c uuid d
  = try_catch
      (let* id := DBOSClient.enqueueDebounced (EnqueueReadingsOf now now uuid) (debounce_options c f)
                    (debounce_deadline now c) args in ret (Some id))
      (fun e => if negb (isQueueDeduplicatedError e) then throw e else ret None) d.
Proof.
  intros Hpos Ha. unfold enqueue_fresh, DBOSClient.enqueueDebounced, DBOSClient.buildEnqueueStatus, try_catch.
  cbn [debounce_options ce_attributes]. destruct (validateWorkflowAttributes _) as [e|]; [done|].
  change (ce_serializationType (debounce_options c f)) with f. rewrite Ha.
  unfold DBOSClient.init, bind, lift, ret. cbv beta iota. cbn [er_now er_nowMs].
  assert (DBOSClient.delay_until (EnqueueReadingsOf now now uuid) (debounce_options c f)
          = Some (now + dc_debouncePeriodMs c)) as Hdel.
  { unfold DBOSClient.delay_until. cbn. by rewrite (proj2 (Z.ltb_lt 0 _) Hpos). }
  match goal with |- context [initWorkflowStatus now now ?s None false false None d] => set (s1 := s) end.
  match goal with |- _ = ?g => match g with context [initWorkflowStatus now now ?s None false false None d] =>
    assert (s1 = s) as E end end.
  { unfold s1, debounced_status, DBOSClient.enqueue_status. rewrite Hdel. cbn.
    by destruct (dc_workflowClassName c). }
  rewrite <- E. clear E Hdel. by destruct (initWorkflowStatus now now s1 None false false None d) as [[x|e] d'].
Qed.

(** A client is not held to the bounds of priorities that [DBOS.setWorkflowPriority] checks. *)
Lemma client_priority_unchecked P rd id next now k p d :
  ap_launched P = true -> p < DBOS_QUEUE_MIN_PRIORITY ->
  (DBOS.setWorkflowPriority P rd k p (workflow_ctx id next)).1
    = Throw (DBOSInvalidQueuePriorityError p DBOS_QUEUE_MIN_PRIORITY DBOS_QUEUE_MAX_PRIORITY)
  /\ DBOSClient.setWorkflowPriority now k p d = Management.setWorkflowPriority now k p d.
Proof.
  intros Hl Hp. split; [|done]. unfold DBOS.setWorkflowPriority, bind at 1, ensureDBOSIsLaunched. rewrite Hl.
  cbv [ret]. by rewrite (proj2 (Z.ltb_lt p _) Hp).
Qed.

(** * Witnesses *)

Definition ex_options (policy : bool) : ClientEnqueueOptions :=
  ClientEnqueueOptionsOf "shipping" "ship" None None (Some "c-1") None None (Some "order-1") unspecified
    None None None policy NoAttributes.

Definition ex_client_args : SerializedArgs := fun _ => inr (Some "[1]", Some "js_superjson").

Definition ex_enqueue : EnqueueReadings := EnqueueReadingsOf 60 60 "uuid-1".

Lemma singleton_enqueue_witness :
  exists id' d', DBOSClient.enqueue ex_enqueue (ex_options true) ex_client_args [quiet_round] ex_db
    = (Ok (Some id'), d') /\ the_holder "shipping" "order-1" id' d'.
Proof.
  destruct (singleton_enqueue ex_enqueue (ex_options true) ex_client_args "order-1" (Some "[1]", Some "js_superjson")
              ex_db eq_refl eq_refl ltac:(discriminate) eq_refl ex_db_ok ltac:(vm_compute; reflexivity)
              ltac:(vm_compute; reflexivity)) as [Hsafe (id' & d' & Hrun)].
  exists id', d'. split; [exact Hrun|].
  refine (proj2 (Hsafe [quiet_round] id' d' _ Hrun)). constructor; [|constructor].
  split; intros d H1 H2; split; assumption.
Defined.

Lemma enqueue_claimed_witness :
  exists d1, DBOSClient.enqueue ex_enqueue (ex_options false) ex_client_args [] ex_db = (Ok (Some "c-1"), d1)
    /\ forall version, runs_here version (ex_options false) ex_db ->
       claimed_or_first "c-1"
         (status_to_row 60 (DBOSClient.enqueue_status ex_enqueue (ex_options false)
            (Some "[1]", Some "js_superjson")) None) None version d1.
Proof.
  destruct (DBOSClient.enqueue ex_enqueue (ex_options false) ex_client_args [] ex_db) as [o d1] eqn:Hrun.
  assert (o = Ok (Some "c-1")) as ->.
  { change o with (fst (o, d1)). rewrite <- Hrun. vm_compute. reflexivity. }
  exists d1. split; [reflexivity|].
  destruct (enqueue_claimed ex_enqueue (ex_options false) ex_client_args (Some "[1]", Some "js_superjson") ex_db d1
              eq_refl eq_refl ex_db_ok ltac:(vm_compute; reflexivity) Hrun) as (_ & _ & _ & H).
  exact H.
Defined.
