(* ===== verification/Registry.v ===== *)
(** The registries of functions, classes and instances (src/src/decorators.ts), the decorators and
    registration functions of [DBOS] (src/src/dbos.ts) and the authorization check
    (src/src/authdecorators.ts).

    Registrations are objects that several maps share, so they live in two stores, and the maps
    hold their addresses.  A registering function is a computation on these stores; it may fail
    half way, and what it did before stays.  The texts of errors are given up to the stack traces
    of earlier registrations.  Not modelled: the names and types of parameters, and what event
    receivers attach to them. *)

From S2P Require Export Executor.

Open Scope Z_scope.

(** * Data *)

(** A function: one of the application, or a wrapper the library made *)
Definition fn : Type := nat + nat.
Notation App n := (inl (n%nat : nat) : fn).
Notation Made n := (inr (n%nat : nat) : fn).

(** What a decorator is applied to: a constructor (static methods) or the prototype of a
    constructor (instance methods) *)
Inductive target : Type := Static_of (ctor : nat) | Proto_of (ctor : nat).

Definition target_ctor (t : target) : nat := match t with Static_of c | Proto_of c => c end.

(** The object a Map of registered information holds for one key; the key [DBOS_AUTH] has the
    required roles. *)
Record ExternalInfo : Type := ExternalInfoOf { requiredRole : option (list string) }.

Definition no_info : ExternalInfo := ExternalInfoOf None.

Definition DBOS_AUTH : string := "auth".

(** What runs on the arguments before the function: the parser of an input schema, or the
    authorization check *)
Inductive interceptor : Type := ParseSchema (schema : nat) | CheckMethodAuth.

(** [MethodRegistration] *)
Record MethodRegistration : Type := MethodRegistrationOf {
  mt_name : string;
  mt_className : string;
  mt_classReg : nat;
  mt_isInstance : bool;
  mt_needInitialized : bool;
  mt_origFunction : fn;
  mt_registeredFunction : option fn;
  mt_wrappedFunction : option fn;
  mt_workflowConfig : option WorkflowConfig;
  mt_stepConfig : option StepConfig;
  mt_onEnter : list (Z * interceptor);
  mt_defaults : option nat;
  mt_externalRegInfo : gmap string ExternalInfo
}.

#[export] Instance MethodRegistration_eta : Eta MethodRegistration := fun m =>
  MethodRegistrationOf (mt_name m) (mt_className m) (mt_classReg m) (mt_isInstance m)
    (mt_needInitialized m) (mt_origFunction m) (mt_registeredFunction m) (mt_wrappedFunction m)
    (mt_workflowConfig m) (mt_stepConfig m) (mt_onEnter m) (mt_defaults m) (mt_externalRegInfo m).

(** [ClassRegistration] *)
Record ClassRegistration : Type := ClassRegistrationOf {
  cl_name : string;
  cl_needsInitialized : bool;
  cl_registeredOperationsByName : gmap string nat;
  cl_allRegisteredOperations : gmap fn nat;
  cl_configuredInstances : gmap string nat;
  cl_externalRegInfo : gmap string ExternalInfo;
  cl_ctor : option nat
}.

#[export] Instance ClassRegistration_eta : Eta ClassRegistration := fun c =>
  ClassRegistrationOf (cl_name c) (cl_needsInitialized c) (cl_registeredOperationsByName c)
    (cl_allRegisteredOperations c) (cl_configuredInstances c) (cl_externalRegInfo c) (cl_ctor c).

(** The entries of [classesByName] and [classesByCtor] *)
Record NameEntry : Type := NameEntryOf { ne_reg : nat; ne_ctor : option nat }.
Record CtorEntry : Type := CtorEntryOf { ce_name : string; ce_reg : nat }.

(** The stores of registrations, the maps, and the rest of the module's state.  [classesByCtor] is
    in the order of insertion, in which [finalizeClassRegistrations] visits it.  [rs_fresh] is
    the next address, of a registration or of a wrapper. *)
Record Registry : Type := RegistryOf {
  rs_methods : gmap nat MethodRegistration;
  rs_classes : gmap nat ClassRegistration;
  functionToRegistration : gmap fn nat;
  classesByName : gmap string NameEntry;
  classesByCtor : list (nat * CtorEntry);
  transactionalDataSources : gmap string nat;
  authMiddleware : bool;
  installedMiddleware : bool;
  dbosLaunched : bool;
  rs_fresh : nat
}.

#[export] Instance Registry_eta : Eta Registry := fun r =>
  RegistryOf (rs_methods r) (rs_classes r) (functionToRegistration r) (classesByName r)
    (classesByCtor r) (transactionalDataSources r) (authMiddleware r) (installedMiddleware r)
    (dbosLaunched r) (rs_fresh r).

Definition empty_registry : Registry := RegistryOf ∅ ∅ ∅ ∅ [] ∅ false false false 0.

(** A computation on the registries *)
Definition RM (A : Type) : Type := M Registry dbos_error A.

Definition conflict {A} (msg : string) : RM A := throw (DBOSConflictingRegistrationError msg).

(** Reading and writing the stores *)
Definition new_address : RM nat := fun r => (Ok (rs_fresh r), r <| rs_fresh ::= S |>).

Definition no_method : MethodRegistration :=
  MethodRegistrationOf "" "" 0 false true (inl 0%nat) None None None None [] None ∅.

Definition no_class : ClassRegistration := ClassRegistrationOf "" true ∅ ∅ ∅ ∅ None.

Definition method (m : nat) (r : Registry) : MethodRegistration := default no_method (rs_methods r !! m).
Definition class (c : nat) (r : Registry) : ClassRegistration := default no_class (rs_classes r !! c).

Definition get_method (m : nat) : RM MethodRegistration := fun r => (Ok (method m r), r).
Definition get_class (c : nat) : RM ClassRegistration := fun r => (Ok (class c r), r).

Definition update_method (m : nat) (f : MethodRegistration -> MethodRegistration) : RM unit := fun r =>
  (Ok tt, r <| rs_methods ::= alter f m |>).
Definition update_class (c : nat) (f : ClassRegistration -> ClassRegistration) : RM unit := fun r =>
  (Ok tt, r <| rs_classes ::= alter f c |>).

Section registry.
(** The [name] of a constructor *)
Context (ctor_name : nat -> string).

(** * Launching *)

(** [recordDBOSLaunch], [recordDBOSShutdown], [ensureDBOSIsNotLaunched] *)
Definition recordDBOSLaunch : RM unit := fun r => (Ok tt, r <| dbosLaunched := true |>).
Definition recordDBOSShutdown : RM unit := fun r => (Ok tt, r <| dbosLaunched := false |>).

Definition ensureDBOSIsNotLaunched : RM unit := fun r =>
  if dbosLaunched r then conflict "DBOS code is being registered after DBOS.launch()." r else (Ok tt, r).

(** [clearAllRegistrations]; the addresses of cleared registrations are not used again. *)
Definition clearAllRegistrations : RM unit := fun r =>
  (Ok tt, empty_registry <| dbosLaunched := dbosLaunched r |> <| rs_fresh := rs_fresh r |>).

(** * Classes *)

(** The name of a class, and of a function's class: the first that is not empty *)
Definition first_nonempty (a b : string) : string := match a with "" => b | _ => a end.

(** [ClassRegistration.getClassName] *)
Definition class_getClassName (c : ClassRegistration) : string :=
  first_nonempty (cl_name c) (match cl_ctor c with Some k => ctor_name k | None => "" end).

(** [MethodRegistration.getClassName] *)
Definition method_getClassName (m : MethodRegistration) (r : Registry) : string :=
  first_nonempty (mt_className m) (class_getClassName (class (mt_classReg m) r)).

Fixpoint find_ctor (k : nat) (l : list (nat * CtorEntry)) : option CtorEntry :=
  match l with
  | [] => None
  | (k', e) :: l' => if Nat.eqb k k' then Some e else find_ctor k l'
  end.

Fixpoint set_ctor (k : nat) (f : CtorEntry -> CtorEntry) (l : list (nat * CtorEntry)) : list (nat * CtorEntry) :=
  match l with
  | [] => []
  | (k', e) :: l' => if Nat.eqb k k' then (k', f e) :: l' else (k', e) :: set_ctor k f l'
  end.

(** [getClassRegistration] of a constructor, creating the entry *)
Definition getClassRegistration (k : nat) : RM CtorEntry := fun r =>
  match find_ctor k (classesByCtor r) with
  | Some e => (Ok e, r)
  | None =>
      let c := rs_fresh r in
      let e := CtorEntryOf (ctor_name k) c in
      (Ok e, r <| rs_fresh ::= S |>
               <| rs_classes ::= <[c := no_class <| cl_ctor := Some k |>]> |>
               <| classesByCtor ::= (fun l => l ++ [(k, e)]) |>)
  end.

(** [getClassRegistrationByName] *)
Definition getClassRegistrationByName (name : string) (create : bool) : RM nat := fun r =>
  match classesByName r !! name with
  | None =>
      if create then
        let c := rs_fresh r in
        (Ok c, r <| rs_fresh ::= S |>
                 <| rs_classes ::= <[c := no_class <| cl_name := name |> <| cl_needsInitialized := false |>]> |>
                 <| classesByName ::= <[name := NameEntryOf c None]> |>)
      else (Throw (DBOSNotRegisteredError name (Some ("Class '" +:+ name +:+ "' is not registered"))), r)
  | Some e =>
      (Ok (ne_reg e),
       if cl_needsInitialized (class (ne_reg e) r)
       then r <| rs_classes ::= alter (fun c => c <| cl_name := name |> <| cl_needsInitialized := false |>) (ne_reg e) |>
       else r)
  end.

(** [getOrCreateClassRegistration] *)
Definition getOrCreateClassRegistration (t : option target) (className : option string) : RM (nat * bool) :=
  match t, className with
  | None, _ => let* c := getClassRegistrationByName (default "" className) true in ret (c, false)
  | Some t, None =>
      let* e := getClassRegistration (target_ctor t) in
      ret (ce_reg e, match t with Static_of _ => false | Proto_of _ => true end)
  | Some t, Some className =>
      let* e := getClassRegistration (target_ctor t) in
      if negb (bool_decide (ce_name e = "")) && negb (bool_decide (ce_name e = className))
      then throw (JsTypeError ("Attempt to register class under two names: " +:+ ce_name e +:+ " vs. " +:+ className))
      else
        (fun r => (Ok tt, r <| classesByCtor ::= set_ctor (target_ctor t) (fun e => CtorEntryOf className (ce_reg e)) |>)) ;*
        ret (ce_reg e, match t with Static_of _ => false | Proto_of _ => true end)
  end.

(** [ClassRegistration.registerOperationByName] *)
Definition registerOperationByName (c : nat) (name : string) (m : nat) : RM unit :=
  let* cr := get_class c in
  match cl_registeredOperationsByName cr !! name with
  | Some m' =>
      if Nat.eqb m' m then ret tt
      else conflict ("Operation (Name: " +:+ cl_name cr +:+ "." +:+ name +:+ ") is already registered.")
  | None => update_class c (fun cr => cr <| cl_registeredOperationsByName ::= <[name := m]> |>)
  end.

(** [registerClassInstance], from the constructor of [ConfiguredInstance] *)
Definition registerClassInstance (k inst : nat) (instname : string) : RM unit :=
  let* e := getClassRegistration k in
  let* cr := get_class (ce_reg e) in
  match cl_configuredInstances cr !! instname with
  | Some _ => conflict ("An instance of class '" +:+ ctor_name k +:+ "' with name '" +:+ instname
                        +:+ "' was already registered.")
  | None => update_class (ce_reg e) (fun cr => cr <| cl_configuredInstances ::= <[instname := inst]> |>)
  end.

(** [getConfiguredInstance] *)
Definition getConfiguredInstance (clsname cfgname : string) : RM (option nat) :=
  let* c := getClassRegistrationByName clsname false in
  let* cr := get_class c in
  ret (cl_configuredInstances cr !! cfgname).

(** * Functions *)

(** [getFunctionRegistration] *)
Definition getFunctionRegistration (f : fn) : RM (option nat) := fun r => (Ok (functionToRegistration r !! f), r).

(** [registerFunctionWrapper] *)
Definition registerFunctionWrapper (f : fn) (m : nat) : RM unit :=
  update_method m (fun mr => mr <| mt_wrappedFunction := Some f |>) ;*
  (fun r => (Ok tt, r <| functionToRegistration ::= <[f := m]> |>)).

(** [getRegisteredFunctionFullName]: class and name; [fname] is the name of the function itself. *)
Definition getRegisteredFunctionFullName (f : fn) (fname : string) (r : Registry) : string * string :=
  match functionToRegistration r !! f with
  | Some m => (method_getClassName (method m r) r, mt_name (method m r))
  | None => ("", fname)
  end.

(** [getFunctionRegistrationByName] *)
Definition getFunctionRegistrationByName (className name : string) : RM (option nat) :=
  let* c := getClassRegistrationByName className false in
  let* cr := get_class c in
  ret (cl_registeredOperationsByName cr !! name).

(** [getOrCreateMethodRegistration] *)
Definition getOrCreateMethodRegistration (t : option target) (className : option string) (name : string)
    (func : fn) : RM nat :=
  let* cls := getOrCreateClassRegistration t className in
  let* freg := getFunctionRegistration func in
  let* r := get in
  let origFunc := match freg with Some m => mt_origFunction (method m r) | None => func end in
  let* _ :=
    match cl_allRegisteredOperations (class cls.1 r) !! origFunc with
    | Some _ => ret tt
    | None =>
        let* m := new_address in
        (fun r => (Ok tt, r <| rs_methods ::= <[m := no_method <| mt_classReg := cls.1 |> <| mt_origFunction := func |>
                                                         <| mt_isInstance := cls.2 |>]> |>)) ;*
        update_class cls.1 (fun cr => cr <| cl_allRegisteredOperations ::= <[func := m]> |>)
    end in
  let* cr := get_class cls.1 in
  match cl_allRegisteredOperations cr !! func with
  | None => throw (JsTypeError "Cannot read properties of undefined (reading 'needInitialized')")
  | Some m =>
      let* mr := get_method m in
      if mt_needInitialized mr then
        let* w := new_address in
        update_method m (fun mr => mr <| mt_needInitialized := false |> <| mt_name := name |>
          <| mt_className := cl_name cr |> <| mt_defaults := Some cls.1 |>
          <| mt_registeredFunction := Some (Made w) |>) ;*
        (fun r => (Ok tt, r <| functionToRegistration ::=
                              (fun g => <[mt_origFunction mr := m]> (<[Made w := m]> g)) |>)) ;*
        ret m
      else ret m
  end.

(** [wrapDBOSFunctionAndRegisterByUniqueName]; [name] is [propertyKey] if none is given. *)
Definition wrapDBOSFunctionAndRegisterByUniqueName (t : option target) (className : option string)
    (propertyKey : string) (name : option string) (func : fn) : RM nat :=
  ensureDBOSIsNotLaunched ;*
  let name := default propertyKey (truthy_str name) in
  let* freg := getFunctionRegistration func in
  match freg with
  | Some m =>
      let* cls := getOrCreateClassRegistration t className in
      registerOperationByName cls.1 name m ;* ret m
  | None =>
      let* m := getOrCreateMethodRegistration t className name func in
      let* cls := getOrCreateClassRegistration t className in
      registerOperationByName cls.1 name m ;* ret m
  end.

(** [wrapDBOSFunctionAndRegister] *)
Definition wrapDBOSFunctionAndRegister (t : option target) (className : option string)
    (propertyKey : string) (name : option string) (func : fn) : RM nat :=
  ensureDBOSIsNotLaunched ;*
  let* freg := getFunctionRegistration func in
  match freg with
  | Some m => ret m
  | None => getOrCreateMethodRegistration t className (default propertyKey name) func
  end.

(** The function that replaces the decorated one:
    [registration.wrappedFunction ?? registration.registeredFunction] *)
Definition replacement (m : MethodRegistration) : option fn :=
  match mt_wrappedFunction m with Some f => Some f | None => mt_registeredFunction m end.

(** * Configuring a registration *)

(** [MethodRegistration.addEntryInterceptor]: pushing and then sorting by the number, which keeps
    the order of equal ones, on a list that is sorted *)
Fixpoint add_entry (seqNum : Z) (i : interceptor) (onEnter : list (Z * interceptor)) : list (Z * interceptor) :=
  match onEnter with
  | [] => [(seqNum, i)]
  | (n, j) :: rest => if n <=? seqNum then (n, j) :: add_entry seqNum i rest else (seqNum, i) :: (n, j) :: rest
  end.

Definition addEntryInterceptor (m : nat) (seqNum : Z) (i : interceptor) : RM unit :=
  update_method m (fun mr => mr <| mt_onEnter ::= add_entry seqNum i |>).

(** [getAssignedType] *)
Definition getAssignedType (mr : MethodRegistration) : option string :=
  match mt_workflowConfig mr, mt_stepConfig mr with
  | Some _, _ => Some "Workflow"
  | None, Some _ => Some "Step"
  | None, None => None
  end.

(** [checkFuncTypeUnassigned] *)
Definition checkFuncTypeUnassigned (m : nat) (newType : string) : RM unit := fun r =>
  let mr := method m r in
  let op := "Operation (Name: " +:+ method_getClassName mr r +:+ "." +:+ mt_name mr +:+ ") is already registered" in
  match getAssignedType mr with
  | None => (Ok tt, r)
  | Some oldType =>
      if bool_decide (newType = oldType) then conflict (op +:+ ".") r
      else conflict (op +:+ " with a conflicting function type: " +:+ oldType +:+ " vs. " +:+ newType) r
  end.

(** [setWorkflowConfig] and [setStepConfig] *)
Definition setWorkflowConfig (m : nat) (wfCfg : WorkflowConfig) : RM unit :=
  checkFuncTypeUnassigned m "Workflow" ;*
  update_method m (fun mr => mr <| mt_workflowConfig := Some wfCfg |>).

Definition setStepConfig (m : nat) (stepCfg : StepConfig) : RM unit :=
  checkFuncTypeUnassigned m "Step" ;*
  let* r := get in
  match validateStepConfig stepCfg (method_getClassName (method m r) r +:+ "." +:+ mt_name (method m r)) with
  | Some e => throw e
  | None => update_method m (fun mr => mr <| mt_stepConfig := Some stepCfg |>)
  end.

(** * The decorators and registration functions *)

(** The options of a workflow *)
Record WorkflowOptions : Type := WorkflowOptionsOf {
  wo_name : option string;
  wo_config : WorkflowConfig;
  wo_inputSchema : option nat
}.

(** [#getWorkflowInvoker] *)
Definition getWorkflowInvoker (m : nat) (o : WorkflowOptions) : RM fn :=
  setWorkflowConfig m (wo_config o) ;*
  match wo_inputSchema o with
  | Some schema => addEntryInterceptor m 10 (ParseSchema schema)
  | None => ret tt
  end ;*
  let* w := new_address in
  registerFunctionWrapper (Made w) m ;*
  ret (Made w).

(** [DBOS.workflow]: the decorator of the method [func] under [propertyKey]; the function that
    replaces it *)
Definition workflow_decorator (t : target) (propertyKey : string) (o : WorkflowOptions) (func : fn) : RM fn :=
  let* m := wrapDBOSFunctionAndRegisterByUniqueName (Some t) None propertyKey
              (Some (default propertyKey (wo_name o))) func in
  let* invoker := getWorkflowInvoker m o in
  registerFunctionWrapper invoker m ;*
  ret invoker.

(** [DBOS.registerWorkflow]; [fname] is [func.name]. *)
Definition registerWorkflow (t : option target) (className : option string) (o : WorkflowOptions)
    (fname : string) (func : fn) : RM fn :=
  let name := default fname (wo_name o) in
  let* m := wrapDBOSFunctionAndRegisterByUniqueName t className name (Some name) func in
  getWorkflowInvoker m o.

(** [DBOS.step] *)
Definition step_decorator (t : target) (propertyKey : string) (name : option string) (config : StepConfig)
    (func : fn) : RM fn :=
  let* m := wrapDBOSFunctionAndRegisterByUniqueName (Some t) None propertyKey name func in
  setStepConfig m config ;*
  let* w := new_address in
  registerFunctionWrapper (Made w) m ;*
  ret (Made w).

(** [DBOS.registerStep] *)
Definition registerStep (t : option target) (className name : option string) (config : StepConfig)
    (fname : string) (func : fn) : RM fn :=
  let name := default fname name in
  match validateStepConfig config name with
  | Some e => throw e
  | None =>
      let* m := wrapDBOSFunctionAndRegister t className name (Some name) func in
      let* w := new_address in
      registerFunctionWrapper (Made w) m ;*
      ret (Made w)
  end.

(** [DBOS.className] *)
Definition className_decorator (name : string) (k : nat) : RM unit :=
  let* e := getClassRegistration k in
  if negb (bool_decide (ce_name e = "")) && negb (bool_decide (ce_name e = name))
     && negb (bool_decide (ce_name e = ctor_name k))
  then conflict ("Attempt to assign name " +:+ name +:+ " to class " +:+ ctor_name k
                 +:+ ", which has already been aliased to " +:+ ce_name e)
  else fun r => (Ok tt, r <| classesByCtor ::= set_ctor k (fun e => CtorEntryOf name (ce_reg e)) |>).

(** [registerMiddlewareInstaller] of the authorization checker, [registerAuthChecker] *)
Definition registerAuthChecker : RM unit := fun r =>
  if installedMiddleware r
  then (Throw (JsTypeError "Attempt to provide method middleware after insertion was performed"), r)
  else (Ok tt, r <| authMiddleware := true |>).

(** [associateMethodWithExternal] *)
Definition associateMethodWithExternal (external : string) (t : option target) (className : option string)
    (funcName : string) (func : fn) : RM nat :=
  let* m := wrapDBOSFunctionAndRegister t className funcName (Some funcName) func in
  update_method m (fun mr => mr <| mt_externalRegInfo ::=
    (fun i => match i !! external with Some _ => i | None => <[external := no_info]> i end) |>) ;*
  ret m.

(** [associateClassWithExternal] of a class *)
Definition associateClassWithExternal (external : string) (k : nat) : RM nat :=
  let* e := getClassRegistration k in
  update_class (ce_reg e) (fun cr => cr <| cl_externalRegInfo ::=
    (fun i => match i !! external with Some _ => i | None => <[external := no_info]> i end) |>) ;*
  ret (ce_reg e).

(** [DBOS.requiredRole] *)
Definition requiredRole_decorator (t : target) (propertyKey : string) (anyOf : list string) (func : fn)
    : RM (option fn) :=
  let* m := associateMethodWithExternal DBOS_AUTH (Some t) None propertyKey func in
  update_method m (fun mr => mr <| mt_externalRegInfo ::= <[DBOS_AUTH := ExternalInfoOf (Some anyOf)]> |>) ;*
  registerAuthChecker ;*
  let* mr := get_method m in
  ret (replacement mr).

(** [DBOS.defaultRequiredRole] *)
Definition defaultRequiredRole_decorator (anyOf : list string) (k : nat) : RM unit :=
  let* c := associateClassWithExternal DBOS_AUTH k in
  update_class c (fun cr => cr <| cl_externalRegInfo ::= <[DBOS_AUTH := ExternalInfoOf (Some anyOf)]> |>) ;*
  registerAuthChecker.

(** [registerTransactionalDataSource] and [getTransactionalDataSource] *)
Definition registerTransactionalDataSource (name : string) (ds : nat) : RM unit := fun r =>
  match transactionalDataSources r !! name with
  | Some ds' => if Nat.eqb ds' ds then (Ok tt, r)
                else conflict ("Data source with name " +:+ name +:+ " is already registered") r
  | None => (ensureDBOSIsNotLaunched ;*
             (fun r => (Ok tt, r <| transactionalDataSources ::= <[name := ds]> |>))) r
  end.

Definition getTransactionalDataSource (name : string) : RM nat := fun r =>
  match transactionalDataSources r !! name with
  | Some ds => (Ok ds, r)
  | None => (Throw (DBOSNotRegisteredError name (Some ("Data source '" +:+ name +:+ "' is not registered"))), r)
  end.

(** * Launching *)

(** [setName] of [finalizeClassRegistrations] *)
Definition named_in (cr : ClassRegistration) (m : nat) : bool :=
  existsb (fun kv => Nat.eqb kv.2 m) (map_to_list (cl_registeredOperationsByName cr)).

Definition setName (c : nat) (cname : string) : RM unit := fun r =>
  let cr := class c r in
  (Ok tt, r <| rs_classes ::= alter (fun cr => cr <| cl_name := cname |> <| cl_needsInitialized := false |>) c |>
            <| rs_methods ::= map_imap (fun m mr => Some (if named_in cr m then mr <| mt_className := cname |> else mr)) |>).

(** One round of [finalizeClassRegistrations] *)
Definition finalize_class (k : nat) : RM unit := fun r =>
  match find_ctor k (classesByCtor r) with
  | None => (Ok tt, r)
  | Some e =>
      let cname := first_nonempty (ce_name e) (first_nonempty (cl_name (class (ce_reg e) r)) (ctor_name k)) in
      let accept :=
        (fun r => (Ok tt, r <| classesByName ::= <[cname := NameEntryOf (ce_reg e) (Some k)]> |>
                            <| classesByCtor ::= set_ctor k (fun e => CtorEntryOf cname (ce_reg e)) |>)) ;*
        setName (ce_reg e) cname in
      match classesByName r !! cname with
      | None => accept r
      | Some ereg =>
          if match ne_ctor ereg with Some k' => negb (Nat.eqb k' k) | None => false end
          then conflict ("Class " +:+ cname +:+ "(" +:+ ctor_name k
                         +:+ ") has been given a name that conflicts with another class "
                         +:+ match ne_ctor ereg with Some k' => ctor_name k' | None => "" end +:+ ".") r
          else if negb (Nat.eqb (ne_reg ereg) (ce_reg e))
          then conflict ("Class: " +:+ cname +:+ "(" +:+ ctor_name k
                         +:+ ") has been given a name that was registered directly by name without a class.") r
          else accept r
      end
  end.

(** [finalizeClassRegistrations] *)
Fixpoint finalize_classes (ks : list nat) : RM unit :=
  match ks with
  | [] => ret tt
  | k :: ks' => finalize_class k ;* finalize_classes ks'
  end.

Definition finalizeClassRegistrations : RM unit := fun r => finalize_classes (fst <$> classesByCtor r) r.

(** The required roles in registered information *)
Definition info_roles (i : gmap string ExternalInfo) : option (list string) := i !! DBOS_AUTH ≫= requiredRole.

Definition defaults_roles (mr : MethodRegistration) (r : Registry) : option (list string) :=
  c ← mt_defaults mr; info_roles (cl_externalRegInfo (class c r)).

(** [getRequiredRoles] *)
Definition getRequiredRoles (mr : MethodRegistration) (r : Registry) : list string :=
  match info_roles (mt_externalRegInfo mr) with
  | Some roles => roles
  | None => default [] (defaults_roles mr r)
  end.

(** [AuthChecker.installMiddleware] *)
Definition installMiddleware (m : nat) : RM unit := fun r =>
  let mr := method m r in
  let shouldCheck := bool_decide (is_Some (defaults_roles mr r))
                     || bool_decide (is_Some (info_roles (mt_externalRegInfo mr))) in
  if shouldCheck then addEntryInterceptor m 10 CheckMethodAuth r else (Ok tt, r).

(** [getAllClassRegistrations] *)
Definition getAllClassRegistrations (r : Registry) : list nat :=
  remove_dups ((ne_reg <$> (map_to_list (classesByName r)).*2) ++ (ce_reg <$> (classesByCtor r).*2)).

(** [insertAllMiddleware], with the authorization checker as the only installer *)
Definition insertAllMiddleware : RM unit := fun r =>
  if installedMiddleware r then (Ok tt, r)
  else
    (for_each (fun c => let* cr := get_class c in
                 for_each (fun m => if authMiddleware r then installMiddleware m else ret tt)
                   (map_to_list (cl_allRegisteredOperations cr)).*2)
       (getAllClassRegistrations r))
      (r <| installedMiddleware := true |>).

(** What [DBOS.launch] does to the registries *)
Definition launch : RM unit := fun r =>
  if dbosLaunched r then (Ok tt, r)
  else (finalizeClassRegistrations ;* insertAllMiddleware ;* recordDBOSLaunch) r.

(** * Calling a registered function *)

(** [checkMethodAuth]: the role that is assumed *)
Definition checkMethodAuth (name : string) (requiredRoles authenticatedRoles : list string)
    (assumedRole : option string) : dbos_error + option string :=
  match requiredRoles with
  | [] => inr assumedRole
  | _ =>
      match List.find (fun role => bool_decide (role ∈ authenticatedRoles)) requiredRoles with
      | Some role => inr (Some role)
      | None => inl (DBOSNotAuthorizedError ("User does not have a role with permission to call " +:+ name) 403)
      end
  end.

(** The wrapper of [getOrCreateMethodRegistration]: the interceptors, in order, and then the
    function, on what they made of the arguments and under the role that was assumed *)
Section call.
Context {A B : Type} (parse : nat -> A -> dbos_error + A) (body : A -> option string -> dbos_error + B).

Fixpoint run_interceptors (mr : MethodRegistration) (r : Registry) (user : list string)
    (l : list (Z * interceptor)) (args : A) (assumedRole : option string) : dbos_error + A * option string :=
  match l with
  | [] => inr (args, assumedRole)
  | (_, ParseSchema s) :: l' =>
      match parse s args with
      | inl e => inl e
      | inr args' => run_interceptors mr r user l' args' assumedRole
      end
  | (_, CheckMethodAuth) :: l' =>
      match checkMethodAuth (mt_name mr) (getRequiredRoles mr r) user assumedRole with
      | inl e => inl e
      | inr role => run_interceptors mr r user l' args role
      end
  end.

Definition call_registered (mr : MethodRegistration) (r : Registry) (user : list string) (args : A)
    (assumedRole : option string) : dbos_error + B :=
  match run_interceptors mr r user (mt_onEnter mr) args assumedRole with
  | inl e => inl e
  | inr (args', role) => body args' role
  end.
End call.

End registry.

(** * Programs that register *)

(** One registration of a module that is loaded *)
Inductive registration : Type :=
| Workflow (t : target) (propertyKey : string) (o : WorkflowOptions) (f : fn)
| RegisterWorkflow (t : option target) (className : option string) (o : WorkflowOptions) (fname : string) (f : fn)
| Step (t : target) (propertyKey : string) (name : option string) (config : StepConfig) (f : fn)
| RegisterStep (t : option target) (className name : option string) (config : StepConfig) (fname : string) (f : fn)
| ClassName (name : string) (k : nat)
| RequiredRole (t : target) (propertyKey : string) (anyOf : list string) (f : fn)
| DefaultRequiredRole (anyOf : list string) (k : nat)
| NewInstance (k inst : nat) (name : string)
| AssociateFunction (external : string) (t : option target) (className : option string) (name : string) (f : fn)
| AssociateClass (external : string) (k : nat)
| DataSource (name : string) (ds : nat).

Section programs.
Context (ctor_name : nat -> string).

Definition discard {A} (m : RM A) : RM unit := m ;* ret tt.

Definition perform (x : registration) : RM unit :=
  match x with
  | Workflow t key o f => discard (workflow_decorator ctor_name t key o f)
  | RegisterWorkflow t cls o fname f => discard (registerWorkflow ctor_name t cls o fname f)
  | Step t key name config f => discard (step_decorator ctor_name t key name config f)
  | RegisterStep t cls name config fname f => discard (registerStep ctor_name t cls name config fname f)
  | ClassName name k => className_decorator ctor_name name k
  | RequiredRole t key anyOf f => discard (requiredRole_decorator ctor_name t key anyOf f)
  | DefaultRequiredRole anyOf k => defaultRequiredRole_decorator ctor_name anyOf k
  | NewInstance k inst name => registerClassInstance ctor_name k inst name
  | AssociateFunction ext t cls name f => discard (associateMethodWithExternal ctor_name ext t cls name f)
  | AssociateClass ext k => discard (associateClassWithExternal ctor_name ext k)
  | DataSource name ds => registerTransactionalDataSource name ds
  end.

(** The registries after the registrations, those that failed included *)
Definition register_all (xs : list registration) (r : Registry) : Registry :=
  fold_left (fun r x => (perform x r).2) xs r.

End programs.
