(* ===== verification/Registered.v ===== *)
(** What the registries of Registry.v guarantee: an invariant that every registration keeps,
    those that fail included; that the functions a launched program has registered are found
    again under the names stored with their workflows; and that the required roles are checked
    before the body of any registered function. *)

From S2P Require Export Registry.

Open Scope Z_scope.

(** * The invariant before the launch *)

(** [m] is a registration that has been named. *)
Definition registered (m : nat) (r : Registry) : Prop :=
  exists mr, rs_methods r !! m = Some mr /\ mt_needInitialized mr = false.

(** Class registrations and their entries, registrations and the operations of their class agree,
    and the authorization checker is there as soon as roles are required. *)
Record registering (r : Registry) : Prop := {
  rk_not_launched : dbosLaunched r = false;
  rk_not_installed : installedMiddleware r = false;
  rk_fresh_class : forall c cr, rs_classes r !! c = Some cr -> (c < rs_fresh r)%nat;
  rk_fresh_method : forall m mr, rs_methods r !! m = Some mr -> (m < rs_fresh r)%nat;
  rk_by_name : forall n e, classesByName r !! n = Some e ->
    ne_ctor e = None /\ exists cr, rs_classes r !! ne_reg e = Some cr
      /\ cl_name cr = n /\ cl_ctor cr = None /\ cl_needsInitialized cr = false;
  rk_by_ctor : forall k e, find_ctor k (classesByCtor r) = Some e ->
    exists cr, rs_classes r !! ce_reg e = Some cr /\ cl_name cr = "" /\ cl_ctor cr = Some k;
  rk_class : forall c cr, rs_classes r !! c = Some cr ->
    match cl_ctor cr with
    | Some k => exists e, find_ctor k (classesByCtor r) = Some e /\ ce_reg e = c
    | None => exists e, classesByName r !! cl_name cr = Some e /\ ne_reg e = c
    end;
  rk_named : forall c cr n m, rs_classes r !! c = Some cr ->
    cl_registeredOperationsByName cr !! n = Some m -> is_Some (rs_methods r !! m);
  rk_operation : forall c cr f m, rs_classes r !! c = Some cr ->
    cl_allRegisteredOperations cr !! f = Some m ->
    exists mr, rs_methods r !! m = Some mr /\ mt_classReg mr = c;
  rk_method : forall m mr, rs_methods r !! m = Some mr ->
    exists cr, rs_classes r !! mt_classReg mr = Some cr
      /\ (exists f, cl_allRegisteredOperations cr !! f = Some m)
      /\ (mt_needInitialized mr = false -> mt_defaults mr = Some (mt_classReg mr) /\ mt_className mr = cl_name cr);
  rk_function : forall f m, functionToRegistration r !! f = Some m -> registered m r;
  rk_roles : (exists m mr, rs_methods r !! m = Some mr /\ is_Some (info_roles (mt_externalRegInfo mr)))
             \/ (exists c cr, rs_classes r !! c = Some cr /\ is_Some (info_roles (cl_externalRegInfo cr))) ->
             authMiddleware r = true
}.

Lemma find_ctor_app k l1 l2 :
  find_ctor k (l1 ++ l2) = match find_ctor k l1 with Some e => Some e | None => find_ctor k l2 end.
Proof. induction l1 as [|[k' e] l1 IH]; simpl; [done|]. by destruct (Nat.eqb k k'). Qed.

Lemma find_set_ctor k k' f l :
  find_ctor k (set_ctor k' f l)
  = if Nat.eqb k k' then f <$> find_ctor k l else find_ctor k l.
Proof.
  induction l as [|[k0 e] l IH]; simpl; [by destruct (Nat.eqb k k')|].
  destruct (Nat.eqb_spec k' k0) as [->|H0]; simpl.
  - destruct (Nat.eqb_spec k k0) as [->|]; [by rewrite ?Nat.eqb_refl|done].
  - rewrite IH. destruct (Nat.eqb_spec k k0) as [->|]; [|done].
    destruct (Nat.eqb_spec k0 k') as [->|]; done.
Qed.

(** ** What keeps the invariant *)

(** Changes of a class registration that the invariant does not see *)
Definition class_kept (f : ClassRegistration -> ClassRegistration) : Prop := forall cr,
  cl_name (f cr) = cl_name cr /\ cl_needsInitialized (f cr) = cl_needsInitialized cr
  /\ cl_ctor (f cr) = cl_ctor cr /\ cl_allRegisteredOperations (f cr) = cl_allRegisteredOperations cr.

(** Changes of a registration that the invariant does not see *)
Definition method_kept (f : MethodRegistration -> MethodRegistration) : Prop := forall mr,
  mt_classReg (f mr) = mt_classReg mr /\ mt_needInitialized (f mr) = mt_needInitialized mr
  /\ mt_defaults (f mr) = mt_defaults mr /\ mt_className (f mr) = mt_className mr.

Lemma registering_update_class r c f :
  class_kept f -> registering r ->
  (forall cr n m, rs_classes r !! c = Some cr -> cl_registeredOperationsByName (f cr) !! n = Some m ->
     is_Some (rs_methods r !! m)) ->
  (forall cr, rs_classes r !! c = Some cr -> is_Some (info_roles (cl_externalRegInfo (f cr))) ->
     authMiddleware r = true) ->
  registering (r <| rs_classes ::= alter f c |>).
Proof.
  intros Hf [H1 H2 H3 H4 H5 H6 H7 H8 H9 H10 H11 H12] Hn Hr.
  assert (forall c' cr', alter f c (rs_classes r) !! c' = Some cr' -> exists cr,
    rs_classes r !! c' = Some cr /\ (cr' = cr /\ c' <> c \/ cr' = f cr /\ c' = c)) as Hinv.
  { intros c' cr' H. destruct (decide (c' = c)) as [->|Hne].
    - rewrite lookup_alter_eq in H. apply fmap_Some in H as (cr & Hc & ->). eauto 10.
    - rewrite lookup_alter_ne in H by done. eauto 10. }
  assert (forall c' cr, rs_classes r !! c' = Some cr -> exists cr', alter f c (rs_classes r) !! c' = Some cr'
    /\ cl_name cr' = cl_name cr /\ cl_needsInitialized cr' = cl_needsInitialized cr /\ cl_ctor cr' = cl_ctor cr
    /\ cl_allRegisteredOperations cr' = cl_allRegisteredOperations cr) as Hfwd.
  { intros c' cr H. destruct (decide (c' = c)) as [->|Hne].
    - rewrite lookup_alter_eq, H. eexists. split; [reflexivity|]. destruct (Hf cr) as (? & ? & ? & ?). done.
    - rewrite lookup_alter_ne by done. eauto 10. }
  split; cbn [dbosLaunched installedMiddleware rs_classes rs_methods rs_fresh classesByName classesByCtor
              functionToRegistration authMiddleware].
  - done.
  - done.
  - intros c' cr' (cr & Hc & _)%Hinv. by eapply H3.
  - done.
  - intros n e He. destruct (H5 n e He) as (? & cr & Hc & ? & ? & ?).
    destruct (Hfwd _ _ Hc) as (cr' & ? & E1 & E2 & E3 & _). split; [done|]. exists cr'. rewrite E1, E2, E3. done.
  - intros k e He. destruct (H6 k e He) as (cr & Hc & ? & ?).
    destruct (Hfwd _ _ Hc) as (cr' & ? & E1 & E2 & E3 & _). exists cr'. rewrite E1, E3. done.
  - intros c' cr' (cr & Hc & [[-> _]|[-> _]])%Hinv; [by apply H7|].
    destruct (Hf cr) as (E1 & _ & E3 & _). rewrite E1, E3. by apply H7.
  - intros c' cr' n m (cr & Hc & [[-> _]|[-> ->]])%Hinv; [by eapply H8|]. by apply Hn.
  - intros c' cr' g m (cr & Hc & [[-> _]|[-> _]])%Hinv; [by apply H9|].
    destruct (Hf cr) as (_ & _ & _ & E4). rewrite E4. by apply H9.
  - intros m mr Hm. destruct (H10 m mr Hm) as (cr & Hc & Ha & Hi). destruct (Hfwd _ _ Hc) as (cr' & ? & E1 & _ & _ & E4).
    exists cr'. rewrite E1, E4. done.
  - done.
  - intros [?|(c' & cr' & Hc' & Hs)]; [by apply H12; left|].
    apply Hinv in Hc' as (cr & Hc & [[-> _]|[-> ->]]); [apply H12; right; eauto|by apply (Hr cr)].
Qed.

Lemma registering_update_method r m f :
  method_kept f -> registering r ->
  (forall mr, rs_methods r !! m = Some mr -> is_Some (info_roles (mt_externalRegInfo (f mr))) ->
     authMiddleware r = true) ->
  registering (r <| rs_methods ::= alter f m |>).
Proof.
  intros Hf [H1 H2 H3 H4 H5 H6 H7 H8 H9 H10 H11 H12] Hr.
  assert (forall m' mr', alter f m (rs_methods r) !! m' = Some mr' -> exists mr,
    rs_methods r !! m' = Some mr /\ (mr' = mr \/ mr' = f mr /\ m' = m)) as Hinv.
  { intros m' mr' H. destruct (decide (m' = m)) as [->|Hne].
    - rewrite lookup_alter_eq in H. apply fmap_Some in H as (mr & Hc & ->). eauto 10.
    - rewrite lookup_alter_ne in H by done. eauto 10. }
  assert (forall m' mr, rs_methods r !! m' = Some mr -> exists mr', alter f m (rs_methods r) !! m' = Some mr'
    /\ mt_classReg mr' = mt_classReg mr /\ mt_needInitialized mr' = mt_needInitialized mr) as Hfwd.
  { intros m' mr H. destruct (decide (m' = m)) as [->|Hne].
    - rewrite lookup_alter_eq, H. eexists. split; [reflexivity|]. by destruct (Hf mr) as (? & ? & _).
    - rewrite lookup_alter_ne by done. eauto. }
  split; cbn [dbosLaunched installedMiddleware rs_classes rs_methods rs_fresh classesByName classesByCtor
              functionToRegistration authMiddleware]; try done.
  - intros m' mr' (mr & Hc & _)%Hinv. by eapply H4.
  - intros c cr n m' Hc Hn. destruct (H8 _ _ _ _ Hc Hn) as [mr Hm]. apply Hfwd in Hm as (? & ? & _). eauto.
  - intros c cr g m' Hc Hn. destruct (H9 _ _ _ _ Hc Hn) as (mr & Hm & E). apply Hfwd in Hm as (mr' & ? & E' & _).
    exists mr'. by rewrite E'.
  - intros m' mr' (mr & Hm & [->|[-> ->]])%Hinv; [by apply H10|].
    destruct (Hf mr) as (E1 & E2 & E3 & E4). rewrite E1, E2, E3, E4. by apply H10.
  - intros g m' Hg. destruct (H11 _ _ Hg) as (mr & Hm & Hi). apply Hfwd in Hm as (mr' & ? & _ & E'). exists mr'. by rewrite E'.
  - intros [(m' & mr' & Hm & Hs)|?]; [|by apply H12; right].
    apply Hinv in Hm as (mr & Hm & [->|[-> ->]]); [apply H12; left; eauto|by apply (Hr mr)].
Qed.

(** The function [f] is one of the registration [m]. *)
Lemma registering_function r f m :
  registering r -> registered m r ->
  registering (r <| functionToRegistration ::= <[f := m]> |>).
Proof.
  intros [] Hm. split; try done. intros g m' Hg. change (<[f := m]> (functionToRegistration r) !! g = Some m') in Hg.
  apply lookup_insert_Some in Hg as [[<- <-]|[_ Hg]]; eauto.
Qed.

Lemma registering_fresh r : registering r -> registering (r <| rs_fresh ::= S |>).
Proof.
  intros []. split; try done.
  - intros c cr Hc. specialize (rk_fresh_class0 _ _ Hc). change (c < S (rs_fresh r))%nat. lia.
  - intros c cr Hc. specialize (rk_fresh_method0 _ _ Hc). change (c < S (rs_fresh r))%nat. lia.
Qed.

(** The name that an entry gives a class *)
Lemma registering_entry r k name :
  registering r -> registering (r <| classesByCtor ::= set_ctor k (fun e => CtorEntryOf name (ce_reg e)) |>).
Proof.
  intros []. split; try done.
  - intros k' e He. change (find_ctor k' (set_ctor k (fun e => CtorEntryOf name (ce_reg e)) (classesByCtor r)) = Some e) in He.
    rewrite find_set_ctor in He. destruct (Nat.eqb k' k); [|by apply rk_by_ctor0].
    apply fmap_Some in He as (e' & He & ->). exact (rk_by_ctor0 k' e' He).
  - intros c cr Hc. specialize (rk_class0 _ _ Hc). destruct (cl_ctor cr) as [k'|]; [|done].
    destruct rk_class0 as (e & He & <-).
    change (exists e0, find_ctor k' (set_ctor k (fun e => CtorEntryOf name (ce_reg e)) (classesByCtor r)) = Some e0 /\ ce_reg e0 = ce_reg e).
    rewrite find_set_ctor, He. destruct (Nat.eqb k' k); simpl; eauto.
Qed.

Lemma registering_new_class r cr :
  registering r -> cl_registeredOperationsByName cr = ∅ -> cl_allRegisteredOperations cr = ∅ ->
  cl_externalRegInfo cr = ∅ ->
  let c := rs_fresh r in
  (forall k name,
     cl_ctor cr = Some k -> cl_name cr = "" -> find_ctor k (classesByCtor r) = None ->
     registering (r <| rs_fresh ::= S |> <| rs_classes ::= <[c := cr]> |>
                    <| classesByCtor ::= (fun l => l ++ [(k, CtorEntryOf name c)]) |>))
  /\ (cl_ctor cr = None -> cl_needsInitialized cr = false -> classesByName r !! cl_name cr = None ->
     registering (r <| rs_fresh ::= S |> <| rs_classes ::= <[c := cr]> |>
                    <| classesByName ::= <[cl_name cr := NameEntryOf c None]> |>)).
Proof.
  intros [H1 H2 H3 H4 H5 H6 H7 H8 H9 H10 H11 H12] E1 E2 E3 c.
  assert (forall c' cr', rs_classes r !! c' = Some cr' -> <[c := cr]> (rs_classes r) !! c' = Some cr') as Hfwd.
  { intros c' cr' Hc. rewrite lookup_insert_ne; [done|]. intros <-. apply H3 in Hc. unfold c in Hc. lia. }
  assert (forall c' cr', <[c := cr]> (rs_classes r) !! c' = Some cr' ->
    c' = c /\ cr' = cr \/ rs_classes r !! c' = Some cr') as Hinv.
  { intros c' cr' Hc. apply lookup_insert_Some in Hc as [[<- <-]|[_ Hc]]; auto. }
  assert (forall c' cr', <[c := cr]> (rs_classes r) !! c' = Some cr' -> (c' < S (rs_fresh r))%nat) as F3.
  { intros c' cr' [[-> _]|Hc]%Hinv; [unfold c; lia|]. apply H3 in Hc. lia. }
  assert (forall m mr, rs_methods r !! m = Some mr -> (m < S (rs_fresh r))%nat) as F4.
  { intros m mr Hm. apply H4 in Hm. lia. }
  assert (forall c' cr' n m, <[c := cr]> (rs_classes r) !! c' = Some cr' ->
    cl_registeredOperationsByName cr' !! n = Some m -> is_Some (rs_methods r !! m)) as F8.
  { intros c' cr' n m [[_ ->]|Hc]%Hinv; [by rewrite E1, lookup_empty|by eapply H8]. }
  assert (forall c' cr' f m, <[c := cr]> (rs_classes r) !! c' = Some cr' ->
    cl_allRegisteredOperations cr' !! f = Some m -> exists mr, rs_methods r !! m = Some mr /\ mt_classReg mr = c') as F9.
  { intros c' cr' f m [[_ ->]|Hc]%Hinv; [by rewrite E2, lookup_empty|by eapply H9]. }
  assert (forall m mr, rs_methods r !! m = Some mr -> exists cr0, <[c := cr]> (rs_classes r) !! mt_classReg mr = Some cr0
      /\ (exists f, cl_allRegisteredOperations cr0 !! f = Some m)
      /\ (mt_needInitialized mr = false -> mt_defaults mr = Some (mt_classReg mr) /\ mt_className mr = cl_name cr0)) as F10.
  { intros m mr Hm. destruct (H10 m mr Hm) as (cr0 & Hc & ?). exists cr0. auto. }
  assert ((exists m mr, rs_methods r !! m = Some mr /\ is_Some (info_roles (mt_externalRegInfo mr)))
      \/ (exists c' cr', <[c := cr]> (rs_classes r) !! c' = Some cr' /\ is_Some (info_roles (cl_externalRegInfo cr'))) ->
      authMiddleware r = true) as F12.
  { intros [?|(c' & cr' & Hc & Hs)]; [by apply H12; left|]. apply Hinv in Hc as [[_ ->]|Hc].
    - rewrite E3 in Hs. unfold info_roles in Hs. rewrite lookup_empty in Hs. by destruct Hs.
    - apply H12. right. eauto. }
  split.
  - intros k name Ek En Hk.
    assert (forall k', find_ctor k' (classesByCtor r ++ [(k, CtorEntryOf name c)])
      = match find_ctor k' (classesByCtor r) with
        | Some e => Some e
        | None => if Nat.eqb k' k then Some (CtorEntryOf name c) else None
        end) as Hlk by (intros k'; by rewrite find_ctor_app).
    split; try done.
    + intros n e He. destruct (H5 n e He) as (? & cr0 & Hc & ?). split; [done|]. exists cr0.
      split; [by apply Hfwd|done].
    + intros k' e He. assert (He' := eq_trans (eq_sym (Hlk k')) He). clear He; rename He' into He.
      destruct (find_ctor k' (classesByCtor r)) as [e'|] eqn:Ef.
      * injection He as <-. destruct (H6 _ _ Ef) as (cr0 & Hc & ?). exists cr0. split; [by apply Hfwd|done].
      * destruct (Nat.eqb_spec k' k) as [->|]; [|done]. injection He as <-. exists cr.
        split; [apply lookup_insert_eq|done].
    + intros c' cr' [[-> ->]|Hc]%Hinv.
      * rewrite Ek. exists (CtorEntryOf name c). split; [|done]. etrans; [apply Hlk|]. by rewrite Hk, Nat.eqb_refl.
      * specialize (H7 _ _ Hc). destruct (cl_ctor cr') as [k'|]; [|done]. destruct H7 as (e & He & <-).
        exists e. split; [|done]. etrans; [apply Hlk|]. by rewrite He.
  - intros Ek Ei Hk.
    split; try done.
    + intros n e He. change (<[cl_name cr := NameEntryOf c None]> (classesByName r) !! n = Some e) in He.
      apply lookup_insert_Some in He as [[<- <-]|[_ He]].
      * split; [done|]. exists cr. split; [apply lookup_insert_eq|done].
      * destruct (H5 n e He) as (? & cr0 & Hc & ?). split; [done|]. exists cr0.
        split; [by apply Hfwd|done].
    + intros k' e He. destruct (H6 _ _ He) as (cr0 & Hc & ?). exists cr0. split; [by apply Hfwd|done].
    + intros c' cr' [[-> ->]|Hc]%Hinv.
      * rewrite Ek. exists (NameEntryOf c None). split; [apply lookup_insert_eq|done].
      * specialize (H7 _ _ Hc). destruct (cl_ctor cr') as [k'|]; [done|]. destruct H7 as (e & He & <-).
        exists e. split; [|done]. etrans; [apply lookup_insert_ne|exact He]. intros E. rewrite E in Hk. congruence.
Qed.

(** ** Programs that keep it *)

Section registered.
Context (ctor_name : nat -> string).

(** From [r], [p] keeps the invariant, and [Q] holds of what it returns. *)
Definition keeps {A} (p : RM A) (Q : A -> Registry -> Prop) (r : Registry) : Prop :=
  registering (p r).2 /\ match (p r).1 with Ok x => Q x (p r).2 | Throw _ => True end.

Lemma keeps_ret {A} (x : A) (Q : A -> Registry -> Prop) r : registering r -> Q x r -> keeps (ret x) Q r.
Proof. done. Qed.

Lemma keeps_throw {A} e (Q : A -> Registry -> Prop) r : registering r -> keeps (throw e) Q r.
Proof. done. Qed.

Lemma keeps_bind {A B} (p : RM A) (k : A -> RM B) Q R r :
  keeps p Q r -> (forall x r', registering r' -> Q x r' -> keeps (k x) R r') -> keeps (bind p k) R r.
Proof.
  unfold keeps, bind. intros [H1 H2] Hk. destruct (p r) as [[x|e] r']; simpl in *; [by apply Hk|done].
Qed.

Lemma keeps_weaken {A} (p : RM A) (Q R : A -> Registry -> Prop) r :
  keeps p Q r -> (forall x r', registering r' -> Q x r' -> R x r') -> keeps p R r.
Proof. unfold keeps. intros [H1 H2] HQ. split; [done|]. destruct (p r) as [[x|e] r']; simpl in *; auto. Qed.

(** Classes stay, and so do registrations. *)
Definition grows (r r' : Registry) : Prop :=
  (forall c, is_Some (rs_classes r !! c) -> is_Some (rs_classes r' !! c))
  /\ (forall m, registered m r -> registered m r').

Lemma grows_refl r : grows r r.
Proof. done. Qed.

Lemma grows_trans r1 r2 r3 : grows r1 r2 -> grows r2 r3 -> grows r1 r3.
Proof. intros [A1 A2] [B1 B2]. split; auto. Qed.

Lemma alter_is_Some {K A} `{Countable K} (f : A -> A) k (t : gmap K A) k' :
  is_Some (t !! k') -> is_Some (alter f k t !! k').
Proof.
  intros [x Hx]. destruct (decide (k' = k)) as [->|Hne];
    [rewrite lookup_alter_eq|rewrite lookup_alter_ne by done]; rewrite Hx; eauto.
Qed.

Lemma insert_is_Some' {K A} `{Countable K} k (x : A) (t : gmap K A) k' :
  is_Some (t !! k') -> is_Some (<[k := x]> t !! k').
Proof. intros Hx. destruct (decide (k = k')) as [->|]; [rewrite lookup_insert_eq|rewrite lookup_insert_ne by done]; eauto. Qed.

Lemma grows_update_class r c f : grows r (r <| rs_classes ::= alter f c |>).
Proof. split; [|done]. intros c' Hc. by apply (alter_is_Some f c (rs_classes r)). Qed.

Lemma grows_update_method r m f : method_kept f -> grows r (r <| rs_methods ::= alter f m |>).
Proof.
  intros Hf. split; [done|]. intros m' (mr & Hm & Hi). destruct (decide (m' = m)) as [->|Hne].
  - exists (f mr). destruct (Hf mr) as (_ & -> & _). split; [|done].
    change (alter f m (rs_methods r) !! m = Some (f mr)). by rewrite lookup_alter_eq, Hm.
  - exists mr. split; [|done]. change (alter f m (rs_methods r) !! m' = Some mr). by rewrite lookup_alter_ne.
Qed.

Lemma class_lookup r c cr : rs_classes r !! c = Some cr -> class c r = cr.
Proof. unfold class. by intros ->. Qed.

Lemma method_lookup r m mr : rs_methods r !! m = Some mr -> method m r = mr.
Proof. unfold method. by intros ->. Qed.

(** *** Classes *)

(** What finding a class leaves: the class [c], and everything that was there *)
Definition class_found (r : Registry) (c : nat) (r' : Registry) : Prop :=
  is_Some (rs_classes r' !! c) /\ grows r r' /\ functionToRegistration r' = functionToRegistration r.

Lemma keeps_getClassRegistration k r :
  registering r -> keeps (getClassRegistration ctor_name k) (fun e => class_found r (ce_reg e)) r.
Proof.
  intros Hr. unfold keeps, getClassRegistration. destruct (find_ctor k (classesByCtor r)) as [e|] eqn:Ek.
  - destruct (rk_by_ctor r Hr k e Ek) as (cr & Hc & _). split; [done|]. split; [by eexists|]. split; [apply grows_refl|done].
  - split; [|split; [eexists; apply lookup_insert_eq|]].
    + apply (registering_new_class r (no_class <| cl_ctor := Some k |>)); done.
    + split; [|done]. split; [|done]. intros c Hc. by apply (insert_is_Some' (rs_fresh r) _ (rs_classes r)).
Qed.

Lemma keeps_getClassRegistrationByName name r :
  registering r -> keeps (getClassRegistrationByName name true) (class_found r) r.
Proof.
  intros Hr. unfold keeps, getClassRegistrationByName. destruct (classesByName r !! name) as [e|] eqn:En.
  - destruct (rk_by_name r Hr name e En) as (_ & cr & Hc & _ & _ & Hi).
    rewrite (class_lookup _ _ _ Hc), Hi. split; [done|]. split; [by eexists|]. split; [apply grows_refl|done].
  - split; [|split; [eexists; apply lookup_insert_eq|]].
    + exact (proj2 (registering_new_class r (no_class <| cl_name := name |> <| cl_needsInitialized := false |>)
        Hr eq_refl eq_refl eq_refl) eq_refl eq_refl En).
    + split; [|done]. split; [|done]. intros c Hc. by apply (insert_is_Some' (rs_fresh r) _ (rs_classes r)).
Qed.

Lemma keeps_getOrCreateClassRegistration t cls r :
  registering r -> keeps (getOrCreateClassRegistration ctor_name t cls) (fun p => class_found r p.1) r.
Proof.
  intros Hr. unfold getOrCreateClassRegistration. destruct t as [t|].
  2:{ eapply keeps_bind; [by apply keeps_getClassRegistrationByName|]. intros c r' Hr' Hc. by apply keeps_ret. }
  destruct cls as [cls|].
  - eapply keeps_bind; [by apply keeps_getClassRegistration|]. intros e r' Hr' (He & Hg).
    destruct (_ && _); [by apply keeps_throw|]. split; [by apply registering_entry|]. split; [exact He|exact Hg].
  - eapply keeps_bind; [by apply keeps_getClassRegistration|]. intros e r' Hr' Hc. by apply keeps_ret.
Qed.

(** *** Functions *)

Lemma keeps_update_method m f (Q : Registry -> Prop) r :
  registering r -> method_kept f ->
  (forall mr, rs_methods r !! m = Some mr -> is_Some (info_roles (mt_externalRegInfo (f mr))) ->
     is_Some (info_roles (mt_externalRegInfo mr))) ->
  (forall r', grows r r' -> Q r') -> keeps (update_method m f) (fun _ => Q) r.
Proof.
  intros Hr Hf Hi HQ. split; [|by apply HQ, grows_update_method].
  apply registering_update_method; [done|done|]. intros mr Hm Hs. apply (rk_roles r Hr). left. eauto.
Qed.

Lemma keeps_update_class c f (Q : Registry -> Prop) r :
  registering r -> class_kept f ->
  (forall cr n m, rs_classes r !! c = Some cr -> cl_registeredOperationsByName (f cr) !! n = Some m ->
     is_Some (rs_methods r !! m)) ->
  (forall cr, rs_classes r !! c = Some cr -> is_Some (info_roles (cl_externalRegInfo (f cr))) ->
     is_Some (info_roles (cl_externalRegInfo cr))) ->
  (forall r', grows r r' -> Q r') -> keeps (update_class c f) (fun _ => Q) r.
Proof.
  intros Hr Hf Hn Hi HQ. split; [|apply HQ, grows_update_class].
  apply registering_update_class; [done|done|done|]. intros cr Hc Hs. apply (rk_roles r Hr). right. eauto.
Qed.

Lemma keeps_configure m f r :
  registering r -> method_kept f ->
  (forall mr, mt_externalRegInfo (f mr) = mt_externalRegInfo mr) ->
  registered m r -> keeps (update_method m f) (fun _ => registered m) r.
Proof.
  intros Hr Hf Hi Hm. apply keeps_update_method; [done|done| |].
  - intros mr _. by rewrite Hi.
  - intros r' [_ Hg]. by apply Hg.
Qed.

Lemma keeps_registerFunctionWrapper f m r :
  registering r -> registered m r -> keeps (registerFunctionWrapper f m) (fun _ => registered m) r.
Proof.
  intros Hr Hm. unfold registerFunctionWrapper. eapply keeps_bind; [by apply keeps_configure|].
  intros [] r' Hr' Hm'. split; [by apply registering_function|exact Hm'].
Qed.

Lemma keeps_registerOperationByName c name m r :
  registering r -> registered m r -> keeps (registerOperationByName c name m) (fun _ => registered m) r.
Proof.
  intros Hr Hm. unfold registerOperationByName, get_class. eapply (keeps_bind _ _ (fun _ => registered m)); [by split|].
  intros cr r' Hr' Hm'. destruct (cl_registeredOperationsByName cr !! name) as [m'|] eqn:En.
  - destruct (Nat.eqb m' m); [by apply keeps_ret|by apply keeps_throw].
  - apply keeps_update_class; [done|done| |done|].
    + intros cr' n m' Hc Hn. change (<[name := m]> (cl_registeredOperationsByName cr') !! n = Some m') in Hn.
      apply lookup_insert_Some in Hn as [[_ <-]|[_ Hn]]; [destruct Hm' as (mr & Hm' & _); by eexists|]. by apply (rk_named r' Hr' c cr' n).
    + intros r'' [_ Hg]. by apply Hg.
Qed.

(** A registration that is made for a class *)
Lemma registering_new_method r c cr func inst :
  registering r -> rs_classes r !! c = Some cr -> cl_allRegisteredOperations cr !! func = None ->
  registering (r <| rs_fresh ::= S |>
    <| rs_methods ::= <[rs_fresh r := no_method <| mt_classReg := c |> <| mt_origFunction := func |>
                                        <| mt_isInstance := inst |>]> |>
    <| rs_classes ::= alter (fun cr => cr <| cl_allRegisteredOperations ::= <[func := rs_fresh r]> |>) c |>).
Proof.
  intros [H1 H2 H3 H4 H5 H6 H7 H8 H9 H10 H11 H12] Hc Hf. set (m := rs_fresh r).
  set (f := fun cr : ClassRegistration => cr <| cl_allRegisteredOperations ::= <[func := m]> |>).
  set (mr0 := no_method <| mt_classReg := c |> <| mt_origFunction := func |> <| mt_isInstance := inst |>).
  assert (forall c' cr', alter f c (rs_classes r) !! c' = Some cr' ->
    exists cr0, rs_classes r !! c' = Some cr0 /\ (cr' = cr0 /\ c' <> c \/ cr' = f cr0 /\ c' = c)) as Hinv.
  { intros c' cr' H. destruct (decide (c' = c)) as [->|Hne].
    - rewrite lookup_alter_eq in H. apply fmap_Some in H as (? & ? & ->). eauto 10.
    - rewrite lookup_alter_ne in H by done. eauto 10. }
  assert (forall c' cr0, rs_classes r !! c' = Some cr0 -> exists cr', alter f c (rs_classes r) !! c' = Some cr'
    /\ cl_name cr' = cl_name cr0 /\ cl_needsInitialized cr' = cl_needsInitialized cr0 /\ cl_ctor cr' = cl_ctor cr0) as Hfwd.
  { intros c' cr' H. destruct (decide (c' = c)) as [->|Hne].
    - rewrite lookup_alter_eq, H. by eexists.
    - rewrite lookup_alter_ne by done. by eexists. }
  assert (forall m' mr, rs_methods r !! m' = Some mr -> <[m := mr0]> (rs_methods r) !! m' = Some mr) as Hm.
  { intros m' mr Hm. rewrite lookup_insert_ne; [done|]. intros <-. apply H4 in Hm. unfold m in Hm. lia. }
  assert (forall m' mr, <[m := mr0]> (rs_methods r) !! m' = Some mr ->
    m' = m /\ mr = mr0 \/ rs_methods r !! m' = Some mr) as Hinvm.
  { intros m' mr [[<- <-]|[_ ?]]%lookup_insert_Some; auto. }
  split; try done.
  - intros c' cr' (cr0 & Hc' & _)%Hinv. apply H3 in Hc'. change (c' < S (rs_fresh r))%nat. lia.
  - intros m' mr [[-> _]|Hm']%Hinvm; [unfold m; simpl; lia|apply H4 in Hm'; simpl; lia].
  - intros n e He. destruct (H5 n e He) as (? & cr0 & Hc0 & ? & ? & ?). destruct (Hfwd _ _ Hc0) as (cr' & ? & E1 & E2 & E3).
    split; [done|]. exists cr'. by rewrite E1, E2, E3.
  - intros k e He. destruct (H6 k e He) as (cr0 & Hc0 & ? & ?). destruct (Hfwd _ _ Hc0) as (cr' & ? & E1 & _ & E3).
    exists cr'. by rewrite E1, E3.
  - intros c' cr' (cr0 & Hc0 & [[-> _]|[-> _]])%Hinv; exact (H7 _ _ Hc0).
  - intros c' cr' n m' (cr0 & Hc0 & [[-> _]|[-> _]])%Hinv Hn; apply insert_is_Some'; by eapply H8.
  - intros c' cr' g m' (cr0 & Hc0 & [[-> Hne]|[-> ->]])%Hinv Hg.
    + destruct (H9 _ _ _ _ Hc0 Hg) as (mr & ? & ?). exists mr. split; [by apply Hm|done].
    + change (<[func := m]> (cl_allRegisteredOperations cr0) !! g = Some m') in Hg.
      apply lookup_insert_Some in Hg as [[_ <-]|[_ Hg]]; [exists mr0; split; [apply lookup_insert_eq|done]|].
      destruct (H9 _ _ _ _ Hc0 Hg) as (mr & ? & ?). exists mr. split; [by apply Hm|done].
  - intros m' mr [[-> ->]|Hm']%Hinvm.
    + exists (f cr). split; [change (alter f c (rs_classes r) !! c = Some (f cr)); by rewrite lookup_alter_eq, Hc|].
      split; [|done]. exists func. apply lookup_insert_eq.
    + destruct (H10 _ _ Hm') as (cr0 & Hc0 & (g & Hg) & Hi). destruct (decide (mt_classReg mr = c)) as [E|Hne].
      * exists (f cr0). split; [change (alter f c (rs_classes r) !! mt_classReg mr = Some (f cr0)); by rewrite E, lookup_alter_eq, <- E, Hc0|].
        split; [|exact Hi]. exists g. change (<[func := m]> (cl_allRegisteredOperations cr0) !! g = Some m').
        rewrite lookup_insert_ne; [done|]. intros <-. rewrite E, Hc in Hc0. congruence.
      * exists cr0. split; [change (alter f c (rs_classes r) !! mt_classReg mr = Some cr0); by rewrite lookup_alter_ne|eauto].
  - intros g m' Hg. destruct (H11 g m' Hg) as (mr & Hmr & Hi). exists mr. split; [by apply Hm|done].
  - intros [(m' & mr & [[_ ->]|Hm']%Hinvm & Hs)|(c' & cr' & (cr0 & Hc0 & Hcr)%Hinv & Hs)].
    + unfold info_roles in Hs. change (is_Some ((∅ : gmap string ExternalInfo) !! DBOS_AUTH ≫= requiredRole)) in Hs.
      rewrite lookup_empty in Hs. by destruct Hs.
    + apply H12. left. eauto.
    + apply H12. right. exists c', cr0. split; [done|]. by destruct Hcr as [[-> _]|[-> _]].
Qed.

(** Its first use names it. *)
Lemma registering_named r c cr m mr name w :
  registering r -> rs_classes r !! c = Some cr -> rs_methods r !! m = Some mr -> mt_classReg mr = c ->
  registering (r <| rs_methods ::= alter (fun mr => mr <| mt_needInitialized := false |> <| mt_name := name |>
          <| mt_className := cl_name cr |> <| mt_defaults := Some c |>
          <| mt_registeredFunction := Some (Made w) |>) m |>).
Proof.
  intros [H1 H2 H3 H4 H5 H6 H7 H8 H9 H10 H11 H12] Hc Hm Ec.
  set (f := fun mr : MethodRegistration => _).
  assert (alter f m (rs_methods r) = <[m := f mr]> (rs_methods r)) as Ea.
  { apply map_eq. intros m'. destruct (decide (m' = m)) as [->|].
    - by rewrite lookup_alter_eq, Hm, lookup_insert_eq.
    - by rewrite lookup_alter_ne, lookup_insert_ne. }
  assert (forall m' mr', alter f m (rs_methods r) !! m' = Some mr' ->
    m' = m /\ mr' = f mr \/ rs_methods r !! m' = Some mr') as Hinv.
  { intros m' mr'. rewrite Ea. intros [[<- <-]|[_ ?]]%lookup_insert_Some; auto. }
  split; try done.
  - intros m' mr' [[-> _]|Hm']%Hinv; [by eapply H4|by eapply H4].
  - intros c' cr' n m' Hc' Hn. apply (alter_is_Some f m (rs_methods r)). by eapply H8.
  - intros c' cr' g m' Hc' Hg. destruct (H9 _ _ _ _ Hc' Hg) as (mr' & Hm' & <-).
    destruct (decide (m' = m)) as [->|Hne].
    + exists (f mr). split; [change (alter f m (rs_methods r) !! m = Some (f mr)); by rewrite Ea, lookup_insert_eq|].
      rewrite Hm in Hm'. by injection Hm' as <-.
    + exists mr'. split; [|done]. change (alter f m (rs_methods r) !! m' = Some mr'). by rewrite lookup_alter_ne.
  - intros m' mr' [[-> ->]|Hm']%Hinv; [|exact (H10 _ _ Hm')]. destruct (H10 _ _ Hm) as (cr' & Hc' & Hall & _).
    exists cr'. split; [exact Hc'|]. split; [exact Hall|]. intros _. rewrite Ec, Hc in Hc'. injection Hc' as <-.
    change (Some c = Some (mt_classReg mr) /\ cl_name cr = cl_name cr). by rewrite Ec.
  - intros g m' Hg. destruct (H11 g m' Hg) as (mr' & Hm' & Hi). destruct (decide (m' = m)) as [->|Hne].
    + exists (f mr). split; [change (alter f m (rs_methods r) !! m = Some (f mr)); by rewrite Ea, lookup_insert_eq|done].
    + exists mr'. split; [|done]. change (alter f m (rs_methods r) !! m' = Some mr'). by rewrite lookup_alter_ne.
  - intros [(m' & mr' & [[-> ->]|Hm']%Hinv & Hs)|?]; [| |by apply H12; right]; apply H12; left; eauto.
Qed.

Lemma registering_init r c cr m mr name w :
  registering r -> rs_classes r !! c = Some cr -> rs_methods r !! m = Some mr -> mt_classReg mr = c ->
  let r' := r <| rs_fresh ::= S |>
    <| rs_methods ::= alter (fun mr => mr <| mt_needInitialized := false |> <| mt_name := name |>
          <| mt_className := cl_name cr |> <| mt_defaults := Some c |>
          <| mt_registeredFunction := Some (Made w) |>) m |>
    <| functionToRegistration ::= (fun g => <[mt_origFunction mr := m]> (<[Made w := m]> g)) |> in
  registering r' /\ registered m r'.
Proof.
  intros Hr Hc Hm Ec r'.
  assert (registered m r') as Hreg.
  { eexists. split; [etrans; [apply (lookup_alter_eq _ (rs_methods r) m)|by rewrite Hm]|done]. }
  split; [|exact Hreg].
  assert (Hn := registering_named (r <| rs_fresh ::= S |>) c cr m mr name w (registering_fresh _ Hr) Hc Hm Ec).
  exact (registering_function _ (mt_origFunction mr) m (registering_function _ (Made w) m Hn Hreg) Hreg).
Qed.

(** The registration of a class that has its function *)
Lemma keeps_initialize c func name r :
  registering r -> (exists cr m, rs_classes r !! c = Some cr /\ cl_allRegisteredOperations cr !! func = Some m) ->
  keeps
    (let* cr := get_class c in
     match cl_allRegisteredOperations cr !! func with
     | None => throw (JsTypeError "Cannot read properties of undefined (reading 'needInitialized')")
     | Some m =>
      let* mr := get_method m in
      if mt_needInitialized mr then
        let* w := new_address in
        update_method m (fun mr => mr <| mt_needInitialized := false |> <| mt_name := name |>
          <| mt_className := cl_name cr |> <| mt_defaults := Some c |>
          <| mt_registeredFunction := Some (Made w) |>) ;*
        (fun r => (Ok tt, r <| functionToRegistration ::=
                              (fun g => <[mt_origFunction mr := m]> (<[Made w := m]> g)) |>)) ;*
        ret m
      else ret m
     end) registered r.
Proof.
  intros Hr (cr & m & Hc & Hf). destruct (rk_operation r Hr c cr func m Hc Hf) as (mr & Hm & Ec).
  unfold keeps, bind, get_class, get_method. rewrite (class_lookup _ _ _ Hc). cbv beta iota. rewrite Hf.
  rewrite (method_lookup _ _ _ Hm). destruct (mt_needInitialized mr) eqn:Ei.
  - exact (registering_init r c cr m mr name (rs_fresh r) Hr Hc Hm Ec).
  - split; [done|]. by exists mr.
Qed.

Lemma keeps_getOrCreateMethodRegistration t cls name func r :
  registering r -> functionToRegistration r !! func = None ->
  keeps (getOrCreateMethodRegistration ctor_name t cls name func) registered r.
Proof.
  intros Hr Hf. unfold getOrCreateMethodRegistration.
  eapply keeps_bind; [by apply keeps_getOrCreateClassRegistration|]. intros [c inst] r1 Hr1 ([cr Hc] & _ & Ef).
  cbn [fst snd] in *. rewrite <- Ef in Hf.
  unfold getFunctionRegistration. eapply (keeps_bind _ _ (fun freg r' => freg = None /\ r' = r1)); [by split|].
  intros _ _ _ [-> ->]. eapply (keeps_bind _ _ (fun x r' => x = r1 /\ r' = r1)); [by split|].
  intros _ _ _ [-> ->]. rewrite (class_lookup _ _ _ Hc).
  eapply keeps_bind; [|intros ? r2 Hr2 Hop; apply keeps_initialize; [done|exact Hop]].
  destruct (cl_allRegisteredOperations cr !! func) as [m|] eqn:Em; [apply keeps_ret; eauto|].
  split; [exact (registering_new_method r1 c cr func inst Hr1 Hc Em)|].
  exists (cr <| cl_allRegisteredOperations ::= <[func := rs_fresh r1]> |>), (rs_fresh r1).
  split; [|apply lookup_insert_eq].
  change (alter (fun cr => cr <| cl_allRegisteredOperations ::= <[func := rs_fresh r1]> |>) c (rs_classes r1) !! c
          = Some (cr <| cl_allRegisteredOperations ::= <[func := rs_fresh r1]> |>)).
  by rewrite lookup_alter_eq, Hc.
Qed.

Lemma keeps_not_launched {B} (k : RM B) Q r :
  registering r -> keeps k Q r -> keeps (ensureDBOSIsNotLaunched ;* k) Q r.
Proof.
  intros Hr Hk. unfold keeps, bind, ensureDBOSIsNotLaunched. by rewrite (rk_not_launched r Hr).
Qed.

Lemma keeps_wrapByUniqueName t cls key name func r :
  registering r -> keeps (wrapDBOSFunctionAndRegisterByUniqueName ctor_name t cls key name func) registered r.
Proof.
  intros Hr. apply keeps_not_launched; [done|].
  eapply (keeps_bind _ _ (fun freg r' => freg = functionToRegistration r !! func /\ r' = r)); [by split|].
  intros freg _ _ [-> ->].
  assert (forall m r', registering r' -> registered m r' ->
    keeps (let* c := getOrCreateClassRegistration ctor_name t cls in
           registerOperationByName c.1 (default key (truthy_str name)) m ;* ret m) registered r') as Hop.
  { intros m r' Hr' Hm. eapply keeps_bind; [by apply keeps_getOrCreateClassRegistration|].
    intros c r2 Hr2 (_ & [_ Hg] & _). eapply keeps_bind; [apply keeps_registerOperationByName; [done|by apply Hg]|].
    intros [] r3 Hr3 Hm3. by apply keeps_ret. }
  destruct (functionToRegistration r !! func) as [m|] eqn:Ef.
  - apply Hop; [done|]. by eapply rk_function.
  - eapply keeps_bind; [by apply keeps_getOrCreateMethodRegistration|]. intros m r' Hr' Hm. by apply Hop.
Qed.

Lemma keeps_wrap t cls key name func r :
  registering r -> keeps (wrapDBOSFunctionAndRegister ctor_name t cls key name func) registered r.
Proof.
  intros Hr. apply keeps_not_launched; [done|].
  eapply (keeps_bind _ _ (fun freg r' => freg = functionToRegistration r !! func /\ r' = r)); [by split|].
  intros freg _ _ [-> ->]. destruct (functionToRegistration r !! func) as [m|] eqn:Ef.
  - apply keeps_ret; [done|]. by eapply rk_function.
  - by apply keeps_getOrCreateMethodRegistration.
Qed.

(** *** Configurations *)

Lemma keeps_checkFuncTypeUnassigned m ty r :
  registering r -> registered m r -> keeps (checkFuncTypeUnassigned ctor_name m ty) (fun _ => registered m) r.
Proof.
  intros Hr Hm. unfold keeps, checkFuncTypeUnassigned. destruct (getAssignedType _); [|done].
  by destruct (bool_decide _).
Qed.

Lemma keeps_setWorkflowConfig m cfg r :
  registering r -> registered m r -> keeps (setWorkflowConfig ctor_name m cfg) (fun _ => registered m) r.
Proof.
  intros Hr Hm. eapply keeps_bind; [by apply keeps_checkFuncTypeUnassigned|].
  intros [] r' Hr' Hm'. by apply keeps_configure.
Qed.

Lemma keeps_setStepConfig m cfg r :
  registering r -> registered m r -> keeps (setStepConfig ctor_name m cfg) (fun _ => registered m) r.
Proof.
  intros Hr Hm. eapply keeps_bind; [by apply keeps_checkFuncTypeUnassigned|].
  intros [] r' Hr' Hm'. eapply (keeps_bind _ _ (fun _ => registered m)); [by split|]. intros x r2 Hr2 Hm2.
  destruct (validateStepConfig _ _); [by apply keeps_throw|by apply keeps_configure].
Qed.

Lemma keeps_new_wrapper m r :
  registering r -> registered m r -> keeps new_address (fun _ => registered m) r.
Proof. intros Hr Hm. split; [by apply registering_fresh|exact Hm]. Qed.

Lemma keeps_wrapper_of m r :
  registering r -> registered m r ->
  keeps (let* w := new_address in registerFunctionWrapper (Made w) m ;* ret (Made w)) (fun _ => registered m) r.
Proof.
  intros Hr Hm. eapply keeps_bind; [by apply keeps_new_wrapper|]. intros w r' Hr' Hm'.
  eapply keeps_bind; [by apply keeps_registerFunctionWrapper|]. intros [] r2 Hr2 Hm2. by apply keeps_ret.
Qed.

Lemma keeps_getWorkflowInvoker m o r :
  registering r -> registered m r -> keeps (getWorkflowInvoker ctor_name m o) (fun _ => registered m) r.
Proof.
  intros Hr Hm. eapply keeps_bind; [by apply keeps_setWorkflowConfig|]. intros [] r1 Hr1 Hm1.
  eapply (keeps_bind _ _ (fun _ => registered m)).
  - destruct (wo_inputSchema o); [by apply keeps_configure|by apply keeps_ret].
  - intros [] r2 Hr2 Hm2. by apply keeps_wrapper_of.
Qed.

(** The object a Map holds for the key is there, and says nothing yet. *)
Lemma info_roles_associated ext i :
  info_roles (match i !! ext with Some _ => i | None => <[ext := no_info]> i end) = info_roles i.
Proof.
  destruct (i !! ext) eqn:E; [done|]. unfold info_roles. destruct (decide (ext = DBOS_AUTH)) as [->|Hne].
  - by rewrite lookup_insert_eq, E.
  - by rewrite lookup_insert_ne.
Qed.

Lemma keeps_associateMethod ext t cls name func r :
  registering r -> keeps (associateMethodWithExternal ctor_name ext t cls name func) registered r.
Proof.
  intros Hr. eapply keeps_bind; [by apply keeps_wrap|]. intros m r1 Hr1 Hm1.
  eapply (keeps_bind _ _ (fun _ => registered m)); [|by intros [] r2 Hr2 Hm2; apply keeps_ret].
  apply keeps_update_method; [done|done| |by intros r2 [_ Hg]; apply Hg].
  intros mr _.
  change (is_Some (info_roles (match mt_externalRegInfo mr !! ext with
    Some _ => mt_externalRegInfo mr | None => <[ext := no_info]> (mt_externalRegInfo mr) end)) ->
    is_Some (info_roles (mt_externalRegInfo mr))).
  by rewrite info_roles_associated.
Qed.

Lemma keeps_associateClass ext k r :
  registering r -> keeps (associateClassWithExternal ctor_name ext k) (fun _ _ => True) r.
Proof.
  intros Hr. eapply keeps_bind; [by apply keeps_getClassRegistration|]. intros e r1 Hr1 _.
  eapply (keeps_bind _ _ (fun _ _ => True)); [|done].
  apply keeps_update_class; [done|done| | |done].
  - intros cr n m Hc Hn. exact (rk_named r1 Hr1 _ cr n m Hc Hn).
  - intros cr _. change (is_Some (info_roles (match cl_externalRegInfo cr !! ext with
      Some _ => cl_externalRegInfo cr | None => <[ext := no_info]> (cl_externalRegInfo cr) end)) ->
      is_Some (info_roles (cl_externalRegInfo cr))).
    by rewrite info_roles_associated.
Qed.

Lemma registering_auth r : registering r -> registering (r <| authMiddleware := true |>).
Proof. intros []. by split. Qed.

(** Roles are required, and the checker is there. *)
Lemma keeps_method_roles {B} m anyOf (k : unit -> RM B) r :
  registering r ->
  (forall r', registering r' -> keeps (k tt) (fun _ _ => True) r') ->
  keeps (update_method m (fun mr => mr <| mt_externalRegInfo ::= <[DBOS_AUTH := ExternalInfoOf (Some anyOf)]> |>) ;*
         bind registerAuthChecker k) (fun _ _ => True) r.
Proof.
  intros Hr Hk. unfold keeps, bind at 1, update_method. unfold bind, registerAuthChecker.
  change (installedMiddleware (r <| rs_methods ::= ?f |>)) with (installedMiddleware r). rewrite (rk_not_installed r Hr).
  apply Hk. exact (registering_update_method (r <| authMiddleware := true |>) m
    (fun mr => mr <| mt_externalRegInfo ::= <[DBOS_AUTH := ExternalInfoOf (Some anyOf)]> |>)
    ltac:(done) (registering_auth r Hr) (fun _ _ _ => eq_refl)).
Qed.

Lemma keeps_class_roles c anyOf r :
  registering r ->
  keeps (update_class c (fun cr => cr <| cl_externalRegInfo ::= <[DBOS_AUTH := ExternalInfoOf (Some anyOf)]> |>) ;*
         registerAuthChecker) (fun _ _ => True) r.
Proof.
  intros Hr. unfold keeps, bind, update_class, registerAuthChecker.
  change (installedMiddleware (r <| rs_classes ::= ?f |>)) with (installedMiddleware r). rewrite (rk_not_installed r Hr).
  split; [|done]. exact (registering_update_class (r <| authMiddleware := true |>) c
    (fun cr => cr <| cl_externalRegInfo ::= <[DBOS_AUTH := ExternalInfoOf (Some anyOf)]> |>)
    ltac:(done) (registering_auth r Hr)
    (fun cr n m Hc Hn => rk_named r Hr c cr n m Hc Hn) (fun _ _ _ => eq_refl)).
Qed.

Lemma keeps_discard {A} (p : RM A) Q r : keeps p Q r -> keeps (discard p) (fun _ _ => True) r.
Proof. intros Hp. eapply keeps_bind; [exact Hp|]. by intros x r' Hr' _. Qed.

Lemma registering_data_source r name ds :
  registering r -> registering (r <| transactionalDataSources ::= <[name := ds]> |>).
Proof. intros []. by split. Qed.

(** Every registration keeps the invariant. *)
Lemma keeps_perform x r : registering r -> keeps (perform ctor_name x) (fun _ _ => True) r.
Proof.
  intros Hr. destruct x; unfold perform.
  - eapply (keeps_discard _ (fun _ _ => True)), keeps_bind; [by apply keeps_wrapByUniqueName|]. intros m r1 Hr1 Hm1.
    eapply keeps_bind; [by apply keeps_getWorkflowInvoker|]. intros w r2 Hr2 Hm2.
    eapply keeps_bind; [by apply keeps_registerFunctionWrapper|]. intros [] r3 Hr3 Hm3.
    by apply (keeps_ret _ (fun _ _ => True)).
  - eapply (keeps_discard _ (fun _ _ => True)), keeps_bind; [by apply keeps_wrapByUniqueName|]. intros m r1 Hr1 Hm1.
    by eapply keeps_weaken; [apply keeps_getWorkflowInvoker|].
  - eapply (keeps_discard _ (fun _ _ => True)), keeps_bind; [by apply keeps_wrapByUniqueName|]. intros m r1 Hr1 Hm1.
    eapply keeps_bind; [by apply keeps_setStepConfig|]. intros [] r2 Hr2 Hm2.
    by eapply keeps_weaken; [apply keeps_wrapper_of|].
  - eapply (keeps_discard _ (fun _ _ => True)). unfold registerStep.
    destruct (validateStepConfig _ _); [by apply keeps_throw|].
    eapply keeps_bind; [by apply keeps_wrap|]. intros m r1 Hr1 Hm1.
    eapply keeps_weaken; [by apply keeps_wrapper_of|done].
  - eapply keeps_bind; [by apply keeps_getClassRegistration|]. intros e r1 Hr1 _.
    destruct (_ && _); [by apply keeps_throw|]. split; [by apply registering_entry|done].
  - eapply (keeps_discard _ (fun _ _ => True)), keeps_bind; [by apply keeps_associateMethod|]. intros m r1 Hr1 Hm1.
    apply keeps_method_roles; [done|]. intros r2 Hr2.
    eapply (keeps_bind _ _ (fun _ _ => True)); [by split|]. intros mr r3 Hr3 _. by apply keeps_ret.
  - eapply keeps_bind; [by apply keeps_associateClass|]. intros c r1 Hr1 _. by apply keeps_class_roles.
  - eapply keeps_bind; [by apply keeps_getClassRegistration|]. intros e r1 Hr1 _.
    eapply (keeps_bind _ _ (fun _ _ => True)); [by split|]. intros cr r2 Hr2 _.
    destruct (cl_configuredInstances cr !! name); [by apply keeps_throw|].
    apply keeps_update_class; [done|done| |done|done]. intros cr' n m Hc Hn. exact (rk_named r2 Hr2 _ cr' n m Hc Hn).
  - by eapply keeps_discard, keeps_associateMethod.
  - by eapply keeps_discard, keeps_associateClass.
  - unfold keeps, registerTransactionalDataSource. destruct (transactionalDataSources r !! name) as [ds'|].
    + by destruct (Nat.eqb ds' ds).
    + apply (keeps_not_launched (fun r => (Ok tt, r <| transactionalDataSources ::= <[name := ds]> |>))
        (fun _ _ => True) r Hr).
      split; [by apply registering_data_source|done].
Qed.

Lemma registering_empty : registering empty_registry.
Proof.
  split; try done.
  - intros [(m & mr & Hm & _)|(c & cr & Hc & _)]; [done|done].
Qed.

Lemma registering_all xs : registering (register_all ctor_name xs empty_registry).
Proof.
  unfold register_all. generalize empty_registry, registering_empty.
  induction xs as [|x xs IH]; intros r Hr; simpl; [done|]. apply IH. by apply (keeps_perform x r Hr).
Qed.

(** * Launching *)

(** ** Names *)

(** The stores without the names that launching gives *)
Definition nameless_methods (r : Registry) : gmap nat MethodRegistration :=
  (fun mr => mr <| mt_className := "" |>) <$> rs_methods r.
Definition nameless_classes (r : Registry) : gmap nat ClassRegistration :=
  (fun cr => cr <| cl_name := "" |> <| cl_needsInitialized := false |>) <$> rs_classes r.

(** [r'] is [r] but for the names that finalizing gives. *)
Record finalizing (r r' : Registry) : Prop := {
  fi_methods : nameless_methods r' = nameless_methods r;
  fi_classes : nameless_classes r' = nameless_classes r;
  fi_ctor : forall k, ce_reg <$> find_ctor k (classesByCtor r') = ce_reg <$> find_ctor k (classesByCtor r);
  fi_name : forall n e, classesByName r !! n = Some e ->
    exists e', classesByName r' !! n = Some e' /\ ne_reg e' = ne_reg e;
  fi_function : functionToRegistration r' = functionToRegistration r;
  fi_auth : authMiddleware r' = authMiddleware r;
  fi_installed : installedMiddleware r' = installedMiddleware r
}.

Lemma finalizing_refl r : finalizing r r.
Proof. split; try done. eauto. Qed.

Lemma finalizing_trans r1 r2 r3 : finalizing r1 r2 -> finalizing r2 r3 -> finalizing r1 r3.
Proof.
  intros [] []. split; try congruence.
  intros n e He. destruct (fi_name0 n e He) as (e2 & He2 & E2). destruct (fi_name1 n e2 He2) as (e3 & He3 & E3).
  exists e3. split; [done|congruence].
Qed.

(** The name that [finalize_class] gives *)
Definition final_name (r : Registry) (k : nat) (e : CtorEntry) : string :=
  first_nonempty (ce_name e) (first_nonempty (cl_name (class (ce_reg e) r)) (ctor_name k)).

(** What naming the class [c] of the constructor [k] does *)
Definition named_class (r : Registry) (k c : nat) (cname : string) : Registry :=
  r <| classesByName ::= <[cname := NameEntryOf c (Some k)]> |>
    <| classesByCtor ::= set_ctor k (fun e => CtorEntryOf cname (ce_reg e)) |>
    <| rs_classes ::= alter (fun cr => cr <| cl_name := cname |> <| cl_needsInitialized := false |>) c |>
    <| rs_methods ::= map_imap (fun m mr => Some (if named_in (class c r) m then mr <| mt_className := cname |> else mr)) |>.

Lemma finalize_class_inv k r r' :
  finalize_class ctor_name k r = (Ok tt, r') ->
  find_ctor k (classesByCtor r) = None /\ r' = r
  \/ exists e, find_ctor k (classesByCtor r) = Some e
     /\ r' = named_class r k (ce_reg e) (final_name r k e)
     /\ forall e', classesByName r !! final_name r k e = Some e' ->
          ne_reg e' = ce_reg e /\ (ne_ctor e' = None \/ ne_ctor e' = Some k).
Proof.
  unfold finalize_class. destruct (find_ctor k (classesByCtor r)) as [e|]; [|by intros [= <-]; left].
  intros H. right. exists e. split; [done|]. cbv zeta in H. change (first_nonempty (ce_name e) _) with (final_name r k e) in H.
  destruct (classesByName r !! final_name r k e) as [[c' k']|] eqn:En; cbn [ne_reg ne_ctor] in H.
  2:{ injection H as <-. by split. }
  destruct (match k' with Some k' => _ | None => false end) eqn:E1; [discriminate|].
  destruct (Nat.eqb_spec c' (ce_reg e)) as [->|]; [|discriminate]. simpl in H. injection H as <-.
  split; [done|]. intros e' [= <-]. split; [done|]. destruct k' as [k'|]; [right|by left].
  cbn [ne_ctor]. destruct (Nat.eqb_spec k' k) as [->|]; [done|discriminate].
Qed.

Lemma finalize_class_finalizing k r r' :
  finalize_class ctor_name k r = (Ok tt, r') -> finalizing r r'.
Proof.
  intros [[_ ->]|(e & He & -> & Hn)]%finalize_class_inv; [apply finalizing_refl|].
  set (cname := final_name r k e) in *. split; try done.
  - apply map_eq. intros m. unfold nameless_methods. rewrite !lookup_fmap.
    change (rs_methods (named_class r k (ce_reg e) cname)) with (map_imap (fun m mr =>
      Some (if named_in (class (ce_reg e) r) m then mr <| mt_className := cname |> else mr)) (rs_methods r)).
    rewrite map_lookup_imap. destruct (rs_methods r !! m); simpl; [|done]. by destruct (named_in _ _).
  - apply map_eq. intros c. unfold nameless_classes. rewrite !lookup_fmap.
    change (rs_classes (named_class r k (ce_reg e) cname)) with
      (alter (fun cr => cr <| cl_name := cname |> <| cl_needsInitialized := false |>) (ce_reg e) (rs_classes r)).
    destruct (decide (c = ce_reg e)) as [->|]; [rewrite lookup_alter_eq|by rewrite lookup_alter_ne].
    by destruct (rs_classes r !! ce_reg e).
  - intros k'. change (ce_reg <$> find_ctor k' (set_ctor k (fun e => CtorEntryOf cname (ce_reg e)) (classesByCtor r))
      = ce_reg <$> find_ctor k' (classesByCtor r)).
    rewrite find_set_ctor. destruct (Nat.eqb k' k); [|done]. by destruct (find_ctor k' _).
  - intros n e' He'. destruct (decide (n = cname)) as [->|Hne].
    + eexists. split; [apply lookup_insert_eq|]. by destruct (Hn e' He') as [-> _].
    + exists e'. split; [|done]. change (<[cname := NameEntryOf (ce_reg e) (Some k)]> (classesByName r) !! n = Some e').
      by rewrite lookup_insert_ne.
Qed.

Lemma finalize_classes_finalizing ks r r' :
  finalize_classes ctor_name ks r = (Ok tt, r') -> finalizing r r'.
Proof.
  revert r. induction ks as [|k ks IH]; intros r; simpl; [intros [= <-]; apply finalizing_refl|].
  intros ([] & r1 & H1 & H2)%bind_inv_ok. eapply finalizing_trans; [by eapply finalize_class_finalizing|by apply IH].
Qed.

(** What finalizing leaves of a registration and of a class *)
Lemma finalizing_method r r' m mr' :
  finalizing r r' -> rs_methods r' !! m = Some mr' ->
  exists mr, rs_methods r !! m = Some mr /\ mr' = mr <| mt_className := mt_className mr' |>.
Proof.
  intros Hf Hm. assert (nameless_methods r !! m = Some (mr' <| mt_className := "" |>)) as H.
  { rewrite <- (fi_methods _ _ Hf). unfold nameless_methods. by rewrite lookup_fmap, Hm. }
  unfold nameless_methods in H. rewrite lookup_fmap in H. apply fmap_Some in H as (mr & Hr & E).
  exists mr. split; [done|]. destruct mr', mr. unfold set in *. simpl in *. by injection E; intros; subst.
Qed.

Lemma finalizing_method_fwd r r' m mr :
  finalizing r r' -> rs_methods r !! m = Some mr ->
  exists mr', rs_methods r' !! m = Some mr' /\ mr' = mr <| mt_className := mt_className mr' |>.
Proof.
  intros Hf Hm. assert (nameless_methods r' !! m = Some (mr <| mt_className := "" |>)) as H.
  { rewrite (fi_methods _ _ Hf). unfold nameless_methods. by rewrite lookup_fmap, Hm. }
  unfold nameless_methods in H. rewrite lookup_fmap in H. apply fmap_Some in H as (mr' & Hr & E).
  exists mr'. split; [done|]. destruct mr', mr. unfold set in *. simpl in *. by injection E; intros; subst.
Qed.

Lemma finalizing_class r r' c :
  finalizing r r' ->
  (forall cr, rs_classes r !! c = Some cr -> exists cr', rs_classes r' !! c = Some cr'
    /\ cl_registeredOperationsByName cr' = cl_registeredOperationsByName cr
    /\ cl_allRegisteredOperations cr' = cl_allRegisteredOperations cr
    /\ cl_externalRegInfo cr' = cl_externalRegInfo cr /\ cl_ctor cr' = cl_ctor cr)
  /\ (rs_classes r !! c = None -> rs_classes r' !! c = None).
Proof.
  intros Hf. assert (nameless_classes r' !! c = nameless_classes r !! c) as H by by rewrite (fi_classes _ _ Hf).
  unfold nameless_classes in H. rewrite !lookup_fmap in H. split.
  - intros cr Hc. rewrite Hc in H. apply fmap_Some in H as (cr' & Hc' & E). exists cr'. split; [done|].
    destruct cr, cr'. unfold set in E. simpl in E. by injection E; intros; subst.
  - intros Hc. rewrite Hc in H. by destruct (rs_classes r' !! c).
Qed.

(** ** Interceptors *)

(** [r'] is [r] with more interceptors. *)
Record intercepting (r r' : Registry) : Prop := {
  ic_rest : exists ms, r' = r <| rs_methods := ms |>;
  ic_method : forall m mr, rs_methods r !! m = Some mr -> exists l,
    rs_methods r' !! m = Some (mr <| mt_onEnter := l |>)
    /\ forall i, i ∈ (mt_onEnter mr).*2 -> i ∈ l.*2
}.

Lemma intercepting_refl r : intercepting r r.
Proof. split; [exists (rs_methods r); by destruct r|]. intros m mr Hm. exists (mt_onEnter mr). by destruct mr. Qed.

Lemma intercepting_trans r1 r2 r3 : intercepting r1 r2 -> intercepting r2 r3 -> intercepting r1 r3.
Proof.
  intros [[ms1 E1] M1] [[ms2 E2] M2]. split; [exists ms2; by rewrite E2, E1|].
  intros m mr Hm. destruct (M1 m mr Hm) as (l1 & H1 & I1). destruct (M2 _ _ H1) as (l2 & H2 & I2).
  exists l2. split; [exact H2|]. intros i Hi. by apply I2, I1.
Qed.

Lemma intercepting_method r r' m mr :
  intercepting r r' -> rs_methods r !! m = Some mr -> exists l,
    method m r' = mr <| mt_onEnter := l |> /\ forall i, i ∈ (mt_onEnter mr).*2 -> i ∈ l.*2.
Proof. intros [_ H] (l & Hl & Hi)%H. exists l. by rewrite (method_lookup _ _ _ Hl). Qed.

Lemma intercepting_rest r r' : intercepting r r' ->
  rs_classes r' = rs_classes r /\ functionToRegistration r' = functionToRegistration r
  /\ classesByName r' = classesByName r /\ installedMiddleware r' = installedMiddleware r.
Proof. by intros [[ms ->] _]. Qed.

Lemma add_entry_elem n i l j : j ∈ (add_entry n i l).*2 <-> j = i \/ j ∈ l.*2.
Proof.
  induction l as [|[n' i'] l IH]; simpl; [set_solver|]. destruct (n' <=? n); simpl; set_solver.
Qed.

(** When the authorization of a method is checked *)
Definition should_check (r : Registry) (mr : MethodRegistration) : bool :=
  bool_decide (is_Some (defaults_roles mr r)) || bool_decide (is_Some (info_roles (mt_externalRegInfo mr))).

Lemma intercepting_alter r m n i :
  intercepting r (r <| rs_methods ::= alter (fun mr => mr <| mt_onEnter ::= add_entry n i |>) m |>).
Proof.
  split; [by eexists|]. intros m' mr Hm'. set (f := fun mr : MethodRegistration => mr <| mt_onEnter ::= add_entry n i |>).
  destruct (decide (m' = m)) as [->|Hne].
  - exists (add_entry n i (mt_onEnter mr)). split.
    + change (alter f m (rs_methods r) !! m = Some (f mr)). by rewrite lookup_alter_eq, Hm'.
    + intros j Hj. apply add_entry_elem. by right.
  - exists (mt_onEnter mr). split; [|done].
    change (alter f m (rs_methods r) !! m' = Some (mr <| mt_onEnter := mt_onEnter mr |>)).
    rewrite lookup_alter_ne, Hm' by done. by destruct mr.
Qed.

Lemma installMiddleware_spec m mr r :
  rs_methods r !! m = Some mr ->
  exists r', installMiddleware m r = (Ok tt, r') /\ intercepting r r'
    /\ (should_check r mr = true -> CheckMethodAuth ∈ (mt_onEnter (method m r')).*2).
Proof.
  intros Hm. unfold installMiddleware. rewrite (method_lookup _ _ _ Hm). fold (should_check r mr).
  destruct (should_check r mr); [|by exists r; split; [|split; [apply intercepting_refl|]]].
  eexists. split; [reflexivity|]. split; [apply intercepting_alter|]. intros _.
  rewrite (method_lookup _ _ (mr <| mt_onEnter ::= add_entry 10 CheckMethodAuth |>)).
  - apply add_entry_elem. by left.
  - etrans; [apply (lookup_alter_eq _ (rs_methods r) m)|]. by rewrite Hm.
Qed.

Lemma intercepting_should_check r r' mr l :
  intercepting r r' -> should_check r' (mr <| mt_onEnter := l |>) = should_check r mr.
Proof. by intros [[ms ->] _]. Qed.

(** Installing for the registrations [ms] *)
Lemma install_methods (auth : bool) ms r :
  (forall m, m ∈ ms -> is_Some (rs_methods r !! m)) ->
  exists r', for_each (fun m => if auth then installMiddleware m else ret tt) ms r = (Ok tt, r')
    /\ intercepting r r'
    /\ (auth = true -> forall m mr, m ∈ ms -> rs_methods r !! m = Some mr -> should_check r mr = true ->
         CheckMethodAuth ∈ (mt_onEnter (method m r')).*2).
Proof.
  revert r. induction ms as [|m ms IH]; intros r Hms.
  - exists r. split; [done|]. split; [apply intercepting_refl|]. intros _ m mr H. by apply elem_of_nil in H.
  - assert (exists r1, (if auth then installMiddleware m else ret tt) r = (Ok tt, r1) /\ intercepting r r1
      /\ (auth = true -> forall mr, rs_methods r !! m = Some mr -> should_check r mr = true ->
           CheckMethodAuth ∈ (mt_onEnter (method m r1)).*2)) as (r1 & H1 & I1 & C1).
    { destruct (Hms m) as [mr Hm]; [set_solver|]. destruct auth; [|by exists r; split; [|split; [apply intercepting_refl|]]].
      destruct (installMiddleware_spec m mr r Hm) as (r1 & ? & ? & Hc). exists r1. split; [done|]. split; [done|].
      intros _ mr'. rewrite Hm. by intros [= <-]. }
    destruct (IH r1) as (r2 & H2 & I2 & C2).
    { intros m' Hm'. destruct (Hms m') as [mr Hmr]; [set_solver|]. destruct (ic_method _ _ I1 _ _ Hmr) as (l & Hl & _).
      by eexists. }
    exists r2. split; [cbn [for_each]; by rewrite (bind_ok _ _ _ _ _ H1)|]. split; [by eapply intercepting_trans|].
    intros Ha m' mr Hin Hm' Hs. destruct (ic_method _ _ I1 _ _ Hm') as (l & Hl & _).
    apply elem_of_cons in Hin as [->|Hin].
    + destruct (intercepting_method _ _ _ _ I2 Hl) as (l2 & E2 & S2). rewrite E2. apply S2.
      assert (Hc := C1 Ha mr Hm' Hs). by rewrite (method_lookup _ _ _ Hl) in Hc.
    + apply (C2 Ha m' _ Hin Hl). by rewrite (intercepting_should_check r r1).
Qed.

(** Installing for the classes [cs] *)
Lemma install_classes (auth : bool) cs r :
  (forall c cr f m, c ∈ cs -> rs_classes r !! c = Some cr -> cl_allRegisteredOperations cr !! f = Some m ->
     is_Some (rs_methods r !! m)) ->
  exists r', for_each (fun c => let* cr := get_class c in
                 for_each (fun m => if auth then installMiddleware m else ret tt)
                   (map_to_list (cl_allRegisteredOperations cr)).*2) cs r = (Ok tt, r')
    /\ intercepting r r'
    /\ (auth = true -> forall c cr f m mr, c ∈ cs -> rs_classes r !! c = Some cr ->
         cl_allRegisteredOperations cr !! f = Some m -> rs_methods r !! m = Some mr -> should_check r mr = true ->
         CheckMethodAuth ∈ (mt_onEnter (method m r')).*2).
Proof.
  revert r. induction cs as [|c cs IH]; intros r Hcs.
  - exists r. split; [done|]. split; [apply intercepting_refl|]. intros _ c cr f m mr H. by apply elem_of_nil in H.
  - destruct (install_methods auth (map_to_list (cl_allRegisteredOperations (class c r))).*2 r) as (r1 & H1 & I1 & C1).
    { intros m (p & -> & Hp)%list_elem_of_fmap. destruct p as [f m]. apply elem_of_map_to_list in Hp.
      unfold class in Hp. destruct (rs_classes r !! c) as [cr|] eqn:Hc; [|discriminate Hp].
      apply (Hcs c cr f m); [set_solver|done|exact Hp]. }
    destruct (IH r1) as (r2 & H2 & I2 & C2).
    { destruct (intercepting_rest _ _ I1) as (-> & _). intros c' cr f m Hin Hc Hf.
      destruct (Hcs c' cr f m) as [mr Hm]; [set_solver|done|done|]. destruct (ic_method _ _ I1 _ _ Hm) as (l & Hl & _).
      by eexists. }
    exists r2. split.
    { cbn [for_each]. rewrite (bind_ok _ _ r tt r1); [done|]. unfold get_class, bind at 1. exact H1. }
    split; [by eapply intercepting_trans|].
    intros Ha c' cr f m mr Hin Hc Hf Hm Hs. destruct (ic_method _ _ I1 _ _ Hm) as (l & Hl & _).
    apply elem_of_cons in Hin as [->|Hin].
    + destruct (intercepting_method _ _ _ _ I2 Hl) as (l2 & E2 & S2). rewrite E2. apply S2.
      assert (m ∈ (map_to_list (cl_allRegisteredOperations (class c r))).*2) as Hin.
      { apply list_elem_of_fmap. exists (f, m). split; [done|]. apply elem_of_map_to_list. by rewrite (class_lookup _ _ _ Hc). }
      assert (Hi := C1 Ha m mr Hin Hm Hs). by rewrite (method_lookup _ _ _ Hl) in Hi.
    + apply (C2 Ha c' cr f m (mr <| mt_onEnter := l |>) Hin);
        [by destruct (intercepting_rest _ _ I1) as (-> & _)|done|exact Hl|].
      by rewrite (intercepting_should_check r r1).
Qed.

(** ** What launching does *)

(** The state between finalizing and launching, and what launching leaves of it *)
Lemma launch_inv r0 r :
  dbosLaunched r0 = false -> launch ctor_name r0 = (Ok tt, r) ->
  exists r1, finalizeClassRegistrations ctor_name r0 = (Ok tt, r1)
    /\ exists r2, insertAllMiddleware r1 = (Ok tt, r2) /\ r = r2 <| dbosLaunched := true |>.
Proof.
  intros Hl. unfold launch. rewrite Hl. intros ([] & r1 & H1 & ([] & r2 & H2 & H3)%bind_inv_ok)%bind_inv_ok.
  exists r1. split; [done|]. exists r2. split; [done|]. by injection H3.
Qed.

(** A class of a registration is among the classes that launching visits. *)
Lemma registering_visited r0 r1 c :
  registering r0 -> finalizing r0 r1 -> is_Some (rs_classes r0 !! c) -> c ∈ getAllClassRegistrations r1.
Proof.
  intros Hr Hf [cr Hc]. unfold getAllClassRegistrations. apply elem_of_remove_dups, elem_of_app.
  assert (H := rk_class r0 Hr c cr Hc). destruct (cl_ctor cr) as [k|].
  - right. destruct H as (e & He & <-). assert (H := fi_ctor _ _ Hf k). rewrite He in H. simpl in H.
    apply fmap_Some in H as (e' & He' & ->). apply list_elem_of_fmap. exists e'. split; [done|].
    clear -He'. induction (classesByCtor r1) as [|[k' e] l IH]; [done|]. simpl in He'. simpl.
    destruct (Nat.eqb k k'); [injection He' as ->; by left|right; by apply IH].
  - left. destruct H as (e & He & <-). destruct (fi_name _ _ Hf _ _ He) as (e' & He' & <-).
    apply list_elem_of_fmap. exists e'. split; [done|]. apply list_elem_of_fmap. exists (cl_name cr, e').
    split; [done|]. by apply elem_of_map_to_list.
Qed.

Lemma intercepting_launched r r' :
  intercepting r r' -> intercepting (r <| dbosLaunched := true |>) (r' <| dbosLaunched := true |>).
Proof. intros [[ms ->] H]. split; [by exists ms|exact H]. Qed.

(** Roles are required of a method as they were before its class was named. *)
Lemma finalizing_class_roles r0 r1 c :
  finalizing r0 r1 -> info_roles (cl_externalRegInfo (class c r1)) = info_roles (cl_externalRegInfo (class c r0)).
Proof.
  intros Hf. destruct (finalizing_class r0 r1 c Hf) as [H1 H2]. unfold class.
  destruct (rs_classes r0 !! c) as [cr0|]; [|by rewrite H2].
  destruct (H1 cr0 eq_refl) as (cr1 & -> & _ & _ & E & _). simpl. by rewrite E.
Qed.

Lemma should_check_auth r0 r1 m mr0 cn :
  registering r0 -> finalizing r0 r1 -> rs_methods r0 !! m = Some mr0 ->
  should_check r1 (mr0 <| mt_className := cn |>) = true -> authMiddleware r1 = true.
Proof.
  intros Hr Hf Hm Hs. rewrite (fi_auth _ _ Hf). apply (rk_roles r0 Hr). unfold should_check in Hs.
  apply orb_true_iff in Hs as [Hs|Hs]; apply bool_decide_eq_true in Hs.
  - right. change (is_Some (c ← mt_defaults mr0; info_roles (cl_externalRegInfo (class c r1)))) in Hs.
    destruct (mt_defaults mr0) as [c|]; [|by destruct Hs]. simpl in Hs. rewrite (finalizing_class_roles _ _ _ Hf) in Hs.
    unfold class in Hs. destruct (rs_classes r0 !! c) as [cr|] eqn:Hc; [by exists c, cr|by destruct Hs].
  - left. by exists m, mr0.
Qed.

(** Launching names the classes, and then installs the interceptors. *)
Lemma launch_phases r0 r :
  registering r0 -> launch ctor_name r0 = (Ok tt, r) ->
  exists r1, finalizeClassRegistrations ctor_name r0 = (Ok tt, r1) /\ finalizing r0 r1
    /\ intercepting (r1 <| installedMiddleware := true |> <| dbosLaunched := true |>) r
    /\ (authMiddleware r1 = true -> forall c cr f m mr, c ∈ getAllClassRegistrations r1 ->
         rs_classes r1 !! c = Some cr -> cl_allRegisteredOperations cr !! f = Some m ->
         rs_methods r1 !! m = Some mr -> should_check r1 mr = true ->
         CheckMethodAuth ∈ (mt_onEnter (method m r)).*2).
Proof.
  intros Hr Hl. destruct (launch_inv r0 r (rk_not_launched r0 Hr) Hl) as (r1 & H1 & r2 & H2 & ->).
  assert (Hf := finalize_classes_finalizing _ _ _ H1). exists r1. split; [done|]. split; [done|].
  unfold insertAllMiddleware in H2. rewrite (fi_installed _ _ Hf), (rk_not_installed r0 Hr) in H2.
  destruct (install_classes (authMiddleware r1) (getAllClassRegistrations r1) (r1 <| installedMiddleware := true |>))
    as (r3 & H3 & I3 & C3).
  { intros c cr f m' _ Hc Hcf. change (rs_classes r1 !! c = Some cr) in Hc.
    destruct (rs_classes r0 !! c) as [cr0|] eqn:Hc0; [|by rewrite (proj2 (finalizing_class r0 r1 c Hf) Hc0) in Hc].
    destruct (proj1 (finalizing_class r0 r1 c Hf) cr0 Hc0) as (cr1 & Hc1 & _ & E & _). rewrite Hc in Hc1.
    injection Hc1 as <-. rewrite E in Hcf. destruct (rk_operation r0 Hr _ _ _ _ Hc0 Hcf) as (mr & Hmr & _).
    destruct (finalizing_method_fwd r0 r1 m' mr Hf Hmr) as (mr' & Hmr' & _). by exists mr'. }
  rewrite H3 in H2. injection H2 as <-. split; [by apply intercepting_launched|exact C3].
Qed.

(** A registered method is as it was but for its class's name and its interceptors, and it is
    checked when roles are required. *)
Lemma launched_method r0 r m mr0 :
  registering r0 -> launch ctor_name r0 = (Ok tt, r) -> rs_methods r0 !! m = Some mr0 ->
  exists r1 l cn, finalizeClassRegistrations ctor_name r0 = (Ok tt, r1)
    /\ intercepting (r1 <| installedMiddleware := true |> <| dbosLaunched := true |>) r
    /\ rs_methods r1 !! m = Some (mr0 <| mt_className := cn |>)
    /\ rs_methods r !! m = Some (mr0 <| mt_className := cn |> <| mt_onEnter := l |>)
    /\ (should_check r1 (mr0 <| mt_className := cn |>) = true -> CheckMethodAuth ∈ l.*2).
Proof.
  intros Hr Hl Hm. destruct (launch_phases r0 r Hr Hl) as (r1 & H1 & Hf & Hi & C).
  destruct (finalizing_method_fwd r0 r1 m mr0 Hf Hm) as (mr1 & Hm1 & E1). rewrite E1 in Hm1.
  set (cn := mt_className mr1) in *. clearbody cn.
  destruct (ic_method _ _ Hi m _ Hm1) as (l & Hml & _).
  exists r1, l, cn. do 3 (split; [done|]). split; [exact Hml|].
  intros Hs. destruct (rk_method r0 Hr m mr0 Hm) as (cr0 & Hc0 & (f & Hcf) & _).
  destruct (proj1 (finalizing_class r0 r1 _ Hf) cr0 Hc0) as (cr1 & Hc1 & _ & E & _).
  assert (Hin := C (should_check_auth r0 r1 m mr0 cn Hr Hf Hm Hs) (mt_classReg mr0) cr1 f m _
    (registering_visited r0 r1 _ Hr Hf (mk_is_Some _ _ Hc0)) Hc1 (eq_trans (f_equal (lookup f) E) Hcf) Hm1 Hs).
  by rewrite (method_lookup _ _ _ Hml) in Hin.
Qed.

Lemma launched_functions r0 r :
  registering r0 -> launch ctor_name r0 = (Ok tt, r) -> functionToRegistration r = functionToRegistration r0.
Proof.
  intros Hr Hl. destruct (launch_phases r0 r Hr Hl) as (r1 & _ & Hf & Hi & _).
  destruct (intercepting_rest _ _ Hi) as (_ & -> & _). apply (fi_function _ _ Hf).
Qed.

(** ** Finding functions by their names *)

(** The registration [m] has its own name in its own class, and no other class has it. *)
Definition at_home (m : nat) (r : Registry) : Prop :=
  cl_registeredOperationsByName (class (mt_classReg (method m r)) r) !! mt_name (method m r) = Some m
  /\ forall c n, cl_registeredOperationsByName (class c r) !! n = Some m -> c = mt_classReg (method m r).

(** The class [c] and its registration [m] bear the name under which the class is found. *)
Definition settled (c m : nat) (r : Registry) : Prop := exists cn,
  (exists e, classesByName r !! cn = Some e /\ ne_reg e = c)
  /\ class_getClassName ctor_name (class c r) = cn
  /\ exists mr, rs_methods r !! m = Some mr /\ mt_className mr = cn.

Lemma named_in_spec cr m : named_in cr m = true <-> exists n, cl_registeredOperationsByName cr !! n = Some m.
Proof.
  unfold named_in. rewrite existsb_exists. split.
  - intros ([n m'] & Hin & E). simpl in E. apply Nat.eqb_eq in E as ->. exists n.
    apply list_elem_of_In in Hin. by apply elem_of_map_to_list in Hin.
  - intros [n Hn]. exists (n, m). split; [|simpl; apply Nat.eqb_refl].
    by apply list_elem_of_In, elem_of_map_to_list.
Qed.

Lemma named_class_lookup r k c cn c' :
  class c' (named_class r k c cn)
  = if decide (c' = c) then match rs_classes r !! c with
                            | Some cr => cr <| cl_name := cn |> <| cl_needsInitialized := false |>
                            | None => no_class
                            end
    else class c' r.
Proof.
  unfold class at 1. change (rs_classes (named_class r k c cn)) with
    (alter (fun cr => cr <| cl_name := cn |> <| cl_needsInitialized := false |>) c (rs_classes r)).
  destruct (decide (c' = c)) as [->|Hne]; [rewrite lookup_alter_eq|by rewrite lookup_alter_ne].
  by destruct (rs_classes r !! c).
Qed.

Lemma named_class_method r k c cn m mr :
  rs_methods r !! m = Some mr ->
  rs_methods (named_class r k c cn) !! m
  = Some (if named_in (class c r) m then mr <| mt_className := cn |> else mr).
Proof.
  intros Hm. transitivity (rs_methods r !! m ≫= (fun mr => Some (if named_in (class c r) m then mr <| mt_className := cn |> else mr)));
    [exact (map_lookup_imap _ (rs_methods r) m)|]. by rewrite Hm.
Qed.

(** Naming the class of [m] settles it. *)
Lemma finalize_class_settles k c m mr cr r r' e :
  finalize_class ctor_name k r = (Ok tt, r') -> find_ctor k (classesByCtor r) = Some e -> ce_reg e = c ->
  rs_classes r !! c = Some cr -> cl_ctor cr = Some k -> rs_methods r !! m = Some mr ->
  named_in cr m = true -> settled c m r'.
Proof.
  intros [[Hno _]|(e' & He' & -> & _)]%finalize_class_inv He Ec Hc Hk Hm Hn; [congruence|].
  rewrite He in He'. injection He' as <-. set (cn := final_name r k e). exists cn. rewrite Ec.
  split; [|split].
  - eexists. split; [apply lookup_insert_eq|done].
  - rewrite named_class_lookup, decide_True, Hc by done.
    change (first_nonempty cn (match cl_ctor cr with Some k => ctor_name k | None => "" end) = cn). rewrite Hk.
    destruct cn eqn:E; [|done]. unfold cn, final_name in E. destruct (ce_name e); [|discriminate E].
    simpl in E. destruct (cl_name _); [|discriminate E]. by rewrite E.
  - eexists. split; [by apply named_class_method|]. rewrite (class_lookup _ _ _ Hc), Hn. done.
Qed.

(** Naming another class leaves it settled. *)
Lemma finalize_class_settled k c m r r' :
  finalize_class ctor_name k r = (Ok tt, r') ->
  (forall e, find_ctor k (classesByCtor r) = Some e -> ce_reg e <> c /\ named_in (class (ce_reg e) r) m = false) ->
  settled c m r -> settled c m r'.
Proof.
  intros Hfin. assert (Hf := finalize_class_finalizing _ _ _ Hfin).
  apply finalize_class_inv in Hfin as [[_ ->]|(e & He & -> & _)]; [done|].
  intros Hk (cn & (e' & He' & Ee') & Hcn & mr & Hm & Emr). destruct (Hk e He) as [Hne Hn].
  exists cn. split; [|split].
  - destruct (fi_name _ _ Hf cn e' He') as (e2 & He2 & E2). exists e2. split; [done|congruence].
  - by rewrite named_class_lookup, decide_False.
  - exists mr. split; [|done]. rewrite (named_class_method _ _ _ _ _ _ Hm), Hn. done.
Qed.

(** Finalizing settles a registration that is at home. *)
Lemma finalize_classes_settles r0 c m cr0 ks r r' :
  registering r0 -> rs_classes r0 !! c = Some cr0 -> is_Some (rs_methods r0 !! m) ->
  named_in cr0 m = true ->
  (forall c' cr' n, rs_classes r0 !! c' = Some cr' -> cl_registeredOperationsByName cr' !! n = Some m -> c' = c) ->
  finalizing r0 r -> finalize_classes ctor_name ks r = (Ok tt, r') ->
  settled c m r \/ (exists k, cl_ctor cr0 = Some k /\ k ∈ ks) ->
  settled c m r'.
Proof.
  intros Hr Hc0 [mr0 Hm0] Hn0 Honly. revert r. induction ks as [|k ks IH]; intros r Hf; simpl.
  - intros [= <-] [Hs|(k & _ & Hk)]; [done|by apply elem_of_nil in Hk].
  - intros ([] & r1 & H1 & H2)%bind_inv_ok Hs. apply (IH r1); [|done|].
    { eapply finalizing_trans; [exact Hf|by eapply finalize_class_finalizing]. }
    destruct (decide (cl_ctor cr0 = Some k)) as [Ek|Hne].
    + left. assert (H := rk_class r0 Hr c cr0 Hc0). rewrite Ek in H. destruct H as (e0 & He0 & Ec).
      assert (H := fi_ctor _ _ Hf k). rewrite He0 in H. simpl in H. apply fmap_Some in H as (e & He & Ee).
      destruct (proj1 (finalizing_class r0 r c Hf) cr0 Hc0) as (cr & Hc & En & _ & _ & Ek').
      destruct (finalizing_method_fwd r0 r m mr0 Hf Hm0) as (mr & Hm & _).
      eapply finalize_class_settles; [done|done|congruence|done|congruence|done|].
      apply named_in_spec. rewrite En. by apply named_in_spec.
    + destruct Hs as [Hs|(k' & Ek' & Hin)]; [|right; exists k'; split; [done|]; set_solver].
      left. eapply finalize_class_settled; [done| |done]. intros e He.
      assert (H := fi_ctor _ _ Hf k). rewrite He in H. simpl in H. symmetry in H.
      apply fmap_Some in H as (e0 & He0 & Ee). destruct (rk_by_ctor r0 Hr k e0 He0) as (cr & Hc & _ & Hk).
      assert (ce_reg e <> c) as Hec by (intros <-; rewrite Ee in Hc0; congruence). split; [done|].
      destruct (proj1 (finalizing_class r0 r _ Hf) cr Hc) as (cr' & Hc' & En & _). rewrite <- Ee in Hc'.
      rewrite (class_lookup _ _ _ Hc'). destruct (named_in cr' m) eqn:E; [|done].
      apply named_in_spec in E as [n Hn]. rewrite En in Hn. destruct Hec. rewrite Ee. by apply (Honly _ cr n).
Qed.

(** ** Authorization *)

Section call.
Context {A B : Type} (parse : nat -> A -> dbos_error + A).

(** Running interceptors that include the check *)
Lemma run_interceptors_checked mr r user l args role0 :
  getRequiredRoles mr r <> [] -> CheckMethodAuth ∈ l.*2 ->
  match List.find (fun role => bool_decide (role ∈ user)) (getRequiredRoles mr r) with
  | None => exists e, run_interceptors parse mr r user l args role0 = inl e
  | Some role =>
      ((exists e, run_interceptors parse mr r user l args role0 = inl e)
       \/ exists args', run_interceptors parse mr r user l args role0 = inr (args', Some role))
      /\ ((forall s a, exists a', parse s a = inr a') ->
          exists args', run_interceptors parse mr r user l args role0 = inr (args', Some role))
  end.
Proof.
  intros Hreq. destruct (List.find _ _) as [role|] eqn:Ef.
  - assert (forall l args,
      ((exists e, run_interceptors parse mr r user l args (Some role) = inl e)
       \/ exists args', run_interceptors parse mr r user l args (Some role) = inr (args', Some role))
      /\ ((forall s a, exists a', parse s a = inr a') ->
          exists args', run_interceptors parse mr r user l args (Some role) = inr (args', Some role))) as Hset.
    { clear l args. induction l as [|[n [s|]] l IH]; intros args; simpl; [eauto| |].
      - split; [|intros Hp; destruct (Hp s args) as [a' ->]; by apply IH].
        destruct (parse s args) as [e|a']; [by left; exists e|apply IH].
      - unfold checkMethodAuth. rewrite Ef. destruct (getRequiredRoles mr r); [done|]. apply IH. }
    revert args role0. induction l as [|[n [s|]] l IH]; intros args role0 Hin; simpl in *; [by apply elem_of_nil in Hin| |].
    + assert (CheckMethodAuth ∈ l.*2) as Hin' by set_solver.
      split; [|intros Hp; destruct (Hp s args) as [a' ->]; by apply IH].
      destruct (parse s args) as [e|a']; [by left; exists e|by apply IH].
    + unfold checkMethodAuth. rewrite Ef. destruct (getRequiredRoles mr r); [done|]. apply Hset.
  - revert args role0. induction l as [|[n [s|]] l IH]; intros args role0 Hin; simpl in *; [by apply elem_of_nil in Hin| |].
    + assert (CheckMethodAuth ∈ l.*2) as Hin' by set_solver.
      destruct (parse s args) as [e|a']; [by exists e|by apply IH].
    + unfold checkMethodAuth. rewrite Ef. destruct (getRequiredRoles mr r); [done|]. by eexists.
Qed.
End call.

(** The roles a launched registration requires *)
Lemma launched_roles r r1 mr0 cn l :
  intercepting (r1 <| installedMiddleware := true |> <| dbosLaunched := true |>) r ->
  getRequiredRoles (mr0 <| mt_className := cn |> <| mt_onEnter := l |>) r <> [] ->
  should_check r1 (mr0 <| mt_className := cn |>) = true.
Proof.
  intros [[ms ->] _] Hreq. unfold getRequiredRoles in Hreq. unfold should_check. apply orb_true_iff.
  change (info_roles (mt_externalRegInfo (_ <| mt_onEnter := l |>))) with (info_roles (mt_externalRegInfo mr0)) in Hreq.
  destruct (info_roles (mt_externalRegInfo mr0)) as [roles|] eqn:E.
  - right. apply bool_decide_eq_true. exists roles. exact E.
  - left. apply bool_decide_eq_true. change (is_Some (defaults_roles mr0 r1)).
    change (default [] (defaults_roles mr0 r1) <> []) in Hreq. by destruct (defaults_roles mr0 r1).
Qed.

(** C32: Required roles are enforced: in a program that registered anything in any order, failed
    registrations included, and was launched, a registered function that requires roles, itself
    or by its class, runs its body only for a user who has one of them, and under the first
    such role; for any other user the body does not run. *)
Theorem authorization_enforced {A B} (parse : nat -> A -> dbos_error + A) xs r f m user args role0 :
  launch ctor_name (register_all ctor_name xs empty_registry) = (Ok tt, r) ->
  functionToRegistration r !! f = Some m ->
  getRequiredRoles (method m r) r <> [] ->
  match List.find (fun role => bool_decide (role ∈ user)) (getRequiredRoles (method m r) r) with
  | None =>
      exists e, forall body : A -> option string -> dbos_error + B,
        call_registered parse body (method m r) r user args role0 = inl e
  | Some role =>
      ((exists e, forall body : A -> option string -> dbos_error + B,
          call_registered parse body (method m r) r user args role0 = inl e)
       \/ exists args', forall body : A -> option string -> dbos_error + B,
          call_registered parse body (method m r) r user args role0 = body args' (Some role))
      /\ ((forall s a, exists a', parse s a = inr a') ->
          exists args', forall body : A -> option string -> dbos_error + B,
            call_registered parse body (method m r) r user args role0 = body args' (Some role))
  end.
Proof.
  intros Hl Hf Hreq. set (r0 := register_all ctor_name xs empty_registry) in *.
  assert (registering r0) as Hr by apply registering_all.
  assert (Hf0 := Hf). rewrite (launched_functions r0 r Hr Hl) in Hf0.
  destruct (rk_function r0 Hr f m Hf0) as (mr0 & Hm0 & _).
  destruct (launched_method r0 r m mr0 Hr Hl Hm0) as (r1 & l & cn & H1 & Hi & Hm1 & Hm & Hc).
  rewrite (method_lookup _ _ _ Hm) in Hreq |- *.
  assert (H := run_interceptors_checked parse _ r user l args role0 Hreq (Hc (launched_roles _ _ _ _ _ Hi Hreq))).
  unfold call_registered. change (mt_onEnter (_ <| mt_onEnter := l |>)) with l.
  destruct (List.find _ _) as [role|].
  - destruct H as [H H']. split.
    + destruct H as [[e ->]|[args' ->]]; [left; by exists e|right; by exists args'].
    + intros Hp. destruct (H' Hp) as [args' ->]. by exists args'.
  - destruct H as [e ->]. by exists e.
Qed.

Lemma find_ctor_in k l e : find_ctor k l = Some e -> k ∈ l.*1.
Proof.
  induction l as [|[k' e'] l IH]; simpl; [done|]. destruct (Nat.eqb_spec k k') as [->|]; intros H; [by left|right; auto].
Qed.

(** What launching settles *)
Lemma launched_settled r0 r f m :
  registering r0 -> launch ctor_name r0 = (Ok tt, r) -> functionToRegistration r !! f = Some m -> at_home m r ->
  settled (mt_classReg (method m r)) m r.
Proof.
  intros Hr Hl Hf [Hname Honly]. rewrite (launched_functions r0 r Hr Hl) in Hf.
  destruct (rk_function r0 Hr f m Hf) as (mr0 & Hm0 & Hi0).
  destruct (rk_method r0 Hr m mr0 Hm0) as (cr0 & Hc0 & _ & Hdef). destruct (Hdef Hi0) as [_ Hcn].
  destruct (launched_method r0 r m mr0 Hr Hl Hm0) as (r1 & l & cn & H1 & Hic & Hm1 & Hm & _).
  rewrite (method_lookup _ _ _ Hm) in *.
  change (mt_classReg (_ <| mt_onEnter := l |>)) with (mt_classReg mr0) in *. set (c := mt_classReg mr0) in *.
  assert (Hfi := finalize_classes_finalizing _ _ _ H1).
  destruct (intercepting_rest _ _ Hic) as (Ecl & _ & Enm & _).
  change (rs_classes (_ <| dbosLaunched := true |>)) with (rs_classes r1) in Ecl.
  change (classesByName (_ <| dbosLaunched := true |>)) with (classesByName r1) in Enm.
  assert (forall c', class c' r = class c' r1) as Ecls by (intros c'; unfold class; by rewrite Ecl).
  destruct (proj1 (finalizing_class r0 r1 c Hfi) cr0 Hc0) as (cr1 & Hc1 & En1 & _).
  assert (settled c m r1) as (cn' & (e & He & Ee) & Hcn' & mr1 & Hmr1 & Emr1).
  { eapply (finalize_classes_settles r0 c m cr0); [done|done|by eexists| | |apply finalizing_refl|exact H1|].
    - apply named_in_spec. rewrite Ecls, (class_lookup _ _ _ Hc1), En1 in Hname. by eexists.
    - intros c' cr' n Hc' Hn. destruct (proj1 (finalizing_class r0 r1 c' Hfi) cr' Hc') as (cr1' & Hc1' & En1' & _).
      apply (Honly c' n). by rewrite Ecls, (class_lookup _ _ _ Hc1'), En1'.
    - assert (H := rk_class r0 Hr c cr0 Hc0). destruct (cl_ctor cr0) as [k|] eqn:Ek.
      + right. exists k. split; [done|]. destruct H as (e & He & _). by eapply find_ctor_in.
      + left. destruct H as (e & He & Ee). exists (cl_name cr0). split; [by exists e|]. split.
        * rewrite (class_lookup _ _ _ Hc0). unfold class_getClassName. rewrite Ek. by destruct (cl_name cr0).
        * by exists mr0. }
  exists cn'. split; [exists e; by rewrite Enm|]. split; [by rewrite Ecls|].
  eexists. split; [exact Hm|]. rewrite Hm1 in Hmr1. injection Hmr1 as <-. exact Emr1.
Qed.

(** C31: Recovery finds the function that started a workflow: in a program that registered anything in
    any order and was launched, a function that is registered under its own name, in its own
    class and in no other, is what looking up the class name and function name that its
    workflows are stored with finds. *)
Theorem recovery_finds xs r f m fname :
  launch ctor_name (register_all ctor_name xs empty_registry) = (Ok tt, r) ->
  functionToRegistration r !! f = Some m ->
  at_home m r ->
  let '(className, name) := getRegisteredFunctionFullName ctor_name f fname r in
  (getFunctionRegistrationByName className name r).1 = Ok (Some m).
Proof.
  intros Hl Hf Hhome. assert (Hr := registering_all xs).
  destruct (launched_settled _ r f m Hr Hl Hf Hhome) as (cn & (e & He & Ee) & Hcn & mr & Hm & Emr).
  unfold getRegisteredFunctionFullName. rewrite Hf. unfold method_getClassName.
  rewrite (method_lookup _ _ _ Hm) in *. rewrite Emr, Hcn.
  assert (first_nonempty cn cn = cn) as -> by by destruct cn.
  unfold getFunctionRegistrationByName, getClassRegistrationByName, bind, get_class. rewrite He. simpl.
  destruct Hhome as [Hn _]. rewrite (method_lookup _ _ _ Hm) in Hn. rewrite Ee. f_equal.
  destruct (cl_needsInitialized _); [|exact Hn]. rewrite <- Hn. unfold class.
  change (rs_classes (r <| rs_classes ::= ?g |>)) with (g (rs_classes r)).
  etrans; [apply f_equal, f_equal, f_equal; apply (lookup_alter_eq _ (rs_classes r) (mt_classReg mr))|].
  by destruct (rs_classes r !! mt_classReg mr).
Qed.
End registered.

(** * Programs *)

(** A class [Shop] *)
Definition shop_ctor (k : nat) : string := match k with O => "Shop" | _ => "" end.

Definition named (name : option string) : WorkflowOptions :=
  WorkflowOptionsOf name (WorkflowConfigOf None None) None.

(** [@DBOS.workflow({name}) @DBOS.requiredRole(['clerk', 'admin']) static async pay(...)]: the
    inner decorator runs first, and the outer one gets what it made of the function. *)
Definition shop (name : option string) : list registration :=
  [RequiredRole (Static_of 0) "pay" ["clerk"; "admin"] (App 0); Workflow (Static_of 0) "pay" (named name) (Made 2)].

(** The registries of a launched program *)
Definition launched (xs : list registration) : Registry :=
  (launch shop_ctor (register_all shop_ctor xs empty_registry)).2.

(** The registration that the program makes *)
Definition the_registration : nat := 1.

Lemma shop_class name :
  name = None -> rs_classes (launched (shop name)) = {[ 0%nat := class 0 (launched (shop name)) ]}.
Proof. intros ->. by vm_compute. Qed.

Lemma recovery_finds_witness :
  getRegisteredFunctionFullName shop_ctor (Made 3) "pay" (launched (shop None)) = ("Shop", "pay")
  /\ (getFunctionRegistrationByName "Shop" "pay" (launched (shop None))).1 = Ok (Some the_registration).
Proof.
  split; [by vm_compute|].
  refine (recovery_finds shop_ctor (shop None) (launched (shop None)) (Made 3) the_registration "pay" _ _ _);
    [by vm_compute|by vm_compute|].
  split; [by vm_compute|]. intros c n. unfold class. rewrite (shop_class None eq_refl).
  destruct (decide (c = 0%nat)) as [->|Hne]; [by vm_compute|]. rewrite lookup_singleton_ne by done. discriminate.
Defined.

Lemma authorization_enforced_witness :
  exists args', forall body : nat -> option string -> dbos_error + nat,
    call_registered (fun _ a => inr a) body (method the_registration (launched (shop None))) (launched (shop None))
      ["visitor"; "admin"] 7%nat None = body args' (Some "admin").
Proof.
  refine (proj2 (authorization_enforced shop_ctor (fun _ a => inr a) (shop None) (launched (shop None)) (Made 3)
    the_registration ["visitor"; "admin"] 7%nat None _ _ _) _); [by vm_compute|by vm_compute|by vm_compute|eauto].
Defined.

(** A workflow that gets a name of its own after another decorator registered the function: its
    workflows are stored under the property's name, and only the other one is found. *)
Lemma renamed_workflow_not_found :
  getRegisteredFunctionFullName shop_ctor (Made 3) "pay" (launched (shop (Some "payment"))) = ("Shop", "pay")
  /\ (getFunctionRegistrationByName "Shop" "pay" (launched (shop (Some "payment")))).1 = Ok None
  /\ (getFunctionRegistrationByName "Shop" "payment" (launched (shop (Some "payment")))).1
     = Ok (Some the_registration).
Proof. by vm_compute. Qed.

(** A name for the class of a constructor is refused unless it is the constructor's own. *)
Lemma class_alias_refused ctor_name t className r :
  find_ctor (target_ctor t) (classesByCtor r) = None ->
  ctor_name (target_ctor t) <> "" -> ctor_name (target_ctor t) <> className ->
  (getOrCreateClassRegistration ctor_name (Some t) (Some className) r).1
  = Throw (JsTypeError ("Attempt to register class under two names: " +:+ ctor_name (target_ctor t) +:+ " vs. " +:+ className)).
Proof.
  intros Hk H1 H2. unfold getOrCreateClassRegistration, getClassRegistration, bind. rewrite Hk. cbv zeta beta iota.
  cbn [ce_name]. by rewrite (bool_decide_false _ H1), (bool_decide_false _ H2).
Qed.

(** The class requires a role of every method.  The program is launched and shut down, registers
    one more method of the class, and is launched again. *)
Definition relaunched : Registry :=
  let r1 := launched [DefaultRequiredRole ["admin"] 0%nat] in
  let r2 := (recordDBOSShutdown r1).2 in
  let r3 := register_all shop_ctor
              [RegisterWorkflow (Some (Static_of 0)) None (named None) "refund" (App 0)] r2 in
  (launch shop_ctor r3).2.

(** The new method requires the role, and runs for a user who has none. *)
Lemma relaunched_unchecked (body : nat -> option string -> dbos_error + nat) args :
  exists m, functionToRegistration relaunched !! (App 0) = Some m
  /\ getRequiredRoles (method m relaunched) relaunched = ["admin"]
  /\ call_registered (fun _ a => inr a) body (method m relaunched) relaunched [] args None = body args None.
Proof. exists 1%nat. split; [by vm_compute|]. split; [by vm_compute|]. by vm_compute. Qed.
