(* ===== verification/Kafka.v ===== *)
(** The Kafka receivers (packages/kafkajs-receive and packages/confluent-kafka-receive) and the
    batch enqueueing they use (src/src/eventreceiver.ts, [prepareEnqueuedWorkflow] of
    src/src/dbos-executor.ts).

    A consumer takes batches of messages and enqueues a workflow for each; it resolves the offsets
    of a chunk once its workflows are durable.  The broker, its commits, and the other processes
    are around it: a batch comes with what happens at each of its pauses, and the consumer may die
    at any of them.  Not modelled: connecting, subscribing and the logging. *)

From Stdlib Require Import Ascii.
From stdpp Require Import pretty.
From S2P Require Export Serialization.
From S2P Require Export Lifecycle Registry.
From S2P Require Import Registered.
From S2P Require Import QueueRunner Crontab.
From Stdlib Require Import QArith.

Open Scope Z_scope.

(** * Data *)

Inductive KafkaOrdering : Type := NoOrdering | PartitionOrdering | TopicOrdering.

(** [KafkaMessage]: its offset, and the whole message as a value *)
Record KafkaMessage : Type := KafkaMessageOf { km_offset : Z; km_value : jsval }.

(** An element of [topics]: a string, or a regular expression by its text *)
Inductive Topic : Type := TopicName (s : string) | TopicPattern (text : string).

#[export] Instance Topic_eq_dec : EqDecision Topic.
Proof. solve_decision. Defined.

(** [KafkaMethodConfig]; the group is that of [config], when there is one *)
Record KafkaMethodConfig : Type := KafkaMethodConfigOf {
  km_topics : list Topic;
  km_groupId : option string;
  km_queueName : option string;
  km_ordering : KafkaOrdering;
  km_batchSize : nat;
  km_consumerQueueName : string
}.

(** The two packages, and what differs between them here: the prefix of the workflow IDs, the
    names of the queues, and whether a backoff heartbeats *)
Record Package : Type := PackageOf {
  pk_idPrefix : string;
  pk_queueName : string;
  pk_orderedQueueName : string;
  pk_heartbeats : bool
}.

Definition kafkajs : Package :=
  PackageOf "kafkajs-" "_dbos_kafkajs_queue" "_dbos_kafkajs_ordered_queue" true.
Definition confluent : Package :=
  PackageOf "confluent-kafka-" "_dbos_confluent_kafka_queue" "_dbos_confluent_kafka_ordered_queue" false.

Definition DEFAULT_BATCH_SIZE : Z := 250.
Definition MIN_RETRY_WAIT_MS : Z := 1000.
Definition MAX_RETRY_WAIT_MS : Z := 60000.
Definition HEARTBEAT_SLICE_MS : Z := 3000.

(** [PrepareEnqueuedWorkflowOptions] *)
Record PrepareEnqueuedWorkflowOptions : Type := PrepareEnqueuedWorkflowOptionsOf {
  po_queueName : string;
  po_workflowID : string;
  po_queuePartitionKey : option string
}.

(** What the process reads when it assembles a row: its executor, version and application *)
Record Globals : Type := GlobalsOf {
  gp_executorID : string;
  gp_appVersion : string;
  gp_appID : string
}.

(** * Registering consumers *)

Module KafkaReceiver.

(** [r.toString()] *)
Definition topic_text (t : Topic) : string := match t with TopicName s | TopicPattern s => s end.

(** What the class [[^a-zA-Z0-9\\-]] leaves: letters, digits, backslashes and dashes *)
Definition is_safe (c : ascii) : bool :=
  let n := nat_of_ascii c in
  ((48 <=? n) && (n <=? 57) || (65 <=? n) && (n <=? 90) || (97 <=? n) && (n <=? 122)
   || (n =? 92) || (n =? 45))%nat.

Fixpoint keep_safe (s : string) : string :=
  match s with
  | "" => ""
  | String c s' => if is_safe c then String c (keep_safe s') else keep_safe s'
  end.

(** [safeGroupName] *)
Definition safeGroupName (className methodName : string) (topics : list Topic) : string :=
  String.substring 0 255
    ("dbos-kafka-group-"
       +:+ Crontab.join "-" (keep_safe <$> (className :: methodName :: (topic_text <$> topics)))).

(** A text in quotation marks *)
Definition in_quotes (s : string) : string := String dquote (s +:+ String dquote "").

(** [qualifiedName] *)
Definition qualifiedName (className name : string) : string :=
  match className with "" => name | _ => className +:+ "." +:+ name end.

(** An entry of [registrations] *)
Record GroupRegistration : Type := GroupRegistrationOf {
  gr_funcName : string;
  gr_groupId : string;
  gr_topics : list Topic
}.

(** What [#validateConsumerGroups] throws: the two consumers, their group, and the topics they
    share; or, for kafkajs only, that their topics differ *)
Inductive group_error : Type :=
| ShareTopics (a b groupId : string) (shared : list string)
| ShareGroup (a b groupId : string).

(** The topics two kafkajs consumers share: their texts *)
Definition shared_texts (a b : list Topic) : list string :=
  List.filter (fun t => mem t (topic_text <$> a)) (topic_text <$> b).

Section groups.

(** [RegExp.prototype.test] of a pattern given by its text *)
Context (test : string -> string -> bool).

(** [overlappingTopics]: a set in insertion order *)
Definition overlap (x y : Topic) : option string :=
  match x, y with
  | TopicName a, TopicName b => if bool_decide (a = b) then Some a else None
  | TopicName a, TopicPattern p => if test p a then Some a else None
  | TopicPattern p, TopicName b => if test p b then Some b else None
  | TopicPattern p, TopicPattern q => if bool_decide (p = q) then Some p else None
  end.

Definition add_new (shared : list string) (o : option string) : list string :=
  match o with
  | Some s => if mem s shared then shared else shared ++ [s]
  | None => shared
  end.

Definition overlappingTopics (a b : list Topic) : list string :=
  foldl (fun shared x => foldl (fun shared y => add_new shared (overlap x y)) shared b) [] a.

(** What is wrong with one pair, in each package *)
Definition check_pair_kafkajs (a b : GroupRegistration) : option group_error :=
  if bool_decide (gr_groupId a = gr_groupId b) then
    match shared_texts (gr_topics a) (gr_topics b) with
    | [] => Some (ShareGroup (gr_funcName a) (gr_funcName b) (gr_groupId a))
    | shared => Some (ShareTopics (gr_funcName a) (gr_funcName b) (gr_groupId a)
                        (order_by String.leb shared))
    end
  else None.

Definition check_pair_confluent (a b : GroupRegistration) : option group_error :=
  if bool_decide (gr_groupId a = gr_groupId b) then
    match overlappingTopics (gr_topics a) (gr_topics b) with
    | [] => None
    | shared => Some (ShareTopics (gr_funcName a) (gr_funcName b) (gr_groupId a)
                        (order_by String.leb shared))
    end
  else None.

Fixpoint first_error {A B} (f : A -> option B) (l : list A) : option B :=
  match l with
  | [] => None
  | x :: l' => match f x with Some e => Some e | None => first_error f l' end
  end.

(** [#validateConsumerGroups]: every pair, in the order of the loops *)
Fixpoint validateConsumerGroups (check : GroupRegistration -> GroupRegistration -> option group_error)
    (registrations : list GroupRegistration) : option group_error :=
  match registrations with
  | [] => None
  | a :: rest =>
      match first_error (check a) rest with
      | Some e => Some e
      | None => validateConsumerGroups check rest
      end
  end.

End groups.

(** [new WorkflowQueue(name, params)] *)
Definition new_WorkflowQueue (name : string) (p : QueueParameters) (r : Runner)
    : outcome dbos_error WorkflowQueue * Runner :=
  let q := WorkflowQueueOf name (p_concurrency p) (p_rateLimit p) (p_workerConcurrency p)
             (default false (p_priorityEnabled p)) (default false (p_partitionQueue p))
             (p_minPollingIntervalMs p) false in
  match validateQueueParams p with
  | Some e => (Throw e, r)
  | None =>
      match find_queue name (rn_wfQueuesByName r) with
      | Some _ => (Throw (DBOSError ("Workflow Queue '" +:+ name +:+ "' defined multiple times")), r)
      | None => (Ok q, r <| rn_wfQueuesByName := rn_wfQueuesByName r ++ [q] |>)
      end
  end.

(** [getOrCreateQueue] *)
Definition getOrCreateQueue (name : string) (p : QueueParameters) (r : Runner)
    : outcome dbos_error WorkflowQueue * Runner :=
  match find_queue name (rn_wfQueuesByName r) with
  | Some q => (Ok q, r)
  | None => new_WorkflowQueue name p r
  end.

Definition no_params : QueueParameters := QueueParametersOf None None None None None None.

(** [getKafkaQueue], [getKafkaOrderedQueue] *)
Definition getKafkaQueue (pk : Package) : Runner -> outcome dbos_error WorkflowQueue * Runner :=
  getOrCreateQueue (pk_queueName pk) no_params.

Definition getKafkaOrderedQueue (pk : Package) : Runner -> outcome dbos_error WorkflowQueue * Runner :=
  getOrCreateQueue (pk_orderedQueueName pk)
    (QueueParametersOf None (Some 1) None None (Some true) None).

(** [registerPollerQueue] *)
Definition registerPollerQueue (name : string) (r : Runner) : Runner :=
  if mem name (rn_pollerQueueNames r) then r
  else r <| rn_pollerQueueNames := rn_pollerQueueNames r ++ [name] |>.

(** [KafkaConsumerOptions], as they are given: any text and any number *)
Record KafkaConsumerOptions : Type := KafkaConsumerOptionsOf {
  co_queueName : option string;
  co_groupId : option string;
  co_ordering : option string;
  co_batchSize : option Q
}.

Definition ordering_of (s : string) : option KafkaOrdering :=
  if bool_decide (s = "none") then Some NoOrdering
  else if bool_decide (s = "partition") then Some PartitionOrdering
  else if bool_decide (s = "topic") then Some TopicOrdering
  else None.

(** [Number.isInteger(n) && n >= 1] *)
Definition positive_integer (n : Q) : option nat :=
  let n := Qred n in
  if (Zpos (Qden n) =? 1) && (1 <=? Qnum n) then Some (Z.to_nat (Qnum n)) else None.

Definition is_ordered (o : KafkaOrdering) : bool :=
  match o with NoOrdering => false | _ => true end.

(** [consumerQueueName]: the name of the queue, which is made if there is none *)
Definition consumer_queue (pk : Package) (ordering : KafkaOrdering) (queueName : option string)
    (r : Runner) : outcome dbos_error string * Runner :=
  let name_of (qr : outcome dbos_error WorkflowQueue * Runner) :=
    (match qr.1 with Ok q => Ok (wq_name q) | Throw e => Throw e end, qr.2) in
  if is_ordered ordering then name_of (getKafkaOrderedQueue pk r)
  else match queueName with
       | Some name => (Ok name, r)
       | None => name_of (getKafkaQueue pk r)
       end.

(** [registerConsumer], up to the association with the function: the configuration it stores *)
Definition registerConsumer (pk : Package) (topics : list Topic) (o : KafkaConsumerOptions)
    (r : Runner) : outcome dbos_error KafkaMethodConfig * Runner :=
  let text := default "none" (co_ordering o) in
  match ordering_of text with
  | None => (Throw (DBOSError ("Invalid Kafka ordering " +:+ in_quotes text +:+ ": must be " +:+ in_quotes "none"
                        +:+ ", " +:+ in_quotes "partition" +:+ ", or " +:+ in_quotes "topic")), r)
  | Some ordering =>
      match positive_integer (default (inject_Z DEFAULT_BATCH_SIZE) (co_batchSize o)) with
      | None => (Throw (DBOSError "Kafka batchSize must be a positive integer"), r)
      | Some batchSize =>
          match co_queueName o, ordering with
          | Some _, (PartitionOrdering | TopicOrdering) =>
              (Throw (DBOSError ("A custom queue is only supported with ordering=" +:+ in_quotes "none"
                  +:+ "; ordered consumers share an internal partitioned queue")), r)
          | queueName, _ =>
              match consumer_queue pk ordering queueName r with
              | (Throw e, r) => (Throw e, r)
              | (Ok name, r) =>
                  (Ok (KafkaMethodConfigOf topics (co_groupId o) queueName ordering batchSize name),
                   registerPollerQueue name r)
              end
          end
      end
  end.

(** [#validateConsumerQueue]: [None] is a lookup that fails, which is logged. *)
Definition validateConsumerQueue (funcName queueName : string)
    (lookup : option (option WorkflowQueue)) : option dbos_error :=
  match lookup with
  | Some (Some queue) =>
      if wq_partitionQueue queue
      then Some (DBOSError ("Kafka consumer " +:+ funcName +:+ "'s queue " +:+ queueName
                   +:+ " is a partitioned queue, which a custom Kafka queue must not be; use ordering="
                   +:+ in_quotes "partition" +:+ " or " +:+ in_quotes "topic" +:+ " for ordered processing"))
      else None
  | _ => None
  end.

(** [getQueue]: in memory, or else in the database *)
Definition receiver_getQueue (name : string) (r : Runner) (persisted : string -> option (option QueueRecord))
    : option (option WorkflowQueue) :=
  match find_queue name (rn_wfQueuesByName r) with
  | Some q => Some (Some q)
  | None => option_map (option_map fromRecord) (persisted name)
  end.

(** [ConsumerSpec] *)
Record ConsumerSpec : Type := ConsumerSpecOf {
  cs_func : fn;
  cs_topics : list Topic;
  cs_groupId : string;
  cs_ordering : KafkaOrdering;
  cs_batchSize : nat;
  cs_queueName : string
}.

(** The error of a consumer, or of two *)
Definition receiver_error : Type := dbos_error + group_error.

(** The checks of [initialize] on one registration, with the function that is registered *)
Definition check_registration (r : Runner) (persisted : string -> option (option QueueRecord))
    (op : MethodRegistration * KafkaMethodConfig) : receiver_error + option ConsumerSpec :=
  let (mr, c) := op in
  let funcName := qualifiedName (mt_className mr) (mt_name mr) in
  match mt_registeredFunction mr, km_topics c with
  | None, _ | _, [] => inr None
  | Some func, topics =>
      match mt_workflowConfig mr with
      | None => inl (inl (DBOSError ("Kafka consumer " +:+ funcName +:+ " is not a registered DBOS workflow."
                    +:+ " Register it with DBOS.registerWorkflow, or apply the @DBOS.workflow() decorator beneath @consumer().")))
      | Some _ =>
          if mt_isInstance mr
          then inl (inl (DBOSError ("Kafka consumer " +:+ funcName +:+ " is an instance method, which cannot be enqueued"
                 +:+ " in a batch. Make it static, or register a free function with registerConsumer.")))
          else
            match km_queueName c ≫= (fun q => validateConsumerQueue funcName q (receiver_getQueue q r persisted)) with
            | Some e => inl (inl e)
            | None =>
                inr (Some (ConsumerSpecOf func topics
                             (default (safeGroupName (mt_className mr) (mt_name mr) topics) (km_groupId c))
                             (km_ordering c) (km_batchSize c) (km_consumerQueueName c)))
            end
      end
  end.

Fixpoint check_registrations (r : Runner) (persisted : string -> option (option QueueRecord))
    (ops : list (MethodRegistration * KafkaMethodConfig))
    : receiver_error + list (string * ConsumerSpec) :=
  match ops with
  | [] => inr []
  | op :: ops' =>
      match check_registration r persisted op with
      | inl e => inl e
      | inr o =>
          match check_registrations r persisted ops' with
          | inl e => inl e
          | inr specs =>
              inr (match o with
                   | Some spec => (qualifiedName (mt_className op.1) (mt_name op.1), spec) :: specs
                   | None => specs
                   end)
          end
      end
  end.

(** [initialize], up to the consumers it starts *)
Definition initialize (check : GroupRegistration -> GroupRegistration -> option group_error)
    (r : Runner) (persisted : string -> option (option QueueRecord))
    (ops : list (MethodRegistration * KafkaMethodConfig)) : receiver_error + list ConsumerSpec :=
  match check_registrations r persisted ops with
  | inl e => inl e
  | inr specs =>
      match validateConsumerGroups check
              ((fun s => GroupRegistrationOf s.1 (cs_groupId s.2) (cs_topics s.2)) <$> specs) with
      | Some e => inl (inr e)
      | None => inr specs.*2
      end
  end.

(** * What the registrations promise *)

Lemma first_error_None {A B} (f : A -> option B) l : first_error f l = None <-> Forall (fun x => f x = None) l.
Proof.
  induction l as [|x l IH]; simpl; [by split|]. rewrite Forall_cons.
  destruct (f x); naive_solver.
Qed.

Lemma validateConsumerGroups_None check l :
  validateConsumerGroups check l = None <-> ForallOrdPairs (fun a b => check a b = None) l.
Proof.
  induction l as [|a l IH]; simpl; [split; [constructor|done]|].
  destruct (first_error (check a) l) eqn:E.
  - split; [done|]. intros H. inversion H as [|? ? H1]; subst. apply first_error_None in H1. congruence.
  - rewrite IH. apply first_error_None in E. split; [by constructor|]. by inversion 1.
Qed.

(** kafkajs accepts the consumers exactly when no two have one group. *)
Lemma validateConsumerGroups_kafkajs l :
  validateConsumerGroups check_pair_kafkajs l = None <-> NoDup (gr_groupId <$> l).
Proof.
  rewrite validateConsumerGroups_None.
  assert (forall a b, check_pair_kafkajs a b = None <-> gr_groupId a <> gr_groupId b) as Hp.
  { intros a b. unfold check_pair_kafkajs. case_bool_decide; [|done]. split; [|done].
    by destruct (shared_texts _ _). }
  induction l as [|a l IH]; simpl; [split; constructor|]. rewrite NoDup_cons, <- IH.
  rewrite list_elem_of_fmap. split.
  - inversion 1 as [|? ? H1]; subst. split; [|done]. intros (b & E & Hb).
    apply (proj1 (Forall_forall _ _) H1), Hp in Hb. done.
  - intros [H1 H2]. constructor; [|done]. apply Forall_forall. intros b Hb. apply Hp. naive_solver.
Qed.

Lemma elem_of_add_new s shared o : s ∈ add_new shared o <-> s ∈ shared \/ o = Some s.
Proof.
  destruct o as [t|]; simpl; [|naive_solver]. unfold mem. case_bool_decide; set_solver.
Qed.

Lemma elem_of_overlapping test a b s :
  s ∈ overlappingTopics test a b <-> exists x y, x ∈ a /\ y ∈ b /\ overlap test x y = Some s.
Proof.
  assert (forall x b shared, s ∈ foldl (fun shared y => add_new shared (overlap test x y)) shared b
            <-> s ∈ shared \/ exists y, y ∈ b /\ overlap test x y = Some s) as H1.
  { intros x b'. induction b' as [|y b' IH]; intros shared; simpl; [set_solver|].
    rewrite IH, elem_of_add_new. set_solver. }
  assert (forall a shared, s ∈ foldl (fun shared x => foldl (fun shared y => add_new shared (overlap test x y))
             shared b) shared a
            <-> s ∈ shared \/ exists x y, x ∈ a /\ y ∈ b /\ overlap test x y = Some s) as H2.
  { intros a'. induction a' as [|x a' IH]; intros shared; simpl; [set_solver|].
    rewrite IH, H1. set_solver. }
  unfold overlappingTopics. rewrite H2. set_solver.
Qed.

(** confluent accepts them exactly when no topic of one is subscribed by another of its group. *)
Lemma validateConsumerGroups_confluent test l :
  validateConsumerGroups (check_pair_confluent test) l = None <->
  ForallOrdPairs (fun a b => gr_groupId a = gr_groupId b ->
    forall x y, x ∈ gr_topics a -> y ∈ gr_topics b -> overlap test x y = None) l.
Proof.
  rewrite validateConsumerGroups_None.
  assert (forall a b, check_pair_confluent test a b = None <->
    (gr_groupId a = gr_groupId b ->
     forall x y, x ∈ gr_topics a -> y ∈ gr_topics b -> overlap test x y = None)) as Hp.
  { intros a b. unfold check_pair_confluent. case_bool_decide as Eg; [|by split].
    pose proof (fun s => elem_of_overlapping test (gr_topics a) (gr_topics b) s) as Ho.
    destruct (overlappingTopics _ _ _) as [|s l'].
    - split; [|done]. intros _ _ x y Hx Hy. destruct (overlap test x y) as [s|] eqn:E; [|done].
      assert (s ∈ []) as Hs by (apply Ho; eauto). set_solver.
    - split; [done|]. intros H. destruct (proj1 (Ho s)) as (x & y & Hx & Hy & E); [set_solver|].
      by rewrite (H Eg x y Hx Hy) in E. }
  split; induction 1 as [|a l' H1 _ IH]; constructor; try done;
    (eapply Forall_impl; [exact H1|]; intros b; apply Hp).
Qed.

Lemma find_queue_name name l q : find_queue name l = Some q -> wq_name q = name.
Proof. intros H%List.find_some. destruct H as [_ H]. by apply bool_decide_eq_true in H. Qed.

Lemma find_queue_snoc name l q :
  find_queue name l = None -> wq_name q = name -> find_queue name (l ++ [q]) = Some q.
Proof.
  unfold find_queue. induction l as [|q' l IH]; simpl; intros H E.
  - by rewrite bool_decide_true.
  - case_bool_decide; [done|]. by apply IH.
Qed.

Lemma getOrCreateQueue_spec name p r :
  validateQueueParams p = None ->
  exists q, (getOrCreateQueue name p r).1 = Ok q /\ wq_name q = name
    /\ find_queue name (rn_wfQueuesByName (getOrCreateQueue name p r).2) = Some q
    /\ (find_queue name (rn_wfQueuesByName r) = None ->
         wq_partitionQueue q = default false (p_partitionQueue p) /\ wq_concurrency q = p_concurrency p).
Proof.
  intros Hv. unfold getOrCreateQueue, new_WorkflowQueue. rewrite Hv.
  destruct (find_queue name _) as [q|] eqn:E.
  - exists q. split; [done|]. split; [by eapply find_queue_name|]. split; [done|]. congruence.
  - eexists. split; [done|]. split; [done|]. split; [|done]. simpl. by apply find_queue_snoc.
Qed.

Lemma positive_integer_pos q n : positive_integer q = Some n -> (0 < n)%nat.
Proof.
  unfold positive_integer. destruct ((_ =? 1) && (1 <=? _)) eqn:E; [|done]. intros [= <-].
  apply andb_true_iff in E as [_ E%Z.leb_le]. lia.
Qed.

(** A queue of this process that a poller feeds is polled whatever [listenQueues] says. *)
Lemma poller_listened name q listen r :
  name ∈ rn_pollerQueueNames r -> find_queue name (rn_wfQueuesByName r) = Some q ->
  name <> INTERNAL_QUEUE_NAME -> name ∈ wq_name <$> resolveInMemoryQueues listen r.
Proof.
  intros Hp Hq Hi. pose proof (find_queue_name _ _ _ Hq) as En.
  unfold resolveInMemoryQueues. destruct listen as [entries|].
  - set (l := omap _ _). clearbody l. revert l Hp.
    induction (rn_pollerQueueNames r) as [|p pollers IH]; intros l Hp; [set_solver|]. simpl.
    assert (forall ps (l : list WorkflowQueue), name ∈ wq_name <$> l ->
      name ∈ wq_name <$> foldl (fun result name => match find_queue name (rn_wfQueuesByName r) with
        | Some q => if mem name (wq_name <$> result) then result else result ++ [q]
        | None => result end) l ps) as Hmono.
    { intros ps. induction ps as [|x ps IH']; intros l' Hl; simpl; [done|]. apply IH'.
      destruct (find_queue x _); [|done]. destruct (mem _ _); [done|]. rewrite fmap_app. set_solver. }
    apply elem_of_cons in Hp as [<-|Hp]; [|by apply IH]. apply Hmono. rewrite Hq.
    destruct (mem name (wq_name <$> l)) eqn:Em.
    + by apply mem_spec in Em.
    + rewrite fmap_app. set_solver.
  - apply list_elem_of_fmap. exists q. split; [done|]. apply base.list_elem_of_In, List.filter_In.
    split; [by eapply List.find_some|]. apply negb_true_iff, bool_decide_eq_false. congruence.
Qed.

Lemma registerPollerQueue_in name r : name ∈ rn_pollerQueueNames (registerPollerQueue name r).
Proof.
  unfold registerPollerQueue. destruct (mem _ _) eqn:E; [by apply mem_spec|]. simpl. set_solver.
Qed.

Lemma registerPollerQueue_queues name r :
  rn_wfQueuesByName (registerPollerQueue name r) = rn_wfQueuesByName r.
Proof. unfold registerPollerQueue. by destruct (mem _ _). Qed.

(** The queue of a consumer after its registration: it is polled; a custom queue means no
    ordering; and a queue of the package is in memory, partitioned exactly when the consumer is
    ordered, and then one workflow at a time runs for each partition key. *)
Definition queue_ready (r r' : Runner) (ordering : KafkaOrdering) (queueName : option string)
    (name : string) : Prop :=
  name ∈ rn_pollerQueueNames r'
  /\ match queueName with
     | Some q => is_ordered ordering = false /\ name = q
     | None =>
         exists q, find_queue name (rn_wfQueuesByName r') = Some q
           /\ (find_queue name (rn_wfQueuesByName r) = None ->
               wq_partitionQueue q = is_ordered ordering
               /\ (is_ordered ordering = true -> wq_concurrency q = Some 1))
     end.

Lemma consumer_queue_ready pk ordering queueName r name r' :
  (queueName = None \/ is_ordered ordering = false) ->
  consumer_queue pk ordering queueName r = (Ok name, r') ->
  queue_ready r (registerPollerQueue name r') ordering queueName name.
Proof.
  intros Hq. unfold consumer_queue, getKafkaOrderedQueue, getKafkaQueue, queue_ready.
  rewrite registerPollerQueue_queues.
  destruct (is_ordered ordering) eqn:Eo; [destruct Hq as [->|]; [|done]|destruct queueName as [qn|]].
  - destruct (getOrCreateQueue_spec (pk_orderedQueueName pk)
      (QueueParametersOf None (Some 1) None None (Some true) None) r eq_refl) as (q & E & En & Ef & Es).
    rewrite E. simpl. rewrite En. intros [= <- <-]. split; [apply registerPollerQueue_in|].
    exists q. split; [done|]. intros Hn. by destruct (Es Hn).
  - intros [= <- <-]. split; [apply registerPollerQueue_in|done].
  - destruct (getOrCreateQueue_spec (pk_queueName pk) no_params r eq_refl) as (q & E & En & Ef & Es).
    rewrite E. simpl. rewrite En. intros [= <- <-]. split; [apply registerPollerQueue_in|].
    exists q. split; [done|]. intros Hn. by destruct (Es Hn).
Qed.

Lemma registerConsumer_spec pk topics o r c r' :
  registerConsumer pk topics o r = (Ok c, r') ->
  (0 < km_batchSize c)%nat /\ km_topics c = topics
  /\ queue_ready r r' (km_ordering c) (km_queueName c) (km_consumerQueueName c).
Proof.
  unfold registerConsumer. destruct (ordering_of _) as [ordering|]; [|done].
  destruct (positive_integer _) as [n|] eqn:En; [|done]. apply positive_integer_pos in En.
  destruct (co_queueName o) as [qn|]; [destruct ordering; [|done..]|];
    (destruct (consumer_queue _ _ _ _) as [[name|e] r0] eqn:Eq; [|done]); intros [= <- <-];
    (split; [done|]; split; [done|]);
    eapply consumer_queue_ready; try exact Eq; [by right|by left].
Qed.

(** A consumer that [initialize] starts runs a registered workflow that can be enqueued. *)
Lemma check_registration_enqueueable r persisted mr c spec :
  check_registration r persisted (mr, c) = inr (Some spec) ->
  is_Some (mt_workflowConfig mr) /\ mt_isInstance mr = false
  /\ mt_registeredFunction mr = Some (cs_func spec) /\ cs_topics spec <> []
  /\ cs_queueName spec = km_consumerQueueName c /\ cs_batchSize spec = km_batchSize c.
Proof.
  unfold check_registration. destruct (mt_registeredFunction mr); [|done].
  destruct (km_topics c) as [|t l] eqn:Et; [done|]. destruct (mt_workflowConfig mr); [|done].
  destruct (mt_isInstance mr); [done|]. destruct (_ ≫= _); [done|]. intros [= <-]. simpl.
  by rewrite ?Et.
Qed.

End KafkaReceiver.

(** * The configuration of a confluent consumer *)

Module ConfluentConfig.

(** A setting: a boolean or a text *)
Inductive setting : Type := SBool (b : bool) | SText (s : string).

(** The part [kafkaJS] of a configuration *)
Record KafkaJSConfig : Type := KafkaJSConfigOf {
  kj_groupId : option string;
  kj_fromBeginning : option bool;
  kj_autoCommit : option bool
}.

(** [ConsumerConstructorConfig]: the settings [applyDBOSConsumerConfig] reads; the others pass
    through it. *)
Record ConsumerConfig : Type := ConsumerConfigOf {
  cf_groupId : option string;
  cf_maxBatchSize : option nat;
  cf_autoOffsetReset : option string;
  cf_autoOffsetStore : option setting;
  cf_autoCommit : option setting;
  cf_kafkaJS : option KafkaJSConfig
}.

#[export] Instance KafkaJSConfig_eta : Eta KafkaJSConfig := fun k =>
  KafkaJSConfigOf (kj_groupId k) (kj_fromBeginning k) (kj_autoCommit k).

#[export] Instance ConsumerConfig_eta : Eta ConsumerConfig := fun c =>
  ConsumerConfigOf (cf_groupId c) (cf_maxBatchSize c) (cf_autoOffsetReset c) (cf_autoOffsetStore c)
    (cf_autoCommit c) (cf_kafkaJS c).

(** [groupIdOf] *)
Definition groupIdOf (c : ConsumerConfig) : option string :=
  match cf_groupId c with Some g => Some g | None => cf_kafkaJS c ≫= kj_groupId end.

Fixpoint lower (s : string) : string :=
  match s with "" => "" | String c s' => String (to_lower c) (lower s') end.

(** [isFalsey] *)
Definition isFalsey (v : option setting) : bool :=
  match v with
  | Some (SBool b) => negb b
  | Some (SText s) => mem (lower (trim s)) ["false"; "0"]
  | None => false
  end.

Definition refuses_commit (c : ConsumerConfig) : bool :=
  isFalsey (cf_autoCommit c) || opt_eqb (cf_kafkaJS c ≫= kj_autoCommit) (Some false).

(** [applyDBOSConsumerConfig] *)
Definition applyDBOSConsumerConfig (config : ConsumerConfig) (batchSize : nat) (groupId : string)
    : ConsumerConfig :=
  let resolved := config <| cf_maxBatchSize := Some (default batchSize (cf_maxBatchSize config)) |>
                         <| cf_groupId := Some (default groupId (groupIdOf config)) |> in
  let resolved :=
    match cf_autoOffsetReset resolved, cf_kafkaJS config ≫= kj_fromBeginning with
    | None, None => resolved <| cf_autoOffsetReset := Some "earliest" |>
    | _, _ => resolved
    end in
  let resolved := resolved <| cf_autoOffsetStore := None |> in
  if refuses_commit resolved then
    let resolved := resolved <| cf_autoCommit := Some (SBool true) |> in
    if opt_eqb (cf_kafkaJS resolved ≫= kj_autoCommit) (Some false)
    then resolved <| cf_kafkaJS ::= option_map (fun k => k <| kj_autoCommit := Some true |>) |>
    else resolved
  else resolved.

(** Whatever the configuration says, the consumer joins the group its workflow IDs name, commits
    what the receiver resolves and stores no offsets by itself; where the configuration says where
    to start, that stays; and applying the settings again changes nothing. *)
Lemma applyDBOSConsumerConfig_spec config batchSize groupId :
  let resolved := applyDBOSConsumerConfig config batchSize groupId in
  groupIdOf resolved = Some (default groupId (groupIdOf config))
  /\ refuses_commit resolved = false /\ cf_autoOffsetStore resolved = None
  /\ cf_maxBatchSize resolved = Some (default batchSize (cf_maxBatchSize config))
  /\ (cf_autoOffsetReset resolved = cf_autoOffsetReset config
      \/ cf_autoOffsetReset config = None /\ cf_kafkaJS config ≫= kj_fromBeginning = None
         /\ cf_autoOffsetReset resolved = Some "earliest")
  /\ applyDBOSConsumerConfig resolved batchSize groupId = resolved.
Proof.
  destruct config as [g m reset store commit kj].
  unfold applyDBOSConsumerConfig, refuses_commit. cbv zeta. simpl.
  destruct reset as [reset|], kj as [[kg fb kc]|]; simpl; try destruct fb as [fb|]; simpl;
    destruct (isFalsey commit) eqn:Ec; try destruct kc as [[]|]; simpl; rewrite ?Ec; simpl; auto 10.
Qed.

End ConfluentConfig.

(** * Assembling a workflow *)

Section prepare.

(** [serializeFunctionInputOutput] with the serializer of the executor: the text and the name of
    its format, or the message of what it throws *)
Context (serializeFunctionInputOutput : jsval -> option string -> string + string * string)
        (globalParams : Globals) (ctor_name : nat -> string).

(** [prepareEnqueuedWorkflow]; [fname] is the name of the function itself. *)
Definition prepareEnqueuedWorkflow (r : Registry) (wf : fn) (fname : string) (args : list jsval)
    (o : PrepareEnqueuedWorkflowOptions) (now : Z) : outcome dbos_error WorkflowStatusInternal :=
  let not_registered :=
    DBOSNotRegisteredError fname (Some (fname +:+ " is not a registered workflow function")) in
  match functionToRegistration r !! wf with
  | None => Throw not_registered
  | Some m =>
      let wInfo := method m r in
      match mt_workflowConfig wInfo with
      | None => Throw not_registered
      | Some config =>
          if mt_isInstance wInfo then
            Throw (DBOSError ("Cannot enqueue instance method " +:+ KafkaReceiver.in_quotes (mt_name wInfo)
                     +:+ " in a batch. Only static methods and free functions can be used."))
          else
            let (workflowClassName, workflowName) := getRegisteredFunctionFullName ctor_name wf fname r in
            let serializationType := wc_serialization config in
            let value := if opt_eqb serializationType (Some "portable")
                         then VObj [("positionalArgs", VArr args)] else VArr args in
            match serializeFunctionInputOutput value serializationType with
            | inl cause => Throw (DBOSInvalidWorkflowInputError workflowName cause)
            | inr (stringified, sername) =>
                Ok {| i_workflowUUID := po_workflowID o;
                      i_status := ENQUEUED;
                      i_workflowName := workflowName;
                      i_workflowClassName := workflowClassName;
                      i_workflowConfigName := "";
                      i_queueName := Some (po_queueName o);
                      i_authenticatedUser := "";
                      i_output := None;
                      i_error := None;
                      i_input := Some stringified;
                      i_assumedRole := "";
                      i_authenticatedRoles := [];
                      i_request := JObj [];
                      i_executorId := Some (gp_executorID globalParams);
                      i_applicationVersion := Some (gp_appVersion globalParams);
                      i_applicationID := gp_appID globalParams;
                      i_createdAt := now;
                      i_updatedAt := None;
                      i_recoveryAttempts := None;
                      i_timeoutMS := None;
                      i_deadlineEpochMS := None;
                      i_deduplicationID := None;
                      i_priority := 0;
                      i_queuePartitionKey := po_queuePartitionKey o;
                      i_startedAtEpochMs := None;
                      i_forkedFrom := None;
                      i_wasForkedFrom := false;
                      i_parentWorkflowID := None;
                      i_serialization := Some sername;
                      i_delayUntilEpochMS := None;
                      i_completedAt := None;
                      i_attributes := None;
                      i_scheduleName := None;
                      i_debounceDeadlineEpochMS := None;
                      i_isDebounced := false |}
            end
      end
  end.

End prepare.

(** * Waiting and retrying *)

(** What ends the handling of a batch before its time: a heartbeat that finds the group
    rebalancing, the death of the process, an error *)
Inductive session_end : Type := Rebalancing | Died | Failed (e : dbos_error) | ConnectionLost.

(** The state of a consumer: the database, the cursors of [#batchCreatedAtCursors], and the
    messages whose offsets are resolved, in order *)
Record KState : Type := KStateOf {
  ks_db : sysdb;
  ks_cursors : gmap string Z;
  ks_resolved : list KafkaMessage
}.

Definition K (A : Type) : Type := M KState session_end A.

(** One round of a backoff: [Date.now()], [signal.aborted] before and after the sleep, and whether
    the heartbeat passes *)
Record Slice : Type := SliceOf {
  sl_now : Z;
  sl_aborted : bool;
  sl_abortedAfter : bool;
  sl_heartbeat : bool
}.

(** The sleep of one round *)
Definition slice_ms (deadline : Z) (s : Slice) : Z := Z.min (deadline - sl_now s) HEARTBEAT_SLICE_MS.

(** [sleepHeartbeating]; the process dies when there is no next round. *)
Fixpoint sleepHeartbeating (deadline : Z) (slices : list Slice) : K unit :=
  match slices with
  | [] => throw Died
  | s :: slices' =>
      if (deadline - sl_now s <=? 0) || sl_aborted s then ret tt
      else if sl_abortedAfter s then ret tt
      else if sl_heartbeat s then sleepHeartbeating deadline slices' else throw Rebalancing
  end.

(** How far one call of [enqueueWorkflows] comes *)
Inductive reach : Type := Answers | LostBefore | LostInserting | LostAnswer.

(** One round of [retryUntilSuccess]: [signal.aborted]; what others do before the call, its clock
    and how far it comes; and the backoff, from its first clock *)
Record Attempt : Type := AttemptOf {
  at_aborted : bool;
  at_others : sysdb -> sysdb;
  at_now : Z;
  at_reach : reach;
  at_start : Z;
  at_slices : list Slice
}.

(** [enqueueWorkflows(prepared)] of eventreceiver.ts on a connection that may be lost: before the
    database has read anything, before it commits, or before its answer arrives *)
Definition enqueue_attempt (prepared : list WorkflowStatusInternal) (a : Attempt)
    : K (list string) := fun st =>
  let d := at_others a (ks_db st) in
  let '(o, cursors, d') := enqueueWorkflows (at_now a) prepared (ks_cursors st) d in
  match at_reach a with
  | Answers => (match o with Ok ids => Ok ids | Throw e => Throw (Failed e) end,
                KStateOf d' cursors (ks_resolved st))
  | LostBefore => (Throw ConnectionLost, KStateOf d (ks_cursors st) (ks_resolved st))
  | LostInserting => (Throw ConnectionLost, KStateOf d cursors (ks_resolved st))
  | LostAnswer => (Throw ConnectionLost, KStateOf d' cursors (ks_resolved st))
  end.

(** [retryUntilSuccess]: [None] when the signal is aborted.  Without heartbeats a backoff is one
    sleep. *)
Fixpoint retryUntilSuccess {A} (heartbeats : bool) (operation : Attempt -> K A) (waitMS : Z)
    (attempts : list Attempt) : K (option A) :=
  match attempts with
  | [] => throw Died
  | a :: attempts' =>
      if at_aborted a then ret None
      else
        let backoff := if heartbeats then sleepHeartbeating (at_start a + waitMS) (at_slices a)
                       else ret tt in
        fun st =>
          match operation a st with
          | (Ok v, st') => (Ok (Some v), st')
          | (Throw _, st') =>
              (backoff ;* retryUntilSuccess heartbeats operation (Z.min (waitMS * 2) MAX_RETRY_WAIT_MS)
                            attempts') st'
          end
  end.

(** * Prefixes *)

Lemma take_length_take {A} n (l : list A) : take (length (take n l)) l = take n l.
Proof.
  rewrite length_take. destruct (Nat.min_spec n (length l)) as [[? ->]|[? ->]]; [done|].
  by rewrite firstn_all, take_ge.
Qed.

Lemma Forall_take_le {A} (P : A -> Prop) n m l :
  (n <= m)%nat -> Forall P (take m l) -> Forall P (take n l).
Proof. intros Hn H. replace n with (n `min` m)%nat by lia. rewrite <- take_take. by apply Forall_take. Qed.

(** * A batch *)

(** [partitionKeyFor] *)
Definition partitionKeyFor (ordering : KafkaOrdering) (groupId topic : string) (partition : Z)
    : option string :=
  match ordering with
  | PartitionOrdering => Some (groupId +:+ ":" +:+ topic +:+ ":" +:+ pretty partition)
  | TopicOrdering => Some (groupId +:+ ":" +:+ topic)
  | NoOrdering => None
  end.

(** [rethrowIfNotPerMessage]: whether an error is the message's own *)
Definition per_message (e : dbos_error) : bool :=
  match e with DBOSInvalidWorkflowInputError _ _ => true | _ => false end.

(** What happens around one chunk: whether the runner has stopped, is stale or the signal aborted;
    the clock; the attempts to enqueue; and whether the heartbeat at the end passes *)
Record ChunkWorld : Type := ChunkWorldOf {
  cw_stopped : bool;
  cw_now : Z;
  cw_attempts : list Attempt;
  cw_heartbeat : bool
}.

Section batch.

Context (serializeFunctionInputOutput : jsval -> option string -> string + string * string)
        (globalParams : Globals) (ctor_name : nat -> string) (package : Package) (registry : Registry).

(** The arguments of [#eachBatch], and where the batch comes from *)
Context (func : fn) (fname topic : string) (partition : Z) (groupId : string)
        (ordering : KafkaOrdering) (batchSize : nat) (queueName : string).

(** The ID of the workflow of a message *)
Definition message_workflowID (m : KafkaMessage) : string :=
  pk_idPrefix package +:+ topic +:+ "-" +:+ pretty partition +:+ "-" +:+ groupId +:+ "-"
    +:+ pretty (km_offset m).

Definition prepare_message (now : Z) (m : KafkaMessage) : outcome dbos_error WorkflowStatusInternal :=
  prepareEnqueuedWorkflow serializeFunctionInputOutput globalParams ctor_name registry func fname
    [VStr topic; VNum partition; km_value m]
    (PrepareEnqueuedWorkflowOptionsOf queueName (message_workflowID m)
       (partitionKeyFor ordering groupId topic partition)) now.

(** The loop over the messages of a chunk: an unprocessable one is dropped. *)
Fixpoint prepare_chunk (now : Z) (chunk : list KafkaMessage) : K (list WorkflowStatusInternal) :=
  match chunk with
  | [] => ret []
  | m :: chunk' =>
      match prepare_message now m with
      | Ok s => let* prepared := prepare_chunk now chunk' in ret (s :: prepared)
      | Throw e => if per_message e then prepare_chunk now chunk' else throw (Failed e)
      end
  end.

(** [payload.resolveOffset] for every message of the chunk *)
Definition resolveOffsets (chunk : list KafkaMessage) : K unit := fun st =>
  (Ok tt, KStateOf (ks_db st) (ks_cursors st) (ks_resolved st ++ chunk)).

(** [if (prepared.length > 0)]: the chunk is retried until it is durable. *)
Definition enqueue_chunk (prepared : list WorkflowStatusInternal) (attempts : list Attempt)
    : K (option (list string)) :=
  match prepared with
  | [] => ret (Some [])
  | _ => retryUntilSuccess (pk_heartbeats package) (enqueue_attempt prepared) MIN_RETRY_WAIT_MS attempts
  end.

(** [#eachBatch]: the loop over the chunks, one world for each *)
Fixpoint eachBatch (messages : list KafkaMessage) (worlds : list ChunkWorld) : K unit :=
  match messages, worlds with
  | [], _ => ret tt
  | _, [] => throw Died
  | _, w :: worlds' =>
      if cw_stopped w then ret tt
      else
        let chunk := take batchSize messages in
        let* prepared := prepare_chunk (cw_now w) chunk in
        let* result := enqueue_chunk prepared (cw_attempts w) in
        match result with
        | None => ret tt
        | Some _ =>
            resolveOffsets chunk ;*
            if cw_heartbeat w then eachBatch (drop batchSize messages) worlds'
            else throw Rebalancing
        end
  end.

(** * A partition and its consumers *)

(** The database, how many messages of the partition are published, and the position up to which
    its group has committed *)
Record Partition : Type := PartitionOf {
  pt_db : sysdb;
  pt_published : nat;
  pt_committed : nat
}.

(** The row that stands for a message: whatever has become of its workflow, it has the name, the
    inputs and the partition key the message gives it. *)
Definition row_of (s : WorkflowStatusInternal) (r : wf_row) : Prop :=
  ws_status r <> DELAYED /\ ws_name r = i_workflowName s
  /\ ws_class_name r = null_if_empty (i_workflowClassName s)
  /\ ws_queue_partition_key r = i_queuePartitionKey s
  /\ ws_inputs r = i_input s /\ ws_serialization r = i_serialization s.

Definition row_for (m : KafkaMessage) (r : wf_row) : Prop :=
  exists now s, prepare_message now m = Ok s /\ row_of s r.

Definition unprocessable (m : KafkaMessage) : Prop :=
  exists now n c, prepare_message now m = Throw (DBOSInvalidWorkflowInputError n c).

(** A message that is done with: its workflow is in the database, or it cannot be serialized. *)
Definition handled (d : sysdb) (m : KafkaMessage) : Prop :=
  unprocessable m
  \/ exists r, workflow_status d !! message_workflowID m = Some r /\ row_for m r.

(** No row has the ID of a message of the partition but that of the message. *)
Definition ids_sound (log : list KafkaMessage) (d : sysdb) : Prop :=
  forall m r, m ∈ log -> workflow_status d !! message_workflowID m = Some r -> row_for m r.

(** What other processes may do: any operations that delete no workflow and take no ID of the
    partition for another workflow.  The other consumers of the partition are among them. *)
Definition polite (log : list KafkaMessage) (f : sysdb -> sysdb) : Prop :=
  forall d, db_ok d -> ids_sound log d -> since true d (f d) /\ ids_sound log (f d).

Definition polite_world (log : list KafkaMessage) (w : ChunkWorld) : Prop :=
  Forall (fun a => polite log (at_others a)) (cw_attempts w).

(** [log] is all that is ever published to the partition.  A consumer, new or not, gets some of
    the published messages from a position that was committed, or an earlier one; what it
    resolves may be committed, now or never. *)
Inductive partition_step (log : list KafkaMessage) : Partition -> Partition -> Prop :=
| publish d p c : (p < length log)%nat ->
    partition_step log (PartitionOf d p c) (PartitionOf d (S p) c)
| others f d p c : polite log f ->
    partition_step log (PartitionOf d p c) (PartitionOf (f d) p c)
| deliver d p c first count cursors worlds c' :
    (first <= c)%nat -> (first + count <= p)%nat -> Forall (polite_world log) worlds ->
    let st := (eachBatch (take count (drop first log)) worlds (KStateOf d cursors [])).2 in
    (c' <= Nat.max c (first + length (ks_resolved st)))%nat ->
    partition_step log (PartitionOf d p c) (PartitionOf (ks_db st) p c').

(** * Rows and messages *)

Lemma message_workflowID_inj m m' :
  message_workflowID m = message_workflowID m' -> km_offset m = km_offset m'.
Proof.
  unfold message_workflowID. intros H. do 7 apply (inj (String.append _)) in H. by apply (inj pretty).
Qed.

Lemma row_of_evolves s r r' : row_of s r -> row_evolves true r r' -> row_of s r'.
Proof.
  intros (Hd & Hn & Hc & Hk & Hi & Hs) [E1 E2 E3 _]. destruct (E3 Hd) as [E4 E5].
  injection E1 as E. unfold row_of. rewrite E4, E5.
  split; [|intuition congruence].
  intros Hd'. destruct E2 as [E2|E2]; [congruence|]. rewrite Hd' in E2.
  destruct (ws_status r); naive_solver.
Qed.

Lemma row_for_evolves m r r' : row_for m r -> row_evolves true r r' -> row_for m r'.
Proof. intros (now & s & Hp & Hr) He. exists now, s. split; [done|]. by eapply row_of_evolves. Qed.

Lemma handled_since d d' m : since true d d' -> handled d m -> handled d' m.
Proof.
  intros [_ [Hrow _ _ _]] [Hu|(r & Hr & Hm)]; [by left|right].
  destruct (Hrow _ _ Hr) as (r' & Hr' & He). exists r'. split; [done|]. by eapply row_for_evolves.
Qed.

Lemma prepare_message_ok now m s :
  prepare_message now m = Ok s ->
  i_workflowUUID s = message_workflowID m /\ i_status s = ENQUEUED /\ i_deduplicationID s = None.
Proof.
  unfold prepare_message, prepareEnqueuedWorkflow.
  destruct (functionToRegistration _ !! _); [|done].
  destruct (mt_workflowConfig _); [|done]. destruct (mt_isInstance _); [done|].
  destruct (getRegisteredFunctionFullName _ _ _ _).
  destruct (serializeFunctionInputOutput _ _) as [|[? ?]]; [done|]. by intros [= <-].
Qed.

(** Statuses assembled from messages of the partition *)
Definition from_log (log : list KafkaMessage) (prepared : list WorkflowStatusInternal) : Prop :=
  Forall (fun s => exists now m, m ∈ log /\ prepare_message now m = Ok s) prepared.

Lemma from_log_check log prepared : from_log log prepared -> check_batch prepared = None.
Proof.
  induction 1 as [|s prepared (now & m & _ & Hs) _ IH]; [done|].
  apply prepare_message_ok in Hs as (_ & He & Hd). simpl. by rewrite He, Hd.
Qed.

Lemma batch_rows_inv statuses ts id r :
  (list_to_map (batch_rows statuses ts) : gmap string wf_row) !! id = Some r ->
  exists s t, s ∈ statuses /\ i_workflowUUID s = id /\ r = batch_row t s.
Proof.
  intros H%elem_of_list_to_map_2. unfold batch_rows in H.
  apply elem_of_lookup_zip_with in H as (i & s & t & [= -> ->] & Hs & _).
  exists s, t. split; [by eapply list_elem_of_lookup_2|done].
Qed.

Lemma enqueue_since now statuses cursors d :
  db_ok d -> since true d (enqueueWorkflows now statuses cursors d).2.
Proof.
  intros Hd. pose proof (step_since true d _ (ex_intro _ _ (ex_intro _ _
    (conj (op_enqueueWorkflows true now statuses cursors) eq_refl))) Hd) as H.
  cbv beta in H. by destruct (enqueueWorkflows _ _ _ _) as [[? ?] ?].
Qed.

(** * What handling a batch keeps *)

Section partition.

Context (log : list KafkaMessage) (log_offsets : NoDup (km_offset <$> log)).

Lemma same_message m m' :
  m ∈ log -> m' ∈ log -> message_workflowID m = message_workflowID m' -> m = m'.
Proof.
  intros (i & Hi)%list_elem_of_lookup_1 (j & Hj)%list_elem_of_lookup_1 E%message_workflowID_inj.
  assert (i = j) as ->; [|congruence].
  eapply (NoDup_lookup _ _ _ (km_offset m) log_offsets); rewrite list_lookup_fmap, ?Hi, ?Hj; simpl;
    congruence.
Qed.

(** A batch of the partition is enqueued as a whole, and the IDs stay those of the messages. *)
Lemma enqueue_log now prepared cursors d :
  db_ok d -> ids_sound log d -> from_log log prepared ->
  let res := enqueueWorkflows now prepared cursors d in
  (exists ids, res.1.1 = Ok ids) /\ since true d res.2 /\ ids_sound log res.2
  /\ forall s, s ∈ prepared -> is_Some (workflow_status res.2 !! i_workflowUUID s).
Proof.
  intros Hd Hs Hl.
  pose proof (enqueue_since now prepared cursors d Hd) as Hsince.
  destruct (enqueueWorkflows_run now prepared cursors d) as (ids & E1 & E2 & _ & _);
    [apply Hd | by eapply from_log_check |].
  cbv zeta in *. split; [by exists ids|]. split; [done|].
  rewrite E2. simpl (workflow_status _). split.
  - intros m r Hm. simpl. intros [Hr|[_ Hr]]%lookup_union_Some_raw; [by apply (Hs m)|].
    apply batch_rows_inv in Hr as (s & t & Hin & Hid & ->).
    destruct (proj1 (Forall_forall _ _) Hl s Hin) as (now' & m' & Hm' & Hp).
    destruct (prepare_message_ok _ _ _ Hp) as (Hid' & He & _).
    rewrite (same_message m m' Hm Hm') by congruence. exists now', s. split; [done|].
    unfold row_of, batch_row, status_to_row. simpl. by rewrite He.
  - intros s Hin. simpl. rewrite lookup_union.
    destruct ((list_to_map _ : gmap string wf_row) !! i_workflowUUID s) eqn:El;
      [destruct (workflow_status d !! _); eauto|].
    apply not_elem_of_list_to_map_2 in El.
    rewrite batch_rows_keys in El by apply assignBatchCreatedAt_length.
    destruct El. by apply list_elem_of_fmap_2.
Qed.

(** The invariant of a consumer that started on [d0] and has resolved [done] *)
Definition consuming (d0 : sysdb) (done : list KafkaMessage) (st : KState) : Prop :=
  since true d0 (ks_db st) /\ ids_sound log (ks_db st)
  /\ Forall (handled (ks_db st)) done /\ ks_resolved st = done.

Lemma consuming_since d0 l st d' cursors' :
  consuming d0 l st -> since true (ks_db st) d' -> ids_sound log d' ->
  consuming d0 l (KStateOf d' cursors' (ks_resolved st)).
Proof.
  intros ([Hd He] & Hs & Hl & Hr) [Hd' He'] Hs'. split; [split; [done|by etrans]|].
  split; [done|]. split; [|done]. eapply Forall_impl; [exact Hl|]. intros m. by apply handled_since.
Qed.

Lemma enqueue_attempt_consuming d0 l prepared a st :
  from_log log prepared -> polite log (at_others a) -> consuming d0 l st ->
  consuming d0 l (enqueue_attempt prepared a st).2
  /\ (is_ok (enqueue_attempt prepared a st).1 = true ->
      forall s, s ∈ prepared ->
        is_Some (workflow_status (ks_db (enqueue_attempt prepared a st).2) !! i_workflowUUID s)).
Proof.
  intros Hp Ha Hst. destruct (Hst) as ([Hd _] & Hs & _).
  destruct (Ha _ Hd Hs) as [H1 Hs1]. destruct (H1) as [Hd1 _].
  destruct (enqueue_log (at_now a) prepared (ks_cursors st) _ Hd1 Hs1 Hp)
    as ([ids E] & [Hd2 He2] & Hs2 & Hin).
  unfold enqueue_attempt.
  destruct (enqueueWorkflows _ _ _ _) as [[o cur] d']. simpl in E, Hd2, He2, Hs2, Hin. subst o.
  destruct (at_reach a); (split; [|done]); apply consuming_since; try done;
    (split; [done|]); destruct H1 as [_ He1]; by etrans.
Qed.

Lemma sleepHeartbeating_state deadline slices st : (sleepHeartbeating deadline slices st).2 = st.
Proof.
  induction slices as [|s slices IH]; [done|]. simpl.
  destruct (_ || _); [done|]. destruct (sl_abortedAfter s); [done|]. by destruct (sl_heartbeat s).
Qed.

(** Whatever the connection does, retrying keeps the invariant, and when it returns the workflows
    are in the database. *)
Lemma retry_consuming d0 l prepared heartbeats waitMS attempts st :
  from_log log prepared -> Forall (fun a => polite log (at_others a)) attempts ->
  consuming d0 l st ->
  let res := retryUntilSuccess heartbeats (enqueue_attempt prepared) waitMS attempts st in
  consuming d0 l res.2
  /\ forall v, res.1 = Ok (Some v) ->
       forall s, s ∈ prepared -> is_Some (workflow_status (ks_db res.2) !! i_workflowUUID s).
Proof.
  intros Hp Ha. revert waitMS st.
  induction Ha as [|a attempts Ha _ IH]; intros waitMS st Hst; simpl; [done|].
  destruct (at_aborted a); [done|].
  destruct (enqueue_attempt_consuming d0 l prepared a st Hp Ha Hst) as [H1 H2].
  destruct (enqueue_attempt prepared a st) as [[v|e] st1]; simpl in H1, H2 |- *.
  { split; [done|]. intros _ _. by apply H2. }
  unfold bind. destruct heartbeats; [|by apply IH].
  pose proof (sleepHeartbeating_state (at_start a + waitMS) (at_slices a) st1) as E.
  destruct (sleepHeartbeating _ _ st1) as [[[]|e'] st2]; simpl in E; subst st2; [by apply IH|done].
Qed.

Lemma prepare_chunk_spec now chunk st :
  (prepare_chunk now chunk st).2 = st
  /\ forall prepared, (prepare_chunk now chunk st).1 = Ok prepared ->
      Forall (fun m => unprocessable m
                \/ exists s, s ∈ prepared /\ prepare_message now m = Ok s) chunk
      /\ Forall (fun s => exists m, m ∈ chunk /\ prepare_message now m = Ok s) prepared.
Proof.
  induction chunk as [|m chunk [IH1 IH2]]; simpl.
  { split; [done|]. intros prepared [= <-]. by split. }
  destruct (prepare_message now m) as [s|e] eqn:Em.
  - unfold bind. destruct (prepare_chunk now chunk st) as [[prepared|e] st1]; simpl in *; [|done].
    split; [done|]. intros prepared' [= <-]. destruct (IH2 prepared eq_refl) as [H1 H2]. split.
    + constructor; [right; exists s; split; [by left|done]|].
      eapply Forall_impl; [exact H1|]. intros m' [?|(s' & ? & ?)]; [by left|right].
      exists s'. split; [by right|done].
    + constructor; [exists m; split; [by left|done]|].
      eapply Forall_impl; [exact H2|]. intros s' (m' & ? & ?). exists m'. split; [by right|done].
  - destruct (per_message e) eqn:Ee; [|done]. split; [done|]. intros prepared Hp.
    destruct (IH2 prepared Hp) as [H1 H2]. split.
    + constructor; [left|done]. destruct e; try done. by do 3 eexists.
    + eapply Forall_impl; [exact H2|]. intros s' (m' & ? & ?). exists m'. split; [by right|done].
Qed.

(** A chunk whose workflows are in the database is handled. *)
Lemma chunk_handled d now chunk (prepared : list WorkflowStatusInternal) :
  ids_sound log d -> Forall (fun m => m ∈ log) chunk ->
  Forall (fun m => unprocessable m
            \/ exists s, s ∈ prepared /\ prepare_message now m = Ok s) chunk ->
  (forall s, s ∈ prepared -> is_Some (workflow_status d !! i_workflowUUID s)) ->
  Forall (handled d) chunk.
Proof.
  intros Hs Hin Hc Hp. rewrite !Forall_forall in *. intros m Hm.
  destruct (Hc m Hm) as [?|(s & Hs1 & Hs2)]; [by left|right].
  destruct (prepare_message_ok _ _ _ Hs2) as (E & _ & _).
  destruct (Hp s Hs1) as [r Hr]. rewrite E in Hr. exists r. split; [done|]. by apply (Hs m); auto.
Qed.

Lemma resolve_consuming d0 l chunk st :
  consuming d0 l st -> Forall (handled (ks_db st)) chunk ->
  consuming d0 (l ++ chunk) (resolveOffsets chunk st).2.
Proof.
  intros (H1 & H2 & H3 & H4) Hc. repeat (split; [done|]). simpl. rewrite H4.
  split; [by apply Forall_app|done].
Qed.

Lemma enqueue_chunk_consuming d0 l prepared attempts st :
  from_log log prepared -> Forall (fun a => polite log (at_others a)) attempts ->
  consuming d0 l st ->
  let res := enqueue_chunk prepared attempts st in
  consuming d0 l res.2
  /\ forall v, res.1 = Ok (Some v) ->
       forall s, s ∈ prepared -> is_Some (workflow_status (ks_db res.2) !! i_workflowUUID s).
Proof.
  intros Hp Ha Hst. unfold enqueue_chunk.
  destruct prepared as [|s prepared]; [by split; [|set_solver]|]. by apply retry_consuming.
Qed.

(** One round of the loop *)
Lemma eachBatch_cons messages w worlds :
  messages <> [] ->
  eachBatch messages (w :: worlds) =
    if cw_stopped w then ret tt
    else
      let* prepared := prepare_chunk (cw_now w) (take batchSize messages) in
      let* result := enqueue_chunk prepared (cw_attempts w) in
      match result with
      | None => ret tt
      | Some _ =>
          resolveOffsets (take batchSize messages) ;*
          if cw_heartbeat w then eachBatch (drop batchSize messages) worlds else throw Rebalancing
      end.
Proof. by destruct messages. Qed.

Lemma prepared_from_log now chunk prepared :
  Forall (fun m => m ∈ log) chunk ->
  Forall (fun s => exists m, m ∈ chunk /\ prepare_message now m = Ok s) prepared ->
  from_log log prepared.
Proof.
  intros Hm Hp. eapply Forall_impl; [exact Hp|]. intros s (m & Hin & Hs). exists now, m.
  split; [|done]. by apply (proj1 (Forall_forall _ _) Hm).
Qed.

(** The offsets a batch resolves are those of its first messages, and all of these are handled. *)
Lemma eachBatch_consuming d0 l messages worlds st :
  Forall (fun m => m ∈ log) messages -> Forall (polite_world log) worlds -> consuming d0 l st ->
  exists k, consuming d0 (l ++ take k messages) (eachBatch messages worlds st).2.
Proof.
  intros Hm Hw. revert l messages st Hm.
  induction Hw as [|w worlds Hw _ IH]; intros l messages st Hm Hst;
    (assert (forall st, consuming d0 l st -> exists k, consuming d0 (l ++ take k messages) st) as Hstop
       by (intros st' ?; exists 0%nat; by rewrite app_nil_r)).
  { apply Hstop. by destruct messages. }
  destruct (decide (messages = [])) as [->|Hne]; [by apply Hstop|].
  rewrite (eachBatch_cons _ _ _ Hne). destruct (cw_stopped w); [by apply Hstop|].
  destruct (prepare_chunk_spec (cw_now w) (take batchSize messages) st) as [E Hprep].
  unfold bind at 1.
  destruct (prepare_chunk _ _ st) as [[prepared|e] st1]; simpl in E; subst st1; [|by apply Hstop].
  destruct (Hprep prepared eq_refl) as [Hc Hp].
  pose proof (Forall_take _ batchSize _ Hm) as Hmt. pose proof (Forall_drop _ batchSize _ Hm) as Hmd.
  destruct (enqueue_chunk_consuming d0 l prepared (cw_attempts w) st) as [H1 H2];
    [exact (prepared_from_log _ _ _ Hmt Hp) | done | done |].
  unfold bind at 1.
  destruct (enqueue_chunk _ _ st) as [[[v|]|e] st1]; simpl in H1, H2; try by apply Hstop.
  assert (Forall (handled (ks_db st1)) (take batchSize messages)) as Hh.
  { eapply chunk_handled; [apply H1|done|exact Hc|by apply (H2 v)]. }
  pose proof (resolve_consuming _ _ _ _ H1 Hh) as H3.
  unfold bind. destruct (resolveOffsets _ st1) as [[[]|e] st2] eqn:Er; [|done]. simpl in H3.
  destruct (cw_heartbeat w); [|by exists batchSize].
  destruct (IH _ _ st2 Hmd H3) as [k Hk]. exists (batchSize + k)%nat.
  rewrite <- app_assoc in Hk. by rewrite take_take_drop in Hk.
Qed.

(** A consumer of the partition is polite to the others. *)
Lemma consumer_polite messages worlds cursors :
  Forall (fun m => m ∈ log) messages -> Forall (polite_world log) worlds ->
  polite log (fun d => ks_db (eachBatch messages worlds (KStateOf d cursors [])).2).
Proof.
  intros Hm Hw d Hd Hs.
  destruct (eachBatch_consuming d [] messages worlds (KStateOf d cursors []) Hm Hw) as (k & H1 & H2 & _).
  { split; [split; [done|reflexivity]|]. by repeat split. }
  by split.
Qed.

Definition all_handled (pt : Partition) : Prop :=
  db_ok (pt_db pt) /\ ids_sound log (pt_db pt)
  /\ (pt_committed pt <= pt_published pt <= length log)%nat
  /\ Forall (handled (pt_db pt)) (take (pt_committed pt) log).

Lemma partition_step_handled pt pt' :
  partition_step log pt pt' -> all_handled pt -> all_handled pt'.
Proof.
  intros Hstep (Hd & Hs & Hc & Hh).
  destruct Hstep as [d p c Hp|f d p c Hf|d p c first count cursors worlds c' Hfc Hp Hw st Hc'];
    simpl in *.
  - repeat (split; [done|]). split; [simpl; lia|done].
  - destruct (Hf d Hd Hs) as [[Hd' He] Hs']. repeat (split; [done|]). simpl.
    eapply Forall_impl; [exact Hh|]. intros m. by apply handled_since.
  - assert (Forall (fun m => m ∈ log) (take count (drop first log))) as Hin.
    { by apply Forall_take, Forall_drop, Forall_forall. }
    destruct (eachBatch_consuming d [] _ worlds (KStateOf d cursors []) Hin Hw)
      as (k & [Hd' He'] & Hs' & Hk & Hr).
    { split; [split; [done|reflexivity]|]. by repeat split. }
    fold st in Hd', He', Hs', Hk, Hr. simpl in Hk, Hr.
    assert (Forall (handled (ks_db st)) (take c log)) as Hh'.
    { eapply Forall_impl; [exact Hh|]. intros m. by apply handled_since. }
    assert (length (ks_resolved st) <= count)%nat by (rewrite Hr, !length_take; lia).
    repeat (split; [done|]). split; [simpl; lia|]. simpl.
    assert (Forall (handled (ks_db st)) (take (first + length (ks_resolved st)) log)) as Hr'.
    { rewrite <- take_take_drop. apply Forall_app. split.
      - by apply (Forall_take_le _ first c).
      - rewrite Hr, take_take in *. by rewrite take_length_take. }
    destruct (Nat.max_spec c (first + length (ks_resolved st))) as [[_ E]|[_ E]]; rewrite E in Hc';
      by eapply Forall_take_le.
Qed.

(** * A batch gets through *)

(** A backoff that is not disturbed and ends: the longest it can be is [MAX_RETRY_WAIT_MS]. *)
Definition undisturbed (a : Attempt) : Prop :=
  at_aborted a = false
  /\ Forall (fun s => sl_aborted s = false /\ sl_abortedAfter s = false /\ sl_heartbeat s = true)
       (at_slices a)
  /\ Exists (fun s => at_start a + MAX_RETRY_WAIT_MS <= sl_now s) (at_slices a).

(** An outage that ends: any number of attempts may lose the connection, and then one answers. *)
Definition outage_ends (attempts : list Attempt) : Prop :=
  exists lost a rest, attempts = lost ++ a :: rest /\ Forall undisturbed lost
    /\ at_aborted a = false /\ at_reach a = Answers.

Definition goes_on (w : ChunkWorld) : Prop :=
  cw_stopped w = false /\ cw_heartbeat w = true /\ outage_ends (cw_attempts w) /\ polite_world log w.

(** The function of the consumer is a registered workflow that is not an instance method. *)
Definition enqueueable : Prop :=
  exists m, functionToRegistration registry !! func = Some m
    /\ is_Some (mt_workflowConfig (method m registry)) /\ mt_isInstance (method m registry) = false.

Lemma sleepHeartbeating_ends deadline slices st :
  Forall (fun s => sl_aborted s = false /\ sl_abortedAfter s = false /\ sl_heartbeat s = true) slices ->
  Exists (fun s => deadline <= sl_now s) slices ->
  sleepHeartbeating deadline slices st = (Ok tt, st).
Proof.
  intros Hf. induction 1 as [s slices Hs|s slices _ IH]; apply Forall_cons in Hf as [(H1 & H2 & H3) Hf];
    simpl; rewrite H1, H2, H3, orb_false_r.
  - by rewrite (proj2 (Z.leb_le _ _)) by lia.
  - destruct (_ <=? _); [done|]. by apply IH.
Qed.

Lemma retry_ends d0 l prepared heartbeats waitMS attempts st :
  from_log log prepared -> Forall (fun a => polite log (at_others a)) attempts ->
  consuming d0 l st -> waitMS <= MAX_RETRY_WAIT_MS -> outage_ends attempts ->
  exists v, (retryUntilSuccess heartbeats (enqueue_attempt prepared) waitMS attempts st).1
              = Ok (Some v).
Proof.
  intros Hp Ha Hst Hw (lost & a & rest & -> & Hl & Hab & Hre). revert waitMS st Hw Hst Ha.
  induction Hl as [|b lost (Hb1 & Hb2 & Hb3) _ IH]; intros waitMS st Hw Hst Ha;
    apply Forall_cons in Ha as [Hpa Ha]; simpl.
  - rewrite Hab. destruct Hst as ([Hd He] & Hs & _). destruct (Hpa _ Hd Hs) as [[Hd1 _] Hs1].
    destruct (enqueue_log (at_now a) prepared (ks_cursors st) _ Hd1 Hs1 Hp) as ([ids E] & _).
    unfold enqueue_attempt. destruct (enqueueWorkflows _ _ _ _) as [[o cur] d']. simpl in E. subst o.
    rewrite Hre. by exists ids.
  - rewrite Hb1. destruct (enqueue_attempt_consuming d0 l prepared b st Hp Hpa Hst) as [H1 _].
    destruct (enqueue_attempt prepared b st) as [[v|e] st1]; simpl in H1 |- *; [by exists v|].
    assert (Z.min (waitMS * 2) MAX_RETRY_WAIT_MS <= MAX_RETRY_WAIT_MS) as Hw' by lia.
    unfold bind. destruct heartbeats; [|by apply IH].
    rewrite sleepHeartbeating_ends; [by apply IH|done|].
    eapply Exists_impl; [exact Hb3|]. simpl. intros s. lia.
Qed.

Lemma prepare_message_enqueueable now m e :
  enqueueable -> prepare_message now m = Throw e -> per_message e = true.
Proof.
  intros (k & H1 & [config H2] & H3). unfold prepare_message, prepareEnqueuedWorkflow.
  rewrite H1, H2, H3. destruct (getRegisteredFunctionFullName _ _ _ _).
  destruct (serializeFunctionInputOutput _ _) as [c|[? ?]]; [|done]. by intros [= <-].
Qed.

Lemma prepare_chunk_enqueueable now chunk st :
  enqueueable -> exists prepared, (prepare_chunk now chunk st).1 = Ok prepared.
Proof.
  intros He. induction chunk as [|m chunk [prepared IH]]; simpl; [by eexists|].
  destruct (prepare_message now m) as [s|e] eqn:Em.
  - unfold bind. destruct (prepare_chunk now chunk st) as [[p|e] ?]; simpl in *; [by eexists|done].
  - rewrite (prepare_message_enqueueable now m e He Em). by exists prepared.
Qed.

Lemma eachBatch_ends d0 l messages worlds st :
  enqueueable -> (0 < batchSize)%nat -> (length messages <= batchSize * length worlds)%nat ->
  Forall (fun m => m ∈ log) messages -> Forall goes_on worlds -> consuming d0 l st ->
  let res := eachBatch messages worlds st in
  res.1 = Ok tt /\ consuming d0 (l ++ messages) res.2.
Proof.
  intros He Hb Hlen Hm Hw. revert l messages st Hlen Hm.
  induction Hw as [|w worlds (Hw1 & Hw2 & Hw3 & Hw4) _ IH]; intros l messages st Hlen Hm Hst;
    (destruct (decide (messages = [])) as [->|Hne]; [simpl; by rewrite app_nil_r|]).
  { destruct messages; simpl in *; [done|lia]. }
  cbv zeta. remember (eachBatch messages (w :: worlds) st) as res eqn:Eres.
  rewrite (eachBatch_cons _ _ _ Hne), Hw1 in Eres.
  destruct (prepare_chunk_spec (cw_now w) (take batchSize messages) st) as [E Hprep].
  destruct (prepare_chunk_enqueueable (cw_now w) (take batchSize messages) st He) as [prepared Ep].
  unfold bind at 1 in Eres.
  destruct (prepare_chunk _ _ st) as [o st1]; simpl in E, Ep; subst o st1.
  destruct (Hprep prepared eq_refl) as [Hc Hp].
  pose proof (Forall_take _ batchSize _ Hm) as Hmt. pose proof (Forall_drop _ batchSize _ Hm) as Hmd.
  pose proof (prepared_from_log _ _ _ Hmt Hp) as Hl.
  destruct (enqueue_chunk_consuming d0 l prepared (cw_attempts w) st Hl Hw4 Hst) as [H1 H2].
  assert (exists v, (enqueue_chunk prepared (cw_attempts w) st).1 = Ok (Some v)) as [v Ev].
  { unfold enqueue_chunk. destruct prepared as [|s prepared]; [by eexists|].
    by apply (retry_ends d0 l); [..|unfold MIN_RETRY_WAIT_MS, MAX_RETRY_WAIT_MS; lia|]. }
  unfold bind at 1 in Eres.
  destruct (enqueue_chunk _ _ st) as [o st1]; simpl in H1, H2, Ev; subst o.
  assert (Forall (handled (ks_db st1)) (take batchSize messages)) as Hh.
  { eapply chunk_handled; [apply H1|done|exact Hc|by apply (H2 v)]. }
  pose proof (resolve_consuming _ _ _ _ H1 Hh) as H3.
  unfold bind, resolveOffsets in Eres. rewrite Hw2 in Eres. unfold resolveOffsets in H3. simpl in H3.
  destruct (IH _ (drop batchSize messages) _ ltac:(rewrite length_drop; simpl in Hlen; lia) Hmd H3)
    as [F1 F2].
  subst res. split; [done|]. by rewrite <- app_assoc, take_drop in F2.
Qed.

End partition.

(** * The theorems *)

(** C34: Every message that a consumer group commits is in the database as exactly one workflow,
    with the name and inputs the message gives it, unless its value cannot be serialized at all.
    Batches may be delivered again, in any number and from any committed position, to any number
    of consumers at once; connections are lost before, while or after a batch is written; heartbeats
    fail and processes die; no message is lost and none is turned into a second workflow. *)
Theorem committed_exactly_once (log : list KafkaMessage) (d0 : sysdb) (pt : Partition) :
  NoDup (km_offset <$> log) -> db_ok d0 -> ids_sound log d0 ->
  rtc (partition_step log) (PartitionOf d0 0 0) pt ->
  db_ok (pt_db pt) /\ (pt_committed pt <= pt_published pt <= length log)%nat
  /\ Forall (handled (pt_db pt)) (take (pt_committed pt) log)
  /\ (forall m m', m ∈ log -> m' ∈ log -> message_workflowID m = message_workflowID m' -> m = m')
  /\ forall m r, m ∈ log -> workflow_status (pt_db pt) !! message_workflowID m = Some r -> row_for m r.
Proof.
  intros Ho Hd Hs Hsteps.
  assert (forall p p', rtc (partition_step log) p p' -> all_handled log p -> all_handled log p') as Hall.
  { induction 1 as [|p1 p2 p3 H12 _ IH]; [done|]. intros H1. by apply IH, (partition_step_handled log Ho p1). }
  destruct (Hall _ _ Hsteps) as (H1 & H2 & H3 & H4).
  { split; [done|]. split; [done|]. split; [simpl; lia|constructor]. }
  do 3 (split; [done|]). split; [by apply same_message|exact H2].
Qed.

(** A batch gets through: once every outage ends, however many attempts it costs, [#eachBatch]
    returns with the offset of each of its messages resolved and each message handled; messages
    that cannot be serialized do not hold up the others. *)
Theorem eachBatch_gets_through (log messages : list KafkaMessage) (worlds : list ChunkWorld)
    (cursors : gmap string Z) (d : sysdb) :
  NoDup (km_offset <$> log) -> db_ok d -> ids_sound log d ->
  enqueueable -> (0 < batchSize)%nat -> (length messages <= batchSize * length worlds)%nat ->
  Forall (fun m => m ∈ log) messages -> Forall (goes_on log) worlds ->
  let res := eachBatch messages worlds (KStateOf d cursors []) in
  res.1 = Ok tt /\ ks_resolved res.2 = messages /\ Forall (handled (ks_db res.2)) messages
  /\ since true d (ks_db res.2).
Proof.
  intros Ho Hd Hs He Hb Hl Hm Hw.
  destruct (eachBatch_ends log Ho d [] messages worlds (KStateOf d cursors []) He Hb Hl Hm Hw)
    as (H1 & H2 & _ & H3 & H4).
  { split; [split; [done|reflexivity]|]. by repeat split. }
  by split.
Qed.

End batch.

(** * Examples *)

(** The consumer is the workflow [Shop.pay] of Registered.v; a message whose value is a string can
    be serialized. *)
Definition ex_serialize (v : jsval) (f : option string) : string + string * string :=
  match v with
  | VArr [VStr t; VNum p; VStr s] => inr (t +:+ "/" +:+ pretty p +:+ "/" +:+ s, "js")
  | _ => inl "cannot be serialized"
  end.

Definition ex_globals : Globals := GlobalsOf "executor" "v1" "app".

Definition ex_registry : Registry := launched (shop None).

(** A consumer of the topic [t] in the group [g], with batches of two *)
Definition ex_eachBatch (t : string) (p : Z) (g : string) :=
  eachBatch ex_serialize ex_globals shop_ctor kafkajs ex_registry (Made 3) "pay" t p g
    PartitionOrdering 2 "_dbos_kafkajs_ordered_queue".

Definition ex_message (o : Z) (s : string) : KafkaMessage := KafkaMessageOf o (VStr s).

(** The second message cannot be serialized. *)
Definition ex_log : list KafkaMessage :=
  [ex_message 5 "a"; KafkaMessageOf 6 VFunction; ex_message 9 "b"].

(** The answer of the first attempt is lost, and the consumer heartbeats while it waits. *)
Definition ex_answer_lost : Attempt :=
  AttemptOf false id 10 LostAnswer 20 [SliceOf 20 false false true; SliceOf 70000 false false true].
Definition ex_answers : Attempt := AttemptOf false id 2000 Answers 0 [].
Definition ex_world : ChunkWorld := ChunkWorldOf false 5 [ex_answer_lost; ex_answers] true.

(** It dies after the first chunk, which is delivered again to another one. *)
Definition ex_first : KState := (ex_eachBatch "orders" 0 "g" ex_log [ex_world] (KStateOf empty_db ∅ [])).2.
Definition ex_second : KState :=
  (ex_eachBatch "orders" 0 "g" ex_log [ex_world; ex_world] (KStateOf (ks_db ex_first) ∅ [])).2.

Lemma polite_id ser gp cn pk r f fname t p g o q log : polite ser gp cn pk r f fname t p g o q log id.
Proof. intros d Hd Hs. split; [split; [done|reflexivity]|done]. Qed.

Lemma ex_log_offsets : NoDup (km_offset <$> ex_log).
Proof. by apply (bool_decide_unpack _). Qed.

(** The consumer of the topic [orders] *)
Local Notation in_ex f :=
  (f ex_serialize ex_globals shop_ctor kafkajs ex_registry (Made 3) "pay" "orders" 0 "g" PartitionOrdering).

Lemma ex_sound : (in_ex ids_sound) "_dbos_kafkajs_ordered_queue" ex_log empty_db.
Proof. intros m r _. unfold empty_db. simpl. by rewrite lookup_empty. Qed.

Lemma ex_polite : (in_ex polite_world) "_dbos_kafkajs_ordered_queue" ex_log ex_world.
Proof. constructor; [apply polite_id|]. constructor; [apply polite_id|constructor]. Qed.

Lemma ex_polites : Forall ((in_ex polite_world) "_dbos_kafkajs_ordered_queue" ex_log) [ex_world; ex_world].
Proof. constructor; [exact ex_polite|]. constructor; [exact ex_polite|constructor]. Qed.

Lemma ex_polites_1 : Forall ((in_ex polite_world) "_dbos_kafkajs_ordered_queue" ex_log) [ex_world].
Proof. constructor; [exact ex_polite|constructor]. Qed.

Lemma committed_exactly_once_witness :
  (ks_resolved ex_first = take 2 ex_log /\ ks_resolved ex_second = ex_log)
  /\ Forall ((in_ex handled) "_dbos_kafkajs_ordered_queue" (ks_db ex_second)) (take 3 ex_log).
Proof.
  split; [by vm_compute|].
  refine (proj1 (proj2 (proj2 ((in_ex committed_exactly_once) 2 "_dbos_kafkajs_ordered_queue" ex_log empty_db
    (PartitionOf (ks_db ex_second) 3 3) ex_log_offsets empty_db_ok ex_sound _)))).
  do 3 (eapply rtc_l; [apply publish; vm_compute; lia|]).
  eapply rtc_l.
  { apply (deliver _ _ _ _ _ _ _ _ _ _ _ _ _ ex_log empty_db 3 0 0 3 ∅ [ex_world] 1); [lia|lia|exact ex_polites_1|vm_compute; lia]. }
  eapply rtc_l; [|apply rtc_refl].
  apply (deliver _ _ _ _ _ _ _ _ _ _ _ _ _ ex_log _ 3 1 0 3 ∅ [ex_world; ex_world] 3); [lia|lia|exact ex_polites|].
  vm_compute. lia.
Defined.

Lemma eachBatch_gets_through_witness :
  (ex_eachBatch "orders" 0 "g" ex_log [ex_world; ex_world] (KStateOf empty_db ∅ [])).1 = Ok tt.
Proof.
  refine (proj1 ((in_ex eachBatch_gets_through) 2 "_dbos_kafkajs_ordered_queue" ex_log ex_log [ex_world; ex_world]
    ∅ empty_db ex_log_offsets empty_db_ok ex_sound _ _ _ _ _)).
  - exists the_registration. split; [by vm_compute|]. split; [by vm_compute; eexists|by vm_compute].
  - lia.
  - vm_compute. lia.
  - apply Forall_forall. done.
  - assert ((in_ex goes_on) "_dbos_kafkajs_ordered_queue" ex_log ex_world) as H; [|constructor; [exact H|constructor; [exact H|constructor]]].
    split; [done|]. split; [done|]. split; [|exact ex_polite].
    exists [ex_answer_lost], ex_answers, []. split; [done|]. split; [|done]. constructor; [|done].
    split; [done|]. split; [by repeat constructor|]. right. left. vm_compute. discriminate.
Defined.

(** The IDs of two topics and groups can be the same: topic [a], partition 1, group [2-g], and
    topic [a-1], partition 2, group [g].  The message of the second is taken for one that is
    delivered again: its offset is resolved and no workflow runs for it. *)
Definition ex_other : KState := (ex_eachBatch "a" 1 "2-g" [ex_message 3 "one"] [ex_world] (KStateOf empty_db ∅ [])).2.

Lemma ids_collide_across_topics :
  let st := (ex_eachBatch "a-1" 2 "g" [ex_message 3 "two"] [ex_world] (KStateOf (ks_db ex_other) ∅ [])).2 in
  ks_resolved st = [ex_message 3 "two"]
  /\ (ws_inputs <$> workflow_status (ks_db st)) = {[ "kafkajs-a-1-2-g-3" := Some "a/1/one" ]}.
Proof. by vm_compute. Qed.
