(* ===== verification/Trigger.v ===== *)
(** Database triggers (packages/pgnotifier-receive/src/dbtrigger.ts): workflows that run for the
    records of a table.

    Records come from notifications and from catch-up queries.  One dispatch loop takes them from
    a queue and starts a workflow for each; what it has started up to is kept in the system
    database.  The table and its records are the application's, and a catch-up query is a function
    on them.  Not modelled: the connections, the timers of the polling loop and the logging. *)

From Stdlib Require Import Ascii.
From stdpp Require Import pretty.
From S2P Require Export Serialization.
From S2P Require Export Lifecycle Start.
From S2P Require Import Crontab.

Open Scope Z_scope.

(** * The queue of payloads *)

Module TriggerPayloadQueue.

Section queue.
Context {P : Type}.

(** [TriggerPayloadQueue]; [waiting] holds the promises of the callers that wait, by number. *)
Record Queue : Type := QueueOf {
  notifyPayloads : list P;
  catchupPayloads : list P;
  catchupFinished : bool;
  shutdown : bool;
  waiting : list nat
}.

#[export] Instance Queue_eta : Eta Queue := fun q =>
  QueueOf (notifyPayloads q) (catchupPayloads q) (catchupFinished q) (shutdown q) (waiting q).

Definition new_queue : Queue := QueueOf [] [] false false [].

(** The promises an operation resolves, with their values *)
Definition resolved : Type := list (nat * option P).

Definition enqueueCatchup (tp : P) (q : Queue) : resolved * Queue :=
  match waiting q with
  | w :: rest => ([(w, Some tp)], q <| waiting := rest |>)
  | [] => ([], q <| catchupPayloads := catchupPayloads q ++ [tp] |>)
  end.

Definition enqueueNotify (tp : P) (q : Queue) : resolved * Queue :=
  if negb (catchupFinished q) then ([], q <| notifyPayloads := notifyPayloads q ++ [tp] |>)
  else match waiting q with
       | w :: rest => ([(w, Some tp)], q <| waiting := rest |>)
       | [] => ([], q <| notifyPayloads := notifyPayloads q ++ [tp] |>)
       end.

(** [dequeue]: the promise [w] it returns is resolved at once, or waits. *)
Definition dequeue (w : nat) (q : Queue) : resolved * Queue :=
  if shutdown q then ([(w, None)], q)
  else match catchupPayloads q with
       | p :: rest => ([(w, Some p)], q <| catchupPayloads := rest |>)
       | [] =>
           match catchupFinished q, notifyPayloads q with
           | true, p :: rest => ([(w, Some p)], q <| notifyPayloads := rest |>)
           | _, _ => ([], q <| waiting := waiting q ++ [w] |>)
           end
       end.

(** The loop of [finishCatchup] *)
Fixpoint hand_out (ws : list nat) (ps : list P) : resolved * (list nat * list P) :=
  match ws, ps with
  | w :: ws', p :: ps' => let (r, rest) := hand_out ws' ps' in ((w, Some p) :: r, rest)
  | _, _ => ([], (ws, ps))
  end.

Definition finishCatchup (q : Queue) : resolved * Queue :=
  let (r, rest) := hand_out (waiting q) (notifyPayloads q) in
  (r, q <| catchupFinished := true |> <| waiting := rest.1 |> <| notifyPayloads := rest.2 |>).

Definition stop (q : Queue) : resolved * Queue :=
  ((fun w => (w, None)) <$> waiting q, q <| shutdown := true |> <| waiting := [] |>).

Definition restart (q : Queue) : resolved * Queue := ([], q <| shutdown := false |>).

(** The calls on a queue *)
Inductive call : Type :=
| EnqueueCatchup (p : P) | EnqueueNotify (p : P) | Dequeue (w : nat) | FinishCatchup | Stop | Restart.

Definition perform_call (c : call) : Queue -> resolved * Queue :=
  match c with
  | EnqueueCatchup p => enqueueCatchup p
  | EnqueueNotify p => enqueueNotify p
  | Dequeue w => dequeue w
  | FinishCatchup => finishCatchup
  | Stop => stop
  | Restart => restart
  end.

(** What a sequence of calls resolves, in order, and the queue it leaves *)
Fixpoint run_calls (cs : list call) (q : Queue) : resolved * Queue :=
  match cs with
  | [] => ([], q)
  | c :: cs' =>
      let (r, q') := perform_call c q in
      let (r', q'') := run_calls cs' q' in
      (r ++ r', q'')
  end.

Definition delivered (r : resolved) : list P := omap snd r.

Definition enqueued_catchup (cs : list call) : list P :=
  omap (fun c => match c with EnqueueCatchup p => Some p | _ => None end) cs.

Definition enqueued_notify (cs : list call) : list P :=
  omap (fun c => match c with EnqueueNotify p => Some p | _ => None end) cs.

(** A caller waits only when there is nothing for it. *)
Definition queue_ok (q : Queue) : Prop :=
  waiting q <> [] -> shutdown q = false /\ catchupPayloads q = []
                     /\ (catchupFinished q = true -> notifyPayloads q = []).

End queue.
Arguments Queue : clear implicits.
Arguments call : clear implicits.
Arguments resolved : clear implicits.

Section order.
Context {A : Type}.

(** Payloads with their origin: [true] for those of a catch-up *)
Notation tagged := (bool * A)%type.

Definition from (b : bool) (l : list tagged) : list A :=
  omap (fun p => if eqb p.1 b then Some p.2 else None) l.

(** Each payload is enqueued where it belongs. *)
Definition well_tagged (c : call tagged) : Prop :=
  match c with EnqueueCatchup p => p.1 = true | EnqueueNotify p => p.1 = false | _ => True end.

Lemma from_app b l1 l2 : from b (l1 ++ l2) = from b l1 ++ from b l2.
Proof. unfold from. by rewrite omap_app. Qed.

Lemma delivered_app (r1 r2 : resolved tagged) : delivered (r1 ++ r2) = delivered r1 ++ delivered r2.
Proof. unfold delivered. by rewrite omap_app. Qed.

Lemma enqueued_catchup_cons c (cs : list (call tagged)) :
  enqueued_catchup (c :: cs) = enqueued_catchup [c] ++ enqueued_catchup cs.
Proof. by destruct c. Qed.

Lemma enqueued_notify_cons c (cs : list (call tagged)) :
  enqueued_notify (c :: cs) = enqueued_notify [c] ++ enqueued_notify cs.
Proof. by destruct c. Qed.

(** What is queued where *)
Definition queue_tagged (q : Queue tagged) : Prop :=
  Forall (fun p => p.1 = true) (catchupPayloads q) /\ Forall (fun p => p.1 = false) (notifyPayloads q).

Lemma hand_out_spec ws (ps : list tagged) :
  delivered (hand_out ws ps).1 ++ (hand_out ws ps).2.2 = ps
  /\ ((hand_out ws ps).2.1 = [] \/ (hand_out ws ps).2.2 = []).
Proof.
  revert ps. induction ws as [|w ws IH]; intros [|p ps]; simpl; [auto..|].
  destruct (IH ps) as [E H]. destruct (hand_out ws ps) as [r [w' p']]. simpl in *. by rewrite E.
Qed.

Lemma stopped_delivers_nothing ws : delivered ((fun w => (w, None)) <$> ws : resolved tagged) = [].
Proof. induction ws as [|w ws IH]; [done|exact IH]. Qed.

Lemma from_tagged b (l : list tagged) : Forall (fun p => p.1 = negb b) l -> from b l = [].
Proof. induction 1 as [|[[] a] l E _ IH]; destruct b; simpl in *; done. Qed.

(** One call keeps the queue in order and loses nothing. *)
Lemma perform_call_spec c (q : Queue tagged) :
  well_tagged c -> queue_ok q -> queue_tagged q ->
  let res := perform_call c q in
  queue_ok res.2 /\ queue_tagged res.2
  /\ from true (delivered res.1) ++ from true (catchupPayloads res.2)
     = from true (catchupPayloads q) ++ from true (enqueued_catchup [c])
  /\ from false (delivered res.1) ++ from false (notifyPayloads res.2)
     = from false (notifyPayloads q) ++ from false (enqueued_notify [c])
  /\ (catchupFinished res.2 = false -> from false (delivered res.1) = []).
Proof.
  destruct q as [n k f sd ws]. unfold queue_ok, queue_tagged. simpl. intros Hc Hq [Hk Hn].
  destruct c as [p|p|w| | |]; simpl in *.
  - destruct ws as [|w ws]; unfold enqueueCatchup; simpl.
    + split; [done|]. split; [split; [by apply Forall_app; repeat constructor|done]|].
      by rewrite from_app, app_nil_r.
    + destruct (Hq ltac:(done)) as (-> & -> & Hf). split; [intros _; by repeat split|].
      split; [done|]. destruct p as [[] a]; simpl in *; [|done].
      by rewrite app_nil_r.
  - unfold enqueueNotify. simpl. destruct f; simpl.
    + destruct ws as [|w ws]; simpl.
      * split; [done|]. split; [split; [done|by apply Forall_app; repeat constructor]|].
        by rewrite from_app, app_nil_r.
      * destruct (Hq ltac:(done)) as (-> & -> & Hf). rewrite (Hf eq_refl) in *.
        split; [intros _; by repeat split|]. split; [done|]. destruct p as [[] a]; simpl in *; [done|].
        by repeat split.
    + split; [intros Hw; by destruct (Hq Hw) as (? & ? & ?)|].
      split; [split; [done|by apply Forall_app; repeat constructor]|].
      by rewrite from_app, app_nil_r.
  - unfold dequeue. simpl. destruct sd; simpl.
    { rewrite !app_nil_r. split; [intros Hw; by destruct (Hq Hw)|]. done. }
    destruct k as [|[[] a] k]; simpl.
    + destruct f; [destruct n as [|[[] a] n]|]; simpl; rewrite ?app_nil_r.
      * repeat split; done.
      * by apply Forall_cons in Hn as [? _].
      * apply Forall_cons in Hn as [_ Hn].
        split; [intros Hw; by destruct (Hq Hw) as (? & ? & Hf); specialize (Hf eq_refl)|].
        by repeat split.
      * by repeat split.
    + apply Forall_cons in Hk as [_ Hk]. rewrite !app_nil_r.
      split; [intros Hw; by destruct (Hq Hw) as (? & ? & ?)|]. by repeat split.
    + by apply Forall_cons in Hk as [? _].
  - unfold finishCatchup. simpl. destruct (hand_out_spec ws n) as [E H].
    destruct (hand_out ws n) as [r [w' n']] eqn:Eh. simpl in *.
    assert (Forall (fun p => p.1 = false) (delivered r ++ n')) as Hr by (by rewrite E).
    apply Forall_app in Hr as [Hr Hn'].
    split; [|split; [done|]].
    + intros Hw. destruct (decide (ws = [])) as [->|Hne].
      * simpl in Eh. injection Eh as _ <- _. done.
      * destruct (Hq Hne) as (-> & -> & _). destruct H; [done|]. by repeat split.
    + rewrite (from_tagged true (delivered r)), app_nil_r by done. simpl.
      rewrite <- E, from_app, app_nil_r. done.
  - unfold stop. simpl. rewrite stopped_delivers_nothing. simpl. by rewrite !app_nil_r.
  - rewrite !app_nil_r. split; [|done]. intros Hw. by destruct (Hq Hw) as (? & ? & ?).
Qed.

(** A finished catch-up stays finished. *)
Lemma perform_call_finished c (q : Queue tagged) :
  catchupFinished q = true -> catchupFinished (perform_call c q).2 = true.
Proof.
  destruct q as [n k f sd ws]. simpl. intros ->.
  destruct c; unfold perform_call, enqueueCatchup, enqueueNotify, dequeue, finishCatchup, stop, restart;
    simpl; try done; try by destruct ws.
  - destruct sd; [done|]. destruct k; [|done]. by destruct n.
  - by destruct (hand_out ws n).
Qed.

Lemma run_calls_finished cs (q : Queue tagged) :
  catchupFinished q = true -> catchupFinished (run_calls cs q).2 = true.
Proof.
  revert q. induction cs as [|c cs IH]; intros q Hq; simpl; [done|].
  pose proof (perform_call_finished c q Hq) as H. destruct (perform_call c q) as [r q1]. simpl in H.
  specialize (IH q1 H). by destruct (run_calls cs q1).
Qed.

(** Only [finishCatchup] finishes it. *)
Lemma run_calls_unfinished cs (q : Queue tagged) :
  FinishCatchup ∉ cs -> catchupFinished (run_calls cs q).2 = catchupFinished q.
Proof.
  revert q. induction cs as [|c cs IH]; intros q Hn; simpl; [done|].
  assert (catchupFinished (perform_call c q).2 = catchupFinished q) as H.
  { destruct q as [n k f sd ws]. destruct c; unfold perform_call, enqueueCatchup, enqueueNotify, dequeue;
      simpl; try done; try by destruct ws.
    - by destruct f, ws.
    - destruct sd; [done|]. destruct k; [|done]. by destruct f, n.
    - set_solver. }
  destruct (perform_call c q) as [r q1]. simpl in H. rewrite <- H, <- (IH q1) by set_solver.
  by destruct (run_calls cs q1).
Qed.

(** Whatever the calls, the payloads of the catch-ups come out in their order, each once, and so do
    the notified ones; what has not come out is still queued; no caller waits while there is
    something for it; and before the catch-up is finished no notified payload comes out. *)
Lemma run_calls_spec cs (q : Queue tagged) :
  Forall well_tagged cs -> queue_ok q -> queue_tagged q ->
  let res := run_calls cs q in
  queue_ok res.2 /\ queue_tagged res.2
  /\ from true (delivered res.1) ++ from true (catchupPayloads res.2)
     = from true (catchupPayloads q) ++ from true (enqueued_catchup cs)
  /\ from false (delivered res.1) ++ from false (notifyPayloads res.2)
     = from false (notifyPayloads q) ++ from false (enqueued_notify cs)
  /\ (catchupFinished res.2 = false -> from false (delivered res.1) = []).
Proof.
  intros Hc. revert q. induction Hc as [|c cs Hc _ IH]; intros q Hq Ht.
  { simpl. rewrite !app_nil_r. do 4 (split; [done|]). done. }
  pose proof (perform_call_spec c q Hc Hq Ht) as (H1 & H2 & H3 & H4 & H5).
  pose proof (perform_call_finished c q) as Hf.
  cbn [run_calls]. destruct (perform_call c q) as [r q1]. cbn [fst snd] in *.
  destruct (IH q1 H1 H2) as (G1 & G2 & G3 & G4 & G5).
  pose proof (run_calls_finished cs q1) as Hg.
  destruct (run_calls cs q1) as [r' q2]. cbn [fst snd] in *.
  split; [done|]. split; [done|].
  rewrite (enqueued_catchup_cons c cs), (enqueued_notify_cons c cs), !delivered_app, !from_app, <- !app_assoc, G3, G4.
  rewrite !(app_assoc (from _ (delivered r))), H3, H4, <- !app_assoc.
  split; [done|]. split; [done|].
  intros Hfin. rewrite G5 by done. rewrite app_nil_r. apply H5.
  destruct (catchupFinished q1) eqn:E; [|done]. by rewrite Hg in Hfin.
Qed.

Lemma run_calls_app cs1 cs2 (q : Queue tagged) :
  run_calls (cs1 ++ cs2) q
  = let (r1, q1) := run_calls cs1 q in let (r2, q2) := run_calls cs2 q1 in (r1 ++ r2, q2).
Proof.
  revert q. induction cs1 as [|c cs1 IH]; intros q; simpl; [by destruct (run_calls cs2 q)|].
  destruct (perform_call c q) as [r q1]. rewrite IH. destruct (run_calls cs1 q1) as [r1 q2].
  destruct (run_calls cs2 q2) as [r2 q3]. by rewrite app_assoc.
Qed.

Lemma from_nil b (l : list tagged) : from b l = [] -> Forall (fun p => p.1 = negb b) l.
Proof. induction l as [|[[] x] l IH]; destruct b; simpl; intros E; constructor; auto; done. Qed.

(** First the catch-up, then the notifications *)
Definition catchup_first (l : list tagged) : Prop :=
  exists c n, l = c ++ n /\ Forall (fun p => p.1 = true) c /\ Forall (fun p => p.1 = false) n.

Lemma catchup_first_cons c l :
  Forall (fun p : tagged => p.1 = true) c -> catchup_first l -> catchup_first (c ++ l).
Proof.
  intros Hc (c' & n & -> & Hc' & Hn). exists (c ++ c'), n. rewrite app_assoc. split; [done|].
  split; [by apply Forall_app|done].
Qed.

(** A call that enqueues nothing for the catch-up gives out its records, or notified ones once
    there are none of them left. *)
Lemma perform_call_first c (q : Queue tagged) :
  well_tagged c -> enqueued_catchup [c] = [] -> queue_ok q -> queue_tagged q ->
  let res := perform_call c q in
  Forall (fun p => p.1 = true) (delivered res.1)
  \/ Forall (fun p => p.1 = false) (delivered res.1) /\ catchupPayloads res.2 = [].
Proof.
  destruct q as [n k f sd ws]. unfold queue_ok, queue_tagged. simpl. intros Hc He Hq [Hk Hn].
  destruct c as [p|p|w| | |]; simpl in *; [done| | | | |by left].
  - unfold enqueueNotify. simpl. destruct f; [|by left]. destruct ws as [|w ws]; [by left|right].
    simpl. split; [by repeat constructor|]. by destruct (Hq ltac:(done)) as (_ & -> & _).
  - unfold dequeue. simpl. destruct sd; [by left|]. destruct k as [|p k]; simpl.
    + destruct f; [|by left]. destruct n as [|p n]; [by left|right]. simpl.
      apply Forall_cons in Hn as [? _]. by repeat constructor.
    + left. apply Forall_cons in Hk as [? _]. by repeat constructor.
  - unfold finishCatchup. simpl. destruct ws as [|w ws]; [by left|right].
    destruct (hand_out_spec (w :: ws) n) as [E _].
    destruct (hand_out (w :: ws) n) as [r [w' n']]. simpl in *. rewrite <- E in Hn.
    apply Forall_app in Hn as [Hn _]. split; [done|]. by destruct (Hq ltac:(done)) as (_ & -> & _).
  - left. unfold stop. simpl. rewrite stopped_delivers_nothing. constructor.
Qed.

Lemma run_calls_first cs (q : Queue tagged) :
  Forall well_tagged cs -> enqueued_catchup cs = [] -> queue_ok q -> queue_tagged q ->
  catchup_first (delivered (run_calls cs q).1).
Proof.
  intros Hc. revert q. induction Hc as [|c cs Hc Hcs IH]; intros q He Hq Ht; [by exists [], []|].
  rewrite enqueued_catchup_cons in He. apply app_eq_nil in He as [He He'].
  pose proof (perform_call_spec c q Hc Hq Ht) as (H1 & H2 & _).
  pose proof (perform_call_first c q Hc He Hq Ht) as Hfirst.
  cbn [run_calls]. destruct (perform_call c q) as [r q1]. cbn [fst snd] in *.
  specialize (IH q1 He' H1 H2). destruct (run_calls_spec cs q1 Hcs H1 H2) as (_ & _ & G & _ & _).
  destruct (run_calls cs q1) as [r' q2]. cbn [fst snd] in *. rewrite delivered_app.
  destruct Hfirst as [Hr|[Hr Hk]]; [by apply catchup_first_cons|].
  rewrite Hk, He' in G. apply app_eq_nil in G as [G%from_nil _].
  exists [], (delivered r ++ delivered r'). split; [done|]. split; [done|]. by apply Forall_app.
Qed.

(** C36: Whatever the calls on the queue, the records of the catch-ups come out in their order, each
    once, and so do the notified ones; what has not come out is still queued; and no caller waits
    while there is something for it.  As long as no catch-up is finished no notified record comes
    out; and when the records of the catch-up are enqueued before it is finished, as a launch does,
    they all come out before the first notified one.  (After a restart [catchupFinished] is still
    set, and the catch-up of the new launch is not waited for: [restart_before_catchup].) *)
Theorem payloads_in_order (cs : list (call tagged)) :
  Forall well_tagged cs ->
  let (r, q) := run_calls cs new_queue in
  from true (delivered r) ++ from true (catchupPayloads q) = from true (enqueued_catchup cs)
  /\ from false (delivered r) ++ from false (notifyPayloads q) = from false (enqueued_notify cs)
  /\ (waiting q <> [] -> shutdown q = false /\ catchupPayloads q = []
                         /\ (catchupFinished q = true -> notifyPayloads q = []))
  /\ (FinishCatchup ∉ cs -> from false (delivered r) = [])
  /\ (forall cs1 cs2, cs = cs1 ++ FinishCatchup :: cs2 -> FinishCatchup ∉ cs1 ->
        enqueued_catchup cs2 = [] -> catchup_first (delivered r)).
Proof.
  intros Hc. destruct (run_calls_spec cs new_queue Hc) as (H1 & H2 & H3 & H4 & H5); [done|by split|].
  pose proof (run_calls_unfinished cs new_queue) as Hf.
  destruct (run_calls cs new_queue) as [r q] eqn:Er. simpl in *.
  split; [done|]. split; [done|]. split; [exact H1|]. split; [intros Hn; by apply H5, Hf|].
  intros cs1 cs2 -> Hn He. apply Forall_app in Hc as [Hc1 Hc2].
  destruct (run_calls_spec cs1 new_queue Hc1) as (G1 & G2 & _ & _ & G5); [done|by split|].
  pose proof (run_calls_unfinished cs1 new_queue Hn) as Hu. rewrite run_calls_app in Er.
  destruct (run_calls cs1 new_queue) as [r1 q1]. cbn [fst snd] in *.
  pose proof (run_calls_first (FinishCatchup :: cs2) q1 Hc2 He G1 G2) as Hfirst.
  destruct (run_calls (FinishCatchup :: cs2) q1) as [r2 q2]. injection Er as <- _.
  rewrite delivered_app. apply catchup_first_cons; [|done]. by apply (from_nil false), G5.
Qed.

End order.

End TriggerPayloadQueue.

(** * Configuration *)

Inductive TriggerOperation : Type := RecordInserted | RecordDeleted | RecordUpdated | RecordUpserted.

#[export] Instance TriggerOperation_eq_dec : EqDecision TriggerOperation.
Proof. solve_decision. Defined.

(** A record, as [JSON.parse] gives it *)
Definition record : Type := list (string * jsval).

(** [DBTriggerConfig] *)
Record DBTriggerConfig : Type := DBTriggerConfigOf {
  tc_tableName : string;
  tc_schemaName : option string;
  tc_recordIDColumns : list string;
  tc_useDBNotifications : bool;
  tc_installDBTrigger : bool;
  tc_sequenceNumColumn : option string;
  tc_sequenceNumJitter : option Z;
  tc_timestampColumn : option string;
  tc_timestampSkewMS : option Z;
  tc_queueName : option string;
  tc_dbPollingInterval : option Z
}.

(** [ExternalRegistration], with its [DBTriggerRegistration] and the function it registers *)
Record TriggerReg : Type := TriggerRegOf {
  tr_className : string;
  tr_name : string;
  tr_config : DBTriggerConfig;
  tr_isWorkflow : bool;
  tr_registration : Registration
}.

Definition fullname (tr : TriggerReg) : string := tr_className tr +:+ "." +:+ tr_name tr.

(** [TriggerPayload] *)
Record TriggerPayload : Type := TriggerPayloadOf {
  tp_operation : TriggerOperation;
  tp_tname : string;
  tp_record : record
}.

(** [quoteIdentifier]; the other quote function doubles single quotes the same way. *)
Fixpoint double_char (c : ascii) (s : string) : string :=
  match s with
  | "" => ""
  | String x s' => if bool_decide (x = c) then String x (String x (double_char c s'))
                   else String x (double_char c s')
  end.

Definition quoteIdentifier (identifier : string) : string :=
  String dquote (double_char dquote identifier +:+ String dquote "").

Definition quoteConstant (cval : string) : string := double_char "'" cval.

(** [tname] and [tstr] of [initialize] *)
Definition table_identifier (tc : DBTriggerConfig) : string :=
  match truthy_str (tc_schemaName tc) with
  | Some s => quoteIdentifier s +:+ "." +:+ quoteIdentifier (tc_tableName tc)
  | None => quoteIdentifier (tc_tableName tc)
  end.

Definition table_string (tc : DBTriggerConfig) : string :=
  match truthy_str (tc_schemaName tc) with
  | Some s => s +:+ "." +:+ tc_tableName tc
  | None => tc_tableName tc
  end.

(** * What the trigger function of [createTriggerSQL] notifies *)

Inductive row_change : Type := Inserted (new : record) | Updated (old new : record) | Deleted (old : record).

Definition notification (tstr : string) (c : row_change) : TriggerPayload :=
  match c with
  | Inserted new => TriggerPayloadOf RecordInserted tstr new
  | Updated _ new => TriggerPayloadOf RecordUpdated tstr new
  | Deleted old => TriggerPayloadOf RecordDeleted tstr old
  end.

(** * Catching up *)

(** The query of [createCatchupSql]: its lower bounds, of the column of the sequence numbers and
    of that of the time stamps, and the column it orders by *)
Record CatchupQuery : Type := CatchupQueryOf {
  cq_tname : string;
  cq_after_seq : option (string * Z);
  cq_after_time : option (string * Z);
  cq_order : option string
}.

(** [createCatchupSql]: a bound of zero is none. *)
Definition createCatchupSql (tc : DBTriggerConfig) (startSeqNum startTimeStamp : option Z) : CatchupQuery :=
  let bound (column : option string) (start : option Z) :=
    match truthy_str column, truthy_num start with
    | Some c, Some n => Some (c, n)
    | _, _ => None
    end in
  let after_seq := bound (tc_sequenceNumColumn tc) startSeqNum in
  let after_time := bound (tc_timestampColumn tc) startTimeStamp in
  CatchupQueryOf (table_string tc) after_seq after_time
    (match after_time, after_seq with
     | Some (c, _), _ => Some c
     | None, Some (c, _) => Some c
     | None, None => None
     end).

Definition less_slack (start slack : option Z) : option Z :=
  match start, truthy_num slack with Some n, Some j => Some (n - j) | _, _ => start end.

(** [createPoll]: the bounds are what the system database keeps, less the slack. *)
Definition createPoll (tr : TriggerReg) (d : sysdb) : CatchupQuery :=
  let tc := tr_config tr in
  match truthy_str (tc_sequenceNumColumn tc), truthy_str (tc_timestampColumn tc) with
  | None, None => createCatchupSql tc None None
  | _, _ =>
      let lasts := getEventDispatchState "trigger" (fullname tr) "last" d in
      let recseqnum := truthy_num (lasts ≫= es_updateSeq) in
      let rectmstmp := lasts ≫= es_updateTime in
      createCatchupSql tc (less_slack recseqnum (tc_sequenceNumJitter tc))
        (match truthy_num rectmstmp with
         | Some _ => less_slack rectmstmp (tc_timestampSkewMS tc)
         | None => rectmstmp
         end)
  end.

(** A column of a record as PostgreSQL compares it with a number *)
Definition column_number (Date_parse : string -> option Z) (time : bool) (c : string) (r : record)
    : option Z :=
  match property c (VObj r) with
  | VNum n | VBigInt n => Some n
  | VStr s => if time then Date_parse s else parse_Z s
  | VDate t => t
  | _ => None
  end.

(** [ORDER BY] of a column: the records that have no number come last. *)
Definition column_le (f : record -> option Z) (a b : record) : bool :=
  match f a, f b with
  | Some x, Some y => x <=? y
  | None, Some _ => false
  | _, None => true
  end.

(** The rows of a catch-up query.  Without a bound it has no [ORDER BY], and the rows come in the
    order of the storage. *)
Definition run_catchup (Date_parse : string -> option Z) (heap_order : list record -> list record)
    (q : CatchupQuery) (table : list record) : list record :=
  let above time (b : option (string * Z)) (r : record) :=
    match b with
    | None => true
    | Some (c, n) => match column_number Date_parse time c r with Some x => n <? x | None => false end
    end in
  let rows := List.filter (fun r => above false (cq_after_seq q) r && above true (cq_after_time q) r) table in
  match cq_after_time q, cq_after_seq q with
  | Some (c, _), _ => order_by (column_le (column_number Date_parse true c)) rows
  | None, Some (c, _) => order_by (column_le (column_number Date_parse false c)) rows
  | None, None => heap_order rows
  end.

Definition catchup_payload (q : CatchupQuery) (r : record) : TriggerPayload :=
  TriggerPayloadOf RecordUpserted (cq_tname q) r.

(** * Initialization *)

(** What [createTriggerSQL] makes: a function and a trigger, the table they are on, and its name in
    the payloads *)
Record TriggerSQL : Type := TriggerSQLOf {
  ts_func : string;
  ts_trigger : string;
  ts_table : string;
  ts_tname : string
}.

Definition createTriggerSQL (tr : TriggerReg) : TriggerSQL :=
  TriggerSQLOf ("tf_" +:+ tr_className tr +:+ "_" +:+ tr_name tr)
    ("dbt_" +:+ tr_className tr +:+ "_" +:+ tr_name tr)
    (table_identifier (tr_config tr)) (table_string (tr_config tr)).

(** What [initialize] has made of the registrations so far; [pl_logged] is the SQL it only logs, and
    [pl_never_run] the functions it warns of. *)
Record Plan : Type := PlanOf {
  pl_tableToReg : gmap string (list TriggerReg);
  pl_hasTrigger : list string;
  pl_installed : list TriggerSQL;
  pl_logged : list TriggerSQL;
  pl_catchups : list CatchupQuery;
  pl_pollers : list TriggerReg;
  pl_never_run : list string
}.

Definition no_plan : Plan := PlanOf ∅ [] [] [] [] [] [].

(** The registration is to be notified. *)
Definition notified_reg (tr : TriggerReg) : bool :=
  tc_useDBNotifications (tr_config tr) || tc_installDBTrigger (tr_config tr).

(** One registration in the loop of [initialize] *)
Definition initialize_reg (d : sysdb) (p : Plan) (tr : TriggerReg) : Plan :=
  let tc := tr_config tr in
  let tname := table_identifier tc in
  let tstr := table_string tc in
  let creates := notified_reg tr && negb (bool_decide (tname ∈ pl_hasTrigger p)) in
  let polls := tr_isWorkflow tr && negb (notified_reg tr)
                 && bool_decide (is_Some (truthy_num (tc_dbPollingInterval tc))) in
  let registeredThis := notified_reg tr || polls in
  let only (b : bool) {A} (x : A) : list A := if b then [x] else [] in
  {| pl_tableToReg := <[tstr := default [] (pl_tableToReg p !! tstr) ++ [tr]]> (pl_tableToReg p);
     pl_hasTrigger := pl_hasTrigger p ++ only creates tname;
     pl_installed := pl_installed p ++ only (creates && tc_installDBTrigger tc) (createTriggerSQL tr);
     pl_logged := pl_logged p ++ only (creates && negb (tc_installDBTrigger tc)) (createTriggerSQL tr);
     pl_catchups := pl_catchups p ++ only (tr_isWorkflow tr) (createPoll tr d);
     pl_pollers := pl_pollers p ++ only polls tr;
     pl_never_run := pl_never_run p ++ only (negb registeredThis) (fullname tr) |}.

(** The loop of [initialize], in a state of the system database *)
Definition initialize (regs : list TriggerReg) (d : sysdb) : Plan :=
  foldl (initialize_reg d) no_plan regs.

Definition hasAnyTrigger (p : Plan) : bool := negb (bool_decide (pl_hasTrigger p = [])).

Definition hasAnyPoller (p : Plan) : bool := negb (bool_decide (pl_pollers p = [])).

(** The dispatch loop is started. *)
Definition dispatches_any (p : Plan) : bool := hasAnyTrigger p || hasAnyPoller p.

Section calls.
Import TriggerPayloadQueue.

(** What the application's database answers to a query: [None] is an error, which is logged. *)
Context (answer : CatchupQuery -> option (list record)).

Definition catchup_calls (q : CatchupQuery) : list (call TriggerPayload) :=
  (fun r => EnqueueCatchup (catchup_payload q r)) <$> default [] (answer q).

(** The calls on the queue that [initialize] makes: the notifications come in between. *)
Definition initialize_calls (p : Plan) : list (call TriggerPayload) :=
  Restart :: (if hasAnyTrigger p then (pl_catchups p ≫= catchup_calls) ++ [FinishCatchup] else []).

(** One round of the loop of [DBTPollingLoop] *)
Definition poll_calls (tr : TriggerReg) (d : sysdb) : list (call TriggerPayload) :=
  catchup_calls (createPoll tr d).

End calls.

(** When a round of [startLoop] is due, and how long it sleeps before *)
Definition poll_times (tc : DBTriggerConfig) (execTime now : Z) : Z * option Z :=
  let nextExecTime := execTime + default 5000 (tc_dbPollingInterval tc) in
  let sleepTime := nextExecTime - now in
  (nextExecTime, if 0 <? sleepTime then Some sleepTime else None).

(** ** What [initialize] makes of its registrations *)

Lemma initialize_snoc regs tr d : initialize (regs ++ [tr]) d = initialize_reg d (initialize regs d) tr.
Proof. unfold initialize. by rewrite foldl_app. Qed.

Lemma initialize_reg_tables d p tr :
  pl_tableToReg (initialize_reg d p tr)
  = <[table_string (tr_config tr) := default [] (pl_tableToReg p !! table_string (tr_config tr)) ++ [tr]]>
      (pl_tableToReg p).
Proof. done. Qed.

(** The payloads of a table go to its registrations, in their order. *)
Theorem initialize_dispatches (regs : list TriggerReg) (d : sysdb) (t : string) :
  default [] (pl_tableToReg (initialize regs d) !! t)
  = filter (fun tr => table_string (tr_config tr) = t) regs.
Proof.
  induction regs as [|tr regs IH] using rev_ind; [done|].
  rewrite initialize_snoc, initialize_reg_tables, filter_app, <- IH.
  destruct (decide (table_string (tr_config tr) = t)) as [<-|Hne].
  - rewrite lookup_insert_eq, filter_cons_True by done. by rewrite filter_nil.
  - rewrite lookup_insert_ne, filter_cons_False by done. by rewrite filter_nil, app_nil_r.
Qed.

Definition sql_of (p : Plan) : list TriggerSQL := pl_installed p ++ pl_logged p.

Lemma initialize_reg_sql d p tr :
  let new := notified_reg tr && negb (bool_decide (table_identifier (tr_config tr) ∈ pl_hasTrigger p)) in
  sql_of (initialize_reg d p tr) ≡ₚ (if new then [createTriggerSQL tr] else []) ++ sql_of p
  /\ pl_hasTrigger (initialize_reg d p tr)
     = pl_hasTrigger p ++ (if new then [table_identifier (tr_config tr)] else []).
Proof.
  cbv zeta. split; [|done]. unfold initialize_reg, sql_of. cbv zeta. cbn [pl_installed pl_logged].
  destruct (_ && negb (bool_decide _)); [|by rewrite !app_nil_r].
  destruct (tc_installDBTrigger _); cbn [andb negb]; solve_Permutation.
Qed.

(** One trigger for each table of which some registration is to be notified *)
Theorem initialize_triggers (regs : list TriggerReg) (d : sysdb) :
  let p := initialize regs d in
  NoDup (ts_table <$> sql_of p)
  /\ (forall t, t ∈ ts_table <$> sql_of p <->
        exists tr, tr ∈ regs /\ notified_reg tr = true /\ table_identifier (tr_config tr) = t).
Proof.
  cbv zeta.
  assert (NoDup (ts_table <$> sql_of (initialize regs d))
    /\ ts_table <$> sql_of (initialize regs d) ≡ₚ pl_hasTrigger (initialize regs d)
    /\ (forall t, t ∈ pl_hasTrigger (initialize regs d) <->
        exists tr, tr ∈ regs /\ notified_reg tr = true /\ table_identifier (tr_config tr) = t))
    as (H1 & H2 & H3); [|split; [done|]; intros t; by rewrite H2].
  induction regs as [|tr regs (H1 & H2 & H3)] using rev_ind.
  { split; [constructor|]. split; [done|]. intros t. split; [by intros ?%elem_of_nil|].
    by intros (? & ?%elem_of_nil & _). }
  rewrite initialize_snoc. destruct (initialize_reg_sql d (initialize regs d) tr) as [E1 E2].
  rewrite E1, E2, fmap_app, H2.
  destruct (notified_reg tr) eqn:En; [case_bool_decide as Hin|]; simpl; rewrite ?app_nil_r.
  - split; [by rewrite <- H2|]. split; [done|]. intros t. rewrite H3. split.
    + intros (x & Hx & ?). exists x. set_solver.
    + intros (x & [Hx| ->%list_elem_of_singleton]%elem_of_app & ? & <-); [by exists x|by apply H3].
  - split; [constructor; [done|by rewrite <- H2]|]. split; [apply Permutation_cons_append|].
    intros t. rewrite elem_of_app, H3, list_elem_of_singleton. split.
    + intros [(x & Hx & ?)| ->]; [exists x|exists tr]; set_solver.
    + intros (x & [Hx| ->%list_elem_of_singleton]%elem_of_app & ? & <-); [left; by exists x|by right].
  - split; [by rewrite <- H2|]. split; [done|]. intros t. rewrite H3. split.
    + intros (x & Hx & ?). exists x. set_solver.
    + intros (x & [Hx| ->%list_elem_of_singleton]%elem_of_app & ? & <-); [by exists x|congruence].
Qed.

(** * Starting *)

(** The code point of a digit in base 2, 8, 10 or 16 *)
Fixpoint parse_base (base : N) (acc : N) (s : string) : option N :=
  match s with
  | "" => Some acc
  | String c s' =>
      match hex_value c with
      | Some v => if (v <? base)%N then parse_base base (base * acc + v) s' else None
      | None => None
      end
  end.

(** [BigInt(s)] of a text: [None] is a [SyntaxError]. *)
Definition BigInt_of_text (s : string) : option Z :=
  let digits base s' := match s' with "" => None | _ => Z.of_N <$> parse_base base 0 s' end in
  match trim s with
  | "" => Some 0
  | String "0" (String c s') as t =>
      if bool_decide (to_lower c = "x"%char) then digits 16%N s'
      else if bool_decide (to_lower c = "o"%char) then digits 8%N s'
      else if bool_decide (to_lower c = "b"%char) then digits 2%N s'
      else digits 10%N t
  | String "-" s' => Z.opp <$> digits 10%N s'
  | String "+" s' => digits 10%N s'
  | t => digits 10%N t
  end.

Section trigger.

(** [Date.parse], and [toString] of an array *)
Context (Date_parse : string -> option Z) (array_text : list jsval -> string).

(** [`${cv?.toString()}`] *)
Definition value_text (v : jsval) : string :=
  match v with
  | VUndefined | VNull => "undefined"
  | VBool b => if b then "true" else "false"
  | VNum n | VBigInt n => stringify_Z n
  | VStr s => s
  | VArr xs => array_text xs
  | _ => "[object Object]"
  end.

(** The parameters that the dispatch makes for [DBOS.startWorkflow] *)
Record WfParams : Type := WfParamsOf { wp_workflowUUID : string; wp_queueName : option string }.

(** What becomes of a payload for one registration: nothing, for the reasons the code logs; a call
    of the function; or a workflow, with its sequence number and its time stamp, which may be
    [NaN] *)
Inductive decision : Type :=
| Skipped
| Invoked (key : list jsval)
| Started (params : WfParams) (key : list jsval) (recseqnum : option Z) (rectmstmp : option (option Z)).

(** [recseqnum]: [inl] is a reason to skip. *)
Definition record_seqnum (tc : DBTriggerConfig) (r : record) : unit + option Z :=
  match truthy_str (tc_sequenceNumColumn tc) with
  | None => inr None
  | Some c =>
      match member c r with
      | None => inl tt
      | Some (VNum n) | Some (VBigInt n) => inr (Some n)
      | Some (VStr s) => match BigInt_of_text s with Some n => inr (Some n) | None => inl tt end
      | Some _ => inl tt
      end
  end.

(** [rectmstmp] *)
Definition record_timestamp (tc : DBTriggerConfig) (r : record) : unit + option (option Z) :=
  match truthy_str (tc_timestampColumn tc) with
  | None => inr None
  | Some c =>
      match member c r with
      | None => inl tt
      | Some (VDate t) => inr (Some t)
      | Some (VNum n) => inr (Some (Some n))
      | Some (VStr s) => inr (Some (Date_parse s))
      | Some _ => inl tt
      end
  end.

Definition record_key (tc : DBTriggerConfig) (r : record) : list jsval :=
  (fun c => property c (VObj r)) <$> tc_recordIDColumns tc.

(** The body of the loop of [payloadFunc], up to the call *)
Definition decide_payload (tr : TriggerReg) (op : TriggerOperation) (r : record) : decision :=
  let tc := tr_config tr in
  let key := record_key tc r in
  if negb (tr_isWorkflow tr) then Invoked key
  else
    match record_seqnum tc r with
    | inl _ => Skipped
    | inr recseqnum =>
        match record_timestamp tc r with
        | inl _ => Skipped
        | inr rectmstmp =>
            let keystr := (value_text <$> key) ++ option_list (stringify_Z <$> recseqnum)
                            ++ option_list (show_number <$> rectmstmp) in
            let uuid := "dbt_" +:+ tr_className tr +:+ "_" +:+ tr_name tr +:+ "_"
                          +:+ Crontab.join "|" keystr in
            let uuid := match rectmstmp with Some t => uuid +:+ "_" +:+ show_number t | None => uuid end in
            let uuid := match recseqnum with Some n => uuid +:+ "_" +:+ stringify_Z n | None => uuid end in
            match op, recseqnum, rectmstmp with
            | RecordDeleted, _, _ => Skipped
            | RecordUpdated, None, None => Skipped
            | _, _, _ => Started (WfParamsOf uuid (tc_queueName tc)) key recseqnum rectmstmp
            end
        end
    end.

(** What [DBOS.startWorkflow] reads of [wfParams]: it has no parameter [workflowUUID]. *)
Definition start_params_of (w : WfParams) : StartParams :=
  StartParamsOf None (wp_queueName w) None None None None None None false NoAttributes None false.

(** The arguments of the function *)
Record TriggerArgs : Type := TriggerArgsOf {
  ta_operation : TriggerOperation;
  ta_key : list jsval;
  ta_record : record
}.

Context (serializeArgs : TriggerArgs -> option string -> string * option string)
        (serializeError : dbos_error -> string)
        (deserializeResError : string -> option string -> dbos_error)
        (serializerName executorID appVersion appID : string)
        (queues : gmap string WorkflowQueue).

(** A call outside of any context: that of the dispatch loop *)
Definition top_ctx : DBOSLocalCtx := LocalCtx None None None None None.

Definition top_options : CallerOptions :=
  CallerOptionsOf None None None (CallerContextOf None None [] None).

Definition at_top {A} (m : AX A) : EX A := fun st =>
  let (o, s) := m (top_ctx, st) in (o, s.2).

Definition start_record (tr : TriggerReg) (w : WfParams) (key : list jsval) (r : record)
    (rd : StartReadings) : EX (option WorkflowHandle) :=
  at_top (startWorkflow serializeArgs serializeError deserializeResError serializerName executorID
            appVersion appID queues Static (tr_registration tr) (TriggerArgsOf RecordUpserted key r)
            (start_params_of w) top_options [RoundOf rd id id]).

(** [DBOS.upsertEventDispatchState] of a started record: zero and [NaN] are not kept. *)
Definition keep_last (tr : TriggerReg) (recseqnum : option Z) (rectmstmp : option (option Z))
    : EX unit :=
  let* _ := on_sys (upsertEventDispatchState "trigger" (fullname tr) "last"
                      (ExternalStateOf (Some "") (truthy_num (default None rectmstmp)) (truthy_num recseqnum))) in
  ret tt.

(** One registration of [payloadFunc]: the operation it leaves in the payload, which the
    registrations share, and whether it caught an exception.  [invoke] is the call of a function
    that is no workflow. *)
Definition dispatch_payload (invoke : TriggerReg -> TriggerArgs -> EX unit) (tr : TriggerReg)
    (op : TriggerOperation) (r : record) (rd : StartReadings) : EX (TriggerOperation * bool) :=
  match decide_payload tr op r with
  | Skipped => ret (op, true)
  | Invoked key => try_catch (invoke tr (TriggerArgsOf op key r) ;* ret (op, true)) (fun _ => ret (op, false))
  | Started w key recseqnum rectmstmp =>
      try_catch (let* _ := start_record tr w key r rd in
                 keep_last tr recseqnum rectmstmp ;*
                 ret (RecordUpserted, true))
                (fun _ => ret (RecordUpserted, false))
  end.

(** [payloadFunc]: the registrations of the table, in order *)
Fixpoint payloadFunc (invoke : TriggerReg -> TriggerArgs -> EX unit) (regs : list TriggerReg)
    (readings : list StartReadings) (op : TriggerOperation) (r : record) : EX TriggerOperation :=
  match regs, readings with
  | tr :: regs', rd :: readings' =>
      let* res := dispatch_payload invoke tr op r rd in
      payloadFunc invoke regs' readings' res.1 r
  | _, _ => ret op
  end.

(** [payloadFunc] of a payload: the registrations of its table *)
Definition process_payload (invoke : TriggerReg -> TriggerArgs -> EX unit)
    (tables : gmap string (list TriggerReg)) (readings : list StartReadings) (p : TriggerPayload)
    : EX TriggerOperation :=
  payloadFunc invoke (default [] (tables !! tp_tname p)) readings (tp_operation p) (tp_record p).

(** [processingFunc], on what [dequeue] resolves to, with the readings of each payload *)
Fixpoint processingFunc (invoke : TriggerReg -> TriggerArgs -> EX unit)
    (tables : gmap string (list TriggerReg))
    (dequeued : list (option TriggerPayload * list StartReadings)) : EX unit :=
  match dequeued with
  | (Some p, readings) :: rest =>
      process_payload invoke tables readings p ;* processingFunc invoke tables rest
  | _ => ret tt
  end.

(** ** The dispatch loop survives *)

Lemma dispatch_payload_returns invoke tr op r rd st :
  exists res st', dispatch_payload invoke tr op r rd st = (Ok res, st').
Proof.
  unfold dispatch_payload. destruct (decide_payload tr op r) as [|key|w key sn ts]; unfold try_catch;
    [by do 2 eexists| |].
  - destruct (bind _ _ st) as [[v|e] st1]; by do 2 eexists.
  - destruct (bind _ _ st) as [[v|e] st1]; by do 2 eexists.
Qed.

Lemma payloadFunc_returns invoke regs readings op r st :
  exists op' st', payloadFunc invoke regs readings op r st = (Ok op', st').
Proof.
  revert readings op st. induction regs as [|tr regs IH]; intros [|rd readings] op st; simpl; [by do 2 eexists..|].
  destruct (dispatch_payload_returns invoke tr op r rd st) as (res & st1 & E).
  unfold bind. rewrite E. apply IH.
Qed.

(** Whatever the functions throw, the loop goes on until it is stopped. *)
Theorem processingFunc_survives invoke (tables : gmap string (list TriggerReg)) dequeued
    (st : exec_state) :
  exists st', processingFunc invoke tables dequeued st = (Ok tt, st').
Proof.
  revert st. induction dequeued as [|[[p|] readings] rest IH]; intros st; simpl; [by eexists| |by eexists].
  destruct (payloadFunc_returns invoke (default [] (tables !! tp_tname p)) readings (tp_operation p)
    (tp_record p) st) as (op & st1 & E).
  unfold bind, process_payload. rewrite E. apply IH.
Qed.

(** * What a start leaves *)

(** The workflow of a record is in the database: whatever has become of it, it has the name and the
    inputs the record gives it. *)
Definition stored (tr : TriggerReg) (d : sysdb) (r : record) : Prop :=
  exists id row, workflow_status d !! id = Some row /\ ws_status row <> DELAYED
    /\ ws_name row = rg_name (tr_registration tr)
    /\ ws_inputs row = Some (serializeArgs (TriggerArgsOf RecordUpserted (record_key (tr_config tr) r) r)
                               (rg_workflowConfig (tr_registration tr) ≫= wc_serialization)).1.

Lemma stored_since tr d d' r : since true d d' -> stored tr d r -> stored tr d' r.
Proof.
  intros [_ [Hrow _ _ _]] (id & row & Hr & Hd & Hn & Hi).
  destruct (Hrow _ _ Hr) as (row' & Hr' & [E1 E2 E3 _]). destruct (E3 Hd) as [E4 _].
  injection E1 as E. exists id, row'. rewrite E4. split; [done|]. split; [|split; congruence].
  intros Hd'. destruct E2 as [E2|E2]; [congruence|]. rewrite Hd' in E2.
  destruct (ws_status row); naive_solver.
Qed.

(** A workflow that can be started: registered under a name of its own *)
Definition can_start (reg : Registration) : Prop :=
  rg_name reg <> tempWorkflowName
  /\ exists config, rg_workflowConfig reg = Some config
       /\ forall m, wc_maxRecoveryAttempts config = Some m -> 0 <= m.

(** The clocks and the random ID of a start; the ID is new. *)
Definition new_id (rd : StartReadings) (d : sysdb) : Prop :=
  workflow_status d !! rd_randomUUID rd = None.

Lemma start_record_inv tr w key r rd st h st' :
  start_record tr w key r rd st = (Ok h, st') ->
  exists h', invokeRegOp serializeArgs serializeError deserializeResError serializerName executorID appVersion
     appID (tr_registration tr)
     (start_params Static (start_params_of w) top_options None None) None None
     (TriggerArgsOf RecordUpserted key r) (co_context top_options) rd st = (Ok h', st').
Proof.
  unfold start_record, at_top, startWorkflow, invokeWorkflow, prepare_start. simpl.
  unfold bind, in_ctx. simpl. destruct (options_error _ _ _); simpl; [done|].
  unfold in_exec. simpl. destruct (invokeRegOp _ _ _ _ _ _ _ _ _ _ _ _ _ _ st) as [[h'|e] st1]; simpl; [|done].
  intros [= _ <-]. by exists h'.
Qed.

Lemma recovery_limit_nonneg config :
  (forall m, wc_maxRecoveryAttempts config = Some m -> 0 <= m) ->
  0 <= default DEFAULT_MAX_RECOVERY_ATTEMPTS (truthy_num (wc_maxRecoveryAttempts config)).
Proof.
  intros Hm. destruct (wc_maxRecoveryAttempts config) as [m|]; [|done].
  specialize (Hm _ eq_refl). unfold truthy_num, DEFAULT_MAX_RECOVERY_ATTEMPTS. destruct m; simpl; lia.
Qed.

Lemma start_record_stores tr w key r rd st h st' :
  can_start (tr_registration tr) -> key = record_key (tr_config tr) r ->
  new_id rd st.1 -> db_ok st.1 -> start_record tr w key r rd st = (Ok h, st') ->
  since true st.1 st'.1 /\ stored tr st'.1 r /\ event_dispatch_kv st'.1 = event_dispatch_kv st.1.
Proof.
  intros (Hname & config & Hc & Hm) -> Hn Hd H. apply start_record_inv in H as [h' H].
  unfold invokeRegOp in H. rewrite bool_decide_true in H by (rewrite Hc; eauto).
  assert (child_checkpoint deserializeResError None None st = (Ok None, st)) as Hchk by done.
  destruct (internalWorkflow_inv _ _ _ _ _ _ _ _ _ _ _ _ _ _ _ _ _ Hchk H)
    as (config' & ires & d1 & d2 & Hc' & Hinit & Hrec & E & _).
  injection Hrec as <-. rewrite E. clear E H Hchk.
  assert (isTempWorkflow (tr_registration tr) (start_params Static (start_params_of w) top_options None None)
          = false) as Htmp by (unfold isTempWorkflow; by rewrite bool_decide_false).
  unfold wf_config in Hc'. rewrite Htmp, Hc in Hc'. injection Hc' as <-.
  replace (iw_isRecoveryDispatch _) with false in Hinit by done.
  replace (iw_isQueueDispatch _) with false in Hinit by done.
  set (s := internal_status _ _ _ _ _ _ _ _ _ _) in Hinit.
  pose proof (op_initWorkflowStatus true (rd_now rd) (rd_nowMs rd) s (Some (rd_ownerXid rd)) false false
    (Some (default DEFAULT_MAX_RECOVERY_ATTEMPTS (truthy_num (wc_maxRecoveryAttempts config))))) as Hop.
  assert (since true st.1 d1) as Hs.
  { apply step_since; [|done]. eexists _, _. split; [exact Hop|]. by rewrite Hinit. }
  destruct (init_fresh_cases (rd_now rd) (rd_nowMs rd) s (Some (rd_ownerXid rd))
    (Some (default DEFAULT_MAX_RECOVERY_ATTEMPTS (truthy_num (wc_maxRecoveryAttempts config)))) st.1
    (ok_dedup _ Hd) Hn) as [[_ E]|[_ E]].
  { intros m [= <-]. by apply recovery_limit_nonneg. }
  { rewrite E in Hinit. done. }
  rewrite E in Hinit. pose proof (f_equal snd Hinit) as Ed. cbn [snd] in Ed. clear E Hinit. subst d1.
  split; [exact Hs|]. split; [|done].
  exists (i_workflowUUID s), (status_to_row (rd_now rd) s (Some (rd_ownerXid rd))).
  split; [apply lookup_insert_eq|]. split; [|split].
  - subst s. destruct w as [u [q|]]; simpl; discriminate.
  - subst s. simpl. unfold stored_name. by rewrite Htmp.
  - subst s. simpl. unfold wf_config. by rewrite Htmp.
Qed.

(** * A table that is watched *)

(** A trigger of workflows on a table with sequence numbers, which are integers *)
Section watch.

Context (tr : TriggerReg) (column : string) (heap_order : list record -> list record) (first : Z).

Definition seq (r : record) : option Z :=
  match member column r with Some (VNum n) => Some n | _ => None end.

Definition jitter : Z := default 0 (tc_sequenceNumJitter (tr_config tr)).

(** The greatest sequence number that the system database keeps for the trigger *)
Definition last_seq (d : sysdb) : option Z :=
  getEventDispatchState "trigger" (fullname tr) "last" d ≫= es_updateSeq.

Definition catchup_rows (d : sysdb) (table : list record) : list record :=
  run_catchup Date_parse heap_order (createPoll tr d) table.

(** The state of the executor; the records of the table and all that it ever had; the records that
    wait in the queue of the process, and whether every record is in it or stored; and the records
    whose start has thrown *)
Record Watch : Type := WatchOf {
  wa_st : exec_state;
  wa_table : list record;
  wa_history : list record;
  wa_pending : list record;
  wa_caught : bool;
  wa_refused : list record
}.

(** [first] is a sequence number that was kept before: from then on the catch-up queries are
    ordered.  A record may become visible after others with greater sequence numbers, by less than the
    jitter; a process that has caught up may be notified of it.  A record that is changed leaves
    the table, and comes again with its new sequence number.  The process takes the records of its
    queue in order; it may die at any time, also between the start and the record of its sequence
    number, and others change the database but not that record.  When the start of a record throws,
    for a reason of the engine ([dispatch_throws]) or because the database fails, the loop logs the
    exception and goes on with the next record. *)
Inductive watch_step : Watch -> Watch -> Prop :=
| appears st table history pending caught refused r s (notified : bool) :
    seq r = Some s -> first - jitter < s ->
    (forall r' s', r' ∈ history -> seq r' = Some s' -> s' - jitter < s /\ s' <> s) ->
    watch_step (WatchOf st table history pending caught refused)
      (WatchOf st (table ++ [r]) (history ++ [r])
         (if caught && notified then pending ++ [r] else pending) (caught && notified) refused)
| leaves st table table' history pending caught refused :
    (forall r, r ∈ table' -> r ∈ table) ->
    watch_step (WatchOf st table history pending caught refused) (WatchOf st table' history pending caught refused)
| notified_again st table history pending refused r :
    r ∈ table ->
    watch_step (WatchOf st table history pending true refused) (WatchOf st table history (pending ++ [r]) true refused)
| catches_up st table history pending caught refused :
    watch_step (WatchOf st table history pending caught refused)
      (WatchOf st table history (pending ++ catchup_rows st.1 table) true refused)
| dispatches st table history pending caught refused invoke r op op' rd st' :
    op <> RecordDeleted -> new_id rd st.1 ->
    dispatch_payload invoke tr op r rd st = (Ok (op', true), st') ->
    watch_step (WatchOf st table history (r :: pending) caught refused) (WatchOf st' table history pending caught refused)
| start_throws st table history pending caught refused r st' :
    since true st.1 st'.1 -> last_seq st'.1 = last_seq st.1 ->
    watch_step (WatchOf st table history (r :: pending) caught refused)
      (WatchOf st' table history pending caught (r :: refused))
| dies_started st table history pending caught refused w r rd h st' :
    new_id rd st.1 -> start_record tr w (record_key (tr_config tr) r) r rd st = (Ok h, st') ->
    watch_step (WatchOf st table history (r :: pending) caught refused) (WatchOf st' table history [] false refused)
| dies st table history pending caught refused :
    watch_step (WatchOf st table history pending caught refused) (WatchOf st table history [] false refused)
| others_act st st' table history pending caught refused :
    since true st.1 st'.1 -> last_seq st'.1 = last_seq st.1 ->
    watch_step (WatchOf st table history pending caught refused) (WatchOf st' table history pending caught refused).

(** [tr] watches the column and starts workflows. *)
Definition watches : Prop :=
  tr_isWorkflow tr = true /\ truthy_str (tc_sequenceNumColumn (tr_config tr)) = Some column
  /\ truthy_str (tc_timestampColumn (tr_config tr)) = None /\ 0 <= jitter < first
  /\ can_start (tr_registration tr).

(** A record that the next catch-up cannot pass over *)
Definition ahead (d : sysdb) (r : record) : Prop :=
  forall l s, last_seq d = Some l -> seq r = Some s -> l - jitter < s.

(** The workflow of the record is stored, or its start has thrown. *)
Definition settled (refused : list record) (d : sysdb) (r : record) : Prop :=
  stored tr d r \/ r ∈ refused.

Lemma settled_since refused d d' r : since true d d' -> settled refused d r -> settled refused d' r.
Proof. intros Hs [?|?]; [left; by eapply stored_since|by right]. Qed.

Lemma settled_refused refused d r r' : settled refused d r -> settled (r' :: refused) d r.
Proof. intros [?|?]; [by left|right; set_solver]. Qed.

Record watch_ok (w : Watch) : Prop := {
  wo_db : db_ok (wa_st w).1;
  wo_table : forall r, r ∈ wa_table w -> r ∈ wa_history w;
  wo_pending : forall r, r ∈ wa_pending w -> r ∈ wa_history w;
  wo_seq : forall r, r ∈ wa_history w -> is_Some (seq r);
  wo_distinct : forall r r', r ∈ wa_history w -> r' ∈ wa_history w -> seq r = seq r' -> r = r';
  wo_last : exists l, last_seq (wa_st w).1 = Some l /\ first <= l
    /\ (l = first \/ exists r, r ∈ wa_history w /\ seq r = Some l);
  wo_ahead : forall r, r ∈ wa_table w -> settled (wa_refused w) (wa_st w).1 r \/ ahead (wa_st w).1 r;
  wo_order : forall l1 r l2 s r' s', wa_pending w = l1 ++ r :: l2 -> seq r = Some s ->
    r' ∈ wa_table w -> seq r' = Some s' ->
    settled (wa_refused w) (wa_st w).1 r' \/ r' ∈ l1 \/ r' = r \/ s - jitter < s';
  wo_caught : wa_caught w = true ->
    forall r, r ∈ wa_table w -> settled (wa_refused w) (wa_st w).1 r \/ r ∈ wa_pending w
}.

(** ** The catch-up query *)

Lemma column_seq r s : seq r = Some s -> column_number Date_parse false column r = Some s.
Proof.
  unfold seq, column_number, property. by destruct (member column r) as [[]|].
Qed.

Lemma truthy_num_nonzero n : n <> 0 -> truthy_num (Some n) = Some n.
Proof. unfold truthy_num. by destruct n. Qed.

(** Once something is kept, the query is bounded and ordered by the column. *)
Lemma createPoll_bound d l :
  watches -> last_seq d = Some l -> first <= l ->
  cq_after_seq (createPoll tr d) = Some (column, l - jitter) /\ cq_after_time (createPoll tr d) = None.
Proof.
  intros (_ & Hs & Ht & Hj & _) El Hl. unfold createPoll. rewrite Hs. unfold createCatchupSql.
  rewrite Hs, Ht. cbv zeta.
  change (getEventDispatchState "trigger" (fullname tr) "last" d ≫= es_updateSeq) with (last_seq d).
  rewrite El.
  assert (truthy_num (less_slack (truthy_num (Some l)) (tc_sequenceNumJitter (tr_config tr)))
          = Some (l - jitter)) as E; [|by rewrite E].
  rewrite (truthy_num_nonzero l) by lia. unfold less_slack, jitter in *.
  destruct (tc_sequenceNumJitter (tr_config tr)) as [[|p|p]|]; simpl default in *;
    rewrite ?(truthy_num_nonzero (Z.pos p)) by lia; simpl;
    rewrite ?Z.sub_0_r; apply truthy_num_nonzero; lia.
Qed.

Lemma catchup_rows_spec d l table :
  watches -> last_seq d = Some l -> first <= l ->
  (forall r, r ∈ catchup_rows d table <->
     r ∈ table /\ exists s, column_number Date_parse false column r = Some s /\ l - jitter < s)
  /\ StronglySorted (fun a b => column_le (column_number Date_parse false column) a b = true)
       (catchup_rows d table).
Proof.
  intros Hw El Hl. destruct (createPoll_bound d l Hw El Hl) as [E1 E2].
  unfold catchup_rows, run_catchup. rewrite E1, E2. split.
  - intros r. rewrite elem_of_order_by, list_elem_of_In, List.filter_In, <- list_elem_of_In.
    split; intros [Hr H]; (split; [done|]).
    + rewrite andb_true_r in H. destruct (column_number _ _ _ r) as [s|]; [|done].
      exists s. split; [done|]. lia.
    + destruct H as (s & -> & H). rewrite andb_true_r. lia.
  - apply order_by_sorted.
    + intros x y. unfold column_le. destruct (column_number _ _ _ x), (column_number _ _ _ y); auto.
      rewrite !Z.leb_le. lia.
    + intros x y z. unfold column_le.
      destruct (column_number _ _ _ x), (column_number _ _ _ y), (column_number _ _ _ z); try done.
      rewrite !Z.leb_le. lia.
Qed.

(** ** Dispatching one record *)

Lemma decide_watched op r s :
  watches -> op <> RecordDeleted -> seq r = Some s ->
  exists w, decide_payload tr op r = Started w (record_key (tr_config tr) r) (Some s) None.
Proof.
  intros (Hw & Hs & Ht & _) Hop Hr. unfold decide_payload, record_seqnum, record_timestamp.
  rewrite Hw, Hs, Ht. unfold seq in Hr. destruct (member column r) as [[]|]; try done.
  injection Hr as ->. simpl. by destruct op; eauto.
Qed.

Lemma last_seq_kv d d' : event_dispatch_kv d' = event_dispatch_kv d -> last_seq d' = last_seq d.
Proof. intros E. unfold last_seq, getEventDispatchState. by rewrite E. Qed.

Lemma keep_last_spec s l st :
  db_ok st.1 -> last_seq st.1 = Some l ->
  exists st', keep_last tr (Some s) None st = (Ok tt, st') /\ since true st.1 st'.1
    /\ (forall r, stored tr st.1 r -> stored tr st'.1 r)
    /\ exists l', last_seq st'.1 = Some l' /\ l <= l' /\ (l' = l \/ l' = s).
Proof.
  intros Hd Hl. set (e := ExternalStateOf (Some "") (truthy_num (default None None)) (truthy_num (Some s))).
  assert (since true st.1 (upsertEventDispatchState "trigger" (fullname tr) "last" e st.1).2) as Hs.
  { apply step_since; [|done]. by eexists _, _; split; [apply op_upsertEventDispatchState|]. }
  eexists. split; [unfold keep_last, bind, on_sys; reflexivity|]. simpl. split; [exact Hs|].
  split; [intros r; by apply stored_since|].
  unfold last_seq, getEventDispatchState in *. simpl. rewrite lookup_insert_eq. simpl.
  destruct (event_dispatch_kv st.1 !! _) as [old|]; [|done]. simpl in Hl |- *. rewrite Hl.
  destruct s as [|p|p]; simpl; eexists; (split; [reflexivity|]); lia.
Qed.

Lemma dispatch_watched invoke op r s l rd st op' st' :
  watches -> op <> RecordDeleted -> seq r = Some s -> new_id rd st.1 -> db_ok st.1 ->
  last_seq st.1 = Some l -> dispatch_payload invoke tr op r rd st = (Ok (op', true), st') ->
  since true st.1 st'.1 /\ stored tr st'.1 r
  /\ exists l', last_seq st'.1 = Some l' /\ l <= l' /\ (l' = l \/ l' = s).
Proof.
  intros Hw Hop Hr Hn Hd Hl. destruct (decide_watched op r s Hw Hop Hr) as [w E].
  unfold dispatch_payload. rewrite E. unfold try_catch, bind at 1.
  destruct (start_record _ _ _ _ _ st) as [[h|e] st1] eqn:Es; [|done].
  destruct (start_record_stores _ _ _ _ _ _ _ _ (proj2 (proj2 (proj2 (proj2 Hw)))) eq_refl Hn Hd Es)
    as ([Hd1 He1] & Hst & Hkv).
  rewrite <- (last_seq_kv _ _ Hkv) in Hl.
  destruct (keep_last_spec s l st1 Hd1 Hl) as (st2 & Ek & [Hd2 He2] & Hkeep & Hlast).
  unfold bind. rewrite Ek. intros [= <- <-].
  split; [split; [done|by etrans]|]. split; [by apply Hkeep|done].
Qed.

(** The start of a record that throws changes nothing that the catch-up reads. *)
Lemma start_record_throws w key r rd st e st' :
  can_start (tr_registration tr) -> new_id rd st.1 -> db_ok st.1 ->
  start_record tr w key r rd st = (Throw e, st') -> st'.1 = st.1.
Proof.
  intros (Hname & config & Hc & Hm) Hn Hd H.
  unfold start_record, at_top, startWorkflow, invokeWorkflow, prepare_start in H. simpl in H.
  unfold bind, in_ctx in H. simpl in H. destruct (options_error _ _ _); simpl in H; [by injection H as _ <-|].
  unfold in_exec in H. simpl in H.
  destruct (invokeRegOp _ _ _ _ _ _ _ _ _ _ _ _ _ _ st) as [[h'|e'] st1] eqn:E; simpl in H; [done|].
  injection H as _ <-. revert E. unfold invokeRegOp. rewrite bool_decide_true by (rewrite Hc; eauto).
  set (params := start_params _ _ _ _ _).
  assert (isTempWorkflow (tr_registration tr) params = false) as Htmp
    by (unfold isTempWorkflow; by rewrite bool_decide_false).
  intros E. destruct (internalWorkflow_top serializeArgs serializeError deserializeResError serializerName
    executorID appVersion appID (tr_registration tr) params config (TriggerArgsOf RecordUpserted key r)
    (CallerContextOf None None [] None) rd st) as [E1 E2].
  { unfold wf_config. by rewrite Htmp. }
  rewrite E in E1, E2. cbn [fst snd] in E1, E2. rewrite E1. clear E E1.
  change (iw_isRecoveryDispatch params) with false in *. change (iw_isQueueDispatch params) with false in *.
  destruct (init_fresh_cases (rd_now rd) (rd_nowMs rd)
    (internal_status serializeArgs executorID appVersion appID (tr_registration tr) params None
       (TriggerArgsOf RecordUpserted key r) (CallerContextOf None None [] None) rd) (Some (rd_ownerXid rd))
    (Some (default DEFAULT_MAX_RECOVERY_ATTEMPTS (truthy_num (wc_maxRecoveryAttempts config)))) st.1
    (ok_dedup _ Hd) Hn) as [[_ Ei]|[_ Ei]].
  { intros m [= <-]. by apply recovery_limit_nonneg. }
  - by rewrite Ei.
  - rewrite Ei in E2. discriminate E2.
Qed.

(** A dispatch that catches an exception is the step [start_throws]. *)
Lemma dispatch_throws invoke op r rd st op' st' :
  watches -> op <> RecordDeleted -> is_Some (seq r) -> new_id rd st.1 -> db_ok st.1 ->
  is_Some (last_seq st.1) -> dispatch_payload invoke tr op r rd st = (Ok (op', false), st') ->
  st'.1 = st.1.
Proof.
  intros Hw Hop [s Hr] Hn Hd [l Hl]. destruct (decide_watched op r s Hw Hop Hr) as [w E].
  unfold dispatch_payload. rewrite E. unfold try_catch, bind at 1.
  destruct (start_record _ _ _ _ _ st) as [[h|e] st1] eqn:Es.
  - destruct (start_record_stores _ _ _ _ _ _ _ _ (proj2 (proj2 (proj2 (proj2 Hw)))) eq_refl Hn Hd Es)
      as ([Hd1 _] & _ & Hkv).
    rewrite <- (last_seq_kv _ _ Hkv) in Hl.
    destruct (keep_last_spec s l st1 Hd1 Hl) as (st2 & Ek & _). unfold bind. by rewrite Ek.
  - intros [= _ <-]. eapply (start_record_throws w (record_key (tr_config tr) r) r rd st e st1); [|done..]. by destruct Hw as (_ & _ & _ & _ & ?).
Qed.

(** ** Every step keeps the invariant *)

(** A step that changes the executor and the queue, and not the table *)
Lemma watch_ok_next st st' table history pending pending' caught caught' refused l' :
  watch_ok (WatchOf st table history pending caught refused) ->
  since true st.1 st'.1 -> last_seq st'.1 = Some l' -> first <= l' ->
  (l' = first \/ exists r, r ∈ history /\ seq r = Some l') ->
  (forall r s, r ∈ table -> seq r = Some s -> settled refused st'.1 r \/ l' - jitter < s) ->
  (forall r, r ∈ pending' -> r ∈ pending) ->
  (forall l1 r l2 s r' s', pending' = l1 ++ r :: l2 -> seq r = Some s ->
    r' ∈ table -> seq r' = Some s' -> settled refused st'.1 r' \/ r' ∈ l1 \/ r' = r \/ s - jitter < s') ->
  (caught' = true -> forall r, r ∈ table -> settled refused st'.1 r \/ r ∈ pending') ->
  watch_ok (WatchOf st' table history pending' caught' refused).
Proof.
  intros [H1 H2 H3 H4 H5 H6 H7 H8 H9] [Hd' _] Hl Hf Hh Ha Hp Ho Hc. simpl in *.
  split; simpl; try done; [by auto|by exists l'|].
  intros r Hr. destruct (H4 r) as [s Hs]; [by auto|].
  destruct (Ha r s Hr Hs) as [?|Hlt]; [by left|right]. intros l s' El Es. rewrite Hl in El.
  injection El as <-. rewrite Hs in Es. by injection Es as <-.
Qed.

(** The same when the kept sequence number does not change *)
Lemma watch_ok_same st st' table history pending pending' caught caught' refused :
  watch_ok (WatchOf st table history pending caught refused) ->
  since true st.1 st'.1 -> last_seq st'.1 = last_seq st.1 ->
  (forall r, r ∈ pending' -> r ∈ pending) ->
  (forall l1 r l2 s r' s', pending' = l1 ++ r :: l2 -> seq r = Some s ->
    r' ∈ table -> seq r' = Some s' -> settled refused st'.1 r' \/ r' ∈ l1 \/ r' = r \/ s - jitter < s') ->
  (caught' = true -> forall r, r ∈ table -> settled refused st'.1 r \/ r ∈ pending') ->
  watch_ok (WatchOf st' table history pending' caught' refused).
Proof.
  intros Hw Hs Hl Hp Ho Hc. pose proof Hw as [_ _ _ _ _ (l & El & Hf & Hh) H7 _ _]. simpl in *.
  eapply watch_ok_next; try done; [by rewrite Hl|].
  intros r s Hr Es. destruct (H7 r Hr) as [?|Ha]; [left; by eapply settled_since|right; by apply (Ha l s)].
Qed.

(** More records in the queue, which are all in the table *)
Lemma watch_ok_queue st table history pending more caught refused :
  watch_ok (WatchOf st table history pending caught refused) ->
  (forall r, r ∈ more -> r ∈ table) ->
  (forall l1 r l2 s r' s', more = l1 ++ r :: l2 -> seq r = Some s ->
    r' ∈ table -> seq r' = Some s' ->
    settled refused st.1 r' \/ r' ∈ pending ++ l1 \/ r' = r \/ s - jitter < s') ->
  (forall r, r ∈ table -> settled refused st.1 r \/ r ∈ pending ++ more) ->
  watch_ok (WatchOf st table history (pending ++ more) true refused).
Proof.
  intros [H1 H2 H3 H4 H5 H6 H7 H8 H9] Hm Ho Hc. simpl in *. split; simpl; try done.
  - intros r [Hr|Hr]%elem_of_app; auto.
  - intros l1 r l2 s r' s' E Es Hr' Es'.
    apply app_eq_inv in E as [(k & E1 & E2)|(k & E1 & E2)].
    + destruct k as [|r1 k]; simpl in E2.
      * rewrite app_nil_r in E1. subst l1.
        destruct (Ho [] r l2 s r' s') as [?|[Hin|?]]; try done; auto.
        right; left. by rewrite app_nil_r in Hin.
      * injection E2 as <- ->. by apply (H8 l1 r k s r' s').
    + subst l1. by apply (Ho k r l2 s r' s').
Qed.

Lemma db_ok_since_refl d : db_ok d -> since true d d.
Proof. intros Hd. by split. Qed.

Lemma appears_ok st table history pending caught refused r s (notified : bool) :
  watch_ok (WatchOf st table history pending caught refused) -> seq r = Some s -> first - jitter < s ->
  (forall r' s', r' ∈ history -> seq r' = Some s' -> s' - jitter < s /\ s' <> s) ->
  watch_ok (WatchOf st (table ++ [r]) (history ++ [r])
              (if caught && notified then pending ++ [r] else pending) (caught && notified) refused).
Proof.
  intros [H1 H2 H3 H4 H5 (l & El & Hf & Hl) H7 H8 H9] Es Hfs Hs. simpl in *.
  assert (watch_ok (WatchOf st (table ++ [r]) (history ++ [r]) pending false refused)) as Hw.
  { split; simpl; try done.
    - set_solver.
    - set_solver.
    - intros r' [Hr'| ->%list_elem_of_singleton]%elem_of_app; [auto|by eexists].
    - intros r1 r2 [Hr1| ->%list_elem_of_singleton]%elem_of_app [Hr2| ->%list_elem_of_singleton]%elem_of_app E;
        auto; exfalso; rewrite Es in E; [by destruct (Hs r1 s Hr1 E)|].
      symmetry in E. by destruct (Hs r2 s Hr2 E).
    - exists l. split; [done|]. split; [done|]. destruct Hl as [->|(r' & Hr' & E')]; [by left|right].
      exists r'. split; [set_solver|done].
    - intros r' [Hr'| ->%list_elem_of_singleton]%elem_of_app; [by apply H7|right].
      intros l' s' El' Es'. rewrite El in El'. injection El' as <-. rewrite Es in Es'. injection Es' as <-.
      destruct Hl as [->|(r' & Hr' & E')]; [done|by apply (Hs r')].
    - intros l1 r1 l2 s1 r' s' E E1 [Hr'| ->%list_elem_of_singleton]%elem_of_app Es'.
      + by apply (H8 l1 r1 l2 s1 r' s').
      + right; right; right. rewrite Es in Es'. injection Es' as <-.
        apply (Hs r1); [|done]. apply H3. rewrite E. set_solver. }
  destruct caught, notified; simpl; try done.
  apply (watch_ok_queue st (table ++ [r]) (history ++ [r]) pending [r] false refused Hw).
  - set_solver.
  - intros l1 r1 l2 s1 r' s' E E1 [Hr'| ->%list_elem_of_singleton]%elem_of_app Es'.
    + destruct (H9 eq_refl r' Hr') as [?|?]; [by left|right; left; set_solver].
    + right; right; left. destruct l1 as [|? [|??]]; simpl in E; by injection E.
  - intros r' [Hr'| ->%list_elem_of_singleton]%elem_of_app; [|set_solver].
    destruct (H9 eq_refl r' Hr') as [?|?]; [by left|right; set_solver].
Qed.

(** The catch-up finds all that is ahead, in order. *)
Lemma catches_up_ok st table history pending caught refused :
  watches -> watch_ok (WatchOf st table history pending caught refused) ->
  watch_ok (WatchOf st table history (pending ++ catchup_rows st.1 table) true refused).
Proof.
  intros Hw Hok. pose proof Hok as [H1 H2 H3 H4 H5 (l & El & Hf & Hl) H7 _ _]. simpl in *.
  destruct (catchup_rows_spec st.1 l table Hw El Hf) as [Hrows Hsorted].
  assert (forall r, r ∈ table -> settled refused st.1 r \/ r ∈ catchup_rows st.1 table) as Hin.
  { intros r Hr. destruct (H4 r) as [s Es]; [auto|]. destruct (H7 r Hr) as [?|Ha]; [by left|right].
    apply Hrows. split; [done|]. exists s. split; [by apply column_seq|by apply (Ha l)]. }
  apply (watch_ok_queue _ _ _ _ _ _ _ Hok).
  - intros r Hr. by apply Hrows in Hr as [? _].
  - intros l1 r l2 s r' s' E Es Hr' Es'. destruct (Hin r' Hr') as [?|Hi]; [by left|right].
    rewrite E in Hi, Hsorted. apply elem_of_app in Hi as [Hi|Hi]; [left; set_solver|right].
    apply elem_of_cons in Hi as [->|Hi]; [by left|].
    assert (column_le (column_number Date_parse false column) r r' = true) as Hle.
    { apply StronglySorted_app in Hsorted as (_ & _ & Hss). apply StronglySorted_inv in Hss as [_ Hss].
      by apply (proj1 (Forall_forall _ _) Hss). }
    unfold column_le in Hle. rewrite (column_seq _ _ Es), (column_seq _ _ Es') in Hle.
    apply Z.leb_le in Hle. destruct (decide (s = s')) as [<-|Hss].
    + left. apply H5; [by auto| |congruence].
      apply H2. assert (r ∈ catchup_rows st.1 table) as Hc by (rewrite E; set_solver).
      by apply Hrows in Hc as [? _].
    + right. destruct Hw as (_ & _ & _ & Hj & _). lia.
  - intros r Hr. destruct (Hin r Hr); [by left|right; set_solver].
Qed.

Lemma watch_ok_dispatched st st' table history pending caught refused r s l l' :
  watch_ok (WatchOf st table history (r :: pending) caught refused) -> seq r = Some s ->
  since true st.1 st'.1 -> settled refused st'.1 r ->
  last_seq st.1 = Some l -> last_seq st'.1 = Some l' -> l <= l' -> l' = l \/ l' = s ->
  watch_ok (WatchOf st' table history pending caught refused).
Proof.
  intros Hok Es Hs Hst El El' Hle Hl'. pose proof Hok as [_ _ H3 _ H5 (l0 & E0 & Hf & Hh) H7 H8 H9]. simpl in *.
  rewrite El in E0. injection E0 as <-.
  assert (forall x, settled refused st.1 x -> settled refused st'.1 x) as Hk by (intros x; by apply settled_since).
  eapply watch_ok_next; [done|done|done|lia| | | | |].
  - destruct Hl' as [->| ->]; [done|]. right. exists r. split; [set_solver|done].
  - intros x y Hx Ey. destruct Hl' as [->| ->].
    + destruct (H7 x Hx) as [?|Ha]; [left; auto|right; by apply (Ha l y)].
    + destruct (H8 [] r pending s x y) as [?|[Hin|[->|?]]]; auto. by apply elem_of_nil in Hin.
  - set_solver.
  - intros l1 x l2 y r' s' E Ey Hr' Es'.
    destruct (H8 (r :: l1) x l2 y r' s') as [?|[Hin|?]]; auto; [by rewrite E|].
    apply elem_of_cons in Hin as [->|?]; auto.
  - intros -> x Hx. destruct (H9 eq_refl x Hx) as [?|Hin]; [left; auto|].
    apply elem_of_cons in Hin as [->|?]; auto.
Qed.

(** The start throws: the record is given up, and later ones may carry the kept number past it. *)
Lemma watch_ok_refused refused st st' table history pending caught r :
  watch_ok (WatchOf st table history (r :: pending) caught refused) ->
  since true st.1 st'.1 -> last_seq st'.1 = last_seq st.1 ->
  watch_ok (WatchOf st' table history pending caught (r :: refused)).
Proof.
  intros [H1 H2 H3 H4 H5 H6 H7 H8 H9] Hs Hl. simpl in *.
  assert (forall x, settled refused st.1 x -> settled (r :: refused) st'.1 x) as Hk.
  { intros x Hx. by eapply settled_refused, settled_since. }
  split; simpl; try done; [by destruct Hs|set_solver|by rewrite Hl| | |].
  - intros x Hx. destruct (H7 x Hx) as [?|Ha]; [left; auto|right]. unfold ahead. by rewrite Hl.
  - intros l1 x l2 y r' s' E Ey Hr' Es'.
    destruct (H8 (r :: l1) x l2 y r' s') as [?|[Hin|?]]; auto; [by rewrite E|].
    apply elem_of_cons in Hin as [->|?]; [|by auto]. left; right. set_solver.
  - intros Hc x Hx. destruct (H9 Hc x Hx) as [?|Hin]; [left; auto|].
    apply elem_of_cons in Hin as [->|?]; [|by right]. left; right. set_solver.
Qed.

(** A process that dies leaves an empty queue. *)
Lemma watch_ok_dies st st' table history pending caught refused :
  watch_ok (WatchOf st table history pending caught refused) ->
  since true st.1 st'.1 -> last_seq st'.1 = last_seq st.1 ->
  watch_ok (WatchOf st' table history [] false refused).
Proof.
  intros Hok Hs Hl. eapply watch_ok_same; try done; [set_solver|]. by intros [].
Qed.

Lemma watch_step_ok w w' : watches -> watch_ok w -> watch_step w w' -> watch_ok w'.
Proof.
  intros Hw Hok Hstep.
  destruct Hstep as [st table history pending caught refused r s notified Es Hf Hs
    |st table table' history pending caught refused Hsub|st table history pending refused r Hr
    |st table history pending caught refused|st table history pending caught refused invoke r op op' rd st' Hop Hn Hd
    |st table history pending caught refused r st' Hs Hl
    |st table history pending caught refused w r rd h st' Hn Hd|st table history pending caught refused
    |st st' table history pending caught refused Hs Hl].
  - by apply (appears_ok st table history pending caught refused r s notified).
  - pose proof Hok as [H1 H2 H3 H4 H5 H6 H7 H8 H9]. simpl in *. split; simpl; auto.
    intros l1 r l2 s r' s' E Es Hr' Es'. eapply H8; eauto.
  - pose proof (wo_caught _ Hok eq_refl) as Hc. simpl in Hc.
    eapply (watch_ok_queue _ _ _ _ _ true); [exact Hok|set_solver| |].
    + intros l1 x l2 y r' s' E Ey Hr' Es'. destruct (Hc r' Hr') as [?|?]; [by left|right; left; set_solver].
    + intros x Hx. destruct (Hc x Hx); [by left|right; set_solver].
  - by apply (catches_up_ok st table history pending caught refused).
  - pose proof Hok as [H1 _ H3 H4 _ (l & El & _) _ _ _]. simpl in *.
    destruct (H4 r) as [s Es]; [apply H3; set_solver|].
    destruct (dispatch_watched _ _ _ _ _ _ _ _ _ Hw Hop Es Hn H1 El Hd) as (Hs & Hst & l' & El' & Hle & Hl').
    eapply watch_ok_dispatched; [exact Hok|done|done|by left|done..].
  - by apply (watch_ok_refused refused st st' table history pending caught r).
  - pose proof Hok as [H1 _ _ _ _ _ _ _ _]. simpl in *.
    destruct (start_record_stores _ _ _ _ _ _ _ _ (proj2 (proj2 (proj2 (proj2 Hw)))) eq_refl Hn H1 Hd)
      as (Hs & _ & Hkv).
    eapply watch_ok_dies; [exact Hok|done|by apply last_seq_kv].
  - eapply watch_ok_dies; [exact Hok|by apply db_ok_since_refl; destruct Hok|done].
  - pose proof Hok as [_ _ _ _ _ _ _ H8 H9]. simpl in *.
    assert (forall x, settled refused st.1 x -> settled refused st'.1 x) as Hk by (intros x; by apply settled_since).
    eapply watch_ok_same; [exact Hok|done|done|done| |].
    + intros l1 x l2 y r' s' E Ey Hr' Es'. destruct (H8 l1 x l2 y r' s') as [?|?]; auto.
    + intros Hc x Hx. destruct (H9 Hc x Hx); auto.
Qed.

Lemma watch_start st :
  watches -> db_ok st.1 -> last_seq st.1 = Some first -> watch_ok (WatchOf st [] [] [] false []).
Proof.
  intros (_ & _ & _ & Hj & _) Hd Hl.
  split; simpl; try done; try by intros ? ?%elem_of_nil.
  - intros ? ? ?%elem_of_nil. done.
  - exists first. split; [done|]. split; [lia|by left].
  - intros [] ? ? ? ? ? E; discriminate E.
Qed.


End watch.


End trigger.

(** * Examples and witnesses *)

Import TriggerPayloadQueue.

Definition ex_registration : Registration :=
  RegistrationOf "onOrder" "Shop" (Some (WorkflowConfigOf None None)) None.

(** A workflow on the table [orders], whose records become visible with a jitter of two *)
Definition ex_config : DBTriggerConfig :=
  DBTriggerConfigOf "orders" None ["id"] true true (Some "seq") (Some 2) None None None None.

Definition ex_trigger : TriggerReg := TriggerRegOf "Shop" "onOrder" ex_config true ex_registration.

Definition ex_record (n : Z) : record := [("id", VNum n); ("seq", VNum n)].

(** The arguments are serialized to the sequence number. *)
Definition ex_serializeArgs (a : TriggerArgs) (_ : option string) : string * option string :=
  (match seq "seq" (ta_record a) with Some n => stringify_Z n | None => "none" end, None).

Definition ex_reading (id : string) : StartReadings := StartReadingsOf 100 100 100 101 id id.

Definition ex_no_dates (_ : string) : option Z := None.

Definition ex_no_text (_ : list jsval) : string := "".

Definition ex_invoke (_ : TriggerReg) (_ : TriggerArgs) : EX unit := ret tt.

Definition ex_dispatch (tr : TriggerReg) (op : TriggerOperation) (r : record) (id : string) :=
  dispatch_payload ex_no_dates ex_no_text ex_serializeArgs ex_ser ex_deser "js_superjson" "exec-1"
    "v1" "" ∅ ex_invoke tr op r (ex_reading id).

(** The system database keeps the sequence number 10. *)
Definition ex_kept : exec_state := (keep_last ex_trigger (Some 10) None (empty_db, ∅)).2.

(** The record 12 is dispatched; 11 becomes visible after it. *)
Definition ex_after_12 : exec_state := (ex_dispatch ex_trigger RecordUpserted (ex_record 12) "wf-12" ex_kept).2.

Definition ex_rows (st : exec_state) (table : list record) : list record :=
  catchup_rows ex_no_dates ex_trigger (fun l => l) st.1 table.

Lemma ex_can_start : can_start ex_registration.
Proof. split; [done|]. exists (WorkflowConfigOf None None). split; [done|]. by intros m. Qed.

Lemma ex_watches : watches ex_trigger "seq" 10.
Proof. do 3 (split; [done|]). split; [done|exact ex_can_start]. Qed.

Lemma ex_kept_ok : db_ok ex_kept.1.
Proof.
  change (db_ok (upsertEventDispatchState "trigger" "Shop.onOrder" "last"
                   (ExternalStateOf (Some "") None (Some 10)) empty_db).2).
  apply (step_since true empty_db); [|exact empty_db_ok].
  by eexists _, _; split; [apply op_upsertEventDispatchState|].
Qed.

Local Notation in_ex f :=
  (f ex_no_dates ex_no_text ex_serializeArgs ex_ser ex_deser "js_superjson" "exec-1" "v1" "" ∅ ex_trigger
     "seq" (fun l => l) 10).

Definition ex_late : Watch :=
  WatchOf ex_after_12 [ex_record 12; ex_record 11] [ex_record 12; ex_record 11] [] false [].

(** The process has caught up and dispatched the record 12 when 11 becomes visible, and is not
    notified of it. *)
Lemma ex_late_run : rtc (in_ex watch_step) (WatchOf ex_kept [] [] [] false []) ex_late.
Proof.
  assert (in_ex watch_step (WatchOf ex_kept [ex_record 12] [ex_record 12] [] false [])
            (WatchOf ex_kept [ex_record 12] [ex_record 12] ([] ++ ex_rows ex_kept [ex_record 12]) true []))
    as H2 by exact (in_ex catches_up ex_kept [ex_record 12] [ex_record 12] [] false []).
  assert (ex_rows ex_kept [ex_record 12] = [ex_record 12]) as E by (by vm_compute). rewrite E in H2. clear E.
  eapply rtc_l; [|eapply rtc_l; [exact H2|]].
  { apply (in_ex appears ex_kept [] [] [] false [] (ex_record 12) 12 false); [done|done|].
    by intros ? ? ?%elem_of_nil. }
  eapply rtc_l; [|eapply rtc_l; [|apply rtc_refl]].
  - apply (in_ex dispatches ex_kept [ex_record 12] [ex_record 12] [] true [] ex_invoke (ex_record 12) RecordUpserted
      RecordUpserted (ex_reading "wf-12") ex_after_12); [done|by vm_compute|by vm_compute].
  - apply (in_ex appears ex_after_12 [ex_record 12] [ex_record 12] [] true [] (ex_record 11) 11 false); [done|done|].
    intros r s ->%list_elem_of_singleton [= <-]. done.
Qed.


Lemma payloads_in_order_witness :
  Forall well_tagged [Dequeue 1; EnqueueNotify (false, 4%nat); EnqueueCatchup (true, 2%nat); FinishCatchup]
  /\ from true [(true, 2%nat)] ++ from true [] = [2%nat].
Proof.
  assert (Forall well_tagged [Dequeue 1; EnqueueNotify (false, 4%nat); EnqueueCatchup (true, 2%nat); FinishCatchup])
    as H by by repeat constructor.
  split; [exact H|]. exact (proj1 (payloads_in_order _ H)).
Defined.

(** ** What the code does not do *)

(** The ID that the dispatch makes for the workflow is no parameter of [DBOS.startWorkflow]: a
    record that the next catch-up finds again, within the jitter, starts a second workflow. *)
Lemma record_started_twice :
  let again := (ex_dispatch ex_trigger RecordUpserted (ex_record 12) "wf-12-again" ex_after_12).2 in
  ex_record 12 ∈ ex_rows ex_after_12 [ex_record 12; ex_record 11]
  /\ ws_inputs <$> workflow_status again.1 = {[ "wf-12" := Some "12"; "wf-12-again" := Some "12" ]}.
Proof.
  split; [|by vm_compute].
  assert (ex_rows ex_after_12 [ex_record 12; ex_record 11] = [ex_record 11; ex_record 12]) as -> by (by vm_compute).
  set_solver.
Qed.

(** A workflow on the same table that has no sequence number, and is not to run for an update *)
Definition ex_unnumbered : TriggerReg :=
  TriggerRegOf "Shop" "audit" (DBTriggerConfigOf "orders" None ["id"] true true None None None None None None)
    true (RegistrationOf "audit" "Shop" (Some (WorkflowConfigOf None None)) None).

(** The payload is shared: once the first registration has run, an update is an upsert for the
    next, which then runs for it. *)
Lemma operation_is_shared :
  let run regs := (payloadFunc ex_no_dates ex_no_text ex_serializeArgs ex_ser ex_deser "js_superjson"
    "exec-1" "v1" "" ∅ ex_invoke regs [ex_reading "wf-1"; ex_reading "wf-2"] RecordUpdated (ex_record 12)
    (empty_db, ∅)).2 in
  ws_name <$> workflow_status (run [ex_unnumbered; ex_trigger]).1 = {[ "wf-2" := "onOrder" ]}
  /\ ws_name <$> workflow_status (run [ex_trigger; ex_unnumbered]).1 = {[ "wf-1" := "onOrder"; "wf-2" := "audit" ]}.
Proof. by vm_compute. Qed.

(** With nothing kept, the catch-up has no order.  The record 20 comes first, and the process dies
    after it: the next catch-up passes over 12, which has not run. *)
Lemma first_catchup_unordered :
  let table := [ex_record 20; ex_record 12] in
  let st := (ex_dispatch ex_trigger RecordUpserted (ex_record 20) "wf-20" (empty_db, ∅)).2 in
  ex_rows (empty_db, ∅) table = table
  /\ ex_rows st table = [ex_record 20]
  /\ ws_inputs <$> workflow_status st.1 = {[ "wf-20" := Some "20" ]}.
Proof. by vm_compute. Qed.

(** A record whose start throws is lost: the loop goes on, the next record carries the kept number
    past it, and no catch-up finds it. *)
Definition ex_after_20 : exec_state := (ex_dispatch ex_trigger RecordUpserted (ex_record 20) "wf-20" ex_kept).2.

Lemma refused_record_lost :
  let table := [ex_record 12; ex_record 20] in
  rtc (in_ex watch_step) (WatchOf ex_kept table table table true [])
    (WatchOf ex_after_20 table table [] true [ex_record 12])
  /\ ex_rows ex_after_20 table = [ex_record 20]
  /\ ws_inputs <$> workflow_status ex_after_20.1 = {[ "wf-20" := Some "20" ]}.
Proof.
  intros table. split; [|by vm_compute]. eapply rtc_l; [|eapply rtc_l; [|apply rtc_refl]].
  - apply (in_ex start_throws ex_kept table table [ex_record 20] true [] (ex_record 12) ex_kept); [|done].
    by apply db_ok_since_refl, ex_kept_ok.
  - apply (in_ex dispatches ex_kept table table [] true [ex_record 12] ex_invoke (ex_record 20) RecordUpserted
      RecordUpserted (ex_reading "wf-20") ex_after_20); [done|by vm_compute|by vm_compute].
Qed.

(** After a shutdown, [restart] leaves the catch-up finished: a notification of the next launch
    comes out before its catch-up. *)
Lemma restart_before_catchup :
  (run_calls [Restart; FinishCatchup; Stop; Restart; EnqueueNotify "new"; Dequeue 0; EnqueueCatchup "old";
              FinishCatchup; Dequeue 1] new_queue).1
  = [(0%nat, Some "new"); (1%nat, Some "old")].
Proof. reflexivity. Qed.

(** A registration that only listens keeps a later one of its table from installing the trigger. *)
Lemma listener_blocks_install :
  let listens := TriggerRegOf "Shop" "audit"
    (DBTriggerConfigOf "orders" None ["id"] true false None None None None None None) false ex_registration in
  pl_installed (initialize [listens; ex_trigger] empty_db) = []
  /\ ts_table <$> pl_installed (initialize [ex_trigger; listens] empty_db) = [quoteIdentifier "orders"].
Proof. by vm_compute. Qed.
