(* ===== verification/Admin.v ===== *)
(** The admin server (src/src/adminserver.ts): its router, and what each endpoint does with the
    executor and answers.

    The operations are those that the conductor asks for; Conductor.v has their conversions and the
    lemmas on their effects.  A request is its method, the path that [url.parse] finds and its body;
    the fields of a body have the types that the handlers expect of them.  Not modelled: sockets,
    headers and logging. *)

From Stdlib Require Import Ascii.
From S2P Require Export Conductor.
From S2P Require Crontab.
From S2P Require Import Queues.

Open Scope Z_scope.

(** * Routing *)

(** The endpoints, in the order in which [setupAdminApp] registers them *)
Inductive Endpoint : Type :=
| Health | Recovery | Perf | Deactivate | ConductorStatus | CancelWorkflow | ResumeWorkflow
| RestartWorkflow | QueueMetadata | ListWorkflowSteps | ListWorkflows | ListQueuedWorkflows
| GetWorkflow | ForkWorkflow | GarbageCollect | GlobalTimeout.

#[export] Instance Endpoint_eq_dec : EqDecision Endpoint.
Proof. solve_decision. Defined.

Definition WorkflowRecoveryUrl : string := "/dbos-workflow-recovery".
Definition HealthUrl : string := "/dbos-healthz".
Definition PerfUrl : string := "/dbos-perf".
Definition DeactivateUrl : string := "/deactivate".
Definition ConductorUrl : string := "/conductor".
Definition WorkflowQueuesMetadataUrl : string := "/dbos-workflow-queues-metadata".

(** [Route]; the endpoint is its handler. *)
Record Route : Type := RouteOf { rt_method : string; rt_path : string; rt_endpoint : Endpoint }.

(** What the [register...Endpoint] functions push *)
Definition route_of (e : Endpoint) : Route :=
  match e with
  | Health => RouteOf "GET" HealthUrl e
  | Recovery => RouteOf "POST" WorkflowRecoveryUrl e
  | Perf => RouteOf "GET" PerfUrl e
  | Deactivate => RouteOf "GET" DeactivateUrl e
  | ConductorStatus => RouteOf "GET" ConductorUrl e
  | CancelWorkflow => RouteOf "POST" "/workflows/:workflow_id/cancel" e
  | ResumeWorkflow => RouteOf "POST" "/workflows/:workflow_id/resume" e
  | RestartWorkflow => RouteOf "POST" "/workflows/:workflow_id/restart" e
  | QueueMetadata => RouteOf "GET" WorkflowQueuesMetadataUrl e
  | ListWorkflowSteps => RouteOf "GET" "/workflows/:workflow_id/steps" e
  | ListWorkflows => RouteOf "POST" "/workflows" e
  | ListQueuedWorkflows => RouteOf "POST" "/queues" e
  | GetWorkflow => RouteOf "GET" "/workflows/:workflow_id" e
  | ForkWorkflow => RouteOf "POST" "/workflows/:workflow_id/fork" e
  | GarbageCollect => RouteOf "POST" "/dbos-garbage-collect" e
  | GlobalTimeout => RouteOf "POST" "/dbos-global-timeout" e
  end.

Definition routes : list Route :=
  map route_of [Health; Recovery; Perf; Deactivate; ConductorStatus; CancelWorkflow; ResumeWorkflow;
                RestartWorkflow; QueueMetadata; ListWorkflowSteps; ListWorkflows; ListQueuedWorkflows;
                GetWorkflow; ForkWorkflow; GarbageCollect; GlobalTimeout].

(** The loop of [matchPath], on parts of the same number *)
Fixpoint match_parts (params : gmap string string) (patternParts pathParts : list string)
    : option (gmap string string) :=
  match patternParts, pathParts with
  | patternPart :: pattern, pathPart :: path =>
      match patternPart with
      | String ":" paramName => match_parts (<[paramName := pathPart]> params) pattern path
      | _ => if String.eqb patternPart pathPart then match_parts params pattern path else None
      end
  | _, _ => Some params
  end.

Definition matchPath (pattern pathname : string) : option (gmap string string) :=
  let patternParts := Crontab.split_on "/" pattern in
  let pathParts := Crontab.split_on "/" pathname in
  if negb (length patternParts =? length pathParts)%nat then None
  else match_parts ∅ patternParts pathParts.

(** The loop of the server over the routes *)
Fixpoint find_route (rs : list Route) (method pathname : string) : option (Endpoint * gmap string string) :=
  match rs with
  | [] => None
  | r :: rs' =>
      if String.eqb method (rt_method r) then
        match matchPath (rt_path r) pathname with
        | Some params => Some (rt_endpoint r, params)
        | None => find_route rs' method pathname
        end
      else find_route rs' method pathname
  end.

(** * Requests *)

(** The body of the two listings; that of the queued workflows has fewer fields. *)
Record ListBody : Type := ListBodyOf {
  li_workflow_uuids : option (list string);
  li_workflow_name : option StrFilter;
  li_authenticated_user : option StrFilter;
  li_start_time : option string;
  li_end_time : option string;
  li_status : option StrFilter;
  li_application_version : option StrFilter;
  li_fork_from : option StrFilter;
  li_parent_workflow_id : option StrFilter;
  li_queue_name : option StrFilter;
  li_limit : option Z;
  li_offset : option Z;
  li_sort_desc : bool;
  li_workflow_id_prefix : option StrFilter;
  li_load_input : option bool;
  li_load_output : option bool
}.

(** The body of a fork *)
Record ForkBody : Type := ForkBodyOf {
  fo_start_step : option Z;
  fo_new_workflow_id : option string;
  fo_application_version : option string;
  fo_timeout_ms : option Z
}.

(** An object, as each handler reads it *)
Record Fields : Type := FieldsOf {
  as_list : ListBody;
  as_fork : ForkBody;
  cutoff_epoch_timestamp_ms : option Z;
  rows_threshold : option Z
}.

Definition no_body_fields : Fields :=
  FieldsOf (ListBodyOf None None None None None None None None None None None None false None None None)
    (ForkBodyOf None None None None) None None.

(** The body of a request: no JSON, nothing, or a JSON value *)
Inductive Body : Type :=
| Unreadable | NoBody | Null | Primitive | Text (s : string) | Array (ids : list string) | Object (f : Fields).

(** [parseJsonBody] and the reading of the fields *)
Definition read_fields (b : Body) : outcome dbos_error Fields :=
  match b with
  | Unreadable => Throw (JsError "Invalid JSON")
  | Null => Throw (JsTypeError "Cannot read properties of null")
  | Object f => Ok f
  | _ => Ok no_body_fields
  end.

(** The elements of a body that is iterated over *)
Definition read_ids (b : Body) : outcome dbos_error (list string) :=
  match b with
  | Unreadable => Throw (JsError "Invalid JSON")
  | Array ids => Ok ids
  | Text s => Ok (map (fun c => String c "") (String.list_ascii_of_string s))
  | Null => Throw (JsTypeError "Cannot read properties of null")
  | _ => Throw (JsTypeError "executorIDs is not iterable")
  end.

Record HttpRequest : Type := HttpRequestOf { hq_method : string; hq_pathname : string; hq_body : Body }.

(** * Responses *)

(** [QueueMetadataResponse] *)
Record QueueMetadataResponse : Type := QueueMetadataOf {
  qm_name : string;
  qm_concurrency : option Z;
  qm_workerConcurrency : option Z;
  qm_rateLimit : option QueueRateLimit
}.

(** What is sent as JSON *)
Inductive AdminJson (ELU : Type) : Type :=
| ErrorJson (error : string)
| WorkflowIdJson (workflow_id : string)
| WorkflowsJson (l : list WorkflowsOutput)
| WorkflowJson (w : WorkflowsOutput)
| StepsJson (l : option (list WorkflowSteps))
| IdsJson (l : list (option string))
| StatusJson (status : bool)
| UtilizationJson (elu : ELU)
| QueuesJson (l : list QueueMetadataResponse).
Arguments ErrorJson {ELU}.
Arguments WorkflowIdJson {ELU}.
Arguments WorkflowsJson {ELU}.
Arguments WorkflowJson {ELU}.
Arguments StepsJson {ELU}.
Arguments IdsJson {ELU}.
Arguments StatusJson {ELU}.
Arguments UtilizationJson {ELU}.
Arguments QueuesJson {ELU}.

Inductive Content (ELU : Type) : Type := Json (j : AdminJson ELU) | Plain (s : string) | Empty.
Arguments Json {ELU}.
Arguments Plain {ELU}.
Arguments Empty {ELU}.

Record HttpResponse (ELU : Type) : Type := HttpResponseOf { hr_status : Z; hr_content : Content ELU }.
Arguments HttpResponseOf {ELU}.
Arguments hr_status {ELU}.
Arguments hr_content {ELU}.

Definition sendJson {ELU} (statusCode : Z) (data : AdminJson ELU) : HttpResponse ELU :=
  HttpResponseOf statusCode (Json data).

Definition sendText {ELU} (statusCode : Z) (text : string) : HttpResponse ELU :=
  HttpResponseOf statusCode (Plain text).

Definition sendNoContent {ELU} : HttpResponse ELU := HttpResponseOf 204 Empty.

(** The text of an exception that a handler answers with *)
Definition error_text (e : dbos_error) : string :=
  match getDBOSErrorCode e with Some _ => error_message e | None => "Unknown error" end.

(** A [Map] by names: a name that is there keeps its place. *)
Fixpoint map_set {V} (name : string) (v : V) (m : list (string * V)) : list (string * V) :=
  match m with
  | [] => [(name, v)]
  | (n, w) :: m' => if String.eqb n name then (n, v) :: m' else (n, w) :: map_set name v m'
  end.

Definition queue_metadata (name : string) (q : WorkflowQueue) : QueueMetadataResponse :=
  QueueMetadataOf name (wq_concurrency q) (wq_workerConcurrency q) (wq_rateLimit q).

(** The queues of the database, and over them those of the process *)
Definition merge_queues (records : list QueueRecord) (registry : list (string * WorkflowQueue))
    : list (string * QueueMetadataResponse) :=
  let of_records :=
    foldl (fun m r => if String.eqb (qr_name r) INTERNAL_QUEUE_NAME then m
                      else map_set (qr_name r) (queue_metadata (qr_name r) (fromRecord r)) m) [] records in
  foldl (fun m nq => map_set nq.1 (queue_metadata nq.1 nq.2) m) of_records registry.

(** * The server *)

Section admin.
Context {Err ELU : Type} (P : Platform Err) (rd : CaseReadings).

(** [performance.eventLoopUtilization], of two readings and the current reading; whether the list
    of the queues can be read; the JSON of a status; the lifecycle listeners; the queues of the
    process *)
Context (elu_between : ELU -> ELU -> ELU) (currELU : ELU) (listed : bool)
        (stringify_status : WorkflowStatusInternal -> string)
        (parse_status : string -> WorkflowStatusInternal)
        (listeners : list string) (wfQueuesByName : list (string * WorkflowQueue)).

Notation Date_parse := (pl_Date_parse _ P).
Notation jsonb_contains := (pl_jsonb_contains _ P).

(** The executor, the fields of the class [DBOSAdminServer], and the listeners that were destroyed *)
Record AdminState : Type := AdminStateOf {
  ad_exec : exec_state;
  ad_lastELU : ELU;
  ad_isDeactivated : bool;
  ad_destroyed : list string
}.

Definition AD (A : Type) : Type := M AdminState dbos_error A.

Definition on_exec {A} (m : EX A) : AD A := fun s =>
  let (o, st) := m (ad_exec s) in
  (o, AdminStateOf st (ad_lastELU s) (ad_isDeactivated s) (ad_destroyed s)).

Definition body_fields (b : Body) : AD Fields := fun s => (read_fields b, s).
Definition body_ids (b : Body) : AD (list string) := fun s => (read_ids b, s).

(** ** Endpoints *)

Definition recovery (b : Body) : AD (HttpResponse ELU) :=
  let* executorIDs := body_ids b in
  let* recoverHandles := on_exec (recoverPendingWorkflows (ei_application_version (pl_info _ P))
                                    (map (fun x => (x, cr_executor rd x)) executorIDs)) in
  ret (sendJson 200 (IdsJson (map (fun h => match h with
                                            | InvokedHandle id => Some id
                                            | RetrievedHandle id => id
                                            end) recoverHandles))).

Definition perf : AD (HttpResponse ELU) := fun s =>
  (Ok (sendJson 200 (UtilizationJson (elu_between currELU (ad_lastELU s)))),
   AdminStateOf (ad_exec s) currELU (ad_isDeactivated s) (ad_destroyed s)).

(** [deactivateEventReceivers(false)] destroys every listener, whatever one of them throws, and
    leaves the queue runner running. *)
Definition deactivate : AD (HttpResponse ELU) := fun s =>
  (Ok (sendText 200 "Deactivated"),
   AdminStateOf (ad_exec s) (ad_lastELU s) true (ad_destroyed s ++ listeners)).

Definition cancel_workflow (workflowId : string) : AD (HttpResponse ELU) :=
  on_exec (on_sys (cancelWorkflows (cr_levels rd) [workflowId] false)) ;*
  ret sendNoContent.

Definition resume_workflow (workflowId : string) : AD (HttpResponse ELU) :=
  try_catch (on_exec (on_sys (resumeWorkflows (cr_now rd) [workflowId] None)) ;* ret sendNoContent)
    (fun e => ret (sendJson 500 (ErrorJson ("Error resuming workflow " +:+ workflowId +:+ ": " +:+ error_text e)))).

Definition restart_workflow (workflowId : string) : AD (HttpResponse ELU) :=
  let* workflowID := on_exec (executor_fork rd workflowId 0 None (ForkOptionsOf None None None None [])) in
  ret (sendJson 200 (WorkflowIdJson workflowID)).

Definition fork_workflow (workflowId : string) (b : Body) : AD (HttpResponse ELU) :=
  let* fields := body_fields b in
  match fo_start_step (as_fork fields) with
  | None => ret (sendJson 400 (ErrorJson "Missing start_step in request body"))
  | Some start_step =>
      let f := as_fork fields in
      try_catch
        (let* workflowID := on_exec (executor_fork rd workflowId start_step (fo_new_workflow_id f)
                                       (ForkOptionsOf (fo_application_version f) (fo_timeout_ms f) None None [])) in
         ret (sendJson 200 (WorkflowIdJson workflowID)))
        (fun e => ret (sendJson 500 (ErrorJson ("Error forking workflow " +:+ workflowId +:+ ": " +:+ error_text e))))
  end.

Definition queue_metadata_endpoint : AD (HttpResponse ELU) := fun s =>
  let records := if listed then listQueues (ad_exec s).1 else [] in
  (Ok (sendJson 200 (QueuesJson (map snd (merge_queues records wfQueuesByName)))), s).

Definition list_steps (workflowId : string) : AD (HttpResponse ELU) :=
  let* steps := on_exec (query (fun d => Ok (listWorkflowSteps (fun t => pl_safe_value _ P (Some t))
                                               (pl_safe_error _ P) workflowId true None None d))) in
  ret (sendJson 200 (StepsJson (map (workflow_steps P) <$> steps))).

(** The request of [ListWorkflows] *)
Definition workflows_input (b : ListBody) : GetWorkflowsInput :=
  no_filters <| q_workflowIDs := li_workflow_uuids b |>
             <| q_workflowName := li_workflow_name b |>
             <| q_authenticatedUser := li_authenticated_user b |>
             <| q_startTime := li_start_time b |>
             <| q_endTime := li_end_time b |>
             <| q_status := li_status b |>
             <| q_applicationVersion := li_application_version b |>
             <| q_forkedFrom := li_fork_from b |>
             <| q_parentWorkflowID := li_parent_workflow_id b |>
             <| q_limit := li_limit b |>
             <| q_offset := li_offset b |>
             <| q_sortDesc := li_sort_desc b |>
             <| q_workflow_id_prefix := li_workflow_id_prefix b |>
             <| q_loadInput := Some (default false (li_load_input b)) |>
             <| q_loadOutput := Some (default false (li_load_output b)) |>.

(** The request of [ListQueuedWorkflows] *)
Definition queued_input (b : ListBody) : GetWorkflowsInput :=
  no_filters <| q_workflowName := li_workflow_name b |>
             <| q_startTime := li_start_time b |>
             <| q_endTime := li_end_time b |>
             <| q_status := li_status b |>
             <| q_forkedFrom := li_fork_from b |>
             <| q_parentWorkflowID := li_parent_workflow_id b |>
             <| q_queueName := li_queue_name b |>
             <| q_limit := li_limit b |>
             <| q_offset := li_offset b |>
             <| q_sortDesc := li_sort_desc b |>
             <| q_loadInput := Some (default false (li_load_input b)) |>.

Definition workflows_json (l : list WorkflowStatusInternal) : AdminJson ELU :=
  WorkflowsJson (map (fun i => workflows_output P (to_status P i)) l).

Definition list_workflows (b : Body) : AD (HttpResponse ELU) :=
  let* fields := body_fields b in
  let* workflows := on_exec (query (listWorkflows Date_parse jsonb_contains (workflows_input (as_list fields)))) in
  ret (sendJson 200 (workflows_json workflows)).

Definition list_queued_workflows (b : Body) : AD (HttpResponse ELU) :=
  let* fields := body_fields b in
  let* workflows := on_exec (query (listQueuedWorkflows Date_parse jsonb_contains (queued_input (as_list fields)))) in
  ret (sendJson 200 (workflows_json workflows)).

Definition get_workflow (workflowId : string) : AD (HttpResponse ELU) :=
  let* status := on_exec (on_sys (Query.getWorkflowStatus Date_parse jsonb_contains stringify_status parse_status
                                    (ei_executor_id (pl_info _ P)) workflowId None None 0 0)) in
  ret match status with
      | Some info => sendJson 200 (WorkflowJson (workflows_output P (to_status P info)))
      | None => sendJson 404 (ErrorJson ("Workflow " +:+ workflowId +:+ " not found"))
      end.

Definition garbage_collect (b : Body) : AD (HttpResponse ELU) :=
  let* fields := body_fields b in
  on_exec (on_sys (garbageCollect (cutoff_epoch_timestamp_ms fields) (rows_threshold fields))) ;*
  ret sendNoContent.

(** Without a cutoff, the date is invalid and has no text. *)
Definition global_timeout (b : Body) : AD (HttpResponse ELU) :=
  let* fields := body_fields b in
  match cutoff_epoch_timestamp_ms fields with
  | None => throw (JsError "Invalid time value")
  | Some cutoff =>
      on_exec (on_sys (globalTimeout Date_parse jsonb_contains (pl_toISOString _ P) cutoff (cr_workflow rd))) ;*
      ret sendNoContent
  end.

(** The handler of an endpoint *)
Definition route_handler (e : Endpoint) (params : gmap string string) (b : Body) : AD (HttpResponse ELU) :=
  let workflowId := default "undefined" (params !! "workflow_id") in
  match e with
  | Health => ret (sendText 200 "healthy")
  | Recovery => recovery b
  | Perf => perf
  | Deactivate => deactivate
  | ConductorStatus => ret (sendJson 200 (StatusJson true))
  | CancelWorkflow => cancel_workflow workflowId
  | ResumeWorkflow => resume_workflow workflowId
  | RestartWorkflow => restart_workflow workflowId
  | QueueMetadata => queue_metadata_endpoint
  | ListWorkflowSteps => list_steps workflowId
  | ListWorkflows => list_workflows b
  | ListQueuedWorkflows => list_queued_workflows b
  | GetWorkflow => get_workflow workflowId
  | ForkWorkflow => fork_workflow workflowId b
  | GarbageCollect => garbage_collect b
  | GlobalTimeout => global_timeout b
  end.

(** The callback of [createServer] *)
Definition serve (q : HttpRequest) (s : AdminState) : HttpResponse ELU * AdminState :=
  if String.eqb (hq_method q) "OPTIONS" then (HttpResponseOf 200 Empty, s)
  else
    match find_route routes (hq_method q) (hq_pathname q) with
    | None => (sendText 404 "Not Found", s)
    | Some (e, params) =>
        match route_handler e params (hq_body q) s with
        | (Ok r, s') => (r, s')
        | (Throw _, s') => (sendJson 500 (ErrorJson "Internal server error"), s')
        end
    end.

End admin.

(** [checkPortAvailabilityIPv4Ipv6]: the codes of the errors of listening on each address; only a
    port in use is refused. *)
Definition checkPortAvailabilityIPv4Ipv6 (check : string -> option string) : option string :=
  let in_use host := match check host with
                     | Some code => if String.eqb code "EADDRINUSE" then Some code else None
                     | None => None
                     end in
  match in_use "127.0.0.1" with
  | Some code => Some code
  | None => in_use "::1"
  end.

(** * Every workflow has its URLs *)

(** The URL of an endpoint, for a workflow where it is about one *)
Definition url_parts (e : Endpoint) (id : string) : list string :=
  match e with
  | CancelWorkflow => [""; "workflows"; id; "cancel"]
  | ResumeWorkflow => [""; "workflows"; id; "resume"]
  | RestartWorkflow => [""; "workflows"; id; "restart"]
  | ListWorkflowSteps => [""; "workflows"; id; "steps"]
  | ForkWorkflow => [""; "workflows"; id; "fork"]
  | GetWorkflow => [""; "workflows"; id]
  | _ => Crontab.split_on "/" (rt_path (route_of e))
  end.

Definition url_params (e : Endpoint) (id : string) : gmap string string :=
  match e with
  | CancelWorkflow | ResumeWorkflow | RestartWorkflow | ListWorkflowSteps | ForkWorkflow | GetWorkflow =>
      {["workflow_id" := id]}
  | _ => ∅
  end.

Definition url (e : Endpoint) (id : string) : string := Crontab.join "/" (url_parts e id).

Definition no_slash (s : string) : Prop := Crontab.has_char "/" s = false.

Lemma join_split_path s : Crontab.join "/" (Crontab.split_on "/" s) = s.
Proof.
  induction s as [|c s IH]; [done|]. cbn [Crontab.split_on]. case_bool_decide as E.
  - subst c. rewrite <- IH at 2. destruct (Crontab.split_on "/" s) eqn:Es; [|done].
    destruct s as [|d s]; [done|]. cbn [Crontab.split_on] in Es. case_bool_decide; [done|].
    by destruct (Crontab.split_on _ s).
  - rewrite <- IH at 2. destruct (Crontab.split_on "/" s) as [|x [|y l]]; done.
Qed.

Lemma split_no_slash s : Forall no_slash (Crontab.split_on "/" s).
Proof.
  induction s as [|c s IH]; [by repeat constructor|]. cbn [Crontab.split_on]. case_bool_decide as E.
  - by constructor.
  - destruct IH as [|x l Hx Hl].
    + constructor; [|done]. unfold no_slash. simpl. by rewrite bool_decide_false.
    + constructor; [|done]. unfold no_slash. simpl. by rewrite bool_decide_false.
Qed.

Lemma split_url e id : no_slash id -> Crontab.split_on "/" (url e id) = url_parts e id.
Proof.
  intros Hid.
  assert (forall l, Forall no_slash (""%string :: l) -> Crontab.split_on "/" (Crontab.join "/" ("" :: l)) = "" :: l)
    as H by (intros l Hl; exact (Crontab.split_on_join "/" "" l Hl)).
  destruct e; unfold url, url_parts; first [by rewrite join_split_path|apply H; by repeat constructor].
Qed.

Lemma matchPath_url e id :
  no_slash id -> matchPath (rt_path (route_of e)) (url e id) = Some (url_params e id).
Proof. intros Hid. unfold matchPath. rewrite split_url by done. by destruct e. Qed.

Definition is_param (part : string) : Prop := exists paramName, part = String ":" paramName.

Lemma match_parts_inv params pattern path params' :
  length pattern = length path -> match_parts params pattern path = Some params' ->
  Forall2 (fun a b => is_param a \/ a = b) pattern path.
Proof.
  revert params path. induction pattern as [|a pattern IH]; intros params [|b path]; simpl; try done.
  intros [= Hl] H. constructor.
  - destruct a as [|c a]; [destruct (String.eqb_spec "" b); auto; done|].
    destruct (decide (c = ":"%char)) as [->|Hc]; [left; by eexists|right].
    destruct (String.eqb_spec (String c a) b) as [|E]; [done|].
    destruct c as [[] [] [] [] [] [] [] []]; done.
  - destruct a as [|c a]; [destruct (String.eqb "" b); [by eapply IH|done]|].
    destruct (decide (c = ":"%char)) as [->|Hc]; [by eapply IH|].
    destruct (String.eqb (String c a) b) eqn:E;
      [eapply IH; [done|]|]; destruct c as [[] [] [] [] [] [] [] []]; done.
Qed.

Lemma matchPath_inv e p params :
  matchPath (rt_path (route_of e)) p = Some params ->
  exists id, no_slash id /\ p = url e id /\ params = url_params e id.
Proof.
  intros H.
  assert (exists id, no_slash id /\ p = url e id) as (id & Hid & ->).
  2:{ exists id. rewrite matchPath_url in H by done. by injection H as <-. }
  unfold matchPath in H. destruct (length _ =? length _)%nat eqn:El in H; [|done].
  apply Nat.eqb_eq in El. apply match_parts_inv in H; [|done].
  pose proof (split_no_slash p) as Hs. rewrite <- (join_split_path p). unfold url.
  destruct e; cbn [route_of rt_path] in H;
    try match type of H with Forall2 _ (Crontab.split_on _ ?s) _ =>
      let t := eval vm_compute in (Crontab.split_on "/" s) in change (Crontab.split_on "/" s) with t in H end;
    repeat match goal with
    | H : Forall2 _ (_ :: _) _ |- _ => apply Forall2_cons_inv_l in H as (? & ? & [[? ?]| ?] & ? & ?); simplify_eq
    | H : Forall2 _ [] _ |- _ => apply Forall2_nil_inv_l in H
    end; subst;
    match goal with E : Crontab.split_on "/" p = _ |- _ => rewrite E in Hs |- * end;
    first
      [ by exists ""
      | match goal with |- context [Crontab.join "/" ("" :: "workflows" :: ?x :: _)] => exists x end;
        rewrite !Forall_cons in Hs; by destruct Hs as (_ & _ & ? & _) ].
Qed.

Lemma find_route_inv rs method p e params :
  find_route rs method p = Some (e, params) ->
  exists r, r ∈ rs /\ rt_method r = method /\ rt_endpoint r = e /\ matchPath (rt_path r) p = Some params.
Proof.
  induction rs as [|r rs IH]; [done|]. cbn [find_route]. intros H.
  assert (find_route rs method p = Some (e, params) -> exists r0, r0 ∈ r :: rs /\ rt_method r0 = method
    /\ rt_endpoint r0 = e /\ matchPath (rt_path r0) p = Some params) as Hrec.
  { intros (r0 & ? & ?)%IH. exists r0. set_solver. }
  destruct (String.eqb_spec method (rt_method r)) as [E|]; [|by apply Hrec].
  destruct (matchPath (rt_path r) p) eqn:Em; [|by apply Hrec].
  injection H as <- <-. exists r. set_solver.
Qed.

(** C37: The router sends a request to an endpoint exactly when it has the method and the URL of
    the endpoint, and gives it the ID of the workflow as it stands in the URL: every ID without a
    slash has its URLs, the routes do not get in each other's way, and no other request is
    handled. *)
Theorem admin_routes (method pathname : string) (e : Endpoint) (params : gmap string string) :
  find_route routes method pathname = Some (e, params) <->
  method = rt_method (route_of e)
  /\ exists id, no_slash id /\ pathname = url e id /\ params = url_params e id.
Proof.
  split.
  - intros (r & Hr & <- & <- & Hm)%find_route_inv. unfold routes in Hr.
    apply list_elem_of_fmap in Hr as (e & -> & _). replace (rt_endpoint (route_of e)) with e in * by (by destruct e).
    split; [done|]. by apply matchPath_inv.
  - intros (-> & id & Hid & -> & ->).
    pose proof (split_url e id Hid) as Hs.
    destruct e; cbn -[matchPath Crontab.split_on url]; unfold matchPath; rewrite !Hs; reflexivity.
Qed.

(** * What a request does *)

(** The endpoints that only answer, those that several operations make up, and the rest, which are
    one operation *)
Definition admin_reads (e : Endpoint) : bool :=
  match e with
  | Recovery | CancelWorkflow | ResumeWorkflow | RestartWorkflow | ForkWorkflow | GarbageCollect
  | GlobalTimeout => false
  | _ => true
  end.

Definition admin_atomic (e : Endpoint) : bool :=
  match e with Recovery | GlobalTimeout => false | _ => true end.

(** A computation of the executor that leaves the map of the running workflows alone *)
Definition map_kept {A} (m : EX A) : Prop := forall st, (m st).2.2 = st.2.

Lemma map_kept_on_sys {A} (m : DB A) : map_kept (on_sys m).
Proof. intros st. unfold on_sys. by destruct (m st.1). Qed.

Lemma map_kept_bind {A B} (m : EX A) (k : A -> EX B) :
  map_kept m -> (forall a, map_kept (k a)) -> map_kept (bind m k).
Proof.
  intros Hm Hk st. unfold bind. specialize (Hm st). destruct (m st) as [[a|e] s]; [|done].
  by rewrite Hk.
Qed.

Lemma map_kept_fork rd id start new o : map_kept (executor_fork rd id start new o).
Proof. apply map_kept_bind; [apply map_kept_on_sys|done]. Qed.

Lemma map_kept_recover version l : map_kept (recoverPendingWorkflows version l).
Proof.
  induction l as [|[x now] l IH]; [done|]. cbn [recoverPendingWorkflows].
  apply map_kept_bind; [apply map_kept_on_sys|]. intros ids. by apply map_kept_bind.
Qed.

Lemma aon_garbageCollect c n d e d' : garbageCollect c n d = (Throw e, d') -> d' = d.
Proof. unfold garbageCollect, delete_workflow_status. repeat case_match; intros [=]; done. Qed.

Lemma aon_resume now ids q d e d' : resumeWorkflows now ids q d = (Throw e, d') -> d' = d.
Proof. apply aon_update. Qed.

Lemma aon_cancel clock ids d e d' : cancelWorkflows clock ids false d = (Throw e, d') -> d' = d.
Proof. apply aon_update. Qed.

Section effects.
Context {ELU : Type}.

(** What a handler may do: it moves the executor by operations that any executor may run, leaves
    the running workflows and the rest of the state alone, and if it throws leaves the executor as
    it was, in the cases [b]. *)
Definition well_behaved {A} (b : bool) (m : AD (ELU := ELU) A) : Prop := forall s,
  let (o, s') := m s in
  rtc any_step (ad_exec s).1 (ad_exec s').1 /\ (ad_exec s').2 = (ad_exec s).2
  /\ (b = true -> (exists e, o = Throw e) -> ad_exec s' = ad_exec s)
  /\ ad_isDeactivated s' = ad_isDeactivated s /\ ad_destroyed s' = ad_destroyed s.

Lemma well_behaved_on_exec {A} b (m : EX A) :
  runs m -> map_kept m -> (b = true -> all_or_nothing m) -> well_behaved b (on_exec m).
Proof.
  intros Hr Hk Ha s. unfold on_exec. specialize (Hr (ad_exec s)). specialize (Hk (ad_exec s)).
  destruct (m (ad_exec s)) as [o st] eqn:E. simpl. do 2 (split; [done|]). split; [|done].
  intros Hb [e ->]. by apply (Ha Hb _ _ _ E).
Qed.

(** A sequence whose first part does not change the executor *)
Lemma well_behaved_after {A B} b (m : AD A) (k : A -> AD B) :
  (forall s, (m s).2 = s) -> (forall a, well_behaved b (k a)) -> well_behaved b (bind m k).
Proof.
  intros Hm Hk s. unfold bind. specialize (Hm s). destruct (m s) as [[a|e] s1]; simpl in Hm; subst.
  - apply Hk.
  - done.
Qed.

(** A sequence whose second part does not throw *)
Lemma well_behaved_then {A B} b (m : AD A) (f : A -> B) :
  well_behaved b m -> well_behaved b (bind m (fun a => ret (f a))).
Proof.
  intros Hm s. unfold bind. specialize (Hm s). destruct (m s) as [[a|e] s1]; simpl;
    destruct Hm as (? & ? & Hb & ? & ?); do 2 (split; [done|]); (split; [|done]).
  - by intros _ [e [=]].
  - intros ? _. apply Hb; eauto.
Qed.

Lemma well_behaved_catch {A} b (m : AD A) (f : dbos_error -> A) :
  well_behaved b m -> well_behaved b (try_catch m (fun e => ret (f e))).
Proof.
  intros Hm s. unfold try_catch. specialize (Hm s). destruct (m s) as [[a|e] s1]; simpl; [done|].
  destruct Hm as (? & ? & ? & ? & ?). do 2 (split; [done|]). split; [|done]. by intros _ [e' [=]].
Qed.

End effects.

Section served.
Context {Err ELU : Type} (P : Platform Err) (rd : CaseReadings) (elu_between : ELU -> ELU -> ELU)
        (currELU : ELU) (listed : bool) (stringify_status : WorkflowStatusInternal -> string)
        (parse_status : string -> WorkflowStatusInternal) (listeners : list string)
        (wfQueuesByName : list (string * WorkflowQueue)).

Notation handle_route := (route_handler P rd elu_between currELU listed stringify_status parse_status listeners wfQueuesByName).
Notation serve := (serve P rd elu_between currELU listed stringify_status parse_status listeners wfQueuesByName).

Lemma getWorkflowStatus_reads x id now1 now2 st :
  (on_sys (Query.getWorkflowStatus (pl_Date_parse _ P) (pl_jsonb_contains _ P) stringify_status parse_status
             x id None None now1 now2) st).2 = st.
Proof.
  destruct st as [d m]. unfold on_sys, Query.getWorkflowStatus, bind, find_status. cbn [truthy_str truthy_num fst snd].
  by destruct (listWorkflows (pl_Date_parse _ P) (pl_jsonb_contains _ P) _ d).
Qed.

Lemma handler_reads e params b s :
  admin_reads e = true -> ad_exec (handle_route e params b s).2 = ad_exec s.
Proof.
  intros He. destruct s as [st elu de ds]. destruct e; try discriminate He; try done.
  - cbn [route_handler]. unfold list_workflows, bind, body_fields. destruct (read_fields b); [|done].
    unfold on_exec, query. cbn [ad_exec fst snd]. by destruct (listWorkflows (pl_Date_parse _ P) (pl_jsonb_contains _ P) _ st.1).
  - cbn [route_handler]. unfold list_queued_workflows, bind, body_fields. destruct (read_fields b); [|done].
    unfold on_exec, query. cbn [ad_exec fst snd]. by destruct (listQueuedWorkflows (pl_Date_parse _ P) (pl_jsonb_contains _ P) _ st.1).
  - cbn [route_handler]. unfold get_workflow, bind, on_exec. cbn [ad_exec].
    match goal with |- context [on_sys ?m st] => pose proof (getWorkflowStatus_reads
      (ei_executor_id (pl_info _ P)) (default "undefined" (params !! "workflow_id")) 0 0 st) as H;
      destruct (on_sys m st) as [[o|e] st1] end; simpl in *; by subst.
Qed.

Lemma handler_behaves e params b :
  admin_reads e = false -> well_behaved (admin_atomic e) (handle_route e params b).
Proof.
  intros He. destruct e; try discriminate He; cbn [route_handler admin_atomic].
  - unfold recovery. apply well_behaved_after; [done|]. intros ids. apply well_behaved_then.
    apply well_behaved_on_exec; [apply runs_recover|apply map_kept_recover|done].
  - unfold cancel_workflow. apply well_behaved_then.
    apply well_behaved_on_exec; [apply runs_op, op_cancelWorkflows|apply map_kept_on_sys|].
    intros _. apply aon_on_sys. intros d e' d'. apply aon_cancel.
  - unfold resume_workflow. apply well_behaved_catch, well_behaved_then.
    apply well_behaved_on_exec; [by apply runs_op, op_resumeWorkflows|apply map_kept_on_sys|].
    intros _. apply aon_on_sys. intros d e' d'. apply aon_resume.
  - unfold restart_workflow. apply well_behaved_then.
    apply well_behaved_on_exec; [apply runs_fork|apply map_kept_fork|]. intros _. apply aon_fork.
  - unfold fork_workflow. apply well_behaved_after; [done|]. intros f.
    destruct (fo_start_step _); [|by intros s]. apply well_behaved_catch, well_behaved_then.
    apply well_behaved_on_exec; [apply runs_fork|apply map_kept_fork|]. intros _. apply aon_fork.
  - unfold garbage_collect. apply well_behaved_after; [done|]. intros f. apply well_behaved_then.
    apply well_behaved_on_exec; [apply runs_purge, purge_garbageCollect|apply map_kept_on_sys|].
    intros _. apply aon_on_sys. intros d e' d'. apply aon_garbageCollect.
  - unfold global_timeout. apply well_behaved_after; [done|]. intros f.
    destruct (cutoff_epoch_timestamp_ms f); [|by intros s]. apply well_behaved_then.
    apply well_behaved_on_exec; [|apply map_kept_on_sys|done].
    unfold globalTimeout. apply runs_on_sys_bind; [apply runs_cancel_listed|]. intros _.
    apply runs_on_sys_bind; [apply runs_cancel_listed|]. intros _. apply runs_cancel_listed.
Qed.

(** A handler that answers with an error has left the executor as it was. *)
Definition answers (m : AD (ELU := ELU) (HttpResponse ELU)) : Prop := forall s r s', m s = (Ok r, s') ->
  hr_status r ∈ [200; 204] \/ hr_status r ∈ [400; 404; 500] /\ ad_exec s' = ad_exec s.

Lemma answers_then {A} (m : AD (ELU := ELU) A) (f : A -> HttpResponse ELU) :
  (forall a, hr_status (f a) ∈ [200; 204]) -> answers (bind m (fun a => ret (f a))).
Proof.
  intros Hf s r s'. unfold bind. destruct (m s) as [[a|e] s1]; [|done]. intros [= <- <-]. left. apply Hf.
Qed.

Lemma answers_after {A} (m : AD (ELU := ELU) A) (k : A -> AD (ELU := ELU) (HttpResponse ELU)) :
  (forall s, (m s).2 = s) -> (forall a, answers (k a)) -> answers (bind m k).
Proof.
  intros Hm Hk s r s'. unfold bind. specialize (Hm s). destruct (m s) as [[a|e] s1]; simpl in Hm; subst; [|done].
  apply Hk.
Qed.

Lemma answers_catch (m : AD (ELU := ELU) (HttpResponse ELU)) (f : dbos_error -> HttpResponse ELU) :
  answers m -> well_behaved true m -> (forall e, hr_status (f e) = 500) ->
  answers (try_catch m (fun e => ret (f e))).
Proof.
  intros Hm Hw Hf s r s'. unfold try_catch. specialize (Hm s). specialize (Hw s).
  destruct (m s) as [[a|e] s1]; intros [= <- <-]; [by apply Hm|right].
  rewrite Hf. split; [set_solver|]. destruct Hw as (_ & _ & Hw & _). apply Hw; eauto.
Qed.

Lemma handler_answers e params b : answers (handle_route e params b).
Proof.
  destruct e; cbn [route_handler];
    try (by intros s r s' [= <- <-]; left; set_solver);
    try (apply answers_then; intros; set_solver);
    try (apply answers_after; [done|intros; apply answers_then; set_solver]).
  - unfold resume_workflow. apply answers_catch; [apply answers_then; set_solver| |done].
    apply well_behaved_then, well_behaved_on_exec; [by apply runs_op, op_resumeWorkflows|apply map_kept_on_sys|].
    intros _. apply aon_on_sys. intros d e' d'. apply aon_resume.
  - unfold get_workflow. intros s r s' H. pose proof (handler_reads GetWorkflow params b s eq_refl) as Hr.
    cbn [route_handler] in Hr. unfold get_workflow in Hr. rewrite H in Hr. simpl in Hr.
    apply bind_inv_ok in H as ([i|] & s1 & _ & [= <- <-]); [left; set_solver|right; split; [set_solver|done]].
  - unfold fork_workflow. apply answers_after; [done|]. intros f. destruct (fo_start_step _).
    2:{ intros s r s' [= <- <-]. right. split; [set_solver|done]. }
    apply answers_catch; [apply answers_then; set_solver| |done].
    apply well_behaved_then, well_behaved_on_exec; [apply runs_fork|apply map_kept_fork|]. intros _. apply aon_fork.
  - unfold global_timeout. apply answers_after; [done|]. intros f.
    destruct (cutoff_epoch_timestamp_ms f); [apply answers_then; set_solver|done].
Qed.

(** The endpoint that a request reaches *)
Definition endpoint_of (q : HttpRequest) : option Endpoint :=
  if String.eqb (hq_method q) "OPTIONS" then None
  else fst <$> find_route routes (hq_method q) (hq_pathname q).

(** C38: Every request is answered, with one of five codes.  Whatever it asks for, the system database
    moves only by operations that any executor may run and the running workflows are left alone; an
    answer that is an error means that nothing was done, unless a recovery or a global timeout
    failed on the way; a request that asks for no change makes none; and only a deactivation
    destroys the listeners. *)
Theorem admin_answers (q : HttpRequest) (s : AdminState (ELU := ELU)) :
  let (r, s') := serve q s in
  hr_status r ∈ [200; 204; 400; 404; 500]
  /\ rtc any_step (ad_exec s).1 (ad_exec s').1 /\ (ad_exec s').2 = (ad_exec s).2
  /\ (400 <= hr_status r ->
        match endpoint_of q with Some e => admin_atomic e = true | None => True end -> ad_exec s' = ad_exec s)
  /\ (match endpoint_of q with Some e => admin_reads e = true | None => True end -> ad_exec s' = ad_exec s)
  /\ (endpoint_of q <> Some Deactivate -> ad_destroyed s' = ad_destroyed s).
Proof.
  unfold Admin.serve, endpoint_of. destruct (String.eqb (hq_method q) "OPTIONS"); [split; [set_solver|done]|].
  destruct (find_route routes (hq_method q) (hq_pathname q)) as [[e params]|]; [|split; [set_solver|done]].
  cbn [fmap option_fmap option_map fst].
  pose proof (handler_answers e params (hq_body q) s) as Ha.
  pose proof (handler_reads e params (hq_body q) s) as Hr.
  assert (e <> Deactivate -> ad_destroyed (handle_route e params (hq_body q) s).2 = ad_destroyed s) as Hd.
  { intros He. destruct (admin_reads e) eqn:Er.
    - destruct e; try discriminate Er; try done; cbn [route_handler];
        unfold list_workflows, list_queued_workflows, get_workflow, list_steps, bind, body_fields, on_exec;
        repeat case_match; by simplify_eq.
    - pose proof (handler_behaves e params (hq_body q) Er s) as Hb.
      destruct (handle_route e params (hq_body q) s). by destruct Hb as (_ & _ & _ & _ & ?). }
  destruct (admin_reads e) eqn:Er.
  - specialize (Hr eq_refl). destruct (handle_route e params (hq_body q) s) as [[r|err] s']; simpl in *; rewrite Hr.
    + split; [|split; [done|split; [done|split; [done|split; [done|naive_solver]]]]].
      destruct (Ha r s' eq_refl) as [?|[? _]]; set_solver.
    + split; [set_solver|]. split; [done|split; [done|split; [done|split; [done|naive_solver]]]].
  - pose proof (handler_behaves e params (hq_body q) Er s) as Hb.
    destruct (handle_route e params (hq_body q) s) as [[r|err] s']; simpl in *; destruct Hb as (H1 & H2 & H3 & _ & _).
    + specialize (Ha r s' eq_refl). split; [set_solver|]. do 2 (split; [done|]).
      split; [|split; [done|naive_solver]]. intros Hs _. destruct Ha as [Ha|[_ ?]]; [|done].
      exfalso. revert Ha. rewrite !elem_of_cons, elem_of_nil. lia.
    + split; [set_solver|]. do 2 (split; [done|]). split; [intros _ Hat; apply H3; eauto|split; [done|naive_solver]].
Qed.

End served.

(** * The metadata of the queues *)

Lemma map_set_spec {V} name (v : V) m :
  NoDup m.*1 ->
  NoDup (map_set name v m).*1
  /\ forall n w, (n, w) ∈ map_set name v m <-> n = name /\ w = v \/ n <> name /\ (n, w) ∈ m.
Proof.
  induction m as [|[k x] m IH]; intros Hd; simpl.
  - split; [repeat constructor; set_solver|]. intros n w. rewrite list_elem_of_singleton, elem_of_nil. naive_solver.
  - apply NoDup_cons in Hd as [Hk Hd]. destruct (IH Hd) as [H1 H2].
    destruct (String.eqb_spec k name) as [->|Hne].
    + split; [by constructor|]. intros n w. rewrite !elem_of_cons. split.
      * intros [[= -> ->]|Hm]; [by left|right]. split; [|by right]. intros ->. apply Hk.
        by apply (list_elem_of_fmap_2 fst) in Hm.
      * intros [[-> ->]|[Hn [[= -> ->]|Hm]]]; auto. done.
    + split.
      * simpl. constructor; [|done]. intros ((n' & w') & -> & Hin)%list_elem_of_fmap. simpl in *.
        apply H2 in Hin as [[-> _]|[_ Hin]]; [done|]. apply Hk. by apply (list_elem_of_fmap_2 fst) in Hin.
      * intros n w. rewrite !elem_of_cons, H2. naive_solver.
Qed.

Lemma set_all_spec {X V} (name : X -> string) (v : X -> V) xs : forall m,
  NoDup (name <$> xs) -> NoDup m.*1 ->
  let m' := foldl (fun m x => map_set (name x) (v x) m) m xs in
  NoDup m'.*1
  /\ forall n w, (n, w) ∈ m' <-> (exists x, x ∈ xs /\ n = name x /\ w = v x) \/ n ∉ name <$> xs /\ (n, w) ∈ m.
Proof.
  induction xs as [|x xs IH]; intros m Hx Hm; simpl.
  - split; [done|]. intros n w. split; [right; set_solver|]. intros [(x & ?%elem_of_nil & _)|[_ ?]]; done.
  - apply NoDup_cons in Hx as [Hn Hx]. destruct (map_set_spec (name x) (v x) m Hm) as [H1 H2].
    destruct (IH _ Hx H1) as [H3 H4]. split; [done|]. intros n w. rewrite H4, H2, not_elem_of_cons.
    split.
    + intros [(y & ? & ? & ?)|[Hnot [[-> ->]|[? ?]]]]; [left; exists y|left; exists x|right]; set_solver.
    + intros [(y & [->|Hy]%elem_of_cons & -> & ->)|[[? ?] ?]]; [right|left; exists y|right]; auto.
Qed.

Lemma foldl_skip {A B} (f : A -> B -> A) (p : B -> bool) l : forall a,
  foldl (fun a x => if p x then a else f a x) a l = foldl f a (List.filter (fun x => negb (p x)) l).
Proof. induction l as [|x l IH]; intros a; simpl; [done|]. by destruct (p x). Qed.

(** The answer names each queue once: with the configuration of the process where it has one, and
    else with that of its row; the internal queue is shown only if it is registered. *)
Theorem merge_queues_exact records registry :
  NoDup (qr_name <$> records) -> NoDup registry.*1 ->
  NoDup (merge_queues records registry).*1
  /\ forall name m, (name, m) ∈ merge_queues records registry <->
       (exists q, (name, q) ∈ registry /\ m = queue_metadata name q)
       \/ name ∉ registry.*1 /\ name <> INTERNAL_QUEUE_NAME
          /\ exists r, r ∈ records /\ qr_name r = name /\ m = queue_metadata name (fromRecord r).
Proof.
  intros Hr Hq. unfold merge_queues. rewrite foldl_skip.
  set (shown := List.filter _ records).
  assert (NoDup (qr_name <$> shown)) as Hs.
  { apply (sublist_NoDup _ (qr_name <$> records)); [done|]. apply fmap_sublist.
    unfold shown. clear. induction records as [|r l IH]; [constructor|]. simpl.
    destruct (negb _); by constructor. }
  destruct (set_all_spec qr_name (fun r => queue_metadata (qr_name r) (fromRecord r)) shown [] Hs (NoDup_nil_2))
    as [H1 H2].
  destruct (set_all_spec fst (fun nq => queue_metadata nq.1 nq.2) registry _ Hq H1) as [H3 H4].
  split; [exact H3|]. intros name m. rewrite H4, H2. split.
  - intros [([n q] & Hin & -> & ->)|[Hn [(r & Hin & -> & ->)|[_ ?%elem_of_nil]]]]; [left; by exists q| |done].
    right. split; [done|]. unfold shown in Hin. apply list_elem_of_In, List.filter_In in Hin as [Hin Hi].
    apply list_elem_of_In in Hin. split; [|by exists r]. intros E. by rewrite E, String.eqb_refl in Hi.
  - intros [(q & Hin & ->)|(Hn & Hi & r & Hin & <- & ->)]; [left; by exists (name, q)|right].
    split; [done|]. left. exists r. split; [|done]. unfold shown. apply list_elem_of_In, List.filter_In.
    split; [by apply list_elem_of_In|]. by apply negb_true_iff, String.eqb_neq.
Qed.

(** * Examples *)

Definition ex_serve (q : HttpRequest) (st : exec_state) : HttpResponse Z * exec_state :=
  let (r, s) := serve (ex_platform []) ex_readings Z.sub 12 true (fun _ => "status") (fun _ => ex_status)
                  ["kafka"] [] q (AdminStateOf st 5 false []) in
  (r, ad_exec s).

(** Cancelling a workflow, and a fork without a step *)
Lemma ex_cancelled :
  let (r, st) := ex_serve (HttpRequestOf "POST" "/workflows/wf-1/cancel" NoBody) (ex_db, ∅) in
  r = sendNoContent /\ ws_status <$> workflow_status st.1 !! "wf-1" = Some CANCELLED.
Proof. by vm_compute. Qed.

Lemma ex_fork_no_step :
  ex_serve (HttpRequestOf "POST" "/workflows/wf-1/fork" NoBody) (ex_db, ∅)
  = (sendJson 400 (ErrorJson "Missing start_step in request body"), (ex_db, ∅)).
Proof. by vm_compute. Qed.

(** The ID is not decoded: the URL of [wf-1] with its dash encoded names no workflow, and the server
    answers that it is cancelled. *)
Lemma encoded_id_not_decoded :
  let (r, st) := ex_serve (HttpRequestOf "POST" "/workflows/wf%2D1/cancel" NoBody) (ex_db, ∅) in
  r = sendNoContent /\ ws_status <$> workflow_status st.1 !! "wf-1" = Some PENDING.
Proof. by vm_compute. Qed.
