(* ===== verification/Migrations.v ===== *)
(** The migration runner (src/src/sysdb_migrations/migration_runner.ts): it brings the schema of the
    system database up to date at launch.

    The statements of the migrations are texts for the server, and their effect on the schema is an
    argument.  Each query may be the one at which the process or the connection is lost; the server
    has then performed it or not. *)

From S2P Require Export Prelude.
From S2P Require Crontab.
From Stdlib Require Import Ascii.

Open Scope Z_scope.

(** * The runner *)

(** [DBMigration], of which the runner reads the statements for PostgreSQL *)
Record DBMigration : Type := DBMigrationOf {
  mg_name : option string;
  mg_pg : option (list string);
  mg_online : bool
}.

Definition stmts (m : DBMigration) : list string := default [] (mg_pg m).

(** [PgErrorLike] *)
Record PgErrorLike : Type := PgErrorOf { pe_code : option string; pe_message : option string }.

Definition DEFAULT_IGNORABLE_CODES : list string := ["42P07"; "42710"; "42701"; "42P06"; "23505"].

(** Whether a text starts with another, ignoring the case, and what follows *)
Fixpoint after_prefix (p s : string) : option string :=
  match p, s with
  | "", _ => Some s
  | String a p', String b s' =>
      if bool_decide (Crontab.to_lower a = Crontab.to_lower b) then after_prefix p' s' else None
  | _, "" => None
  end.

(** The regular expression [/p/i] *)
Fixpoint contains_ci (p s : string) : bool :=
  match after_prefix p s with
  | Some _ => true
  | None => match s with "" => false | String _ s' => contains_ci p s' end
  end.

(** The rest of a line: [.] matches no line break. *)
Fixpoint line (s : string) : string :=
  match s with
  | "" => ""
  | String c s' => if bool_decide (c = "010"%char \/ c = "013"%char) then "" else String c (line s')
  end.

(** [/multiple.*?not allowed/i] *)
Fixpoint multiple_not_allowed (s : string) : bool :=
  match s with
  | "" => false
  | String _ s' =>
      match after_prefix "multiple" s with
      | Some rest => contains_ci "not allowed" (line rest) || multiple_not_allowed s'
      | None => multiple_not_allowed s'
      end
  end.

Definition isDDLAlreadyAppliedPgError (ignoreCodes : list string) (err : PgErrorLike) : bool :=
  match truthy_str (pe_code err) with
  | Some code => bool_decide (code ∈ ignoreCodes)
  | None => false
  end
  || (let msg := default "" (pe_message err) in
      contains_ci "already exists" msg || contains_ci "duplicate" msg || multiple_not_allowed msg).

(** The error of a query on a connection that is lost *)
Definition terminated : PgErrorLike := PgErrorOf None (Some "Connection terminated unexpectedly").

Section runner.
Context {Schema : Type}.

(** What a statement makes of the schema, when the indexes [invalid] are there and cannot be used;
    and whether the schema has the table [dbos_migrations] *)
Context (execute : string -> Schema -> list string -> PgErrorLike + Schema) (has_table : Schema -> bool).

(** The database: its schema, its invalid indexes, and the rows of [dbos_migrations] *)
Record Database : Type := DatabaseOf {
  db_schema : Schema;
  db_invalid : list string;
  db_versions : list Z
}.

(** Where the connection is lost: after so many queries; whether the server performs the query at
    which it is; and the invalid indexes that an online statement leaves if it does not *)
Record Loss : Type := LossOf { ls_after : nat; ls_performed : bool; ls_invalid : list string }.

Definition MG (A : Type) : Type := M (Database * option Loss) PgErrorLike A.

(** A query, given by what the server makes of it *)
Definition client_query {A} (online : bool) (f : Database -> outcome PgErrorLike A * Database) : MG A :=
  fun s =>
    match s.2 with
    | Some (LossOf 0 performed invalid) =>
        (Throw terminated,
         (if performed then (f s.1).2
          else DatabaseOf (db_schema s.1) (db_invalid s.1 ++ (if online then invalid else [])) (db_versions s.1),
          None))
    | Some (LossOf (S n) performed invalid) => let (o, d) := f s.1 in (o, (d, Some (LossOf n performed invalid)))
    | None => let (o, d) := f s.1 in (o, (d, None))
    end.

(** A query that reads *)
Definition select {A} (f : Database -> A) : MG A := client_query false (fun d => (Ok (f d), d)).

(** A statement of a migration *)
Definition statement (online : bool) (s : string) : MG unit :=
  client_query online (fun d =>
    match execute s (db_schema d) (db_invalid d) with
    | inr sch => (Ok tt, DatabaseOf sch (db_invalid d) (db_versions d))
    | inl e => (Throw e, d)
    end).

(** [ORDER BY version DESC LIMIT 1] *)
Definition last_version (versions : list Z) : option Z :=
  match versions with [] => None | v :: vs => Some (foldl Z.max v vs) end.

Definition getCurrentSysDBVersion : MG Z :=
  let* exists_ := select (fun d => has_table (db_schema d)) in
  if negb exists_ then ret 0
  else let* version := select (fun d => last_version (db_versions d)) in
       ret (default 0 version).

Fixpoint runStatementsIgnoring (ss : list string) (ignoreCodes : list string) : MG unit :=
  match ss with
  | [] => ret tt
  | s :: ss' =>
      try_catch (statement false s)
        (fun err => if isDDLAlreadyAppliedPgError ignoreCodes err then ret tt else throw err) ;*
      runStatementsIgnoring ss' ignoreCodes
  end.

(** [DROP INDEX CONCURRENTLY IF EXISTS] of an invalid index *)
Definition drop_invalid (index : string) : MG unit :=
  client_query false (fun d =>
    (Ok tt, DatabaseOf (db_schema d) (List.filter (fun i => negb (String.eqb i index)) (db_invalid d)) (db_versions d))).

Definition cleanupInvalidIndexes : MG unit :=
  let* indexes := select db_invalid in
  for_each drop_invalid indexes.

Definition bumpMigrationVersion (version : Z) : MG unit :=
  let* exists_ := select (fun d => has_table (db_schema d)) in
  if negb exists_ then ret tt
  else
    let* rowCount := client_query false (fun d =>
      (Ok (length (db_versions d)), DatabaseOf (db_schema d) (db_invalid d) (map (fun _ => version) (db_versions d)))) in
    if (rowCount =? 0)%nat
    then client_query false (fun d => (Ok tt, DatabaseOf (db_schema d) (db_invalid d) (db_versions d ++ [version])))
    else ret tt.

(** What [runSysMigrationsPg] returns; the notice is only a text to log. *)
Record Migrated : Type := MigratedOf {
  fromVersion : Z;
  toVersion : Z;
  appliedCount : nat;
  skippedCount : nat
}.

(** One migration that is not yet applied *)
Definition run_migration (ignoreCodes : list string) (isCockroach : bool) (m : DBMigration) (v : Z) : MG unit :=
  match stmts m with
  | [] => bumpMigrationVersion v
  | ss =>
      (if mg_online m && negb isCockroach
       then cleanupInvalidIndexes ;* for_each (statement true) ss
       else runStatementsIgnoring ss ignoreCodes) ;*
      bumpMigrationVersion v
  end.

(** The loop of [runSysMigrationsPg]; [i] migrations are behind it. *)
Fixpoint migrate (ignoreCodes : list string) (isCockroach : bool) (current : Z) (ms : list DBMigration)
    (i : nat) (r : Migrated) : MG Migrated :=
  match ms with
  | [] => ret r
  | m :: ms' =>
      let v := Z.of_nat i + 1 in
      if v <=? current
      then migrate ignoreCodes isCockroach current ms' (S i)
             (MigratedOf (fromVersion r) (toVersion r) (appliedCount r) (S (skippedCount r)))
      else
        run_migration ignoreCodes isCockroach m v ;*
        migrate ignoreCodes isCockroach current ms' (S i)
          match stmts m with
          | [] => MigratedOf (fromVersion r) v (appliedCount r) (S (skippedCount r))
          | _ => MigratedOf (fromVersion r) v (S (appliedCount r)) (skippedCount r)
          end
  end.

Definition runSysMigrationsPg (ignoreCodes : list string) (isCockroach : bool)
    (allMigrations : list DBMigration) : MG Migrated :=
  let* current := getCurrentSysDBVersion in
  let maxKnown := Z.of_nat (length allMigrations) in
  if maxKnown <? current then ret (MigratedOf current current 0 (length allMigrations))
  else migrate ignoreCodes isCockroach current allMigrations 0 (MigratedOf current current 0 0).

(** * What the migrations must be *)

Section converge.
Context (codes : list string) (ms : list DBMigration) (state : nat -> nat -> Schema) (t : nat).

(** [state j p] is the schema after the first [j] migrations and [p] statements of the next, and
    the migration [t] has made the table of the versions. *)
Definition count (j : nat) : nat := match ms !! j with Some m => length (stmts m) | None => 0%nat end.

(** A statement that finds its work done changes nothing, or fails with an error that says so. *)
Definition repeats (online : bool) (s : string) (sch : Schema) : Prop :=
  execute s sch [] = inr sch
  \/ online = false /\ exists e, execute s sch [] = inl e /\ isDDLAlreadyAppliedPgError codes e = true.

(** The statements can be executed in turn, and again as far as the runner may come back to them:
    those of the migration at hand, and while there is no table those of all before it.  The
    online migrations come after the table. *)
Record sound_migrations : Prop := {
  sm_next : forall j m, ms !! j = Some m -> state (S j) 0 = state j (length (stmts m));
  sm_execute : forall j m p s, ms !! j = Some m -> stmts m !! p = Some s ->
    execute s (state j p) [] = inr (state j (S p));
  sm_repeat : forall i m q s j p, ms !! i = Some m -> stmts m !! q = Some s -> (p <= count j)%nat ->
    (i < j <= t)%nat \/ i = j /\ (q < p)%nat -> repeats (mg_online m) s (state j p);
  sm_table : forall j p, (t < j)%nat -> (p <= count j)%nat -> has_table (state j p) = true;
  sm_kept : forall j p, (p < count j)%nat -> has_table (state j p) = true -> has_table (state j (S p)) = true;
  sm_online : forall j m, ms !! j = Some m -> mg_online m = true -> (t < j)%nat
}.

Definition recorded (d : Database) : Z := default 0 (last_version (db_versions d)).

(** A database that some runs have left, whole or not: up to the statement [p] of the migration
    [j].  Once there is a table the version is that of the migration at hand; only an online
    migration leaves invalid indexes. *)
Record at_position (d : Database) (j p : nat) : Prop := {
  ap_schema : db_schema d = state j p;
  ap_j : (j <= length ms)%nat;
  ap_p : (p <= count j)%nat;
  ap_recorded : 0 <= recorded d <= Z.of_nat j;
  ap_current : (t < j)%nat -> recorded d = Z.of_nat j;
  ap_versions : has_table (state j p) = false -> db_versions d = [];
  ap_invalid : db_invalid d <> [] -> exists m, ms !! j = Some m /\ mg_online m = true /\ stmts m <> []
}.

Definition resumable (d : Database) : Prop := exists j p, at_position d j p.

(** [m] comes to [Q], or is stopped by a loss and leaves a database from which the runner can go on. *)
Definition reaches {A} (m : MG A) (d : Database) (Q : A -> Database -> Prop) : Prop := forall loss,
  match m (d, loss) with
  | (Ok a, (d', loss')) => Q a d' /\ (loss = None -> loss' = None)
  | (Throw _, (d', _)) => loss <> None /\ resumable d'
  end.

Lemma reaches_ret {A} (a : A) d Q : Q a d -> reaches (ret a) d Q.
Proof. by intros H loss. Qed.

Lemma reaches_bind {A B} (m : MG A) (k : A -> MG B) d R Q :
  reaches m d R -> (forall a d', R a d' -> reaches (k a) d' Q) -> reaches (bind m k) d Q.
Proof.
  intros Hm Hk loss. specialize (Hm loss). unfold bind. destruct (m (d, loss)) as [[a|e] [d' loss']]; [|done].
  destruct Hm as [Hr Hl]. specialize (Hk a d' Hr loss'). destruct (k a (d', loss')) as [[b|e] [d'' loss'']].
  - destruct Hk as [? Hl']. split; [done|]. auto.
  - destruct Hk as [Hne ?]. split; [|done]. intros ->. by apply Hne, Hl.
Qed.

Lemma reaches_weaken {A} (m : MG A) d (R Q : A -> Database -> Prop) :
  reaches m d R -> (forall a d', R a d' -> Q a d') -> reaches m d Q.
Proof.
  intros Hm H loss. specialize (Hm loss). destruct (m (d, loss)) as [[a|e] [d' loss']]; [|done].
  destruct Hm as [? ?]. auto.
Qed.

Lemma reaches_query {A} online (f : Database -> outcome PgErrorLike A * Database) d a d' (Q : A -> Database -> Prop) :
  f d = (Ok a, d') -> Q a d' -> resumable d -> resumable d' ->
  (online = true -> forall x, resumable (DatabaseOf (db_schema d) (db_invalid d ++ x) (db_versions d))) ->
  reaches (client_query online f) d Q.
Proof.
  intros E HQ Hd Hd' Ho loss. unfold client_query. cbn [snd fst]. rewrite E.
  destruct loss as [[[|n] performed invalid]|]; [|done|done].
  split; [done|]. destruct performed; [done|]. destruct online; [by apply Ho|].
  rewrite app_nil_r. by destruct d.
Qed.

Lemma reaches_select {A} (f : Database -> A) d (Q : A -> Database -> Prop) :
  Q (f d) d -> resumable d -> reaches (select f) d Q.
Proof. intros HQ Hd. by apply (reaches_query false _ d (f d) d). Qed.

(** A statement that is ignored where it finds its work done *)
Lemma reaches_ignoring s d d' (Q : unit -> Database -> Prop) :
  (exists sch, execute s (db_schema d) (db_invalid d) = inr sch /\ d' = DatabaseOf sch (db_invalid d) (db_versions d))
  \/ (exists e, execute s (db_schema d) (db_invalid d) = inl e /\ isDDLAlreadyAppliedPgError codes e = true) /\ d' = d ->
  Q tt d' -> resumable d -> resumable d' ->
  reaches (try_catch (statement false s)
             (fun err => if isDDLAlreadyAppliedPgError codes err then ret tt else throw err)) d Q.
Proof.
  intros E HQ Hd Hd' loss. unfold try_catch, statement, client_query. cbn [fst snd].
  assert (isDDLAlreadyAppliedPgError codes terminated = false) as El by done.
  destruct loss as [[[|n] performed invalid]|].
  - rewrite El. split; [done|]. rewrite app_nil_r.
    destruct E as [(sch & E & ->)|[(e & E & _) ->]]; rewrite E; destruct performed; simpl; try done; by destruct d.
  - destruct E as [(sch & E & ->)|[(e & E & Hi) ->]]; rewrite E; [done|]. by rewrite Hi.
  - destruct E as [(sch & E & ->)|[(e & E & Hi) ->]]; rewrite E; [done|]. by rewrite Hi.
Qed.

(** ** One migration *)

Context (Hs : sound_migrations).

Lemma at_resumable d j p : at_position d j p -> resumable d.
Proof. intros H. by exists j, p. Qed.

Lemma count_of j m : ms !! j = Some m -> count j = length (stmts m).
Proof. unfold count. by intros ->. Qed.

(** Where the runner is in the list while it is at a position of the schema *)
Definition runs_at (d : Database) (i j p : nat) : Prop :=
  at_position d j p /\ (i <= j)%nat /\ ((t < j)%nat -> i = j).

(** The position after the next statement of the migration *)
Lemma executed_position d j p m s :
  at_position d j p -> ms !! j = Some m -> stmts m !! p = Some s -> db_invalid d = [] ->
  at_position (DatabaseOf (state j (S p)) (db_invalid d) (db_versions d)) j (S p).
Proof.
  intros [H1 H2 H3 H4 H5 H6 H7] Hm Hp Hi. split; simpl; try done.
  - rewrite (count_of j m Hm). by apply lookup_lt_Some in Hp.
  - intros Hno. apply H6. destruct (has_table (state j p)) eqn:E; [|done].
    rewrite (sm_kept Hs) in Hno; [done| |done]. rewrite (count_of j m Hm). by apply lookup_lt_Some in Hp.
Qed.

(** A statement at hand, or one that the runner comes back to *)
Definition next_position (i j p q : nat) : nat := if bool_decide (i = j /\ q = p) then S p else p.

Lemma statement_at d i j p m q s :
  runs_at d i j p -> ms !! i = Some m -> stmts m !! q = Some s -> (i = j -> (q <= p)%nat) -> db_invalid d = [] ->
  let d' := DatabaseOf (state j (next_position i j p q)) [] (db_versions d) in
  runs_at d' i j (next_position i j p q)
  /\ ((exists sch, execute s (db_schema d) (db_invalid d) = inr sch /\ d' = DatabaseOf sch (db_invalid d) (db_versions d))
     \/ mg_online m = false
        /\ (exists e, execute s (db_schema d) (db_invalid d) = inl e /\ isDDLAlreadyAppliedPgError codes e = true)
        /\ d' = d).
Proof.
  intros (Ha & Hij & Ht) Hm Hq Hle Hi. unfold next_position. pose proof Ha as [H1 H2 H3 _ _ _ _].
  case_bool_decide as E; cbv zeta.
  - destruct E as [-> ->]. split.
    + split; [|done]. rewrite <- Hi. by eapply executed_position.
    + left. exists (state j (S p)). rewrite H1, Hi. split; [by apply (sm_execute Hs j m)|done].
  - assert (DatabaseOf (state j p) [] (db_versions d) = d) as Ed by (rewrite <- H1, <- Hi; by destruct d).
    rewrite Ed. split; [done|]. rewrite H1, Hi.
    destruct (sm_repeat Hs i m q s j p Hm Hq H3) as [Hr|(Ho & e & He & Hg)].
    + destruct (decide (i = j)) as [->|Hne]; [right; split; [done|]|left; split; [lia|]].
      * assert (q <> p) by naive_solver. specialize (Hle eq_refl). lia.
      * destruct (decide (t < j)%nat) as [Hlt|]; [|lia]. by apply Ht in Hlt.
    + left. exists (state j p). rewrite Hr. by rewrite <- Hi, <- H1; destruct d; simpl in *; subst.
    + right. split; [done|]. split; [by exists e|done].
Qed.

Lemma next_position_le i j p q : (i = j -> (q <= p)%nat) -> i = j -> (S q <= next_position i j p q)%nat.
Proof. intros H ->. specialize (H eq_refl). unfold next_position. case_bool_decide; [lia|]. naive_solver lia. Qed.

(** What the statements of a migration come to *)
Definition statements_done (m : DBMigration) (i j : nat) (_ : unit) (d : Database) : Prop :=
  exists p, runs_at d i j p /\ db_invalid d = [] /\ (i = j -> p = length (stmts m)).

Lemma statements_end d i j p m q :
  runs_at d i j p -> ms !! i = Some m -> drop q (stmts m) = [] -> (i = j -> (q <= p)%nat) -> i = j ->
  p = length (stmts m).
Proof.
  intros [[_ _ Hp _ _ _ _] _] Hm Hd Hle ->. apply (f_equal length) in Hd. rewrite length_drop in Hd. simpl in Hd.
  rewrite (count_of j m Hm) in Hp. specialize (Hle eq_refl). lia.
Qed.

Lemma drop_cons_inv {A} (l : list A) n x r : drop n l = x :: r -> l !! n = Some x /\ drop (S n) l = r.
Proof.
  intros H. split.
  - rewrite <- (Nat.add_0_r n), <- lookup_drop, H. done.
  - rewrite <- Nat.add_1_r, <- drop_drop, H. done.
Qed.

Lemma ignoring_done m i ss : forall d j p q,
  runs_at d i j p -> ms !! i = Some m -> mg_online m = false -> drop q (stmts m) = ss ->
  (i = j -> (q <= p)%nat) -> db_invalid d = [] ->
  reaches (runStatementsIgnoring ss codes) d (statements_done m i j).
Proof.
  induction ss as [|s ss IH]; intros d j p q Ha Hm Ho Hd Hle Hi; cbn [runStatementsIgnoring].
  - apply reaches_ret. exists p. split; [done|]. split; [done|]. by eapply statements_end.
  - apply drop_cons_inv in Hd as [Hq Hd].
    destruct (statement_at d i j p m q s Ha Hm Hq Hle Hi) as [Ha' E].
    set (d' := DatabaseOf _ _ _) in *.
    apply (reaches_bind _ _ _ (fun _ x => x = d')).
    + apply reaches_ignoring with d'; [|done|by eapply at_resumable, Ha|by eapply at_resumable, Ha'].
      destruct E as [?|(_ & ? & ?)]; auto.
    + intros [] x ->. by apply (IH d' j (next_position i j p q) (S q)); [| | | |apply next_position_le|].
Qed.

Lemma online_done m i ss : forall d j p q,
  runs_at d i j p -> ms !! i = Some m -> mg_online m = true -> drop q (stmts m) = ss ->
  (i = j -> (q <= p)%nat) -> db_invalid d = [] ->
  reaches (for_each (statement true) ss) d (statements_done m i j).
Proof.
  induction ss as [|s ss IH]; intros d j p q Ha Hm Ho Hd Hle Hi; cbn [for_each].
  - apply reaches_ret. exists p. split; [done|]. split; [done|]. by eapply statements_end.
  - pose proof Hd as Hcons. apply drop_cons_inv in Hd as [Hq Hd].
    destruct (statement_at d i j p m q s Ha Hm Hq Hle Hi) as [Ha' E].
    set (d' := DatabaseOf _ _ _) in *.
    apply (reaches_bind _ _ _ (fun _ x => x = d')).
    + destruct E as [(sch & E & Ed)|(Hno & _)]; [|congruence].
      apply (reaches_query true _ d tt d'); [by rewrite E, Ed|done|by eapply at_resumable, Ha|by eapply at_resumable, Ha'|].
      intros _ x. destruct Ha as [[H1 H2 H3 H4 H5 H6 H7] [Hij Ht]]. exists j, p. split; simpl; try done.
      intros _. assert (i = j) as <-.
      { destruct (decide (i = j)); [done|]. pose proof (sm_online Hs i m Hm Ho). apply Ht. lia. }
      exists m. split; [done|]. split; [done|]. intros E0. rewrite E0 in Hq. done.
    + intros [] x ->. by apply (IH d' j (next_position i j p q) (S q)); [| | | |apply next_position_le|].
Qed.

Lemma cleanup_done i j p l : forall d,
  runs_at d i j p -> (forall x, x ∈ db_invalid d -> x ∈ l) ->
  reaches (for_each drop_invalid l) d (fun _ d' => runs_at d' i j p /\ db_invalid d' = []).
Proof.
  induction l as [|x l IH]; intros d Ha Hl; cbn [for_each].
  - apply reaches_ret. split; [done|]. destruct (db_invalid d) as [|y k]; [done|].
    destruct (not_elem_of_nil y). apply Hl. set_solver.
  - set (d' := DatabaseOf (db_schema d) (List.filter (fun i => negb (String.eqb i x)) (db_invalid d)) (db_versions d)).
    assert (runs_at d' i j p) as Ha'.
    { destruct Ha as [[H1 H2 H3 H4 H5 H6 H7] Hi]. split; [|done]. split; simpl; try done.
      intros Hne. apply H7. intros E. by rewrite E in Hne. }
    apply (reaches_bind _ _ _ (fun _ y => y = d')).
    + apply (reaches_query false _ d tt d'); [done|done|by eapply at_resumable, Ha|by eapply at_resumable, Ha'|done].
    + intros [] y ->. apply IH; [done|]. intros y Hy. simpl in Hy.
      apply list_elem_of_In, List.filter_In in Hy as [Hy Hne]. apply list_elem_of_In in Hy.
      apply Hl in Hy. apply elem_of_cons in Hy as [->|?]; [|done]. by rewrite String.eqb_refl in Hne.
Qed.

(** The position when the migration is behind the runner *)
Lemma migration_behind d d' i j p m :
  runs_at d i j p -> ms !! i = Some m -> (i = j -> p = length (stmts m)) ->
  db_schema d' = db_schema d -> db_invalid d' = [] ->
  has_table (state j p) = true /\ recorded d' = Z.of_nat i + 1 \/ has_table (state j p) = false /\ db_versions d' = [] ->
  exists j' p', runs_at d' (S i) j' p'.
Proof.
  intros [[H1 H2 H3 H4 H5 H6 H7] [Hij Ht]] Hm Hp Hsch Hi Hv.
  assert (0 <= recorded d' <= Z.of_nat i + 1) as Hr.
  { destruct Hv as [[_ ->]|[_ E]]; [lia|]. unfold recorded. rewrite E. simpl. lia. }
  destruct (decide (i = j)) as [<-|Hne].
  - specialize (Hp eq_refl). subst p. rewrite <- (sm_next Hs i m Hm) in *.
    apply lookup_lt_Some in Hm as Hlt.
    exists (S i), 0%nat. split; [|split; [lia|done]]. split; [by rewrite Hsch|lia|lia|lia| | |by rewrite Hi].
    + intros Hti. destruct Hv as [[_ ->]|[Hno _]]; [lia|]. rewrite (sm_table Hs) in Hno; [done|done|lia].
    + intros Hno. destruct Hv as [[Hyes _]|[_ ?]]; [congruence|done].
  - assert (~ (t < j)%nat) as Hnt by (intros H; by apply Hne, Ht).
    exists j, p. split; [|split; [lia|done]]. split; [by rewrite Hsch|done|done|lia|done| |by rewrite Hi].
    intros Hno. destruct Hv as [[Hyes _]|[_ ?]]; [congruence|done].
Qed.

Lemma last_version_all v l : l <> [] -> last_version (map (fun _ : Z => v) l) = Some v.
Proof.
  destruct l as [|x l]; [done|]. intros _. cbn [map last_version]. f_equal.
  induction l as [|y l IH]; simpl; [done|]. by rewrite Z.max_id.
Qed.

Lemma bump_done d i j p m :
  runs_at d i j p -> ms !! i = Some m -> (i = j -> p = length (stmts m)) -> db_invalid d = [] ->
  reaches (bumpMigrationVersion (Z.of_nat i + 1)) d (fun _ d' => exists j' p', runs_at d' (S i) j' p').
Proof.
  intros Ha Hm Hp Hi. pose proof Ha as [[H1 _ _ _ _ H6 _] _].
  assert (resumable d) as Hd by (eapply at_resumable, Ha).
  unfold bumpMigrationVersion.
  apply (reaches_bind _ _ _ (fun b x => b = has_table (state j p) /\ x = d)).
  { apply reaches_select; [by rewrite H1|done]. }
  intros b x [-> ->]. destruct (has_table (state j p)) eqn:Et; simpl.
  2:{ apply reaches_ret. eapply migration_behind; try done. right. split; [done|]. by apply H6. }
  set (d1 := DatabaseOf (db_schema d) (db_invalid d) (map (fun _ => Z.of_nat i + 1) (db_versions d))).
  destruct (decide (db_versions d = [])) as [En|Hne].
  - assert (d1 = d) as E1 by (unfold d1; rewrite En; destruct d; simpl in *; by subst).
    apply (reaches_bind _ _ _ (fun n x => n = 0%nat /\ x = d)).
    { apply (reaches_query false _ d 0%nat d1); [by unfold d1; rewrite En|by rewrite E1|done|by rewrite E1|done]. }
    intros n x [-> ->]. simpl. set (d2 := DatabaseOf (db_schema d) (db_invalid d) (db_versions d ++ [Z.of_nat i + 1])).
    assert (exists j' p', runs_at d2 (S i) j' p') as Hb.
    { eapply migration_behind; try done. left. split; [done|]. unfold recorded. simpl. by rewrite En. }
    apply (reaches_query false _ d tt d2); [done|done|done|by destruct Hb as (? & ? & ? & _); eapply at_resumable|done].
  - assert (exists j' p', runs_at d1 (S i) j' p') as Hb.
    { eapply migration_behind; try done. left. split; [done|]. unfold recorded. simpl. by rewrite last_version_all. }
    apply (reaches_bind _ _ _ (fun n x => n <> 0%nat /\ x = d1)).
    { apply (reaches_query false _ d (length (db_versions d)) d1); [done| |done|by destruct Hb as (? & ? & ? & _); eapply at_resumable|done].
      split; [|done]. by destruct (db_versions d). }
    intros n x [Hn ->]. destruct (Nat.eqb_spec n 0) as [|_]; [done|]. by apply reaches_ret.
Qed.

Lemma migration_done d i j p m :
  runs_at d i j p -> ms !! i = Some m ->
  reaches (run_migration codes false m (Z.of_nat i + 1)) d (fun _ d' => exists j' p', runs_at d' (S i) j' p').
Proof.
  intros Ha Hm. pose proof Ha as [[_ _ _ _ _ _ H7] [Hij Ht]].
  assert (db_invalid d <> [] -> i = j /\ mg_online m = true /\ stmts m <> []) as Hinv.
  { intros (m' & Hm' & Ho & Hne)%H7. pose proof (Ht (sm_online Hs j m' Hm' Ho)) as <-.
    rewrite Hm in Hm'. by injection Hm' as <-. }
  unfold run_migration. destruct (stmts m) as [|s ss] eqn:Es.
  - eapply bump_done; [done|done| |].
    + intros ->. rewrite Es. destruct Ha as [[_ _ Hp _ _ _ _] _]. rewrite (count_of j m Hm), Es in Hp. simpl in *. lia.
    + destruct (db_invalid d) eqn:E; [done|]. destruct Hinv as (_ & _ & ?); done.
  - rewrite <- Es. apply (reaches_bind _ _ _ (statements_done m i j)).
    + rewrite andb_true_r. destruct (mg_online m) eqn:Eo.
      * apply (reaches_bind _ _ _ (fun _ d' => runs_at d' i j p /\ db_invalid d' = [])).
        { unfold cleanupInvalidIndexes.
          apply (reaches_bind _ _ _ (fun l x => l = db_invalid d /\ x = d)).
          - apply reaches_select; [done|by eapply at_resumable, Ha].
          - intros l x [-> ->]. by apply cleanup_done. }
        intros [] d' [Ha' Hi']. apply (online_done m i _ d' j p 0); try done. lia.
      * apply (ignoring_done m i _ d j p 0); try done; [lia|].
        destruct (db_invalid d) eqn:E; [done|]. destruct Hinv as (_ & ? & _); done.
    + intros [] d' (p' & Ha' & Hi' & Hp'). by eapply bump_done.
Qed.


(** ** The whole run *)

(** Every migration is behind the runner. *)
Definition up_to_date (d : Database) : Prop :=
  db_schema d = state (length ms) 0 /\ db_invalid d = []
  /\ ((t < length ms)%nat -> recorded d = Z.of_nat (length ms)).

Lemma count_end : count (length ms) = 0%nat.
Proof. unfold count. by rewrite lookup_ge_None_2. Qed.

Lemma end_up_to_date d i j p : runs_at d i j p -> i = length ms -> up_to_date d.
Proof.
  intros [[H1 H2 H3 _ H5 _ H7] [Hij Ht]] ->. assert (j = length ms) as -> by lia.
  rewrite count_end in H3. assert (p = 0%nat) as -> by lia. split; [done|]. split; [|done].
  destruct (db_invalid d) eqn:E; [done|]. destruct H7 as (m & Hm & _); [done|].
  apply lookup_lt_Some in Hm. lia.
Qed.

Lemma migrate_done rest : forall d i j p current r,
  runs_at d i j p -> drop i ms = rest -> current <= Z.of_nat i -> toVersion r = Z.of_nat i ->
  reaches (migrate codes false current rest i r) d
    (fun r' d' => (up_to_date d' /\ resumable d') /\ toVersion r' = Z.of_nat (length ms) /\ fromVersion r' = fromVersion r
                  /\ (appliedCount r' + skippedCount r' = appliedCount r + skippedCount r + length rest)%nat).
Proof.
  induction rest as [|m rest IH]; intros d i j p current r Ha Hd Hc Hr; cbn [migrate].
  - assert (i = length ms) as Hi.
    { apply (f_equal length) in Hd. rewrite length_drop in Hd. simpl in Hd.
      destruct Ha as [[_ ? _ _ _ _ _] [? _]]. lia. }
    apply reaches_ret. split; [split; [by eapply end_up_to_date|by eapply at_resumable, Ha]|]. subst i. split; [done|]. split; [done|]. simpl. lia.
  - apply drop_cons_inv in Hd as [Hm Hd]. cbv zeta.
    destruct (Z.leb_spec (Z.of_nat i + 1) current) as [|_]; [lia|].
    eapply reaches_bind; [by eapply migration_done|]. intros [] d' (j' & p' & Ha').
    eapply reaches_weaken; [eapply (IH d' (S i) j' p'); [done|done|lia|]|].
    + destruct (stmts m); simpl; lia.
    + intros r' x (H1 & H2 & H3 & H4). split; [done|]. split; [done|].
      destruct (stmts m); simpl in *; (split; [done|]); simpl; lia.
Qed.

(** The migrations up to the version are skipped. *)
Lemma migrate_skips rest : forall i c current r,
  current = Z.of_nat (i + c) -> (c <= length rest)%nat ->
  migrate codes false current rest i r
  = migrate codes false current (drop c rest) (i + c)
      (MigratedOf (fromVersion r) (toVersion r) (appliedCount r) (skippedCount r + c)).
Proof.
  induction rest as [|m rest IH]; intros i c current r Hc Hl; destruct c as [|c]; simpl in Hl; try lia.
  - rewrite !Nat.add_0_r. by destruct r.
  - rewrite !Nat.add_0_r. by destruct r.
  - cbn [migrate drop]. cbv zeta. destruct (Z.leb_spec (Z.of_nat i + 1) current) as [_|]; [|lia].
    rewrite (IH (S i) c) by lia. simpl. do 2 f_equal; lia.
Qed.

Lemma run_done d :
  resumable d ->
  reaches (runSysMigrationsPg codes false ms) d
    (fun r d' => (up_to_date d' /\ resumable d') /\ toVersion r = Z.of_nat (length ms) /\ fromVersion r = recorded d
                 /\ (appliedCount r + skippedCount r = length ms)%nat).
Proof.
  intros Hd. pose proof Hd as (j & p & Ha). pose proof Ha as [H1 H2 H3 H4 H5 H6 H7].
  unfold runSysMigrationsPg. apply (reaches_bind _ _ _ (fun c x => c = recorded d /\ x = d)).
  { unfold getCurrentSysDBVersion.
    apply (reaches_bind _ _ _ (fun b x => b = has_table (state j p) /\ x = d)).
    { apply reaches_select; [by rewrite H1|done]. }
    intros b x [-> ->]. destruct (has_table (state j p)); simpl.
    - apply (reaches_bind _ _ _ (fun v x => v = last_version (db_versions d) /\ x = d)); [by apply reaches_select|].
      intros v x [-> ->]. by apply reaches_ret.
    - apply reaches_ret. split; [|done]. unfold recorded. by rewrite H6. }
  intros c x [-> ->]. destruct (Z.ltb_spec (Z.of_nat (length ms)) (recorded d)) as [|_]; [lia|].
  set (i := Z.to_nat (recorded d)).
  rewrite (migrate_skips ms 0 i) by lia. simpl.
  eapply reaches_weaken; [apply (migrate_done _ d i j p); [|done|lia|simpl; lia]|].
  - split; [done|]. split; [lia|]. intros Ht. specialize (H5 Ht). lia.
  - intros r y (? & ? & Hf & Hn). split; [done|]. split; [done|]. split; [done|]. simpl in Hn.
    rewrite length_drop in Hn. lia.
Qed.

(** A run that is lost on the way *)
Definition lost_run (d d' : Database) : Prop :=
  exists loss, d' = (runSysMigrationsPg codes false ms (d, Some loss)).2.1.

Lemma lost_run_resumable d d' : resumable d -> lost_run d d' -> resumable d'.
Proof.
  intros Hd [loss ->]. pose proof (run_done d Hd (Some loss)) as H.
  destruct (runSysMigrationsPg codes false ms (d, Some loss)) as [[r|e] [d' l]]; [|by destruct H].
  by destruct H as [((_ & ?) & _) _].
Qed.

Lemma fresh_resumable sch : sch = state 0 0 -> resumable (DatabaseOf sch [] []).
Proof.
  intros ->. exists 0%nat, 0%nat. split; simpl; try done; lia.
Qed.

Lemma lost_runs_resumable d d' : resumable d -> rtc lost_run d d' -> resumable d'.
Proof. intros Hd H. induction H as [|x y z Hl _ IH]; [done|]. by eapply IH, lost_run_resumable. Qed.

(** A run on a database that is up to date *)
Lemma run_again d :
  (t < length ms)%nat -> up_to_date d ->
  runSysMigrationsPg codes false ms (d, None)
  = (Ok (MigratedOf (Z.of_nat (length ms)) (Z.of_nat (length ms)) 0 (length ms)), (d, None)).
Proof.
  intros Ht (Es & _ & Er). specialize (Er Ht). unfold recorded in Er.
  unfold runSysMigrationsPg, getCurrentSysDBVersion, bind, select, client_query. cbn [fst snd].
  rewrite Es, (sm_table Hs); [|done|lia]. simpl. rewrite Er.
  destruct (Z.ltb_spec (Z.of_nat (length ms)) (Z.of_nat (length ms))) as [|_]; [lia|].
  by rewrite (migrate_skips ms 0 (length ms)), drop_ge by (simpl; lia).
Qed.

(** C39: However often the runner is stopped on a fresh database, by the loss of its connection at any
    query, performed or not: a run that is not stopped succeeds and leaves the schema that one run
    alone makes of it, at the last version and without invalid indexes; and a run after it applies
    nothing. *)
Theorem migrations_converge (d : Database) :
  (t < length ms)%nat -> rtc lost_run (DatabaseOf (state 0 0) [] []) d ->
  exists r d', runSysMigrationsPg codes false ms (d, None) = (Ok r, (d', None))
    /\ db_schema d' = state (length ms) 0 /\ db_invalid d' = [] /\ recorded d' = Z.of_nat (length ms)
    /\ toVersion r = Z.of_nat (length ms) /\ (appliedCount r + skippedCount r = length ms)%nat
    /\ runSysMigrationsPg codes false ms (d', None)
       = (Ok (MigratedOf (toVersion r) (toVersion r) 0 (length ms)), (d', None)).
Proof.
  intros Ht Hrun. assert (resumable d) as Hd by (eapply lost_runs_resumable, Hrun; by apply fresh_resumable).
  pose proof (run_done d Hd None) as H.
  destruct (runSysMigrationsPg codes false ms (d, None)) as [[r|e] [d' l]]; [|by destruct H].
  destruct H as [([Hu _] & Hto & _ & Hn) Hl]. rewrite Hl by done.
  exists r, d'. split; [done|]. rewrite Hto, run_again by done. destruct Hu as (? & ? & ?). auto 10.
Qed.

End converge.

(** A database that is ahead of the program is left alone. *)
Theorem ahead_untouched codes isCockroach ms d :
  has_table (db_schema d) = true -> Z.of_nat (length ms) < recorded d ->
  runSysMigrationsPg codes isCockroach ms (d, None)
  = (Ok (MigratedOf (recorded d) (recorded d) 0 (length ms)), (d, None)).
Proof.
  intros Ht Hv. unfold runSysMigrationsPg, getCurrentSysDBVersion, bind, select, client_query. cbn [fst snd].
  rewrite Ht. simpl. unfold recorded in *. by destruct (Z.ltb_spec (Z.of_nat (length ms)) (default 0 (last_version (db_versions d)))); [|lia].
Qed.

End runner.

(** * Witnesses *)

(** A schema is what was made, in order: a table of the versions, another, and an index that is built
    online. *)
Definition ex_migrations : list DBMigration :=
  [ DBMigrationOf (Some "tables") (Some ["dbos_migrations"; "workflow_status"]) false;
    DBMigrationOf (Some "none") None false;
    DBMigrationOf (Some "index") (Some ["index"; "function"]) true ].

(** What is there is there already, but an index [IF NOT EXISTS] is no error, and an invalid one
    is taken for it. *)
Definition ex_execute (s : string) (schema invalid : list string) : PgErrorLike + list string :=
  if bool_decide (s ∈ schema \/ s ∈ invalid)
  then if bool_decide (s ∈ ["index"; "function"]) then inr schema
       else inl (PgErrorOf (Some "42P07") None)
  else inr (schema ++ [s]).

Definition ex_has_table (schema : list string) : bool := bool_decide ("dbos_migrations" ∈ schema).

Definition ex_made (j p : nat) : list string :=
  (take j ex_migrations ≫= stmts)
    ++ match ex_migrations !! j with Some m => take p (stmts m) | None => [] end.

Lemma ex_migrations_sound : sound_migrations ex_execute ex_has_table DEFAULT_IGNORABLE_CODES ex_migrations ex_made 0.
Proof.
  split.
  - intros [|[|[|j]]] m [= <-]; reflexivity.
  - intros [|[|[|j]]] m [|[|[|p]]] s Hm Hp; simpl in Hm, Hp; simplify_eq/=; reflexivity.
  - intros [|[|[|i]]] m [|[|[|q]]] s j p Hm Hq Hp H; simpl in Hm, Hq; simplify_eq/=;
      destruct j as [|[|[|j]]]; try lia; cbn in Hp; destruct p as [|[|[|p]]]; try lia;
      first [by left | by right; split; [|eexists; split]].
  - intros [|[|[|j]]] p Hj Hp; try lia; cbn in Hp; destruct p as [|[|[|p]]]; try lia; reflexivity.
  - intros [|[|[|j]]] p Hp; cbn in Hp; try lia; destruct p as [|[|[|p]]]; try lia; reflexivity.
  - intros [|[|[|j]]] m [= <-] Ho; try done; lia.
Qed.

Definition ex_run (l : option Loss) (d : Database) :=
  runSysMigrationsPg ex_execute ex_has_table DEFAULT_IGNORABLE_CODES false ex_migrations (d, l).

(** One run is lost before the version is recorded, another in the building of the index. *)
Definition ex_lost : Database :=
  (ex_run (Some (LossOf 10 false ["index"])) (ex_run (Some (LossOf 4 true [])) (DatabaseOf [] [] [])).2.1).2.1.

Lemma migrations_converge_witness :
  (ex_lost = DatabaseOf ["dbos_migrations"; "workflow_status"] ["index"] [2])
  /\ exists r d', ex_run None ex_lost = (Ok r, (d', None)) /\ db_schema d' = ex_made 3 0.
Proof.
  split; [by vm_compute|].
  destruct (migrations_converge ex_execute ex_has_table DEFAULT_IGNORABLE_CODES ex_migrations ex_made 0 ex_migrations_sound ex_lost)
    as (r & d' & H1 & H2 & _).
  - simpl. lia.
  - eapply rtc_l; [by exists (LossOf 4 true [])|]. eapply rtc_l; [by exists (LossOf 10 false ["index"])|apply rtc_refl].
  - exists r, d'. split; [exact H1|exact H2].
Defined.
