(* ===== verification/Sqs.v ===== *)
(** The SQS receiver (packages/sqs-receive/index.ts): a workflow for each message of a queue of
    Amazon SQS.

    SQS delivers a message until it is deleted, and now and then again after that.  The client of
    AWS is an argument; clocks, logging and the waiting of the listeners are not modelled. *)

From S2P Require Export Lifecycle Start.
From S2P Require Import Trigger.

Open Scope Z_scope.

(** * Configuration *)

(** What the receiver reads of a [Message]; the body is the application's. *)
Record Message : Type := MessageOf {
  MessageId : option string;
  ReceiptHandle : option string;
  mg_Body : option string
}.

#[export] Instance Message_eq_dec : EqDecision Message.
Proof. solve_decision. Defined.

Section config.
Context {SQSClient : Type}.

(** A client, or a function that makes one *)
Inductive ClientSource : Type := AClient (c : SQSClient) | AFunction (f : unit -> SQSClient).

(** [SQSConfig] *)
Record SQSConfig : Type := SQSConfigOf {
  sc_client : option ClientSource;
  sc_queueUrl : option string;
  sc_getWorkflowKey : option (Message -> option string);
  sc_workflowQueueName : option string
}.

(** A registered method, with the configurations of its class, of itself and of the receiver; the
    method has none at all if it is not a consumer. *)
Record SQSMethod : Type := SQSMethodOf {
  sm_registration : Registration;
  sm_consumer : bool;
  sm_class : option SQSConfig;
  sm_method : option SQSConfig;
  sm_receiver : option SQSConfig
}.

(** [a ?? b] *)
Definition or_else {A} (a b : option A) : option A := match a with Some _ => a | None => b end.

Definition method_url (m : SQSMethod) : option string :=
  or_else (sm_class m ≫= sc_queueUrl) (or_else (sm_method m ≫= sc_queueUrl) (sm_receiver m ≫= sc_queueUrl)).

Definition method_client (m : SQSMethod) : option SQSClient :=
  let made c := match c with AClient c => c | AFunction f => f tt end in
  made <$> or_else (sm_method m ≫= sc_client) (or_else (sm_class m ≫= sc_client) (sm_receiver m ≫= sc_client)).

Definition method_queue (m : SQSMethod) : option string :=
  or_else (sm_method m ≫= sc_workflowQueueName)
    (or_else (sm_class m ≫= sc_workflowQueueName) (sm_receiver m ≫= sc_workflowQueueName)).

(** [wfid]: the first key that is not empty, and else the ID of the message *)
Definition workflow_key (m : SQSMethod) (msg : Message) : option string :=
  let key (c : option SQSConfig) := (c ≫= sc_getWorkflowKey) ≫= (fun f => truthy_str (f msg)) in
  match key (sm_method m), key (sm_class m), key (sm_receiver m) with
  | Some k, _, _ => Some k
  | None, Some k, _ => Some k
  | None, None, Some k => Some k
  | None, None, None => MessageId msg
  end.

(** A listener of [sqs_initialize] *)
Record Listener : Type := ListenerOf { ln_method : SQSMethod; ln_client : SQSClient; ln_url : string }.

Definition full_name (m : SQSMethod) : string :=
  rg_className (sm_registration m) +:+ "." +:+ rg_name (sm_registration m).

(** One method in the loop of [sqs_initialize]; [connect] is [validateConnection], with the message of
    its error. *)
Definition method_listener (connect : SQSClient -> string -> option string) (m : SQSMethod)
    : dbos_error + option Listener :=
  if negb (sm_consumer m) then inr None
  else
    match truthy_str (method_url m) with
    | None => inr None
    | Some url =>
        if negb (bool_decide (is_Some (rg_workflowConfig (sm_registration m)))) then
          inl (DBOSError ("Error registering method " +:+ full_name m
                          +:+ ": An SQS decorator can only be assigned to a workflow!"))
        else
          match method_client m with
          | None => inl (DBOSError ("Error initializing SQS method " +:+ full_name m +:+ ": No SQSClient provided"))
          | Some c =>
              match connect c url with
              | Some msg => inl (DBOSError ("SQS Receiver for " +:+ full_name m +:+ " was unable to connect to "
                                            +:+ url +:+ ": " +:+ msg))
              | None => inr (Some (ListenerOf m c url))
              end
          end
    end.

(** [initialize] of the receiver: the listeners it starts, up to the first method that fails *)
Fixpoint sqs_initialize (connect : SQSClient -> string -> option string) (ms : list SQSMethod)
    : list Listener * option dbos_error :=
  match ms with
  | [] => ([], None)
  | m :: ms' =>
      match method_listener connect m with
      | inl e => ([], Some e)
      | inr l => let (ls, e) := sqs_initialize connect ms' in (option_list l ++ ls, e)
      end
  end.

End config.
Arguments ClientSource : clear implicits.
Arguments SQSConfig : clear implicits.
Arguments SQSMethod : clear implicits.
Arguments Listener : clear implicits.

(** * Listening *)

Section listener.
Context {SQSClient : Type}
        (serializeArgs : Message -> option string -> string * option string)
        (serializeError : dbos_error -> string)
        (deserializeResError : string -> option string -> dbos_error)
        (serializerName executorID appVersion appID : string)
        (queues : gmap string WorkflowQueue) (m : SQSMethod SQSClient).

Notation reg := (sm_registration m).

Definition message_params (msg : Message) : StartParams :=
  StartParamsOf (workflow_key m msg) (method_queue m) None None None None None None false NoAttributes None false.

(** The start of the workflow of a message, outside of any context *)
Definition start_message (msg : Message) (rd : StartReadings) : EX (option WorkflowHandle) :=
  at_top (startWorkflow serializeArgs serializeError deserializeResError serializerName executorID
            appVersion appID queues Static reg msg (message_params msg) top_options [RoundOf rd id id]).

(** What one round of a listener meets: the answer of SQS, the readings of the start, and whether
    the deletion reaches SQS *)
Inductive Received : Type := ReceiveFails | NoMessage | Got (msg : Message).

Record SqsRound : Type := SqsRoundOf {
  sr_received : Received;
  sr_readings : StartReadings;
  sr_deleted : bool
}.

(** One round: the messages that SQS deletes.  What it throws is logged. *)
Definition listen_once (r : SqsRound) : EX (list Message) := fun st =>
  match sr_received r with
  | Got msg =>
      match start_message msg (sr_readings r) st with
      | (Ok _, st') => (Ok (if sr_deleted r then [msg] else []), st')
      | (Throw _, st') => (Ok [], st')
      end
  | _ => (Ok [], st)
  end.

(** The rounds of a listener until it is shut down *)
Fixpoint listen (rs : list SqsRound) : EX (list Message) :=
  match rs with
  | [] => ret []
  | r :: rs' => let* deleted := listen_once r in let* more := listen rs' in ret (deleted ++ more)
  end.

(** * What a start leaves *)

(** The row of the workflow of a message *)
Definition message_row (msg : Message) (row : wf_row) : Prop :=
  ws_name row = rg_name reg /\ default "" (ws_class_name row) = rg_className reg
  /\ default "" (ws_config_name row) = ""
  /\ ws_inputs row = Some (serializeArgs msg (rg_workflowConfig reg ≫= wc_serialization)).1.

(** The ID of the transaction is new to the workflow. *)
Definition new_xid (k : string) (rd : StartReadings) (d : sysdb) : Prop :=
  forall row, workflow_status d !! k = Some row -> ws_owner_xid row <> Some (rd_ownerXid rd).

Lemma start_message_cases msg rd st o st' :
  start_message msg rd st = (o, st') ->
  is_ok o = false /\ st' = st
  \/ exists o', invokeRegOp serializeArgs serializeError deserializeResError serializerName executorID appVersion
       appID reg (start_params Static (message_params msg) top_options (workflow_key m msg) None) None None
       msg (co_context top_options) rd st = (o', st') /\ is_ok o' = is_ok o.
Proof.
  unfold start_message, at_top, startWorkflow, invokeWorkflow, prepare_start, message_params.
  destruct (workflow_key m msg) as [[|c s]|]; simpl; unfold bind, in_ctx; simpl;
    (destruct (options_error _ _ _); simpl; [intros [= <- <-]; by left|]); unfold in_exec; simpl;
    destruct (invokeRegOp _ _ _ _ _ _ _ _ _ _ _ _ _ _ st) as [[h'|e] st1]; simpl;
    intros [= <- <-]; right; by eexists.
Qed.

(** A start touches no other workflow than that of its message, whose row it leaves in the
    database if it returns. *)
Lemma start_message_stores msg k rd st o st' :
  can_start reg -> truthy_str (workflow_key m msg) = Some k -> db_ok st.1 -> new_xid k rd st.1 ->
  (forall row, workflow_status st.1 !! k = Some row -> message_row msg row) ->
  start_message msg rd st = (o, st') ->
  db_ok st'.1
  /\ (forall row, workflow_status st'.1 !! k = Some row -> message_row msg row)
  /\ (is_ok o = true \/ is_Some (workflow_status st.1 !! k) -> is_Some (workflow_status st'.1 !! k))
  /\ (forall k', k' <> k -> workflow_status st'.1 !! k' = workflow_status st.1 !! k').
Proof.
  intros (Hname & config & Hc & Hm) Hk Hd Hx Hs H.
  apply start_message_cases in H as [[Ho ->]|(o' & H & Ho)]; [rewrite Ho; naive_solver|].
  unfold invokeRegOp in H. rewrite bool_decide_true in H by (rewrite Hc; eauto).
  set (params := start_params _ _ _ _ _) in H.
  assert (isTempWorkflow reg params = false) as Htmp by (unfold isTempWorkflow; by rewrite bool_decide_false).
  destruct (internalWorkflow_top serializeArgs serializeError deserializeResError serializerName executorID
    appVersion appID reg params config msg (co_context top_options) rd st) as [E1 E2].
  { unfold wf_config. by rewrite Htmp. }
  rewrite H in E1, E2. cbn [fst snd] in E1, E2. rewrite Ho in E2. rewrite E1, E2. clear H Ho E1 E2 st' o o'.
  change (iw_isRecoveryDispatch params) with false. change (iw_isQueueDispatch params) with false.
  set (s := internal_status _ _ _ _ _ _ _ _ _ _).
  assert (i_workflowUUID s = k) as Hid.
  { subst s params. simpl. unfold start_params. destruct (workflow_key m msg) as [[|c x]|]; simpl in *; congruence. }
  assert (same_function s = fun row => ws_name row = rg_name reg /\ default "" (ws_class_name row) = rg_className reg
            /\ default "" (ws_config_name row) = "") as Hsame.
  { unfold same_function. subst s. simpl. unfold stored_name, wf_names. by rewrite Htmp. }
  assert (i_input s = Some (serializeArgs msg (rg_workflowConfig reg ≫= wc_serialization)).1) as Hin.
  { subst s. simpl. unfold wf_config. by rewrite Htmp. }
  clearbody s. subst k.
  destruct (workflow_status st.1 !! i_workflowUUID s) as [old|] eqn:Eo.
  - specialize (Hs _ eq_refl). assert (same_function s old) as Hf by (rewrite Hsame; destruct Hs as (? & ? & ? & _); auto).
    rewrite (init_existing_is_readonly _ _ s _ _ _ old Eo Hf (Hx _ Eo)). cbn [snd]. rewrite Eo.
    split; [done|]. split; [by intros row [= <-]|done].
  - assert (forall n, Some (default DEFAULT_MAX_RECOVERY_ATTEMPTS (truthy_num (wc_maxRecoveryAttempts config))) = Some n -> 0 <= n)
      as Hmx.
    { intros n [= <-]. destruct (wc_maxRecoveryAttempts config) as [n|]; [|done].
      specialize (Hm _ eq_refl). unfold truthy_num, DEFAULT_MAX_RECOVERY_ATTEMPTS. destruct n; simpl; lia. }
    destruct (init_fresh_cases (rd_now rd) (rd_nowMs rd) s (Some (rd_ownerXid rd)) _ st.1 (ok_dedup _ Hd) Eo Hmx)
      as [[_ E]|[_ E]].
    { rewrite E. cbn [fst snd is_ok]. rewrite Eo. naive_solver. }
    pose proof (op_initWorkflowStatus true (rd_now rd) (rd_nowMs rd) s (Some (rd_ownerXid rd)) false false
      (Some (default DEFAULT_MAX_RECOVERY_ATTEMPTS (truthy_num (wc_maxRecoveryAttempts config))))) as Hop.
    rewrite E. cbn [fst snd]. split.
    { refine (proj1 (step_since true st.1 _ _ Hd)). eexists _, _. split; [exact Hop|]. by rewrite E. }
    set (row0 := status_to_row (rd_now rd) s (Some (rd_ownerXid rd))).
    change (workflow_status (st.1 <| workflow_status ::= <[i_workflowUUID s:=row0]> |>))
      with (<[i_workflowUUID s := row0]> (workflow_status st.1)).
    split; [|split; [intros _; rewrite lookup_insert_eq; by eexists|intros k' Hk'; by rewrite lookup_insert_ne]].
    intros row Hr. rewrite lookup_insert_eq in Hr. injection Hr as <-. subst row0.
    pose proof (status_to_row_same_function (rd_now rd) s (Some (rd_ownerXid rd))) as Hf.
    rewrite Hsame in Hf. destruct Hf as (? & ? & ?). by repeat split.
Qed.

(** * Every message becomes its workflow *)

(** The executor, the messages that SQS holds, and those that were ever sent *)
Record Sqs : Type := SqsOf { sq_st : exec_state; sq_queue : list Message; sq_sent : list Message }.

(** The rows with the IDs of the messages are those of the messages. *)
Definition ids_sound (sent : list Message) (d : sysdb) : Prop :=
  forall msg k row, msg ∈ sent -> truthy_str (workflow_key m msg) = Some k ->
    workflow_status d !! k = Some row -> message_row msg row.

(** Messages are sent with keys of their own, which no other workflow has; SQS may deliver one again
    that was deleted; a listener receives one, and its process may die after the start, which is
    as if the deletion did not reach SQS; others change the database, but delete no workflow and
    take no ID of a message for another. *)
Inductive sqs_step : Sqs -> Sqs -> Prop :=
| sends st queue sent msg k :
    truthy_str (workflow_key m msg) = Some k ->
    (forall msg', msg' ∈ sent -> workflow_key m msg' = workflow_key m msg -> msg' = msg) ->
    (forall row, workflow_status st.1 !! k = Some row -> message_row msg row) ->
    sqs_step (SqsOf st queue sent) (SqsOf st (queue ++ [msg]) (sent ++ [msg]))
| redelivers st queue sent msg :
    msg ∈ sent -> sqs_step (SqsOf st queue sent) (SqsOf st (queue ++ [msg]) sent)
| listens st queue queue' sent msg rd reached deleted st' :
    msg ∈ queue -> (forall k, truthy_str (workflow_key m msg) = Some k -> new_xid k rd st.1) ->
    listen_once (SqsRoundOf (Got msg) rd reached) st = (Ok deleted, st') ->
    (forall x, x ∈ queue -> x ∈ queue' \/ x ∈ deleted) -> (forall x, x ∈ queue' -> x ∈ queue) ->
    sqs_step (SqsOf st queue sent) (SqsOf st' queue' sent)
| others_act st st' queue sent :
    since true st.1 st'.1 -> (ids_sound sent st.1 -> ids_sound sent st'.1) ->
    sqs_step (SqsOf st queue sent) (SqsOf st' queue sent).

(** The workflow of the message is in the database. *)
Definition handled (d : sysdb) (msg : Message) : Prop :=
  exists k row, truthy_str (workflow_key m msg) = Some k /\ workflow_status d !! k = Some row /\ message_row msg row.

Record sqs_ok (w : Sqs) : Prop := {
  so_db : db_ok (sq_st w).1;
  so_ids : ids_sound (sq_sent w) (sq_st w).1;
  so_queue : forall msg, msg ∈ sq_queue w -> msg ∈ sq_sent w;
  so_keys : forall msg, msg ∈ sq_sent w -> is_Some (truthy_str (workflow_key m msg));
  so_distinct : forall a b, a ∈ sq_sent w -> b ∈ sq_sent w -> workflow_key m a = workflow_key m b -> a = b;
  so_sent : forall msg, msg ∈ sq_sent w -> msg ∈ sq_queue w \/ handled (sq_st w).1 msg
}.

(** Two messages with the same key as a text *)
Lemma same_key a b k :
  truthy_str (workflow_key m a) = Some k -> truthy_str (workflow_key m b) = Some k ->
  workflow_key m a = workflow_key m b.
Proof. destruct (workflow_key m a) as [[|]|], (workflow_key m b) as [[|]|]; simpl; congruence. Qed.

Lemma sqs_handled_since sent d d' msg :
  since true d d' -> ids_sound sent d' -> msg ∈ sent -> handled d msg -> handled d' msg.
Proof.
  intros [_ [Hrow _ _ _]] Hs Hin (k & row & Hk & Hr & _). destruct (Hrow _ _ Hr) as (row' & Hr' & _).
  exists k, row'. split; [done|]. split; [done|]. by apply (Hs msg k).
Qed.

Lemma sqs_step_ok w w' : can_start reg -> sqs_ok w -> sqs_step w w' -> sqs_ok w'.
Proof.
  intros Hc [H1 H2 H3 H4 H5 H6] Hstep. destruct Hstep as [st queue sent msg k Hk Hnew Hrow|st queue sent msg Hin
    |st queue queue' sent msg rd reached deleted st' Hin Hx Hl Hdel Hsub|st st' queue sent Hs Hi]; simpl in *.
  - split; simpl; try done.
    + intros msg' k' row [Hin| ->%list_elem_of_singleton]%elem_of_app Hk' Hr; [by apply (H2 msg' k')|].
      rewrite Hk in Hk'. injection Hk' as <-. by apply Hrow.
    + set_solver.
    + intros msg' [Hin| ->%list_elem_of_singleton]%elem_of_app; [by apply H4|by exists k].
    + intros a b [Ha| ->%list_elem_of_singleton]%elem_of_app [Hb| ->%list_elem_of_singleton]%elem_of_app E;
        [by apply H5|by apply Hnew|symmetry; by apply Hnew|done].
    + intros msg' [Hin| ->%list_elem_of_singleton]%elem_of_app; [|left; set_solver].
      destruct (H6 msg' Hin); [left; set_solver|by right].
  - split; simpl; try done; [set_solver|]. intros msg' Hm. destruct (H6 msg' Hm); [left; set_solver|by right].
  - destruct (H4 msg) as [k Hk]; [by apply H3|]. unfold listen_once in Hl. simpl in Hl.
    destruct (start_message msg rd st) as [o st1] eqn:Es.
    destruct (start_message_stores msg k rd st o st1 Hc Hk H1 (Hx k Hk)) as (Hd & Hrow & Hst & Hother); [|done|].
    { intros row. apply H2; [by apply H3|done]. }
    assert (st' = st1 /\ forall x, x ∈ deleted -> x = msg /\ is_ok o = true) as [-> Hdeleted].
    { destruct o as [h|e]; injection Hl as <- <-; (split; [done|]); [destruct reached|]; set_solver. }
    split; simpl; try done.
    + intros msg' k' row Hm' Hk' Hr. destruct (decide (k' = k)) as [->|Hne].
      * assert (msg' = msg) as -> by (apply H5; [done|by apply H3|by eapply same_key]). by apply Hrow.
      * rewrite Hother in Hr by done. by eapply H2.
    + intros x Hxq. by apply H3, Hsub.
    + intros msg' Hm'.
      assert (forall k' row, truthy_str (workflow_key m msg') = Some k' ->
        workflow_status st.1 !! k' = Some row -> handled st1.1 msg') as Hkeep.
      { intros k' row Hk' Hr. destruct (decide (k' = k)) as [->|Hne].
        - assert (msg' = msg) as -> by (apply H5; [done|by apply H3|by eapply same_key]).
          destruct Hst as [row' Hr']; [right; by eexists|]. exists k, row'. split; [done|]. split; [done|by apply Hrow].
        - exists k', row. split; [done|]. rewrite Hother by done. split; [done|by eapply H2]. }
      destruct (H6 msg' Hm') as [Hq|(k' & row & Hk' & Hr & _)]; [|right; by eapply Hkeep].
      destruct (Hdel _ Hq) as [?|Hd']; [by left|right]. destruct (Hdeleted _ Hd') as [-> Hok].
      destruct Hst as [row' Hr']; [by left|]. exists k, row'. split; [done|]. split; [done|by apply Hrow].
  - destruct Hs as [Hd Hev]. split; simpl; try done; [by apply Hi|].
    intros msg Hm. destruct (H6 msg Hm); [by left|right]. by eapply sqs_handled_since; [split|apply Hi| |].
Qed.

(** C40: Messages with keys of their own, sent to a queue that a consumer listens to: whatever SQS
    delivers again and wherever the processes die, each message is still in the queue or is one
    workflow in the database, that of the consumer with the message as its argument, and no
    other workflow has its ID. *)
Theorem received_exactly_once (st : exec_state) (w : Sqs) :
  can_start reg -> db_ok st.1 -> rtc sqs_step (SqsOf st [] []) w ->
  forall msg, msg ∈ sq_sent w ->
    (msg ∈ sq_queue w \/ handled (sq_st w).1 msg)
    /\ forall k row, truthy_str (workflow_key m msg) = Some k ->
         workflow_status (sq_st w).1 !! k = Some row -> message_row msg row.
Proof.
  intros Hc Hd Hrun.
  assert (sqs_ok (SqsOf st [] [])) as Hok by (split; simpl; try done; intros ?; set_solver).
  assert (sqs_ok w) as [_ H2 _ _ _ H6].
  { clear Hd. induction Hrun as [|w1 w2 w3 Hs _ IH]; [done|]. by apply IH, (sqs_step_ok w1). }
  intros msg Hm. split; [by apply H6|]. intros k row. by apply H2.
Qed.

End listener.

(** * Witnesses *)

Definition ex_consumer : SQSMethod unit :=
  SQSMethodOf (RegistrationOf "received" "Events" (Some (WorkflowConfigOf None None)) None) true
    (Some (SQSConfigOf (Some (AFunction (fun u => u))) None None None))
    (Some (SQSConfigOf None (Some "https://sqs/events") None None)) None.

Lemma ex_initialized :
  sqs_initialize (fun _ _ => None) [ex_consumer] = ([ListenerOf ex_consumer tt "https://sqs/events"], None).
Proof. reflexivity. Qed.

(** The URL is that of the class where it has one, though all else is the method's first. *)
Lemma class_url_first {C} (m : SQSMethod C) c url :
  sm_class m = Some c -> sc_queueUrl c = Some url -> method_url m = Some url.
Proof. intros Hc Hu. unfold method_url. rewrite Hc. simpl. by rewrite Hu. Qed.

Definition ex_body (msg : Message) (_ : option string) : string * option string := (default "" (mg_Body msg), None).

Definition ex_sqs_message : Message := MessageOf (Some "m-1") (Some "receipt") (Some "order 7").

Definition ex_sqs_readings (xid : string) : StartReadings := StartReadingsOf 100 100 100 101 "random" xid.

Local Notation in_ex f :=
  (f ex_body ex_ser ex_deser "js_superjson" "exec-1" "v1" "" ∅ ex_consumer).

Definition ex_listen (xid : string) (reached : bool) (st : exec_state) :=
  in_ex listen_once (SqsRoundOf (Got ex_sqs_message) (ex_sqs_readings xid) reached) st.

Definition ex_died : exec_state := (ex_listen "xid-1" false (empty_db, ∅)).2.

Definition ex_received : exec_state := (ex_listen "xid-2" true ex_died).2.

Lemma ex_consumer_starts : can_start (sm_registration ex_consumer).
Proof. split; [done|]. exists (WorkflowConfigOf None None). split; [done|]. by intros n. Qed.

(** The first process dies after the start; the message is delivered again and deleted. *)
Lemma received_exactly_once_witness :
  (ws_inputs <$> workflow_status ex_received.1 = {[ "m-1" := Some "order 7" ]})
  /\ (ex_sqs_message ∈ ([] : list Message) \/ handled ex_body ex_consumer (sq_st (SqsOf ex_received [] [ex_sqs_message])).1 ex_sqs_message).
Proof.
  split; [by vm_compute|].
  assert (rtc (in_ex sqs_step) (SqsOf (empty_db, ∅) [] []) (SqsOf ex_received [] [ex_sqs_message])) as Hrun.
  { eapply rtc_l.
    { apply (in_ex sends (empty_db, ∅) [] [] ex_sqs_message "m-1"); [done| |].
      - intros x ?%elem_of_nil. done.
      - intros row Hr. simpl in Hr. by rewrite lookup_empty in Hr. }
    eapply rtc_l.
    { apply (in_ex listens (empty_db, ∅) [ex_sqs_message] [ex_sqs_message] [ex_sqs_message] ex_sqs_message
        (ex_sqs_readings "xid-1") false [] ex_died); [set_solver| |by vm_compute|by left|done].
      intros k _ row Hr. simpl in Hr. by rewrite lookup_empty in Hr. }
    eapply rtc_l; [|apply rtc_refl].
    apply (in_ex listens ex_died [ex_sqs_message] [] [ex_sqs_message] ex_sqs_message
      (ex_sqs_readings "xid-2") true [ex_sqs_message] ex_received); [set_solver| |by vm_compute|by right|set_solver].
    intros k [= <-] row Hr. vm_compute in Hr. injection Hr as <-. discriminate. }
  exact (proj1 (in_ex received_exactly_once (empty_db, ∅) (SqsOf ex_received [] [ex_sqs_message])
    ex_consumer_starts empty_db_ok Hrun ex_sqs_message (list_elem_of_here _ _))).
Defined.
